(* ===== verification/_CoqProject ===== *)
-Q . S2P
Prelude.v
IpText.v
Float.v
Text.v
Profile.v
Health.v
Endpoint.v
Quality.v
Degraded.v
Session.v
Reprobe.v
Migrate.v
Probe.v
Selection.v
Engine.v
EngineSafety.v
Failover.v
Telemetry.v
PathMonitor.v
Rule.v
RuleEval.v
Origin.v
Builtin.v
Portal.v
ProbePlan.v
Effects.v
Undo.v
Names.v
Persist.v
TrustedFile.v
FeedEnvelope.v
FeedKeys.v
FeedDocument.v
FeedState.v
Json.v
Frame.v
Protocol.v
EventBus.v
IpcServer.v
Domain.v
Decimal.v
Transports.v
CoreConfig.v
Uapi.v
Credentials.v
Secrets.v
Configure.v
Approval.v
Orchestrator.v
SessionSwitch.v
Plan.v
FeedService.v
Intent.v
Registry.v
Netview.v
Diagnostics.v
Supervisor.v
Recovery.v
Service.v
