(* ===== verification/Prelude.v ===== *)
(** * DNet Engine: a verification of its decision core, its configuration and its service

    DNet Engine is a Windows service that carries a machine's traffic through a tunnel, over whichever of several
    transport profiles works where the machine is. A person talks to it over a named pipe (the tray and [dnetctl]); it
    starts and stops two third-party cores, keeps the machine's routes, follows which network is best, and accepts a
    signed feed of transport parameters. This library models the parts of it that decide, in crates/dnet-core,
    dnet-config, dnet-ipc, dnetd and the parts of dnet-netstate, dnet-probe, dnet-provision and dnet-supervisor named
    below, and proves what makes them correct. Paths are under src/crates.

    ** How the code is embedded

    Every Rust function is a Rocq function of the same name, on the same data. [Result<T, E>] is [result E T]; a panic
    (an [expect], an index out of range, an overflow the code does not check) is the [None] of an [option], so a theorem
    that a function returns [Some] says it does not panic. Integers are [Z] with the wrapping, saturating or checking
    operation of the source written out at its width; [f64] values are the [spec_float]s of the standard library, rounded
    to nearest even; a [String] is a [string] of its UTF-8 bytes. Struct fields that are changed are state passed from
    call to call; a [HashMap] is a [gmap]; [Vec] is [list]. What the code does to the world is one of three things: an
    action in a list (the engine), a program over effects whose answers the world chooses and that can be cut off between
    any two of them (Effects, used where a crash matters), or a step relation (where several tasks run at once). Clocks,
    random bytes and new identifiers are arguments.

    ** The parts, and where they are

    Shared: Prelude (results, lists, sorting, automation), Effects (programs that can be cut off), IpText
    ([std::net::IpAddr] and its text), Float ([f64]), Text ([str], [char]), Decimal (numbers in text), Json.

    The engine (dnet-core). Profile: ids.rs, tier.rs, catalogue.rs, credential.rs, error.rs, profile.rs. Health: health.rs,
    the probe state machine with its RFC 6298 estimators. Endpoint: endpoint.rs, endpoint_health.rs. Quality: path.rs,
    quality.rs. Degraded: degraded.rs. Session: session.rs, failure.rs. Reprobe: reprobe.rs. Migrate: migrate.rs. Probe:
    probe.rs. Selection: selection.rs, posture.rs, profile_start.rs. Engine: engine.rs, which joins all of these in
    [Engine.step], from an input to a new engine and a list of actions. EngineSafety: the specification of a step as what
    it does to the machine the daemon drives, and the proof that [step] implements it. Failover, Telemetry, PathMonitor:
    failover.rs, telemetry.rs, path_monitor.rs, the choice of the network that carries. Portal, ProbePlan: portal.rs,
    portal_expiry.rs, probe_plan.rs, tick_gap.rs. Registry: registry.rs with dnetd's components.rs and dnet-ipc's
    componentview.rs.

    Rules (dnet-core). Rule: rule.rs, fakeip.rs. RuleEval: rule_eval.rs, the decision of a connection. Origin: origin.rs.
    Builtin: builtin_rules.rs, doh_block.rs, doh_consent.rs. Names: hostname.rs, transport_params.rs.

    The feed (dnet-core/feed). FeedEnvelope: envelope.rs, feed.rs. FeedKeys: keys.rs. FeedDocument: document.rs,
    applied.rs. FeedState: state.rs, sign.rs, fetch.rs. FeedService: dnetd's feed_service.rs and feed_fetch.rs.

    What is stored (dnet-config, dnetd). Persist: persist.rs, and the class [StateFile] of what holds it. TrustedFile:
    trusted_file.rs, a state file on a disk whose writing calls may each fail, and the contract [StateFileLaws] of a state
    file, proved of it. Secrets: secret_store.rs. Credentials: credentials.rs.
    Domain: domain.rs, the store of endpoints, profiles and rules. Configure: configure.rs, each change a transaction
    over store, secrets and file. Approval: approval.rs, the changes that wait for an elevated client.

    What the cores are told (dnet-config, dnetd). Transports: tls.rs, hysteria2.rs, reality.rs, bind.rs, brutal.rs,
    endpoint_bypass.rs, secret.rs, error.rs. CoreConfig: primary.rs, session.rs, probe.rs, and the reading that
    tests/rule_agreement.rs takes of the generated rules. Uapi: uapi.rs, amneziawg.rs. SessionSwitch: dnetd's
    session_switch.rs. Plan: dnetd's plan.rs with dnet-probe's runner.rs and the origin of dnet-provision's bootstrap.rs.

    The pipe (dnet-ipc). Frame: frame.rs. Protocol: protocol.rs. EventBus: wire.rs and the streams of service.rs.
    Netview: netview.rs. IpcServer: authz.rs, version.rs, service.rs, server.rs.

    The service (dnetd, dnet-netstate, dnet-supervisor). Undo: undo.rs, the write-ahead journal of route changes.
    Recovery: recovery.rs. Supervisor: restart.rs, orphans.rs, reap.rs, process.rs, child.rs, runtime.rs, shutdown.rs,
    windows_runtime.rs. Orchestrator: orchestrator.rs and telemetry.rs, the actor that runs the engine, its executor and
    its handle, as one step relation. Intent: intent.rs, keep_trying.rs and dnet-netstate's notify.rs. Diagnostics:
    diagnostics.rs. Service: service_impl.rs, every request from the door to its reply.

    ** How they interact, and the interfaces between them

    A frame is read (Frame), becomes a request (Protocol), is authorized (IpcServer) and dispatched (Service). The service
    holds it for approval (Approval), or applies it: to the store through a transaction (Configure over Domain, Persist,
    TrustedFile and Secrets), to the feed (FeedService over FeedState), to the remembered wish (Intent), or to the orchestrator, which it
    knows through the class [Service.Handles] and its laws; [Service.system_handles] and [system_laws] discharge them from
    Orchestrator. The orchestrator's actor runs [Engine.step] and hands its actions to the executor, whose work is planned
    by Plan, which calls the generators (CoreConfig, Transports, Uapi) on the rules of Domain and the secrets of
    Credentials. Recovery runs before any of this, over Undo and the cores a crashed run left.

    ** What each group of theorems shows

    - Engine (EngineSafety): every step is a change of the daemon's machine that its specification allows; what blocked a
      tunnel is stopped before anything else starts; a profile named by the person is never replaced; no input panics; a
      failure is always told.
    - Rules (RuleEval, CoreConfig): DNS never leaves the tunnel by a person's rule, the built-in rules decide first, and the
      generated configuration of the core decides a connection as the evaluator does.
    - Feed (FeedState, FeedService): only documents signed by enough valid keys are accepted, versions never go back, and the
      running service equals what a restart would load, as long as no save has failed after replacing its file; the checks
      reach only the publisher.
    - Store (Configure, Domain, Credentials, Secrets): in memory and in the secrets changes are all or nothing, and on disk
      what is made is saved; a save that fails leaves the file as it was, or what was to be saved, or a file that is
      refused. The store stays well formed, and what is saved reads back.
    - Pipe (Frame, Protocol, Credentials, IpcServer): requests are served in order, once each, within their bounds and only
      if authorized; what is accepted can be written and is read as the same request, but for credentials whose form is
      longer than 16 KiB; the loop ends.
    - Connection (Orchestrator, Plan, CoreConfig, Failover): connected is shown only while the tunnel is up, a shutdown
      leaves nothing up, what is planned is sound, every outbound is the one its endpoint, transport and credentials ask
      for, and failover does not flap.
    - Service (Service, Recovery, Undo, Diagnostics): what crashed is restored before anything new; nothing new is trusted
      without an approval; settings do not change under a tunnel; the last word of the person is kept; a bundle keeps
      private things private.

    The lemmas that are not properties of the manifest are still stated for their own sake where a component promises
    more: see the theorems at the end of Approval, EventBus, Intent, Netview, PathMonitor, Registry, SessionSwitch,
    Supervisor and Uapi.

    ** Code that is not here: parameters

    Third-party code is a class, its documented behaviour a second class of laws that theorems take only where they use it,
    each with a concrete instance for the witnesses: uuid ([UuidDisplay], [UuidText]), Unicode lower-casing
    ([ToLowercase]), the [Debug] text of a string ([DebugText]), ed25519, base64 and the JSON of the feed
    ([FeedPrimitives], [KeysWire], [FeedWire], [FeedSigner]), serde_json ([JsonText], [ConfigText], [WireText]), base64 of keys ([Base64]), tokio's broadcast channel ([Broadcast]), the HTTP client ([Transport],
    [HttpAnswer]), the Windows sealing of secrets ([Sealer], [BlobStorage]), the core's resolver ([CoreDns]). The effects of
    the undo journal, of recovery and of the cores answer whatever the world does; what recovery is told of the orphans it
    ends is taken as [ReapOrphanCores] says it, that none is left after it succeeds, while orphans.rs passes over a process
    whose image path the system does not tell it.

    Between components of the program itself there are classes too, and their laws are proved of the program's own code:
    [StateFile] with [StateFileLaws] (what a write that succeeded wrote is read; after one that failed the file is as it
    was, or reads as what was to be written, or is refused: the file is renamed into place before its access is restricted)
    and [StateFileRemoval], proved of TrustedFile; [SecretStore] with [SecretStoreLaws] (what was put is read back, when
    its stored form is one the reader takes, [readable]), proved of the store that seals with the bundles of Credentials;
    [CredentialForm] and [BundlePorts], whose instances are the bundles of Credentials; the service class of IpcServer;
    [Handles], proved of Orchestrator; [ServerSetups], [Retry].

    ** Bounds and fuel

    Recursions that are not structural take fuel that is shown or chosen to be enough: the frame loop takes one turn for
    each byte that can still arrive; [Diagnostics.scrub_from] and [Supervisor.lines_of_buffer] take one turn for each byte
    of their text; the search for a free approval id takes one more than the changes that are held; the nudge of a switch
    takes the steps its deadline allows; redirects are bounded by [MAX_REDIRECTS] itself. The orchestrator's attempt
    counter is a [u64], so its theorems speak of runs of fewer than 2^64 steps. A request is served with one reading of
    each clock. What is said of reading credentials back is split at [MAX_STORED_LEN], the 16 KiB the reader takes. Reading
    a state file that is there does not fail in TrustedFile; only the calls that write may.

    ** Not modelled

    Calls of Windows (routes, adapters, notifications, Wi-Fi, job objects, the pipe's security, the service control
    manager): dnet-netstate's adapter.rs, echo.rs, probe.rs, wifi.rs, win_*.rs, dnet-supervisor's job.rs, dnet-ipc's win.rs
    and client.rs, dnet-config's write.rs but for its descriptors, dnetd's svc.rs, console.rs, listener.rs, main.rs,
    winwatch.rs, install.rs, effects.rs: they pass what is decided here to the system, or the system's answers back.
    Starting and racing probes over the network (dnet-probe's race.rs, measure.rs, socks5.rs). Texts and screens: dnet-view, dnetctl, the tray. The set-up of servers over SSH and
    the providers' APIs (dnet-provision, but for the parts named above), the attribution of flows to programs (dnet-etw),
    build tasks (xtask). Wiping secrets from memory has no counterpart in a pure model. *)

From stdpp Require Export base tactics option list list_numbers gmap strings pretty.
From stdpp Require Export sorting.
From Stdlib Require Export ZArith Lia Sorted.

#[global] Open Scope string_scope.
#[global] Open Scope list_scope.
#[global] Open Scope Z_scope.

(** * Fallible code

    A Rust [Result<T, E>] is [result E T]; a panic ([expect], an index out of range, an
    overflowing [Duration]) is the [None] of an [option].  Both are monads, with stdpp's
    [x ← e; k] notation. *)

Inductive result (E T : Type) : Type :=
  | Ok (t : T)
  | Err (e : E).
Arguments Ok {E T} t.
Arguments Err {E T} e.

#[export] Instance result_ret {E} : MRet (result E) := fun T t => Ok t.
#[export] Instance result_bind {E} : MBind (result E) := fun A B f r =>
  match r with
  | Ok a => f a
  | Err e => Err e
  end.
#[export] Instance result_eq_dec {E T} `{EqDecision E, EqDecision T} : EqDecision (result E T).
Proof. solve_decision. Defined.

Definition is_ok {E T} (r : result E T) : bool :=
  match r with Ok _ => true | Err _ => false end.

Definition ok_or {E T} (o : option T) (e : E) : result E T :=
  match o with Some t => Ok t | None => Err e end.

(** [?] on a check: the rest is reached only when the check passed. *)
Lemma bind_Ok {E A B} (r : result E A) (k : A → result E B) b :
  mbind (M := result E) k r = Ok b ↔ ∃ a, r = Ok a ∧ k a = Ok b.
Proof. destruct r; simpl; naive_solver. Qed.

Lemma ok_or_Ok {E A} (o : option A) (e : E) a : ok_or o e = Ok a ↔ o = Some a.
Proof. destruct o; simpl; naive_solver. Qed.

Lemma bind_Ok_2 {E A B} (r : result E A) (k : A → result E B) a b :
  r = Ok a → k a = Ok b → mbind (M := result E) k r = Ok b.
Proof. by intros ->. Qed.

(** Peel the checks off a [?] chain that ended in [Ok]. *)
Ltac unbind H :=
  repeat (let u := fresh "u" in let Hu := fresh "Hu" in apply bind_Ok in H as (u & Hu & H)).

(** * Machine integers

    Unsigned integers are values of [Z]; what the source does at their limits is written out. *)

Definition U8_MAX : Z := 2 ^ 8 - 1.
Definition U16_MAX : Z := 2 ^ 16 - 1.
Definition U32_MAX : Z := 2 ^ 32 - 1.
Definition U64_MAX : Z := 2 ^ 64 - 1.
Definition U128_MAX : Z := 2 ^ 128 - 1.

Definition u32_saturating_add (a b : Z) : Z := Z.min U32_MAX (a + b).
Definition u32_checked_add (a b : Z) : option Z := if a + b <=? U32_MAX then Some (a + b) else None.
(** [+=] on a [u32], which wraps in a release build. *)
Definition u32_wrapping_add (a b : Z) : Z := (a + b) mod 2 ^ 32.
Definition u64_saturating_add (a b : Z) : Z := Z.min U64_MAX (a + b).
Definition u64_saturating_sub (a b : Z) : Z := Z.max 0 (a - b).
Definition u64_saturating_mul (a b : Z) : Z := Z.min U64_MAX (a * b).

(** * Time

    A [Duration] is its number of nanoseconds, at most [DURATION_MAX] (64 bits of seconds and a
    nanosecond part below 10^9).  An [Instant] is the monotonic clock's reading in nanoseconds. *)

Abbreviation Duration := Z (only parsing).
Abbreviation Instant := Z (only parsing).

Definition NANOS_PER_SEC : Z := 1000000000.
Definition DURATION_MAX : Duration := 2 ^ 64 * NANOS_PER_SEC - 1.
Definition from_secs (s : Z) : Duration := s * NANOS_PER_SEC.
Definition from_millis (ms : Z) : Duration := ms * 1000000.
Definition as_millis (d : Duration) : Z := d / 1000000.
(** [Duration * u32], whose overflow is a panic. *)
Definition duration_mul (d : Duration) (n : Z) : option Duration :=
  if d * n <=? DURATION_MAX then Some (d * n) else None.
Definition duration_saturating_sub (a b : Duration) : Duration := Z.max 0 (a - b).
Definition duration_saturating_add (a b : Duration) : Duration := Z.min DURATION_MAX (a + b).
Definition saturating_duration_since (now earlier : Instant) : Duration := Z.max 0 (now - earlier).

(** * Orderings and lists *)

(** [Ordering::then]. *)
Definition cmp_then (a b : comparison) : comparison :=
  match a with Eq => b | _ => a end.

(** [Option<T>]'s derived order: [None] before [Some]. *)
Definition option_compare {A} (cmp : A → A → comparison) (a b : option A) : comparison :=
  match a, b with
  | None, None => Eq
  | None, Some _ => Lt
  | Some _, None => Gt
  | Some x, Some y => cmp x y
  end.

Section Lists.
Context {A : Type}.

(** [iter_mut().find(p)] followed by a change of what was found. *)
Fixpoint update_first (p : A → bool) (g : A → A) (l : list A) : list A :=
  match l with
  | [] => []
  | x :: l' => if p x then g x :: l' else x :: update_first p g l'
  end.

(** [Iterator::min_by]: the first of equal minima. *)
Definition min_by (cmp : A → A → comparison) (l : list A) : option A :=
  match l with
  | [] => None
  | x :: l' => Some (fold_left (fun a b => match cmp a b with Gt => b | _ => a end) l' x)
  end.

(** [Iterator::max_by_key]: the last of equal maxima. *)
Definition max_by (cmp : A → A → comparison) (l : list A) : option A :=
  match l with
  | [] => None
  | x :: l' => Some (fold_left (fun a b => match cmp a b with Gt => a | _ => b end) l' x)
  end.

Fixpoint insert_by (cmp : A → A → comparison) (x : A) (l : list A) : list A :=
  match l with
  | [] => [x]
  | y :: l' => match cmp x y with Gt => y :: insert_by cmp x l' | _ => x :: l end
  end.

(** [slice::sort_by]: stable, so equal elements keep their order. *)
Definition sort_by (cmp : A → A → comparison) (l : list A) : list A :=
  fold_right (insert_by cmp) [] l.
End Lists.

(** * Tactics *)

(** Case analysis on whatever the goal or a hypothesis is stuck on. *)
Ltac destruct_match :=
  match goal with
  | |- context [match ?x with _ => _ end] => destruct x eqn:?
  end.

Ltac destruct_match_in H :=
  match type of H with
  | context [match ?x with _ => _ end] => destruct x eqn:?
  end.

(** Turn boolean tests among the hypotheses into propositions. *)
Ltac bool_simpl :=
  repeat match goal with
  | H : _ && _ = true |- _ => apply andb_true_iff in H; destruct H
  | H : _ || _ = false |- _ => apply orb_false_iff in H; destruct H
  | H : negb _ = true |- _ => apply negb_true_iff in H
  | H : negb _ = false |- _ => apply negb_false_iff in H
  | H : bool_decide _ = true |- _ => apply bool_decide_eq_true in H
  | H : bool_decide _ = false |- _ => apply bool_decide_eq_false in H
  | H : (_ <=? _) = true |- _ => apply Z.leb_le in H
  | H : (_ <=? _) = false |- _ => apply Z.leb_gt in H
  | H : (_ <? _) = true |- _ => apply Z.ltb_lt in H
  | H : (_ <? _) = false |- _ => apply Z.ltb_ge in H
  | H : (_ =? _) = true |- _ => apply Z.eqb_eq in H
  | H : (_ =? _) = false |- _ => apply Z.eqb_neq in H
  end.

(** Close a goal by case analysis on all that it is stuck on. *)
Ltac crush := repeat (simpl in *; try destruct_match; simplify_eq; try done).

(** * Total preorders given by a comparison

    What [sort_by], [min_by] and [max_by] need of the comparison they are given. *)

Class TotalCompare {A} (cmp : A → A → comparison) : Prop := {
  compare_flip x y : cmp y x = CompOpp (cmp x y);
  compare_trans x y z : cmp x y ≠ Gt → cmp y z ≠ Gt → cmp x z ≠ Gt;
}.

Section Compare.
Context {A : Type} (cmp : A → A → comparison) `{!TotalCompare cmp}.

Lemma compare_refl x : cmp x x = Eq.
Proof. pose proof (compare_flip x x) as H. by destruct (cmp x x). Qed.

Lemma compare_gt_lt x y : cmp x y = Gt → cmp y x = Lt.
Proof. intros H. by rewrite (compare_flip x y), H. Qed.

Lemma compare_gt_le x y : cmp x y = Gt → cmp y x ≠ Gt.
Proof. intros H%compare_gt_lt. by rewrite H. Qed.

Lemma compare_eq_sym x y : cmp x y = Eq → cmp y x = Eq.
Proof. intros H. by rewrite (compare_flip x y), H. Qed.

(** A strict step followed by a weak one is strict. *)
Lemma compare_lt_le x y z : cmp x y = Lt → cmp y z ≠ Gt → cmp x z = Lt.
Proof.
  intros Hxy Hyz. destruct (cmp x z) eqn:Hxz; [|done|].
  - exfalso. assert (cmp y x ≠ Gt) as Hyx.
    { apply (compare_trans y z x); [done|]. by rewrite (compare_flip x z), Hxz. }
    by rewrite (compare_flip x y), Hxy in Hyx.
  - exfalso. refine (compare_trans x y z _ Hyz Hxz). by rewrite Hxy.
Qed.

Lemma compare_le_lt x y z : cmp x y ≠ Gt → cmp y z = Lt → cmp x z = Lt.
Proof.
  intros Hxy Hyz. destruct (cmp x z) eqn:Hxz; [|done|].
  - exfalso. assert (cmp z y ≠ Gt) as Hzy.
    { apply (compare_trans z x y); [|done]. by rewrite (compare_flip x z), Hxz. }
    by rewrite (compare_flip y z), Hyz in Hzy.
  - exfalso. refine (compare_trans x y z Hxy _ Hxz). by rewrite Hyz.
Qed.
End Compare.

#[export] Instance Z_total_compare : TotalCompare Z.compare.
Proof.
  split; [intros x y; apply Z.compare_antisym|].
  intros x y z. rewrite !Z.compare_ngt_iff. lia.
Qed.

(** The same comparison on a key, and with its arguments exchanged. *)
#[export] Instance on_key_total_compare {A B} (key : A → B) cmp :
  TotalCompare cmp → TotalCompare (fun x y => cmp (key x) (key y)).
Proof. intros H. split; intros *; [apply compare_flip | apply compare_trans]. Qed.

Lemma flip_total_compare {A} (cmp : A → A → comparison) :
  TotalCompare cmp → TotalCompare (fun x y => cmp y x).
Proof.
  intros H. split; [intros x y; apply compare_flip|].
  intros x y z Hxy Hyz. by apply (compare_trans z y x).
Qed.

#[export] Instance cmp_then_total_compare {A} (c1 c2 : A → A → comparison) :
  TotalCompare c1 → TotalCompare c2 → TotalCompare (fun x y => cmp_then (c1 x y) (c2 x y)).
Proof.
  intros H1 H2. split.
  - intros x y. rewrite (compare_flip x y), (compare_flip (cmp := c2) x y).
    by destruct (c1 x y).
  - intros x y z Hxy Hyz.
    destruct (c1 x y) eqn:E1, (c1 y z) eqn:E2; simpl in *; try done.
    + assert (c1 x z = Eq) as ->.
      { destruct (c1 x z) eqn:E3; [done| |].
        - assert (c1 z y ≠ Gt) as Hzy by (by rewrite (compare_flip y z), E2).
          pose proof (compare_lt_le c1 x z y E3 Hzy). congruence.
        - exfalso. refine (compare_trans (cmp := c1) x y z _ _ E3); by rewrite ?E1, ?E2. }
      by apply (compare_trans x y z).
    + assert (c1 x z = Lt) as ->; [|done].
      apply (compare_le_lt c1 x y z); by rewrite ?E1.
    + assert (c1 x z = Lt) as ->; [|done].
      apply (compare_lt_le c1 x y z); by rewrite ?E2.
    + assert (c1 x z = Lt) as ->; [|done].
      apply (compare_lt_le c1 x y z); by rewrite ?E2.
Qed.

#[export] Instance option_total_compare {A} (cmp : A → A → comparison) :
  TotalCompare cmp → TotalCompare (option_compare cmp).
Proof.
  intros H. split.
  - intros [x|] [y|]; simpl; [apply compare_flip|done..].
  - intros [x|] [y|] [z|]; simpl; try done. apply compare_trans.
Qed.

(** * Sorting and choosing *)

Section Sorting.
Context {A : Type} (cmp : A → A → comparison) `{!TotalCompare cmp}.
Implicit Types (x y : A) (l : list A).

Definition le_by x y : Prop := cmp x y ≠ Gt.

#[export] Instance le_by_dec x y : Decision (le_by x y).
Proof. apply _. Defined.

Lemma le_by_eq x y : cmp x y = Eq → le_by x y.
Proof. unfold le_by. by intros ->. Qed.

Lemma le_by_lt x y : cmp x y = Lt → le_by x y.
Proof. unfold le_by. by intros ->. Qed.

Lemma le_by_refl x : le_by x x.
Proof. apply le_by_eq, compare_refl, _. Qed.

Hint Resolve le_by_eq le_by_lt le_by_refl : core.

Lemma insert_by_permutation x l : insert_by cmp x l ≡ₚ x :: l.
Proof.
  induction l as [|y l IH]; [done|]. simpl. destruct (cmp x y); [done..|].
  by rewrite IH, Permutation_swap.
Qed.

Lemma sort_by_permutation l : sort_by cmp l ≡ₚ l.
Proof. induction l as [|x l IH]; [done|]. simpl. by rewrite insert_by_permutation, IH. Qed.

Lemma elem_of_sort_by x l : x ∈ sort_by cmp l ↔ x ∈ l.
Proof. by rewrite sort_by_permutation. Qed.

Lemma insert_by_sorted x l : StronglySorted le_by l → StronglySorted le_by (insert_by cmp x l).
Proof.
  induction 1 as [|y l Hl IH Hy]; simpl; [repeat constructor|].
  destruct (cmp x y) eqn:E.
  - constructor; [by constructor|]. constructor; [unfold le_by; by rewrite E|].
    eapply Forall_impl; [exact Hy|]. intros z Hz.
    apply (compare_trans x y z); [by rewrite E|done].
  - constructor; [by constructor|]. constructor; [unfold le_by; by rewrite E|].
    eapply Forall_impl; [exact Hy|]. intros z Hz.
    apply (compare_trans x y z); [by rewrite E|done].
  - constructor; [done|]. rewrite insert_by_permutation. constructor; [|done].
    by apply compare_gt_le.
Qed.

Lemma sort_by_sorted l : StronglySorted le_by (sort_by cmp l).
Proof. induction l as [|x l IH]; [constructor|]. by apply insert_by_sorted. Qed.

(** Stability: among elements that compare equal, the given order is kept. *)
Lemma insert_by_stable (P : A → Prop) `{!∀ x, Decision (P x)} x l :
  (∀ y z, P y → P z → cmp y z = Eq) →
  filter P (insert_by cmp x l) = filter P (x :: l).
Proof.
  intros HP. induction l as [|y l IH]; [done|]. simpl.
  destruct (cmp x y) eqn:E; [done..|].
  rewrite filter_cons, IH, !filter_cons.
  destruct (decide (P x)), (decide (P y)); try done.
  by rewrite HP in E.
Qed.

Lemma sort_by_stable (P : A → Prop) `{!∀ x, Decision (P x)} l :
  (∀ y z, P y → P z → cmp y z = Eq) → filter P (sort_by cmp l) = filter P l.
Proof.
  intros HP. induction l as [|x l IH]; [done|]. simpl.
  rewrite insert_by_stable by done. rewrite !filter_cons. by rewrite IH.
Qed.

(** Without ties there is one sorted order. *)
Lemma sorted_unique l1 l2 :
  (∀ x y, x ∈ l1 → y ∈ l1 → cmp x y = Eq → x = y) →
  StronglySorted le_by l1 → StronglySorted le_by l2 → l1 ≡ₚ l2 → l1 = l2.
Proof.
  intros Hinj Hs1. revert l2. induction Hs1 as [|x l1 Hs1 IH Hx]; intros l2 Hs2 Hp.
  { by apply Permutation_nil_l in Hp as ->. }
  destruct Hs2 as [|y l2 Hs2 Hy]; [by apply Permutation_nil_r in Hp|].
  assert (x = y) as ->.
  { assert (x ∈ y :: l2) as Hxin by (rewrite <-Hp; set_solver).
    assert (y ∈ x :: l1) as Hyin by (rewrite Hp; set_solver).
    apply elem_of_cons in Hxin as [->|Hxin]; [done|].
    apply elem_of_cons in Hyin as [->|Hyin]; [done|].
    rewrite Forall_forall in Hx, Hy. pose proof (Hx y Hyin) as H1. pose proof (Hy x Hxin) as H2.
    apply Hinj; [set_solver..|]. unfold le_by in *. rewrite (compare_flip x y) in H2.
    by destruct (cmp x y). }
  f_equal. apply IH; [set_solver|done|]. by apply Permutation_cons_inv in Hp.
Qed.

Lemma sort_by_perm_eq l1 l2 :
  (∀ x y, x ∈ l1 → y ∈ l1 → cmp x y = Eq → x = y) →
  sort_by cmp l1 = sort_by cmp l2 ↔ l1 ≡ₚ l2.
Proof.
  intros Hinj. split; intros H.
  - by rewrite <-(sort_by_permutation l1), H, sort_by_permutation.
  - apply sorted_unique; [|apply sort_by_sorted..|by rewrite !sort_by_permutation].
    intros x y. rewrite !elem_of_sort_by. apply Hinj.
Qed.

(** [min_by] finds a minimum, and the first of those there are. *)
Definition first_min (m : A) (l : list A) : Prop :=
  ∃ l1 l2, l = l1 ++ m :: l2 ∧ (∀ x, x ∈ l1 → cmp m x = Lt) ∧ (∀ x, x ∈ l → le_by m x).

Lemma fold_min_spec l x :
  let m := fold_left (fun a b => match cmp a b with Gt => b | _ => a end) l x in
  (m = x ∧ ∀ y, y ∈ l → le_by x y) ∨
  (∃ l1 l2, l = l1 ++ m :: l2 ∧ cmp m x = Lt ∧
     (∀ y, y ∈ l1 → cmp m y = Lt) ∧ (∀ y, y ∈ l → le_by m y)).
Proof.
  revert x. induction l as [|y l IH]; intros x; simpl; [left; set_solver|].
  destruct (decide (le_by x y)) as [Hxy|Hxy].
  - replace (match cmp x y with Gt => y | _ => x end) with x by (unfold le_by in Hxy; by destruct (cmp x y)).
    destruct (IH x) as [[Hm Hle]|(l1 & l2 & Hl & Hlt & Hl1 & Hle)].
    + left. split; [done|]. intros z [->|Hz]%elem_of_cons; auto.
    + right. eexists (y :: l1), l2. pose proof (compare_lt_le cmp _ _ _ Hlt Hxy).
      split; [simpl; by f_equal|]. split; [done|].
      split; intros z [->|Hz]%elem_of_cons; auto.
  - destruct (cmp x y) eqn:E; [by destruct Hxy; auto..|].
    pose proof (compare_gt_lt cmp x y E) as Hyx. right.
    destruct (IH y) as [[Hm Hle]|(l1 & l2 & Hl & Hlt & Hl1 & Hle)].
    + exists [], l. rewrite Hm. repeat split; [done|set_solver|].
      intros z [->|Hz]%elem_of_cons; auto.
    + eexists (y :: l1), l2. split; [simpl; by f_equal|].
      split; [apply (compare_lt_le cmp _ _ _ Hlt); by rewrite Hyx|].
      split; intros z [->|Hz]%elem_of_cons; auto.
Qed.

Lemma min_by_first_min l m : min_by cmp l = Some m → first_min m l.
Proof.
  destruct l as [|x l]; [done|]. intros [= <-].
  destruct (fold_min_spec l x) as [[Hm Hle]|(l1 & l2 & Hl & Hlt & Hl1 & Hle)].
  - exists [], l. rewrite Hm. repeat split; [set_solver|].
    intros y [->|Hy]%elem_of_cons; auto.
  - exists (x :: l1), l2. split; [simpl; by f_equal|].
    split; intros y [->|Hy]%elem_of_cons; auto.
Qed.

Lemma min_by_None l : min_by cmp l = None ↔ l = [].
Proof. by destruct l. Qed.

Lemma first_min_unique l m m' : first_min m l → first_min m' l → m = m'.
Proof.
  intros (l1 & l2 & -> & Hl1 & Hle) (l1' & l2' & Heq & Hl1' & Hle').
  revert l1' Heq Hl1'. induction l1 as [|x l1 IH]; intros [|x' l1'] Heq Hl1';
    simplify_eq/=; try done.
  - exfalso. pose proof (Hl1' x' ltac:(set_solver)) as Hlt.
    apply (Hle m' ltac:(set_solver)). by rewrite (compare_flip m' x'), Hlt.
  - exfalso. pose proof (Hl1 m' ltac:(set_solver)) as Hlt.
    apply (Hle' m ltac:(set_solver)). by rewrite (compare_flip m m'), Hlt.
  - apply (IH ltac:(set_solver) ltac:(set_solver) ltac:(set_solver) l1'); [done|set_solver].
Qed.

Lemma min_by_elem l m : min_by cmp l = Some m → m ∈ l.
Proof. intros (l1 & l2 & -> & _)%min_by_first_min. set_solver. Qed.

Lemma min_by_le l m x : min_by cmp l = Some m → x ∈ l → le_by m x.
Proof. intros (l1 & l2 & -> & _ & Hle)%min_by_first_min. apply Hle. Qed.

(** The head of the sorted list is what [min_by] chooses. *)
Lemma sort_by_head l : head (sort_by cmp l) = min_by cmp l.
Proof.
  destruct (min_by cmp l) as [m|] eqn:E; [|apply min_by_None in E; by subst].
  apply min_by_first_min in E as (l1 & l2 & -> & Hl1 & Hle).
  induction l1 as [|x l1 IH]; simpl.
  - destruct (sort_by cmp l2) as [|y l] eqn:E; [done|]. simpl.
    assert (le_by m y) as Hy.
    { apply Hle. simpl. rewrite elem_of_cons, <-(elem_of_sort_by _ l2), E. set_solver. }
    unfold le_by in Hy. by destruct (cmp m y).
  - assert (head (sort_by cmp (l1 ++ m :: l2)) = Some m) as IH'.
    { apply IH; [set_solver|]. intros y Hy. apply Hle. set_solver. }
    destruct (sort_by cmp (l1 ++ m :: l2)) as [|y l]; simplify_eq/=.
    assert (cmp x m = Gt) as ->; [|done].
    rewrite (compare_flip m x), Hl1; [done|set_solver].
Qed.
End Sorting.

(** * Lists *)

Section ListLemmas.
Context {A : Type}.
Implicit Types (l : list A) (p : A → bool).

Lemma existsb_exists_elem p l : existsb p l = true ↔ ∃ x, x ∈ l ∧ p x = true.
Proof. rewrite existsb_exists. by setoid_rewrite list_elem_of_In. Qed.

Lemma forallb_forall_elem p l : forallb p l = true ↔ ∀ x, x ∈ l → p x = true.
Proof. rewrite forallb_forall. by setoid_rewrite list_elem_of_In. Qed.

Lemma existsb_false_elem p l : existsb p l = false ↔ ∀ x, x ∈ l → p x = false.
Proof.
  rewrite <-not_true_iff_false, existsb_exists_elem. split.
  - intros H x Hx. apply not_true_is_false. eauto.
  - intros H (x & Hx & Hp). by rewrite H in Hp.
Qed.

Lemma find_Some_elem p l x : List.find p l = Some x → x ∈ l ∧ p x = true.
Proof. intros [Hin Hp]%find_some. by rewrite list_elem_of_In. Qed.

Lemma find_None_elem p l : List.find p l = None → ∀ x, x ∈ l → p x = false.
Proof. intros H x Hx%list_elem_of_In. by apply (find_none p l). Qed.

Lemma find_is_Some p l : is_Some (List.find p l) ↔ existsb p l = true.
Proof.
  rewrite existsb_exists_elem. split.
  - intros [x [Hin Hp]%find_Some_elem]. eauto.
  - intros (x & Hin & Hp). destruct (List.find p l) eqn:E; [eauto|].
    by rewrite (find_None_elem _ _ E x Hin) in Hp.
Qed.

Lemma find_ext p q l : (∀ x, x ∈ l → p x = q x) → List.find p l = List.find q l.
Proof.
  induction l as [|x l IH]; intros H; [done|]. simpl.
  rewrite (H x) by set_solver. destruct (q x); [done|]. apply IH. set_solver.
Qed.

Lemma update_first_map {B} (f : A → B) p g l :
  (∀ x, p x = true → f (g x) = f x) → map f (update_first p g l) = map f l.
Proof.
  intros H. induction l as [|x l IH]; [done|]. simpl.
  destruct (p x) eqn:E; simpl; [by rewrite H|by rewrite IH].
Qed.

Lemma elem_of_update_first p g l x :
  x ∈ update_first p g l → x ∈ l ∨ ∃ y, y ∈ l ∧ p y = true ∧ x = g y.
Proof.
  induction l as [|y l IH]; simpl; [by intros ?%elem_of_nil|].
  destruct (p y) eqn:E; intros [->|Hx]%elem_of_cons.
  - right. exists y. set_solver.
  - left. set_solver.
  - left. set_solver.
  - destruct (IH Hx) as [?|(z & ? & ? & ?)]; [left|right; exists z]; set_solver.
Qed.

Lemma update_first_keeps p g l x :
  x ∈ l → ∃ x', x' ∈ update_first p g l ∧ (x' = x ∨ x' = g x).
Proof.
  induction l as [|y l IH]; simpl; [by intros ?%elem_of_nil|].
  intros [->|Hx]%elem_of_cons; destruct (p y).
  - exists (g y). set_solver.
  - exists y. set_solver.
  - exists x. set_solver.
  - destruct (IH Hx) as (x' & ? & ?). exists x'. set_solver.
Qed.

Lemma Forall_update_first (P : A → Prop) p g l :
  Forall P l → (∀ x, P x → p x = true → P (g x)) → Forall P (update_first p g l).
Proof.
  intros Hl Hg. induction Hl as [|x l Hx Hl IH]; simpl; [constructor|].
  destruct (p x) eqn:E; constructor; auto.
Qed.

Lemma update_first_none p g l : (∀ x, x ∈ l → p x = false) → update_first p g l = l.
Proof.
  induction l as [|x l IH]; intros H; [done|]. simpl.
  rewrite (H x) by set_solver. f_equal. apply IH. set_solver.
Qed.

Lemma length_update_first p g l : length (update_first p g l) = length l.
Proof. induction l as [|x l IH]; [done|]. simpl. destruct (p x); simpl; by rewrite ?IH. Qed.
End ListLemmas.

Lemma elem_of_filter_bool {A} (p : A → bool) l x : x ∈ List.filter p l ↔ x ∈ l ∧ p x = true.
Proof. rewrite !list_elem_of_In. apply filter_In. Qed.

Lemma elem_of_map {A B} (f : A → B) l y : y ∈ map f l ↔ ∃ x, y = f x ∧ x ∈ l.
Proof.
  rewrite list_elem_of_In, in_map_iff. setoid_rewrite <-list_elem_of_In. naive_solver.
Qed.

(** Elements with distinct keys are found by their key. *)
Lemma NoDup_map_inj {A B} (f : A → B) l x y :
  NoDup (map f l) → x ∈ l → y ∈ l → f x = f y → x = y.
Proof.
  intros Hn Hx Hy E. change (map f l) with (f <$> l) in Hn.
  apply list_elem_of_lookup in Hx as [i Hi]. apply list_elem_of_lookup in Hy as [j Hj].
  assert (i = j) as ->; [|congruence].
  apply (NoDup_lookup (f <$> l) i j (f x)); [done|..]; rewrite list_lookup_fmap, ?Hi, ?Hj; simpl; congruence.
Qed.

Lemma find_by_key {A B} `{EqDecision B} (f : A → B) l x :
  NoDup (map f l) → x ∈ l → List.find (fun y => bool_decide (f y = f x)) l = Some x.
Proof.
  intros Hn Hx. destruct (List.find _ _) as [y|] eqn:E.
  - apply find_Some_elem in E as [Hy E]. apply bool_decide_eq_true in E.
    f_equal. by apply (NoDup_map_inj f l).
  - pose proof (find_None_elem _ _ E x Hx) as Hf. by apply bool_decide_eq_false in Hf.
Qed.

Lemma find_app {A} (p : A → bool) l k :
  List.find p (l ++ k) = match List.find p l with Some x => Some x | None => List.find p k end.
Proof. induction l as [|x l IH]; [done|]. simpl. by destruct (p x). Qed.
