(* ===== verification/IpText.v ===== *)
(** IP addresses and their text form: the standard library's [std::net::IpAddr], with the parser and
    the [Display] that the source calls (crates/dnet-core/src/rule.rs, rule_eval.rs, fakeip.rs and
    builtin_rules.rs go from address to text and back). *)

From Stdlib Require Import Ascii.
From S2P Require Import Prelude.

(** * Addresses

    [IpAddr]: the 32 or 128 bits of the address. *)

Inductive IpAddr : Type :=
  | V4 (bits : Z)
  | V6 (bits : Z).

#[export] Instance IpAddr_eq_dec : EqDecision IpAddr.
Proof. solve_decision. Defined.

Definition is_ipv4 (ip : IpAddr) : bool := match ip with V4 _ => true | V6 _ => false end.

Definition ip_width (ip : IpAddr) : Z := match ip with V4 _ => 32 | V6 _ => 128 end.
Definition ip_bits (ip : IpAddr) : Z := match ip with V4 b | V6 b => b end.

(** The bits are those of a [u32] or a [u128]. *)
Definition ip_ok (ip : IpAddr) : Prop := 0 ≤ ip_bits ip < 2 ^ ip_width ip.

(** [Ipv6Addr::to_ipv4_mapped]. *)
Definition to_ipv4_mapped (bits : Z) : option Z :=
  if bits / 2 ^ 32 =? 65535 then Some (bits mod 2 ^ 32) else None.

(** The 16-bit segments of 128 bits, and the bits of a list of segments. *)
Definition segments (bits : Z) : list Z :=
  map (fun i => bits / 2 ^ (16 * i) mod 2 ^ 16) [7; 6; 5; 4; 3; 2; 1; 0].
Definition of_segments (gs : list Z) : Z := fold_left (fun acc g => acc * 2 ^ 16 + g) gs 0.
Definition octets (bits : Z) : list Z := map (fun i => bits / 2 ^ (8 * i) mod 2 ^ 8) [3; 2; 1; 0].
Definition of_octets (os : list Z) : Z := fold_left (fun acc o => acc * 2 ^ 8 + o) os 0.

(** * Reading *)

Definition char_code (c : Ascii.ascii) : Z := Z.of_N (Ascii.N_of_ascii c).

(** [char::to_digit]. *)
Definition to_digit (radix : Z) (c : Ascii.ascii) : option Z :=
  let n := char_code c in
  let d :=
    if (48 <=? n) && (n <=? 57) then n - 48
    else if (97 <=? n) && (n <=? 122) then n - 97 + 10
    else if (65 <=? n) && (n <=? 90) then n - 65 + 10
    else radix in
  if d <? radix then Some d else None.

(** The parsers take the text and give back what they read and the rest of it; one that fails has
    read nothing ([read_atomically]). *)
Abbreviation parser A := (string → option (A * string)) (only parsing).

Definition read_given_char (c : Ascii.ascii) (s : string) : option string :=
  match s with
  | String d s' => if Ascii.eqb c d then Some s' else None
  | EmptyString => None
  end.

Definition read_separator {A} (sep : Ascii.ascii) (index : nat) (inner : parser A) (s : string) :
    option (A * string) :=
  match index with
  | O => inner s
  | S _ => s' ← read_given_char sep s; inner s'
  end.

Fixpoint read_digits (radix max_value : Z) (max_digits : nat) (acc : Z) (count : nat) (s : string) :
    option (Z * nat * string) :=
  match s with
  | EmptyString => Some (acc, count, s)
  | String c s' =>
      match to_digit radix c with
      | None => Some (acc, count, s)
      | Some d =>
          if max_value <? acc * radix + d then None
          else if bool_decide (max_digits < S count)%nat then None
          else read_digits radix max_value max_digits (acc * radix + d) (S count) s'
      end
  end.

Definition starts_with_zero (s : string) : bool :=
  match s with String c _ => Ascii.eqb c "0"%char | EmptyString => false end.

(** [Parser::read_number]. *)
Definition read_number (radix max_value : Z) (max_digits : nat) (allow_zero_prefix : bool) (s : string) :
    option (Z * string) :=
  '(result, digit_count, rest) ← read_digits radix max_value max_digits 0 0 s;
  if bool_decide (digit_count = 0%nat) then None
  else if negb allow_zero_prefix && starts_with_zero s && bool_decide (1 < digit_count)%nat then None
  else Some (result, rest).

Definition read_octet : parser Z := read_number 10 255 3 false.
Definition read_group : parser Z := read_number 16 65535 4 true.

(** [Parser::read_ipv4_addr]. *)
Definition read_ipv4_addr (s : string) : option (Z * string) :=
  '(a, s) ← read_separator "." 0 read_octet s;
  '(b, s) ← read_separator "." 1 read_octet s;
  '(c, s) ← read_separator "." 2 read_octet s;
  '(d, s) ← read_separator "." 3 read_octet s;
  Some (of_octets [a; b; c; d], s).

(** [read_groups]: from index [i], with room for [left] more; whether an IPv4 tail was read. *)
Fixpoint read_groups (i left : nat) (s : string) : list Z * bool * string :=
  match left with
  | O => ([], false, s)
  | S left' =>
      match (match left' with O => None | S _ => read_separator ":" i read_ipv4_addr s end) with
      | Some (v4, s') => ([v4 / 2 ^ 16; v4 mod 2 ^ 16], true, s')
      | None =>
          match read_separator ":" i read_group s with
          | None => ([], false, s)
          | Some (g, s') =>
              let '(gs, ipv4, s'') := read_groups (S i) left' s' in (g :: gs, ipv4, s'')
          end
      end
  end.

(** [Parser::read_ipv6_addr]. *)
Definition read_ipv6_addr (s : string) : option (Z * string) :=
  let '(head, head_ipv4, s) := read_groups 0 8 s in
  if bool_decide (length head = 8%nat) then Some (of_segments head, s)
  else if head_ipv4 : bool then None
  else
    s ← read_given_char ":" s;
    s ← read_given_char ":" s;
    let '(tail, _, s) := read_groups 0 (8 - (length head + 1)) s in
    Some (of_segments (head ++ repeat 0 (8 - length head - length tail) ++ tail), s).

(** [<IpAddr as FromStr>::from_str]: the whole text must be read. *)
Definition parse_ip (s : string) : option IpAddr :=
  '(ip, rest) ←
    match read_ipv4_addr s with
    | Some (bits, rest) => Some (V4 bits, rest)
    | None => '(bits, rest) ← read_ipv6_addr s; Some (V6 bits, rest)
    end;
  if String.eqb rest EmptyString then Some ip else None.

(** * Printing *)

Definition hex_digit (d : Z) : Ascii.ascii := Ascii.ascii_of_N (Z.to_N (if d <? 10 then 48 + d else 87 + d)).
Definition dec_digit (d : Z) : Ascii.ascii := Ascii.ascii_of_N (Z.to_N (48 + d)).

(** [{:x}] of a [u16], and [{}] of a [u8]. *)
Definition hex (n : Z) : string :=
  let d i := hex_digit (n / 16 ^ i mod 16) in
  let digits := [d 3; d 2; d 1; d 0] in
  String.string_of_list_ascii
    (drop (if n <? 16 then 3 else if n <? 256 then 2 else if n <? 4096 then 1 else 0) digits).
Definition dec (n : Z) : string :=
  let d i := dec_digit (n / 10 ^ i mod 10) in
  String.string_of_list_ascii (drop (if n <? 10 then 2 else if n <? 100 then 1 else 0) [d 2; d 1; d 0]).

Fixpoint join (sep : string) (l : list string) : string :=
  match l with
  | [] => EmptyString
  | [s] => s
  | s :: l' => s +:+ sep +:+ join sep l'
  end.

Definition ipv4_to_string (bits : Z) : string := join "." (map dec (octets bits)).

(** The longest run of zero segments, the first of the longest: its start and its length. *)
Fixpoint zero_run (i : nat) (current longest : nat * nat) (gs : list Z) : nat * nat :=
  match gs with
  | [] => longest
  | g :: gs' =>
      if g =? 0 then
        let current := ((if bool_decide (current.2 = 0%nat) then i else current.1), S current.2) in
        zero_run (S i) current (if bool_decide (longest.2 < current.2)%nat then current else longest) gs'
      else zero_run (S i) (0%nat, 0%nat) longest gs'
  end.

Definition fmt_subslice (gs : list Z) : string := join ":" (map hex gs).

(** [<Ipv6Addr as Display>::fmt]. *)
Definition ipv6_to_string (bits : Z) : string :=
  match to_ipv4_mapped bits with
  | Some v4 => "::ffff:" +:+ ipv4_to_string v4
  | None =>
      let gs := segments bits in
      let '(start, len) := zero_run 0 (0%nat, 0%nat) (0%nat, 0%nat) gs in
      if bool_decide (1 < len)%nat
      then fmt_subslice (take start gs) +:+ "::" +:+ fmt_subslice (drop (start + len) gs)
      else fmt_subslice gs
  end.

(** [<IpAddr as Display>::fmt]. *)
Definition ip_to_string (ip : IpAddr) : string :=
  match ip with V4 b => ipv4_to_string b | V6 b => ipv6_to_string b end.

Example ip_texts :
  map (fun s => ip_to_string <$> parse_ip s)
    ["10.9.0.254"; "fe80::"; "::1"; "::"; "::ffff:1.2.3.4"; "2001:db8:0:1::0:9"; "1:2:3:4:5:6:7:8"; "01.2.3.4";
     "1:2:3:4:5:6:1.2.3.4"; "1::2::3"; "fc00::/18"; "1:2:3:4:5:6:7::"] =
  [Some "10.9.0.254"; Some "fe80::"; Some "::1"; Some "::"; Some "::ffff:1.2.3.4"; Some "2001:db8:0:1::9";
   Some "1:2:3:4:5:6:7:8"; None; Some "1:2:3:4:5:6:102:304"; None; None; Some "1:2:3:4:5:6:7:0"].
Proof. vm_compute. reflexivity. Qed.

(** * Lemmas *)

Lemma str_app_assoc (a b c : string) : (a +:+ b) +:+ c = a +:+ (b +:+ c).
Proof. induction a as [|x a IH]; [done|]. change (String x ((a +:+ b) +:+ c) = String x (a +:+ (b +:+ c))). by rewrite IH. Qed.

Lemma str_app_nil (a : string) : a +:+ EmptyString = a.
Proof. induction a as [|x a IH]; [done|]. change (String x (a +:+ EmptyString) = String x a). by rewrite IH. Qed.

Abbreviation of_list := String.string_of_list_ascii (only parsing).

(** The text does not begin with a digit of the radix. *)
Definition stops (radix : Z) (s : string) : Prop :=
  match s with EmptyString => True | String c _ => to_digit radix c = None end.

(** Nor with a full stop. *)
Definition plain (s : string) : Prop :=
  stops 16 s ∧ match s with EmptyString => True | String c _ => c <> "."%char end.

Lemma to_digit_10_16 c : to_digit 16 c = None → to_digit 10 c = None.
Proof.
  unfold to_digit. intros H.
  destruct ((48 <=? char_code c) && (char_code c <=? 57)), ((97 <=? char_code c) && (char_code c <=? 122)),
    ((65 <=? char_code c) && (char_code c <=? 90));
    match type of H with context [?x <? 16] => destruct (Z.ltb_spec x 16); [done|] end;
    by rewrite (proj2 (Z.ltb_ge _ 10)) by lia.
Qed.

Lemma below_cases (P : Z → Prop) `{!∀ d, Decision (P d)} n d :
  forallb (fun d => bool_decide (P (Z.of_nat d))) (seq 0 n) = true → 0 ≤ d < Z.of_nat n → P d.
Proof.
  intros Hall Hd. rewrite forallb_forall_elem in Hall. specialize (Hall (Z.to_nat d)).
  rewrite Z2Nat.id in Hall by lia. eapply bool_decide_eq_true, Hall, elem_of_seq. lia.
Qed.

Lemma hex_digit_value d : 0 ≤ d < 16 → to_digit 16 (hex_digit d) = Some d.
Proof. apply (below_cases (fun d => to_digit 16 (hex_digit d) = Some d) 16). vm_compute. done. Qed.

Lemma hex_digit_no_dot d : 0 ≤ d < 16 → hex_digit d ≠ "."%char.
Proof. apply (below_cases (fun d => hex_digit d ≠ "."%char) 16). vm_compute. done. Qed.

Lemma dec_digit_value d : 0 ≤ d < 10 → to_digit 10 (dec_digit d) = Some d.
Proof. apply (below_cases (fun d => to_digit 10 (dec_digit d) = Some d) 10). vm_compute. done. Qed.

Lemma dec_digit_zero d : 0 ≤ d < 10 → Ascii.eqb (dec_digit d) "0"%char = (d =? 0).
Proof. apply (below_cases (fun d => Ascii.eqb (dec_digit d) "0"%char = (d =? 0)) 10). vm_compute. done. Qed.

(** Reading the digits [ds], written with [f], up to the end of the number. *)
Lemma read_digits_list radix max_value max_digits f ds acc count rest :
  0 < radix → 0 ≤ acc → stops radix rest →
  (∀ d, d ∈ ds → 0 ≤ d ∧ to_digit radix (f d) = Some d) →
  (length ds + count ≤ max_digits)%nat →
  fold_left (fun acc d => acc * radix + d) ds acc ≤ max_value →
  read_digits radix max_value max_digits acc count (of_list (map f ds) +:+ rest) =
    Some (fold_left (fun acc d => acc * radix + d) ds acc, (count + length ds)%nat, rest).
Proof.
  intros Hr Hacc Hrest Hds Hlen. revert acc count Hacc Hlen.
  induction ds as [|d ds IH]; intros acc count Hacc Hlen Hmax; simpl in *.
  - rewrite Nat.add_0_r. destruct rest as [|c rest]; [done|]. simpl in *. by rewrite Hrest.
  - destruct (Hds d ltac:(set_solver)) as [Hd ->].
    assert (∀ ds acc, (∀ d, d ∈ ds → 0 ≤ d) → 0 ≤ acc → acc ≤ fold_left (fun acc d => acc * radix + d) ds acc) as Hmono.
    { clear -Hr. induction ds as [|x ds IH]; intros acc Hd Hacc; simpl; [lia|].
      assert (0 ≤ x) by (apply Hd; set_solver). etransitivity; [|apply IH; [set_solver|nia]]. nia. }
    assert (acc * radix + d ≤ max_value).
    { etransitivity; [apply (Hmono ds); [|nia]|exact Hmax]. intros x Hx. apply (Hds x). set_solver. }
    rewrite (proj2 (Z.ltb_ge _ _)) by lia. rewrite bool_decide_eq_false_2 by lia.
    rewrite IH; [f_equal; f_equal; f_equal; lia|set_solver|nia|lia|done].
Qed.

Lemma hex_digits n : 0 ≤ n < 65536 →
  ∃ ds, hex n = of_list (map hex_digit ds) ∧ (∀ d, d ∈ ds → 0 ≤ d < 16) ∧ (0 < length ds ≤ 4)%nat ∧
    fold_left (fun acc d => acc * 16 + d) ds 0 = n.
Proof.
  intros Hn. unfold hex. change (16 ^ 3) with 4096. change (16 ^ 2) with 256. change (16 ^ 1) with 16.
  change (16 ^ 0) with 1.
  assert (∀ x, 0 ≤ x mod 16 < 16) as Hm by (intros; apply Z.mod_pos_bound; lia).
  set (d3 := n / 4096 mod 16). set (d2 := n / 256 mod 16). set (d1 := n / 16 mod 16). set (d0 := n / 1 mod 16).
  assert (0 ≤ d3 < 16 ∧ 0 ≤ d2 < 16 ∧ 0 ≤ d1 < 16 ∧ 0 ≤ d0 < 16) as Hd by (repeat split; apply Hm).
  assert (n = ((d3 * 16 + d2) * 16 + d1) * 16 + d0) as E.
  { subst d3 d2 d1 d0. clear Hm Hd. Z.to_euclidean_division_equations. lia. }
  clearbody d3 d2 d1 d0.
  destruct (Z.ltb_spec n 16); [exists [d0]|destruct (Z.ltb_spec n 256); [exists [d1; d0]|
    destruct (Z.ltb_spec n 4096); [exists [d2; d1; d0]|exists [d3; d2; d1; d0]]]];
    (split_and!; [done|intros d Hin; repeat (apply elem_of_cons in Hin as [->|Hin]; [lia|]); by apply elem_of_nil in Hin
      |simpl; lia..]).
Qed.

Lemma read_group_hex n rest : 0 ≤ n < 65536 → stops 16 rest → read_group (hex n +:+ rest) = Some (n, rest).
Proof.
  intros Hn Hrest. destruct (hex_digits n Hn) as (ds & -> & Hds & Hlen & Hv).
  unfold read_group, read_number. rewrite read_digits_list; try done; [|intros d Hd; split; [by apply Hds|]|lia|lia].
  - simpl. rewrite bool_decide_eq_false_2 by lia. by rewrite Hv.
  - by apply hex_digit_value, Hds.
Qed.

Lemma dec_digits n : 0 ≤ n < 256 →
  ∃ d ds, dec n = of_list (map dec_digit (d :: ds)) ∧ (∀ x, x ∈ d :: ds → 0 ≤ x < 10) ∧ (length ds ≤ 2)%nat ∧
    (d = 0 → ds = []) ∧ fold_left (fun acc d => acc * 10 + d) (d :: ds) 0 = n.
Proof.
  intros Hn. unfold dec. change (10 ^ 2) with 100. change (10 ^ 1) with 10. change (10 ^ 0) with 1.
  assert (∀ x, 0 ≤ x mod 10 < 10) as Hm by (intros; apply Z.mod_pos_bound; lia).
  set (d2 := n / 100 mod 10). set (d1 := n / 10 mod 10). set (d0 := n / 1 mod 10).
  assert (0 ≤ d2 < 10 ∧ 0 ≤ d1 < 10 ∧ 0 ≤ d0 < 10) as Hd by (repeat split; apply Hm).
  assert (n = (d2 * 10 + d1) * 10 + d0) as E.
  { subst d2 d1 d0. clear Hm Hd. Z.to_euclidean_division_equations. lia. }
  clearbody d2 d1 d0.
  destruct (Z.ltb_spec n 10); [exists d0, []|destruct (Z.ltb_spec n 100); [exists d1, [d0]|exists d2, [d1; d0]]];
    (split_and!; [done|intros d Hin; repeat (apply elem_of_cons in Hin as [->|Hin]; [lia|]); by apply elem_of_nil in Hin
      |simpl; lia|first [done|lia]|simpl; lia]).
Qed.

Lemma read_octet_dec n rest : 0 ≤ n < 256 → stops 10 rest → read_octet (dec n +:+ rest) = Some (n, rest).
Proof.
  intros Hn Hrest. destruct (dec_digits n Hn) as (d & ds & -> & Hds & Hlen & Hz & Hv).
  unfold read_octet, read_number.
  rewrite read_digits_list; try done; [|intros x Hx; split; [by apply Hds|]|simpl; lia|lia].
  - rewrite Hv. cbn [mbind option_bind].
    rewrite bool_decide_eq_false_2 by (simpl; lia). cbn [negb andb map of_list String.append starts_with_zero].
    change (starts_with_zero _) with (Ascii.eqb (dec_digit d) "0"%char).
    rewrite dec_digit_zero by (apply Hds; set_solver).
    destruct (Z.eqb_spec d 0) as [->|]; [|done]. by rewrite Hz.
  - by apply dec_digit_value, Hds.
Qed.

Lemma byte_bound (x : Z) : 0 ≤ x mod 2 ^ 8 < 256.
Proof. apply Z.mod_pos_bound. lia. Qed.

Lemma of_octets_octets bits : 0 ≤ bits < 2 ^ 32 → of_octets (octets bits) = bits.
Proof. intros H. unfold of_octets, octets. simpl. Z.to_euclidean_division_equations. lia. Qed.

Lemma read_dot s : read_given_char "." ("." +:+ s) = Some s.
Proof. done. Qed.

Lemma read_ipv4_text bits rest :
  0 ≤ bits < 2 ^ 32 → stops 10 rest → read_ipv4_addr (ipv4_to_string bits +:+ rest) = Some (bits, rest).
Proof.
  intros Hb Hrest. unfold ipv4_to_string, octets, read_ipv4_addr.
  cbn [map join]. rewrite !str_app_assoc.
  repeat (cbn [read_separator]; rewrite ?read_dot; cbn [mbind option_bind];
    rewrite read_octet_dec by (done || apply byte_bound); cbn [mbind option_bind]).
  f_equal. f_equal. by apply (of_octets_octets bits).
Qed.

(** Text that begins with a hexadecimal number and no full stop after it is no IPv4 address. *)
Lemma read_digits_rest max_value max_digits h acc count rest v k s :
  Forall (fun d => 0 ≤ d < 16) h → plain rest →
  read_digits 10 max_value max_digits acc count (of_list (map hex_digit h) +:+ rest) = Some (v, k, s) →
  read_given_char "." s = None.
Proof.
  intros Hh [Hr1 Hr2]. revert acc count. induction Hh as [|d h Hd _ IH]; intros acc count.
  - change (of_list (map hex_digit []) +:+ rest) with rest. destruct rest as [|c rest]; cbn [read_digits].
    + by intros [= <- <- <-].
    + rewrite to_digit_10_16 by done. intros [= <- <- <-]. cbn [read_given_char].
      destruct (Ascii.eqb_spec "." c); [by subst|done].
  - change (of_list (map hex_digit (d :: h)) +:+ rest)
      with (String (hex_digit d) (of_list (map hex_digit h) +:+ rest)). cbn [read_digits].
    destruct (to_digit 10 (hex_digit d)).
    + destruct (max_value <? _); [done|]. case_bool_decide; [done|]. apply IH.
    + intros [= <- <- <-]. cbn [read_given_char]. pose proof (hex_digit_no_dot d Hd).
      destruct (Ascii.eqb_spec "." (hex_digit d)); [by subst|done].
Qed.

Lemma hex_not_ipv4 n rest : 0 ≤ n < 65536 → plain rest → read_ipv4_addr (hex n +:+ rest) = None.
Proof.
  intros Hn Hrest. destruct (hex_digits n Hn) as (ds & -> & Hds & _ & _).
  unfold read_ipv4_addr, read_octet, read_number. cbn [read_separator].
  destruct (read_digits 10 255 3 0 0 _) as [[[v k] s]|] eqn:E; [|done]. cbn [mbind option_bind].
  destruct (bool_decide (k = 0%nat)); [done|]. destruct (_ && _); [done|]. cbn [mbind option_bind].
  apply read_digits_rest in E; [|by apply Forall_forall|done]. by rewrite E.
Qed.

(** The text of the segments from index [i] on. *)
Definition group_text (i : nat) (gs : list Z) : string :=
  match i with
  | O => fmt_subslice gs
  | S _ => fold_right (fun g s => ":" +:+ hex g +:+ s) EmptyString gs
  end.

Lemma fmt_subslice_cons g gs : fmt_subslice (g :: gs) = hex g +:+ group_text 1 gs.
Proof.
  revert g. induction gs as [|h gs IH]; intros g; [by rewrite str_app_nil|].
  change (hex g +:+ ":" +:+ fmt_subslice (h :: gs) = hex g +:+ ":" +:+ hex h +:+ group_text 1 gs).
  by rewrite IH.
Qed.

Lemma read_colon s : read_given_char ":" (":" +:+ s) = Some s.
Proof. done. Qed.

(** Where the segments can end: at the end of the text, or before two colons. *)
Definition ends (rest : string) : Prop := rest = EmptyString ∨ ∃ s, rest = "::" +:+ s.

Lemma colon_plain s : plain (":" +:+ s).
Proof. split; vm_compute; done. Qed.

Lemma group_text_plain i gs rest : ends rest → plain (group_text (S i) gs +:+ rest).
Proof.
  intros Hrest. destruct gs as [|g gs].
  - destruct Hrest as [->|[s ->]]; [split; done|]. apply (colon_plain (":" +:+ s)).
  - cbn [group_text fold_right]. rewrite str_app_assoc. apply colon_plain.
Qed.

Lemma no_group_at_end i left rest : ends rest → read_groups i left rest = ([], false, rest).
Proof.
  intros [->|[s ->]]; destruct left as [|left]; try done.
  - destruct left; by destruct i.
  - destruct left; by destruct i.
Qed.

Lemma read_groups_text gs i left rest :
  Forall (fun g => 0 ≤ g < 65536) gs → (length gs ≤ left)%nat → ends rest →
  read_groups i left (group_text i gs +:+ rest) = (gs, false, rest).
Proof.
  intros Hgs. revert i left. induction Hgs as [|g gs Hg _ IH]; intros i left Hleft Hrest.
  - assert (group_text i [] +:+ rest = rest) as -> by by destruct i. by apply no_group_at_end.
  - destruct left as [|left]; [simpl in Hleft; lia|].
    set (t := group_text (S i) gs +:+ rest).
    assert (plain t) as Ht by by apply group_text_plain.
    assert (∀ A (p : string → option (A * string)),
      read_separator ":" i p (group_text i (g :: gs) +:+ rest) = p (hex g +:+ t)) as Hsep.
    { intros A p. destruct i as [|i]; cbn [read_separator].
      - change (group_text 0 (g :: gs)) with (fmt_subslice (g :: gs)).
        by rewrite fmt_subslice_cons, str_app_assoc.
      - cbn [group_text fold_right]. rewrite !str_app_assoc, read_colon. done. }
    cbn [read_groups]. rewrite !Hsep, hex_not_ipv4, read_group_hex by (done || apply Ht).
    unfold t. rewrite IH by (simpl in Hleft; done || lia). by destruct left.
Qed.

(** ** The longest run of zeros *)

Definition run_in (all : list Z) (r : nat * nat) : Prop :=
  r.2 = 0%nat ∨ ∃ l1 l2, all = l1 ++ repeat 0 r.2 ++ l2 ∧ length l1 = r.1.
Definition run_at (seen : list Z) (r : nat * nat) : Prop :=
  r.2 = 0%nat ∨ ∃ l1, seen = l1 ++ repeat 0 r.2 ∧ length l1 = r.1.

Lemma zero_run_in seen gs cur longest :
  run_at seen cur → run_in (seen ++ gs) longest →
  run_in (seen ++ gs) (zero_run (length seen) cur longest gs).
Proof.
  revert seen cur longest. induction gs as [|g gs IH]; intros seen cur longest Hc Hl; simpl; [done|].
  assert (seen ++ g :: gs = (seen ++ [g]) ++ gs) as E by (by rewrite <-app_assoc).
  assert (S (length seen) = length (seen ++ [g])) as En by (rewrite length_app; simpl; lia).
  destruct (Z.eqb_spec g 0) as [->|Hg].
  - set (cur' := (_, S cur.2)).
    assert (run_at (seen ++ [0]) cur') as Hc'.
    { right. unfold cur'. case_bool_decide as E0; simpl.
      - exists seen. rewrite E0. done.
      - destruct Hc as [Hc|(l1 & -> & Hl1)]; [done|]. exists l1. split; [|done].
        rewrite <-app_assoc. f_equal. clear. induction cur.2 as [|k IHk]; [done|]. simpl. by rewrite IHk. }
    rewrite E, En. apply IH; [done|]. rewrite <-E. case_bool_decide; [|done].
    destruct Hc' as [Hc'|(l1 & Hs & Hl1)]; [by left|]. right. exists l1, gs.
    rewrite E, Hs. by rewrite <-app_assoc.
  - rewrite E, En. apply IH; [by left|]. by rewrite <-E.
Qed.

Lemma zero_run_split gs start len :
  zero_run 0 (0%nat, 0%nat) (0%nat, 0%nat) gs = (start, len) → (0 < len)%nat →
  gs = take start gs ++ repeat 0 len ++ drop (start + len) gs ∧ (start + len ≤ length gs)%nat.
Proof.
  intros H Hlen. assert (run_in ([] ++ gs) (start, len)) as [Hr|(l1 & l2 & Hr & Hl1)].
  { rewrite <-H. apply (zero_run_in []); by left. }
  - simpl in Hr. lia.
  - simpl in *. subst gs start. rewrite !length_app, repeat_length. split; [|lia].
    rewrite take_app_length, drop_app_add', drop_app_length'; [done|by rewrite repeat_length|done].
Qed.

Lemma segments_bound bits : Forall (fun g => 0 ≤ g < 65536) (segments bits).
Proof. apply Forall_forall. intros g (i & -> & _)%elem_of_map. apply Z.mod_pos_bound. lia. Qed.

Lemma read_colons {A} s (k : string → option A) :
  (s' ← read_given_char ":" ("::" +:+ s); s' ← read_given_char ":" s'; k s') = k s.
Proof. done. Qed.

Lemma of_segments_segments bits : 0 ≤ bits < 2 ^ 128 → of_segments (segments bits) = bits.
Proof.
  intros H. unfold of_segments, segments.
  assert (Hs : ∀ i j, 0 ≤ i → j = i + 1 → (bits / 2 ^ (16 * j)) * 2 ^ 16 + bits / 2 ^ (16 * i) mod 2 ^ 16 = bits / 2 ^ (16 * i)).
  { intros i j Hi ->. replace (16 * (i + 1)) with (16 * i + 16) by lia. rewrite Z.pow_add_r by lia.
    rewrite <-Z.div_div by lia. pose proof (Z.div_mod (bits / 2 ^ (16 * i)) (2 ^ 16)). lia. }
  cbn [map fold_left].
  rewrite (Z.mod_small (bits / 2 ^ (16 * 7))).
  2: { split; [apply Z.div_pos; lia|]. apply Z.div_lt_upper_bound; [lia|]. rewrite <-Z.pow_add_r by lia. simpl. lia. }
  rewrite Z.add_0_l.
  rewrite (Hs 6 7), (Hs 5 6), (Hs 4 5), (Hs 3 4), (Hs 2 3), (Hs 1 2), (Hs 0 1) by lia. by rewrite Z.div_1_r.
Qed.

Lemma length_segments bits : length (segments bits) = 8%nat.
Proof. done. Qed.

Lemma read_groups_whole bits :
  read_groups 0 8 (fmt_subslice (segments bits)) = (segments bits, false, EmptyString).
Proof.
  rewrite <-(str_app_nil (fmt_subslice (segments bits))).
  apply (read_groups_text (segments bits) 0 8); [apply segments_bound|done|by left].
Qed.

Lemma Forall_seg_take bits k : Forall (fun g => 0 ≤ g < 65536) (take k (segments bits)).
Proof. apply Forall_take, segments_bound. Qed.

Lemma Forall_seg_drop bits k : Forall (fun g => 0 ≤ g < 65536) (drop k (segments bits)).
Proof. apply Forall_drop, segments_bound. Qed.

(** Text that is read as an IPv6 address, and is not one of IPv4. *)
Lemma read_ipv6_compressed bits start len :
  0 ≤ bits < 2 ^ 128 →
  segments bits = take start (segments bits) ++ repeat 0 len ++ drop (start + len) (segments bits) →
  (start + len ≤ 8)%nat → (1 < len)%nat →
  read_ipv6_addr (fmt_subslice (take start (segments bits)) +:+ "::" +:+
    fmt_subslice (drop (start + len) (segments bits))) = Some (bits, EmptyString).
Proof.
  intros Hb Hsplit Hle Hlen. unfold read_ipv6_addr.
  set (pre := take start (segments bits)) in *. set (suf := drop (start + len) (segments bits)) in *.
  assert (length pre = start) as Hpre by (unfold pre; rewrite length_take, length_segments; lia).
  assert (length suf = (8 - (start + len))%nat) as Hsuf by (unfold suf; by rewrite length_drop, length_segments).
  rewrite (read_groups_text pre 0 8);
    [|apply Forall_seg_take|lia|right; by exists (fmt_subslice suf)].
  rewrite bool_decide_eq_false_2 by lia. rewrite read_colons. cbn [mbind option_bind].
  rewrite <-(str_app_nil (fmt_subslice suf)).
  rewrite (read_groups_text suf 0); [|apply Forall_seg_drop|lia|by left].
  rewrite Hpre, Hsuf. replace (8 - start - (8 - (start + len)))%nat with len by lia.
  rewrite <-Hsplit. by rewrite of_segments_segments.
Qed.

Lemma groups_not_ipv4 gs rest :
  Forall (fun g => 0 ≤ g < 65536) gs → ends rest → (gs = [] → rest ≠ EmptyString) →
  read_ipv4_addr (fmt_subslice gs +:+ rest) = None.
Proof.
  intros Hgs Hrest Hne. destruct Hgs as [|g gs Hg _].
  - destruct Hrest as [->|[s ->]]; [by destruct Hne|done].
  - rewrite fmt_subslice_cons, str_app_assoc. apply hex_not_ipv4; [done|]. by apply group_text_plain.
Qed.

Lemma mapped_text v4 :
  0 ≤ v4 < 2 ^ 32 →
  read_ipv6_addr ("::ffff:" +:+ ipv4_to_string v4) = Some (65535 * 2 ^ 32 + v4, EmptyString).
Proof.
  intros Hv. unfold read_ipv6_addr.
  change ("::ffff:" +:+ ipv4_to_string v4) with ("::" +:+ (hex 65535 +:+ (":" +:+ ipv4_to_string v4))).
  rewrite no_group_at_end by (right; eauto). cbn [length].
  rewrite bool_decide_eq_false_2 by done. rewrite read_colons.
  change (8 - (0 + 1))%nat with 7%nat. cbn [read_groups read_separator].
  rewrite hex_not_ipv4, read_group_hex by (done || apply colon_plain). cbn [read_groups read_separator].
  rewrite read_colon. cbn [mbind option_bind].
  rewrite <-(str_app_nil (ipv4_to_string v4)), read_ipv4_text by done. f_equal. f_equal.
  unfold of_segments. cbn [length app repeat Nat.sub fold_left].
  pose proof (Z.div_mod v4 (2 ^ 16)). lia.
Qed.

Lemma ipv6_text bits : 0 ≤ bits < 2 ^ 128 →
  read_ipv4_addr (ipv6_to_string bits) = None ∧ read_ipv6_addr (ipv6_to_string bits) = Some (bits, EmptyString).
Proof.
  intros Hb. unfold ipv6_to_string, to_ipv4_mapped. destruct (Z.eqb_spec (bits / 2 ^ 32) 65535) as [E|E].
  - split; [done|]. rewrite mapped_text by (apply Z.mod_pos_bound; lia).
    pose proof (Z.div_mod bits (2 ^ 32)). f_equal. f_equal. lia.
  - destruct (zero_run 0 _ _ _) as [start len] eqn:Ez. case_bool_decide as Hlen.
    + apply zero_run_split in Ez as [Hs Hle]; [|lia]. rewrite length_segments in Hle. split.
      * apply groups_not_ipv4; [apply Forall_seg_take|right; eauto|done].
      * by apply read_ipv6_compressed.
    + split.
      * rewrite <-(str_app_nil (fmt_subslice _)). apply groups_not_ipv4; [apply segments_bound|by left|done].
      * unfold read_ipv6_addr. rewrite read_groups_whole. rewrite bool_decide_eq_true_2 by done.
        by rewrite of_segments_segments.
Qed.

(** An address is read back from its text. *)
Lemma parse_ip_to_string ip : ip_ok ip → parse_ip (ip_to_string ip) = Some ip.
Proof.
  unfold parse_ip, ip_ok. destruct ip as [bits|bits]; simpl; intros Hb.
  - rewrite <-(str_app_nil (ipv4_to_string bits)), read_ipv4_text by done. done.
  - destruct (ipv6_text bits Hb) as [-> ->]. done.
Qed.

(** ** What is read is an address *)

Lemma to_digit_nonneg radix c d : 0 ≤ radix → to_digit radix c = Some d → 0 ≤ d.
Proof.
  intros Hr. unfold to_digit.
  destruct ((48 <=? char_code c) && _) eqn:E1; [|destruct ((97 <=? char_code c) && _) eqn:E2;
    [|destruct ((65 <=? char_code c) && _) eqn:E3]];
    destruct (_ <? radix); intros [= <-]; bool_simpl; lia.
Qed.

Lemma read_digits_bound radix max_value max_digits acc count s v k rest :
  0 ≤ radix → 0 ≤ acc ≤ max_value →
  read_digits radix max_value max_digits acc count s = Some (v, k, rest) → 0 ≤ v ≤ max_value.
Proof.
  intros Hr. revert acc count. induction s as [|c s IH]; intros acc count Hacc; cbn [read_digits].
  - by intros [= <- <- <-].
  - destruct (to_digit radix c) as [d|] eqn:Ed; [|by intros [= <- <- <-]].
    apply to_digit_nonneg in Ed; [|done].
    destruct (Z.ltb_spec max_value (acc * radix + d)); [done|]. case_bool_decide; [done|]. apply IH. nia.
Qed.

Lemma read_number_bound radix max_value max_digits zero s v rest :
  0 ≤ radix → 0 ≤ max_value →
  read_number radix max_value max_digits zero s = Some (v, rest) → 0 ≤ v ≤ max_value.
Proof.
  intros Hr Hm. unfold read_number. intros ([[r k] t] & Hd & H)%bind_Some.
  apply read_digits_bound in Hd; [|done|lia]. case_bool_decide; [done|]. destruct (_ && _); [done|].
  by injection H as <- <-.
Qed.

Lemma read_separator_bound {A} (P : A → Prop) sep i p s v rest :
  (∀ s v rest, p s = Some (v, rest) → P v) → read_separator sep i p s = Some (v, rest) → P v.
Proof. intros Hp. destruct i; cbn [read_separator]; [apply Hp|]. intros (s' & _ & H)%bind_Some. eauto. Qed.

Lemma read_ipv4_bound s v rest : read_ipv4_addr s = Some (v, rest) → 0 ≤ v < 2 ^ 32.
Proof.
  intros ([a s1] & Ha & ([b s2] & Hb & ([c s3] & Hc & ([d s4] & Hd & H)%bind_Some)%bind_Some)%bind_Some)%bind_Some.
  injection H as <- <-.
  assert (∀ i s v rest, read_separator "." i read_octet s = Some (v, rest) → 0 ≤ v ≤ 255) as Ho.
  { intros i t v t'. apply (read_separator_bound (fun v => 0 ≤ v ≤ 255)). intros t1 v1 t1'. by apply read_number_bound. }
  apply Ho in Ha, Hb, Hc, Hd. unfold of_octets. simpl. lia.
Qed.

Lemma read_groups_bound i left s gs v4 rest :
  read_groups i left s = (gs, v4, rest) → Forall (fun g => 0 ≤ g < 65536) gs ∧ (length gs ≤ left)%nat.
Proof.
  revert i s gs v4 rest. induction left as [|left IH]; intros i s gs v4 rest; cbn [read_groups].
  { intros [= <- <- <-]. split; [constructor|done]. }
  destruct (match left with O => None | S _ => read_separator ":" i read_ipv4_addr s end) as [[a s1]|] eqn:E4.
  - destruct left as [|left]; [done|]. intros [= <- <- <-].
    apply (read_separator_bound (fun v => 0 ≤ v < 2 ^ 32)) in E4; [|apply read_ipv4_bound]. split; [|simpl; lia].
    repeat constructor; try (apply Z.div_pos; lia); try (apply Z.mod_pos_bound; lia).
    apply Z.div_lt_upper_bound; lia.
  - destruct (read_separator ":" i read_group s) as [[g s1]|] eqn:Eg.
    + destruct (read_groups (S i) left s1) as [[gs1 b] s2] eqn:Er. intros [= <- <- <-].
      apply IH in Er as [Hf Hl]. split; [|simpl; lia]. constructor; [|done].
      apply (read_separator_bound (fun v => 0 ≤ v ≤ 65535)) in Eg; [lia|].
      intros t v t'. by apply read_number_bound.
    + intros [= <- <- <-]. split; [constructor|simpl; lia].
Qed.

Lemma of_segments_bound gs :
  Forall (fun g => 0 ≤ g < 65536) gs → 0 ≤ of_segments gs < 2 ^ (16 * Z.of_nat (length gs)).
Proof.
  unfold of_segments. induction gs as [|g gs IH] using rev_ind; [simpl; lia|].
  intros [Hgs [Hg _]%Forall_cons]%Forall_app. specialize (IH Hgs).
  rewrite fold_left_app, length_app. simpl.
  replace (16 * Z.of_nat (length gs + 1)) with (16 * Z.of_nat (length gs) + 16) by lia.
  rewrite Z.pow_add_r by lia. lia.
Qed.

Lemma parse_ip_ok s ip : parse_ip s = Some ip → ip_ok ip.
Proof.
  unfold parse_ip. intros ([ip' rest] & Hr & H)%bind_Some. destruct (rest =? "")%string; [|done].
  injection H as ->. destruct (read_ipv4_addr s) as [[bits r]|] eqn:E4.
  - injection Hr as <- <-. by apply read_ipv4_bound in E4.
  - apply bind_Some in Hr as ([bits r] & H6 & Hr). injection Hr as <- <-.
    unfold ip_ok. cbn [ip_bits ip_width]. unfold read_ipv6_addr in H6.
    destruct (read_groups 0 8 s) as [[head v4] s1] eqn:Eh. apply read_groups_bound in Eh as [Hf Hl].
    case_bool_decide as E8.
    + injection H6 as <- <-. apply of_segments_bound in Hf. by rewrite E8 in Hf.
    + destruct v4; [done|]. apply bind_Some in H6 as (s2 & _ & (s3 & _ & H6)%bind_Some).
      destruct (read_groups 0 _ s3) as [[tail b] s4] eqn:Et. injection H6 as <- <-.
      apply read_groups_bound in Et as [Hft Hlt].
      assert (Forall (fun g => 0 ≤ g < 65536) (head ++ repeat 0 (8 - length head - length tail) ++ tail)) as Hall.
      { rewrite !Forall_app. split_and!; [done| |done]. apply Forall_forall. intros g Hg.
        apply list_elem_of_In, repeat_spec in Hg. lia. }
      apply of_segments_bound in Hall. rewrite !length_app, repeat_length in Hall.
      replace (16 * Z.of_nat _) with 128 in Hall by lia. done.
Qed.

(** The text of an address holds no slash. *)
Definition slashless (s : string) : Prop := "/"%char ∉ String.list_ascii_of_string s.

Lemma slashless_app a b : slashless a → slashless b → slashless (a +:+ b).
Proof.
  unfold slashless. induction a as [|x a IH]; [done|].
  change (String.list_ascii_of_string (String x a +:+ b)) with (x :: String.list_ascii_of_string (a +:+ b)).
  change (String.list_ascii_of_string (String x a)) with (x :: String.list_ascii_of_string a).
  rewrite !not_elem_of_cons. naive_solver.
Qed.

Lemma slashless_digits f ds n :
  (∀ d, 0 ≤ d < n → f d ≠ "/"%char) → (∀ d, d ∈ ds → 0 ≤ d < n) → slashless (of_list (map f ds)).
Proof.
  intros Hf Hds. unfold slashless. rewrite String.list_ascii_of_string_of_list_ascii.
  intros (d & E & Hd)%elem_of_map. by apply (Hf d (Hds d Hd)).
Qed.

Lemma slashless_hex n : 0 ≤ n < 65536 → slashless (hex n).
Proof.
  intros Hn. destruct (hex_digits n Hn) as (ds & -> & Hds & _). apply (slashless_digits _ _ 16); [|done].
  intros d. apply (below_cases (fun d => hex_digit d ≠ "/"%char) 16). vm_compute. done.
Qed.

Lemma slashless_dec n : 0 ≤ n < 256 → slashless (dec n).
Proof.
  intros Hn. destruct (dec_digits n Hn) as (d & ds & -> & Hds & _). apply (slashless_digits _ _ 10); [|done].
  intros x. apply (below_cases (fun d => dec_digit d ≠ "/"%char) 10). vm_compute. done.
Qed.

Lemma slashless_join sep l : slashless sep → Forall slashless l → slashless (join sep l).
Proof.
  intros Hsep Hl. induction Hl as [|s l Hs Hl IH]; [unfold slashless; simpl; set_solver|].
  destruct l as [|t l]; [done|]. apply slashless_app; [done|]. by apply slashless_app.
Qed.

Lemma slashless_fmt gs : Forall (fun g => 0 ≤ g < 65536) gs → slashless (fmt_subslice gs).
Proof.
  intros Hgs. apply slashless_join; [unfold slashless; simpl; set_solver|].
  apply Forall_map. eapply Forall_impl; [exact Hgs|]. intros g. apply slashless_hex.
Qed.

Lemma slashless_ipv4 bits : slashless (ipv4_to_string bits).
Proof.
  apply slashless_join; [unfold slashless; simpl; set_solver|].
  repeat constructor; apply slashless_dec, byte_bound.
Qed.

Lemma slashless_ip ip : slashless (ip_to_string ip).
Proof.
  destruct ip as [bits|bits]; simpl; [apply slashless_ipv4|].
  unfold ipv6_to_string. destruct (to_ipv4_mapped bits).
  - apply slashless_app; [unfold slashless; simpl; set_solver|apply slashless_ipv4].
  - destruct (zero_run 0 _ _ _) as [start len]. case_bool_decide; [|apply slashless_fmt, segments_bound].
    apply slashless_app; [apply slashless_fmt, Forall_seg_take|].
    apply slashless_app; [unfold slashless; simpl; set_solver|apply slashless_fmt, Forall_seg_drop].
Qed.
