(* ===== verification/Float.v ===== *)
(** IEEE 754 arithmetic as the source uses it: [f64] (and [f32]) values are the [spec_float]s of
    the standard library's executable specification, rounded to nearest even at their width. *)

From Stdlib Require Import SpecFloat.
From S2P Require Import Prelude.

(** * Operations *)

Abbreviation f64 := spec_float (only parsing).
Abbreviation f32 := spec_float (only parsing).

#[export] Instance spec_float_eq_dec : EqDecision spec_float.
Proof. solve_decision. Defined.

(** [n as f64], and the literal [n / d] (correctly rounded when [n] and [d] are exact). *)
Definition f64_of_Z (n : Z) : f64 := binary_normalize 53 1024 n 0 false.
Definition f64_add : f64 → f64 → f64 := SFadd 53 1024.
Definition f64_sub : f64 → f64 → f64 := SFsub 53 1024.
Definition f64_mul : f64 → f64 → f64 := SFmul 53 1024.
Definition f64_div : f64 → f64 → f64 := SFdiv 53 1024.
Definition f64_lit (n d : Z) : f64 := f64_div (f64_of_Z n) (f64_of_Z d).
Definition f64_zero : f64 := S754_zero false.
Definition f64_one : f64 := f64_of_Z 1.

Definition f32_of_Z (n : Z) : f32 := binary_normalize 24 128 n 0 false.
Definition f32_add : f32 → f32 → f32 := SFadd 24 128.
Definition f32_mul : f32 → f32 → f32 := SFmul 24 128.
Definition f32_div : f32 → f32 → f32 := SFdiv 24 128.
Definition f32_lit (n d : Z) : f32 := f32_div (f32_of_Z n) (f32_of_Z d).

(** [f64::max]: a NaN loses to a number. *)
Definition f64_max (a b : f64) : f64 :=
  match SFcompare a b with
  | Some Lt => b
  | Some _ => a
  | None => match a with S754_nan => b | _ => a end
  end.

(** [f64::clamp]. *)
Definition f64_clamp (x lo hi : f64) : f64 :=
  let x := if SFltb x lo then lo else x in
  if SFltb hi x then hi else x.

(** [f64::total_cmp], the order of the bit patterns: the class of a value, then its exponent, then
    its mantissa, the last two reversed below zero.  ([spec_float] has one NaN, taken positive.) *)
Definition total_key (x : spec_float) : Z * Z * Z :=
  match x with
  | S754_infinity true => (0, 0, 0)
  | S754_finite true m e => (1, - e, Z.neg m)
  | S754_zero true => (2, 0, 0)
  | S754_zero false => (3, 0, 0)
  | S754_finite false m e => (4, e, Z.pos m)
  | S754_infinity false => (5, 0, 0)
  | S754_nan => (6, 0, 0)
  end.

Definition total_cmp (a b : spec_float) : comparison :=
  cmp_then (cmp_then ((total_key a).1.1 ?= (total_key b).1.1) ((total_key a).1.2 ?= (total_key b).1.2))
    ((total_key a).2 ?= (total_key b).2).

(** Rounding a quotient to the nearest integer, ties to even. *)
Definition round_half_even (num den : Z) : Z :=
  let q := num / den in
  let r := num mod den in
  match 2 * r ?= den with
  | Lt => q
  | Gt => q + 1
  | Eq => if Z.even q then q else q + 1
  end.

(** [Duration::as_secs_f64] and [as_secs_f32]. *)
Definition as_secs_f64 (d : Duration) : f64 :=
  f64_add (f64_of_Z (d / NANOS_PER_SEC)) (f64_div (f64_of_Z (d mod NANOS_PER_SEC)) (f64_of_Z NANOS_PER_SEC)).
Definition as_secs_f32 (d : Duration) : f32 :=
  f32_add (f32_of_Z (d / NANOS_PER_SEC)) (f32_div (f32_of_Z (d mod NANOS_PER_SEC)) (f32_of_Z NANOS_PER_SEC)).

(** [Duration::from_secs_f64]: the nearest nanosecond, and a panic below zero, at 2^64 seconds and
    above, and for a NaN. *)
Definition from_secs_f64 (x : f64) : option Duration :=
  match x with
  | S754_zero _ => Some 0
  | S754_infinity _ | S754_nan | S754_finite true _ _ => None
  | S754_finite false m (Zneg e) =>
      if Z.pos m <? 2 ^ 64 * 2 ^ Z.pos e
      then Some (round_half_even (Z.pos m * NANOS_PER_SEC) (2 ^ Z.pos e)) else None
  | S754_finite false m e =>
      if Z.pos m * 2 ^ e <? 2 ^ 64 then Some (Z.pos m * 2 ^ e * NANOS_PER_SEC) else None
  end.

(** [Duration::mul_f64]. *)
Definition mul_f64 (d : Duration) (x : f64) : option Duration :=
  from_secs_f64 (f64_mul x (as_secs_f64 d)).

(** [format!("{x:.1}")]: the exact value rounded to a tenth, ties to even. *)
Definition format_tenths (x : f64) : string :=
  let magnitude (m : positive) (e : Z) : string :=
    let tenths :=
      match e with
      | Zneg p => round_half_even (Z.pos m * 10) (2 ^ Z.pos p)
      | _ => Z.pos m * 2 ^ e * 10
      end in
    pretty (tenths / 10) +:+ "." +:+ pretty (tenths mod 10) in
  match x with
  | S754_nan => "NaN"
  | S754_infinity s => if s then "-inf" else "inf"
  | S754_zero s => if s then "-0.0" else "0.0"
  | S754_finite s m e => (if s then "-" else "") +:+ magnitude m e
  end.

(** [f64::round]: half away from zero, keeping the sign of a zero. *)
Definition f64_round (x : f64) : f64 :=
  match x with
  | S754_finite s m (Zneg e) =>
      match (2 * Z.pos m + 2 ^ Z.pos e) / (2 * 2 ^ Z.pos e) with
      | Z0 => S754_zero s
      | n => let r := f64_of_Z n in if s then SFopp r else r
      end
  | _ => x
  end.

(** A cast to an unsigned integer: towards zero, kept within the type, and zero for a NaN. *)
Definition f64_to_uint (limit : Z) (x : f64) : Z :=
  match x with
  | S754_finite false m (Zneg e) => Z.min limit (Z.pos m / 2 ^ Z.pos e)
  | S754_finite false m e => Z.min limit (Z.pos m * 2 ^ e)
  | S754_infinity false => limit
  | _ => 0
  end.

(** [f32::round] then [as usize]: half away from zero, then towards zero, then clamped below. *)
Definition f32_round_to_usize (x : f32) : Z :=
  match x with
  | S754_finite false m (Zneg e) => (2 * Z.pos m + 2 ^ Z.pos e) / (2 * 2 ^ Z.pos e)
  | S754_finite false m e => Z.min U64_MAX (Z.pos m * 2 ^ e)
  | S754_infinity false => U64_MAX
  | _ => 0
  end.

Example as_secs_quarter : as_secs_f64 250000000 = f64_lit 1 4.
Proof. reflexivity. Qed.
Example from_secs_quarter : from_secs_f64 (f64_lit 1 4) = Some 250000000.
Proof. reflexivity. Qed.
Example from_secs_tenth : from_secs_f64 (f64_lit 1 10) = Some 100000000.
Proof. vm_compute. reflexivity. Qed.
Example format_tie : format_tenths (f64_lit 5 4) = "1.2".
Proof. vm_compute. reflexivity. Qed.
Example format_up : format_tenths (f64_lit 7 4) = "1.8".
Proof. vm_compute. reflexivity. Qed.

#[export] Instance total_cmp_total : TotalCompare total_cmp.
Proof. unfold total_cmp. apply _. Qed.
