(* ===== verification/Text.v ===== *)
(** Rust strings: a [string] holds the UTF-8 bytes, and what the source asks of characters
    ([chars], [trim], [to_ascii_lowercase] and the like) is defined on them. *)

From S2P Require Import Prelude.

(** * Bytes and characters *)

Definition byte_of (n : Z) : Ascii.ascii := Ascii.ascii_of_N (Z.to_N n).
Definition byte_value (b : Ascii.ascii) : Z := Z.of_N (Ascii.N_of_ascii b).
Definition of_bytes (l : list Z) : string := String.string_of_list_ascii (map byte_of l).

(** A double quote, for the messages that hold one. *)
Definition quote : string := of_bytes [34].

(** [str::len]. *)
Definition str_len (s : string) : Z := Z.of_nat (String.length s).

Definition is_continuation (b : Ascii.ascii) : bool := Z.land (byte_value b) 192 =? 128.

(** [str::chars], each character as its bytes. *)
Fixpoint chars (s : string) : list string :=
  match s with
  | EmptyString => []
  | String b s' =>
      match chars s' with
      | String b' c' :: cs =>
          if is_continuation b' then String b (String b' c') :: cs
          else String b EmptyString :: String b' c' :: cs
      | cs => String b EmptyString :: cs
      end
  end.

Definition char_count (s : string) : Z := Z.of_nat (length (chars s)).

(** [char::is_whitespace]: the Unicode property [White_Space]. *)
Definition WHITE_SPACE : list string :=
  map (fun b => of_bytes [b]) [9; 10; 11; 12; 13; 32] ++
  map of_bytes ([194; 133] :: [194; 160] :: [225; 154; 128] ::
    map (fun b => [226; 128; b]) [128; 129; 130; 131; 132; 133; 134; 135; 136; 137; 138; 168; 169; 175] ++
    [[226; 129; 159]; [227; 128; 128]]).

Definition is_whitespace (c : string) : bool := existsb (String.eqb c) WHITE_SPACE.

Fixpoint skip_while {A} (p : A → bool) (l : list A) : list A :=
  match l with
  | [] => []
  | x :: l' => if p x then skip_while p l' else l
  end.

Fixpoint concat_str (l : list string) : string :=
  match l with
  | [] => EmptyString
  | s :: l' => s +:+ concat_str l'
  end.

(** [str::trim]. *)
Definition trim (s : string) : string :=
  concat_str (rev (skip_while is_whitespace (rev (skip_while is_whitespace (chars s))))).

Definition str_is_empty (s : string) : bool := String.eqb s EmptyString.

(** ** Bytes of a string *)

Definition bytes (s : string) : list Ascii.ascii := String.list_ascii_of_string s.
Definition of_ascii (l : list Ascii.ascii) : string := String.string_of_list_ascii l.

(** [str::strip_prefix] and [str::strip_suffix]. *)
Definition strip_prefix (p s : string) : option string :=
  let n := length (bytes p) in
  if bool_decide (take n (bytes s) = bytes p) then Some (of_ascii (drop n (bytes s))) else None.
Definition strip_suffix (p s : string) : option string :=
  let n := (length (bytes s) - length (bytes p))%nat in
  if bool_decide (drop n (bytes s) = bytes p) then Some (of_ascii (take n (bytes s))) else None.

Definition starts_with (p s : string) : bool := bool_decide (strip_prefix p s ≠ None).
Definition ends_with (p s : string) : bool := bool_decide (strip_suffix p s ≠ None).

(** [str::split] at a byte; it always gives at least one part. *)
Fixpoint split_bytes (c : Ascii.ascii) (l : list Ascii.ascii) : list (list Ascii.ascii) :=
  match l with
  | [] => [[]]
  | x :: l' =>
      if Ascii.eqb x c then [] :: split_bytes c l'
      else match split_bytes c l' with
        | [] => [[x]]
        | part :: parts => (x :: part) :: parts
        end
  end.
Definition split (c : Ascii.ascii) (s : string) : list string := map of_ascii (split_bytes c (bytes s)).

(** [str::split_once] at a byte. *)
Fixpoint split_once_bytes (c : Ascii.ascii) (l : list Ascii.ascii) : option (list Ascii.ascii * list Ascii.ascii) :=
  match l with
  | [] => None
  | x :: l' =>
      if Ascii.eqb x c then Some ([], l')
      else '(a, b) ← split_once_bytes c l'; Some (x :: a, b)
  end.
Definition split_once (c : Ascii.ascii) (s : string) : option (string * string) :=
  '(a, b) ← split_once_bytes c (bytes s); Some (of_ascii a, of_ascii b).

(** [str::rsplit_once] at a byte. *)
Definition rsplit_once (c : Ascii.ascii) (s : string) : option (string * string) :=
  '(b, a) ← split_once_bytes c (rev (bytes s)); Some (of_ascii (rev a), of_ascii (rev b)).

(** [trim_matches] of bytes. *)
Definition trim_matches (p : Ascii.ascii → bool) (s : string) : string :=
  of_ascii (rev (skip_while p (rev (skip_while p (bytes s))))).

(** [u8::to_ascii_lowercase], [is_ascii] and [is_ascii_alphanumeric]. *)
Definition is_ascii (b : Ascii.ascii) : bool := byte_value b <? 128.
Definition in_range (lo hi : Z) (b : Ascii.ascii) : bool := (lo <=? byte_value b) && (byte_value b <=? hi).
Definition lower_byte (b : Ascii.ascii) : Ascii.ascii :=
  if in_range 65 90 b then byte_of (byte_value b + 32) else b.
Definition to_ascii_lowercase (s : string) : string := of_ascii (map lower_byte (bytes s)).
Definition is_ascii_digit (b : Ascii.ascii) : bool := in_range 48 57 b.
Definition is_ascii_alphanumeric (b : Ascii.ascii) : bool :=
  is_ascii_digit b || in_range 97 122 b || in_range 65 90 b.
Definition str_is_ascii (s : string) : bool := forallb is_ascii (bytes s).

(** [is_ascii_control] and [is_ascii_whitespace]. *)
Definition is_ascii_control (b : Ascii.ascii) : bool := in_range 0 31 b || in_range 127 127 b.
Definition is_ascii_whitespace (b : Ascii.ascii) : bool :=
  existsb (fun n => byte_value b =? n) [9; 10; 12; 13; 32].

(** [str::replace] of one byte by another, and [trim_end_matches] of a byte. *)
Definition replace_byte (a b : Ascii.ascii) (s : string) : string :=
  of_ascii (map (fun x => if Ascii.eqb x a then b else x) (bytes s)).
Definition trim_end_matches (c : Ascii.ascii) (s : string) : string :=
  of_ascii (rev (skip_while (fun x => Ascii.eqb x c) (rev (bytes s)))).

(** The scalar value of a character, and [char::is_control]. *)
Definition code_point (c : string) : Z :=
  match map byte_value (bytes c) with
  | [a] => a
  | [a; b] => Z.land a 31 * 2 ^ 6 + Z.land b 63
  | [a; b; c] => Z.land a 15 * 2 ^ 12 + Z.land b 63 * 2 ^ 6 + Z.land c 63
  | [a; b; c; d] => Z.land a 7 * 2 ^ 18 + Z.land b 63 * 2 ^ 12 + Z.land c 63 * 2 ^ 6 + Z.land d 63
  | _ => 0
  end.
Definition within_points (lo hi : Z) (c : string) : bool := (lo <=? code_point c) && (code_point c <=? hi).
Definition is_control (c : string) : bool := within_points 0 31 c || within_points 127 159 c.

(** [str::eq_ignore_ascii_case], and [u8::is_ascii_lowercase]. *)
Definition eq_ignore_ascii_case (a b : string) : bool := String.eqb (to_ascii_lowercase a) (to_ascii_lowercase b).
Definition is_ascii_lowercase (b : Ascii.ascii) : bool := in_range 97 122 b.

(** [str::to_lowercase] follows the Unicode tables, which are the standard library's data: the
    mapping is an interface, and nothing is assumed of it. *)
Class ToLowercase : Type := to_lowercase : string → string.

(** [{:?}] of a string escapes it by the same tables. *)
Class DebugText : Type := debug : string → string.

(** * Lemmas *)

Lemma skip_while_nil {A} (p : A → bool) l : skip_while p l = [] ↔ forallb p l = true.
Proof. induction l as [|x l IH]; simpl; [done|]. by destruct (p x). Qed.

Lemma chars_nonempty s c : c ∈ chars s → c ≠ EmptyString.
Proof.
  induction s as [|b s IH]; simpl; [by intros ?%elem_of_nil|].
  destruct (chars s) as [|[|b' c'] cs]; [set_solver..|].
  case_match; set_solver.
Qed.

Lemma concat_chars s : concat_str (chars s) = s.
Proof.
  induction s as [|b s IH]; simpl; [done|].
  destruct (chars s) as [|[|b' c'] cs]; simpl in *; [by rewrite <-IH..|].
  case_match; simpl; by rewrite <-IH.
Qed.

Lemma concat_str_empty l : (∀ c, c ∈ l → c ≠ EmptyString) → concat_str l = EmptyString ↔ l = [].
Proof.
  destruct l as [|c l]; [done|]. intros H. split; [|done]. simpl.
  destruct c; [|done]. by destruct (H EmptyString ltac:(set_solver)).
Qed.

Lemma elem_of_skip_while {A} (p : A → bool) l x : x ∈ skip_while p l → x ∈ l.
Proof. induction l as [|y l IH]; simpl; [done|]. case_match; set_solver. Qed.

Lemma forallb_skip_while {A} (p : A → bool) l : forallb p (skip_while p l) = forallb p l.
Proof. induction l as [|x l IH]; simpl; [done|]. destruct (p x) eqn:E; simpl; by rewrite ?E. Qed.

Lemma forallb_rev {A} (p : A → bool) l : forallb p (rev l) = forallb p l.
Proof.
  induction l as [|x l IH]; simpl; [done|].
  rewrite forallb_app, IH. simpl. by rewrite andb_true_r, andb_comm.
Qed.

(** A string trims to nothing exactly when it has only white space. *)
Lemma trim_is_empty s : str_is_empty (trim s) = forallb is_whitespace (chars s).
Proof.
  apply eq_true_iff_eq. unfold str_is_empty, trim. rewrite String.eqb_eq, concat_str_empty.
  - rewrite <-(forallb_skip_while is_whitespace (chars s)), <-forallb_rev, <-skip_while_nil.
    split; [|by intros ->]. intros H%(f_equal (@rev _)). by rewrite rev_involutive in H.
  - intros c Hc%list_elem_of_In. apply in_rev, list_elem_of_In, elem_of_skip_while in Hc.
    apply list_elem_of_In, in_rev, list_elem_of_In, elem_of_skip_while in Hc.
    by apply (chars_nonempty s).
Qed.

(** ** Bytes *)

Lemma str_len_bytes s : str_len s = Z.of_nat (length (bytes s)).
Proof. unfold str_len. f_equal. induction s as [|b s IH]; [done|]. simpl. by rewrite IH. Qed.

Lemma of_ascii_bytes s : of_ascii (bytes s) = s.
Proof. apply String.string_of_list_ascii_of_string. Qed.

Lemma bytes_of_ascii l : bytes (of_ascii l) = l.
Proof. apply String.list_ascii_of_string_of_list_ascii. Qed.

Lemma bytes_app a b : bytes (a +:+ b) = bytes a ++ bytes b.
Proof.
  induction a as [|x a IH]; [done|].
  change (x :: bytes (a +:+ b) = x :: bytes a ++ bytes b). by rewrite IH.
Qed.

Lemma of_ascii_app a b : of_ascii (a ++ b) = of_ascii a +:+ of_ascii b.
Proof. by rewrite <-(of_ascii_bytes (_ +:+ _)), bytes_app, !bytes_of_ascii. Qed.

Lemma bytes_inj a b : bytes a = bytes b → a = b.
Proof. intros E. by rewrite <-(of_ascii_bytes a), E, of_ascii_bytes. Qed.

Lemma strip_suffix_spec p s h : strip_suffix p s = Some h ↔ s = h +:+ p.
Proof.
  unfold strip_suffix. split.
  - case_bool_decide as E; [|done]. intros [= <-]. apply bytes_inj.
    rewrite bytes_app, bytes_of_ascii.
    etransitivity; [symmetry; apply take_drop|]. by f_equal.
  - intros ->. rewrite bytes_app, length_app.
    replace (length (bytes h) + length (bytes p) - length (bytes p))%nat with (length (bytes h)) by lia.
    rewrite drop_app_length, take_app_length, of_ascii_bytes. by rewrite bool_decide_eq_true_2.
Qed.

Lemma ends_with_spec p s : ends_with p s = true ↔ ∃ h, s = h +:+ p.
Proof.
  unfold ends_with. rewrite bool_decide_eq_true. setoid_rewrite <-strip_suffix_spec.
  destruct (strip_suffix p s); naive_solver.
Qed.

(** The first occurrence splits. *)
Lemma split_once_spec c a b :
  c ∉ bytes a → split_once c (a +:+ String c b) = Some (a, b).
Proof.
  intros Hc. unfold split_once. rewrite bytes_app. change (bytes (String c b)) with (c :: bytes b).
  assert (∀ l r, c ∉ l → split_once_bytes c (l ++ c :: r) = Some (l, r)) as Hs.
  { induction l as [|x l IH]; intros r Hl; simpl; [by rewrite Ascii.eqb_refl|].
    apply not_elem_of_cons in Hl as [Hx Hl]. destruct (Ascii.eqb_spec x c); [done|]. by rewrite IH. }
  rewrite Hs by done. simpl. by rewrite !of_ascii_bytes.
Qed.

(** ** Characters, one after another *)

(** A character: a byte and the continuation bytes after it. *)
Definition is_char (c : string) : Prop :=
  match c with
  | EmptyString => False
  | String _ r => forallb is_continuation (bytes r) = true
  end.
(** A character that no byte before it can swallow. *)
Definition leads (c : string) : Prop :=
  match c with EmptyString => False | String b _ => is_continuation b = false end.
Definition char_seq (l : list string) : Prop :=
  Forall is_char l ∧ Forall leads (tail l).

Lemma chars_char_seq s : char_seq (chars s).
Proof.
  induction s as [|b s [IH1 IH2]]; [by split|]. simpl.
  destruct (chars s) as [|[|b' c'] cs]; [by repeat constructor|by apply Forall_cons in IH1 as [[] _]|].
  apply Forall_cons in IH1 as [Hc Hcs]. simpl in IH2.
  destruct (is_continuation b') eqn:E.
  - split; [|done]. constructor; [|done]. simpl in *. by rewrite E.
  - split; [repeat constructor; [done|]; done|]. constructor; done.
Qed.

Lemma chars_char b r s :
  forallb is_continuation (bytes r) = true →
  match chars s with c :: _ => leads c | [] => True end →
  chars (String b (r +:+ s)) = String b r :: chars s.
Proof.
  revert b. induction r as [|b' r IH]; intros b Hr Hs.
  - change (EmptyString +:+ s) with s. simpl.
    destruct (chars s) as [|[|b' c'] cs]; [done..|]. simpl in Hs. by rewrite Hs.
  - simpl in Hr. apply andb_true_iff in Hr as [Hb Hr]. change (String b' r +:+ s) with (String b' (r +:+ s)).
    cbn [chars]. specialize (IH b' Hr Hs). cbn [chars] in IH. rewrite IH. by rewrite Hb.
Qed.

Lemma chars_concat l : char_seq l → chars (concat_str l) = l.
Proof.
  induction l as [|c l IH]; intros [Hc Hl]; [done|]. apply Forall_cons in Hc as [Hc Hcs].
  assert (chars (concat_str l) = l) as E.
  { apply IH. split; [done|]. destruct l; [done|]. by apply Forall_cons in Hl as [_ Hl]. }
  simpl. destruct c as [|b r]; [done|]. change (String b r +:+ concat_str l) with (String b (r +:+ concat_str l)).
  rewrite chars_char; rewrite ?E; [done|done|]. destruct l; [done|]. by apply Forall_cons in Hl as [Hl _].
Qed.

Lemma skip_while_suffix {A} (p : A → bool) l : ∃ k, l = k ++ skip_while p l.
Proof.
  induction l as [|x l [k IH]]; [by exists []|]. simpl. destruct (p x); [|by exists []].
  exists (x :: k). by rewrite IH at 1.
Qed.

Lemma char_seq_app_l a b : char_seq (a ++ b) → char_seq a.
Proof.
  intros [H1 H2]. apply Forall_app in H1 as [H1 _]. split; [done|].
  destruct a as [|x a]; [done|]. by apply Forall_app in H2 as [H2 _].
Qed.

Lemma char_seq_app_r a b : char_seq (a ++ b) → char_seq b.
Proof.
  intros [H1 H2]. apply Forall_app in H1 as [_ H1]. split; [done|].
  destruct a as [|x a]; [done|]. simpl in H2. apply Forall_app in H2 as [_ H2]. destruct b; [done|].
  by apply Forall_cons in H2 as [_ H2].
Qed.

(** What [trim] keeps of the characters. *)
Definition trimmed (l : list string) : list string :=
  rev (skip_while is_whitespace (rev (skip_while is_whitespace l))).

Lemma chars_trim s : chars (trim s) = trimmed (chars s).
Proof.
  apply chars_concat. unfold trimmed.
  destruct (skip_while_suffix is_whitespace (chars s)) as [k Hk].
  destruct (skip_while_suffix is_whitespace (rev (skip_while is_whitespace (chars s)))) as [k' Hk'].
  apply (f_equal (@rev _)) in Hk'. rewrite rev_involutive, rev_app_distr in Hk'.
  apply (char_seq_app_l _ (rev k')). rewrite <-Hk'. apply (char_seq_app_r k). rewrite <-Hk. apply chars_char_seq.
Qed.

Lemma skip_while_idem {A} (p : A → bool) l : skip_while p (skip_while p l) = skip_while p l.
Proof. induction l as [|x l IH]; [done|]. simpl. destruct (p x) eqn:E; [done|]. simpl. by rewrite E. Qed.

Lemma skip_while_keeps {A} (p : A → bool) x l : p x = false → skip_while p (l ++ [x]) = skip_while p l ++ [x].
Proof. intros Hx. induction l as [|y l IH]; simpl; [by rewrite Hx|]. by destruct (p y). Qed.

Lemma skip_while_head {A} (p : A → bool) l x k : skip_while p l = x :: k → p x = false.
Proof. induction l as [|y l IH]; [done|]. simpl. destruct (p y) eqn:E; [done|]. by intros [= <- _]. Qed.

Lemma trimmed_idem l : trimmed (trimmed l) = trimmed l.
Proof.
  unfold trimmed. set (a := skip_while is_whitespace l).
  enough (skip_while is_whitespace (rev (skip_while is_whitespace (rev a))) = rev (skip_while is_whitespace (rev a))) as ->.
  { by rewrite rev_involutive, skip_while_idem. }
  destruct a as [|x k] eqn:E; [done|]. pose proof (skip_while_head _ _ _ _ E) as Hx.
  simpl rev. rewrite skip_while_keeps by done. rewrite rev_app_distr. simpl. by rewrite Hx.
Qed.

Lemma trim_trim s : trim (trim s) = trim s.
Proof. unfold trim at 1. rewrite chars_trim. change (concat_str (trimmed (trimmed (chars s))) = trim s). by rewrite trimmed_idem. Qed.

Lemma byte_value_range b : 0 ≤ byte_value b < 256.
Proof. unfold byte_value. pose proof (Ascii.N_ascii_bounded b). lia. Qed.

Lemma byte_of_value b : byte_of (byte_value b) = b.
Proof. unfold byte_of, byte_value. by rewrite N2Z.id, Ascii.ascii_N_embedding. Qed.

Lemma byte_value_of n : 0 ≤ n < 256 → byte_value (byte_of n) = n.
Proof.
  intros H. unfold byte_value, byte_of. rewrite Ascii.N_ascii_embedding; lia.
Qed.

Lemma strip_prefix_app p s : strip_prefix p (p +:+ s) = Some s.
Proof.
  unfold strip_prefix. rewrite bytes_app, take_app_length, drop_app_length, bool_decide_eq_true_2 by done.
  by rewrite of_ascii_bytes.
Qed.

Lemma strip_prefix_spec p s t : strip_prefix p s = Some t ↔ s = p +:+ t.
Proof.
  split; [|intros ->; apply strip_prefix_app].
  unfold strip_prefix. case_bool_decide as E; [|done]. intros [= <-].
  apply bytes_inj. rewrite bytes_app, bytes_of_ascii, <-E at 1. by rewrite take_drop.
Qed.
