(* ===== verification/Profile.v ===== *)
(** Identifiers, failover tiers, the bundled catalogue and connection profiles
    (crates/dnet-core/src/ids.rs, tier.rs, catalogue.rs, credential.rs, error.rs and profile.rs). *)

From S2P Require Import Prelude Text.

(** * Identifiers

    Each id is a type of its own in the source; here it is the value it wraps.  Minting a random
    id and printing a [Uuid] belong to the [uuid] crate: printing is the interface [UuidDisplay],
    and a fresh id is an argument of the operation that mints one. *)

Abbreviation Uuid := Z (only parsing).

(* src: crates/dnet-core/src/ids.rs:8-38 EndpointId *)
Definition EndpointId : Type := Uuid.

(* src: crates/dnet-core/src/ids.rs:40-62 ProfileId *)
Definition ProfileId : Type := string.

(* src: crates/dnet-core/src/ids.rs:64-92 RuleId *)
Definition RuleId : Type := Uuid.

(* src: crates/dnet-core/src/ids.rs:94-112 SessionId *)
Definition SessionId : Type := Uuid.

(* src: crates/dnet-core/src/ids.rs:114-126 InterfaceId *)
Definition InterfaceId : Type := Z.

#[export] Instance EndpointId_eq_dec : EqDecision EndpointId := Z.eq_dec.
#[export] Instance ProfileId_eq_dec : EqDecision ProfileId := String.eq_dec.
#[export] Instance RuleId_eq_dec : EqDecision RuleId := Z.eq_dec.
#[export] Instance InterfaceId_eq_dec : EqDecision InterfaceId := Z.eq_dec.
#[export] Instance InterfaceId_countable : Countable InterfaceId := Z_countable.

Class UuidDisplay : Type := uuid_to_string : Uuid → string.

(** Reading one from text is the crate's too, and what it documents of both: an id is written hyphenated, in 36
    characters, and reads back. *)
Class UuidText : Type := { uuid_display :: UuidDisplay; uuid_parse_str : string → option Uuid }.
Class UuidLaws `{UuidText} : Prop := {
  uuid_reads_back s u : uuid_parse_str s = Some u →
    uuid_parse_str (uuid_to_string u) = Some u ∧ str_len (uuid_to_string u) = 36;
  uuid_reads_itself u v : uuid_parse_str (uuid_to_string u) = Some v → v = u;
}.
Definition uuid_known `{UuidText} (u : Uuid) : Prop := ∃ s, uuid_parse_str s = Some u.

(** * Domain errors *)

(* src: crates/dnet-core/src/error.rs:7-102 DomainError *)
Inductive DomainError : Type :=
  | InvalidLabel (len : Z)
  | EmptyHost
  | ZeroPort
  | InvalidCidr (s : string)
  | EmptyPattern
  | BrutalRequiresHysteria2
  | BrutalNotAcknowledged
  | NoTcpFallback
  | InvalidDomainPattern (s : string)
  | PrecedenceCollision (precedence : Z)
  | MultipleCarryingPaths (found : Z)
  | MissingDnsCapture
  | DnsPortRequiresCapture
  | EncryptedDnsPortRequiresReject
  | RejectIsBuiltinOnly
  | EncryptedDnsBlockLeftBehind
  | RangeInsideFakeIpPool (s : string)
  | OutranksEncryptedDnsBlock (precedence minimum : Z)
  | UserRuleOutranksBuiltins (precedence minimum : Z)
  | NotAPersonalRule
  | BuiltinRuleMissing (name : string).

#[export] Instance DomainError_eq_dec : EqDecision DomainError.
Proof. solve_decision. Defined.

(** [DomainError::to_string]. *)
(* src: crates/dnet-core/src/error.rs:10-101 DomainError *)
Definition domain_error_to_string `{DebugText} (e : DomainError) : string :=
  match e with
  | InvalidLabel len => "endpoint label must be 1-64 characters, got " +:+ pretty len
  | EmptyHost => "endpoint host must not be empty"
  | ZeroPort => "endpoint port must not be zero"
  | InvalidCidr s => "invalid CIDR " +:+ debug s
  | EmptyPattern => "routing rule match pattern must not be empty"
  | BrutalRequiresHysteria2 => "Brutal congestion control is only available on a Hysteria 2 profile"
  | BrutalNotAcknowledged => "Brutal congestion control requires explicit acknowledgement of its shared-AP impact"
  | NoTcpFallback => "a profile set must contain at least one TCP-carrier profile"
  | InvalidDomainPattern s => debug s +:+ " is not a domain name a rule can match"
  | PrecedenceCollision p => "routing rules share precedence " +:+ pretty p +:+ "; precedence must be unique"
  | MultipleCarryingPaths found => "at most one path may be carrying; found " +:+ pretty found
  | MissingDnsCapture => "rule set must contain the built-in DNS-capture rule; without it DNS can leak"
  | DnsPortRequiresCapture => "a DnsPort matcher must use the Capture action"
  | EncryptedDnsPortRequiresReject => "an EncryptedDnsPort matcher must use the Reject action"
  | RejectIsBuiltinOnly => "only built-in rules may use the Reject action"
  | EncryptedDnsBlockLeftBehind => "encrypted DNS is allowed but the rule set still blocks it"
  | RangeInsideFakeIpPool s =>
      s +:+ " is inside the range used for placeholder addresses; a rule there cannot match a real destination"
  | OutranksEncryptedDnsBlock p start =>
      "rule precedence " +:+ pretty p +:+ " outranks the built-in encrypted-DNS block; use " +:+ pretty start +:+ " or higher"
  | UserRuleOutranksBuiltins p start =>
      "rule precedence " +:+ pretty p +:+ " would outrank the built-in rules; a rule you add starts at " +:+ pretty start
  | NotAPersonalRule =>
      "a rule you add matches a domain, a domain and its subdomains, an address range or a program, and tunnels or bypasses"
  | BuiltinRuleMissing name => "built-in rule " +:+ name +:+ " cannot be removed"
  end.

(** * Profile kinds *)

(* src: crates/dnet-core/src/profile.rs:23-30 CoreBinding *)
Inductive CoreBinding : Type := PrimaryCore | AmneziaWgCore.

(* src: crates/dnet-core/src/profile.rs:32-39 Carrier *)
Inductive Carrier : Type := Udp | Tcp.

(* src: crates/dnet-core/src/profile.rs:41-51 ProfileKind *)
Inductive ProfileKind : Type := AmneziaWg | Hysteria2 | VlessReality.

#[export] Instance CoreBinding_eq_dec : EqDecision CoreBinding.
Proof. solve_decision. Defined.
#[export] Instance Carrier_eq_dec : EqDecision Carrier.
Proof. solve_decision. Defined.
#[export] Instance ProfileKind_eq_dec : EqDecision ProfileKind.
Proof. solve_decision. Defined.

(* src: crates/dnet-core/src/profile.rs:54-60 ProfileKind::carrier *)
Definition carrier (k : ProfileKind) : Carrier :=
  match k with
  | VlessReality => Tcp
  | AmneziaWg | Hysteria2 => Udp
  end.

(* src: crates/dnet-core/src/profile.rs:62-66 ProfileKind::proxy_probeable *)
Definition proxy_probeable (k : ProfileKind) : bool :=
  match k with
  | AmneziaWg => false
  | _ => true
  end.

(* src: crates/dnet-core/src/profile.rs:68-74 ProfileKind::core_binding *)
Definition core_binding (k : ProfileKind) : CoreBinding :=
  match k with
  | AmneziaWg => AmneziaWgCore
  | Hysteria2 | VlessReality => PrimaryCore
  end.

(** * Failover tiers *)

(* src: crates/dnet-core/src/tier.rs:12-25 FailoverTier *)
Inductive FailoverTier : Type := Tier1 | Tier2.

(* src: crates/dnet-core/src/tier.rs:27-36 SurvivalMeasurement *)
Inductive SurvivalMeasurement : Type := NotMeasured | Survived | Broke.

#[export] Instance FailoverTier_eq_dec : EqDecision FailoverTier.
Proof. solve_decision. Defined.
#[export] Instance SurvivalMeasurement_eq_dec : EqDecision SurvivalMeasurement.
Proof. solve_decision. Defined.

(** The derived [Ord]: [Tier1] is the lesser, and so the preferred, tier. *)
Definition tier_index (t : FailoverTier) : Z :=
  match t with Tier1 => 0 | Tier2 => 1 end.
Definition tier_compare (a b : FailoverTier) : comparison := tier_index a ?= tier_index b.

(* src: crates/dnet-core/src/tier.rs:38-46 FailoverTier::from_measurement *)
Definition from_measurement (m : SurvivalMeasurement) : FailoverTier :=
  match m with
  | Survived => Tier1
  | NotMeasured | Broke => Tier2
  end.

(* src: crates/dnet-core/src/tier.rs:48-61 recorded_survival *)
Definition recorded_survival (kind : ProfileKind) : SurvivalMeasurement :=
  match kind with
  | AmneziaWg => NotMeasured
  | Hysteria2 => NotMeasured
  | VlessReality => NotMeasured
  end.

(** * The catalogue *)

(* src: crates/dnet-core/src/catalogue.rs:9-14 CatalogueEntry *)
Record CatalogueEntry : Type := mkCatalogueEntry {
  entry_id : string;
  entry_kind : ProfileKind;
}.

(* src: crates/dnet-core/src/catalogue.rs:16-30 BUNDLED_PROFILES *)
Definition BUNDLED_PROFILES : list CatalogueEntry := [
  mkCatalogueEntry "awg-default" AmneziaWg;
  mkCatalogueEntry "hy2-default" Hysteria2;
  mkCatalogueEntry "reality-default" VlessReality
].

(* src: crates/dnet-core/src/catalogue.rs:32-38 bundled_kind *)
Definition bundled_kind (id : string) : option ProfileKind :=
  option_map entry_kind (List.find (fun entry => String.eqb (entry_id entry) id) BUNDLED_PROFILES).

(** * Brutal congestion control *)

(* src: crates/dnet-core/src/profile.rs:77-85 BandwidthPair *)
Record BandwidthPair : Type := mkBandwidthPair {
  up_mbps : Z;
  down_mbps : Z;
}.

(* src: crates/dnet-core/src/profile.rs:87-91 BRUTAL_WARNING_REVISION *)
Definition BRUTAL_WARNING_REVISION : Z := 1.

(* src: crates/dnet-core/src/profile.rs:93-103 BrutalWarning *)
Record BrutalWarning : Type := mkBrutalWarning {
  bw_revision : Z;
  bw_title : string;
  bw_body : string;
  bw_consequence : string;
  bw_note : string;
}.

(* src: crates/dnet-core/src/profile.rs:105-115 brutal_warning *)
Definition brutal_warning : BrutalWarning := {|
  bw_revision := BRUTAL_WARNING_REVISION;
  bw_title := "Turn on aggressive speed mode?";
  bw_body := "This mode sends as fast as it can instead of backing off when the network is busy.";
  bw_consequence := "This makes the Wi-Fi worse for everyone around you, including you.";
  bw_note := "You tell the mode how fast your connection is. If that figure is too high, it will make things worse.";
|}.

(* src: crates/dnet-core/src/profile.rs:117-128 BrutalAcknowledgement *)
Record BrutalAcknowledgement : Type := mkBrutalAcknowledgement {
  warning_revision : Z;
  acknowledged_at_unix : Z;
}.

(* src: crates/dnet-core/src/profile.rs:130-135 BrutalAcknowledgement::is_current *)
Definition is_current (a : BrutalAcknowledgement) : bool :=
  warning_revision a =? BRUTAL_WARNING_REVISION.

(* src: crates/dnet-core/src/profile.rs:137-152 BrutalOptIn *)
Record BrutalOptIn : Type := mkBrutalOptIn {
  bandwidth : BandwidthPair;
  acknowledgement : BrutalAcknowledgement;
}.

(** * Profiles *)

(* src: crates/dnet-core/src/profile.rs:154-166 Viability *)
Inductive Viability : Type :=
  | Untested
  | Working (measured_at : Instant)
  | Blocked (measured_at : Instant) (reason : string).

#[export] Instance Viability_eq_dec : EqDecision Viability.
Proof. solve_decision. Defined.

(* src: crates/dnet-core/src/profile.rs:168-174 ProfileParams *)
Definition ProfileParams : Type := gmap string string.

(* src: crates/dnet-core/src/profile.rs:177-179 ProfileParams::new *)
Definition params_new : ProfileParams := ∅.

(* src: crates/dnet-core/src/profile.rs:181-183 ProfileParams::set *)
Definition params_set (key value : string) (ps : ProfileParams) : ProfileParams := <[key := value]> ps.

(* src: crates/dnet-core/src/profile.rs:185-187 ProfileParams::get *)
Definition params_get (ps : ProfileParams) (key : string) : option string := ps !! key.

(* src: crates/dnet-core/src/profile.rs:193-195 ProfileParams::is_empty *)
Definition params_is_empty (ps : ProfileParams) : bool := bool_decide (ps = ∅).

(* src: crates/dnet-core/src/profile.rs:198-207 ConnectionProfile *)
Record ConnectionProfile : Type := mkConnectionProfile {
  profile_id : ProfileId;
  profile_kind : ProfileKind;
  profile_tier : FailoverTier;
  profile_params : ProfileParams;
  profile_viability : Viability;
  profile_brutal : option BrutalOptIn;
}.

(* src: crates/dnet-core/src/profile.rs:229-243 ConnectionProfile::with_survival *)
Definition with_survival (id : ProfileId) (kind : ProfileKind) (params : ProfileParams)
    (measurement : SurvivalMeasurement) : ConnectionProfile := {|
  profile_id := id;
  profile_tier := from_measurement measurement;
  profile_kind := kind;
  profile_params := params;
  profile_viability := Untested;
  profile_brutal := None;
|}.

(* src: crates/dnet-core/src/profile.rs:210-215 ConnectionProfile::new *)
Definition profile_new (id : ProfileId) (kind : ProfileKind) (params : ProfileParams) : ConnectionProfile :=
  with_survival id kind params (recorded_survival kind).

(* src: crates/dnet-core/src/profile.rs:253-256 ConnectionProfile::carrier *)
Definition profile_carrier (p : ConnectionProfile) : Carrier := carrier (profile_kind p).

(* src: crates/dnet-core/src/profile.rs:258-261 ConnectionProfile::core_binding *)
Definition profile_core_binding (p : ConnectionProfile) : CoreBinding := core_binding (profile_kind p).

Definition with_viability (v : Viability) (p : ConnectionProfile) : ConnectionProfile := {|
  profile_id := profile_id p;
  profile_kind := profile_kind p;
  profile_tier := profile_tier p;
  profile_params := profile_params p;
  profile_viability := v;
  profile_brutal := profile_brutal p;
|}.

Definition with_brutal (b : option BrutalOptIn) (p : ConnectionProfile) : ConnectionProfile := {|
  profile_id := profile_id p;
  profile_kind := profile_kind p;
  profile_tier := profile_tier p;
  profile_params := profile_params p;
  profile_viability := profile_viability p;
  profile_brutal := b;
|}.

(* src: crates/dnet-core/src/profile.rs:277-281 ConnectionProfile::reset_viability *)
Definition reset_viability : ConnectionProfile → ConnectionProfile := with_viability Untested.

(* src: crates/dnet-core/src/profile.rs:283-285 ConnectionProfile::mark_working *)
Definition mark_working (measured_at : Instant) : ConnectionProfile → ConnectionProfile :=
  with_viability (Working measured_at).

(* src: crates/dnet-core/src/profile.rs:287-292 ConnectionProfile::mark_blocked *)
Definition mark_blocked (measured_at : Instant) (reason : string) : ConnectionProfile → ConnectionProfile :=
  with_viability (Blocked measured_at reason).

(* src: crates/dnet-core/src/profile.rs:300-321 ConnectionProfile::enable_brutal *)
Definition enable_brutal (bw : BandwidthPair) (ack : BrutalAcknowledgement) (p : ConnectionProfile) :
    result DomainError ConnectionProfile :=
  if negb (bool_decide (profile_kind p = Hysteria2)) then Err BrutalRequiresHysteria2
  else if negb (is_current ack) then Err BrutalNotAcknowledged
  else Ok (with_brutal (Some {| bandwidth := bw; acknowledgement := ack |}) p).

(* src: crates/dnet-core/src/profile.rs:323-326 ConnectionProfile::disable_brutal *)
Definition disable_brutal : ConnectionProfile → ConnectionProfile := with_brutal None.

(* src: crates/dnet-core/src/profile.rs:329-337 validate_profile_set *)
Definition validate_profile_set (profiles : list ConnectionProfile) : result DomainError unit :=
  if existsb (fun p => bool_decide (profile_carrier p = Tcp)) profiles then Ok ()
  else Err NoTcpFallback.

(** [matches!(p.viability(), ...)], as the selection and recovery code writes it. *)
Definition is_working (p : ConnectionProfile) : bool :=
  match profile_viability p with Working _ => true | _ => false end.
Definition is_blocked (p : ConnectionProfile) : bool :=
  match profile_viability p with Blocked _ _ => true | _ => false end.

(** * Profile values reachable from their constructor *)

#[export] Instance tier_compare_total : TotalCompare tier_compare.
Proof. unfold tier_compare. apply _. Qed.

Lemma tier_compare_eq a b : tier_compare a b = Eq ↔ a = b.
Proof. by destruct a, b. Qed.

(** What every value of the type satisfies, as the fields are private: the tier comes from a
    measurement, and Brutal is on only for Hysteria 2 with a current acknowledgement. *)
Definition brutal_ok (p : ConnectionProfile) : Prop :=
  ∀ opt, profile_brutal p = Some opt →
    profile_kind p = Hysteria2 ∧ is_current (acknowledgement opt) = true.

Lemma profile_new_brutal_ok id kind params : brutal_ok (profile_new id kind params).
Proof. by intros ? [=]. Qed.

Lemma with_viability_brutal_ok v p : brutal_ok p → brutal_ok (with_viability v p).
Proof. intros H. exact H. Qed.

Lemma enable_brutal_ok bw ack p p' : enable_brutal bw ack p = Ok p' → brutal_ok p'.
Proof.
  unfold enable_brutal. repeat case_match; try done. intros [= <-].
  bool_simpl. by intros ? [= <-].
Qed.

(** The changes an operation on a profile may ask for. *)
Inductive ProfileOp : Type :=
  | OpResetViability
  | OpMarkWorking (at_ : Instant)
  | OpMarkBlocked (at_ : Instant) (reason : string)
  | OpEnableBrutal (bw : BandwidthPair) (ack : BrutalAcknowledgement)
  | OpDisableBrutal.

Definition profile_op (o : ProfileOp) (p : ConnectionProfile) : ConnectionProfile :=
  match o with
  | OpResetViability => reset_viability p
  | OpMarkWorking at_ => mark_working at_ p
  | OpMarkBlocked at_ reason => mark_blocked at_ reason p
  | OpEnableBrutal bw ack => match enable_brutal bw ack p with Ok p' => p' | Err _ => p end
  | OpDisableBrutal => disable_brutal p
  end.

(** Whatever operations a profile goes through after its creation, its id, kind, parameters and
    tier never change (the tier stays the recorded measurement of its kind), and Brutal is on
    only on a Hysteria 2 profile whose acknowledgement is of the warning in force. *)
Theorem profile_history_sound id kind params ops :
  let p := fold_left (fun p o => profile_op o p) ops (profile_new id kind params) in
  profile_id p = id ∧ profile_kind p = kind ∧ profile_params p = params ∧
  profile_tier p = from_measurement (recorded_survival kind) ∧ brutal_ok p.
Proof.
  pose (I p := profile_id p = id ∧ profile_kind p = kind ∧ profile_params p = params ∧
    profile_tier p = from_measurement (recorded_survival kind) ∧ brutal_ok p).
  assert (∀ ps, I ps → I (fold_left (fun p o => profile_op o p) ops ps)) as HI; [|by apply HI].
  induction ops as [|o ops IH]; intros p Hp; simpl; [done|]. apply IH.
  destruct Hp as (? & ? & ? & ? & ?).
  destruct o; simpl; try by split_and!.
  destruct (enable_brutal bw ack p) as [p'|] eqn:E; [|by split_and!].
  pose proof (enable_brutal_ok _ _ _ _ E). unfold enable_brutal in E.
  repeat case_match; try done. injection E as <-. by split_and!.
Qed.

(** One id has a text: enough to read and write the identifiers of the witnesses. *)
Module ToyText.
#[export] Instance uuid : UuidText := {|
  uuid_display := fun u => if u =? 7 then "67e55044-10b1-426f-9247-bb680e5fe0c8" else "";
  uuid_parse_str s := if String.eqb s "67e55044-10b1-426f-9247-bb680e5fe0c8" then Some 7 else None;
|}.
#[export] Instance debug_text : DebugText := fun s => quote +:+ s +:+ quote.

#[export] Instance uuid_laws : UuidLaws.
Proof.
  split.
  - intros s u. unfold uuid_parse_str, uuid. destruct (String.eqb s _); [|done]. by intros [= <-].
  - intros u v. unfold uuid_to_string, uuid_parse_str, uuid_display, uuid. destruct (Z.eqb_spec u 7) as [->|]; [|done].
    by intros [= <-].
Qed.
End ToyText.
