(* ===== verification/Health.v ===== *)
(** The endpoint health state machine (crates/dnet-core/src/health.rs). *)

From Stdlib Require Import SpecFloat.
From S2P Require Import Prelude Float.

(** * Definitions *)

(* src: crates/dnet-core/src/health.rs:22-23 DEFAULT_UNREACHABLE_AFTER *)
Definition DEFAULT_UNREACHABLE_AFTER : Z := 3.

(* src: crates/dnet-core/src/health.rs:25-26 DEGRADED_RTT_THRESHOLD *)
Definition DEGRADED_RTT_THRESHOLD : Duration := from_millis 250.

(* src: crates/dnet-core/src/health.rs:28-29 DEGRADED_AFTER_BAD *)
Definition DEGRADED_AFTER_BAD : Z := 2.

(* src: crates/dnet-core/src/health.rs:31-32 HEALTHY_AFTER_GOOD *)
Definition HEALTHY_AFTER_GOOD : Z := 3.

(* src: crates/dnet-core/src/health.rs:34-35 RTT_EWMA_ALPHA *)
Definition RTT_EWMA_ALPHA : f64 := f64_lit 1 8.

(* src: crates/dnet-core/src/health.rs:37-38 RTTVAR_EWMA_BETA *)
Definition RTTVAR_EWMA_BETA : f64 := f64_lit 1 4.

(* src: crates/dnet-core/src/health.rs:40-52 HealthState *)
Inductive HealthState : Type := Unknown | Healthy | Degraded | Unreachable.

#[export] Instance HealthState_eq_dec : EqDecision HealthState.
Proof. solve_decision. Defined.

(* src: crates/dnet-core/src/health.rs:54-67 ProbeOutcome *)
Inductive ProbeOutcome : Type :=
  | Answered (rtt : Duration) (loss : bool)
  | Failed.

(* src: crates/dnet-core/src/health.rs:69-74 ProbeOutcome::is_good_quality *)
Definition is_good_quality (o : ProbeOutcome) : bool :=
  match o with
  | Answered rtt loss => (rtt <? DEGRADED_RTT_THRESHOLD) && negb loss
  | Failed => false
  end.

(* src: crates/dnet-core/src/health.rs:76-81 HealthConfig *)
Record HealthConfig : Type := mkHealthConfig {
  unreachable_after : Z;
}.

(* src: crates/dnet-core/src/health.rs:83-89 HealthConfig::default *)
Definition health_config_default : HealthConfig := {|
  unreachable_after := DEFAULT_UNREACHABLE_AFTER;
|}.

(* src: crates/dnet-core/src/health.rs:91-105 EndpointHealth *)
Record EndpointHealth : Type := mkEndpointHealth {
  state : HealthState;
  last_probe : option Instant;
  consecutive_failures : Z;
  consecutive_bad_quality : Z;
  consecutive_good_quality : Z;
  rtt_ewma : option Duration;
  rttvar_ewma : option Duration;
}.

(* src: crates/dnet-core/src/health.rs:107-117 Transition *)
Record Transition : Type := mkTransition {
  next : EndpointHealth;
  became_unreachable : bool;
}.

(* src: crates/dnet-core/src/health.rs:120-131 EndpointHealth::new *)
Definition health_new : EndpointHealth := {|
  state := Unknown;
  last_probe := None;
  consecutive_failures := 0;
  consecutive_bad_quality := 0;
  consecutive_good_quality := 0;
  rtt_ewma := None;
  rttvar_ewma := None;
|}.

(* src: crates/dnet-core/src/health.rs:180-202 EndpointHealth::state_after_success *)
Definition state_after_success (prev : HealthState) (bad good : Z) : HealthState :=
  match prev with
  | Unknown | Unreachable | Healthy => if DEGRADED_AFTER_BAD <=? bad then Degraded else Healthy
  | Degraded => if HEALTHY_AFTER_GOOD <=? good then Healthy else Degraded
  end.

(** One step of the two estimators of RFC 6298, in the source's arithmetic.  The same recurrences
    smooth an endpoint's round trips here and a path's in [Quality].  [None] is the panic of
    [Duration::from_secs_f64]. *)
(* src: crates/dnet-core/src/health.rs:216-224 EndpointHealth::update_rtt *)
Definition smooth_rtt (srtt : Duration) (rttvar : option Duration) (sample : Duration) :
    option (Duration * Duration) :=
  let r := as_secs_f64 sample in
  let srtt := as_secs_f64 srtt in
  let rttvar := match rttvar with Some v => as_secs_f64 v | None => f64_zero end in
  let new_rttvar :=
    f64_add (f64_mul (f64_sub f64_one RTTVAR_EWMA_BETA) rttvar)
      (f64_mul RTTVAR_EWMA_BETA (SFabs (f64_sub srtt r))) in
  let new_srtt :=
    f64_add (f64_mul (f64_sub f64_one RTT_EWMA_ALPHA) srtt) (f64_mul RTT_EWMA_ALPHA r) in
  srtt' ← from_secs_f64 (f64_max new_srtt f64_zero);
  rttvar' ← from_secs_f64 (f64_max new_rttvar f64_zero);
  Some (srtt', rttvar').

(* src: crates/dnet-core/src/health.rs:204-226 EndpointHealth::update_rtt *)
Definition update_rtt (h : EndpointHealth) (sample : Duration) : option (Duration * Duration) :=
  match rtt_ewma h with
  | None => Some (sample, sample / 2)
  | Some srtt => smooth_rtt srtt (rttvar_ewma h) sample
  end.

(* src: crates/dnet-core/src/health.rs:133-178 EndpointHealth::on_probe *)
Definition on_probe (self : EndpointHealth) (outcome : ProbeOutcome) (at_ : Instant) (cfg : HealthConfig) :
    option Transition :=
  let prev := state self in
  next ←
    match outcome with
    | Failed =>
        let failures := u32_saturating_add (consecutive_failures self) 1 in
        let now_unreachable :=
          bool_decide (prev = Unknown) || bool_decide (prev = Unreachable) ||
          (unreachable_after cfg <=? failures) in
        Some {|
          state := if now_unreachable then Unreachable else prev;
          last_probe := Some at_;
          consecutive_failures := failures;
          consecutive_bad_quality := 0;
          consecutive_good_quality := 0;
          rtt_ewma := rtt_ewma self;
          rttvar_ewma := rttvar_ewma self;
        |}
    | Answered rtt _ =>
        '(srtt, rttvar) ← update_rtt self rtt;
        let good_probe := is_good_quality outcome in
        let good := if good_probe then u32_saturating_add (consecutive_good_quality self) 1 else 0 in
        let bad := if good_probe then 0 else u32_saturating_add (consecutive_bad_quality self) 1 in
        Some {|
          state := state_after_success prev bad good;
          last_probe := Some at_;
          consecutive_failures := 0;
          consecutive_bad_quality := bad;
          consecutive_good_quality := good;
          rtt_ewma := Some srtt;
          rttvar_ewma := Some rttvar;
        |}
    end;
  let became_unreachable :=
    bool_decide (prev ≠ Unreachable) && bool_decide (state next = Unreachable) in
  Some (mkTransition next became_unreachable).

(** A history of probes, newest last: the health after it and, for each probe, whether it was
    reported as the one that made the endpoint unreachable. *)
Fixpoint probe_history (cfg : HealthConfig) (h : EndpointHealth) (probes : list (ProbeOutcome * Instant)) :
    option (EndpointHealth * list bool) :=
  match probes with
  | [] => Some (h, [])
  | (o, t) :: probes =>
      tr ← on_probe h o t cfg;
      '(h', flags) ← probe_history cfg (next tr) probes;
      Some (h', became_unreachable tr :: flags)
  end.

(** How many probes at the end of a history satisfy a test. *)
Definition trailing (p : ProbeOutcome → bool) (probes : list (ProbeOutcome * Instant)) : Z :=
  fold_left (fun n o => if p o.1 then n + 1 else 0) probes 0.

Definition is_failure (o : ProbeOutcome) : bool :=
  match o with Failed => true | _ => false end.
Definition is_bad_quality (o : ProbeOutcome) : bool := negb (is_failure o) && negb (is_good_quality o).

(** * What a history determines *)

Record health_inv (cfg : HealthConfig) (h : EndpointHealth) (probes : list (ProbeOutcome * Instant)) : Prop := {
  hi_failures : consecutive_failures h = Z.min U32_MAX (trailing is_failure probes);
  hi_bad : consecutive_bad_quality h = Z.min U32_MAX (trailing is_bad_quality probes);
  hi_good : consecutive_good_quality h = Z.min U32_MAX (trailing is_good_quality probes);
  hi_unknown : state h = Unknown ↔ probes = [];
  hi_unreachable : state h = Unreachable ↔
    0 < trailing is_failure probes ∧
    (unreachable_after cfg ≤ trailing is_failure probes ∨ ∀ o, o ∈ probes → o.1 = Failed);
  hi_degraded : state h = Degraded → trailing is_good_quality probes < HEALTHY_AFTER_GOOD;
  hi_healthy : state h = Healthy → trailing is_bad_quality probes < DEGRADED_AFTER_BAD;
  hi_last : last_probe h = option_map snd (last probes);
  hi_rtt : rtt_ewma h = None ↔ ∀ o, o ∈ probes → o.1 = Failed;
}.

Lemma trailing_snoc p probes o :
  trailing p (probes ++ [o]) = if p o.1 then trailing p probes + 1 else 0.
Proof. unfold trailing. by rewrite fold_left_app. Qed.

Lemma trailing_nonneg p probes : 0 ≤ trailing p probes.
Proof.
  induction probes as [|o probes IH] using rev_ind; [done|].
  rewrite trailing_snoc. case_match; lia.
Qed.

Lemma probe_history_snoc cfg h probes o t :
  probe_history cfg h (probes ++ [(o, t)]) =
    '(h1, flags) ← probe_history cfg h probes;
    tr ← on_probe h1 o t cfg;
    Some (next tr, flags ++ [became_unreachable tr]).
Proof.
  revert h. induction probes as [|[o' t'] probes IH]; intros h; simpl.
  - by destruct (on_probe h o t cfg).
  - destruct (on_probe h o' t' cfg) as [tr|]; [|done]. simpl. rewrite IH.
    destruct (probe_history cfg (next tr) probes) as [[h1 flags]|]; [|done]. simpl.
    by destruct (on_probe h1 o t cfg).
Qed.

Lemma all_failed_snoc (probes : list (ProbeOutcome * Instant)) o t :
  (∀ x, x ∈ probes ++ [(o, t)] → x.1 = Failed) ↔ (∀ x, x ∈ probes → x.1 = Failed) ∧ o = Failed.
Proof.
  setoid_rewrite elem_of_app. setoid_rewrite list_elem_of_singleton. split.
  - intros H. split; [auto|]. apply (H (o, t)). auto.
  - intros [H ->] x [Hx| ->]; auto.
Qed.

Lemma last_snoc_map (probes : list (ProbeOutcome * Instant)) o t :
  option_map snd (last (probes ++ [(o, t)])) = Some t.
Proof. by rewrite last_snoc. Qed.

Lemma health_inv_init cfg : health_inv cfg health_new [].
Proof.
  split; simpl; try done.
  - split; [done|]. intros [? _]. by unfold trailing in *.
  - split; [|done]. intros _ o Ho. by apply elem_of_nil in Ho.
Qed.

Lemma sat_succ n : 0 ≤ n → u32_saturating_add (Z.min U32_MAX n) 1 = Z.min U32_MAX (n + 1).
Proof. unfold u32_saturating_add, U32_MAX. lia. Qed.

Lemma on_probe_failed_inv cfg h probes t tr :
  0 ≤ unreachable_after cfg ≤ U32_MAX → health_inv cfg h probes →
  on_probe h Failed t cfg = Some tr → health_inv cfg (next tr) (probes ++ [(Failed, t)]).
Proof.
  intros Hcfg [Hf Hb Hg Hun Hur Hd Hh Hl Hr] [= <-]. simpl.
  pose proof (trailing_nonneg is_failure probes).
  split; simpl; rewrite ?trailing_snoc, ?last_snoc_map; simpl; try done.
  - by rewrite Hf, sat_succ.
  - split; [|by destruct probes]. destruct (state h); simpl; repeat case_match; try done.
  - rewrite Hf, sat_succ by done. rewrite all_failed_snoc.
    assert (U32_MAX = 4294967295) as HU by reflexivity.
    destruct (decide (state h = Unknown)) as [E|E].
    { rewrite E. apply Hun in E as ->. split; [|done]. intros _. split; [lia|].
      right. split; [|done]. by intros ? ?%elem_of_nil. }
    rewrite (bool_decide_false _ E). simpl.
    destruct (decide (state h = Unreachable)) as [E'|E'].
    { rewrite bool_decide_true by done. simpl. split; [|done]. intros _. split; [lia|].
      destruct (proj1 Hur E') as [? [?|?]]; [left; lia|right; auto]. }
    rewrite bool_decide_false by done. simpl.
    destruct (Z.leb_spec (unreachable_after cfg) (Z.min U32_MAX (trailing is_failure probes + 1))).
    + split; [|done]. intros _. split; [lia|left; lia].
    + split; [done|]. intros [_ [?|[Hall _]]]; [lia|]. apply Hur.
      assert (probes ≠ []) as Hne by (intros ->; by apply E, Hun).
      destruct probes as [|[o' t'] l _] using rev_ind; [done|].
      rewrite trailing_snoc. apply all_failed_snoc in Hall as [Hall ->]. simpl.
      pose proof (trailing_nonneg is_failure l). split; [lia|]. right. by apply all_failed_snoc.
  - rewrite all_failed_snoc. rewrite Hr. by split; [split|intros []].
Qed.

Lemma state_after_success_known prev bad good :
  state_after_success prev bad good ≠ Unknown ∧ state_after_success prev bad good ≠ Unreachable.
Proof. unfold state_after_success. destruct prev; case_match; done. Qed.

#[local] Opaque is_good_quality.

Lemma on_probe_answered_inv cfg h probes rtt loss t tr :
  health_inv cfg h probes →
  on_probe h (Answered rtt loss) t cfg = Some tr →
  health_inv cfg (next tr) (probes ++ [(Answered rtt loss, t)]).
Proof.
  intros [Hf Hb Hg Hun Hur Hd Hh Hl Hr] Hstep. unfold on_probe in Hstep.
  destruct (update_rtt h rtt) as [[srtt rttvar]|]; [|done]. injection Hstep as <-.
  pose proof (trailing_nonneg is_bad_quality probes).
  pose proof (trailing_nonneg is_good_quality probes).
  set (o := Answered rtt loss) in *.
  assert (Hbad : is_bad_quality o = negb (is_good_quality o)) by done.
  set (bad := if is_good_quality o then 0 else u32_saturating_add (consecutive_bad_quality h) 1).
  set (good := if is_good_quality o then u32_saturating_add (consecutive_good_quality h) 1 else 0).
  destruct (state_after_success_known (state h) bad good) as [Hk1 Hk2].
  assert (bad = Z.min U32_MAX (trailing is_bad_quality (probes ++ [(o, t)]))) as Eb.
  { rewrite trailing_snoc. cbn [fst]. rewrite Hbad. unfold bad.
    destruct (is_good_quality o); simpl; [done|]. by rewrite Hb, sat_succ. }
  assert (good = Z.min U32_MAX (trailing is_good_quality (probes ++ [(o, t)]))) as Eg.
  { rewrite trailing_snoc. cbn [fst]. unfold good.
    destruct (is_good_quality o); simpl; [|done]. by rewrite Hg, sat_succ. }
  assert (trailing is_failure (probes ++ [(o, t)]) = 0) as Et by (by rewrite trailing_snoc).
  split; cbn [next state last_probe consecutive_failures consecutive_bad_quality
    consecutive_good_quality rtt_ewma]; fold bad good; rewrite ?Et, ?last_snoc_map; try done.
  - split; [done|by destruct probes].
  - split; [done|lia].
  - clearbody bad good. subst bad good. unfold state_after_success, HEALTHY_AFTER_GOOD, DEGRADED_AFTER_BAD, U32_MAX.
    rewrite !trailing_snoc. cbn [fst]. rewrite ?Hbad.
    destruct (state h), (is_good_quality o); simpl; repeat case_match; bool_simpl; intros ?; try done; lia.
  - clearbody bad good. subst bad good. unfold state_after_success, HEALTHY_AFTER_GOOD, DEGRADED_AFTER_BAD, U32_MAX.
    rewrite !trailing_snoc. cbn [fst]. rewrite ?Hbad.
    destruct (state h), (is_good_quality o); simpl; repeat case_match; bool_simpl; intros ?; try done; lia.
  - split; [done|]. rewrite all_failed_snoc. by intros [].
Qed.

#[local] Transparent is_good_quality.

Lemma probe_history_inv cfg probes h flags :
  0 ≤ unreachable_after cfg ≤ U32_MAX →
  probe_history cfg health_new probes = Some (h, flags) → health_inv cfg h probes.
Proof.
  intros Hcfg. revert h flags.
  induction probes as [|[o t] probes IH] using rev_ind; intros h flags Hrun.
  - injection Hrun as <- <-. apply health_inv_init.
  - rewrite probe_history_snoc in Hrun.
    destruct (probe_history cfg health_new probes) as [[h1 flags1]|]; [|done]. simpl in Hrun.
    destruct (on_probe h1 o t cfg) as [tr|] eqn:E; [|done]. injection Hrun as <- <-.
    destruct o; [eapply on_probe_answered_inv|eapply on_probe_failed_inv]; eauto.
Qed.

(** The report [became_unreachable] is exactly entry into [Unreachable]. *)
Lemma became_unreachable_iff h o t cfg tr :
  on_probe h o t cfg = Some tr →
  became_unreachable tr = true ↔ state h ≠ Unreachable ∧ state (next tr) = Unreachable.
Proof.
  unfold on_probe. intros H. apply bind_Some in H as (n & _ & [= <-]). simpl.
  by rewrite andb_true_iff, !bool_decide_eq_true.
Qed.

(** A history without a panic. *)
Definition valid_history cfg probes h : Prop :=
  ∃ flags, probe_history cfg health_new probes = Some (h, flags).

(** * Properties *)

(** What a never-probed endpoint's health says after any history of probes is a function of
    that history: the failure, slow-or-lossy and good counters are the lengths of the current
    runs (saturating at [u32::MAX]); the state is [Unknown] exactly before the first probe, and
    [Unreachable] exactly when the last probe failed and either [unreachable_after] probes in a
    row have failed or none was ever answered; a [Degraded] endpoint has not answered well three
    times in a row, and a [Healthy] one has not answered badly twice in a row. *)
Theorem health_of_history cfg probes h flags
    (Hcfg : 0 ≤ unreachable_after cfg ≤ U32_MAX)
    (Hrun : probe_history cfg health_new probes = Some (h, flags)) :
  consecutive_failures h = Z.min U32_MAX (trailing is_failure probes) ∧
  consecutive_bad_quality h = Z.min U32_MAX (trailing is_bad_quality probes) ∧
  consecutive_good_quality h = Z.min U32_MAX (trailing is_good_quality probes) ∧
  (state h = Unknown ↔ probes = []) ∧
  (state h = Unreachable ↔
    0 < trailing is_failure probes ∧
    (unreachable_after cfg ≤ trailing is_failure probes ∨ ∀ o, o ∈ probes → o.1 = Failed)) ∧
  (state h = Degraded → trailing is_good_quality probes < HEALTHY_AFTER_GOOD) ∧
  (state h = Healthy → trailing is_bad_quality probes < DEGRADED_AFTER_BAD).
Proof. destruct (probe_history_inv cfg probes h flags Hcfg Hrun). auto 10. Qed.

Definition slow_probe : ProbeOutcome := Answered (from_millis 400) false.

Lemma health_of_history_witness :
  ∃ h flags,
    probe_history health_config_default health_new
      [(slow_probe, 1); (slow_probe, 2); (Failed, 3); (Failed, 4); (Failed, 5)] = Some (h, flags) ∧
    flags = [false; false; false; false; true] ∧ consecutive_failures h = 3.
Proof.
  eexists _, _. split; [vm_compute; reflexivity|]. split; [reflexivity|].
  exact (proj1 (health_of_history health_config_default
    [(slow_probe, 1); (slow_probe, 2); (Failed, 3); (Failed, 4); (Failed, 5)] _ _
    ltac:(vm_compute; split; discriminate) ltac:(vm_compute; reflexivity))).
Defined.
