(* ===== verification/Endpoint.v ===== *)
(** Endpoints and their ranking by observed health
    (crates/dnet-core/src/endpoint.rs and endpoint_health.rs). *)

From S2P Require Import Prelude Text Profile Health.

(** * Endpoints *)

(* src: crates/dnet-core/src/credential.rs:9-30 CredentialRef *)
Record CredentialRef : Type := mkCredentialRef {
  store_key : string;
}.

(* src: crates/dnet-core/src/endpoint.rs:10-11 MAX_LABEL_LEN *)
Definition MAX_LABEL_LEN : Z := 64.

(* src: crates/dnet-core/src/endpoint.rs:13-18 EndpointAddress *)
Record EndpointAddress : Type := mkEndpointAddress {
  host : string;
  port : Z;
}.

(* src: crates/dnet-core/src/endpoint.rs:20-31 EndpointAddress::new *)
Definition address_new (host : string) (port : Z) : result DomainError EndpointAddress :=
  if str_is_empty (trim host) then Err EmptyHost
  else if port =? 0 then Err ZeroPort
  else Ok {| host := host; port := port |}.

(* src: crates/dnet-core/src/endpoint.rs:42-46 EndpointAddress::fmt *)
Definition address_to_string (a : EndpointAddress) : string :=
  host a +:+ ":" +:+ pretty (port a).

(* src: crates/dnet-core/src/endpoint.rs:48-60 EndpointOrigin *)
Inductive EndpointOrigin : Type :=
  | Provisioned (provider region : string) (resource_ids : list string)
  | Manual.

(* src: crates/dnet-core/src/endpoint.rs:62-72 Endpoint *)
Record Endpoint : Type := mkEndpoint {
  endpoint_id : EndpointId;
  endpoint_label : string;
  endpoint_address : EndpointAddress;
  endpoint_origin : EndpointOrigin;
  endpoint_credentials : CredentialRef;
  endpoint_health : EndpointHealth;
  endpoint_enabled : bool;
}.

(* src: crates/dnet-core/src/endpoint.rs:75-100 Endpoint::new *)
Definition endpoint_new (id : EndpointId) (label : string) (address : EndpointAddress)
    (origin : EndpointOrigin) (credentials : CredentialRef) : result DomainError Endpoint :=
  let len := char_count label in
  if (len =? 0) || (MAX_LABEL_LEN <? len) then Err (InvalidLabel len)
  else Ok {|
    endpoint_id := id;
    endpoint_label := label;
    endpoint_address := address;
    endpoint_origin := origin;
    endpoint_credentials := credentials;
    endpoint_health := health_new;
    endpoint_enabled := true;
  |}.

(* src: crates/dnet-core/src/endpoint.rs:127-129 Endpoint::set_health *)
Definition set_health (h : EndpointHealth) (e : Endpoint) : Endpoint := {|
  endpoint_id := endpoint_id e;
  endpoint_label := endpoint_label e;
  endpoint_address := endpoint_address e;
  endpoint_origin := endpoint_origin e;
  endpoint_credentials := endpoint_credentials e;
  endpoint_health := h;
  endpoint_enabled := endpoint_enabled e;
|}.

(* src: crates/dnet-core/src/endpoint.rs:135-137 Endpoint::set_enabled *)
Definition set_enabled (enabled : bool) (e : Endpoint) : Endpoint := {|
  endpoint_id := endpoint_id e;
  endpoint_label := endpoint_label e;
  endpoint_address := endpoint_address e;
  endpoint_origin := endpoint_origin e;
  endpoint_credentials := endpoint_credentials e;
  endpoint_health := endpoint_health e;
  endpoint_enabled := enabled;
|}.

(* src: crates/dnet-core/src/endpoint.rs:139-143 Endpoint::has_cloud_resources *)
Definition has_cloud_resources (e : Endpoint) : bool :=
  match endpoint_origin e with
  | Provisioned _ _ (_ :: _) => true
  | _ => false
  end.

(* src: crates/dnet-core/src/endpoint.rs:146-150 has_enabled_endpoint *)
Definition has_enabled_endpoint (endpoints : list Endpoint) : bool :=
  existsb endpoint_enabled endpoints.

(** * Ranking *)

(* src: crates/dnet-core/src/endpoint_health.rs:19-22 is_candidate *)
Definition is_candidate (e : Endpoint) : bool :=
  endpoint_enabled e && bool_decide (state (endpoint_health e) ≠ Unreachable).

(* src: crates/dnet-core/src/endpoint_health.rs:39-47 state_rank *)
Definition state_rank (s : HealthState) : Z :=
  match s with
  | Healthy => 0
  | Degraded => 1
  | Unknown => 2
  | Unreachable => 3
  end.

(** The key [rank] sorts by, compared field by field as Rust compares tuples. *)
(* src: crates/dnet-core/src/endpoint_health.rs:28-35 rank *)
Definition rank_key (e : Endpoint) : Z * (Z * Duration) :=
  let health := endpoint_health e in
  let rtt := match rtt_ewma health with Some rtt => (0, rtt) | None => (1, 0) end in
  (state_rank (state health), rtt).

Definition rank_cmp (a b : Endpoint) : comparison :=
  cmp_then ((rank_key a).1 ?= (rank_key b).1)
    (cmp_then ((rank_key a).2.1 ?= (rank_key b).2.1) ((rank_key a).2.2 ?= (rank_key b).2.2)).

(* src: crates/dnet-core/src/endpoint_health.rs:24-37 rank *)
Definition rank (endpoints : list Endpoint) : list EndpointId :=
  map endpoint_id (sort_by rank_cmp (List.filter is_candidate endpoints)).

(* src: crates/dnet-core/src/endpoint_health.rs:49-52 smoothed_rtt *)
Definition smoothed_rtt (e : Endpoint) : option Duration := rtt_ewma (endpoint_health e).

(** * Lemmas *)

#[export] Instance rank_cmp_total : TotalCompare rank_cmp.
Proof. unfold rank_cmp. apply _. Qed.

Lemma elem_of_rank endpoints id :
  id ∈ rank endpoints ↔ ∃ e, e ∈ endpoints ∧ is_candidate e = true ∧ endpoint_id e = id.
Proof.
  unfold rank. rewrite elem_of_map.
  setoid_rewrite (elem_of_sort_by rank_cmp). setoid_rewrite elem_of_filter_bool. naive_solver.
Qed.

Lemma rank_head endpoints :
  head (rank endpoints) = option_map endpoint_id (min_by rank_cmp (List.filter is_candidate endpoints)).
Proof.
  unfold rank. rewrite <-(sort_by_head rank_cmp). by destruct (sort_by _ _).
Qed.

Lemma rank_nil endpoints : rank endpoints = [] ↔ ∀ e, e ∈ endpoints → is_candidate e = false.
Proof.
  split.
  - intros H e He. destruct (is_candidate e) eqn:E; [|done].
    assert (endpoint_id e ∈ rank endpoints) as Hin by (apply elem_of_rank; eauto).
    rewrite H in Hin. by apply elem_of_nil in Hin.
  - intros H. destruct (rank endpoints) as [|id l] eqn:E; [done|].
    assert (id ∈ rank endpoints) as (e & He & Hc & _)%elem_of_rank by (rewrite E; set_solver).
    by rewrite H in Hc.
Qed.

(** * Properties *)

(** An endpoint exists only with a non-blank host, a port other than zero and a label of one
    to sixty-four characters: [EndpointAddress::new] and [Endpoint::new] accept exactly that, and
    name the violated bound otherwise. *)
Theorem endpoint_construction h p id label origin credentials :
  (∀ a, address_new h p = Ok a ↔
    forallb is_whitespace (chars h) = false ∧ p ≠ 0 ∧ a = {| host := h; port := p |}) ∧
  (∀ a e, endpoint_new id label a origin credentials = Ok e →
    1 ≤ char_count label ≤ 64 ∧ endpoint_label e = label ∧ endpoint_address e = a ∧
    endpoint_enabled e = true ∧ endpoint_health e = health_new) ∧
  (∀ a err, endpoint_new id label a origin credentials = Err err →
    err = InvalidLabel (char_count label) ∧ ¬ 1 ≤ char_count label ≤ 64).
Proof.
  assert (0 ≤ char_count label) by (unfold char_count; lia).
  unfold address_new, endpoint_new, MAX_LABEL_LEN. rewrite trim_is_empty. split_and!.
  - intros a. destruct (forallb _ _); [split; [done|by intros []]|].
    destruct (Z.eqb_spec p 0) as [->|]; [split; [done|by intros (? & ? & _)]|].
    split; [by intros [= <-]|]. by intros (_ & _ & ->).
  - intros a e. destruct (_ || _) eqn:E; [done|]. intros [= <-]. bool_simpl. simpl. lia || (split_and!; try done; lia).
  - intros a err. destruct (_ || _) eqn:E; [|done]. intros [= <-]. split; [done|].
    apply orb_true_iff in E. rewrite Z.eqb_eq, Z.ltb_lt in E. lia.
Qed.

(** [rank] lists exactly the usable endpoints (enabled and not [Unreachable]), best first:
    the list is in the order of health state, then smoothed round trip (an unmeasured endpoint
    last), endpoints that compare equal keep the order they were given, and its head is the first
    best candidate. *)
Theorem rank_sound endpoints :
  ∃ ranked, rank endpoints = map endpoint_id ranked ∧
    ranked ≡ₚ List.filter is_candidate endpoints ∧
    StronglySorted (le_by rank_cmp) ranked ∧
    (∀ k, filter (fun e => rank_key e = k) ranked =
          filter (fun e => rank_key e = k) (List.filter is_candidate endpoints)) ∧
    (∀ e, head ranked = Some e → first_min rank_cmp e (List.filter is_candidate endpoints)).
Proof.
  exists (sort_by rank_cmp (List.filter is_candidate endpoints)). split_and!; [done|..].
  - apply sort_by_permutation.
  - apply sort_by_sorted, _.
  - intros k. apply (sort_by_stable rank_cmp). intros x y Hx Hy.
    unfold rank_cmp. rewrite Hx, Hy, !Z.compare_refl. done.
  - intros e. rewrite (sort_by_head rank_cmp). apply min_by_first_min, _.
Qed.
