(* ===== verification/Quality.v ===== *)
(** Network paths and their smoothed quality
    (crates/dnet-core/src/path.rs and quality.rs). *)

From Stdlib Require Import SpecFloat.
From S2P Require Import Prelude IpText Float Profile Health.

(** * Paths *)

(* src: crates/dnet-core/src/path.rs:17-24 PathKind *)
Inductive PathKind : Type := Wifi | Cellular | Ethernet | OtherKind.

(* src: crates/dnet-core/src/path.rs:26-35 PathRole *)
Inductive PathRole : Type := Carrying | Standby | UnusableRole.

#[export] Instance PathKind_eq_dec : EqDecision PathKind.
Proof. solve_decision. Defined.
#[export] Instance PathRole_eq_dec : EqDecision PathRole.
Proof. solve_decision. Defined.

(* src: crates/dnet-core/src/path.rs:37-45 PathQuality *)
Record PathQuality : Type := mkPathQuality {
  loss_ewma : f64;
  rtt_ewma : option Duration;
  jitter_ewma : option Duration;
}.

(* src: crates/dnet-core/src/path.rs:48-55 PathQuality::unmeasured *)
Definition unmeasured : PathQuality := {|
  loss_ewma := f64_zero;
  rtt_ewma := None;
  jitter_ewma := None;
|}.

(* src: crates/dnet-core/src/path.rs:64-76 NetworkPath *)
Record NetworkPath : Type := mkNetworkPath {
  interface_id : InterfaceId;
  path_kind : PathKind;
  gateway : option IpAddr;
  quality : PathQuality;
  role : PathRole;
  preference : Z;
}.

(* src: crates/dnet-core/src/path.rs:78-87 NetworkPath::can_carry_profile_a *)
Definition can_carry_profile_a (p : NetworkPath) : bool :=
  match gateway p with Some _ => true | None => false end.

(* src: crates/dnet-core/src/path.rs:89-100 validate_paths *)
Definition validate_paths (paths : list NetworkPath) : result DomainError unit :=
  let carrying := Z.of_nat (length (List.filter (fun p => bool_decide (role p = Carrying)) paths)) in
  if 1 <? carrying then Err (MultipleCarryingPaths carrying) else Ok ().

(** * Quality *)

(* src: crates/dnet-core/src/quality.rs:24-27 LOSS_EWMA_ALPHA *)
Definition LOSS_EWMA_ALPHA : f64 := f64_lit 1 8.

(* src: crates/dnet-core/src/quality.rs:29-36 PathSample *)
Inductive PathSample : Type :=
  | SampleAnswered (rtt : Duration)
  | SampleLost.

(* src: crates/dnet-core/src/quality.rs:38-47 QualityBand *)
Inductive QualityBand : Type := Unusable | Poor | Good.

#[export] Instance PathSample_eq_dec : EqDecision PathSample.
Proof. solve_decision. Defined.
#[export] Instance QualityBand_eq_dec : EqDecision QualityBand.
Proof. solve_decision. Defined.
#[export] Instance PathQuality_eq_dec : EqDecision PathQuality.
Proof. solve_decision. Defined.
#[export] Instance NetworkPath_eq_dec : EqDecision NetworkPath.
Proof. solve_decision. Defined.

(** The derived [Ord]. *)
Definition band_index (b : QualityBand) : Z :=
  match b with Unusable => 0 | Poor => 1 | Good => 2 end.

(* src: crates/dnet-core/src/quality.rs:49-59 QualityThresholds *)
Record QualityThresholds : Type := mkQualityThresholds {
  poor_loss : f64;
  unusable_loss : f64;
  poor_rtt : Duration;
}.

(* src: crates/dnet-core/src/quality.rs:61-69 QualityThresholds::default *)
Definition thresholds_default : QualityThresholds := {|
  poor_loss := f64_lit 15 100;
  unusable_loss := f64_lit 50 100;
  poor_rtt := from_millis 300;
|}.

(* src: crates/dnet-core/src/quality.rs:79-86 PathQuality::observe *)
Definition observe_loss (loss : f64) (lost : bool) : f64 :=
  let loss :=
    f64_add (f64_mul LOSS_EWMA_ALPHA (f64_of_Z (if lost then 1 else 0)))
      (f64_mul (f64_sub f64_one LOSS_EWMA_ALPHA) loss) in
  f64_clamp loss f64_zero f64_one.

(** [None] is the panic of [Duration::from_secs_f64]. *)
(* src: crates/dnet-core/src/quality.rs:71-105 PathQuality::observe *)
Definition observe (self : PathQuality) (sample : PathSample) : option PathQuality :=
  let lost := match sample with SampleLost => true | SampleAnswered _ => false end in
  let loss := observe_loss (loss_ewma self) lost in
  match sample with
  | SampleLost =>
      Some {| loss_ewma := loss; rtt_ewma := rtt_ewma self; jitter_ewma := jitter_ewma self |}
  | SampleAnswered rtt =>
      match rtt_ewma self with
      | None => Some {| loss_ewma := loss; rtt_ewma := Some rtt; jitter_ewma := Some (rtt / 2) |}
      | Some srtt =>
          '(srtt', var') ← smooth_rtt srtt (jitter_ewma self) rtt;
          Some {| loss_ewma := loss; rtt_ewma := Some srtt'; jitter_ewma := Some var' |}
      end
  end.

(* src: crates/dnet-core/src/quality.rs:107-115 PathQuality::is_measured *)
Definition is_measured (q : PathQuality) : bool :=
  match rtt_ewma q with Some _ => true | None => false end || SFltb f64_zero (loss_ewma q).

(* src: crates/dnet-core/src/quality.rs:117-130 PathQuality::band *)
Definition band (q : PathQuality) (thresholds : QualityThresholds) : QualityBand :=
  if SFleb (unusable_loss thresholds) (loss_ewma q) then Unusable
  else if SFleb (poor_loss thresholds) (loss_ewma q) ||
          match rtt_ewma q with Some rtt => poor_rtt thresholds <=? rtt | None => false end
  then Poor
  else Good.

Fixpoint observe_all (q : PathQuality) (samples : list PathSample) : option PathQuality :=
  match samples with
  | [] => Some q
  | s :: samples => q' ← observe q s; observe_all q' samples
  end.

(** * Lemmas *)

(** The loss fraction after [n] samples in a row that were all lost, or all answered. *)
Definition loss_run (lost : bool) (n : nat) (loss : f64) : f64 :=
  Nat.iter n (fun l => observe_loss l lost) loss.

Lemma observe_losses q n :
  observe_all q (repeat SampleLost n) =
    Some {| loss_ewma := loss_run true n (loss_ewma q);
            rtt_ewma := rtt_ewma q; jitter_ewma := jitter_ewma q |}.
Proof.
  revert q. induction n as [|n IH]; intros q; [by destruct q|].
  cbn [repeat observe_all observe mbind option_bind]. rewrite IH. cbn [loss_ewma rtt_ewma jitter_ewma].
  unfold loss_run. by rewrite Nat.iter_succ_r.
Qed.

(** In double precision an unbroken run of losses reaches a fixed point, so what holds of every
    value up to there holds for good. *)
Lemma loss_run_limit n : (264 ≤ n)%nat → loss_run true n f64_zero = loss_run true 264 f64_zero.
Proof.
  intros Hn. replace n with (n - 264 + 264)%nat by lia.
  unfold loss_run. rewrite Nat.iter_add. fold (loss_run true 264 f64_zero).
  induction (n - 264)%nat as [|k IH]; [done|]. rewrite Nat.iter_succ, IH. vm_compute. done.
Qed.

Definition loss_band (n : nat) : QualityBand :=
  band {| loss_ewma := loss_run true n f64_zero; rtt_ewma := None; jitter_ewma := None |}
    thresholds_default.

Lemma loss_band_from_6 n : (6 ≤ n)%nat → loss_band n = Unusable.
Proof.
  intros Hn. destruct (decide (264 ≤ n)%nat) as [Hb|Hb].
  - unfold loss_band. rewrite loss_run_limit by done. vm_compute. done.
  - assert (Forall (fun n => loss_band n = Unusable) (seq 6 258)) as HF.
    { apply (bool_decide_unpack _). vm_compute. done. }
    rewrite Forall_forall in HF. apply HF. apply elem_of_seq. lia.
Qed.

(** * Properties *)

(** The band that a path is in after these samples, from unmeasured. *)
Definition band_after (samples : list PathSample) : option QualityBand :=
  q ← observe_all unmeasured samples;
  Some (band q thresholds_default).

(** From a clean start one stray loss leaves a path [Good], two to five losses in a row make it
    [Poor], and six or more, however many, make it [Unusable]. *)
Theorem loss_bands :
  (∀ n, (n ≤ 1)%nat → band_after (repeat SampleLost n) = Some Good) ∧
  (∀ n, (2 ≤ n ≤ 5)%nat → band_after (repeat SampleLost n) = Some Poor) ∧
  (∀ n, (6 ≤ n)%nat → band_after (repeat SampleLost n) = Some Unusable).
Proof.
  unfold band_after. split_and!; intros n Hn; rewrite observe_losses;
    cbn [mbind option_bind rtt_ewma jitter_ewma loss_ewma unmeasured]; f_equal.
  - destruct n as [|[|]]; [vm_compute; done..|lia].
  - destruct n as [|[|[|[|[|[|]]]]]]; try lia; vm_compute; done.
  - by apply loss_band_from_6.
Qed.
