(* ===== verification/Degraded.v ===== *)
(** Honest degradation reporting (crates/dnet-core/src/degraded.rs). *)

From S2P Require Import Prelude Profile Quality.

(** * Definitions *)

(* src: crates/dnet-core/src/degraded.rs:32-45 NoMove *)
Inductive NoMove : Type := OnlyPath | NoBetterPath | Proving | Dwell | Budget.

#[export] Instance NoMove_eq_dec : EqDecision NoMove.
Proof. solve_decision. Defined.

(* src: crates/dnet-core/src/degraded.rs:47-54 Degradation *)
Record Degradation : Type := mkDegradation {
  deg_path : InterfaceId;
  deg_band : QualityBand;
  deg_staying : NoMove;
}.

(* src: crates/dnet-core/src/degraded.rs:56-64 Change *)
Inductive Change : Type :=
  | ChangeDegraded (d : Degradation)
  | ChangeRecovered (path : InterfaceId).

#[export] Instance Degradation_eq_dec : EqDecision Degradation.
Proof. solve_decision. Defined.
#[export] Instance Change_eq_dec : EqDecision Change.
Proof. solve_decision. Defined.

(* src: crates/dnet-core/src/degraded.rs:66-75 Look *)
Record Look : Type := mkLook {
  look_carrying : option InterfaceId;
  look_band : option QualityBand;
  look_staying : NoMove;
}.

(* src: crates/dnet-core/src/degraded.rs:77-84 DegradationReporter *)
Record DegradationReporter : Type := mkReporter {
  carrying : option InterfaceId;
  poor_since : option Instant;
  good_since : option Instant;
  reported : option Degradation;
}.

(* src: crates/dnet-core/src/degraded.rs:87-89 DegradationReporter::new *)
Definition reporter_new : DegradationReporter := {|
  carrying := None; poor_since := None; good_since := None; reported := None;
|}.

(* src: crates/dnet-core/src/degraded.rs:91-94 DegradationReporter::current *)
Definition current (r : DegradationReporter) : option Degradation := reported r.

(* src: crates/dnet-core/src/degraded.rs:119 DegradationReporter::observe *)
Definition held (now since : Instant) (long : Duration) : bool :=
  long <=? saturating_duration_since now since.

(* src: crates/dnet-core/src/degraded.rs:144-151 DegradationReporter::observe *)
Definition is_news (before : option Degradation) (d : Degradation) : bool :=
  match before with
  | None => true
  | Some before =>
      negb (bool_decide (deg_path before = deg_path d)) ||
      negb (bool_decide (deg_staying before = deg_staying d)) ||
      (bool_decide (deg_band d = Unusable) && negb (bool_decide (deg_band before = Unusable)))
  end.

(* src: crates/dnet-core/src/degraded.rs:96-155 DegradationReporter::observe *)
Definition observe (self : DegradationReporter) (look : Look) (now : Instant)
    (degrade_for recover_for : Duration) : DegradationReporter * option Change :=
  let self :=
    if bool_decide (look_carrying look = carrying self) then self
    else {| carrying := look_carrying look; poor_since := None; good_since := None; reported := reported self |} in
  match look_carrying look with
  | None =>
      ({| carrying := carrying self; poor_since := poor_since self; good_since := good_since self;
          reported := None |}, None)
  | Some path =>
      match look_band look with
      | None => (self, None)
      | Some Good =>
          let since := default now (good_since self) in
          let self := {| carrying := carrying self; poor_since := None; good_since := Some since;
                         reported := reported self |} in
          if bool_decide (reported self ≠ None) && held now since recover_for
          then ({| carrying := carrying self; poor_since := None; good_since := Some since;
                   reported := None |}, Some (ChangeRecovered path))
          else (self, None)
      | Some band =>
          let since := default now (poor_since self) in
          let self := {| carrying := carrying self; poor_since := Some since; good_since := None;
                         reported := reported self |} in
          if negb (held now since degrade_for) then (self, None)
          else
            let now_degraded := {| deg_path := path; deg_band := band; deg_staying := look_staying look |} in
            let news := is_news (reported self) now_degraded in
            ({| carrying := carrying self; poor_since := poor_since self; good_since := good_since self;
                reported := Some now_degraded |},
             if news then Some (ChangeDegraded now_degraded) else None)
      end
  end.

(** * Runs *)

(** One look and what was said about it; a run keeps them newest first. *)
Record Seen : Type := mkSeen { seen_look : Look; seen_at : Instant; seen_said : option Change }.

Section Run.
Context (degrade_for recover_for : Duration).

Inductive run : DegradationReporter → list Seen → Prop :=
  | run_new : run reporter_new []
  | run_look r hist look now r' said :
      run r hist → observe r look now degrade_for recover_for = (r', said) →
      run r' (mkSeen look now said :: hist).

(** A look that shows the path to be poor (or good); [None] is no evidence. *)
Definition looks_poor (l : Look) : Prop := ∃ b, look_band l = Some b ∧ b ≠ Good.
Definition looks_good (l : Look) : Prop := look_band l = Some Good.

(** The newest part of a run: every look is at [path], none shows the contrary of [p], and the
    oldest, at [since], shows [p]. *)
Definition stretch (p not_p : Look → Prop) (path : InterfaceId) (since : Instant) (hist : list Seen) : Prop :=
  ∃ newer first older, hist = newer ++ first :: older ∧
    seen_at first = since ∧ p (seen_look first) ∧ look_carrying (seen_look first) = Some path ∧
    ∀ s, s ∈ newer → look_carrying (seen_look s) = Some path ∧ ¬ not_p (seen_look s).

(** A degradation has been announced, and since then neither a recovery nor the loss of every
    path. *)
Definition announced (hist : list Seen) : Prop :=
  ∃ newer first older d, hist = newer ++ first :: older ∧
    seen_said first = Some (ChangeDegraded d) ∧
    ∀ s, s ∈ newer → look_carrying (seen_look s) ≠ None ∧ ∀ p, seen_said s ≠ Some (ChangeRecovered p).

Record inv (r : DegradationReporter) (hist : list Seen) : Prop := {
  inv_carrying : carrying r = match hist with s :: _ => look_carrying (seen_look s) | [] => None end;
  inv_poor since path : poor_since r = Some since → carrying r = Some path →
    stretch looks_poor looks_good path since hist;
  inv_good since path : good_since r = Some since → carrying r = Some path →
    stretch looks_good looks_poor path since hist;
  inv_reported : reported r ≠ None → announced hist;
  inv_band d : reported r = Some d → deg_band d ≠ Good;
}.

Lemma stretch_cons p q path since hist s :
  stretch p q path since hist → look_carrying (seen_look s) = Some path → ¬ q (seen_look s) →
  stretch p q path since (s :: hist).
Proof.
  intros (newer & first & older & -> & ? & ? & ? & Hn) Hc Hq.
  exists (s :: newer), first, older. split_and!; try done.
  intros x [->|Hx]%elem_of_cons; auto.
Qed.

Lemma stretch_start p q path hist s :
  p (seen_look s) → look_carrying (seen_look s) = Some path →
  stretch p q path (seen_at s) (s :: hist).
Proof.
  intros Hp Hc. exists [], s, hist. split_and!; try done. by intros x Hx%elem_of_nil.
Qed.

Lemma stretch_default p q path hist s o :
  (∀ since, o = Some since → stretch p q path since hist) →
  p (seen_look s) → ¬ q (seen_look s) → look_carrying (seen_look s) = Some path →
  stretch p q path (default (seen_at s) o) (s :: hist).
Proof.
  intros Ho Hp Hq Hc. destruct o as [since|]; simpl.
  - by apply stretch_cons; [apply Ho|..].
  - by apply stretch_start.
Qed.

Lemma announced_cons hist s :
  announced hist → look_carrying (seen_look s) ≠ None →
  (∀ p, seen_said s ≠ Some (ChangeRecovered p)) → announced (s :: hist).
Proof.
  intros (newer & first & older & d & -> & ? & Hn) Hc Hs.
  exists (s :: newer), first, older, d. split_and!; try done.
  intros x [->|Hx]%elem_of_cons; auto.
Qed.

Lemma announced_start hist s d : seen_said s = Some (ChangeDegraded d) → announced (s :: hist).
Proof. intros Hs. exists [], s, hist, d. split_and!; try done. by intros x Hx%elem_of_nil. Qed.

(** The clocks the next look starts from: those of the same path, or none. *)
Lemma inv_switch r hist look :
  inv r hist →
  let r' := if bool_decide (look_carrying look = carrying r) then r
    else {| carrying := look_carrying look; poor_since := None; good_since := None; reported := reported r |} in
  carrying r' = look_carrying look ∧ reported r' = reported r ∧
  (∀ path since, look_carrying look = Some path → poor_since r' = Some since →
    stretch looks_poor looks_good path since hist) ∧
  (∀ path since, look_carrying look = Some path → good_since r' = Some since →
    stretch looks_good looks_poor path since hist).
Proof.
  intros [Hc Hp Hg _ _]. case_bool_decide as E; simpl; split_and!; try done.
  - intros path since Hl Hs. apply Hp; congruence.
  - intros path since Hl Hs. apply Hg; congruence.
Qed.

Lemma good_not_poor l : looks_good l → ¬ looks_poor l.
Proof. unfold looks_good. intros Hg (b & Hb & Hn). congruence. Qed.

Lemma poor_not_good l : looks_poor l → ¬ looks_good l.
Proof. intros Hp Hg. by apply (good_not_poor l). Qed.

Lemma run_inv r hist : run r hist → inv r hist.
Proof.
  induction 1 as [|r hist look now r' said Hrun IH Hobs]; [by split|].
  destruct (inv_switch r hist look IH) as (Hc & Hr & Hp & Hg).
  pose proof (inv_reported _ _ IH) as Hrep. pose proof (inv_band _ _ IH) as Hband.
  unfold observe in Hobs. set (r0 := if bool_decide _ then r else _) in *. clearbody r0.
  rewrite <-Hr in Hrep, Hband. clear Hr IH Hrun.
  destruct (look_carrying look) as [path|] eqn:El; [|injection Hobs as <- <-; split;
    cbn; intros; rewrite ?Hc in *; done || congruence].
  destruct (look_band look) as [[]|] eqn:Eb.
  1,2: set (s := mkSeen look now said);
    assert (looks_poor look) as Hpoor by (eexists; split; [exact Eb|done]);
    pose proof (stretch_default looks_poor looks_good path hist s (poor_since r0)
      (fun since => Hp path since eq_refl) Hpoor (poor_not_good _ Hpoor) El) as Hst;
    destruct (negb (held now _ degrade_for)); [|destruct (is_news _ _) eqn:En];
    injection Hobs as <- <-; split; cbn; intros; simplify_eq; rewrite ?Hc in *; simplify_eq; try done;
    solve [exact Hst | by eapply announced_start | by eapply Hband
          | apply announced_cons; [apply Hrep; intros E; by rewrite ?E in * |cbn; by rewrite El|done]].
  - set (s := mkSeen look now said).
    pose proof (stretch_default looks_good looks_poor path hist s (good_since r0)
      (fun since => Hg path since eq_refl) Eb (good_not_poor _ Eb) El) as Hst.
    destruct (_ && _); injection Hobs as <- <-; split; cbn; intros; simplify_eq;
      rewrite ?Hc in *; simplify_eq; try done;
      solve [exact Hst | by eapply Hband
            | apply announced_cons; [by apply Hrep|cbn; by rewrite El|done]].
  - injection Hobs as <- <-. split; cbn; rewrite ?El; intros; rewrite ?Hc in *; simplify_eq; try done.
    + apply stretch_cons; [auto|done|]. unfold looks_good. cbn. by rewrite Eb.
    + apply stretch_cons; [auto|done|]. intros (b & Hb & _). cbn in Hb. by rewrite Eb in Hb.
    + apply announced_cons; [auto|cbn; by rewrite El|done].
    + eauto.
Qed.
End Run.

(** * Properties *)

(** Degradation reports are honest.  Whenever a look at [now] makes the reporter say
    "degraded", the path named carries the traffic, its band is [Poor] or [Unusable], the reason is the one
    given for staying, and an unbroken stretch of looks at that path, none of them good and the first of them
    poor, reaches back at least [degrade_for].  Whenever it says "recovered", the stretch reaches back
    [recover_for] with no poor look in it, and a degradation had been announced that no recovery
    and no loss of every path had ended. *)
Theorem reports_honest degrade_for recover_for r hist look now r' said
    (Hrun : run degrade_for recover_for r hist)
    (Hobs : observe r look now degrade_for recover_for = (r', said)) :
  match said with
  | Some (ChangeDegraded d) =>
      look_carrying look = Some (deg_path d) ∧ look_band look = Some (deg_band d) ∧
      deg_band d ≠ Good ∧ deg_staying d = look_staying look ∧
      ∃ since, degrade_for ≤ saturating_duration_since now since ∧
        stretch looks_poor looks_good (deg_path d) since (mkSeen look now said :: hist)
  | Some (ChangeRecovered path) =>
      look_carrying look = Some path ∧ announced hist ∧
      ∃ since, recover_for ≤ saturating_duration_since now since ∧
        stretch looks_good looks_poor path since (mkSeen look now said :: hist)
  | None => True
  end.
Proof.
  pose proof (run_inv _ _ _ _ Hrun) as IH.
  destruct (inv_switch r hist look IH) as (Hc & Hr & Hp & Hg).
  pose proof (inv_reported _ _ IH) as Hrep. unfold observe in Hobs.
  set (r0 := if bool_decide _ then r else _) in *. clearbody r0. rewrite <-Hr in Hrep.
  destruct (look_carrying look) as [path|] eqn:El; [|by injection Hobs as <- <-].
  destruct (look_band look) as [[]|] eqn:Eb; [..|by injection Hobs as <- <-].
  1,2: assert (looks_poor look) as Hpoor by (eexists; split; [exact Eb|done]);
    pose proof (stretch_default looks_poor looks_good path hist (mkSeen look now said) (poor_since r0)
      (fun since => Hp path since eq_refl) Hpoor (poor_not_good _ Hpoor) El) as Hst;
    destruct (held now _ degrade_for) eqn:Eh; simpl in Hobs; [|by injection Hobs as <- <-];
    destruct (is_news _ _); injection Hobs as <- <-; [|done];
    apply Z.leb_le in Eh; split_and!; eauto.
  pose proof (stretch_default looks_good looks_poor path hist (mkSeen look now said) (good_since r0)
    (fun since => Hg path since eq_refl) Eb (good_not_poor _ Eb) El) as Hst.
  destruct (_ && _) eqn:E; injection Hobs as <- <-; [|done].
  apply andb_true_iff in E as [E1 E2]. apply bool_decide_eq_true in E1. apply Z.leb_le in E2.
  split_and!; eauto.
Qed.

Definition poor_look : Look := mkLook (Some 7) (Some Poor) OnlyPath.
Definition good_look : Look := mkLook (Some 7) (Some Good) OnlyPath.

Lemma reports_honest_witness :
  let d := mkDegradation 7 Poor OnlyPath in
  let hist := [mkSeen good_look 35 None; mkSeen poor_look 20 (Some (ChangeDegraded d));
               mkSeen poor_look 10 None] in
  let r := mkReporter (Some 7) None (Some 35) (Some d) in
  run 10 5 r hist ∧ (observe r good_look 40 10 5).2 = Some (ChangeRecovered 7) ∧ announced hist.
Proof.
  intros d hist r. assert (run 10 5 r hist) as Hrun.
  { eapply run_look; [eapply run_look; [eapply run_look; [apply run_new|] |] |]; reflexivity. }
  split; [exact Hrun|]. split; [reflexivity|].
  exact (proj1 (proj2 (reports_honest 10 5 r hist good_look 40 _ (Some (ChangeRecovered 7)) Hrun eq_refl))).
Defined.
