(* ===== verification/Session.v ===== *)
(** Failure causes, connection events, sessions, and the choice and wording of a failure
    (crates/dnet-core/src/session.rs and failure.rs). *)

From S2P Require Import Prelude Profile Quality Degraded.

(** * Causes and events *)

(* src: crates/dnet-core/src/session.rs:15-41 FailureCause *)
Inductive FailureCause : Type :=
  | NoEndpointReachable
  | AllProfilesBlocked
  | CaptivePortalUnsatisfied
  | InsufficientPrivilege
  | CoreFailedPersistently (core : CoreBinding)
  | NoUsablePath
  | ConfigurationInvalid (detail : string).

#[export] Instance FailureCause_eq_dec : EqDecision FailureCause.
Proof. solve_decision. Defined.

(* src: crates/dnet-core/src/session.rs:43-52 SessionOutcome *)
Inductive SessionOutcome : Type :=
  | UserDisconnected
  | SessionFailed (cause : FailureCause)
  | ServiceStopped.

(* src: crates/dnet-core/src/session.rs:124-132 CheckFailure *)
Inductive CheckFailure : Type := CheckUnreachable | CheckRefused.

(* src: crates/dnet-core/src/session.rs:100-122 DefinitionsChange *)
Inductive DefinitionsChange : Type :=
  | Updated (sequence endpoint_updates : Z)
  | Evicted
  | OutOfDate
  | Discarded
  | CheckFailed (reason : CheckFailure).

#[export] Instance CheckFailure_eq_dec : EqDecision CheckFailure.
Proof. solve_decision. Defined.
#[export] Instance DefinitionsChange_eq_dec : EqDecision DefinitionsChange.
Proof. solve_decision. Defined.

(* src: crates/dnet-core/src/session.rs:54-98 ConnectionEvent *)
Inductive ConnectionEvent : Type :=
  | ProbeStarted
  | ProfileSelected (profile : ProfileId) (because : string)
  | ProfileBlocked (profile : ProfileId) (reason : string)
  | EndpointMigrated (from to : EndpointId) (because : string)
  | PathChanged (from : option InterfaceId) (to : InterfaceId) (tier_at_time : FailoverTier)
  | DegradedEvent (path : InterfaceId) (band : QualityBand) (staying : NoMove)
  | RecoveredEvent (path : InterfaceId)
  | CoreRestarted (core : CoreBinding) (attempt : Z)
  | DefinitionsChanged (change : DefinitionsChange)
  | FailedEvent (cause : FailureCause).

#[export] Instance ConnectionEvent_eq_dec : EqDecision ConnectionEvent.
Proof. solve_decision. Defined.

(** * Sessions *)

(* src: crates/dnet-core/src/session.rs:134-145 ConnectionSession *)
Record ConnectionSession : Type := mkSession {
  session_id : SessionId;
  started_at : Instant;
  ended_at : option Instant;
  active_profile : ProfileId;
  active_endpoint : EndpointId;
  carrying_path : option InterfaceId;
  events : list ConnectionEvent;
  outcome : option SessionOutcome;
}.

(* src: crates/dnet-core/src/session.rs:147-165 ConnectionSession::start *)
Definition start (id : SessionId) (started_at : Instant) (active_profile : ProfileId)
    (active_endpoint : EndpointId) : ConnectionSession := {|
  session_id := id;
  started_at := started_at;
  ended_at := None;
  active_profile := active_profile;
  active_endpoint := active_endpoint;
  carrying_path := None;
  events := [];
  outcome := None;
|}.

(* src: crates/dnet-core/src/session.rs:199-202 ConnectionSession::is_active *)
Definition is_active (s : ConnectionSession) : bool :=
  match outcome s with None => true | Some _ => false end.

(* src: crates/dnet-core/src/session.rs:204-221 ConnectionSession::record *)
Definition record (event : ConnectionEvent) (s : ConnectionSession) : ConnectionSession := {|
  session_id := session_id s;
  started_at := started_at s;
  ended_at := ended_at s;
  active_profile := match event with ProfileSelected p _ => p | _ => active_profile s end;
  active_endpoint := match event with EndpointMigrated _ to _ => to | _ => active_endpoint s end;
  carrying_path := match event with PathChanged _ to _ => Some to | _ => carrying_path s end;
  events := events s ++ [event];
  outcome := outcome s;
|}.

(* src: crates/dnet-core/src/session.rs:223-236 ConnectionSession::end *)
Definition end_ (at_ : Instant) (o : SessionOutcome) (s : ConnectionSession) : ConnectionSession :=
  match outcome s with
  | Some _ => s
  | None => {|
      session_id := session_id s;
      started_at := started_at s;
      ended_at := Some at_;
      active_profile := active_profile s;
      active_endpoint := active_endpoint s;
      carrying_path := carrying_path s;
      events := events s ++ match o with SessionFailed cause => [FailedEvent cause] | _ => [] end;
      outcome := Some o;
    |}
  end.

(** * Classifying a failure *)

(* src: crates/dnet-core/src/failure.rs:26-33 Reach *)
Inductive Reach : Type := Reachable | UnreachableReach | UnknownReach.

#[export] Instance Reach_eq_dec : EqDecision Reach.
Proof. solve_decision. Defined.

(* src: crates/dnet-core/src/failure.rs:35-53 Situation *)
Record Situation : Type := mkSituation {
  privileged : bool;
  configuration_error : option string;
  core_failed : option CoreBinding;
  usable_paths : Z;
  captive_portal : bool;
  endpoint_reach : list Reach;
  profiles : list ConnectionProfile;
}.

(* src: crates/dnet-core/src/failure.rs:55-101 classify *)
Definition classify (situation : Situation) : option FailureCause :=
  if negb (privileged situation) then Some InsufficientPrivilege
  else match configuration_error situation with
  | Some detail => Some (ConfigurationInvalid detail)
  | None =>
  if bool_decide (endpoint_reach situation = []) then
    Some (ConfigurationInvalid "no endpoint is configured; add one before connecting")
  else if (match profiles situation with [] => true | _ => false end) then
    Some (ConfigurationInvalid "no connection profile is defined")
  else match core_failed situation with
  | Some core => Some (CoreFailedPersistently core)
  | None =>
  if usable_paths situation =? 0 then Some NoUsablePath
  else if captive_portal situation then Some CaptivePortalUnsatisfied
  else if forallb (fun r => bool_decide (r = UnreachableReach)) (endpoint_reach situation) then
    Some NoEndpointReachable
  else if negb (match profiles situation with [] => true | _ => false end) &&
          forallb is_blocked (profiles situation) then
    Some AllProfilesBlocked
  else None
  end end.

(* src: crates/dnet-core/src/failure.rs:103-112 Explanation *)
Record Explanation : Type := mkExplanation {
  ex_title : string;
  ex_detail : string;
  ex_action : string;
}.

(* src: crates/dnet-core/src/failure.rs:114-121 core_description *)
Definition core_description (core : CoreBinding) : string :=
  match core with
  | PrimaryCore => "the main connection engine"
  | AmneziaWgCore => "the AmneziaWG engine"
  end.

(* src: crates/dnet-core/src/failure.rs:123-184 explain *)
Definition explain (cause : FailureCause) : Explanation :=
  match cause with
  | NoEndpointReachable => {|
      ex_title := "No exit endpoint is reachable";
      ex_detail := "None of your endpoints answered a direct connection test, so there is nowhere to send your traffic. Nothing is being tunnelled.";
      ex_action := "Check that the endpoint server is running and that this network allows connections to it, or add another endpoint." |}
  | AllProfilesBlocked => {|
      ex_title := "This network is blocking every connection method";
      ex_detail := "Your endpoint answers, but this network is blocking every connection method, so none of them can carry traffic. Nothing is being tunnelled.";
      ex_action := "Try a different network, such as mobile data, or check for a profile update that adds a method this network does not recognise." |}
  | CaptivePortalUnsatisfied => {|
      ex_title := "Sign-in is required on this network";
      ex_detail := "The network is holding all traffic until you sign in, which also stops the tunnel from connecting.";
      ex_action := "Open a browser, complete the network's sign-in page, then connect again." |}
  | InsufficientPrivilege => {|
      ex_title := "DNet Engine needs administrator rights";
      ex_detail := "The background service is not running with the privileges it needs to change network settings, so it will not start a connection.";
      ex_action := "Restart the DNet Engine service as an administrator, or reinstall it, and try again." |}
  | CoreFailedPersistently core => {|
      ex_title := "A connection component keeps failing";
      ex_detail := core_description core +:+
        " stopped repeatedly, and DNet Engine has stopped restarting it to avoid a restart loop.";
      ex_action := "Open the diagnostics to read the component's last messages, then restart the service. If it keeps failing, report the problem." |}
  | NoUsablePath => {|
      ex_title := "No network connection is available";
      ex_detail := "None of this computer's network connections can carry traffic right now.";
      ex_action := "Connect to Wi-Fi or mobile data, then try again." |}
  | ConfigurationInvalid detail => {|
      ex_title := "The configuration cannot be used";
      ex_detail := detail;
      ex_action := "Correct the setting named above in the endpoint or profile settings, then try again." |}
  end.

(** * Histories of a session *)

Inductive SessionOp : Type :=
  | Record (event : ConnectionEvent)
  | End (at_ : Instant) (o : SessionOutcome).

Definition session_op (s : ConnectionSession) (o : SessionOp) : ConnectionSession :=
  match o with
  | Record event => record event s
  | End at_ o => end_ at_ o s
  end.

(** The current view a history projects to: the last profile selected, endpoint moved to and path
    changed to, over what the session started with. *)
Definition projected {A} (pick : ConnectionEvent → option A) (initial : A) (history : list ConnectionEvent) : A :=
  fold_left (fun a e => default a (pick e)) history initial.

Definition selected_profile (e : ConnectionEvent) : option ProfileId :=
  match e with ProfileSelected p _ => Some p | _ => None end.
Definition migrated_to (e : ConnectionEvent) : option EndpointId :=
  match e with EndpointMigrated _ to _ => Some to | _ => None end.
Definition changed_to (e : ConnectionEvent) : option (option InterfaceId) :=
  match e with PathChanged _ to _ => Some (Some to) | _ => None end.

Lemma projected_snoc {A} pick (a : A) h e :
  projected pick a (h ++ [e]) = default (projected pick a h) (pick e).
Proof. unfold projected. by rewrite fold_left_app. Qed.

(** The outcome a list of operations leaves: that of its first [End]. *)
Fixpoint first_end (ops : list SessionOp) : option (Instant * SessionOutcome) :=
  match ops with
  | [] => None
  | End at_ o :: _ => Some (at_, o)
  | _ :: ops => first_end ops
  end.

Lemma first_end_app ops1 ops2 :
  first_end (ops1 ++ ops2) = match first_end ops1 with Some x => Some x | None => first_end ops2 end.
Proof. induction ops1 as [|[] ops1 IH]; simpl; auto. Qed.

Lemma session_op_events s o : events s `prefix_of` events (session_op s o).
Proof.
  destruct o; simpl; [by eexists|]. unfold end_. destruct (outcome s); [done|]. by eexists.
Qed.

Lemma session_first_end s0 ops :
  outcome s0 = None → ended_at s0 = None →
  let s := fold_left session_op ops s0 in
  outcome s = option_map snd (first_end ops) ∧ ended_at s = option_map fst (first_end ops).
Proof.
  intros Ho He. induction ops as [|o ops [IH1 IH2]] using rev_ind; [done|].
  rewrite fold_left_app, first_end_app. simpl. set (s := fold_left _ _ _) in *.
  destruct o as [e|t out]; simpl; [by destruct (first_end ops)|].
  unfold end_. destruct (first_end ops) as [[]|]; simpl in *; by rewrite IH1.
Qed.

(** * Properties *)

(** A session is append-only and its current view always agrees with its history: after any
    operations the active profile, active endpoint and carrying path are the last ones the events
    name; no operation removes an event; and the outcome (with its time) is that of the first
    [end], whatever is recorded or ended afterwards. *)
Theorem session_view_matches_history id at_ p ep ops o :
  let s := fold_left session_op ops (start id at_ p ep) in
  active_profile s = projected selected_profile p (events s) ∧
  active_endpoint s = projected migrated_to ep (events s) ∧
  carrying_path s = projected changed_to None (events s) ∧
  events s `prefix_of` events (session_op s o) ∧
  outcome s = option_map snd (first_end ops) ∧ ended_at s = option_map fst (first_end ops).
Proof.
  intros s. destruct (session_first_end (start id at_ p ep) ops eq_refl eq_refl) as [Ho He].
  split_and!; [..|apply session_op_events|exact Ho|exact He].
  all: subst s; clear Ho He; induction ops as [|o' ops IH] using rev_ind; [done|];
    rewrite fold_left_app; simpl; set (s := fold_left _ _ _) in *.
  all: destruct o' as [e|t out]; simpl; rewrite ?projected_snoc.
  all: try (rewrite IH; by destruct e).
  all: unfold end_; destruct (outcome s); simpl; try done.
  all: destruct out; rewrite ?projected_snoc, ?app_nil_r; done.
Qed.

(** [classify] names the most fundamental cause there is: it answers [NoEndpointReachable] only
    when the machine itself (privilege, configuration, cores, paths, portal) is in order and every
    endpoint was found unreachable, [AllProfilesBlocked] only when moreover some endpoint was not, and
    [None] exactly when nothing is wrong; a reach that is only unknown never counts as unreachable. *)
Theorem classify_most_fundamental s :
  let machine_ok := privileged s = true ∧ configuration_error s = None ∧ endpoint_reach s ≠ [] ∧
    profiles s ≠ [] ∧ core_failed s = None ∧ usable_paths s ≠ 0 ∧ captive_portal s = false in
  (classify s = Some NoEndpointReachable ↔ machine_ok ∧ ∀ r, r ∈ endpoint_reach s → r = UnreachableReach) ∧
  (classify s = Some AllProfilesBlocked ↔ machine_ok ∧ (∃ r, r ∈ endpoint_reach s ∧ r ≠ UnreachableReach) ∧
    ∀ p, p ∈ profiles s → is_blocked p = true) ∧
  (classify s = None ↔ machine_ok ∧ (∃ r, r ∈ endpoint_reach s ∧ r ≠ UnreachableReach) ∧
    ∃ p, p ∈ profiles s ∧ is_blocked p = false) ∧
  (classify s = Some InsufficientPrivilege ↔ privileged s = false) ∧
  (classify s = Some CaptivePortalUnsatisfied →
    usable_paths s ≠ 0 ∧ captive_portal s = true).
Proof.
  assert (Hall : ∀ {A} (p : A → bool) l, forallb p l = false ↔ ∃ x, x ∈ l ∧ p x = false).
  { intros A p l. induction l as [|x l IH]; simpl; [split; [done|by intros (? & ?%elem_of_nil & _)]|].
    rewrite andb_false_iff, IH. set_solver. }
  intros ok. assert (ok ↔ privileged s = true ∧ configuration_error s = None ∧ endpoint_reach s ≠ [] ∧
    profiles s ≠ [] ∧ core_failed s = None ∧ usable_paths s ≠ 0 ∧ captive_portal s = false) as Hok by done.
  clearbody ok. unfold classify.
  destruct (privileged s); simpl; [|naive_solver].
  destruct (configuration_error s); [naive_solver|].
  case_bool_decide as He; [naive_solver|].
  destruct (profiles s) as [|p0 ps] eqn:Hp; [naive_solver|].
  destruct (core_failed s); [naive_solver|].
  destruct (Z.eqb_spec (usable_paths s) 0); [naive_solver|].
  destruct (captive_portal s); [naive_solver|].
  assert ok by (by apply Hok). clear Hok.
  destruct (forallb _ (endpoint_reach s)) eqn:Hr.
  - rewrite forallb_forall_elem in Hr. setoid_rewrite bool_decide_eq_true in Hr.
    assert (¬ ∃ r, r ∈ endpoint_reach s ∧ r ≠ UnreachableReach) by naive_solver.
    split_and!; try split; intros; try discriminate; tauto.
  - apply Hall in Hr as (r & Hin & Hr%bool_decide_eq_false).
    assert (∃ r, r ∈ endpoint_reach s ∧ r ≠ UnreachableReach) by eauto.
    assert (¬ ∀ r, r ∈ endpoint_reach s → r = UnreachableReach) by auto.
    change (negb false && _) with (forallb is_blocked (p0 :: ps)).
    destruct (forallb is_blocked (p0 :: ps)) eqn:Hb.
    + rewrite forallb_forall_elem in Hb.
      assert (¬ ∃ p, p ∈ p0 :: ps ∧ is_blocked p = false) by (intros (p & Hp1 & Hp2); by rewrite Hb in Hp2).
      split_and!; try split; intros; try discriminate; tauto.
    + apply Hall in Hb.
      assert (¬ ∀ p, p ∈ p0 :: ps → is_blocked p = true).
      { destruct Hb as (p & Hp1 & Hp2). intros Hf. by rewrite Hf in Hp2. }
      split_and!; try split; intros; try discriminate; tauto.
Qed.

(** Two causes are explained under the same title only if they are the same kind of cause, and every
    cause has a title and something to do about it. *)
Theorem explanations_distinguish c1 c2 :
  (ex_title (explain c1) = ex_title (explain c2) ↔
    match c1, c2 with
    | NoEndpointReachable, NoEndpointReachable | AllProfilesBlocked, AllProfilesBlocked
    | CaptivePortalUnsatisfied, CaptivePortalUnsatisfied | InsufficientPrivilege, InsufficientPrivilege
    | CoreFailedPersistently _, CoreFailedPersistently _ | NoUsablePath, NoUsablePath
    | ConfigurationInvalid _, ConfigurationInvalid _ => True
    | _, _ => False
    end) ∧
  ex_title (explain c1) ≠ EmptyString ∧ ex_action (explain c1) ≠ EmptyString.
Proof. destruct c1, c2; split_and!; done. Qed.
