(* ===== verification/Reprobe.v ===== *)
(** Noticing that the active profile is blocked, and what to try next
    (crates/dnet-core/src/reprobe.rs). *)

From S2P Require Import Prelude Profile.

(** * Definitions *)

(* src: crates/dnet-core/src/reprobe.rs:21-22 BLOCK_AFTER *)
Definition BLOCK_AFTER : Z := 3.

(* src: crates/dnet-core/src/reprobe.rs:23-24 RECOVERY_BUDGET *)
Definition RECOVERY_BUDGET : Duration := from_secs 30.

(* src: crates/dnet-core/src/reprobe.rs:25-26 RETRY_BASE *)
Definition RETRY_BASE : Duration := from_secs 60.

(* src: crates/dnet-core/src/reprobe.rs:27-28 RETRY_CAP *)
Definition RETRY_CAP : Duration := from_secs 900.

(* src: crates/dnet-core/src/reprobe.rs:30-35 LiveCheck *)
Inductive LiveCheck : Type := CheckPassed | CheckFailed.

(* src: crates/dnet-core/src/reprobe.rs:37-48 Detection *)
Inductive Detection : Type :=
  | Fine
  | Suspect (failures : Z)
  | DetectedBlocked (failures : Z)
  | AlreadyBlocked.

(* src: crates/dnet-core/src/reprobe.rs:50-55 BlockDetector *)
Record BlockDetector : Type := mkDetector {
  failures : Z;
  reported : bool;
}.

(* src: crates/dnet-core/src/reprobe.rs:58-60 BlockDetector::new *)
Definition detector_new : BlockDetector := {| failures := 0; reported := false |}.

(* src: crates/dnet-core/src/reprobe.rs:62-85 BlockDetector::observe *)
Definition observe (self : BlockDetector) (check : LiveCheck) : BlockDetector * Detection :=
  match check with
  | CheckPassed => (detector_new, Fine)
  | CheckFailed =>
      let n := u32_saturating_add (failures self) 1 in
      if reported self then ({| failures := n; reported := true |}, AlreadyBlocked)
      else if BLOCK_AFTER <=? n then ({| failures := n; reported := true |}, DetectedBlocked n)
      else ({| failures := n; reported := false |}, Suspect n)
  end.

(* src: crates/dnet-core/src/reprobe.rs:87-90 BlockDetector::reset *)
Definition reset (self : BlockDetector) : BlockDetector := detector_new.

(* src: crates/dnet-core/src/reprobe.rs:93-100 ReprobePlan *)
Inductive ReprobePlan : Type :=
  | Try (profiles : list ProfileId)
  | AllBlocked.

(* src: crates/dnet-core/src/reprobe.rs:106-110 plan_reprobe *)
Definition reprobe_candidate (blocked : ProfileId) (p : ConnectionProfile) : bool :=
  negb (bool_decide (profile_id p = blocked)) && negb (is_blocked p).

Definition tier_cmp (a b : ConnectionProfile) : comparison :=
  tier_compare (profile_tier a) (profile_tier b).

(* src: crates/dnet-core/src/reprobe.rs:102-118 plan_reprobe *)
Definition plan_reprobe (profiles : list ConnectionProfile) (blocked : ProfileId) : ReprobePlan :=
  match sort_by tier_cmp (List.filter (reprobe_candidate blocked) profiles) with
  | [] => AllBlocked
  | candidates => Try (map profile_id candidates)
  end.

(** The products are of 32-bit seconds by a [u32] power, which the clamp keeps in range. *)
(* src: crates/dnet-core/src/reprobe.rs:120-125 retry_delay *)
Definition retry_delay (attempt : Z) : Duration :=
  Z.min (RETRY_BASE * 2 ^ Z.min attempt 16) RETRY_CAP.

(** * Lemmas *)

#[export] Instance tier_cmp_total : TotalCompare tier_cmp.
Proof. unfold tier_cmp. apply _. Qed.

(** A live check after each of a list of earlier ones. *)
Definition observe_all (checks : list LiveCheck) : BlockDetector :=
  fold_left (fun d c => fst (observe d c)) checks detector_new.

(** How many checks at the end of a list failed. *)
Definition run_of_failures (checks : list LiveCheck) : Z :=
  fold_left (fun n c => match c with CheckFailed => n + 1 | CheckPassed => 0 end) checks 0.

Lemma run_of_failures_nonneg checks : 0 ≤ run_of_failures checks.
Proof.
  induction checks as [|c checks IH] using rev_ind; [done|].
  unfold run_of_failures in *. rewrite fold_left_app. simpl. destruct c; lia.
Qed.

Lemma observe_all_spec checks :
  failures (observe_all checks) = Z.min U32_MAX (run_of_failures checks) ∧
  reported (observe_all checks) = (BLOCK_AFTER <=? run_of_failures checks).
Proof.
  induction checks as [|c checks [IH1 IH2]] using rev_ind; [done|].
  pose proof (run_of_failures_nonneg checks).
  unfold observe_all, run_of_failures in *. rewrite !fold_left_app. simpl.
  set (d := fold_left _ checks detector_new) in *. set (n := fold_left _ checks 0) in *.
  destruct c; [done|]. simpl. unfold u32_saturating_add, U32_MAX, BLOCK_AFTER in *.
  destruct (reported d) eqn:E, (Z.leb_spec 3 n), (Z.leb_spec 3 (n + 1)); try done; simpl; try lia.
  all: case_match; simpl; bool_simpl; split; lia || done.
Qed.

Lemma reprobe_candidate_iff blocked p :
  reprobe_candidate blocked p = true ↔ profile_id p ≠ blocked ∧ is_blocked p = false.
Proof.
  unfold reprobe_candidate. rewrite andb_true_iff, !negb_true_iff, bool_decide_eq_false. done.
Qed.

(** What the engine relies on: the plan offers only profiles there are, none of them blocked, and
    never an empty list. *)
Lemma plan_reprobe_try profiles blocked ids :
  plan_reprobe profiles blocked = Try ids →
  ids ≠ [] ∧ ∀ id, id ∈ ids →
    ∃ p, p ∈ profiles ∧ profile_id p = id ∧ id ≠ blocked ∧ is_blocked p = false.
Proof.
  unfold plan_reprobe. destruct (sort_by _ _) as [|c cs] eqn:E; [done|]. intros [= <-].
  split; [done|]. intros id Hid.
  change (id ∈ map profile_id (c :: cs)) in Hid. apply elem_of_map in Hid as (p & -> & Hp).
  rewrite <-E, (elem_of_sort_by tier_cmp), elem_of_filter_bool in Hp.
  destruct Hp as [Hp [? ?]%reprobe_candidate_iff]. eauto.
Qed.

Lemma plan_reprobe_all_blocked profiles blocked :
  plan_reprobe profiles blocked = AllBlocked ↔
  ∀ p, p ∈ profiles → profile_id p = blocked ∨ is_blocked p = true.
Proof.
  unfold plan_reprobe. destruct (sort_by _ _) as [|c cs] eqn:E.
  - split; [|done]. intros _ p Hp.
    destruct (reprobe_candidate blocked p) eqn:Hc.
    + assert (p ∈ sort_by tier_cmp (List.filter (reprobe_candidate blocked) profiles)) as Hin.
      { apply (elem_of_sort_by tier_cmp), elem_of_filter_bool. auto. }
      rewrite E in Hin. by apply elem_of_nil in Hin.
    + apply andb_false_iff in Hc as [Hc|Hc]; bool_simpl; auto.
  - split; [done|]. intros H. exfalso.
    assert (c ∈ sort_by tier_cmp (List.filter (reprobe_candidate blocked) profiles)) as Hin
      by (rewrite E; set_solver).
    apply (elem_of_sort_by tier_cmp), elem_of_filter_bool in Hin as [Hin Hc].
    apply reprobe_candidate_iff in Hc as [Hc1 Hc2]. destruct (H c Hin); congruence.
Qed.

(** * Properties *)

(** A block is three failed live checks in a row, reported exactly once: whatever checks came
    before, what the next one means is determined by the length [n] of the run of failures it ends.
    A pass is [Fine]; the first two failures are [Suspect]; the third, and only the third, is
    [Blocked]; every later one is [AlreadyBlocked] until a check passes. *)
Theorem block_reported_once checks c :
  let n := run_of_failures (checks ++ [c]) in
  (observe (observe_all checks) c).2 =
    if n =? 0 then Fine else if n <? 3 then Suspect n else if n =? 3 then DetectedBlocked 3 else AlreadyBlocked.
Proof.
  destruct (observe_all_spec checks) as [Hf Hr]. pose proof (run_of_failures_nonneg checks).
  unfold run_of_failures in *. rewrite fold_left_app. simpl. set (n := fold_left _ checks 0) in *.
  destruct c; [done|]. unfold observe. rewrite Hf, Hr.
  unfold u32_saturating_add, U32_MAX, BLOCK_AFTER in *.
  destruct (Z.leb_spec 3 n), (Z.eqb_spec (n + 1) 0), (Z.ltb_spec (n + 1) 3), (Z.eqb_spec (n + 1) 3);
    try lia; simpl; try done; case_match; bool_simpl; simpl; try lia; f_equal; lia.
Qed.

(** The recovery plan lists exactly the profiles other than the one that was blocked that are not
    themselves known to be blocked, Tier 1 before Tier 2 and otherwise in catalogue order; it says that
    nothing is left exactly when there is no such profile. *)
Theorem plan_reprobe_sound profiles blocked :
  match plan_reprobe profiles blocked with
  | Try ids =>
      let c := List.filter (reprobe_candidate blocked) profiles in
      ids = map profile_id
        (List.filter (fun p => bool_decide (profile_tier p = Tier1)) c ++
         List.filter (fun p => bool_decide (profile_tier p = Tier2)) c) ∧ ids ≠ []
  | AllBlocked => ∀ p, p ∈ profiles → profile_id p = blocked ∨ is_blocked p = true
  end.
Proof.
  destruct (plan_reprobe profiles blocked) as [ids|] eqn:E; [|by apply plan_reprobe_all_blocked].
  split; [|by apply (plan_reprobe_try profiles blocked)].
  unfold plan_reprobe in E.
  set (c := List.filter (reprobe_candidate blocked) profiles) in *.
  assert (ids = map profile_id (sort_by tier_cmp c)) as -> by (destruct (sort_by _ c); by simplify_eq).
  clear E. f_equal. induction c as [|p c IH]; [done|]. simpl. rewrite IH.
  set (l1 := List.filter (fun p => bool_decide (profile_tier p = Tier1)) c).
  set (l2 := List.filter (fun p => bool_decide (profile_tier p = Tier2)) c).
  destruct (profile_tier p) eqn:Ep; simpl.
  - destruct (l1 ++ l2) as [|q l] eqn:El; [done|]. simpl. unfold tier_cmp. rewrite Ep.
    by destruct (profile_tier q).
  - assert (∀ q, q ∈ l1 → profile_tier q = Tier1) as Hl1.
    { intros q [_ Hq]%elem_of_filter_bool. by apply bool_decide_eq_true in Hq. }
    clearbody l1. induction l1 as [|q l1 IH1]; simpl.
    + assert (∀ q, q ∈ l2 → profile_tier q = Tier2) as Hl2.
      { intros q [_ Hq]%elem_of_filter_bool. by apply bool_decide_eq_true in Hq. }
      destruct l2 as [|q l2]; [done|]. simpl. unfold tier_cmp.
      rewrite Ep, (Hl2 q) by set_solver. done.
    + unfold tier_cmp at 1. rewrite Ep, (Hl1 q) by set_solver. simpl.
      f_equal. apply IH1; set_solver.
Qed.

(** The wait before a retry doubles from one minute and is capped at fifteen, for every [u32]
    attempt number: the clamped exponent changes no result, never lets the product leave the range of a
    [Duration], and the wait never shrinks from one attempt to the next. *)
Theorem retry_delay_doubles_to_cap attempt (H : 0 ≤ attempt ≤ U32_MAX) :
  retry_delay attempt = Z.min (from_secs 60 * 2 ^ attempt) (from_secs 900) ∧
  from_secs 60 ≤ retry_delay attempt ≤ retry_delay (attempt + 1) ∧
  RETRY_BASE * 2 ^ Z.min attempt 16 ≤ DURATION_MAX.
Proof.
  assert (∀ a, 0 ≤ a → retry_delay a = Z.min (from_secs 60 * 2 ^ a) (from_secs 900)) as Heq.
  { intros a Ha. unfold retry_delay, RETRY_BASE, RETRY_CAP.
    destruct (Z.le_gt_cases a 16); [by rewrite (Z.min_l a 16)|].
    rewrite (Z.min_r a 16) by lia. assert (2 ^ 16 ≤ 2 ^ a) by (apply Z.pow_le_mono_r; lia).
    change (2 ^ 16) with 65536 in *. unfold from_secs, NANOS_PER_SEC. lia. }
  rewrite !Heq by lia. assert (1 ≤ 2 ^ attempt) by (apply (Z.pow_le_mono_r 2 0); lia).
  rewrite Z.pow_add_r by lia. unfold from_secs, NANOS_PER_SEC, RETRY_BASE. split; [done|].
  split; [lia|]. assert (2 ^ Z.min attempt 16 ≤ 2 ^ 16) by (apply Z.pow_le_mono_r; lia).
  change (2 ^ 16) with 65536 in *. change DURATION_MAX with 18446744073709551615999999999.
  unfold from_secs, NANOS_PER_SEC. lia.
Qed.

Lemma retry_delay_doubles_to_cap_witness : retry_delay 4294967295 = from_secs 900 ∧ retry_delay 2 = from_secs 240.
Proof.
  split; [reflexivity|].
  exact (proj1 (retry_delay_doubles_to_cap 2 ltac:(vm_compute; split; discriminate))).
Defined.
