(* ===== verification/Migrate.v ===== *)
(** Moving to another endpoint when the active one stops answering
    (crates/dnet-core/src/migrate.rs). *)

From S2P Require Import Prelude Text Profile Health Endpoint Session.

(** * Definitions *)

(* src: crates/dnet-core/src/migrate.rs:18-30 Migration *)
Inductive Migration : Type :=
  | Stay
  | MoveTo (to : EndpointId) (event : ConnectionEvent)
  | MigrationNoEndpointReachable.

Section Migrate.
Context `{UuidDisplay}.

(* src: crates/dnet-core/src/migrate.rs:49-58 plan_migration *)
Definition left_because (current : option Endpoint) : string :=
  match current with
  | None => "is no longer configured"
  | Some e =>
      if negb (endpoint_enabled e) then "was disabled"
      else
        let n := consecutive_failures (endpoint_health e) in
        let probes := if n =? 1 then "probe" else "probes" in
        "stopped answering after " +:+ pretty n +:+ " failed " +:+ probes
  end.

(* src: crates/dnet-core/src/migrate.rs:59-77 plan_migration *)
Definition migration_because (from_label why : string) (target : Endpoint) : string :=
  let state :=
    match state (endpoint_health target) with
    | Healthy => "healthy"
    | Degraded => "degraded"
    | _ => "not yet measured"
    end in
  let rtt :=
    match smoothed_rtt target with
    | Some r => " with a smoothed round trip of " +:+ pretty (as_millis r) +:+ " ms"
    | None => ""
    end in
  "endpoint " +:+ quote +:+ from_label +:+ quote +:+ " " +:+ why +:+ "; moved to " +:+ quote +:+
    endpoint_label target +:+ quote +:+ ", which is " +:+ state +:+ rtt.

(** [None] is the panic of [expect]. *)
(* src: crates/dnet-core/src/migrate.rs:32-79 plan_migration *)
Definition plan_migration (endpoints : list Endpoint) (active : EndpointId) : option Migration :=
  let current := List.find (fun e => bool_decide (endpoint_id e = active)) endpoints in
  if match current with Some e => is_candidate e | None => false end then Some Stay
  else
    match rank endpoints with
    | [] => Some MigrationNoEndpointReachable
    | to :: _ =>
        target ← List.find (fun e => bool_decide (endpoint_id e = to)) endpoints;
        let from_label :=
          match current with Some e => endpoint_label e | None => uuid_to_string active end in
        Some (MoveTo to (EndpointMigrated active to
          (migration_because from_label (left_because current) target)))
    end.

(** * Lemmas *)

Lemma find_id_None endpoints id :
  List.find (fun e => bool_decide (endpoint_id e = id)) endpoints = None →
  id ∉ map endpoint_id endpoints.
Proof.
  intros Hf (e & -> & He)%elem_of_map.
  pose proof (find_None_elem _ _ Hf e He) as E. by apply bool_decide_eq_false in E.
Qed.

Lemma rank_find endpoints id :
  id ∈ rank endpoints →
  ∃ e, List.find (fun e => bool_decide (endpoint_id e = id)) endpoints = Some e.
Proof.
  intros (e & He & _ & Hid)%elem_of_rank. destruct (List.find _ _) eqn:E; [eauto|].
  apply find_id_None in E. destruct E. apply elem_of_map. eauto.
Qed.

Lemma plan_migration_total endpoints active : ∃ m, plan_migration endpoints active = Some m.
Proof.
  unfold plan_migration. destruct (match List.find _ _ with Some e => _ | None => _ end); [eauto|].
  destruct (rank endpoints) as [|to l] eqn:E; [eauto|].
  destruct (rank_find endpoints to) as [e He]; [rewrite E; set_solver|]. rewrite He. simpl. eauto.
Qed.

(** What the engine relies on: a move is to a candidate. *)
Lemma plan_migration_move endpoints active to event :
  plan_migration endpoints active = Some (MoveTo to event) →
  ∃ because, event = EndpointMigrated active to because ∧ head (rank endpoints) = Some to.
Proof.
  unfold plan_migration. destruct (match List.find _ _ with Some e => _ | None => _ end); [done|].
  destruct (rank endpoints) as [|to' l]; [done|].
  intros (target & _ & [= <- <-])%bind_Some. eauto.
Qed.
End Migrate.

(** * Properties *)

(** [plan_migration] always answers (the [expect] cannot fail).  With endpoint ids unique, it
    stays exactly when the active endpoint is still a candidate; otherwise it moves to the best-ranked
    endpoint, which is a candidate other than the active one and of which the event says where from and
    to; and it gives up exactly when no endpoint is a candidate. *)
Theorem plan_migration_sound `{UuidDisplay} endpoints active
    (Hids : NoDup (map endpoint_id endpoints)) :
  (∃ m, plan_migration endpoints active = Some m) ∧
  (plan_migration endpoints active = Some Stay ↔
    ∃ e, e ∈ endpoints ∧ endpoint_id e = active ∧ is_candidate e = true) ∧
  (plan_migration endpoints active = Some MigrationNoEndpointReachable ↔
    ∀ e, e ∈ endpoints → is_candidate e = false) ∧
  (∀ to event, plan_migration endpoints active = Some (MoveTo to event) →
    to ≠ active ∧ (∃ because, event = EndpointMigrated active to because) ∧
    ∃ e, e ∈ endpoints ∧ endpoint_id e = to ∧ is_candidate e = true ∧
      ∀ e', e' ∈ endpoints → is_candidate e' = true → le_by rank_cmp e e').
Proof.
  pose proof (find_by_key endpoint_id endpoints) as Hfind.
  assert (Hstay : plan_migration endpoints active = Some Stay ↔
    ∃ e, e ∈ endpoints ∧ endpoint_id e = active ∧ is_candidate e = true).
  { unfold plan_migration. split.
    - destruct (List.find _ endpoints) as [e|] eqn:E.
      + destruct (is_candidate e) eqn:Hc.
        * apply find_Some_elem in E as [He E]. apply bool_decide_eq_true in E. eauto.
        * destruct (rank endpoints); [done|]. by intros (? & _ & [=])%bind_Some.
      + destruct (rank endpoints); [done|]. by intros (? & _ & [=])%bind_Some.
    - intros (e & He & <- & Hc). by rewrite (Hfind e Hids He), Hc. }
  split_and!; [apply plan_migration_total|done|..].
  - rewrite <-rank_nil. split.
    + unfold plan_migration. destruct (match List.find _ _ with Some e => _ | None => _ end); [done|].
      destruct (rank endpoints) as [|to l]; [done|]. by intros (? & _ & [=])%bind_Some.
    + intros Hr. pose proof (proj1 (rank_nil _) Hr) as Hnone. unfold plan_migration.
      destruct (List.find _ endpoints) as [e|] eqn:E; [|by rewrite Hr].
      apply find_Some_elem in E as [He _]. by rewrite Hnone, Hr.
  - intros to event Hm. pose proof (plan_migration_move _ _ _ _ Hm) as (because & -> & Hh).
    rewrite rank_head in Hh. destruct (min_by _ _) as [e|] eqn:Emin; [|done]. injection Hh as <-.
    pose proof (min_by_elem rank_cmp _ _ Emin) as [He Hc]%elem_of_filter_bool.
    split_and!; [|eauto|].
    + intros Heq. assert (plan_migration endpoints active = Some Stay) as Hs by (apply Hstay; eauto).
      congruence.
    + exists e. split_and!; try done. intros e' He' Hc'. eapply min_by_le; [exact _|exact Emin|].
      apply elem_of_filter_bool. auto.
Qed.

Definition demo_endpoint (id : EndpointId) (h : HealthState) : Endpoint := {|
  endpoint_id := id; endpoint_label := "frankfurt";
  endpoint_address := mkEndpointAddress "198.51.100.1" 443;
  endpoint_origin := Manual; endpoint_credentials := mkCredentialRef "k";
  endpoint_health := mkEndpointHealth h None 3 0 0 None None; endpoint_enabled := true;
|}.

Lemma plan_migration_sound_witness :
  let display : UuidDisplay := fun id => pretty id in
  NoDup (map endpoint_id [demo_endpoint 1 Unreachable; demo_endpoint 2 Unknown]) ∧
  (∃ event, plan_migration [demo_endpoint 1 Unreachable; demo_endpoint 2 Unknown] 1 = Some (MoveTo 2 event)) ∧
  2 ≠ 1.
Proof.
  intros display.
  assert (NoDup (map endpoint_id [demo_endpoint 1 Unreachable; demo_endpoint 2 Unknown])) as Hids.
  { apply (bool_decide_unpack _). vm_compute. exact I. }
  split; [exact Hids|]. split; [eexists; vm_compute; reflexivity|].
  exact (proj1 (proj2 (proj2 (proj2 (plan_migration_sound _ 1 Hids))) 2 _ ltac:(vm_compute; reflexivity))).
Defined.
