(* ===== verification/Probe.v ===== *)
(** Judging a profile probe and racing profiles (crates/dnet-core/src/probe.rs). *)

From S2P Require Import Prelude Profile.

(** * Definitions *)

(* src: crates/dnet-core/src/probe.rs:21-22 USABLE_MIN_BYTES *)
Definition USABLE_MIN_BYTES : Z := 64 * 1024.

(* src: crates/dnet-core/src/probe.rs:23-25 USABLE_MIN_BITS_PER_SEC *)
Definition USABLE_MIN_BITS_PER_SEC : Z := 256000.

(* src: crates/dnet-core/src/probe.rs:26-27 TIER_GRACE *)
Definition TIER_GRACE : Duration := from_secs 3.

(* src: crates/dnet-core/src/probe.rs:28-30 PROBE_DEADLINE *)
Definition PROBE_DEADLINE : Duration := from_secs 15.

(* src: crates/dnet-core/src/probe.rs:32-41 ProfileProbe *)
Inductive ProfileProbe : Type :=
  | HandshakeFailed
  | HandshakeOnly
  | Transferred (bytes : Z) (elapsed : Duration).

(* src: crates/dnet-core/src/probe.rs:43-55 Unusable *)
Inductive Unusable : Type :=
  | UnusableHandshakeFailed
  | NoTraffic
  | TooLittleData
  | TooSlow
  | InvalidMeasurement.

(* src: crates/dnet-core/src/probe.rs:57-62 Verdict *)
Inductive Verdict : Type :=
  | Usable (bits_per_sec : Z)
  | NotUsable (why : Unusable).

(* src: crates/dnet-core/src/probe.rs:64-87 judge *)
Definition judge (probe : ProfileProbe) : Verdict :=
  match probe with
  | HandshakeFailed => NotUsable UnusableHandshakeFailed
  | HandshakeOnly => NotUsable NoTraffic
  | Transferred bytes elapsed =>
      if elapsed =? 0 then NotUsable InvalidMeasurement
      else if bytes <? USABLE_MIN_BYTES then NotUsable TooLittleData
      else
        let bits_per_sec := Z.min (bytes * 8 * 1000000000 / elapsed) U64_MAX in
        if bits_per_sec <? USABLE_MIN_BITS_PER_SEC then NotUsable TooSlow
        else Usable bits_per_sec
  end.

(* src: crates/dnet-core/src/probe.rs:89-102 RaceDecision *)
Inductive RaceDecision : Type :=
  | Pending
  | Selected (profile : ProfileId) (tier : FailoverTier) (bits_per_sec : Z)
  | NoneUsable.

#[export] Instance Unusable_eq_dec : EqDecision Unusable.
Proof. solve_decision. Defined.
#[export] Instance RaceDecision_eq_dec : EqDecision RaceDecision.
Proof. solve_decision. Defined.

(* src: crates/dnet-core/src/probe.rs:104-107 State *)
Inductive EntryState : Type :=
  | StatePending
  | Done (verdict : Verdict) (at_ : Duration).

(* src: crates/dnet-core/src/probe.rs:109-113 Entry *)
Record Entry : Type := mkEntry {
  entry_id : ProfileId;
  entry_tier : FailoverTier;
  entry_state : EntryState;
}.

(* src: crates/dnet-core/src/probe.rs:115-118 ProbeRace *)
Record ProbeRace : Type := mkRace {
  entries : list Entry;
}.

(* src: crates/dnet-core/src/probe.rs:121-133 ProbeRace::start *)
Definition race_start (profiles : list ConnectionProfile) : ProbeRace := {|
  entries := map (fun p => {| entry_id := profile_id p; entry_tier := profile_tier p;
                              entry_state := StatePending |}) profiles;
|}.

Definition is_pending (e : Entry) : bool :=
  match entry_state e with StatePending => true | Done _ _ => false end.

Definition set_done (verdict : Verdict) (at_ : Duration) (e : Entry) : Entry :=
  {| entry_id := entry_id e; entry_tier := entry_tier e; entry_state := Done verdict at_ |}.

(* src: crates/dnet-core/src/probe.rs:135-152 ProbeRace::record *)
Definition race_record (r : ProbeRace) (id : ProfileId) (probe : ProfileProbe) (at_ : Duration) :
    ProbeRace * bool :=
  let waiting := fun e => bool_decide (entry_id e = id) && is_pending e in
  match List.find waiting (entries r) with
  | Some _ => ({| entries := update_first waiting (set_done (judge probe) at_) (entries r) |}, true)
  | None => (r, false)
  end.

(* src: crates/dnet-core/src/probe.rs:154-166 ProbeRace::fail_pending *)
Definition fail_pending (r : ProbeRace) (at_ : Duration) : ProbeRace := {|
  entries := map (fun e => if is_pending e then set_done (NotUsable UnusableHandshakeFailed) at_ e else e)
    (entries r);
|}.

(** An entry that reported usable traffic, with its rate and when it reported. *)
(* src: crates/dnet-core/src/probe.rs:174-180 ProbeRace::decide *)
Definition usable_report (e : Entry) : option (Entry * Z * Duration) :=
  match entry_state e with
  | Done (Usable bits_per_sec) at_ => Some (e, bits_per_sec, at_)
  | _ => None
  end.

Definition report_cmp (a b : Entry * Z * Duration) : comparison :=
  cmp_then (tier_compare (entry_tier a.1.1) (entry_tier b.1.1)) (a.2 ?= b.2).

(* src: crates/dnet-core/src/probe.rs:168-216 ProbeRace::decide *)
Definition decide_race (r : ProbeRace) (now : Duration) : RaceDecision :=
  let best := min_by report_cmp (omap usable_report (entries r)) in
  let any_pending := existsb is_pending (entries r) in
  let timed_out := PROBE_DEADLINE <=? now in
  match best with
  | None => if any_pending && negb timed_out then Pending else NoneUsable
  | Some (entry, bits_per_sec, at_) =>
      let tier1_pending :=
        existsb (fun e => bool_decide (entry_tier e = Tier1) && is_pending e) (entries r) in
      if bool_decide (entry_tier entry = Tier2) && tier1_pending && negb timed_out &&
         (now <? duration_saturating_add at_ TIER_GRACE)
      then Pending
      else Selected (entry_id entry) (entry_tier entry) bits_per_sec
  end.

(** * Lemmas *)

#[export] Instance report_cmp_total : TotalCompare report_cmp.
Proof. unfold report_cmp. apply _. Qed.

Lemma usable_report_elem r e b t :
  (e, b, t) ∈ omap usable_report (entries r) ↔ e ∈ entries r ∧ entry_state e = Done (Usable b) t.
Proof.
  rewrite list_elem_of_omap. unfold usable_report. split.
  - intros (e' & He' & H). repeat case_match; simplify_eq; auto.
  - intros [He Hs]. exists e. by rewrite Hs.
Qed.

Lemma update_first_waiting_ids id v t l :
  map entry_id (update_first (fun e => bool_decide (entry_id e = id) && is_pending e) (set_done v t) l)
  = map entry_id l.
Proof. by apply update_first_map. Qed.

(** * Properties *)

(** A probe shows a usable profile exactly when a transfer of at least 64 KiB completed in a
    positive time at 256 kbit/s or more; the rate reported is the exact floor of the measured one (capped
    at [u64::MAX]), and the 128-bit product it is computed from cannot overflow. *)
Theorem judge_usable_iff probe b :
  (judge probe = Usable b ↔
    ∃ bytes elapsed, probe = Transferred bytes elapsed ∧ elapsed ≠ 0 ∧ 65536 ≤ bytes ∧
      256000 ≤ bytes * 8 * 1000000000 / elapsed ∧ b = Z.min (bytes * 8 * 1000000000 / elapsed) U64_MAX) ∧
  (∀ bytes, 0 ≤ bytes ≤ U64_MAX → 0 ≤ bytes * 8 * 1000000000 ≤ U128_MAX).
Proof.
  split.
  - split.
    + destruct probe as [| |bytes elapsed]; [done..|]. unfold judge.
      destruct (Z.eqb_spec elapsed 0); [done|]. destruct (Z.ltb_spec bytes USABLE_MIN_BYTES); [done|].
      cbv zeta. set (q := _ / elapsed). case_match eqn:E; [done|]. intros [= <-].
      apply Z.ltb_ge in E. unfold USABLE_MIN_BITS_PER_SEC, USABLE_MIN_BYTES, U64_MAX in *.
      exists bytes, elapsed. split_and!; try done; lia.
    + intros (bytes & elapsed & -> & He & Hb & Hq & ->). unfold judge.
      rewrite (proj2 (Z.eqb_neq elapsed 0)) by done.
      rewrite (proj2 (Z.ltb_ge bytes USABLE_MIN_BYTES)) by done. cbv zeta.
      set (q := _ / elapsed) in *.
      rewrite (proj2 (Z.ltb_ge (Z.min q U64_MAX) USABLE_MIN_BITS_PER_SEC)); [done|].
      unfold USABLE_MIN_BITS_PER_SEC, U64_MAX. lia.
  - unfold U64_MAX, U128_MAX. intros bytes. change (2 ^ 64) with 18446744073709551616.
    change (2 ^ 128) with 340282366920938463463374607431768211456. lia.
Qed.

(** What the race decides, at every moment.  It selects a profile only if that profile reported
    usable traffic and no usable report beats it (Tier 1 before Tier 2, then the earlier report); a Tier 2
    profile is selected only when no Tier 1 profile is usable, and only once no Tier 1 profile can still
    report, its grace period is over, or the deadline has passed.  It gives up exactly when nothing is
    usable and nobody can still report in time, and from the deadline on, or once every entry has
    reported, it always decides. *)
Theorem race_decision_sound r now :
  match decide_race r now with
  | Selected p tier b =>
      ∃ e at_, e ∈ entries r ∧ entry_id e = p ∧ entry_tier e = tier ∧ entry_state e = Done (Usable b) at_ ∧
        (∀ e' b' at_', e' ∈ entries r → entry_state e' = Done (Usable b') at_' →
          tier_index tier < tier_index (entry_tier e') ∨ tier = entry_tier e' ∧ at_ ≤ at_') ∧
        (tier = Tier2 → PROBE_DEADLINE ≤ now ∨ duration_saturating_add at_ TIER_GRACE ≤ now ∨
          ∀ e', e' ∈ entries r → entry_tier e' = Tier1 → is_pending e' = false)
  | NoneUsable =>
      (∀ e b at_, e ∈ entries r → entry_state e ≠ Done (Usable b) at_) ∧
      (PROBE_DEADLINE ≤ now ∨ ∀ e, e ∈ entries r → is_pending e = false)
  | Pending => now < PROBE_DEADLINE ∧ ∃ e, e ∈ entries r ∧ is_pending e = true
  end.
Proof.
  unfold decide_race. destruct (min_by _ _) as [[[e b] t]|] eqn:Emin; simpl.
  - pose proof (min_by_elem report_cmp _ _ Emin) as [He Hs]%usable_report_elem.
    destruct (_ && _) eqn:E.
    + bool_simpl. split; [lia|]. apply existsb_exists_elem in H2 as (e' & He' & H2). bool_simpl. eauto.
    + exists e, t. split_and!; try done.
      * intros e' b' t' He' Hs'.
        assert (le_by report_cmp (e, b, t) (e', b', t')) as Hle
          by (eapply min_by_le; [exact _|exact Emin|by apply usable_report_elem]).
        unfold le_by, report_cmp, tier_compare in Hle. simpl in Hle.
        destruct (entry_tier e), (entry_tier e'); simpl in *; auto; try lia; right; split; try done; lia.
      * intros Ht. rewrite Ht in E. simpl in E.
        destruct (existsb _ _) eqn:Ep.
        -- destruct (Z.leb_spec PROBE_DEADLINE now); [auto|]. simpl in E. apply Z.ltb_ge in E. auto.
        -- right. right. rewrite existsb_false_elem in Ep. intros e' He' Ht'.
           specialize (Ep e' He'). by rewrite Ht' in Ep.
  - apply min_by_None in Emin.
    assert (∀ e b at_, e ∈ entries r → entry_state e ≠ Done (Usable b) at_) as Hnone.
    { intros e b t He Hs. assert ((e, b, t) ∈ omap usable_report (entries r)) as Hin
        by (by apply usable_report_elem). rewrite Emin in Hin. by apply elem_of_nil in Hin. }
    destruct (existsb _ _) eqn:Ep; simpl.
    + apply existsb_exists_elem in Ep. destruct (Z.leb_spec PROBE_DEADLINE now); simpl; auto.
    + rewrite existsb_false_elem in Ep. auto.
Qed.

(** The first report of a profile stands.  Over the profiles of a race (distinct ids), recording
    a probe succeeds exactly for a profile that has not reported, sets that entry alone to the judged
    verdict, and a second report of the same profile is refused and changes nothing; once no more results
    can come ([fail_pending]) every report already made is kept and the race decides. *)
Theorem first_report_stands r id probe at_ probe' at_' now
    (Hids : NoDup (map entry_id (entries r))) :
  let '(r', ok) := race_record r id probe at_ in
  (ok = true ↔ ∃ e, e ∈ entries r ∧ entry_id e = id ∧ is_pending e = true) ∧
  race_record r' id probe' at_' = (r', false) ∧
  (∀ e, e ∈ entries r → (entry_id e ≠ id ∨ is_pending e = false) → e ∈ entries r') ∧
  (ok = true → ∃ e, e ∈ entries r' ∧ entry_id e = id ∧ entry_state e = Done (judge probe) at_) ∧
  (∀ e, e ∈ entries r → is_pending e = false → e ∈ entries (fail_pending r at_)) ∧
  decide_race (fail_pending r at_) now ≠ Pending.
Proof.
  set (waiting := fun e => bool_decide (entry_id e = id) && is_pending e).
  assert (Hw : ∀ e, waiting e = true ↔ entry_id e = id ∧ is_pending e = true).
  { intros e. unfold waiting. by rewrite andb_true_iff, bool_decide_eq_true. }
  assert (Hfp : (∀ e, e ∈ entries r → is_pending e = false → e ∈ entries (fail_pending r at_)) ∧
    decide_race (fail_pending r at_) now ≠ Pending).
  { split.
    - intros e He Hp. apply elem_of_map. exists e. by rewrite Hp.
    - assert (∀ e, e ∈ entries (fail_pending r at_) → is_pending e = false) as Hno.
      { intros e (e' & -> & He')%elem_of_map. by destruct (is_pending e') eqn:E. }
      pose proof (existsb_false_elem is_pending (entries (fail_pending r at_))) as [_ Hex].
      unfold decide_race. rewrite (Hex Hno). destruct (min_by _ _) as [[[e b] t]|]; [|done].
      cbv zeta.
      clear Hex. destruct (existsb _ _) eqn:E; [|by rewrite andb_false_r].
      apply existsb_exists_elem in E as (e' & He' & E). bool_simpl. by rewrite Hno in H0. }
  unfold race_record. fold waiting. destruct (List.find waiting (entries r)) as [e0|] eqn:Ef.
  - apply find_Some_elem in Ef as [He0 [Hid0 Hp0]%Hw].
    assert (Hfirst : ∃ l1 l2, entries r = l1 ++ e0 :: l2 ∧ (∀ e, e ∈ l1 ++ l2 → entry_id e ≠ id)).
    { apply list_elem_of_split in He0 as (l1 & l2 & Hl). exists l1, l2. split; [done|].
      intros e He Heq. rewrite Hl in Hids. rewrite map_app in Hids. simpl in Hids.
      apply NoDup_app in Hids as (_ & H1 & H2). apply NoDup_cons in H2 as [H2 _].
      apply elem_of_app in He as [He|He].
      - apply (H1 (entry_id e)); [apply elem_of_map; eauto|]. rewrite Heq, <-Hid0. set_solver.
      - apply H2. rewrite Hid0, <-Heq. apply elem_of_map. eauto. }
    destruct Hfirst as (l1 & l2 & Hl & Hothers).
    assert (Hup : update_first waiting (set_done (judge probe) at_) (entries r) =
      l1 ++ set_done (judge probe) at_ e0 :: l2).
    { rewrite Hl. assert (∀ e, e ∈ l1 → entry_id e ≠ id) as Hl1 by set_solver. clear -Hl1 Hw Hid0 Hp0.
      induction l1 as [|e l1 IH]; simpl.
      - by rewrite (proj2 (Hw e0)).
      - destruct (waiting e) eqn:E; [apply Hw in E as [? _]; by destruct (Hl1 e ltac:(set_solver))|].
        f_equal. apply IH. set_solver. }
    simpl. rewrite Hup. split_and!; try apply Hfp; [by split; [eauto|]|..].
    + assert (List.find waiting (l1 ++ set_done (judge probe) at_ e0 :: l2) = None) as ->; [|done].
      destruct (List.find _ _) as [e|] eqn:E; [|done]. apply find_Some_elem in E as [He [Hid Hp]%Hw].
      apply elem_of_app in He as [He|[->|He]%elem_of_cons]; [|done|];
        destruct (Hothers e); try done; apply elem_of_app; auto.
    + intros e He Hne. rewrite Hl in He.
      apply elem_of_app in He as [He|[->|He]%elem_of_cons]; [set_solver| |set_solver].
      destruct Hne; congruence.
    + intros _. exists (set_done (judge probe) at_ e0). set_solver.
  - simpl. fold waiting. rewrite Ef. split_and!; try apply Hfp; try done.
    split; [done|]. intros (e & He & Hid & Hp).
    assert (waiting e = true) as E by (by apply Hw). by rewrite (find_None_elem _ _ Ef e He) in E.
Qed.

Definition demo_race : ProbeRace := {| entries :=
  [mkEntry "hy2-default" Tier2 StatePending; mkEntry "reality-default" Tier2 StatePending] |}.

Lemma first_report_stands_witness :
  NoDup (map entry_id (entries demo_race)) ∧
  (race_record demo_race "hy2-default" (Transferred 1000000 (from_secs 1)) (from_secs 2)).2 = true ∧
  decide_race (fail_pending demo_race (from_secs 2)) (from_secs 2) ≠ Pending.
Proof.
  assert (NoDup (map entry_id (entries demo_race))) as Hids.
  { apply (bool_decide_unpack _). vm_compute. exact I. }
  split; [exact Hids|]. split; [reflexivity|].
  pose proof (first_report_stands demo_race "hy2-default" (Transferred 1000000 (from_secs 1)) (from_secs 2)
    HandshakeFailed (from_secs 3) (from_secs 2) Hids) as H.
  exact (proj2 (proj2 (proj2 (proj2 (proj2 H))))).
Defined.
