(* ===== verification/Selection.v ===== *)
(** Choosing a profile, the fail-closed routing posture, and the start guard of Profile A
    (crates/dnet-core/src/selection.rs, posture.rs and profile_start.rs). *)

From S2P Require Import Prelude Profile IpText Quality Session.

(** * Definitions *)

(* src: crates/dnet-core/src/selection.rs:16-24 Selected *)
Record Selected : Type := mkSelected {
  selected_profile : ProfileId;
  selected_tier : FailoverTier;
  warn_tier2 : bool;
}.

(* src: crates/dnet-core/src/selection.rs:26-41 SelectionError *)
Inductive SelectionError : Type :=
  | NoViableProfile
  | UnknownProfile (id : ProfileId)
  | NotViable (id : ProfileId)
  | TierDowngradeRequiresConsent (requested : ProfileId).

(* src: crates/dnet-core/src/selection.rs:50-54 select *)
Definition selected (p : ConnectionProfile) : Selected := {|
  selected_profile := profile_id p;
  selected_tier := profile_tier p;
  warn_tier2 := bool_decide (profile_tier p = Tier2);
|}.

Definition tier_cmp (a b : ConnectionProfile) : comparison :=
  tier_compare (profile_tier a) (profile_tier b).

(* src: crates/dnet-core/src/selection.rs:43-82 select *)
Definition select (profiles : list ConnectionProfile) (requested : option ProfileId)
    (acknowledged_tier2 : bool) : result SelectionError Selected :=
  match requested with
  | None => ok_or (option_map selected (min_by tier_cmp (List.filter is_working profiles))) NoViableProfile
  | Some wanted =>
      profile ← ok_or (List.find (fun p => bool_decide (profile_id p = wanted)) profiles) (UnknownProfile wanted);
      if negb (is_working profile) then Err (NotViable wanted)
      else
        let tier1_available :=
          existsb (fun p => is_working p && bool_decide (profile_tier p = Tier1)) profiles in
        if bool_decide (profile_tier profile = Tier2) && tier1_available && negb acknowledged_tier2
        then Err (TierDowngradeRequiresConsent wanted)
        else Ok (selected profile)
  end.

(* src: crates/dnet-core/src/posture.rs:17-29 RoutingPosture *)
Inductive RoutingPosture : Type :=
  | Tunnelled (tier : FailoverTier)
  | FailClosed.

(* src: crates/dnet-core/src/posture.rs:31-36 RoutingPosture::is_fail_closed *)
Definition is_fail_closed (r : RoutingPosture) : bool :=
  match r with FailClosed => true | Tunnelled _ => false end.

(* src: crates/dnet-core/src/posture.rs:59-67 best_viable_tier *)
Definition best_viable_tier (profiles : list ConnectionProfile) : option FailoverTier :=
  min_by tier_compare (map profile_tier (List.filter is_working profiles)).

(* src: crates/dnet-core/src/posture.rs:38-57 select_posture *)
Definition select_posture (profiles : list ConnectionProfile) (paths : list NetworkPath) : RoutingPosture :=
  let has_carrying_path := existsb (fun p => bool_decide (role p = Carrying)) paths in
  if negb has_carrying_path then FailClosed
  else match best_viable_tier profiles with
       | Some tier => Tunnelled tier
       | None => FailClosed
       end.

(* src: crates/dnet-core/src/profile_start.rs:18-27 gateway_for_profile_a *)
Definition gateway_for_profile_a (carrying_path : NetworkPath) : result FailureCause IpAddr :=
  if negb (can_carry_profile_a carrying_path) then Err NoUsablePath
  else ok_or (gateway carrying_path) NoUsablePath.

(** * Lemmas *)

#[export] Instance tier_cmp_total : TotalCompare tier_cmp.
Proof. unfold tier_cmp. apply _. Qed.

Lemma tier_le_iff a b : le_by tier_compare a b ↔ (a = Tier2 → b = Tier2).
Proof. destruct a, b; unfold le_by, tier_compare; simpl; naive_solver. Qed.

Lemma filter_working_elem profiles p :
  p ∈ List.filter is_working profiles ↔ p ∈ profiles ∧ is_working p = true.
Proof. apply elem_of_filter_bool. Qed.

(** * Properties *)

(** A selection is never of a profile that is not working, and never a silent downgrade: what
    [select] chooses is a working profile of the set (the requested one, when one was named), it warns
    exactly when that profile is Tier 2, and a Tier 2 profile is chosen only if no Tier 1 profile works or
    the user named it and acknowledged it.  Each refusal names its true reason, and with no request there
    is always a choice unless nothing works. *)
Theorem select_sound profiles requested ack :
  match select profiles requested ack with
  | Ok s =>
      (∃ p, p ∈ profiles ∧ is_working p = true ∧ s = selected p) ∧
      (∀ wanted, requested = Some wanted → selected_profile s = wanted) ∧
      (warn_tier2 s = true ↔ selected_tier s = Tier2) ∧
      (selected_tier s = Tier2 →
        (∀ p, p ∈ profiles → is_working p = true → profile_tier p = Tier2) ∨
        (requested ≠ None ∧ ack = true))
  | Err NoViableProfile => requested = None ∧ ∀ p, p ∈ profiles → is_working p = false
  | Err (UnknownProfile id) => requested = Some id ∧ ∀ p, p ∈ profiles → profile_id p ≠ id
  | Err (NotViable id) => requested = Some id ∧ ∃ p, p ∈ profiles ∧ profile_id p = id ∧ is_working p = false
  | Err (TierDowngradeRequiresConsent id) =>
      requested = Some id ∧ ack = false ∧
      ∃ p, p ∈ profiles ∧ is_working p = true ∧ profile_tier p = Tier1
  end.
Proof.
  unfold select. destruct requested as [wanted|]; simpl.
  - destruct (List.find _ profiles) as [p|] eqn:E; simpl.
    + apply find_Some_elem in E as [Hp Hid%bool_decide_eq_true].
      destruct (is_working p) eqn:Hw; simpl; [|eauto].
      destruct (_ && _) eqn:Ec.
      * bool_simpl. split_and!; try done. apply existsb_exists_elem in H1 as (q & Hq & E).
        bool_simpl. eauto.
      * split_and!; [eauto|intros ? [= <-]; done|simpl; by rewrite bool_decide_eq_true|].
        simpl. intros Ht. rewrite bool_decide_eq_true_2 in Ec by done. simpl in Ec.
        destruct ack; [by right|]. rewrite andb_true_r in Ec. left. intros q Hq Hqw.
        destruct (profile_tier q) eqn:Eq; [|done].
        rewrite <-not_true_iff_false, existsb_exists_elem in Ec. destruct Ec. exists q.
        by rewrite Hqw, Eq.
    + split; [done|]. intros p Hp Hid. pose proof (find_None_elem _ _ E p Hp) as Hf.
      by apply bool_decide_eq_false in Hf.
  - destruct (min_by _ _) as [p|] eqn:E; simpl.
    + pose proof (min_by_elem tier_cmp _ _ E) as [Hp Hw]%filter_working_elem.
      split_and!; [eauto|done|by rewrite bool_decide_eq_true|]. intros Ht. left. intros q Hq Hqw.
      assert (le_by tier_cmp p q) as Hle
        by (eapply min_by_le; [exact _|exact E|by apply filter_working_elem]).
      by apply (tier_le_iff (profile_tier p) (profile_tier q)).
    + split; [done|]. apply min_by_None in E. intros p Hp. destruct (is_working p) eqn:Hw; [|done].
      assert (p ∈ List.filter is_working profiles) as Hin by (by apply filter_working_elem).
      rewrite E in Hin. by apply elem_of_nil in Hin.
Qed.

(** The kill switch: traffic is tunnelled exactly when a path carries and a profile works, at the
    best tier that works; in every other situation the posture is fail-closed. *)
Theorem posture_fail_closed profiles paths :
  (select_posture profiles paths = FailClosed ↔
    (∀ p, p ∈ paths → role p ≠ Carrying) ∨ (∀ p, p ∈ profiles → is_working p = false)) ∧
  (∀ tier, select_posture profiles paths = Tunnelled tier ↔
    (∃ p, p ∈ paths ∧ role p = Carrying) ∧
    (∃ p, p ∈ profiles ∧ is_working p = true ∧ profile_tier p = tier) ∧
    (tier = Tier2 → ∀ p, p ∈ profiles → is_working p = true → profile_tier p = Tier2)).
Proof.
  assert (Hpath : existsb (fun p => bool_decide (role p = Carrying)) paths = true ↔
    ∃ p, p ∈ paths ∧ role p = Carrying).
  { rewrite existsb_exists_elem. by setoid_rewrite bool_decide_eq_true. }
  assert (Hnone : best_viable_tier profiles = None ↔ ∀ p, p ∈ profiles → is_working p = false).
  { unfold best_viable_tier. rewrite min_by_None. split.
    - intros E%map_eq_nil p Hp. destruct (is_working p) eqn:Hw; [|done].
      assert (p ∈ List.filter is_working profiles) as Hin by (by apply filter_working_elem).
      rewrite E in Hin. by apply elem_of_nil in Hin.
    - intros H. destruct (List.filter is_working profiles) as [|p l] eqn:E; [done|].
      assert (p ∈ List.filter is_working profiles) as [Hp Hw]%filter_working_elem by (rewrite E; set_solver).
      by rewrite H in Hw. }
  assert (Hsome : ∀ tier, best_viable_tier profiles = Some tier ↔
    (∃ p, p ∈ profiles ∧ is_working p = true ∧ profile_tier p = tier) ∧
    (tier = Tier2 → ∀ p, p ∈ profiles → is_working p = true → profile_tier p = Tier2)).
  { intros tier. split.
    - unfold best_viable_tier. intros E.
      pose proof (min_by_elem tier_compare _ _ E) as (p & Ht & [Hp Hw]%filter_working_elem)%elem_of_map.
      split; [eauto|]. intros -> q Hq Hqw.
      assert (le_by tier_compare Tier2 (profile_tier q)) as Hle.
      { eapply min_by_le; [exact _|exact E|]. apply elem_of_map. exists q. by rewrite filter_working_elem. }
      by apply (proj1 (tier_le_iff _ _) Hle).
    - intros [(p & Hp & Hw & Ht) H2]. destruct (best_viable_tier profiles) as [t|] eqn:E.
      + unfold best_viable_tier in E. f_equal.
        pose proof (min_by_elem tier_compare _ _ E) as (q & Ht' & [Hq Hqw]%filter_working_elem)%elem_of_map.
        assert (le_by tier_compare t tier) as Hle.
        { eapply min_by_le; [exact _|exact E|]. apply elem_of_map. exists p. by rewrite filter_working_elem. }
        rewrite tier_le_iff in Hle. destruct t, tier; try done; [|by rewrite Hle].
        rewrite Ht'. by apply H2.
      + rewrite (proj1 Hnone eq_refl p Hp) in Hw. done. }
  unfold select_posture. destruct (existsb _ _) eqn:Ep; simpl.
  - destruct (proj1 Hpath eq_refl) as (q & Hq & Hr). destruct (best_viable_tier profiles) as [t|] eqn:E.
    + split.
      * split; [done|]. intros [Hn|Hn]; [by destruct (Hn q)|]. by apply Hnone in Hn.
      * intros tier. rewrite <-Hsome. split; [intros [= <-]; eauto|]. by intros (_ & [= <-]).
    + split; [split; [intros _; right; by apply Hnone|done]|].
      intros tier. rewrite <-Hsome. split; [done|]. by intros [_ [=]].
  - assert (¬ ∃ p, p ∈ paths ∧ role p = Carrying) as Hno by (by rewrite <-Hpath).
    split; [split; [intros _; left; eauto|done]|]. intros tier. split; [done|]. by intros [? _].
Qed.

(** Profile A starts only through a gateway: the guard yields the carrying path's own gateway, and
    refuses with [NoUsablePath] exactly when there is none. *)
Theorem gateway_guard p :
  match gateway_for_profile_a p with
  | Ok g => gateway p = Some g
  | Err c => c = NoUsablePath ∧ gateway p = None
  end.
Proof. unfold gateway_for_profile_a, can_carry_profile_a. by destruct (gateway p). Qed.
