(* ===== verification/Engine.v ===== *)
(** The connection engine: the state machine that joins the decision modules
    (crates/dnet-core/src/engine.rs).  A step takes the engine and an input to the engine after it and
    the actions asked for; [None] is a panic. *)

From S2P Require Import Prelude Float Text Profile Health Endpoint IpText Quality Degraded Session.
From S2P Require Import Reprobe Migrate Probe.

(** * State, inputs and actions *)

(* src: crates/dnet-core/src/engine.rs:53-74 Phase *)
Inductive Phase : Type :=
  | Idle
  | Probing
  | Starting (profile : ProfileId) (endpoint : EndpointId)
  | Connected (profile : ProfileId) (endpoint : EndpointId)
  | Recovering
  | PhaseFailed (cause : FailureCause).

#[export] Instance Phase_eq_dec : EqDecision Phase.
Proof. solve_decision. Defined.

(* src: crates/dnet-core/src/engine.rs:76-87 Environment *)
Record Environment : Type := mkEnvironment {
  env_privileged : bool;
  env_usable_paths : Z;
  env_captive_portal : bool;
  env_configuration_error : option string;
}.

(* src: crates/dnet-core/src/engine.rs:89-98 Environment::default *)
Definition environment_default : Environment := {|
  env_privileged := true;
  env_usable_paths := 1;
  env_captive_portal := false;
  env_configuration_error := None;
|}.

(* src: crates/dnet-core/src/engine.rs:100-143 Input *)
Inductive Input : Type :=
  | Connect (profile : option ProfileId)
  | Disconnect
  | RaceFinished (decision : RaceDecision) (results : list (ProfileId * ProfileProbe))
  | TunnelUp
  | StartFailed (cause : FailureCause)
  | InputLiveCheck (check : LiveCheck)
  | InputEndpointProbe (endpoint : EndpointId) (outcome : ProbeOutcome)
  | InputEnvironment (environment : Environment)
  | InputPathChanged (from : option InterfaceId) (to : InterfaceId)
  | Connectivity (change : Change)
  | InputReach (reach : list Reach).

(* src: crates/dnet-core/src/engine.rs:145-167 Action *)
Inductive Action : Type :=
  | Emit (event : ConnectionEvent)
  | StartRace (profiles : list ProfileId) (endpoint : EndpointId)
  | CancelRace
  | StartTunnel (profile : ProfileId) (endpoint : EndpointId)
  | StopTunnel
  | WarnTier2 (profile : ProfileId).

#[export] Instance Action_eq_dec : EqDecision Action.
Proof. solve_decision. Defined.

(* src: crates/dnet-core/src/engine.rs:169-186 Engine *)
Record Engine : Type := mkEngine {
  e_profiles : list ConnectionProfile;
  e_endpoints : list Endpoint;
  e_phase : Phase;
  e_environment : Environment;
  e_reach : list Reach;
  e_detector : BlockDetector;
  e_endpoint : option EndpointId;
  e_raced : list ProfileId;
  e_replacing : option ProfileId;
  e_requested : option ProfileId;
}.

(** The assignments to one field. *)
Definition set_profiles v e := mkEngine v (e_endpoints e) (e_phase e) (e_environment e) (e_reach e) (e_detector e) (e_endpoint e) (e_raced e) (e_replacing e) (e_requested e).
Definition set_endpoints v e := mkEngine (e_profiles e) v (e_phase e) (e_environment e) (e_reach e) (e_detector e) (e_endpoint e) (e_raced e) (e_replacing e) (e_requested e).
Definition set_phase v e := mkEngine (e_profiles e) (e_endpoints e) v (e_environment e) (e_reach e) (e_detector e) (e_endpoint e) (e_raced e) (e_replacing e) (e_requested e).
Definition set_environment v e := mkEngine (e_profiles e) (e_endpoints e) (e_phase e) v (e_reach e) (e_detector e) (e_endpoint e) (e_raced e) (e_replacing e) (e_requested e).
Definition set_reach v e := mkEngine (e_profiles e) (e_endpoints e) (e_phase e) (e_environment e) v (e_detector e) (e_endpoint e) (e_raced e) (e_replacing e) (e_requested e).
Definition set_detector v e := mkEngine (e_profiles e) (e_endpoints e) (e_phase e) (e_environment e) (e_reach e) v (e_endpoint e) (e_raced e) (e_replacing e) (e_requested e).
Definition set_endpoint v e := mkEngine (e_profiles e) (e_endpoints e) (e_phase e) (e_environment e) (e_reach e) (e_detector e) v (e_raced e) (e_replacing e) (e_requested e).
Definition set_raced v e := mkEngine (e_profiles e) (e_endpoints e) (e_phase e) (e_environment e) (e_reach e) (e_detector e) (e_endpoint e) v (e_replacing e) (e_requested e).
Definition set_replacing v e := mkEngine (e_profiles e) (e_endpoints e) (e_phase e) (e_environment e) (e_reach e) (e_detector e) (e_endpoint e) (e_raced e) v (e_requested e).
Definition set_requested v e := mkEngine (e_profiles e) (e_endpoints e) (e_phase e) (e_environment e) (e_reach e) (e_detector e) (e_endpoint e) (e_raced e) (e_replacing e) v.

(* src: crates/dnet-core/src/engine.rs:189-202 Engine::new *)
Definition engine_new (profiles : list ConnectionProfile) (endpoints : list Endpoint) : Engine := {|
  e_profiles := profiles;
  e_endpoints := endpoints;
  e_phase := Idle;
  e_environment := environment_default;
  e_reach := [];
  e_detector := detector_new;
  e_endpoint := None;
  e_raced := [];
  e_replacing := None;
  e_requested := None;
|}.

(** * Helpers *)

Definition has_id (id : ProfileId) (p : ConnectionProfile) : bool := bool_decide (profile_id p = id).

(* src: crates/dnet-core/src/engine.rs:670-687 Engine::classify *)
Definition engine_classify (e : Engine) (after_race : bool) : option FailureCause :=
  let reach := imap (fun i _ =>
    match after_race, e_reach e !! i with
    | true, Some r => r
    | _, _ => UnknownReach
    end) (e_endpoints e) in
  classify {|
    privileged := env_privileged (e_environment e);
    configuration_error := env_configuration_error (e_environment e);
    core_failed := None;
    usable_paths := env_usable_paths (e_environment e);
    captive_portal := env_captive_portal (e_environment e);
    endpoint_reach := reach;
    profiles := e_profiles e;
  |}.

(* src: crates/dnet-core/src/engine.rs:689-693 Engine::is_probeable *)
Definition is_probeable (e : Engine) (id : ProfileId) : bool :=
  existsb (fun p => has_id id p && proxy_probeable (profile_kind p)) (e_profiles e).

(* src: crates/dnet-core/src/engine.rs:695-701 Engine::probeable_ids *)
Definition probeable_ids (e : Engine) : list ProfileId :=
  map profile_id (List.filter (fun p => proxy_probeable (profile_kind p)) (e_profiles e)).

(* src: crates/dnet-core/src/engine.rs:703-718 Engine::named_profile_failed *)
Definition named_profile_failed (e : Engine) : option FailureCause :=
  name ← e_requested e;
  let reason :=
    match head (omap (fun p =>
      match profile_viability p with
      | Blocked _ reason => if has_id name p then Some reason else None
      | _ => None
      end) (e_profiles e)) with
    | Some reason => reason
    | None => "it did not work"
    end in
  Some (ConfigurationInvalid (name +:+ " did not work on this network (" +:+ reason +:+
    "); connect without naming a profile to try the others")).

(* src: crates/dnet-core/src/engine.rs:720-736 Engine::direct_fallback *)
Definition direct_fallback (e : Engine) : option ProfileId :=
  let raced_all_failed :=
    forallb is_blocked (List.filter (fun p => proxy_probeable (profile_kind p)) (e_profiles e)) in
  if negb raced_all_failed then None
  else
    option_map profile_id
      (List.find (fun p => negb (proxy_probeable (profile_kind p)) &&
        bool_decide (profile_viability p = Untested)) (e_profiles e)).

(* src: crates/dnet-core/src/engine.rs:738-742 Engine::mark_working *)
Definition engine_mark_working (e : Engine) (id : ProfileId) (now : Instant) : Engine :=
  set_profiles (update_first (has_id id) (mark_working now) (e_profiles e)) e.

(* src: crates/dnet-core/src/engine.rs:744-753 Engine::mark_blocked *)
Definition engine_mark_blocked (e : Engine) (id : ProfileId) (now : Instant) (reason : string) :
    Engine * list Action :=
  match List.find (has_id id) (e_profiles e) with
  | None => (e, [])
  | Some _ =>
      (set_profiles (update_first (has_id id) (mark_blocked now reason) (e_profiles e)) e,
       [Emit (ProfileBlocked id reason)])
  end.

(* src: crates/dnet-core/src/engine.rs:756-766 unusable_reason *)
Definition unusable_reason (why : Unusable) : string :=
  match why with
  | UnusableHandshakeFailed => "could not connect"
  | NoTraffic => "connected, but no data came through"
  | TooLittleData => "too little data came through to judge it"
  | TooSlow => "too slow to be useful"
  | InvalidMeasurement => "the probe measurement was not valid"
  end.

(* src: crates/dnet-core/src/engine.rs:610-625 Engine::start_race *)
Definition start_race (e : Engine) (profiles : list ProfileId) (endpoint : EndpointId) (phase : Phase) :
    Engine * list Action :=
  (set_phase phase (set_raced profiles e),
   (if bool_decide (phase = Probing) then [Emit ProbeStarted] else []) ++ [StartRace profiles endpoint]).

(* src: crates/dnet-core/src/engine.rs:627-654 Engine::start_tunnel *)
Definition start_tunnel (e : Engine) (profile : ProfileId) (endpoint : EndpointId) (because : string) :
    Engine * list Action :=
  let tier2 :=
    match List.find (has_id profile) (e_profiles e) with
    | Some p => bool_decide (profile_tier p = Tier2)
    | None => false
    end in
  (set_phase (Starting profile endpoint) (set_detector (reset (e_detector e)) e),
   [Emit (ProfileSelected profile because)] ++
   (if tier2 then [WarnTier2 profile] else []) ++
   [StartTunnel profile endpoint]).

(* src: crates/dnet-core/src/engine.rs:656-668 Engine::fail *)
Definition fail_with (e : Engine) (cause : FailureCause) (stop_tunnel : bool) : Engine * list Action :=
  (set_replacing None (set_raced [] (set_phase (PhaseFailed cause) e)),
   (if stop_tunnel then [StopTunnel] else []) ++ [Emit (FailedEvent cause)]).

(* src: crates/dnet-core/src/engine.rs:412-420 Engine::race_because *)
Definition race_because (e : Engine) (winner : ProfileId) (bits_per_sec : Z) : string :=
  let mbit := f64_div (f64_of_Z bits_per_sec) (f64_of_Z 1000000) in
  let base := winner +:+ " carried traffic best in the probe race, at about " +:+
    format_tenths mbit +:+ " Mbit/s" in
  match e_replacing e with
  | Some old => base +:+ "; it replaces " +:+ old +:+ ", which the network blocked"
  | None => base
  end.

(* src: crates/dnet-core/src/engine.rs:422-430 Engine::fallback_because *)
Definition fallback_because (e : Engine) (id : ProfileId) (recovering : bool) : string :=
  let base := "no other profile worked on this network, so " +:+ id +:+
    " is started directly (it cannot be tested ahead of time)" in
  match e_replacing e, recovering with
  | Some old, true => base +:+ "; it replaces " +:+ old +:+ ", which the network blocked"
  | _, _ => base
  end.

(** * Handlers *)

(* src: crates/dnet-core/src/engine.rs:252-263 Engine::connect *)
Definition connect_reset (e : Engine) (requested : option ProfileId) : Engine :=
  set_requested requested (set_reach [] (set_replacing None (set_raced [] (
    set_detector (reset (e_detector e)) (set_profiles (map reset_viability (e_profiles e)) e))))).

(* src: crates/dnet-core/src/engine.rs:281-305 Engine::connect *)
Definition connect_with (e : Engine) (requested : option ProfileId) (endpoint : EndpointId) :
    Engine * list Action :=
  match requested with
  | Some id =>
      if negb (is_probeable e id) then
        start_tunnel e id endpoint
          ("you asked for " +:+ id +:+ " by name; it cannot be tested ahead of time, so it is started directly")
      else start_race e [id] endpoint Probing
  | None =>
      match probeable_ids e with
      | [] =>
          match direct_fallback e with
          | Some id =>
              start_tunnel e id endpoint
                (id +:+ " is the only profile configured; it cannot be tested ahead of time, so it is started directly")
          | None => fail_with e AllProfilesBlocked false
          end
      | probeable => start_race e probeable endpoint Probing
      end
  end.

(* src: crates/dnet-core/src/engine.rs:252-306 Engine::connect *)
Definition connect (e : Engine) (requested : option ProfileId) : Engine * list Action :=
  match e_phase e with
  | Idle | PhaseFailed _ =>
      let e := connect_reset e requested in
      match engine_classify e false with
      | Some cause => fail_with e cause false
      | None =>
          match requested with
          | Some id =>
              if negb (existsb (has_id id) (e_profiles e)) then
                fail_with e (ConfigurationInvalid ("there is no connection profile named " +:+ id)) false
              else
                match rank (e_endpoints e) with
                | [] => fail_with e NoEndpointReachable false
                | endpoint :: _ => connect_with (set_endpoint (Some endpoint) e) requested endpoint
                end
          | None =>
              match rank (e_endpoints e) with
              | [] => fail_with e NoEndpointReachable false
              | endpoint :: _ => connect_with (set_endpoint (Some endpoint) e) requested endpoint
              end
          end
      end
  | _ => (e, [])
  end.

(* src: crates/dnet-core/src/engine.rs:308-318 Engine::disconnect *)
Definition disconnect (e : Engine) : Engine * list Action :=
  let actions :=
    match e_phase e with
    | Idle | PhaseFailed _ => []
    | Probing | Recovering => [CancelRace]
    | Starting _ _ | Connected _ _ => [StopTunnel]
    end in
  (set_replacing None (set_raced [] (set_phase Idle e)), actions).

(* src: crates/dnet-core/src/engine.rs:382-390 Engine::record_results *)
Fixpoint record_each (e : Engine) (results : list (ProfileId * ProfileProbe)) (now : Instant) :
    Engine * list Action :=
  match results with
  | [] => (e, [])
  | (id, probe) :: results =>
      let '(e, actions) :=
        match judge probe with
        | Usable _ => (engine_mark_working e id now, [])
        | NotUsable why => engine_mark_blocked e id now (unusable_reason why)
        end in
      let '(e, more) := record_each e results now in
      (e, actions ++ more)
  end.

(* src: crates/dnet-core/src/engine.rs:401-403 Engine::record_results *)
Fixpoint block_silent (e : Engine) (silent : list ProfileId) (now : Instant) : Engine * list Action :=
  match silent with
  | [] => (e, [])
  | id :: silent =>
      let '(e, actions) := engine_mark_blocked e id now "did not respond in time" in
      let '(e, more) := block_silent e silent now in
      (e, actions ++ more)
  end.

(* src: crates/dnet-core/src/engine.rs:373-410 Engine::record_results *)
Definition record_results (e : Engine) (decision : RaceDecision) (results : list (ProfileId * ProfileProbe))
    (now : Instant) : Engine * list Action :=
  let reported := map fst results in
  let '(e, actions) := record_each e results now in
  let '(e, actions) :=
    match decision with
    | NoneUsable =>
        let silent := List.filter (fun id => negb (bool_decide (id ∈ reported))) (e_raced e) in
        let '(e, more) := block_silent e silent now in (e, actions ++ more)
    | _ => (e, actions)
    end in
  let e :=
    match decision with
    | Selected profile _ _ => engine_mark_working e profile now
    | _ => e
    end in
  (set_raced [] e, actions).

(* src: crates/dnet-core/src/engine.rs:335-339 Engine::race_finished *)
Definition stale_winner (e : Engine) (decision : RaceDecision) : bool :=
  match decision with
  | Selected profile _ _ => negb (bool_decide (profile ∈ e_raced e))
  | _ => false
  end.

(* src: crates/dnet-core/src/engine.rs:353-367 Engine::race_finished *)
Definition none_usable (e : Engine) (endpoint : EndpointId) (recovering : bool) :
    option (Engine * list Action) :=
  match engine_classify e true with
  | Some cause => Some (fail_with e cause false)
  | None =>
      if negb recovering && bool_decide (e_requested e ≠ None) then
        cause ← named_profile_failed e;
        Some (fail_with e cause false)
      else
        match direct_fallback e with
        | Some id => Some (start_tunnel e id endpoint (fallback_because e id recovering))
        | None => Some (fail_with e AllProfilesBlocked false)
        end
  end.

(* src: crates/dnet-core/src/engine.rs:322-371 Engine::race_finished *)
Definition race_finished (e : Engine) (decision : RaceDecision) (results : list (ProfileId * ProfileProbe))
    (now : Instant) : option (Engine * list Action) :=
  match e_phase e with
  | Probing | Recovering =>
      if bool_decide (decision = Pending) then Some (e, [])
      else if stale_winner e decision then Some (e, [])
      else
        endpoint ← e_endpoint e;
        let recovering := bool_decide (e_phase e = Recovering) in
        let '(e, actions) := record_results e decision results now in
        match decision with
        | Selected profile _ bits_per_sec =>
            let '(e', more) := start_tunnel e profile endpoint (race_because e profile bits_per_sec) in
            Some (e', actions ++ more)
        | NoneUsable =>
            '(e', more) ← none_usable e endpoint recovering;
            Some (e', actions ++ more)
        | Pending => Some (e, actions)
        end
  | _ => Some (e, [])
  end.

(* src: crates/dnet-core/src/engine.rs:434-443 Engine::tunnel_up *)
Definition tunnel_up (e : Engine) (now : Instant) : Engine * list Action :=
  match e_phase e with
  | Starting profile endpoint =>
      let e := engine_mark_working e profile now in
      (set_phase (Connected profile endpoint) (set_replacing None (set_detector (reset (e_detector e)) e)), [])
  | _ => (e, [])
  end.

(* src: crates/dnet-core/src/engine.rs:445-465 Engine::path_changed *)
Definition path_changed (e : Engine) (from : option InterfaceId) (to : InterfaceId) : Engine * list Action :=
  match e_phase e with
  | Connected profile _ =>
      match option_map profile_tier (List.find (has_id profile) (e_profiles e)) with
      | Some tier => (e, [Emit (PathChanged from to tier)])
      | None => (e, [])
      end
  | _ => (e, [])
  end.

(* src: crates/dnet-core/src/engine.rs:467-483 Engine::connectivity *)
Definition connectivity (e : Engine) (change : Change) : Engine * list Action :=
  match e_phase e with
  | Connected _ _ =>
      let event :=
        match change with
        | ChangeDegraded d => DegradedEvent (deg_path d) (deg_band d) (deg_staying d)
        | ChangeRecovered path => RecoveredEvent path
        end in
      (e, [Emit event])
  | _ => (e, [])
  end.

Section Step.
Context `{UuidDisplay}.

(** The inner [None] keeps the tunnel; the outer one is a panic. *)
(* src: crates/dnet-core/src/engine.rs:558-583 Engine::relocate_tunnel *)
Definition relocate_tunnel (e : Engine) (profile : ProfileId) (active : EndpointId) :
    option (option (Engine * list Action)) :=
  migration ← plan_migration (e_endpoints e) active;
  match migration with
  | Stay => Some None
  | MoveTo to event =>
      Some (Some
        (set_phase (Starting profile to) (set_detector (reset (e_detector e)) (set_endpoint (Some to) e)),
         [Emit event; StopTunnel; StartTunnel profile to]))
  | MigrationNoEndpointReachable => Some (Some (fail_with e NoEndpointReachable true))
  end.

(* src: crates/dnet-core/src/engine.rs:585-606 Engine::relocate_race *)
Definition relocate_race (e : Engine) (active : EndpointId) : option (option (Engine * list Action)) :=
  migration ← plan_migration (e_endpoints e) active;
  match migration with
  | Stay => Some None
  | MoveTo to event =>
      Some (Some (set_endpoint (Some to) e, [Emit event; CancelRace; StartRace (e_raced e) to]))
  | MigrationNoEndpointReachable =>
      let '(e, actions) := fail_with e NoEndpointReachable false in
      Some (Some (e, CancelRace :: actions))
  end.

(* src: crates/dnet-core/src/engine.rs:500-527 Engine::live_check *)
Definition recover (e : Engine) (profile : ProfileId) (endpoint : EndpointId) (failures : Z) (now : Instant) :
    option (Engine * list Action) :=
  let reason := "stopped carrying traffic: " +:+ pretty failures +:+ " live checks failed in a row" in
  let '(e, actions) := engine_mark_blocked e profile now reason in
  let actions := actions ++ [StopTunnel] in
  let e := set_replacing (Some profile) e in
  match plan_reprobe (e_profiles e) profile with
  | AllBlocked =>
      let '(e, more) := fail_with e AllProfilesBlocked false in Some (e, actions ++ more)
  | Try candidates =>
      match List.filter (is_probeable e) candidates with
      | [] =>
          direct ← head candidates;
          let '(e, more) := start_tunnel e direct endpoint (fallback_because e direct true) in
          Some (e, actions ++ more)
      | probeable =>
          let '(e, more) := start_race e probeable endpoint Recovering in Some (e, actions ++ more)
      end
  end.

(* src: crates/dnet-core/src/engine.rs:485-528 Engine::live_check *)
Definition live_check (e : Engine) (check : LiveCheck) (now : Instant) : option (Engine * list Action) :=
  match e_phase e with
  | Connected profile endpoint =>
      let '(detector, detection) := Reprobe.observe (e_detector e) check in
      let e := set_detector detector e in
      match detection with
      | DetectedBlocked failures =>
          match engine_classify e false with
          | Some cause => Some (fail_with e cause true)
          | None =>
              relocated ← relocate_tunnel e profile endpoint;
              match relocated with
              | Some moved => Some moved
              | None => recover e profile endpoint failures now
              end
          end
      | _ => Some (e, [])
      end
  | _ => Some (e, [])
  end.

(* src: crates/dnet-core/src/engine.rs:530-556 Engine::endpoint_probe *)
Definition endpoint_probe (e : Engine) (endpoint : EndpointId) (outcome : ProbeOutcome) (now : Instant) :
    option (Engine * list Action) :=
  match List.find (fun ep => bool_decide (endpoint_id ep = endpoint)) (e_endpoints e) with
  | None => Some (e, [])
  | Some known =>
      transition ← on_probe (endpoint_health known) outcome now health_config_default;
      let e := set_endpoints
        (update_first (fun ep => bool_decide (endpoint_id ep = endpoint)) (set_health (next transition))
          (e_endpoints e)) e in
      if negb (bool_decide (e_endpoint e = Some endpoint)) || negb (became_unreachable transition)
      then Some (e, [])
      else
        match e_phase e with
        | Connected profile _ | Starting profile _ =>
            moved ← relocate_tunnel e profile endpoint;
            Some (default (e, []) moved)
        | Probing | Recovering =>
            moved ← relocate_race e endpoint;
            Some (default (e, []) moved)
        | Idle | PhaseFailed _ => Some (e, [])
        end
  end.

(* src: crates/dnet-core/src/engine.rs:216-248 Engine::step *)
Definition step (e : Engine) (input : Input) (now : Instant) : option (Engine * list Action) :=
  match input with
  | Connect profile => Some (connect e profile)
  | Disconnect => Some (disconnect e)
  | RaceFinished decision results => race_finished e decision results now
  | TunnelUp => Some (tunnel_up e now)
  | StartFailed cause =>
      match e_phase e with
      | Starting _ _ => Some (fail_with e cause true)
      | _ => Some (e, [])
      end
  | InputLiveCheck check => live_check e check now
  | InputEndpointProbe endpoint outcome => endpoint_probe e endpoint outcome now
  | InputEnvironment environment => Some (set_environment environment e, [])
  | InputPathChanged from to => Some (path_changed e from to)
  | Connectivity change => Some (connectivity e change)
  | InputReach reach => Some (set_reach reach e, [])
  end.

(** A run of the engine from [e]: the inputs with their times, and the actions of each step. *)
Inductive steps : Engine → list (Input * Instant) → list (list Action) → Engine → Prop :=
  | steps_nil e : steps e [] [] e
  | steps_cons e i now e1 acts ins actss e2 :
      step e i now = Some (e1, acts) → steps e1 ins actss e2 →
      steps e ((i, now) :: ins) (acts :: actss) e2.

(** The same run, computed. *)
Fixpoint run_inputs (e : Engine) (ins : list (Input * Instant)) : option (Engine * list (list Action)) :=
  match ins with
  | [] => Some (e, [])
  | (i, now) :: ins =>
      '(e1, acts) ← step e i now;
      '(e2, actss) ← run_inputs e1 ins;
      Some (e2, acts :: actss)
  end.

Lemma run_inputs_steps e ins e' actss :
  run_inputs e ins = Some (e', actss) → steps e ins actss e'.
Proof.
  revert e actss. induction ins as [|[i now] ins IH]; intros e actss Hr; simpl in Hr.
  - injection Hr as <- <-. constructor.
  - apply bind_Some in Hr as ([e1 acts] & Hs & Hr).
    apply bind_Some in Hr as ([e2 actss2] & Hr & [= <- <-]).
    econstructor; [exact Hs|by apply IH].
Qed.
End Step.
