(* ===== verification/EngineSafety.v ===== *)
(** What the connection engine guarantees: a specification of a step as the change of what the daemon
    is running, the proof that [Engine.step] implements it, and the properties that follow. *)

From S2P Require Import Prelude Float Text Profile Health Endpoint IpText Quality Degraded Session.
From S2P Require Import Reprobe Migrate Probe Engine.

(** * The daemon

    What the engine's actions make the daemon do: it runs nothing, one race, or one tunnel.  An action
    that does not fit what is running (a second tunnel, a race beside a tunnel, cancelling a race that
    is not running) is an error, [None]. *)

Inductive Daemon : Type :=
  | Quiet
  | Racing (profiles : list ProfileId) (endpoint : EndpointId)
  | Tunnel (profile : ProfileId) (endpoint : EndpointId).

Definition perform (d : Daemon) (a : Action) : option Daemon :=
  match a, d with
  | Emit _, _ | WarnTier2 _, _ => Some d
  | StartRace ((_ :: _) as ps) ep, Quiet => Some (Racing ps ep)
  | CancelRace, Racing _ _ => Some Quiet
  | StartTunnel p ep, Quiet => Some (Tunnel p ep)
  | StopTunnel, Tunnel _ _ => Some Quiet
  | _, _ => None
  end.

Fixpoint perform_all (d : Daemon) (acts : list Action) : option Daemon :=
  match acts with
  | [] => Some d
  | a :: acts => d' ← perform d a; perform_all d' acts
  end.

(** A race that reports its result is over.  (A winner that is not one of the profiles raced comes
    from an earlier race, and says nothing about this one.) *)
Definition after_input (d : Daemon) (i : Input) : Daemon :=
  match d, i with
  | Racing ps _, RaceFinished (Selected p _ _) _ => if bool_decide (p ∈ ps) then Quiet else d
  | Racing _ _, RaceFinished NoneUsable _ => Quiet
  | _, _ => d
  end.

(** What runs while the engine is in a phase. *)
Definition running (e : Engine) : Daemon :=
  match e_phase e with
  | Idle | PhaseFailed _ => Quiet
  | Probing | Recovering => match e_endpoint e with Some ep => Racing (e_raced e) ep | None => Quiet end
  | Starting p ep | Connected p ep => Tunnel p ep
  end.

Definition ids (e : Engine) : list ProfileId := map profile_id (e_profiles e).

(** What never changes of a profile: its id, kind and tier. *)
Definition static (p : ConnectionProfile) : ProfileId * ProfileKind * FailoverTier :=
  (profile_id p, profile_kind p, profile_tier p).
Definition statics (e : Engine) := map static (e_profiles e).
Definition endpoint_ids (e : Engine) : list EndpointId := map endpoint_id (e_endpoints e).

(** The invariant of the engine's own state. *)
Definition wf (e : Engine) : Prop :=
  match e_phase e with
  | Idle | PhaseFailed _ => True
  | Probing =>
      (∃ ep, e_endpoint e = Some ep) ∧ e_raced e ≠ [] ∧ (∀ p, p ∈ e_raced e → p ∈ ids e) ∧
      (∀ p, e_requested e = Some p → e_raced e = [p])
  | Recovering =>
      (∃ ep, e_endpoint e = Some ep) ∧ e_raced e ≠ [] ∧ (∀ p, p ∈ e_raced e → p ∈ ids e) ∧
      e_replacing e ≠ None
  | Starting p ep | Connected p ep => e_endpoint e = Some ep ∧ p ∈ ids e
  end.

(** How what is running ends, when a step ends it. *)
Definition closing (e : Engine) (i : Input) : list Action :=
  match e_phase e with
  | Idle | PhaseFailed _ => []
  | Probing | Recovering => match i with RaceFinished _ _ => [] | _ => [CancelRace] end
  | Starting _ _ | Connected _ _ => [StopTunnel]
  end.

(** A report that is neither a failure nor a choice of profile. *)
Definition is_report (a : Action) : bool :=
  match a with
  | Emit (FailedEvent _) | Emit (ProfileSelected _ _) => false
  | Emit _ => true
  | _ => false
  end.
Definition reports (acts : list Action) : Prop := Forall (fun a => is_report a = true) acts.

Definition tier2 (e : Engine) (p : ProfileId) : bool :=
  match List.find (has_id p) (e_profiles e) with
  | Some p => bool_decide (profile_tier p = Tier2)
  | None => false
  end.

(** The profiles an engine is using: racing, starting or connected with. *)
Definition in_use (e : Engine) : list ProfileId :=
  match e_phase e with
  | Idle | PhaseFailed _ => []
  | Probing | Recovering => e_raced e
  | Starting p _ | Connected p _ => [p]
  end.

(** Nothing that bears on the connection changed. *)
Record same (e e' : Engine) : Prop := {
  same_statics : statics e' = statics e;
  same_endpoints : endpoint_ids e' = endpoint_ids e;
  same_phase : e_phase e' = e_phase e;
  same_endpoint : e_endpoint e' = e_endpoint e;
  same_raced : e_raced e' = e_raced e;
  same_replacing : e_replacing e' = e_replacing e;
  same_requested : e_requested e' = e_requested e;
}.

(** What a step starts once what was running has ended. *)
Inductive opens (e : Engine) (i : Input) (pre : list Action) (e' : Engine) : list Action → Prop :=
  | opens_idle :
      i = Disconnect → e_phase e' = Idle → opens e i pre e' []
  | opens_failed cause :
      e_phase e' = PhaseFailed cause → opens e i pre e' [Emit (FailedEvent cause)]
  | opens_selected p ep because :
      e_phase e' = Starting p ep → e_endpoint e' = Some ep → p ∈ ids e →
      (∀ q, e_phase e = Probing → e_requested e = Some q → p = q) →
      (∀ q, i = Connect (Some q) → p = q) →
      (∀ q ep0, e_phase e ≠ Starting q ep0) →
      (in_use e = [] → ∃ r, i = Connect r) →
      (∀ old ep0, e_phase e = Connected old ep0 →
        p ≠ old ∧ ∃ reason, pre = [Emit (ProfileBlocked old reason)]) →
      opens e i pre e' ([Emit (ProfileSelected p because)] ++
        (if tier2 e p then [WarnTier2 p] else []) ++ [StartTunnel p ep])
  | opens_moved p from to because :
      (∃ ep, e_phase e = Starting p ep ∨ e_phase e = Connected p ep) →
      e_phase e' = Starting p to → e_endpoint e' = Some to →
      pre = [Emit (EndpointMigrated from to because)] →
      opens e i pre e' [StartTunnel p to]
  | opens_race ps ep :
      e_phase e' = Probing → e_endpoint e' = Some ep → e_raced e' = ps → ps ≠ [] →
      (∀ p, p ∈ ps → p ∈ ids e) → (∀ p, e_requested e' = Some p → ps = [p]) →
      (∃ r, i = Connect r) → opens e i pre e' [Emit ProbeStarted; StartRace ps ep]
  | opens_recovery old ps ep :
      e_phase e = Connected old ep → e_phase e' = Recovering → e_endpoint e' = Some ep →
      e_raced e' = ps → ps ≠ [] → e_replacing e' = Some old →
      (∃ reason, pre = [Emit (ProfileBlocked old reason)]) →
      (∀ p, p ∈ ps → p ≠ old ∧ ∃ q, q ∈ e_profiles e' ∧ profile_id q = p ∧ is_blocked q = false) →
      opens e i pre e' [StartRace ps ep]
  | opens_race_moved from to because :
      e_phase e = Probing ∨ e_phase e = Recovering → (∀ d r, i ≠ RaceFinished d r) →
      e_phase e' = e_phase e → e_endpoint e' = Some to → e_raced e' = e_raced e →
      e_replacing e' = e_replacing e → e_requested e' = e_requested e →
      pre = [Emit (EndpointMigrated from to because)] →
      opens e i pre e' [StartRace (e_raced e) to].

(** A step, as the daemon sees it. *)
Inductive outcome (e : Engine) (i : Input) (e' : Engine) : list Action → Prop :=
  | out_stay acts :
      same e e' → reports acts → after_input (running e) i = running e → outcome e i e' acts
  | out_up p ep :
      i = TunnelUp → e_phase e = Starting p ep → e_phase e' = Connected p ep →
      e_endpoint e' = e_endpoint e → statics e' = statics e → endpoint_ids e' = endpoint_ids e →
      e_requested e' = e_requested e →
      (∃ q now, q ∈ e_profiles e' ∧ profile_id q = p ∧ profile_viability q = Working now) →
      outcome e i e' []
  | out_replace pre opening :
      statics e' = statics e → endpoint_ids e' = endpoint_ids e → reports pre →
      e_requested e' = match i with Connect r => r | _ => e_requested e end →
      (∀ d r, i = RaceFinished d r → after_input (running e) i = Quiet) →
      opens e i pre e' opening → outcome e i e' (pre ++ closing e i ++ opening).

(** The states the engine can be in, and what the daemon runs after a whole run. *)
Definition reachable `{UuidDisplay} (e : Engine) : Prop :=
  ∃ ps eps ins actss, steps (engine_new ps eps) ins actss e.

Fixpoint drive (d : Daemon) (ins : list (Input * Instant)) (actss : list (list Action)) : option Daemon :=
  match ins, actss with
  | [], [] => Some d
  | (i, _) :: ins, acts :: actss => d' ← perform_all (after_input d i) acts; drive d' ins actss
  | _, _ => None
  end.

(** * Lemmas on the parts of a step *)

#[local] Hint Unfold reports : core.

Lemma reports_bool acts : forallb is_report acts = true → reports acts.
Proof. intros H. apply Forall_forall. by apply forallb_forall_elem. Qed.

Lemma same_refl e : same e e.
Proof. by split. Qed.

Lemma same_trans e1 e2 e3 : same e1 e2 → same e2 e3 → same e1 e3.
Proof. intros [] []. split; congruence. Qed.

Lemma ids_statics e e' : statics e' = statics e → ids e' = ids e.
Proof.
  intros H. apply (f_equal (map (fun s => s.1.1))) in H. unfold statics in H. by rewrite !map_map in H.
Qed.

Lemma tier2_statics e e' p : statics e' = statics e → tier2 e' p = tier2 e p.
Proof.
  unfold tier2, statics. generalize (e_profiles e) as l, (e_profiles e') as l'.
  induction l as [|x l IH]; intros [|x' l'] H; try done.
  injection H as Hid _ Ht Hl. simpl. unfold has_id in *. rewrite Hid.
  case_bool_decide; [by rewrite Ht|auto].
Qed.

Lemma wf_in_use e :
  wf e → e_phase e ≠ Idle → (∀ c, e_phase e ≠ PhaseFailed c) → in_use e ≠ [].
Proof. unfold wf, in_use. destruct (e_phase e); naive_solver. Qed.

Lemma elem_of_ids e p : p ∈ ids e ↔ ∃ q, q ∈ e_profiles e ∧ profile_id q = p.
Proof. unfold ids. rewrite elem_of_map. naive_solver. Qed.

Lemma find_has_id_ids e p : is_Some (List.find (has_id p) (e_profiles e)) ↔ p ∈ ids e.
Proof.
  rewrite find_is_Some, existsb_exists_elem, elem_of_ids. unfold has_id.
  by setoid_rewrite bool_decide_eq_true.
Qed.

Lemma is_probeable_ids e p : is_probeable e p = true → p ∈ ids e.
Proof.
  unfold is_probeable. rewrite existsb_exists_elem, elem_of_ids. unfold has_id.
  intros (q & Hq & H). bool_simpl. eauto.
Qed.

Lemma update_profile_statics f p l :
  (∀ q, static (f q) = static q) → map static (update_first (has_id p) f l) = map static l.
Proof. intros H. by apply update_first_map. Qed.

Lemma mark_working_same e p now : same e (engine_mark_working e p now).
Proof. split; try done. unfold statics. simpl. by apply update_profile_statics. Qed.

Lemma mark_blocked_same e p now reason e' acts :
  engine_mark_blocked e p now reason = (e', acts) → same e e' ∧ reports acts.
Proof.
  unfold engine_mark_blocked. destruct (List.find _ _); intros [= <- <-].
  - split; [|by repeat constructor]. split; try done. unfold statics. simpl.
    by apply update_profile_statics.
  - split; [apply same_refl|constructor].
Qed.

Lemma record_each_same e results now e' acts :
  record_each e results now = (e', acts) → same e e' ∧ reports acts.
Proof.
  revert e e' acts. induction results as [|[p probe] results IH]; intros e e' acts; simpl.
  { intros [= <- <-]. split; [apply same_refl|constructor]. }
  destruct (judge probe) as [|why].
  - destruct (record_each _ results now) as [e2 more] eqn:E. intros [= <- <-].
    apply IH in E as [? ?]. split; [|done]. eapply same_trans; [apply mark_working_same|done].
  - destruct (engine_mark_blocked _ _ _ _) as [e1 acts1] eqn:E1.
    destruct (record_each _ results now) as [e2 more] eqn:E. intros [= <- <-].
    apply IH in E as [? ?]. apply mark_blocked_same in E1 as [? ?].
    split; [by eapply same_trans|by apply Forall_app].
Qed.

Lemma block_silent_same e silent now e' acts :
  block_silent e silent now = (e', acts) → same e e' ∧ reports acts.
Proof.
  revert e e' acts. induction silent as [|p silent IH]; intros e e' acts; simpl.
  { intros [= <- <-]. split; [apply same_refl|constructor]. }
  destruct (engine_mark_blocked _ _ _ _) as [e1 acts1] eqn:E1.
  destruct (block_silent _ silent now) as [e2 more] eqn:E. intros [= <- <-].
  apply IH in E as [? ?]. apply mark_blocked_same in E1 as [? ?].
  split; [by eapply same_trans|by apply Forall_app].
Qed.

(** Recording a race's results changes profiles' viability and nothing else but [raced]. *)
Lemma record_results_same e decision results now e' acts :
  record_results e decision results now = (e', acts) →
  ∃ e1, same e e1 ∧ e' = set_raced [] e1 ∧ reports acts.
Proof.
  unfold record_results. destruct (record_each e results now) as [e1 acts1] eqn:E1.
  apply record_each_same in E1 as [H1 R1]. destruct decision as [|p t b|].
  - intros [= <- <-]. eauto.
  - intros [= <- <-]. eexists. split; [|eauto].
    eapply same_trans; [exact H1|apply mark_working_same].
  - destruct (block_silent _ _ now) as [e2 acts2] eqn:E2. intros [= <- <-].
    apply block_silent_same in E2 as [H2 R2]. exists e2.
    split; [by eapply same_trans|]. split; [done|by apply Forall_app].
Qed.

(** Only reports: the daemon goes on with what it runs. *)
Lemma perform_all_app d acts1 acts2 :
  perform_all d (acts1 ++ acts2) = d' ← perform_all d acts1; perform_all d' acts2.
Proof.
  revert d. induction acts1 as [|a acts1 IH]; intros d; simpl; [done|].
  destruct (perform d a); simpl; [apply IH|done].
Qed.

Lemma perform_all_reports d acts : reports acts → perform_all d acts = Some d.
Proof. induction 1 as [|a acts Ha _ IH]; [done|]. by destruct a; try discriminate Ha. Qed.

(** ** Outcomes of the shared endings of a step *)

Lemma not_race_vacuous (P : RaceDecision → list (ProfileId * ProfileProbe) → Prop) i :
  (match i with RaceFinished _ _ => False | _ => True end) → ∀ d r, i = RaceFinished d r → P d r.
Proof. by destruct i. Qed.

Lemma not_connect (x : option ProfileId) i :
  (match i with RaceFinished _ _ | Connect _ => False | _ => True end) →
  x = match i with Connect r => r | _ => x end.
Proof. by destruct i. Qed.

Lemma not_race i :
  (match i with RaceFinished _ _ | Connect _ => False | _ => True end) →
  match i with RaceFinished _ _ => False | _ => True end.
Proof. by destruct i. Qed.

Lemma after_input_id e i :
  (match i with RaceFinished _ _ => False | _ => True end) → after_input (running e) i = running e.
Proof. by destruct i, (running e). Qed.

Lemma stay_outcome e i e' acts :
  same e e' → reports acts → (match i with RaceFinished _ _ => False | _ => True end) →
  outcome e i e' acts.
Proof. intros. by apply out_stay; [..|apply after_input_id]. Qed.

Lemma nothing_outcome e i :
  (match i with RaceFinished _ _ => False | _ => True end) → outcome e i e [].
Proof. intros. by apply stay_outcome; [apply same_refl|constructor|]. Qed.

Lemma replace_outcome e i e' pre opening acts :
  acts = pre ++ closing e i ++ opening →
  statics e' = statics e → endpoint_ids e' = endpoint_ids e → reports pre →
  e_requested e' = match i with Connect r => r | _ => e_requested e end →
  (∀ d r, i = RaceFinished d r → after_input (running e) i = Quiet) →
  opens e i pre e' opening → outcome e i e' acts.
Proof. intros ->. by apply out_replace. Qed.

Lemma start_tunnel_opens e i pre e1 p ep because e' acts :
  statics e1 = statics e → e_endpoint e1 = Some ep → p ∈ ids e →
  (∀ q, e_phase e = Probing → e_requested e = Some q → p = q) →
  (∀ q, i = Connect (Some q) → p = q) →
  (∀ q ep0, e_phase e ≠ Starting q ep0) →
  (in_use e = [] → ∃ r, i = Connect r) →
  (∀ old ep0, e_phase e = Connected old ep0 →
    p ≠ old ∧ ∃ reason, pre = [Emit (ProfileBlocked old reason)]) →
  start_tunnel e1 p ep because = (e', acts) →
  opens e i pre e' acts ∧ statics e' = statics e ∧ endpoint_ids e' = endpoint_ids e1 ∧
  e_requested e' = e_requested e1.
Proof.
  intros Hs He Hp H1 H2 H3 H4 H5. unfold start_tunnel. fold (tier2 e1 p).
  rewrite (tier2_statics e e1 p Hs). intros [= <- <-]. split; [|done].
  by apply (opens_selected e i pre _ p ep because).
Qed.

Lemma direct_fallback_ids e p : direct_fallback e = Some p → p ∈ ids e.
Proof.
  unfold direct_fallback. case_match; [done|]. destruct (List.find _ _) as [q|] eqn:E; [|done].
  intros [= <-]. apply find_Some_elem in E as [Hq _]. apply elem_of_ids. eauto.
Qed.

Lemma probeable_ids_ids e p : p ∈ probeable_ids e → p ∈ ids e.
Proof.
  unfold probeable_ids. intros (q & -> & [Hq _]%elem_of_filter_bool)%elem_of_map.
  apply elem_of_ids. eauto.
Qed.

Lemma connect_reset_statics e r : statics (connect_reset e r) = statics e.
Proof. unfold statics, connect_reset. simpl. rewrite map_map. by apply map_ext. Qed.

(** ** Each handler *)

Lemma connect_with_outcome e e1 requested ep e' acts :
  (e_phase e = Idle ∨ ∃ c, e_phase e = PhaseFailed c) →
  statics e1 = statics e → endpoint_ids e1 = endpoint_ids e → e_endpoint e1 = Some ep →
  e_requested e1 = requested → (∀ p, requested = Some p → p ∈ ids e) →
  connect_with e1 requested ep = (e', acts) → outcome e (Connect requested) e' acts.
Proof.
  intros Hph Hs Hep He Hreq Hids.
  assert (closing e (Connect requested) = []) as Hcl by (unfold closing; by destruct Hph as [-> | [c ->]]).
  assert (ids e1 = ids e) as Hid by (by apply ids_statics).
  unfold connect_with.
  assert (Htun : ∀ p because, p ∈ ids e → (∀ q, requested = Some q → p = q) →
    start_tunnel e1 p ep because = (e', acts) → outcome e (Connect requested) e' acts).
  { intros p because Hp Hq Hst.
    destruct (start_tunnel_opens e (Connect requested) [] e1 p ep because e' acts) as (Ho & Hs' & He' & Hrq); try done.
    - intros q Hpr. destruct Hph as [Hph|[c Hph]]; congruence.
    - intros q [= ->]. by apply Hq.
    - intros q ep0 Hc. destruct Hph as [Hph|[c Hph]]; congruence.
    - eauto.
    - intros q ep0 Hc. destruct Hph as [Hph|[c Hph]]; congruence.
    - apply (replace_outcome _ _ _ [] acts); try done; [by rewrite Hcl|congruence|constructor|congruence]. }
  assert (Hrace : ∀ ps, ps ≠ [] → (∀ p, p ∈ ps → p ∈ ids e) → (∀ p, requested = Some p → ps = [p]) →
    start_race e1 ps ep Probing = (e', acts) → outcome e (Connect requested) e' acts).
  { intros ps Hne Hps Hq [= <- <-].
    apply (replace_outcome _ _ _ [] [Emit ProbeStarted; StartRace ps ep]); try done; [by rewrite Hcl|constructor|].
    apply opens_race; try done; [by rewrite <-Hreq in Hq|by eauto]. }
  destruct requested as [p|].
  - destruct (is_probeable e1 p); simpl.
    + apply Hrace; [done|intros q ->%list_elem_of_singleton; auto|by intros q [= ->]].
    + apply Htun; [auto|by intros q [= ->]].
  - destruct (probeable_ids e1) as [|p ps] eqn:E.
    + destruct (direct_fallback e1) as [p|] eqn:Ed.
      * apply Htun; [|done]. rewrite <-Hid. by apply direct_fallback_ids.
      * intros [= <- <-]. apply (replace_outcome _ _ _ [] [Emit (FailedEvent AllProfilesBlocked)]); try done;
          [by rewrite Hcl|constructor|by eapply opens_failed].
    + apply Hrace; [done| |done]. intros q Hq. rewrite <-Hid. apply probeable_ids_ids. by rewrite E.
Qed.

Lemma connect_outcome e requested e' acts :
  connect e requested = (e', acts) → outcome e (Connect requested) e' acts.
Proof.
  unfold connect.
  assert (Hgo : (e_phase e = Idle ∨ ∃ c, e_phase e = PhaseFailed c) →
    (let e1 := connect_reset e requested in
     match engine_classify e1 false with
     | Some cause => fail_with e1 cause false
     | None =>
         match requested with
         | Some id =>
             if negb (existsb (has_id id) (e_profiles e1)) then
               fail_with e1 (ConfigurationInvalid ("there is no connection profile named " +:+ id)) false
             else
               match rank (e_endpoints e1) with
               | [] => fail_with e1 NoEndpointReachable false
               | endpoint :: _ => connect_with (set_endpoint (Some endpoint) e1) requested endpoint
               end
         | None =>
             match rank (e_endpoints e1) with
             | [] => fail_with e1 NoEndpointReachable false
             | endpoint :: _ => connect_with (set_endpoint (Some endpoint) e1) requested endpoint
             end
         end
     end) = (e', acts) → outcome e (Connect requested) e' acts).
  { intros Hph. cbv zeta. set (e1 := connect_reset e requested).
    assert (closing e (Connect requested) = []) as Hcl by (unfold closing; by destruct Hph as [-> | [c ->]]).
    assert (Hfail : ∀ cause, fail_with e1 cause false = (e', acts) → outcome e (Connect requested) e' acts).
    { intros cause [= <- <-].
      apply (replace_outcome _ _ _ [] [Emit (FailedEvent cause)]); try done;
        [by rewrite Hcl|apply (connect_reset_statics e requested)|constructor|by eapply opens_failed]. }
    assert (Hwith : ∀ ep, (∀ p, requested = Some p → p ∈ ids e) →
      connect_with (set_endpoint (Some ep) e1) requested ep = (e', acts) → outcome e (Connect requested) e' acts).
    { intros ep Hids. apply (connect_with_outcome e (set_endpoint (Some ep) e1) requested ep e' acts); try done.
      apply (connect_reset_statics e requested). }
    destruct (engine_classify e1 false); [apply Hfail|].
    destruct requested as [p|].
    - destruct (existsb _ _) eqn:Ex; simpl; [|apply Hfail].
      destruct (rank _) as [|ep eps]; [apply Hfail|]. apply Hwith. intros q [= <-].
      rewrite <-(ids_statics e e1) by apply connect_reset_statics.
      by apply find_has_id_ids, find_is_Some.
    - destruct (rank _) as [|ep eps]; [apply Hfail|]. by apply Hwith. }
  destruct (e_phase e); try (intros [= <- <-]; by apply nothing_outcome); apply Hgo; eauto.
Qed.

Lemma disconnect_outcome e e' acts : disconnect e = (e', acts) → outcome e Disconnect e' acts.
Proof.
  intros [= <- <-]. apply (replace_outcome _ _ _ [] []); try done; [|constructor|by apply opens_idle].
  unfold closing. by destruct (e_phase e).
Qed.

Lemma none_usable_outcome e e1 pre ep results recovering e' more acts :
  (∃ e0, same e e0 ∧ e1 = set_raced [] e0) → reports pre → wf e →
  (e_phase e = Probing ∧ recovering = false ∨ e_phase e = Recovering ∧ recovering = true) →
  e_endpoint e = Some ep → none_usable e1 ep recovering = Some (e', more) → acts = pre ++ more →
  outcome e (RaceFinished NoneUsable results) e' acts.
Proof.
  intros (e0 & Hsame & ->) Hpre Hwf Hph Hep Hn ->.
  assert (closing e (RaceFinished NoneUsable results) = []) as Hcl
    by (unfold closing; by destruct Hph as [[-> _] | [-> _]]).
  assert (after_input (running e) (RaceFinished NoneUsable results) = Quiet) as Hq
    by (unfold running; by destruct Hph as [[-> _] | [-> _]]; rewrite Hep).
  destruct Hsame as [Hs He _ Hend _ _ Hreq].
  assert (Hfail : ∀ cause, fail_with (set_raced [] e0) cause false = (e', more) →
    outcome e (RaceFinished NoneUsable results) e' (pre ++ more)).
  { intros cause [= <- <-]. apply (replace_outcome _ _ _ pre [Emit (FailedEvent cause)]); try done;
      [by rewrite Hcl|by eapply opens_failed]. }
  unfold none_usable in Hn. destruct (engine_classify _ true); [apply (inj Some) in Hn; by eapply Hfail|].
  destruct (negb recovering && _) eqn:Er.
  - apply bind_Some in Hn as (cause & _ & Hn). apply (inj Some) in Hn. by eapply Hfail.
  - destruct (direct_fallback _) as [p|] eqn:Ed; [|apply (inj Some) in Hn; by eapply Hfail].
    apply (inj Some) in Hn.
    destruct (start_tunnel_opens e (RaceFinished NoneUsable results) pre (set_raced [] e0) p ep
      (fallback_because (set_raced [] e0) p recovering) e' more) as (Ho & Hs' & He' & Hrq); try done.
    + simpl. congruence.
    + apply direct_fallback_ids in Ed. by rewrite (ids_statics e (set_raced [] e0)) in Ed.
    + intros q Hpr Hqr. destruct Hph as [[_ ->]|[Hph _]]; [|congruence].
      simpl in Er. apply bool_decide_eq_false in Er. destruct Er. simpl. congruence.
    + intros q ep0 Hc. destruct Hph as [[Hph _]|[Hph _]]; congruence.
    + intros Hnil. exfalso. by apply (wf_in_use e Hwf); destruct Hph as [[Hph _]|[Hph _]]; rewrite ?Hph.
    + intros q ep0 Hc. destruct Hph as [[Hph _]|[Hph _]]; congruence.
    + apply (replace_outcome _ _ _ pre more); try done; [by rewrite Hcl|exact (eq_trans He' He)|exact (eq_trans Hrq Hreq)].
Qed.

Lemma race_finished_outcome e decision results now e' acts :
  wf e → race_finished e decision results now = Some (e', acts) →
  outcome e (RaceFinished decision results) e' acts.
Proof.
  intros Hwf. unfold race_finished.
  assert (Hignored : after_input (running e) (RaceFinished decision results) = running e →
    Some (e, []) = Some (e', acts) → outcome e (RaceFinished decision results) e' acts).
  { intros Hi [= <- <-]. apply out_stay; [apply same_refl|constructor|done]. }
  destruct (decide (e_phase e = Probing ∨ e_phase e = Recovering)) as [Hph|Hph].
  2: { intros H. apply Hignored.
       - unfold running. destruct (e_phase e); try done; by destruct Hph; auto.
       - destruct (e_phase e); try done; by destruct Hph; auto. }
  assert (Hw : (∃ ep, e_endpoint e = Some ep) ∧ (∀ p, p ∈ e_raced e → p ∈ ids e) ∧
    (∀ p, e_phase e = Probing → e_requested e = Some p → e_raced e = [p])).
  { unfold wf in Hwf. destruct Hph as [Hph|Hph]; rewrite Hph in *; naive_solver. }
  destruct Hw as ([ep Hep] & Hraced & Hreq).
  assert (running e = Racing (e_raced e) ep) as Hrun.
  { unfold running. destruct Hph as [-> | ->]; by rewrite Hep. }
  assert (closing e (RaceFinished decision results) = []) as Hcl.
  { unfold closing. by destruct Hph as [-> | ->]. }
  intros H.
  assert ((if bool_decide (decision = Pending) then Some (e, [])
      else if stale_winner e decision then Some (e, [])
      else
        endpoint ← e_endpoint e;
        let recovering := bool_decide (e_phase e = Recovering) in
        let '(e, actions) := record_results e decision results now in
        match decision with
        | Selected profile _ bits_per_sec =>
            let '(e', more) := start_tunnel e profile endpoint (race_because e profile bits_per_sec) in
            Some (e', actions ++ more)
        | NoneUsable =>
            '(e', more) ← none_usable e endpoint recovering;
            Some (e', actions ++ more)
        | Pending => Some (e, actions)
        end) = Some (e', acts)) as H' by (destruct Hph as [Hph|Hph]; rewrite Hph in *; exact H).
  clear H. rename H' into H. rewrite Hep in H. cbn [mbind option_bind] in H.
  case_bool_decide as Hpend; [apply Hignored; [by rewrite Hrun, Hpend|done]|].
  destruct (stale_winner e decision) eqn:Hst.
  { apply Hignored; [|done]. rewrite Hrun. unfold stale_winner in Hst. destruct decision; try done.
    simpl. apply negb_true_iff in Hst. by rewrite Hst. }
  destruct (record_results e decision results now) as [e1 pre] eqn:Erec.
  apply record_results_same in Erec as (e0 & Hsame & -> & Hpre). pose proof Hsame as [Hs He _ Hend _ _ Hreq0].
  destruct decision as [|p t b|]; [done|..].
  - destruct (start_tunnel _ p ep _) as [e2 more] eqn:Estart. injection H as <- <-.
    simpl in Hst. apply negb_false_iff, bool_decide_eq_true in Hst.
    destruct (start_tunnel_opens e (RaceFinished (Selected p t b) results) pre (set_raced [] e0) p ep
      (race_because (set_raced [] e0) p b) e2 more) as (Ho & Hs' & He' & Hrq); try done.
    + simpl. congruence.
    + auto.
    + intros q Hpr Hq. rewrite (Hreq q Hpr Hq) in Hst. by apply list_elem_of_singleton in Hst.
    + intros q ep0 Hc. destruct Hph as [Hph|Hph]; congruence.
    + intros Hnil. exfalso. by apply (wf_in_use e Hwf); destruct Hph as [Hph|Hph]; rewrite ?Hph.
    + intros q ep0 Hc. destruct Hph as [Hph|Hph]; congruence.
    + apply (replace_outcome _ _ _ pre more); try done; [by rewrite Hcl|exact (eq_trans He' He)|exact (eq_trans Hrq Hreq0)|].
      intros d r [= <- <-]. rewrite Hrun. simpl. by rewrite bool_decide_eq_true_2.
  - apply bind_Some in H as ([e2 more] & Hn & [= <- <-]).
    eapply (none_usable_outcome e (set_raced [] e0) pre ep); eauto.
    destruct Hph as [Hph|Hph]; rewrite Hph; [left|right]; by rewrite ?Hph.
Qed.

Lemma tunnel_up_outcome e now e' acts :
  wf e → tunnel_up e now = (e', acts) → outcome e TunnelUp e' acts.
Proof.
  unfold tunnel_up, wf. destruct (e_phase e) as [| |p ep|p ep| |c] eqn:Hph;
    try (intros _ [= <- <-]; by apply nothing_outcome).
  intros [_ Hp] [= <- <-]. apply (out_up e TunnelUp _ p ep); try done.
  - unfold statics. simpl. by apply update_profile_statics.
  - simpl. apply elem_of_ids in Hp as (q & Hq & Hid).
    induction (e_profiles e) as [|x l IH]; [by apply elem_of_nil in Hq|]. simpl.
    unfold has_id at 1. case_bool_decide as Hx.
    + exists (mark_working now x), now. split_and!; [set_solver|done|done].
    + apply elem_of_cons in Hq as [->|Hq]; [done|].
      destruct (IH Hq) as (y & t & Hy & ?). exists y, t. split; [set_solver|done].
Qed.

Section Outcome.
Context `{UuidDisplay}.

Lemma relocate_tunnel_outcome e e1 i p active ep0 e' acts :
  (e_phase e = Starting p ep0 ∨ e_phase e = Connected p ep0) → same e e1 →
  (match i with RaceFinished _ _ | Connect _ => False | _ => True end) →
  relocate_tunnel e1 p active = Some (Some (e', acts)) → outcome e i e' acts.
Proof.
  intros Hph [Hs He _ _ _ _ Hreq] Hi. unfold relocate_tunnel.
  assert (Hrq : e_requested e1 = match i with Connect r => r | _ => e_requested e end).
  { rewrite Hreq. by apply not_connect. }
  assert (closing e i = [StopTunnel]) as Hcl by (unfold closing; by destruct Hph as [-> | ->]).
  destruct (plan_migration _ active) as [[|to event|]|] eqn:Em; [done|..|done]; simpl.
  - apply plan_migration_move in Em as (because & -> & _). intros [= <- <-].
    apply (replace_outcome _ _ _ [Emit (EndpointMigrated active to because)] [StartTunnel p to]); try done;
      [by rewrite Hcl|by repeat constructor|by apply not_race_vacuous, not_race|].
    apply (opens_moved e i _ _ p active to because); [by eauto|done..].
  - intros [= <- <-].
    apply (replace_outcome _ _ _ [] [Emit (FailedEvent NoEndpointReachable)]); try done;
      [by rewrite Hcl|constructor|by apply not_race_vacuous, not_race|by eapply opens_failed].
Qed.

Lemma relocate_race_outcome e e1 i active e' acts :
  (e_phase e = Probing ∨ e_phase e = Recovering) → same e e1 →
  (match i with RaceFinished _ _ | Connect _ => False | _ => True end) →
  relocate_race e1 active = Some (Some (e', acts)) → outcome e i e' acts.
Proof.
  intros Hph [Hs He Hp Hend Hra Hrep Hreq] Hi. unfold relocate_race.
  assert (Hrq : e_requested e1 = match i with Connect r => r | _ => e_requested e end).
  { rewrite Hreq. by apply not_connect. }
  assert (closing e i = [CancelRace]) as Hcl.
  { unfold closing. by destruct Hph as [-> | ->], i. }
  destruct (plan_migration _ active) as [[|to event|]|] eqn:Em; [done|..|done]; simpl.
  - apply plan_migration_move in Em as (because & -> & _). intros [= <- <-]. rewrite Hra.
    apply (replace_outcome _ _ _ [Emit (EndpointMigrated active to because)] [StartRace (e_raced e) to]);
      try done; [by rewrite Hcl|by repeat constructor|by apply not_race_vacuous, not_race|].
    apply (opens_race_moved e i _ _ active to because); try done. by destruct i.
  - intros [= <- <-].
    apply (replace_outcome _ _ _ [] [Emit (FailedEvent NoEndpointReachable)]); try done;
      [by rewrite Hcl|constructor|by apply not_race_vacuous, not_race|by eapply opens_failed].
Qed.

Lemma recover_outcome e e1 i p ep failures now e' acts :
  e_phase e = Connected p ep → wf e → same e e1 →
  (match i with RaceFinished _ _ | Connect _ => False | _ => True end) →
  recover e1 p ep failures now = Some (e', acts) → outcome e i e' acts.
Proof.
  intros Hph Hwf Hsame Hi. unfold recover.
  assert (Hi' : match i with RaceFinished _ _ => False | _ => True end) by by destruct i.
  destruct (engine_mark_blocked e1 p now _) as [e2 pre] eqn:Eb.
  assert (Hev : ∃ reason, pre = [Emit (ProfileBlocked p reason)]).
  { unfold engine_mark_blocked in Eb. destruct (List.find _ _) eqn:Ef; [injection Eb as <- <-; eauto|].
    exfalso. eapply (is_Some_None (A:=ConnectionProfile)). rewrite <-Ef. apply find_has_id_ids.
    rewrite (ids_statics e) by apply Hsame. unfold wf in Hwf. rewrite Hph in Hwf. apply Hwf. }
  apply mark_blocked_same in Eb as [Hsame2 Hpre]. pose proof (same_trans _ _ _ Hsame Hsame2) as H12.
  set (e3 := set_replacing (Some p) e2).
  assert (closing e i = [StopTunnel]) as Hcl by (unfold closing; by rewrite Hph).
  assert (statics e3 = statics e) as Hs by apply H12.
  assert (endpoint_ids e3 = endpoint_ids e) as He by apply H12.
  assert (e_requested e3 = match i with Connect r => r | _ => e_requested e end) as Hrq.
  { transitivity (e_requested e); [apply H12|by apply not_connect]. }
  assert (e_endpoint e3 = Some ep) as Hend.
  { unfold wf in Hwf. rewrite Hph in Hwf. destruct Hwf as [<- _]. apply H12. }
  destruct (plan_reprobe (e_profiles e3) p) as [cands|] eqn:Ep.
  - apply plan_reprobe_try in Ep as [Hne Hc].
    assert (Hids : ∀ q, q ∈ cands → q ∈ ids e).
    { intros q Hq. rewrite <-(ids_statics e e3) by done. apply elem_of_ids.
      destruct (Hc q Hq) as (x & ? & ? & _). eauto. }
    destruct (List.filter (is_probeable e3) cands) as [|q qs] eqn:Ef.
    + destruct cands as [|d cands]; [done|]. cbn [head mbind option_bind].
      destruct (start_tunnel e3 d ep _) as [e4 more] eqn:Est. intros [= <- <-].
      destruct (start_tunnel_opens e i pre e3 d ep (fallback_because e3 d true) e4 more)
        as (Ho & Hs' & He' & Hrq'); try done.
      * apply Hids. set_solver.
      * congruence.
      * by destruct i.
      * congruence.
      * unfold in_use. by rewrite Hph.
      * intros old ep0 Hc'. rewrite Hph in Hc'. injection Hc' as <- <-. split; [|done].
        destruct (Hc d ltac:(set_solver)) as (x & _ & <- & Hn & _). done.
      * apply (replace_outcome _ _ _ pre more); try done;
          [by rewrite Hcl, <-app_assoc|exact (eq_trans He' He)|exact (eq_trans Hrq' Hrq)|by apply not_race_vacuous].
    + intros [= <- <-].
      apply (replace_outcome _ _ _ pre [StartRace (q :: qs) ep]); try done;
        [by rewrite Hcl, <-app_assoc|by apply not_race_vacuous|].
      apply (opens_recovery e i pre _ p); try done.
      intros x Hx. rewrite <-Ef in Hx. apply elem_of_filter_bool in Hx as [Hx _].
      destruct (Hc x Hx) as (y & Hy & Hid & Hb & Hn). split; [done|]. exists y. auto.
  - intros [= <- <-].
    apply (replace_outcome _ _ _ pre [Emit (FailedEvent AllProfilesBlocked)]); try done;
      [by rewrite Hcl, <-app_assoc|by apply not_race_vacuous|by eapply opens_failed].
Qed.

Lemma live_check_outcome e check now e' acts :
  wf e → live_check e check now = Some (e', acts) → outcome e (InputLiveCheck check) e' acts.
Proof.
  intros Hwf. unfold live_check.
  destruct (e_phase e) as [| |p ep|p ep| |c] eqn:Hph; try (intros [= <- <-]; by apply nothing_outcome).
  destruct (Reprobe.observe (e_detector e) check) as [det d].
  assert (Hsame : same e (set_detector det e)) by by split.
  destruct d as [|n|n|]; try (intros [= <- <-]; apply stay_outcome; [done || by split|constructor|done]).
  destruct (engine_classify _ false) as [cause|].
  - intros [= <- <-]. apply (replace_outcome _ _ _ [] [Emit (FailedEvent cause)]); try done;
      [unfold closing; by rewrite Hph|constructor|by eapply opens_failed].
  - intros (relocated & Er & Hr)%bind_Some. destruct relocated as [[e2 acts2]|].
    + injection Hr as <- <-. eapply (relocate_tunnel_outcome e (set_detector det e)); [by eauto|exact Hsame|done|exact Er].
    + by eapply (recover_outcome e).
Qed.

Lemma set_health_endpoint_ids h ep l :
  map endpoint_id (update_first (fun x => bool_decide (endpoint_id x = ep)) (set_health h) l) =
  map endpoint_id l.
Proof. by apply update_first_map. Qed.

Lemma endpoint_probe_outcome e ep o now e' acts :
  endpoint_probe e ep o now = Some (e', acts) → outcome e (InputEndpointProbe ep o) e' acts.
Proof.
  unfold endpoint_probe. destruct (List.find _ _) as [known|];
    [|intros [= <- <-]; by apply nothing_outcome].
  intros (tr & _ & Hr)%bind_Some. cbv zeta in Hr.
  set (e1 := set_endpoints _ e) in *.
  assert (Hsame : same e e1) by (split; try done; apply set_health_endpoint_ids).
  assert (Hstay : outcome e (InputEndpointProbe ep o) e1 []) by (apply stay_outcome; [done || by split|constructor|done]).
  destruct (_ || _); [by injection Hr as <- <-|].
  pose proof (same_phase _ _ Hsame) as Hp. rewrite Hp in Hr.
  destruct (e_phase e) as [| |p ep0|p ep0| |c] eqn:Hph; try by injection Hr as <- <-.
  all: apply bind_Some in Hr as (moved & Er & Hr); destruct moved as [[e2 acts2]|];
    injection Hr as <- <-; [|done].
  - eapply (relocate_race_outcome e e1); [by auto|exact Hsame|done|exact Er].
  - eapply (relocate_tunnel_outcome e e1); [by eauto|exact Hsame|done|exact Er].
  - eapply (relocate_tunnel_outcome e e1); [by eauto|exact Hsame|done|exact Er].
  - eapply (relocate_race_outcome e e1); [by auto|exact Hsame|done|exact Er].
Qed.

(** Every step is an outcome: the code refines the daemon's view of it. *)
Lemma step_outcome e i now e' acts :
  wf e → step e i now = Some (e', acts) → outcome e i e' acts.
Proof.
  intros Hwf. destruct i as [r| |d rs| |c|c|ep o|env|from to|ch|rs]; simpl.
  - intros [= Hc]. by apply connect_outcome.
  - intros [= <- <-]. by apply disconnect_outcome.
  - by apply race_finished_outcome.
  - intros Hc%(inj Some). by eapply tunnel_up_outcome.
  - destruct (e_phase e) as [| |p ep|p ep| |c'] eqn:Hph; intros [= <- <-]; try by apply nothing_outcome.
    apply (replace_outcome _ _ _ [] [Emit (FailedEvent c)]); try done;
      [unfold closing; by rewrite Hph|constructor|by eapply opens_failed].
  - by apply live_check_outcome.
  - apply endpoint_probe_outcome.
  - intros [= <- <-]. apply stay_outcome; [done || by split|constructor|done].
  - intros Hc%(inj Some). unfold path_changed in Hc.
    destruct (e_phase e); try (injection Hc as <- <-; by apply nothing_outcome).
    destruct (option_map _ _); injection Hc as <- <-; (apply stay_outcome;
      [apply same_refl|apply reports_bool; reflexivity|done]).
  - intros Hc%(inj Some). unfold connectivity in Hc.
    destruct (e_phase e); try (injection Hc as <- <-; by apply nothing_outcome).
    destruct ch; injection Hc as <- <-; (apply stay_outcome;
      [apply same_refl|apply reports_bool; reflexivity|done]).
  - intros [= <- <-]. apply stay_outcome; [done || by split|constructor|done].
Qed.
End Outcome.

(** * Consequences *)

Lemma wf_new ps eps : wf (engine_new ps eps).
Proof. done. Qed.

Lemma wf_same e e' : same e e' → wf e → wf e'.
Proof.
  intros [Hs _ Hp He Hr Hrep Hreq] Hwf. unfold wf in *.
  rewrite Hp, He, Hr, Hrep, Hreq, (ids_statics e e' Hs). done.
Qed.

Lemma running_same e e' : same e e' → running e' = running e.
Proof. intros [_ _ Hp He Hr _ _]. unfold running. by rewrite Hp, He, Hr. Qed.

Lemma outcome_statics e i e' acts : outcome e i e' acts → statics e' = statics e ∧ endpoint_ids e' = endpoint_ids e.
Proof. by intros [acts' []|p ep|pre opening]. Qed.

Lemma outcome_wf e i e' acts : wf e → outcome e i e' acts → wf e'.
Proof.
  intros Hwf [acts' Hsame|p ep _ Hp Hp' He Hs|pre opening Hs _ _ _ _ Ho]; [by eapply wf_same|..].
  - unfold wf in *. rewrite Hp in Hwf. by rewrite Hp', He, (ids_statics e e' Hs).
  - pose proof (ids_statics e e' Hs) as Hid. unfold wf in *.
    destruct Ho as [_ ->|c ->|p ep b Hp He Hin|p from to b [ep Hph] Hp He|ps ep Hp He Hr Hne Hps Hq
      |old ps ep Hph Hp He Hr Hne Hrep Hev Hps|from to b Hph _ Hp He Hr Hrep Hreq]; rewrite ?Hp, ?He, ?Hid; try done.
    + split; [done|]. destruct Hph as [Hph|Hph]; rewrite Hph in Hwf; apply Hwf.
    + rewrite Hr. eauto.
    + rewrite Hr, Hrep. split_and!; try done; [by eauto|]. intros p Hin.
      destruct (Hps p Hin) as (_ & q & Hq & Hidq & _). rewrite <-Hid. apply elem_of_ids. eauto.
    + rewrite Hr, Hrep, Hreq. destruct Hph as [Hph|Hph]; rewrite Hph in *; naive_solver.
Qed.

Lemma closing_quiet e i :
  wf e → (∀ d r, i = RaceFinished d r → after_input (running e) i = Quiet) →
  perform_all (after_input (running e) i) (closing e i) = Some Quiet.
Proof.
  intros Hwf Hi. destruct i as [r| |d rs| |c|c|ep o|env|from to|ch|rs];
    try (rewrite after_input_id by done; unfold closing, running, wf in *;
         destruct (e_phase e); try done; by destruct Hwf as ([ep' ->] & _)).
  rewrite (Hi d rs eq_refl). unfold closing. specialize (Hi d rs eq_refl).
  unfold running in Hi. by destruct (e_phase e).
Qed.

Lemma opens_perform e i pre e' opening :
  wf e → wf e' → opens e i pre e' opening → perform_all Quiet opening = Some (running e').
Proof.
  intros Hwf Hwf' Ho. unfold running.
  destruct Ho as [_ ->|c ->|p ep b Hp He|p from to b _ Hp He|ps ep Hp He Hr Hne
      |old ps ep _ Hp He Hr Hne|from to b Hph _ Hp He Hr]; rewrite ?Hp; try done.
  - simpl. by destruct (tier2 e p).
  - rewrite He, Hr. by destruct ps.
  - rewrite He, Hr. by destruct ps.
  - rewrite He, Hr. unfold wf in Hwf.
    destruct Hph as [Hph|Hph]; rewrite Hph in *; destruct Hwf as (_ & Hne & _); by destruct (e_raced e).
Qed.

Lemma outcome_perform e i e' acts :
  wf e → outcome e i e' acts → perform_all (after_input (running e) i) acts = Some (running e').
Proof.
  intros Hwf Ho. pose proof (outcome_wf _ _ _ _ Hwf Ho) as Hwf'.
  destruct Ho as [acts' Hsame Hrep Hi|p ep Hi Hp Hp' He _|pre opening _ _ Hrep _ Hi Ho].
  - rewrite Hi, (running_same e e' Hsame). by apply perform_all_reports.
  - subst i. unfold running. by rewrite Hp, Hp'.
  - rewrite perform_all_app, (perform_all_reports _ pre Hrep). cbn [mbind option_bind].
    rewrite perform_all_app, closing_quiet by done. exact (opens_perform e i pre e' opening Hwf Hwf' Ho).
Qed.

Section Runs.
Context `{UuidDisplay}.

Lemma steps_wf e ins actss e' : wf e → steps e ins actss e' → wf e'.
Proof.
  intros Hwf Hs. induction Hs as [|e i now e1 acts ins actss e2 Hstep _ IH]; [done|].
  apply IH. eapply outcome_wf; [done|]. by eapply step_outcome.
Qed.

Lemma reachable_wf e : reachable e → wf e.
Proof. intros (ps & eps & ins & actss & Hs). eapply steps_wf; [apply wf_new|exact Hs]. Qed.

Lemma steps_drive e ins actss e' :
  wf e → steps e ins actss e' → drive (running e) ins actss = Some (running e').
Proof.
  intros Hwf Hs. induction Hs as [|e i now e1 acts ins actss e2 Hstep _ IH]; [done|].
  pose proof (step_outcome _ _ _ _ _ Hwf Hstep) as Ho. simpl.
  rewrite (outcome_perform _ _ _ _ Hwf Ho). cbn [mbind option_bind].
  apply IH. by eapply outcome_wf.
Qed.

Lemma steps_statics e ins actss e' :
  wf e → steps e ins actss e' → statics e' = statics e ∧ endpoint_ids e' = endpoint_ids e.
Proof.
  intros Hwf Hs. induction Hs as [|e i now e1 acts ins actss e2 Hstep _ IH]; [done|].
  pose proof (step_outcome _ _ _ _ _ Hwf Hstep) as Ho.
  destruct (outcome_statics _ _ _ _ Ho), (IH (outcome_wf _ _ _ _ Hwf Ho)). split; congruence.
Qed.

(** A panic of [step] can only be that of the duration arithmetic of a health probe. *)
Lemma step_total e i now :
  wf e → step e i now = None →
  ∃ ep o known, i = InputEndpointProbe ep o ∧ known ∈ e_endpoints e ∧
    on_probe (endpoint_health known) o now health_config_default = None.
Proof.
  intros Hwf. destruct i as [r| |d rs| |c|c|ep o|env|from to|ch|rs]; simpl; try done.
  - unfold race_finished. unfold wf in Hwf.
    destruct (e_phase e) as [| |p ep|p ep| |c] eqn:Hph; try done.
    all: destruct Hwf as ([ep Hep] & _); case_bool_decide; [done|]; destruct (stale_winner e d); [done|];
      rewrite Hep; cbn [mbind option_bind]; destruct (record_results e d rs now) as [e1 pre];
      destruct d; [done|by destruct (start_tunnel _ _ _ _)|];
      unfold none_usable; destruct (engine_classify e1 true); [done|].
    all: cbn [mbind option_bind]; destruct (negb _ && _) eqn:Er;
      [|by destruct (direct_fallback e1)].
    all: apply andb_true_iff in Er as [_ Er]; apply bool_decide_eq_true in Er;
      unfold named_profile_failed; by destruct (e_requested e1).
  - by destruct (e_phase e).
  - unfold live_check. destruct (e_phase e) as [| |p ep|p ep| |c'] eqn:Hph; try done.
    destruct (Reprobe.observe _ c) as [det [| | |]]; try done.
    destruct (engine_classify _ false); [done|].
    assert (Hrel : ∃ m, relocate_tunnel (set_detector det e) p ep = Some m).
    { unfold relocate_tunnel. destruct (plan_migration_total (e_endpoints (set_detector det e)) ep) as [m ->].
      simpl. destruct m; eauto. }
    destruct Hrel as [[m|] ->]; [done|]. cbn [mbind option_bind].
    unfold recover. destruct (engine_mark_blocked _ _ _ _) as [e2 pre].
    destruct (plan_reprobe _ p) as [cands|] eqn:Ep; [|done].
    apply plan_reprobe_try in Ep as [Hne _].
    destruct (List.filter _ cands); [|done]. by destruct cands.
  - unfold endpoint_probe. destruct (List.find _ _) as [known|] eqn:Ef; [|done].
    apply find_Some_elem in Ef as [Hk _].
    destruct (on_probe (endpoint_health known) o now _) as [tr|] eqn:Eo; [|by eauto 10].
    cbn [mbind option_bind]. cbv zeta. destruct (_ || _); [done|].
    set (e1 := set_endpoints _ _).
    assert (Hrel : ∀ p, ∃ m, relocate_tunnel e1 p ep = Some m).
    { intros p. unfold relocate_tunnel. destruct (plan_migration_total (e_endpoints e1) ep) as [m ->].
      simpl. destruct m; eauto. }
    assert (Hrace : ∃ m, relocate_race e1 ep = Some m).
    { unfold relocate_race. destruct (plan_migration_total (e_endpoints e1) ep) as [m ->].
      simpl. destruct m; eauto. }
    destruct Hrace as [m2 Hrace]. destruct (e_phase e1); try done.
    all: try (rewrite Hrace; done).
    all: destruct (Hrel profile) as [m1 ->]; done.
Qed.
End Runs.

(** What a step whose actions include a given one must be. *)
Lemma reports_elem acts a : reports acts → a ∈ acts → is_report a = true.
Proof. intros H Ha. by apply (proj1 (Forall_forall _ _) H). Qed.

Lemma closing_elem e i a : a ∈ closing e i → a = StopTunnel ∨ a = CancelRace.
Proof. unfold closing. destruct (e_phase e), i; set_solver. Qed.

Lemma replace_elem e i pre opening a :
  reports pre → a ∈ pre ++ closing e i ++ opening →
  is_report a = true ∨ a = StopTunnel ∨ a = CancelRace ∨ a ∈ opening.
Proof.
  intros Hpre [Ha|[Ha|Ha]%elem_of_app]%elem_of_app; [left; by eapply reports_elem| |by auto].
  apply closing_elem in Ha as [->| ->]; auto.
Qed.

(** * Properties *)

Section Properties.
Context `{UuidDisplay}.

(** C1. The engine and the daemon never disagree.  Over every run from a fresh engine, whatever
    inputs arrive in whatever order, each action fits what the daemon is running when it is
    asked for it: a tunnel or a race is started only when nothing runs, only a tunnel that is up is
    stopped and only a race that is on is cancelled; and what then runs is what the engine's phase
    says (nothing when idle or failed, the race of its profiles while probing or recovering, the one
    tunnel while starting or connected). *)
Theorem engine_drives_daemon ps eps ins actss e
    (Hrun : steps (engine_new ps eps) ins actss e) :
  drive Quiet ins actss = Some (running e).
Proof. exact (steps_drive (engine_new ps eps) ins actss e (wf_new ps eps) Hrun). Qed.

(** C4. No step of a reachable engine panics in the engine's own code: none of its [expect]s, its
    indexing and those of the modules it calls can fail.  The one panic left is that of
    [Duration::from_secs_f64] inside the health estimate of the endpoint that was probed. *)
Theorem engine_never_panics e i now (Hreach : reachable e) (Hpanic : step e i now = None) :
  ∃ ep o known, i = InputEndpointProbe ep o ∧ known ∈ e_endpoints e ∧
    on_probe (endpoint_health known) o now health_config_default = None.
Proof. apply (step_total e i now); [by apply reachable_wf|done]. Qed.

(** C5. A failure is always told, and told truly: a step that emits a failure leaves the engine
    failed with that very cause and nothing running, and the engine becomes failed only in a step
    whose last action emits the cause. *)
Theorem failure_is_reported e i now e' acts
    (Hreach : reachable e) (Hstep : step e i now = Some (e', acts)) :
  (∀ c, Emit (FailedEvent c) ∈ acts → e_phase e' = PhaseFailed c ∧ running e' = Quiet) ∧
  (∀ c, e_phase e' = PhaseFailed c → e_phase e = PhaseFailed c ∨ last acts = Some (Emit (FailedEvent c))).
Proof.
  pose proof (step_outcome _ _ _ _ _ (reachable_wf e Hreach) Hstep) as Ho.
  destruct Ho as [acts Hsame Hrep _|p ep _ Hp Hp' _ _ _ _ _|pre opening _ _ Hrep _ _ Ho].
  - split; [intros c Hc; by pose proof (reports_elem _ _ Hrep Hc)|]. left. by rewrite <-(same_phase _ _ Hsame).
  - split; [by intros c Hc%elem_of_nil|congruence].
  - split.
    + intros c Hc. apply replace_elem in Hc as [Hc|[Hc|[Hc|Hc]]]; try done.
      destruct Ho; try (destruct (tier2 e p)); set_unfold; naive_solver (unfold running; by rewrite H0).
    + intros c Hc. rewrite app_assoc. destruct Ho as [_ Hp|c' Hp|p ep b Hp|p from to b _ Hp|ps ep Hp|old ps ep _ Hp|from to b Hph _ Hp];
        try congruence.
      * right. rewrite last_snoc. congruence.
      * exfalso. destruct Hph; congruence.
Qed.

(** C3. A profile the user named is never silently substituted.  While the connection in hand is the
    one the user asked for by name (and not a recovery from it) and it uses only that profile, every step
    keeps it so, unless a live check found the profile blocked: then the step's first actions say so and
    stop the tunnel.  And a connect by name uses that profile only. *)
Theorem named_profile_never_substituted e i now e' acts q
    (Hreach : reachable e) (Hstep : step e i now = Some (e', acts))
    (Huse : ∀ p, p ∈ in_use e → p = q) (Hrec : e_phase e ≠ Recovering)
    (Hnamed : i = Connect (Some q) ∧ in_use e = [] ∨ e_requested e = Some q ∧ ∀ r, i ≠ Connect r) :
  (∀ p, p ∈ in_use e' → p = q) ∧ e_phase e' ≠ Recovering ∧ e_requested e' = Some q ∨
  in_use e' = [] ∨
  ∃ reason rest, acts = Emit (ProfileBlocked q reason) :: StopTunnel :: rest.
Proof.
  pose proof (reachable_wf e Hreach) as Hwf.
  destruct (step_outcome _ _ _ _ _ Hwf Hstep)
    as [acts Hsame Hrep _|p ep -> Hp Hp' _ _ _ Hrq _|pre opening _ _ _ Hrq _ Ho].
  - destruct Hsame as [_ _ Hph _ Hra _ Hreq]. unfold in_use in *. rewrite Hph, Hra, Hreq.
    destruct Hnamed as [[_ ?]|[? _]]; auto.
  - left. unfold in_use in *. rewrite Hp in Huse. rewrite Hp', Hrq.
    by destruct Hnamed as [[? _]|[? _]].
  - assert (e_requested e' = Some q) as Hq.
    { rewrite Hrq. destruct Hnamed as [[-> _]|[? Hi]]; [done|]. destruct i; try done. by destruct (Hi profile). }
    destruct Ho as [_ Hp|c Hp|p ep b Hp _ _ H1 H2 H3 H4 H5|p from to b [ep Hph] Hp _ _|ps ep Hp _ Hr _ _ H6 _
      |old ps ep Hph Hp _ _ _ _ [reason Hpre] _|from to b Hph _ Hp _ Hr _ _ _].
    + right; left. unfold in_use. by rewrite Hp.
    + right; left. unfold in_use. by rewrite Hp.
    + assert (Hdec : (∃ old ep0, e_phase e = Connected old ep0) ∨ ¬ ∃ old ep0, e_phase e = Connected old ep0).
      { destruct (e_phase e); eauto; right; by intros (? & ? & ?). }
      destruct Hdec as [(old & ep0 & Hph)|Hnc].
      * right; right. destruct (H5 old ep0 Hph) as [_ [reason ->]].
        unfold closing. rewrite Hph. exists reason. eexists.
        rewrite (Huse old); [done|]. unfold in_use. rewrite Hph. set_solver.
      * left. unfold in_use at 1. rewrite Hp. split_and!; [|done..].
        intros x ->%list_elem_of_singleton.
        destruct Hnamed as [[-> _]|[Hn Hi]]; [by apply H2|].
        destruct (e_phase e) as [| |p0 ep0|p0 ep0| |c] eqn:Hph; [|by apply H1|by destruct (H3 p0 ep0)|by destruct Hnc; eauto|done|].
        all: destruct H4 as [r Hr]; [unfold in_use; by rewrite Hph|by destruct (Hi r)].
    + left. unfold in_use in *. rewrite Hp. split_and!; [|done..]. intros x ->%list_elem_of_singleton.
      apply Huse. destruct Hph as [Hph | Hph]; rewrite Hph; set_solver.
    + left. unfold in_use. rewrite Hp, Hr, (H6 q Hq). set_solver.
    + right; right. rewrite Hpre. unfold closing. rewrite Hph. exists reason. eexists.
      rewrite (Huse old); [done|]. unfold in_use. rewrite Hph. set_solver.
    + left. unfold in_use in *. rewrite Hp, Hr. auto.
Qed.

(** C2. Recovery never leaks and never tries what is known not to work.  When a step takes a
    connected engine to recovering, or to starting another profile, its first actions are the report that the
    profile is blocked and the stop of its tunnel, before anything is started; and no profile of
    the recovery race is the blocked one or is known to be blocked. *)
Theorem recovery_stops_first e i now e' acts old ep
    (Hreach : reachable e) (Hstep : step e i now = Some (e', acts))
    (Hconn : e_phase e = Connected old ep) :
  (e_phase e' = Recovering →
    (∃ reason, acts = [Emit (ProfileBlocked old reason); StopTunnel; StartRace (e_raced e') ep]) ∧
    e_replacing e' = Some old ∧
    ∀ p, p ∈ e_raced e' → p ≠ old ∧ ∃ q, q ∈ e_profiles e' ∧ profile_id q = p ∧ is_blocked q = false) ∧
  (∀ p ep', e_phase e' = Starting p ep' → p ≠ old →
    ∃ reason because, acts = [Emit (ProfileBlocked old reason); StopTunnel; Emit (ProfileSelected p because)] ++
      (if tier2 e p then [WarnTier2 p] else []) ++ [StartTunnel p ep']).
Proof.
  pose proof (reachable_wf e Hreach) as Hwf.
  assert (closing e i = [StopTunnel]) as Hcl by (unfold closing; by rewrite Hconn).
  destruct (step_outcome _ _ _ _ _ Hwf Hstep)
    as [acts Hsame _ _|p0 ep0 _ Hp _ _ _ _ _ _|pre opening _ _ _ _ _ Ho].
  - rewrite (same_phase _ _ Hsame), Hconn. split; [done|by intros ? ? [=]].
  - congruence.
  - rewrite Hcl. destruct Ho as [_ Hp|c Hp|p ep0 b Hp _ _ _ _ _ _ H5|p from to b [ep0 Hph] Hp _ _|ps ep0 Hp _ _ _ _ _ [r Hr]
      |old' ps ep0 Hph Hp _ Hr _ Hrep [reason Hpre] Hps|from to b Hph _ _ _ _ _ _ _].
    + split; intros; congruence.
    + split; intros; congruence.
    + split; [congruence|]. intros p' ep' Heq Hne. rewrite Hp in Heq. injection Heq as <- <-.
      destruct (H5 old ep Hconn) as [_ [reason ->]]. by exists reason, b.
    + split; [congruence|]. intros p' ep' Heq Hne. destruct Hne.
      assert (p = old) by (destruct Hph; congruence). congruence.
    + split; [congruence|]. intros; congruence.
    + assert (old' = old ∧ ep0 = ep) as [-> ->] by (split; congruence).
      split; [|intros; congruence]. intros _. rewrite Hr, Hpre. split_and!; [by exists reason|done..].
    + exfalso. destruct Hph; congruence.
Qed.

(** Nothing is started without a reason given.  A step that starts a tunnel either has just said
    which profile was selected and why, with a warning in between exactly when the profile is Tier 2;
    or it moves the tunnel of the same profile to another endpoint, having said why and stopped the old
    tunnel first. *)
Theorem every_start_is_explained e i now e' acts p ep
    (Hreach : reachable e) (Hstep : step e i now = Some (e', acts))
    (Hstart : StartTunnel p ep ∈ acts) :
  (∃ pre because, acts = pre ++ [Emit (ProfileSelected p because)] ++
    (if tier2 e p then [WarnTier2 p] else []) ++ [StartTunnel p ep] ∧ StartTunnel p ep ∉ pre) ∨
  (∃ from because, acts = [Emit (EndpointMigrated from ep because); StopTunnel; StartTunnel p ep] ∧
    in_use e = [p]).
Proof.
  pose proof (reachable_wf e Hreach) as Hwf.
  destruct (step_outcome _ _ _ _ _ Hwf Hstep)
    as [acts _ Hrep _|p0 ep0 _ _ _ _ _ _ _ _|pre opening _ _ Hrep _ _ Ho].
  - by pose proof (reports_elem _ _ Hrep Hstart).
  - by apply elem_of_nil in Hstart.
  - pose proof (replace_elem _ _ _ _ _ Hrep Hstart) as [Hc|[Hc|[Hc|Hc]]]; try done.
    assert (Hpre : ∀ x y, StartTunnel x y ∉ pre ++ closing e i).
    { intros x y [Hx|Hx]%elem_of_app; [by pose proof (reports_elem _ _ Hrep Hx)|].
      by apply closing_elem in Hx as [|]. }
    destruct Ho as [_ Hp|c Hp|p0 ep0 b Hp _ _ _ _ _ _ _|p0 from to b [ep0 Hph] Hp _ Hpr|ps ep0 Hp _ _ _ _ _ [r Hr]
      |old' ps ep0 Hph Hp _ Hr _ _ _ _|from to b Hph _ _ _ _ _ _ _]; try (set_unfold in Hc; naive_solver).
    + left. exists (pre ++ closing e i), b.
      assert (p = p0 ∧ ep = ep0) as [-> ->] by (destruct (tier2 e p0); set_unfold in Hc; naive_solver).
      by rewrite <-app_assoc.
    + right. assert (p = p0 ∧ ep = to) as [-> ->] by (set_unfold in Hc; naive_solver).
      exists from, b. subst pre. unfold closing, in_use. by destruct Hph as [-> | ->].
Qed.

(** "Connected" is never claimed early: an engine becomes connected only on the report that the
    tunnel it was starting is up, with that profile and endpoint, and the profile is then recorded as
    working. *)
Theorem connected_only_when_up e i now e' acts p ep
    (Hreach : reachable e) (Hstep : step e i now = Some (e', acts))
    (Hconn : e_phase e' = Connected p ep) :
  e_phase e = Connected p ep ∨
  i = TunnelUp ∧ e_phase e = Starting p ep ∧ acts = [] ∧
    ∃ q t, q ∈ e_profiles e' ∧ profile_id q = p ∧ profile_viability q = Working t.
Proof.
  pose proof (reachable_wf e Hreach) as Hwf.
  destruct (step_outcome _ _ _ _ _ Hwf Hstep)
    as [acts Hsame _ _|p0 ep0 Hi Hp Hp' _ _ _ _ Hq|pre opening _ _ Hrep _ _ Ho].
  - left. by rewrite <-(same_phase _ _ Hsame).
  - right. assert (p0 = p ∧ ep0 = ep) as [-> ->] by (split; congruence). done.
  - exfalso. destruct Ho as [_ Hp|c Hp|p0 ep0 b Hp _ _ _ _ _ _ _|p0 from to b [ep0 Hph] Hp _ Hpr|ps ep0 Hp _ _ _ _ _ [r Hr]
      |old' ps ep0 Hph Hp _ Hr _ _ _ _|from to b Hph _ Hp _ _ _ _ _]; try congruence.
    destruct Hph; congruence.
Qed.

(** The engine's configuration is fixed: over a whole run no step changes which profiles there
    are, their kinds or their measured tiers, or which endpoints there are, in their order. *)
Theorem configuration_fixed ps eps ins actss e
    (Hrun : steps (engine_new ps eps) ins actss e) :
  map static (e_profiles e) = map static ps ∧ map endpoint_id (e_endpoints e) = map endpoint_id eps.
Proof. exact (steps_statics (engine_new ps eps) ins actss e (wf_new ps eps) Hrun). Qed.
End Properties.

(** Inputs that are late or misplaced in the phase the engine is in. *)
Definition late (e : Engine) (i : Input) : Prop :=
  match i, e_phase e with
  | RaceFinished (Selected p _ _) _, (Probing | Recovering) => p ∉ e_raced e
  | RaceFinished NoneUsable _, (Probing | Recovering) => False
  | RaceFinished _ _, _ => True
  | (TunnelUp | StartFailed _), Starting _ _ => False
  | (TunnelUp | StartFailed _), _ => True
  | (InputLiveCheck _ | InputPathChanged _ _ | Connectivity _), Connected _ _ => False
  | (InputLiveCheck _ | InputPathChanged _ _ | Connectivity _), _ => True
  | Connect _, (Idle | PhaseFailed _) => False
  | Connect _, _ => True
  | _, _ => False
  end.

(** Late and misplaced inputs are ignored: a race result when no race is on, one still pending, or
    the win of a profile this race did not run; a tunnel report when none is starting; a live check, a path
    change or a change of quality when not connected; a second connect: each leaves the engine
    exactly as it was and asks for nothing. *)
Theorem late_inputs_ignored `{UuidDisplay} e i now (Hlate : late e i) : step e i now = Some (e, []).
Proof.
  unfold late in Hlate. destruct i as [r| |d rs| |c|c|ep o|env|from to|ch|rs]; simpl; try done.
  - unfold connect. by destruct (e_phase e).
  - unfold race_finished.
    destruct (e_phase e), d as [|p t b|]; try done; rewrite bool_decide_eq_false_2 by done;
      unfold stale_winner; by rewrite bool_decide_eq_false_2.
  - unfold tunnel_up. by destruct (e_phase e).
  - by destruct (e_phase e).
  - unfold live_check. by destruct (e_phase e).
  - unfold path_changed. by destruct (e_phase e).
  - unfold connectivity. by destruct (e_phase e).
Qed.

(** * The hypotheses hold: a concrete session *)

#[local] Instance demo_display : UuidDisplay := fun id => pretty id.

Definition demo_endpoint (id : EndpointId) (h : HealthState) : Endpoint := {|
  endpoint_id := id; endpoint_label := "main";
  endpoint_address := mkEndpointAddress "198.51.100.1" 443;
  endpoint_origin := Manual; endpoint_credentials := mkCredentialRef "k";
  endpoint_health := mkEndpointHealth h None 0 0 0 None None; endpoint_enabled := true;
|}.

Definition demo_engine : Engine :=
  engine_new
    [profile_new "awg" AmneziaWg params_new; profile_new "hy2" Hysteria2 params_new;
     profile_new "reality" VlessReality params_new]
    [demo_endpoint 1 Healthy; demo_endpoint 2 Unknown].

(** Named by the user, raced, and up. *)
Definition demo_inputs : list (Input * Instant) := [
  (Connect (Some "hy2"), 1);
  (RaceFinished (Selected "hy2" Tier2 8000000) [("hy2", Transferred 1000000 (from_secs 1))], 2);
  (TunnelUp, 3);
  (InputLiveCheck CheckFailed, 4); (InputLiveCheck CheckFailed, 5)].

(** The engine after the first [n] of them, and what the last step there asked for. *)
Definition demo_at (n : nat) : Engine :=
  match run_inputs demo_engine (take n demo_inputs) with Some (e, _) => e | None => demo_engine end.

Lemma demo_reachable n : reachable (demo_at n).
Proof.
  unfold demo_at. destruct (run_inputs _ _) as [[e actss]|] eqn:E.
  - apply run_inputs_steps in E. unfold reachable. eauto.
  - eexists _, _, [], []. constructor.
Qed.

Lemma engine_drives_daemon_witness :
  ∃ e actss, steps demo_engine demo_inputs actss e ∧ drive Quiet demo_inputs actss = Some (Tunnel "hy2" 1).
Proof.
  eexists _, _. assert (Hrun : steps demo_engine demo_inputs _ _)
    by (apply run_inputs_steps; vm_compute; reflexivity).
  split; [exact Hrun|]. exact (engine_drives_daemon _ _ demo_inputs _ _ Hrun).
Defined.

Lemma configuration_fixed_witness :
  ∃ e actss, steps demo_engine demo_inputs actss e ∧ map endpoint_id (e_endpoints e) = [1; 2].
Proof.
  eexists _, _. assert (Hrun : steps demo_engine demo_inputs _ _)
    by (apply run_inputs_steps; vm_compute; reflexivity).
  split; [exact Hrun|]. exact (proj2 (configuration_fixed _ _ demo_inputs _ _ Hrun)).
Defined.

(** A second answer of more than five hundred billion years overflows the smoothed round trip. *)
Lemma engine_never_panics_witness :
  ∃ e, reachable e ∧ step e (InputEndpointProbe 2 (Answered DURATION_MAX false)) 7 = None ∧
    ∃ ep o known, InputEndpointProbe 2 (Answered DURATION_MAX false) = InputEndpointProbe ep o ∧
      known ∈ e_endpoints e ∧ on_probe (endpoint_health known) o 7 health_config_default = None.
Proof.
  eexists.
  assert (Hrun : steps demo_engine [(InputEndpointProbe 2 (Answered DURATION_MAX false), 6)] _ _)
    by (apply run_inputs_steps; vm_compute; reflexivity).
  assert (Hreach : reachable _) by (unfold reachable; exact (ex_intro _ _ (ex_intro _ _ (ex_intro _ _ (ex_intro _ _ Hrun))))).
  split; [exact Hreach|]. split; [vm_compute; reflexivity|].
  exact (engine_never_panics _ (InputEndpointProbe 2 (Answered DURATION_MAX false)) 7 Hreach
    ltac:(vm_compute; reflexivity)).
Defined.

Lemma failure_is_reported_witness :
  ∃ e' acts, step (demo_at 1) (RaceFinished NoneUsable []) 2 = Some (e', acts) ∧
    (∀ c, Emit (FailedEvent c) ∈ acts → e_phase e' = PhaseFailed c ∧ running e' = Quiet).
Proof.
  eexists _, _. split; [vm_compute; reflexivity|].
  exact (proj1 (failure_is_reported (demo_at 1) (RaceFinished NoneUsable []) 2 _ _ (demo_reachable 1)
    ltac:(vm_compute; reflexivity))).
Defined.

(** The third failed live check of a profile connected by name. *)
Lemma named_profile_never_substituted_witness :
  ∃ e' acts, step (demo_at 5) (InputLiveCheck CheckFailed) 6 = Some (e', acts) ∧
    ((∀ p, p ∈ in_use e' → p = "hy2") ∧ e_phase e' ≠ Recovering ∧ e_requested e' = Some "hy2" ∨
     in_use e' = [] ∨
     ∃ reason rest, acts = Emit (ProfileBlocked "hy2" reason) :: StopTunnel :: rest).
Proof.
  eexists _, _. split; [vm_compute; reflexivity|].
  apply (named_profile_never_substituted (demo_at 5) (InputLiveCheck CheckFailed) 6 _ _ "hy2" (demo_reachable 5)).
  - vm_compute. reflexivity.
  - assert (in_use (demo_at 5) = ["hy2"]) as -> by (vm_compute; reflexivity).
    intros p ->%list_elem_of_singleton. reflexivity.
  - vm_compute. discriminate.
  - right. split; [vm_compute; reflexivity|discriminate].
Defined.

Lemma recovery_stops_first_witness :
  ∃ e' acts, step (demo_at 5) (InputLiveCheck CheckFailed) 6 = Some (e', acts) ∧
    e_phase e' = Recovering ∧ e_replacing e' = Some "hy2".
Proof.
  eexists _, _. split; [vm_compute; reflexivity|]. split; [reflexivity|].
  refine (proj1 (proj2 (proj1 (recovery_stops_first (demo_at 5) (InputLiveCheck CheckFailed) 6 _ _ "hy2" 1
    (demo_reachable 5) _ _) _))); vm_compute; reflexivity.
Defined.

Lemma every_start_is_explained_witness :
  ∃ e' acts, step (demo_at 1) (RaceFinished (Selected "hy2" Tier2 8000000) []) 2 = Some (e', acts) ∧
    StartTunnel "hy2" 1 ∈ acts ∧
    ((∃ pre because, acts = pre ++ [Emit (ProfileSelected "hy2" because)] ++
      (if tier2 (demo_at 1) "hy2" then [WarnTier2 "hy2"] else []) ++ [StartTunnel "hy2" 1] ∧
      StartTunnel "hy2" 1 ∉ pre) ∨
    (∃ from because, acts = [Emit (EndpointMigrated from 1 because); StopTunnel; StartTunnel "hy2" 1] ∧
      in_use (demo_at 1) = ["hy2"])).
Proof.
  eexists _, _.
  assert (Hs : step (demo_at 1) (RaceFinished (Selected "hy2" Tier2 8000000) []) 2 = Some (_, _))
    by (vm_compute; reflexivity).
  split; [exact Hs|].
  assert (Hin : StartTunnel "hy2" 1 ∈
    [Emit (ProfileSelected "hy2" "hy2 carried traffic best in the probe race, at about 8.0 Mbit/s");
     WarnTier2 "hy2"; StartTunnel "hy2" 1]) by (apply (bool_decide_unpack _); vm_compute; exact I).
  split; [exact Hin|].
  exact (every_start_is_explained (demo_at 1) _ 2 _ _ "hy2" 1 (demo_reachable 1) Hs Hin).
Defined.

Lemma connected_only_when_up_witness :
  ∃ e' acts, step (demo_at 2) TunnelUp 3 = Some (e', acts) ∧ e_phase e' = Connected "hy2" 1 ∧
    (e_phase (demo_at 2) = Connected "hy2" 1 ∨
     TunnelUp = TunnelUp ∧ e_phase (demo_at 2) = Starting "hy2" 1 ∧ acts = [] ∧
      ∃ q t, q ∈ e_profiles e' ∧ profile_id q = "hy2" ∧ profile_viability q = Working t).
Proof.
  eexists _, _. split; [vm_compute; reflexivity|]. split; [reflexivity|].
  apply (connected_only_when_up (demo_at 2) TunnelUp 3 _ _ "hy2" 1 (demo_reachable 2)); vm_compute; reflexivity.
Defined.

Lemma late_inputs_ignored_witness :
  step (demo_at 1) (RaceFinished (Selected "reality" Tier2 8000000) []) 2 = Some (demo_at 1, []).
Proof.
  apply (late_inputs_ignored (demo_at 1) (RaceFinished (Selected "reality" Tier2 8000000) []) 2).
  vm_compute. intros Hin. inversion Hin as [|? ? ? Hin']. inversion Hin'.
Defined.
