(* ===== verification/Failover.v ===== *)
(** Which path carries traffic, and when that changes (crates/dnet-core/src/failover.rs). *)

From Stdlib Require Import SpecFloat.
From S2P Require Import Prelude Float Profile IpText Quality Degraded.

(** * Definitions *)

(* src: crates/dnet-core/src/failover.rs:39-41 SAME_BAND_MARGIN *)
Definition SAME_BAND_MARGIN : f64 := f64_lit 15 100.

(* src: crates/dnet-core/src/failover.rs:60-79 FailoverConfig *)
Record FailoverConfig : Type := mkFailoverConfig {
  thresholds : QualityThresholds;
  degrade_for : Duration;
  unusable_for : Duration;
  stable_for : Duration;
  min_dwell : Duration;
  recover_for : Duration;
  max_moves : Z;
  window : Duration;
}.

(* src: crates/dnet-core/src/failover.rs:81-94 FailoverConfig::default *)
Definition failover_config_default : FailoverConfig := {|
  thresholds := thresholds_default;
  degrade_for := from_secs 10;
  unusable_for := from_secs 4;
  stable_for := from_secs 30;
  min_dwell := from_secs 120;
  recover_for := from_secs 10;
  max_moves := 4;
  window := from_secs 600;
|}.

(* src: crates/dnet-core/src/failover.rs:96-109 MoveReason *)
Inductive MoveReason : Type := Acquired | Lost | MoveDegraded | Preferred.

(* src: crates/dnet-core/src/failover.rs:111-125 Decision *)
Inductive FailoverDecision : Type :=
  | Stay
  | Move (from : option InterfaceId) (to : InterfaceId) (reason : MoveReason)
  | NoPath.

#[export] Instance MoveReason_eq_dec : EqDecision MoveReason.
Proof. solve_decision. Defined.
#[export] Instance FailoverDecision_eq_dec : EqDecision FailoverDecision.
Proof. solve_decision. Defined.

(* src: crates/dnet-core/src/failover.rs:127-140 FailoverState *)
Record FailoverState : Type := mkFailoverState {
  fs_carrying : option InterfaceId;
  moved_at : option Instant;
  below_good_since : option Instant;
  unusable_since : option Instant;
  good_since : gmap InterfaceId Instant;
  moves : list Instant;
}.

(* src: crates/dnet-core/src/failover.rs:143-146 FailoverState::new *)
Definition failover_new : FailoverState := {|
  fs_carrying := None; moved_at := None; below_good_since := None; unusable_since := None;
  good_since := ∅; moves := [];
|}.

(* src: crates/dnet-core/src/failover.rs:148-157 FailoverState::carrying_on *)
Definition carrying_on (path : InterfaceId) (now : Instant) : FailoverState := {|
  fs_carrying := Some path; moved_at := None; below_good_since := None; unusable_since := None;
  good_since := ∅; moves := [];
|}.

(* src: crates/dnet-core/src/failover.rs:173-174 FailoverState::evaluate *)
Definition band_of (cfg : FailoverConfig) (p : NetworkPath) : QualityBand := band (quality p) (thresholds cfg).
Definition usable (p : NetworkPath) : bool := bool_decide (role p ≠ UnusableRole).

Definition band_lt (a b : QualityBand) : bool := band_index a <? band_index b.

(* src: crates/dnet-core/src/failover.rs:43-58 is_better *)
Definition is_better (cfg : FailoverConfig) (b : QualityBand) (current candidate : NetworkPath) : bool :=
  band_lt b (band_of cfg candidate) ||
  (bool_decide (b = Poor) && bool_decide (band_of cfg candidate = Poor) &&
   is_measured (quality candidate) &&
   SFleb (f64_add (loss_ewma (quality candidate)) SAME_BAND_MARGIN) (loss_ewma (quality current))).

(* src: crates/dnet-core/src/failover.rs:384-395 best *)
Definition path_rtt (p : NetworkPath) : Duration := default DURATION_MAX (rtt_ewma (quality p)).
Definition best_cmp (cfg : FailoverConfig) (a b : NetworkPath) : comparison :=
  cmp_then (cmp_then (cmp_then
    (band_index (band_of cfg b) ?= band_index (band_of cfg a))
    (preference b ?= preference a))
    (path_rtt a ?= path_rtt b))
    (total_cmp (loss_ewma (quality a)) (loss_ewma (quality b))).

(* src: crates/dnet-core/src/failover.rs:376-396 best *)
Definition best (cfg : FailoverConfig) (paths : list NetworkPath) (eligible : NetworkPath → bool) :
    option NetworkPath :=
  min_by (best_cmp cfg) (List.filter (fun p => usable p && eligible p) paths).

(* src: crates/dnet-core/src/failover.rs:355-359 FailoverState::reset_timers *)
Definition reset_timers (s : FailoverState) : FailoverState := {|
  fs_carrying := fs_carrying s; moved_at := None; below_good_since := None; unusable_since := None;
  good_since := good_since s; moves := moves s;
|}.

(* src: crates/dnet-core/src/failover.rs:361-373 FailoverState::moved_to *)
Definition moved_to (s : FailoverState) (to : InterfaceId) (now : Instant) (counts : bool) : FailoverState := {|
  fs_carrying := Some to;
  moved_at := if counts then Some now else moved_at s;
  below_good_since := None;
  unusable_since := None;
  good_since := good_since s;
  moves := if counts then moves s ++ [now] else moves s;
|}.

(* src: crates/dnet-core/src/failover.rs:180-188 FailoverState::evaluate *)
Definition proves_good (cfg : FailoverConfig) (p : NetworkPath) : bool :=
  usable p && bool_decide (band_of cfg p = Good) && is_measured (quality p).

Definition track_good (cfg : FailoverConfig) (now : Instant) (g : gmap InterfaceId Instant) (p : NetworkPath) :
    gmap InterfaceId Instant :=
  if proves_good cfg p
  then match g !! interface_id p with Some _ => g | None => <[interface_id p := now]> g end
  else delete (interface_id p) g.

Definition update_good_since (cfg : FailoverConfig) (paths : list NetworkPath) (now : Instant)
    (g : gmap InterfaceId Instant) : gmap InterfaceId Instant :=
  fold_left (track_good cfg now) paths
    (filter (fun kv => existsb (fun p => bool_decide (interface_id p = kv.1) && usable p) paths = true) g).

(* src: crates/dnet-core/src/failover.rs:189-190 FailoverState::evaluate *)
Definition recent_moves (cfg : FailoverConfig) (now : Instant) (l : list Instant) : list Instant :=
  List.filter (fun at_ => saturating_duration_since now at_ <? window cfg) l.

(* src: crates/dnet-core/src/failover.rs:192-195 FailoverState::evaluate *)
Definition carrying_path (s : FailoverState) (paths : list NetworkPath) : option NetworkPath :=
  id ← fs_carrying s;
  p ← List.find (fun p => bool_decide (interface_id p = id)) paths;
  if usable p then Some p else None.

(* src: crates/dnet-core/src/failover.rs:239-241 FailoverState::evaluate *)
Definition held_for (now : Instant) (since : option Instant) (long : Duration) : bool :=
  match since with Some s => long <=? saturating_duration_since now s | None => false end.

(* src: crates/dnet-core/src/failover.rs:232-234 FailoverState::evaluate *)
Definition dwelled (cfg : FailoverConfig) (s : FailoverState) (now : Instant) : bool :=
  match moved_at s with Some at_ => min_dwell cfg <=? saturating_duration_since now at_ | None => true end.

(* src: crates/dnet-core/src/failover.rs:242-248 FailoverState::evaluate *)
Definition stable (cfg : FailoverConfig) (next : FailoverState) (now : Instant) (p : NetworkPath) : bool :=
  bool_decide (band_of cfg p = Good) && held_for now (good_since next !! interface_id p) (stable_for cfg).

(* src: crates/dnet-core/src/failover.rs:251 FailoverState::evaluate *)
Definition urgent (cfg : FailoverConfig) (next : FailoverState) (now : Instant) (b : QualityBand) : bool :=
  bool_decide (b = Unusable) && held_for now (unusable_since next) (unusable_for cfg).

(* src: crates/dnet-core/src/failover.rs:257-267 FailoverState::evaluate *)
Definition ready (cfg : FailoverConfig) (next : FailoverState) (now : Instant) (current p : NetworkPath) : bool :=
  let b := band_of cfg current in
  let proven :=
    if bool_decide (band_of cfg p = Good) then stable cfg next now p else is_measured (quality p) in
  negb (bool_decide (interface_id p = interface_id current)) && is_better cfg b current p &&
  (urgent cfg next now b || proven).

(* src: crates/dnet-core/src/failover.rs:284-288 FailoverState::evaluate *)
Definition preferred (cfg : FailoverConfig) (next : FailoverState) (now : Instant) (current p : NetworkPath) : bool :=
  negb (bool_decide (interface_id p = interface_id current)) && (preference current <? preference p) &&
  stable cfg next now p.

(* src: crates/dnet-core/src/failover.rs:197-223 FailoverState::evaluate *)
Definition forced (cfg : FailoverConfig) (s next : FailoverState) (paths : list NetworkPath) (now : Instant) :
    FailoverState * FailoverDecision :=
  let lost := bool_decide (fs_carrying s ≠ None) in
  match best cfg paths (fun _ => true) with
  | None =>
      (reset_timers {| fs_carrying := None; moved_at := moved_at next; below_good_since := below_good_since next;
         unusable_since := unusable_since next; good_since := good_since next; moves := moves next |}, NoPath)
  | Some to =>
      (moved_to next (interface_id to) now lost,
       Move (fs_carrying s) (interface_id to) (if lost then Lost else Acquired))
  end.

(* src: crates/dnet-core/src/failover.rs:225-302 FailoverState::evaluate *)
Definition voluntary (cfg : FailoverConfig) (s next : FailoverState) (paths : list NetworkPath) (now : Instant)
    (current : NetworkPath) : FailoverState * FailoverDecision :=
  let b := band_of cfg current in
  let next := {|
    fs_carrying := fs_carrying next; moved_at := moved_at next;
    below_good_since := if band_lt b Good then Some (default now (below_good_since s)) else None;
    unusable_since := if bool_decide (b = Unusable) then Some (default now (unusable_since s)) else None;
    good_since := good_since next; moves := moves next;
  |} in
  let in_budget := Z.of_nat (length (moves next)) <? max_moves cfg in
  if negb (dwelled cfg s now && in_budget) then (next, Stay)
  else
    let sustained := urgent cfg next now b || held_for now (below_good_since next) (degrade_for cfg) in
    match (if band_lt b Good && sustained then best cfg paths (ready cfg next now current) else None) with
    | Some to =>
        (moved_to next (interface_id to) now true,
         Move (Some (interface_id current)) (interface_id to) MoveDegraded)
    | None =>
        match (if bool_decide (b = Good) then best cfg paths (preferred cfg next now current) else None) with
        | Some to =>
            (moved_to next (interface_id to) now true,
             Move (Some (interface_id current)) (interface_id to) Preferred)
        | None => (next, Stay)
        end
    end.

(* src: crates/dnet-core/src/failover.rs:164-303 FailoverState::evaluate *)
Definition evaluate (s : FailoverState) (paths : list NetworkPath) (now : Instant) (cfg : FailoverConfig) :
    FailoverState * FailoverDecision :=
  let next := {|
    fs_carrying := fs_carrying s; moved_at := moved_at s; below_good_since := below_good_since s;
    unusable_since := unusable_since s;
    good_since := update_good_since cfg paths now (good_since s);
    moves := recent_moves cfg now (moves s);
  |} in
  match carrying_path s paths with
  | None => forced cfg s next paths now
  | Some current => voluntary cfg s next paths now current
  end.

(* src: crates/dnet-core/src/failover.rs:305-353 FailoverState::explain_staying *)
Definition explain_staying (s : FailoverState) (paths : list NetworkPath) (now : Instant) (cfg : FailoverConfig) :
    NoMove :=
  match carrying_path s paths with
  | None => OnlyPath
  | Some current =>
      let b := band_of cfg current in
      let others :=
        List.filter (fun p => usable p && negb (bool_decide (interface_id p = interface_id current))) paths in
      match others with
      | [] => OnlyPath
      | _ =>
          if negb (existsb (is_better cfg b current) others) then NoBetterPath
          else if negb (dwelled cfg s now) then Dwell
          else if max_moves cfg <=? Z.of_nat (length (recent_moves cfg now (moves s))) then Budget
          else Proving
      end
  end.

(** * Runs *)

(** One evaluation: when, over which paths, and what was decided; a run keeps them newest first. *)
Record Step : Type := mkStep { step_paths : list NetworkPath; step_at : Instant; step_decision : FailoverDecision }.

(** A move that replaced a carrying path, and so counts. *)
Definition counts (d : FailoverDecision) : bool :=
  match d with Move _ _ (Lost | MoveDegraded | Preferred) => true | _ => false end.
Definition is_voluntary (d : FailoverDecision) : bool :=
  match d with Move _ _ (MoveDegraded | Preferred) => true | _ => false end.

(** The times of the counted moves of a run, newest first. *)
Definition move_times (hist : list Step) : list Instant :=
  map step_at (List.filter (fun st => counts (step_decision st)) hist).

Section Run.
Context (cfg : FailoverConfig).

(** A run on a clock that does not go back, from a fresh machine or an adopted path. *)
Inductive run : FailoverState → list Step → Prop :=
  | run_new : run failover_new []
  | run_adopt path now : run (carrying_on path now) []
  | run_step s hist paths now s' d :
      run s hist → Forall (fun st => step_at st ≤ now) hist →
      evaluate s paths now cfg = (s', d) → run s' (mkStep paths now d :: hist).
End Run.

(** An unbroken stretch of evaluations, the newest of a run and the first of them at [since], each of
    which saw the path [id] with [P]. *)
Definition stretch (P : NetworkPath → bool) (id : InterfaceId) (since : Instant) (hist : list Step) : Prop :=
  ∃ newer first older, hist = newer ++ first :: older ∧ step_at first = since ∧
    ∀ st, st ∈ newer ++ [first] → ∃ p, p ∈ step_paths st ∧ interface_id p = id ∧ P p = true.

Definition below_good (cfg : FailoverConfig) (p : NetworkPath) : bool := usable p && band_lt (band_of cfg p) Good.
Definition unusable_band (cfg : FailoverConfig) (p : NetworkPath) : bool :=
  usable p && bool_decide (band_of cfg p = Unusable).

(** The evaluations since every path was last lost. *)
Fixpoint since_no_path (hist : list Step) : list Step :=
  match hist with
  | [] => []
  | st :: hist => if bool_decide (step_decision st = NoPath) then [] else st :: since_no_path hist
  end.

(** * Lemmas *)

#[export] Instance best_cmp_total cfg : TotalCompare (best_cmp cfg).
Proof.
  unfold best_cmp. repeat apply cmp_then_total_compare; try apply _.
  - apply (flip_total_compare (fun a b => band_index (band_of cfg a) ?= band_index (band_of cfg b))), _.
  - apply (flip_total_compare (fun a b => preference a ?= preference b)), _.
Qed.

Lemma best_elem cfg paths eligible p :
  best cfg paths eligible = Some p → p ∈ paths ∧ usable p = true ∧ eligible p = true.
Proof.
  intros H%(min_by_elem (best_cmp cfg)). apply elem_of_filter_bool in H as [? H]. bool_simpl. auto.
Qed.

Lemma best_none cfg paths eligible :
  best cfg paths eligible = None ↔ ∀ p, p ∈ paths → usable p = true → eligible p = false.
Proof.
  unfold best. rewrite min_by_None. split.
  - intros H p Hp Hu. destruct (eligible p) eqn:E; [|done].
    assert (p ∈ List.filter (fun p => usable p && eligible p) paths) as Hin
      by (apply elem_of_filter_bool; by rewrite Hu, E).
    rewrite H in Hin. by apply elem_of_nil in Hin.
  - intros H. destruct (List.filter _ paths) as [|p l] eqn:E; [done|].
    assert (p ∈ List.filter (fun p => usable p && eligible p) paths) as Hin by (rewrite E; set_solver).
    apply elem_of_filter_bool in Hin as [Hp Hue]. bool_simpl. rewrite H in *; done.
Qed.

Lemma carrying_path_spec s paths p :
  carrying_path s paths = Some p →
  p ∈ paths ∧ fs_carrying s = Some (interface_id p) ∧ usable p = true.
Proof.
  unfold carrying_path. intros (id & Hid & H)%bind_Some. apply bind_Some in H as (q & Hq & H).
  destruct (usable q) eqn:Hu; [|done]. injection H as ->.
  apply find_Some_elem in Hq as [Hp E]. apply bool_decide_eq_true in E. by subst.
Qed.

(** What an evaluation can decide, and what it does to the state. *)
Lemma evaluate_cases s paths now cfg s' d :
  evaluate s paths now cfg = (s', d) →
  good_since s' = update_good_since cfg paths now (good_since s) ∧
  moves s' = recent_moves cfg now (moves s) ++ (if counts d then [now] else []) ∧
  match d with
  | Stay => ∃ p, carrying_path s paths = Some p ∧ fs_carrying s' = fs_carrying s ∧ moved_at s' = moved_at s ∧
      below_good_since s' = (if band_lt (band_of cfg p) Good then Some (default now (below_good_since s)) else None) ∧
      unusable_since s' = (if bool_decide (band_of cfg p = Unusable) then Some (default now (unusable_since s)) else None)
  | NoPath => carrying_path s paths = None ∧ (∀ p, p ∈ paths → usable p = false) ∧ fs_carrying s' = None ∧
      moved_at s' = None ∧ below_good_since s' = None ∧ unusable_since s' = None
  | Move from to reason =>
      from = fs_carrying s ∧ fs_carrying s' = Some to ∧ below_good_since s' = None ∧ unusable_since s' = None ∧
      moved_at s' = (if counts d then Some now else moved_at s) ∧
      match reason with
      | Acquired => fs_carrying s = None ∧
          ∃ t, interface_id t = to ∧ best cfg paths (fun _ => true) = Some t
      | Lost => fs_carrying s ≠ None ∧ carrying_path s paths = None ∧
          ∃ t, interface_id t = to ∧ best cfg paths (fun _ => true) = Some t
      | _ => ∃ p t next, carrying_path s paths = Some p ∧ interface_id t = to ∧
          good_since next = update_good_since cfg paths now (good_since s) ∧
          unusable_since next =
            (if bool_decide (band_of cfg p = Unusable) then Some (default now (unusable_since s)) else None) ∧
          below_good_since next =
            (if band_lt (band_of cfg p) Good then Some (default now (below_good_since s)) else None) ∧
          dwelled cfg s now = true ∧ Z.of_nat (length (recent_moves cfg now (moves s))) < max_moves cfg ∧
          match reason with
          | MoveDegraded => band_lt (band_of cfg p) Good = true ∧
              (urgent cfg next now (band_of cfg p) = true ∨
               held_for now (below_good_since next) (degrade_for cfg) = true) ∧
              best cfg paths (ready cfg next now p) = Some t
          | _ => band_of cfg p = Good ∧ best cfg paths (preferred cfg next now p) = Some t
          end
      end
  end.
Proof.
  unfold evaluate. set (next0 := mkFailoverState _ _ _ _ _ _).
  destruct (carrying_path s paths) as [p|] eqn:Ec.
  - pose proof (carrying_path_spec _ _ _ Ec) as (_ & Hc & _).
    unfold voluntary. cbv zeta. set (next := mkFailoverState _ _ _ _ _ _).
    destruct (negb (dwelled cfg s now && _)) eqn:Ed.
    { intros [= <- <-]. simpl. rewrite app_nil_r. eauto 10. }
    apply negb_false_iff, andb_true_iff in Ed as [Ed Eb]. apply Z.ltb_lt in Eb.
    destruct (if _ && _ then _ else _) as [t|] eqn:E1.
    { intros [= <- <-]. destruct (band_lt _ Good && _) eqn:E; [|done].
      apply andb_true_iff in E as [E2 E3]. apply orb_true_iff in E3.
      split_and!; try done. exists p, t, next. by split_and!. }
    destruct (if bool_decide (band_of cfg p = Good) then best cfg paths (preferred cfg next now p) else None)
      as [t|] eqn:E2.
    { intros [= <- <-]. case_bool_decide as E; [|done].
      split_and!; try done. exists p, t, next. by split_and!. }
    intros [= <- <-]. simpl. rewrite app_nil_r. eauto 10.
  - unfold forced. destruct (best cfg paths (fun _ => true)) as [t|] eqn:Eb.
    + intros [= <- <-]. case_bool_decide as El; simpl; rewrite ?app_nil_r; split_and!; try done; eauto;
        destruct (fs_carrying s); try done; by destruct El.
    + intros [= <- <-]. simpl. rewrite app_nil_r. split_and!; try done.
      intros p Hp. destruct (usable p) eqn:E; [|done].
      by rewrite (proj1 (best_none cfg paths (fun _ => true)) Eb p Hp E).
Qed.

Lemma recent_recent cfg now now' l :
  now ≤ now' → recent_moves cfg now' (recent_moves cfg now l) = recent_moves cfg now' l.
Proof.
  intros Hle. induction l as [|t l IH]; [done|]. unfold recent_moves in *. simpl.
  destruct (saturating_duration_since now t <? window cfg) eqn:E; simpl.
  - by rewrite IH.
  - rewrite IH. apply Z.ltb_ge in E.
    replace (saturating_duration_since now' t <? window cfg) with false; [done|].
    symmetry. apply Z.ltb_ge. unfold saturating_duration_since in *. lia.
Qed.

Lemma recent_rev cfg now l : recent_moves cfg now (rev l) = rev (recent_moves cfg now l).
Proof.
  unfold recent_moves. induction l as [|t l IH]; [done|]. simpl. rewrite List.filter_app, IH. simpl.
  case_match; simpl; [done|by rewrite app_nil_r].
Qed.

Lemma recent_app cfg now l1 l2 : recent_moves cfg now (l1 ++ l2) = recent_moves cfg now l1 ++ recent_moves cfg now l2.
Proof. apply List.filter_app. Qed.

Lemma failover_stretch_cons P id since hist st :
  stretch P id since hist → (∃ p, p ∈ step_paths st ∧ interface_id p = id ∧ P p = true) →
  stretch P id since (st :: hist).
Proof.
  intros (newer & first & older & -> & Hf & Hs) Hp. exists (st :: newer), first, older.
  split_and!; [done..|]. intros x [->|Hx]%elem_of_cons; [done|by apply Hs].
Qed.

Lemma failover_stretch_start P id hist st :
  (∃ p, p ∈ step_paths st ∧ interface_id p = id ∧ P p = true) → stretch P id (step_at st) (st :: hist).
Proof.
  intros Hp. exists [], st, hist. split_and!; [done..|]. by intros x ->%list_elem_of_singleton.
Qed.

Lemma failover_stretch_default P id hist st o :
  (∀ t, o = Some t → stretch P id t hist) →
  (∃ p, p ∈ step_paths st ∧ interface_id p = id ∧ P p = true) →
  stretch P id (default (step_at st) o) (st :: hist).
Proof.
  intros Ho Hp. destruct o; simpl; [apply failover_stretch_cons; auto|by apply failover_stretch_start].
Qed.

(** An entry of the table of good paths: a path that proves good now, since now or since before. *)
Lemma update_good_since_lookup cfg paths now g id t :
  update_good_since cfg paths now g !! id = Some t →
  (∃ p, p ∈ paths ∧ interface_id p = id ∧ proves_good cfg p = true) ∧ (g !! id = Some t ∨ t = now).
Proof.
  unfold update_good_since.
  set (g0 := filter _ g).
  assert (H0 : ∀ t', g0 !! id = Some t' → g !! id = Some t' ∧ ∃ p, p ∈ paths ∧ interface_id p = id).
  { intros t' [Hg Hex]%map_lookup_filter_Some. split; [done|].
    apply existsb_exists_elem in Hex as (p & Hp & E). bool_simpl. eauto. }
  clearbody g0.
  assert (Hfold : ∀ done_ todo g1, paths = done_ ++ todo →
    (∀ t', g1 !! id = Some t' → (g !! id = Some t' ∨ t' = now) ∧
       ((∃ p, p ∈ done_ ∧ interface_id p = id ∧ proves_good cfg p = true) ∨
        (∃ p, p ∈ todo ∧ interface_id p = id))) →
    fold_left (track_good cfg now) todo g1 !! id = Some t →
    (∃ p, p ∈ paths ∧ interface_id p = id ∧ proves_good cfg p = true) ∧ (g !! id = Some t ∨ t = now)).
  { intros done_ todo. revert done_. induction todo as [|p todo IH]; intros done_ g1 Hpaths Hg1 Hl.
    - simpl in Hl. destruct (Hg1 t Hl) as [Ht [(p & Hp & ?)|(p & Hp%elem_of_nil & _)]]; [|done].
      split; [|done]. exists p. rewrite Hpaths, app_nil_r. done.
    - simpl in Hl. apply (IH (done_ ++ [p]) (track_good cfg now g1 p)); [by rewrite <-app_assoc| |done].
      intros t' Ht'. unfold track_good in Ht'.
      assert (Hnew : proves_good cfg p = true → interface_id p = id →
        ∃ q, q ∈ done_ ++ [p] ∧ interface_id q = id ∧ proves_good cfg q = true).
      { intros ? ?. exists p. rewrite elem_of_app. split; [right; by left|done]. }
      destruct (proves_good cfg p) eqn:Ep.
      + destruct (decide (interface_id p = id)) as [Hid|Hid].
        * split; [|left; by apply Hnew]. subst id. destruct (g1 !! interface_id p) as [t1|] eqn:E1.
          -- apply (Hg1 t'). congruence.
          -- rewrite lookup_insert_eq in Ht'. right. congruence.
        * assert (g1 !! id = Some t') as Hl1.
          { destruct (g1 !! interface_id p); [done|]. by rewrite lookup_insert_ne in Ht'. }
          destruct (Hg1 t' Hl1) as [? [(q & ? & ?)|(q & [->|Hq]%elem_of_cons & ?)]]; split; try done;
            [left; exists q; rewrite elem_of_app; auto|right; eauto].
      + destruct (decide (interface_id p = id)) as [Hid|Hid].
        * subst id. by rewrite lookup_delete_eq in Ht'.
        * rewrite lookup_delete_ne in Ht' by done.
          destruct (Hg1 t' Ht') as [? [(q & ? & ?)|(q & [->|Hq]%elem_of_cons & ?)]]; split; try done;
            [left; exists q; rewrite elem_of_app; auto|right; eauto]. }
  apply (Hfold [] paths g0 eq_refl). intros t' Ht'. destruct (H0 t' Ht'). auto.
Qed.

(** What a run makes true of the machine's memory. *)
Record inv (cfg : FailoverConfig) (s : FailoverState) (hist : list Step) : Prop := {
  inv_moves now : Forall (fun st => step_at st ≤ now) hist →
    recent_moves cfg now (moves s) = rev (recent_moves cfg now (move_times hist));
  inv_moved_at : moved_at s = head (move_times (since_no_path hist));
  inv_good id t : good_since s !! id = Some t → stretch (proves_good cfg) id t hist;
  inv_below id t : fs_carrying s = Some id → below_good_since s = Some t → stretch (below_good cfg) id t hist;
  inv_unusable id t : fs_carrying s = Some id → unusable_since s = Some t → stretch (unusable_band cfg) id t hist;
}.

Lemma inv_moves_step cfg s hist paths now s' d :
  inv cfg s hist → Forall (fun st => step_at st ≤ now) hist →
  moves s' = recent_moves cfg now (moves s) ++ (if counts d then [now] else []) →
  ∀ now', Forall (fun st => step_at st ≤ now') (mkStep paths now d :: hist) →
    recent_moves cfg now' (moves s') = rev (recent_moves cfg now' (move_times (mkStep paths now d :: hist))).
Proof.
  intros Hinv Hclock -> now' [Hnow Hclock']%Forall_cons. simpl in Hnow.
  rewrite recent_app, recent_recent, (inv_moves _ _ _ Hinv now') by done.
  unfold move_times at 2. cbn [List.filter step_decision].
  destruct (counts d); [|by rewrite app_nil_r].
  change (map step_at _) with (now :: move_times hist).
  unfold recent_moves at 2 3. simpl. case_match; simpl; [done|by rewrite app_nil_r].
Qed.

Lemma failover_run_inv cfg s hist : run cfg s hist → inv cfg s hist.
Proof.
  induction 1 as [|path now|s hist paths now s' d Hrun IH Hclock Hev]; [split; done..|].
  destruct (evaluate_cases _ _ _ _ _ _ Hev) as (Hg & Hm & Hd). split.
  - by eapply inv_moves_step.
  - pose proof (inv_moved_at _ _ _ IH) as Hma. unfold since_no_path. fold since_no_path. simpl.
    case_bool_decide as En; simpl in En.
    + subst d. by destruct Hd as (_ & _ & _ & -> & _).
    + unfold move_times in *. simpl. destruct d as [|from to r|]; [..|done].
      * destruct Hd as (p & _ & _ & -> & _). done.
      * destruct Hd as (_ & _ & _ & _ & -> & _). by destruct (counts _).
  - intros id t Hl. rewrite Hg in Hl. apply update_good_since_lookup in Hl as [Hp [Hl| ->]].
    + apply failover_stretch_cons; [by apply (inv_good _ _ _ IH)|done].
    + by apply (failover_stretch_start _ _ _ (mkStep paths now d)).
  - intros id t Hc Ht. destruct d as [|from to r|].
    + destruct Hd as (p & Hp & Hc' & _ & Hb & _). apply carrying_path_spec in Hp as (Hin & Hid & Hu).
      rewrite Hb in Ht. destruct (band_lt _ Good) eqn:E; [|done]. injection Ht as <-.
      assert (interface_id p = id) as Hpid by congruence.
      apply (failover_stretch_default _ _ _ (mkStep paths now Stay)).
      * intros t' Ht'. apply (inv_below _ _ _ IH); [congruence|done].
      * exists p. unfold below_good. by rewrite Hu, E.
    + destruct Hd as (_ & _ & Hn & _). congruence.
    + destruct Hd as (_ & _ & Hn & _). congruence.
  - intros id t Hc Ht. destruct d as [|from to r|].
    + destruct Hd as (p & Hp & Hc' & _ & _ & Hb). apply carrying_path_spec in Hp as (Hin & Hid & Hu).
      rewrite Hb in Ht. case_bool_decide as E; [|done]. injection Ht as <-.
      assert (interface_id p = id) as Hpid by congruence.
      apply (failover_stretch_default _ _ _ (mkStep paths now Stay)).
      * intros t' Ht'. apply (inv_unusable _ _ _ IH); [congruence|done].
      * exists p. unfold unusable_band. rewrite Hu. split_and!; [done..|]. by apply bool_decide_eq_true.
    + destruct Hd as (_ & _ & _ & Hn & _). congruence.
    + destruct Hd as (_ & _ & Hn & _). congruence.
Qed.

Lemma run_suffix cfg s newer hist : run cfg s (newer ++ hist) → ∃ s', run cfg s' hist.
Proof.
  revert s. induction newer as [|st newer IH]; intros s Hr; [eauto|].
  inversion Hr; subst. eauto.
Qed.

Lemma voluntary_inv d : is_voluntary d = true →
  ∃ from to, d = Move from to MoveDegraded ∨ d = Move from to Preferred.
Proof. destruct d as [|from to []|]; try done; eauto. Qed.

Lemma held_for_iff now o long : held_for now o long = true ↔ ∃ t, o = Some t ∧ long ≤ saturating_duration_since now t.
Proof. destruct o; simpl; [rewrite Z.leb_le; naive_solver|naive_solver]. Qed.

(** The gate every voluntary move passes. *)
Lemma voluntary_gate cfg s paths now s' d :
  evaluate s paths now cfg = (s', d) → is_voluntary d = true →
  dwelled cfg s now = true ∧ Z.of_nat (length (recent_moves cfg now (moves s))) < max_moves cfg.
Proof.
  intros Hev Hv. destruct (evaluate_cases _ _ _ _ _ _ Hev) as (_ & _ & Hd).
  apply voluntary_inv in Hv as (from & to & [-> | ->]);
    destruct Hd as (_ & _ & _ & _ & _ & p & t & next & _ & _ & _ & _ & _ & Hdw & Hb & _); auto.
Qed.

(** * Properties *)

(** C12. The connection cannot flap (SC-007).  In every run, whatever the paths and their quality do, at every
    voluntary move the moves that replaced a carrying path within the last [window], that one
    included, are at most [max_moves]; and the move comes at least [min_dwell] after the latest such move
    since every path was last lost. *)
Theorem no_flapping cfg s newer st older
    (Hrun : run cfg s (newer ++ st :: older)) (Hvol : is_voluntary (step_decision st) = true)
    (Hwin : 0 < window cfg) :
  Z.of_nat (length (recent_moves cfg (step_at st) (move_times (st :: older)))) ≤ max_moves cfg ∧
  (∀ t, head (move_times (since_no_path older)) = Some t →
    min_dwell cfg ≤ saturating_duration_since (step_at st) t).
Proof.
  apply run_suffix in Hrun as [s1 Hrun]. inversion Hrun as [| |s0 hist paths now s' d Hrun0 Hclock Hev]; subst.
  pose proof (failover_run_inv _ _ _ Hrun0) as Hinv. simpl in *.
  destruct (voluntary_gate _ _ _ _ _ _ Hev Hvol) as [Hdw Hb]. split.
  - assert (counts d = true) as Hc by (apply voluntary_inv in Hvol as (? & ? & [-> | ->]); done).
    unfold move_times. simpl. rewrite Hc. simpl. fold (move_times older).
    rewrite (inv_moves _ _ _ Hinv now Hclock), length_rev in Hb.
    unfold recent_moves in *. simpl. case_match; simpl; lia.
  - intros t Ht. rewrite <-(inv_moved_at _ _ _ Hinv) in Ht. unfold dwelled in Hdw. rewrite Ht in Hdw.
    by apply Z.leb_le.
Qed.

(** What each decision of a run means.  [Stay] only while the carrying path is there and usable; [NoPath]
    only when no path is usable, and then nothing carries; a [Move] is always to a usable path that is
    listed, and that path carries from then on.  [Acquired] replaces nothing, [Lost] a path whose link
    is gone; a [Degraded] move leaves a path that has been below good without a break for
    [degrade_for], or unusable for [unusable_for], for one that is better; a [Preferred] move goes to a path of
    higher preference.  And but for the escape from an unusable path, a move to a good path needs it to
    have been measured good without a break for [stable_for]. *)
Theorem decisions_justified cfg s hist paths now s' d
    (Hrun : run cfg s hist) (Hclock : Forall (fun st => step_at st ≤ now) hist)
    (Hev : evaluate s paths now cfg = (s', d)) :
  let hist' := mkStep paths now d :: hist in
  let stable_stretch id := ∃ since, stable_for cfg ≤ saturating_duration_since now since ∧
    stretch (proves_good cfg) id since hist' in
  match d with
  | Stay => fs_carrying s' = fs_carrying s ∧ ∃ p, carrying_path s paths = Some p
  | NoPath => fs_carrying s' = None ∧ ∀ p, p ∈ paths → usable p = false
  | Move from to reason =>
      from = fs_carrying s ∧ fs_carrying s' = Some to ∧
      ∃ t, t ∈ paths ∧ interface_id t = to ∧ usable t = true ∧
        match reason with
        | Acquired => from = None
        | Lost => from ≠ None ∧ carrying_path s paths = None
        | MoveDegraded => ∃ p, carrying_path s paths = Some p ∧ to ≠ interface_id p ∧
            is_better cfg (band_of cfg p) p t = true ∧
            ((∃ since, unusable_for cfg ≤ saturating_duration_since now since ∧
                stretch (unusable_band cfg) (interface_id p) since hist') ∨
             (∃ since, degrade_for cfg ≤ saturating_duration_since now since ∧
                stretch (below_good cfg) (interface_id p) since hist') ∧
             (band_of cfg t = Good → stable_stretch to))
        | Preferred => ∃ p, carrying_path s paths = Some p ∧ to ≠ interface_id p ∧
            band_of cfg p = Good ∧ preference p < preference t ∧ stable_stretch to
        end
  end.
Proof.
  pose proof (failover_run_inv _ _ _ Hrun) as Hinv.
  destruct (evaluate_cases _ _ _ _ _ _ Hev) as (Hg & _ & Hd). cbv zeta.
  assert (Hstable : ∀ next t, good_since next = update_good_since cfg paths now (good_since s) →
    stable cfg next now t = true →
    ∃ since, stable_for cfg ≤ saturating_duration_since now since ∧
      stretch (proves_good cfg) (interface_id t) since (mkStep paths now d :: hist)).
  { intros next t Hgn Hst. unfold stable in Hst. apply andb_true_iff in Hst as [_ Hst].
    apply held_for_iff in Hst as (since & Hl & Hlong). rewrite Hgn in Hl. exists since. split; [done|].
    apply update_good_since_lookup in Hl as [Hp [Hl| ->]].
    - apply failover_stretch_cons; [by apply (inv_good _ _ _ Hinv)|done].
    - by apply (failover_stretch_start _ _ _ (mkStep paths now d)). }
  destruct d as [|from to r|].
  - destruct Hd as (p & Hp & Hc & _). eauto.
  - destruct Hd as (Hfrom & Hto & _ & _ & _ & Hr). split; [done|]. split; [done|].
    destruct r.
    + destruct Hr as (Hn & t & <- & Hb). apply best_elem in Hb as (? & ? & _). exists t. split_and!; congruence.
    + destruct Hr as (Hn & Hcp & t & <- & Hb). apply best_elem in Hb as (? & ? & _). exists t.
      split_and!; try done. congruence.
    + destruct Hr as (p & t & next & Hp & <- & Hgn & Hun & Hbn & _ & _ & Hlt & Hlong & Hb).
      apply best_elem in Hb as (Ht & Hut & Hready). unfold ready in Hready.
      apply andb_true_iff in Hready as [Hready Hprov]. bool_simpl.
      exists t. split_and!; try done. exists p. split_and!; try done.
      pose proof (carrying_path_spec _ _ _ Hp) as (Hin & Hid & Hu).
      destruct (urgent cfg next now (band_of cfg p)) eqn:Eu.
      * left. unfold urgent in Eu. apply andb_true_iff in Eu as [Eu Hheld]. bool_simpl.
        apply held_for_iff in Hheld as (since & Hs & Hl).
        rewrite Hun, bool_decide_eq_true_2 in Hs by done. injection Hs as <-.
        eexists. split; [exact Hl|]. apply (failover_stretch_default _ _ _ (mkStep paths now _)).
        -- intros t' Ht'. by apply (inv_unusable _ _ _ Hinv).
        -- exists p. unfold unusable_band. rewrite Hu. split_and!; [done..|]. by apply bool_decide_eq_true.
      * right. destruct Hlong as [?|Hlong]; [done|]. split.
        -- apply held_for_iff in Hlong as (since & Hs & Hl). rewrite Hbn, Hlt in Hs. injection Hs as <-.
           eexists. split; [exact Hl|]. apply (failover_stretch_default _ _ _ (mkStep paths now _)).
           ++ intros t' Ht'. by apply (inv_below _ _ _ Hinv).
           ++ exists p. unfold below_good. by rewrite Hu, Hlt.
        -- intros Hgood. apply (Hstable next t Hgn). simpl in *.
           by rewrite bool_decide_eq_true_2 in Hprov.
    + destruct Hr as (p & t & next & Hp & <- & Hgn & _ & _ & _ & _ & Hgood & Hb).
      apply best_elem in Hb as (Ht & Hut & Hpref). unfold preferred in Hpref. bool_simpl.
      exists t. split_and!; try done. exists p. split_and!; try done. by apply (Hstable next t Hgn).
  - destruct Hd as (_ & Hno & Hn & _). done.
Qed.

(** The decision and its explanation never disagree: whenever the machine moves off a degraded
    path, it would at that moment have explained staying by "a better path has not yet proven itself"
    only; so if it says there is no other or no better path, or that it is waiting out the dwell or the
    budget, it does not make that move.  And it says there is only one path exactly when no other path is
    usable. *)
Theorem explanation_agrees cfg s paths now s' d
    (Hev : evaluate s paths now cfg = (s', d)) :
  (∀ from to, d = Move from to MoveDegraded → explain_staying s paths now cfg = Proving) ∧
  (∀ p, carrying_path s paths = Some p →
    explain_staying s paths now cfg = OnlyPath ↔
    ∀ q, q ∈ paths → usable q = true → interface_id q = interface_id p).
Proof.
  destruct (evaluate_cases _ _ _ _ _ _ Hev) as (_ & _ & Hd). split.
  - intros from to ->.
    destruct Hd as (_ & _ & _ & _ & _ & p & t & next & Hp & _ & _ & _ & _ & Hdw & Hb & _ & _ & Hbest).
    apply best_elem in Hbest as (Ht & Hu & Hready). unfold ready in Hready. bool_simpl.
    unfold explain_staying. rewrite Hp. cbv zeta.
    set (others := List.filter _ paths).
    assert (t ∈ others) as Hin.
    { apply elem_of_filter_bool. split; [done|]. rewrite Hu. by rewrite bool_decide_eq_false_2. }
    assert (existsb (is_better cfg (band_of cfg p) p) others = true) as Hex
      by (apply existsb_exists_elem; eauto).
    destruct others as [|o os]; [by apply elem_of_nil in Hin|].
    rewrite Hex, Hdw. simpl. apply Z.leb_gt in Hb. by rewrite Hb.
  - intros p Hp. unfold explain_staying. rewrite Hp. cbv zeta.
    set (others := List.filter _ paths).
    assert (Ho : others = [] ↔ ∀ q, q ∈ paths → usable q = true → interface_id q = interface_id p).
    { split.
      - intros Hn q Hq Hu. destruct (decide (interface_id q = interface_id p)) as [|Hne]; [done|].
        assert (q ∈ others) as Hin
          by (apply elem_of_filter_bool; rewrite Hu, bool_decide_eq_false_2; done).
        rewrite Hn in Hin. by apply elem_of_nil in Hin.
      - intros Hall. destruct others as [|o os] eqn:E; [done|].
        assert (o ∈ others) as Hin by (rewrite E; set_solver).
        apply elem_of_filter_bool in Hin as [Hq Hc]. bool_simpl. by destruct H0; apply Hall. }
    rewrite <-Ho. destruct others as [|o os]; [done|].
    split; [|done]. destruct (negb _); [done|]. destruct (negb _); [done|]. by destruct (_ <=? _).
Qed.

(** * The hypotheses hold: a poor path left for a good one *)

Definition demo_path (id : InterfaceId) (loss : f64) (pref : Z) : NetworkPath := {|
  interface_id := id; path_kind := Wifi; gateway := Some (V4 167772161);
  quality := mkPathQuality loss (Some (from_millis 40)) (Some (from_millis 5));
  role := Standby; preference := pref;
|}.
Definition demo_paths : list NetworkPath := [demo_path 1 (f64_lit 1 4) 0; demo_path 2 f64_zero 0].

Definition demo_first : FailoverState * FailoverDecision :=
  evaluate (carrying_on 1 0) demo_paths (from_secs 1) failover_config_default.
Definition demo_second : FailoverState * FailoverDecision :=
  evaluate demo_first.1 demo_paths (from_secs 32) failover_config_default.
Definition demo_hist : list Step := [mkStep demo_paths (from_secs 1) Stay].

Lemma demo_run_first : run failover_config_default demo_first.1 demo_hist.
Proof.
  apply (run_step _ (carrying_on 1 0) [] demo_paths (from_secs 1)); [constructor|constructor|].
  vm_compute. reflexivity.
Qed.

Lemma demo_clock : Forall (fun st => step_at st ≤ from_secs 32) demo_hist.
Proof. repeat constructor. vm_compute. discriminate. Qed.

Lemma demo_run_second :
  run failover_config_default demo_second.1
    (mkStep demo_paths (from_secs 32) (Move (Some 1) 2 MoveDegraded) :: demo_hist).
Proof.
  apply (run_step _ demo_first.1); [exact demo_run_first|exact demo_clock|vm_compute; reflexivity].
Qed.

Lemma no_flapping_witness :
  Z.of_nat (length (recent_moves failover_config_default (from_secs 32)
    (move_times (mkStep demo_paths (from_secs 32) (Move (Some 1) 2 MoveDegraded) :: demo_hist)))) ≤ 4.
Proof.
  exact (proj1 (no_flapping failover_config_default demo_second.1 []
    (mkStep demo_paths (from_secs 32) (Move (Some 1) 2 MoveDegraded)) demo_hist
    demo_run_second eq_refl ltac:(vm_compute; reflexivity))).
Defined.

Lemma decisions_justified_witness :
  ∃ s', evaluate demo_first.1 demo_paths (from_secs 32) failover_config_default =
    (s', Move (Some 1) 2 MoveDegraded) ∧ fs_carrying s' = Some 2.
Proof.
  eexists. assert (Hev : evaluate demo_first.1 demo_paths (from_secs 32) failover_config_default =
    (demo_second.1, Move (Some 1) 2 MoveDegraded)) by (vm_compute; reflexivity).
  split; [exact Hev|].
  exact (proj1 (proj2 (decisions_justified failover_config_default demo_first.1 demo_hist demo_paths (from_secs 32)
    _ _ demo_run_first demo_clock Hev))).
Defined.

Lemma explanation_agrees_witness :
  explain_staying demo_first.1 demo_paths (from_secs 32) failover_config_default = Proving.
Proof.
  exact (proj1 (explanation_agrees failover_config_default demo_first.1 demo_paths (from_secs 32)
    demo_second.1 (Move (Some 1) 2 MoveDegraded) ltac:(vm_compute; reflexivity)) (Some 1) 2 eq_refl).
Defined.
