(* ===== verification/Telemetry.v ===== *)
(** What the interface shows about the networks and the session (crates/dnet-core/src/telemetry.rs). *)

From Stdlib Require Import SpecFloat.
From S2P Require Import Prelude Float Profile IpText Quality Degraded Session.

(** * Definitions *)

(* src: crates/dnet-core/src/telemetry.rs:32-33 HISTORY_LEN *)
Definition HISTORY_LEN : nat := 60.

(* src: crates/dnet-core/src/telemetry.rs:35-36 TRACE_LEN *)
Definition TRACE_LEN : nat := 40.

(* src: crates/dnet-core/src/telemetry.rs:38-39 MIN_FOR_TYPICAL *)
Definition MIN_FOR_TYPICAL : nat := 8.

(* src: crates/dnet-core/src/telemetry.rs:41-47 Reading *)
Inductive Reading : Type :=
  | Rtt (ms : f32)
  | ReadingLost.

(* src: crates/dnet-core/src/telemetry.rs:49-53 PathHistory *)
Record PathHistory : Type := mkPathHistory {
  readings : gmap InterfaceId (list Reading);
}.

(* src: crates/dnet-core/src/telemetry.rs:56-58 PathHistory::new *)
Definition history_new : PathHistory := {| readings := ∅ |}.

(* src: crates/dnet-core/src/telemetry.rs:62-65 PathHistory::record *)
Definition reading_of (sample : PathSample) : Reading :=
  match sample with
  | SampleAnswered rtt => Rtt (f32_mul (as_secs_f32 rtt) (f32_of_Z 1000))
  | SampleLost => ReadingLost
  end.

(* src: crates/dnet-core/src/telemetry.rs:60-71 PathHistory::record *)
Definition history_record (h : PathHistory) (path : InterfaceId) (sample : PathSample) : PathHistory :=
  let ring := default [] (readings h !! path) in
  let ring := if bool_decide (length ring = HISTORY_LEN) then tail ring else ring in
  {| readings := <[path := ring ++ [reading_of sample]]> (readings h) |}.

(* src: crates/dnet-core/src/telemetry.rs:73-77 PathHistory::retain *)
Definition history_retain (h : PathHistory) (keep : InterfaceId → bool) : PathHistory :=
  {| readings := filter (fun kv => keep kv.1 = true) (readings h) |}.

(* src: crates/dnet-core/src/telemetry.rs:88-91 PathHistory::trace *)
Definition answered_ms (r : Reading) : option f32 :=
  match r with Rtt ms => Some ms | ReadingLost => None end.

(* src: crates/dnet-core/src/telemetry.rs:79-93 PathHistory::trace *)
Definition trace (h : PathHistory) (path : InterfaceId) : list (option f32) :=
  match readings h !! path with
  | None => []
  | Some ring => map answered_ms (drop (length ring - TRACE_LEN) ring)
  end.

(* src: crates/dnet-core/src/telemetry.rs:111 PathHistory::typical *)
Definition percentile_index (len : nat) (q : f32) : Z :=
  f32_round_to_usize (f32_mul (f32_of_Z (Z.of_nat len - 1)) q).

(** The outer [None] is a panic of the indexing. *)
(* src: crates/dnet-core/src/telemetry.rs:95-113 PathHistory::typical *)
Definition typical (h : PathHistory) (path : InterfaceId) : option (option (f32 * f32)) :=
  match readings h !! path with
  | None => Some None
  | Some ring =>
      let answered := omap answered_ms ring in
      if bool_decide (length answered < MIN_FOR_TYPICAL)%nat then Some None
      else
        let answered := sort_by total_cmp answered in
        let at_ q := answered !! Z.to_nat (percentile_index (length answered) q) in
        low ← at_ (f32_lit 1 10);
        high ← at_ (f32_lit 9 10);
        Some (Some (low, high))
  end.

(* src: crates/dnet-core/src/telemetry.rs:116-134 PathView *)
Record PathView : Type := mkPathView {
  view_id : InterfaceId;
  view_kind : PathKind;
  view_name : option string;
  view_role : PathRole;
  view_measured : bool;
  view_band : option QualityBand;
  view_rtt : option Duration;
  view_jitter : option Duration;
  view_loss : option f64;
  view_trace_ms : list (option f32);
  view_typical_ms : option (f32 * f32);
}.

(* src: crates/dnet-core/src/telemetry.rs:136-141 PathsSnapshot *)
Record PathsSnapshot : Type := mkPathsSnapshot {
  snapshot_paths : list PathView;
  snapshot_degradation : option Degradation;
}.

(* src: crates/dnet-core/src/telemetry.rs:143-158 SessionStats *)
Record SessionStats : Type := mkSessionStats {
  started : option Instant;
  network_changes : Z;
  changes_that_drop_connections : Z;
  method_switches : Z;
  endpoint_switches : Z;
  selected_once : bool;
  degraded_periods : Z;
  degraded_since : option Instant;
  longest_degraded : Duration;
}.

(* src: crates/dnet-core/src/telemetry.rs:160-171 StatsSummary *)
Record StatsSummary : Type := mkStatsSummary {
  sum_connected_for : Duration;
  sum_network_changes : Z;
  sum_changes_that_drop_connections : Z;
  sum_method_switches : Z;
  sum_endpoint_switches : Z;
  sum_degraded_periods : Z;
  sum_longest_degraded : Duration;
}.

(* src: crates/dnet-core/src/telemetry.rs:174-176 SessionStats::new *)
Definition stats_new : SessionStats := {|
  started := None; network_changes := 0; changes_that_drop_connections := 0; method_switches := 0;
  endpoint_switches := 0; selected_once := false; degraded_periods := 0; degraded_since := None;
  longest_degraded := 0;
|}.

(* src: crates/dnet-core/src/telemetry.rs:178-184 SessionStats::begin *)
Definition stats_begin (s : SessionStats) (now : Instant) : SessionStats := {|
  started := Some now; network_changes := 0; changes_that_drop_connections := 0; method_switches := 0;
  endpoint_switches := 0; selected_once := false; degraded_periods := 0; degraded_since := None;
  longest_degraded := 0;
|}.

(* src: crates/dnet-core/src/telemetry.rs:186-189 SessionStats::end *)
Definition stats_end (s : SessionStats) : SessionStats := stats_new.

(* src: crates/dnet-core/src/telemetry.rs:191-194 SessionStats::active *)
Definition stats_active (s : SessionStats) : bool := bool_decide (started s ≠ None).

(* src: crates/dnet-core/src/telemetry.rs:196-236 SessionStats::record *)
Definition stats_record (s : SessionStats) (event : ConnectionEvent) (now : Instant) : SessionStats :=
  match started s with
  | None => s
  | Some _ =>
      match event with
      | PathChanged (Some _) _ tier_at_time => {|
          started := started s;
          network_changes := u32_wrapping_add (network_changes s) 1;
          changes_that_drop_connections :=
            if bool_decide (tier_at_time = Tier2) then u32_wrapping_add (changes_that_drop_connections s) 1
            else changes_that_drop_connections s;
          method_switches := method_switches s; endpoint_switches := endpoint_switches s;
          selected_once := selected_once s; degraded_periods := degraded_periods s;
          degraded_since := degraded_since s; longest_degraded := longest_degraded s |}
      | ProfileSelected _ _ => {|
          started := started s; network_changes := network_changes s;
          changes_that_drop_connections := changes_that_drop_connections s;
          method_switches :=
            if selected_once s then u32_wrapping_add (method_switches s) 1 else method_switches s;
          endpoint_switches := endpoint_switches s;
          selected_once := true; degraded_periods := degraded_periods s;
          degraded_since := degraded_since s; longest_degraded := longest_degraded s |}
      | EndpointMigrated _ _ _ => {|
          started := started s; network_changes := network_changes s;
          changes_that_drop_connections := changes_that_drop_connections s;
          method_switches := method_switches s;
          endpoint_switches := u32_wrapping_add (endpoint_switches s) 1;
          selected_once := selected_once s; degraded_periods := degraded_periods s;
          degraded_since := degraded_since s; longest_degraded := longest_degraded s |}
      | DegradedEvent _ _ _ =>
          match degraded_since s with
          | Some _ => s
          | None => {|
              started := started s; network_changes := network_changes s;
              changes_that_drop_connections := changes_that_drop_connections s;
              method_switches := method_switches s; endpoint_switches := endpoint_switches s;
              selected_once := selected_once s;
              degraded_periods := u32_wrapping_add (degraded_periods s) 1;
              degraded_since := Some now; longest_degraded := longest_degraded s |}
          end
      | RecoveredEvent _ =>
          match degraded_since s with
          | None => s
          | Some since => {|
              started := started s; network_changes := network_changes s;
              changes_that_drop_connections := changes_that_drop_connections s;
              method_switches := method_switches s; endpoint_switches := endpoint_switches s;
              selected_once := selected_once s; degraded_periods := degraded_periods s;
              degraded_since := None;
              longest_degraded := Z.max (longest_degraded s) (saturating_duration_since now since) |}
          end
      | _ => s
      end
  end.

(* src: crates/dnet-core/src/telemetry.rs:238-253 SessionStats::summary *)
Definition stats_summary (s : SessionStats) (now : Instant) : option StatsSummary :=
  match started s with
  | None => None
  | Some started =>
      let ongoing :=
        match degraded_since s with Some since => saturating_duration_since now since | None => 0 end in
      Some {|
        sum_connected_for := saturating_duration_since now started;
        sum_network_changes := network_changes s;
        sum_changes_that_drop_connections := changes_that_drop_connections s;
        sum_method_switches := method_switches s;
        sum_endpoint_switches := endpoint_switches s;
        sum_degraded_periods := degraded_periods s;
        sum_longest_degraded := Z.max (longest_degraded s) ongoing;
      |}
  end.

(** * Lemmas *)

(** The samples of one path, in the order they were recorded. *)
Definition samples_of (path : InterfaceId) (samples : list (InterfaceId * PathSample)) : list Reading :=
  map (fun s => reading_of s.2) (List.filter (fun s => bool_decide (s.1 = path)) samples).

Definition record_all (samples : list (InterfaceId * PathSample)) : PathHistory :=
  fold_left (fun h s => history_record h s.1 s.2) samples history_new.

(** The last [n] elements. *)
Definition last_n {A} (n : nat) (l : list A) : list A := drop (length l - n) l.

Lemma last_n_snoc {A} n (l : list A) x :
  (0 < n)%nat → last_n n (l ++ [x]) =
    (if bool_decide (length (last_n n l) = n) then tail (last_n n l) else last_n n l) ++ [x].
Proof.
  intros Hn. unfold last_n. rewrite length_app, length_drop. simpl.
  destruct (decide (n ≤ length l)%nat) as [Hle|Hgt].
  - rewrite bool_decide_eq_true_2 by lia.
    replace (length l + 1 - n)%nat with (S (length l - n)) by lia.
    rewrite drop_app_le by lia. f_equal.
    generalize (length l - n)%nat as k. clear. intros k. revert l.
    induction k as [|k IH]; intros [|y l]; simpl; done.
  - rewrite bool_decide_eq_false_2 by lia.
    replace (length l + 1 - n)%nat with 0%nat by lia. by replace (length l - n)%nat with 0%nat by lia.
Qed.

Lemma record_all_lookup path samples :
  default [] (readings (record_all samples) !! path) = last_n HISTORY_LEN (samples_of path samples) ∧
  (readings (record_all samples) !! path = None ↔ samples_of path samples = []).
Proof.
  induction samples as [|[p smp] samples [IH1 IH2]] using rev_ind; [done|].
  unfold record_all, samples_of in *. rewrite fold_left_app, List.filter_app, map_app. simpl.
  set (h := fold_left _ samples history_new) in *. unfold history_record.
  destruct (decide (p = path)) as [->|E].
  - rewrite (bool_decide_eq_true_2 (path = path)) by done. simpl. rewrite !lookup_insert_eq. simpl. split.
    + rewrite last_n_snoc by (unfold HISTORY_LEN; lia). by rewrite <-IH1.
    + split; [done|]. by destruct (map _ _).
  - rewrite (bool_decide_eq_false_2 (p = path)) by done. simpl.
    rewrite !lookup_insert_ne by done. by rewrite app_nil_r.
Qed.

Lemma length_last_n {A} n (l : list A) : length (last_n n l) = (n `min` length l)%nat.
Proof. unfold last_n. rewrite length_drop. lia. Qed.

Lemma length_omap_le {A B} (f : A → option B) (l : list A) : (length (omap f l) ≤ length l)%nat.
Proof. induction l as [|x l IH]; csimpl; [done|]. destruct (f x); simpl; lia. Qed.

(** Both percentile indices of up to sixty sorted answers are in range. *)
Lemma percentile_in_range len :
  (8 ≤ len ≤ 60)%nat →
  (Z.to_nat (percentile_index len (f32_lit 1 10)) < len)%nat ∧
  (Z.to_nat (percentile_index len (f32_lit 9 10)) < len)%nat.
Proof.
  intros Hlen.
  assert (Forall (fun len => (Z.to_nat (percentile_index len (f32_lit 1 10)) < len)%nat ∧
    (Z.to_nat (percentile_index len (f32_lit 9 10)) < len)%nat) (seq 8 53)) as HF.
  { apply (bool_decide_unpack _). vm_compute. done. }
  rewrite Forall_forall in HF. apply HF, elem_of_seq. lia.
Qed.

(** The typical range of a ring of at most sixty readings. *)
Lemma typical_total h path ring :
  (length ring ≤ HISTORY_LEN)%nat → readings h !! path = Some ring →
  let answered := omap answered_ms ring in
  (length answered < 8)%nat ∧ typical h path = Some None ∨
  (8 ≤ length answered)%nat ∧ ∃ low high, typical h path = Some (Some (low, high)) ∧
    low ∈ answered ∧ high ∈ answered.
Proof.
  intros Hring Hl. cbv zeta. unfold typical. rewrite Hl. set (answered := omap answered_ms ring).
  case_bool_decide as E; [left; split; [unfold MIN_FOR_TYPICAL in E; lia|done]|].
  right. split; [unfold MIN_FOR_TYPICAL in E; lia|].
  set (sorted := sort_by total_cmp answered).
  assert (length sorted = length answered) as Hsorted
    by (apply Permutation_length, sort_by_permutation; apply _).
  assert (length answered ≤ 60)%nat.
  { unfold answered. etransitivity; [apply length_omap_le|]. exact Hring. }
  destruct (percentile_in_range (length sorted)) as [Hlo Hhi]; [unfold MIN_FOR_TYPICAL in E; lia|].
  apply lookup_lt_is_Some_2 in Hlo as [low Hlo], Hhi as [high Hhi]. simpl. rewrite Hlo, Hhi. simpl.
  exists low, high. split; [done|].
  split; apply (elem_of_sort_by total_cmp); by eapply list_elem_of_lookup_2.
Qed.

(** How many of the events satisfy a test. *)
Definition count (p : ConnectionEvent → bool) (events : list (ConnectionEvent * Instant)) : Z :=
  Z.of_nat (length (List.filter (fun e => p e.1) events)).

Definition is_network_change (e : ConnectionEvent) : bool :=
  match e with PathChanged (Some _) _ _ => true | _ => false end.
Definition is_dropping_change (e : ConnectionEvent) : bool :=
  match e with PathChanged (Some _) _ Tier2 => true | _ => false end.
Definition is_selection (e : ConnectionEvent) : bool :=
  match e with ProfileSelected _ _ => true | _ => false end.
Definition is_migration (e : ConnectionEvent) : bool :=
  match e with EndpointMigrated _ _ _ => true | _ => false end.

Definition record_events (s : SessionStats) (events : list (ConnectionEvent * Instant)) : SessionStats :=
  fold_left (fun s e => stats_record s e.1 e.2) events s.

Lemma count_snoc p events e : count p (events ++ [e]) = count p events + (if p e.1 then 1 else 0).
Proof. unfold count. rewrite List.filter_app, length_app. simpl. destruct (p e.1); simpl; lia. Qed.

Lemma wrapping_succ n : u32_wrapping_add (n mod 2 ^ 32) 1 = (n + 1) mod 2 ^ 32.
Proof. unfold u32_wrapping_add. by rewrite Zplus_mod_idemp_l. Qed.

Record stats_inv (t0 : Instant) (s : SessionStats) (events : list (ConnectionEvent * Instant)) : Prop := {
  si_started : started s = Some t0;
  si_network : network_changes s = count is_network_change events mod 2 ^ 32;
  si_drop : changes_that_drop_connections s = count is_dropping_change events mod 2 ^ 32;
  si_selected : selected_once s = (0 <? count is_selection events);
  si_method : method_switches s = Z.max 0 (count is_selection events - 1) mod 2 ^ 32;
  si_endpoint : endpoint_switches s = count is_migration events mod 2 ^ 32;
}.

Lemma record_events_inv t0 events :
  stats_inv t0 (record_events (stats_begin stats_new t0) events) events.
Proof.
  induction events as [|[e t] events IH] using rev_ind; [done|].
  unfold record_events in *. rewrite fold_left_app. simpl.
  set (s := fold_left _ events _) in *. destruct IH as [H1 H2 H3 H4 H5 H6].
  assert (0 ≤ count is_selection events) by (unfold count; lia).
  unfold stats_record. rewrite H1.
  destruct e as [|p b|p b|f to b|[f|] to []| | | | |];
    try match goal with |- context [match degraded_since s with _ => _ end] => destruct (degraded_since s) end;
    split; cbn [started network_changes changes_that_drop_connections
      selected_once method_switches endpoint_switches];
    rewrite ?count_snoc, ?Z.add_0_r; simpl; rewrite ?Z.add_0_r; try done;
    rewrite ?H2, ?H3, ?H6, ?wrapping_succ; try done.
  - symmetry. apply Z.ltb_lt. lia.
  - rewrite H4. destruct (Z.ltb_spec 0 (count is_selection events)).
    + rewrite H5, wrapping_succ. f_equal. lia.
    + rewrite H5. f_equal. lia.
Qed.

Lemma record_events_inactive events : record_events stats_new events = stats_new.
Proof.
  induction events as [|e events IH] using rev_ind; [done|].
  unfold record_events in *. by rewrite fold_left_app, IH.
Qed.

(** * Properties *)

(** The history kept of each network is exactly its last sixty readings, and its trace the last
    forty, oldest first, with a lost probe as a gap; a typical range is offered exactly when eight of
    the readings kept were answered, finding it never indexes out of range, and both its ends are
    latencies that were measured. *)
Theorem history_is_recent samples path :
  let h := record_all samples in
  let kept := last_n HISTORY_LEN (samples_of path samples) in
  let answered := omap answered_ms kept in
  trace h path = map answered_ms (last_n TRACE_LEN (samples_of path samples)) ∧
  ((length answered < 8)%nat ∧ typical h path = Some None ∨
   (8 ≤ length answered)%nat ∧ ∃ low high, typical h path = Some (Some (low, high)) ∧
     low ∈ answered ∧ high ∈ answered).
Proof.
  intros h kept answered. destruct (record_all_lookup path samples) as [H1 H2]. fold h in H1, H2.
  unfold trace. destruct (readings h !! path) as [ring|] eqn:Eh; simpl in H1.
  - subst ring. fold kept. fold answered. split.
    + f_equal. unfold kept, last_n. rewrite drop_drop. f_equal. rewrite length_drop.
      unfold TRACE_LEN, HISTORY_LEN. lia.
    + apply (typical_total h path); [|by rewrite Eh]. unfold kept. rewrite length_last_n. unfold HISTORY_LEN. lia.
  - assert (samples_of path samples = []) as Hn by by apply H2.
    unfold answered, kept, typical. rewrite Hn, Eh. simpl. split; [done|]. left. split; [lia|done].
Qed.

(** The session counters are counts of recorded events and nothing else: over a connection, the
    network changes, those among them that drop connections, the method switches (every selection but the first)
    and the endpoint switches are the numbers of such events, as 32-bit counters; before a connection begins and after it
    ends every event is ignored and there is no summary. *)
Theorem stats_count_events t0 events now :
  let s := record_events (stats_begin stats_new t0) events in
  (∃ sum, stats_summary s now = Some sum ∧
    sum_connected_for sum = saturating_duration_since now t0 ∧
    sum_network_changes sum = count is_network_change events mod 2 ^ 32 ∧
    sum_changes_that_drop_connections sum = count is_dropping_change events mod 2 ^ 32 ∧
    sum_method_switches sum = Z.max 0 (count is_selection events - 1) mod 2 ^ 32 ∧
    sum_endpoint_switches sum = count is_migration events mod 2 ^ 32) ∧
  record_events (stats_end s) events = stats_new ∧ stats_summary (stats_end s) now = None.
Proof.
  intros s. pose proof (record_events_inv t0 events) as [H1 H2 H3 H4 H5 H6]. fold s in H1, H2, H3, H4, H5, H6.
  split_and!; [|apply record_events_inactive|done].
  unfold stats_summary. rewrite H1. eexists. split; [done|]. simpl. by split_and!.
Qed.
