(* ===== verification/PathMonitor.v ===== *)
(** The path monitor: the machine's paths, what is known of each, and which carries
    (crates/dnet-core/src/path_monitor.rs). *)

From Stdlib Require Import SpecFloat.
From S2P Require Import Prelude Float Profile IpText Quality Degraded Telemetry Failover.

(** * Definitions *)

(* src: crates/dnet-core/src/path_monitor.rs:35-41 GatewayChange *)
Record GatewayChange : Type := mkGatewayChange {
  gc_interface : InterfaceId;
  gc_from : option IpAddr;
  gc_to : option IpAddr;
}.

(* src: crates/dnet-core/src/path_monitor.rs:43-51 PathsDelta *)
Record PathsDelta : Type := mkPathsDelta {
  changed : bool;
  carrying_gateway : option GatewayChange;
}.

(* src: crates/dnet-core/src/path_monitor.rs:53-61 ProbeCadence *)
Record ProbeCadence : Type := mkProbeCadence {
  carrying_every : Duration;
  standby_every : Duration;
}.

(* src: crates/dnet-core/src/path_monitor.rs:63-70 ProbeCadence::default *)
Definition cadence_default : ProbeCadence := {|
  carrying_every := from_secs 10;
  standby_every := from_secs 30;
|}.

(* src: crates/dnet-core/src/path_monitor.rs:72-87 PathMonitor *)
Record PathMonitor : Type := mkPathMonitor {
  cfg : FailoverConfig;
  cadence : ProbeCadence;
  paths : list NetworkPath;
  pm_state : FailoverState;
  reporter : DegradationReporter;
  history : PathHistory;
  probed_at : gmap InterfaceId Instant;
  sampled_at : gmap InterfaceId Instant;
}.

(* src: crates/dnet-core/src/path_monitor.rs:89-92 STALE_AFTER_INTERVALS *)
Definition STALE_AFTER_INTERVALS : Z := 3.

(* src: crates/dnet-core/src/path_monitor.rs:94-105 shape *)
Definition shape (path : NetworkPath) : InterfaceId * PathKind * option IpAddr * bool :=
  (interface_id path, path_kind path, gateway path, bool_decide (role path ≠ UnusableRole)).

Definition shape_cmp (a b : InterfaceId * PathKind * option IpAddr * bool) : comparison :=
  a.1.1.1 ?= b.1.1.1.

(* src: crates/dnet-core/src/path_monitor.rs:107-111 shapes *)
Definition shapes (paths : list NetworkPath) : list (InterfaceId * PathKind * option IpAddr * bool) :=
  sort_by shape_cmp (map shape paths).

(* src: crates/dnet-core/src/path_monitor.rs:114-125 PathMonitor::new *)
Definition monitor_new (cfg : FailoverConfig) : PathMonitor := {|
  cfg := cfg; cadence := cadence_default; paths := []; pm_state := failover_new; reporter := reporter_new;
  history := history_new; probed_at := ∅; sampled_at := ∅;
|}.

(* src: crates/dnet-core/src/path_monitor.rs:127-132 PathMonitor::with_cadence *)
Definition with_cadence (m : PathMonitor) (cadence : ProbeCadence) : PathMonitor := {|
  cfg := cfg m; cadence := cadence; paths := paths m; pm_state := pm_state m; reporter := reporter m;
  history := history m; probed_at := probed_at m; sampled_at := sampled_at m;
|}.

(* src: crates/dnet-core/src/path_monitor.rs:144-148 PathMonitor::due_probes *)
Definition interval (m : PathMonitor) (p : NetworkPath) : Duration :=
  if bool_decide (role p = Carrying) then carrying_every (cadence m) else standby_every (cadence m).

(* src: crates/dnet-core/src/path_monitor.rs:141-153 PathMonitor::due_probes *)
Definition is_due (m : PathMonitor) (now : Instant) (p : NetworkPath) : bool :=
  if bool_decide (role p = UnusableRole) then false
  else
    match probed_at m !! interface_id p with
    | None => true
    | Some last => interval m p <=? saturating_duration_since now last
    end.

(* src: crates/dnet-core/src/path_monitor.rs:134-161 PathMonitor::due_probes *)
Definition due_probes (m : PathMonitor) (now : Instant) : PathMonitor * list InterfaceId :=
  let due := map interface_id (List.filter (is_due m now) (paths m)) in
  ({| cfg := cfg m; cadence := cadence m; paths := paths m; pm_state := pm_state m; reporter := reporter m;
      history := history m;
      probed_at := fold_left (fun probed id => <[id := now]> probed) due (probed_at m);
      sampled_at := sampled_at m |}, due).

(* src: crates/dnet-core/src/path_monitor.rs:168-171 PathMonitor::carrying *)
Definition monitor_carrying (m : PathMonitor) : option InterfaceId := fs_carrying (pm_state m).

(* src: crates/dnet-core/src/path_monitor.rs:342-350 PathMonitor::apply_roles *)
Definition apply_role (carrying : option InterfaceId) (p : NetworkPath) : NetworkPath := {|
  interface_id := interface_id p; path_kind := path_kind p; gateway := gateway p; quality := quality p;
  role :=
    if bool_decide (role p = UnusableRole) then UnusableRole
    else if bool_decide (Some (interface_id p) = carrying) then Carrying
    else Standby;
  preference := preference p;
|}.

(* src: crates/dnet-core/src/path_monitor.rs:339-351 PathMonitor::apply_roles *)
Definition apply_roles (m : PathMonitor) : PathMonitor := {|
  cfg := cfg m; cadence := cadence m; paths := map (apply_role (monitor_carrying m)) (paths m);
  pm_state := pm_state m; reporter := reporter m; history := history m; probed_at := probed_at m;
  sampled_at := sampled_at m;
|}.

(* src: crates/dnet-core/src/path_monitor.rs:173-178 PathMonitor::set_carrying *)
Definition set_carrying (m : PathMonitor) (path : InterfaceId) (now : Instant) : PathMonitor :=
  apply_roles {|
    cfg := cfg m; cadence := cadence m; paths := paths m; pm_state := carrying_on path now;
    reporter := reporter m; history := history m; probed_at := probed_at m; sampled_at := sampled_at m;
  |}.

Definition find_path (id : InterfaceId) (l : list NetworkPath) : option NetworkPath :=
  List.find (fun p => bool_decide (interface_id p = id)) l.

(* src: crates/dnet-core/src/path_monitor.rs:258-261 PathMonitor::evidence *)
Definition set_quality (q : PathQuality) (p : NetworkPath) : NetworkPath := {|
  interface_id := interface_id p; path_kind := path_kind p; gateway := gateway p; quality := q;
  role := role p; preference := preference p;
|}.

(* src: crates/dnet-core/src/path_monitor.rs:190-198 PathMonitor::paths_changed *)
Definition keep_quality (known : list NetworkPath) (p : NetworkPath) : NetworkPath :=
  match find_path (interface_id p) known with
  | Some k => set_quality (quality k) p
  | None => p
  end.

(* src: crates/dnet-core/src/path_monitor.rs:201-212 PathMonitor::paths_changed *)
Definition gateway_change (carrying_before : option NetworkPath) (observed : list NetworkPath) :
    option GatewayChange :=
  old ← carrying_before;
  new ← find_path (interface_id old) observed;
  if negb (bool_decide (role new = UnusableRole)) && negb (bool_decide (gateway new = gateway old))
  then Some {| gc_interface := interface_id old; gc_from := gateway old; gc_to := gateway new |}
  else None.

(* src: crates/dnet-core/src/path_monitor.rs:214-224 PathMonitor::paths_changed *)
Definition is_listed (observed : list NetworkPath) (id : InterfaceId) : bool :=
  existsb (fun p => bool_decide (interface_id p = id)) observed.
Definition is_listed_usable (observed : list NetworkPath) (id : InterfaceId) : bool :=
  existsb (fun p => bool_decide (interface_id p = id) && negb (bool_decide (role p = UnusableRole))) observed.

(* src: crates/dnet-core/src/path_monitor.rs:180-231 PathMonitor::paths_changed *)
Definition paths_changed (m : PathMonitor) (observed : list NetworkPath) : PathMonitor * PathsDelta :=
  let before := shapes (paths m) in
  let carrying_before := id ← monitor_carrying m; find_path id (paths m) in
  let observed := map (keep_quality (paths m)) observed in
  let after := shapes observed in
  (apply_roles {|
     cfg := cfg m; cadence := cadence m; paths := observed; pm_state := pm_state m; reporter := reporter m;
     history := history_retain (history m) (is_listed observed);
     probed_at := filter (fun kv => is_listed_usable observed kv.1 = true) (probed_at m);
     sampled_at := filter (fun kv => is_listed observed kv.1 = true) (sampled_at m);
   |},
   {| changed := negb (bool_decide (before = after));
      carrying_gateway := gateway_change carrying_before observed |}).

(** [None] is the panic of the smoothing arithmetic. *)
(* src: crates/dnet-core/src/path_monitor.rs:233-241 PathMonitor::observe *)
Definition monitor_observe (m : PathMonitor) (path : InterfaceId) (sample : PathSample) (now : Instant) :
    option PathMonitor :=
  match find_path path (paths m) with
  | None => Some m
  | Some p =>
      q ← Quality.observe (quality p) sample;
      Some {|
        cfg := cfg m; cadence := cadence m;
        paths := update_first (fun p => bool_decide (interface_id p = path)) (set_quality q) (paths m);
        pm_state := pm_state m; reporter := reporter m;
        history := history_record (history m) path sample; probed_at := probed_at m;
        sampled_at := <[path := now]> (sampled_at m);
      |}
  end.

(** [None] is the overflow of the [Duration] product. *)
(* src: crates/dnet-core/src/path_monitor.rs:250-257 PathMonitor::evidence *)
Definition fresh (m : PathMonitor) (now : Instant) (p : NetworkPath) : option bool :=
  match sampled_at m !! interface_id p with
  | None => Some false
  | Some at_ =>
      limit ← duration_mul (interval m p) STALE_AFTER_INTERVALS;
      Some (saturating_duration_since now at_ <=? limit)
  end.

(* src: crates/dnet-core/src/path_monitor.rs:249-263 PathMonitor::evidence *)
Definition as_evidence (m : PathMonitor) (now : Instant) (p : NetworkPath) : option NetworkPath :=
  is_fresh ← fresh m now p;
  Some (if is_fresh : bool then p else set_quality unmeasured p).

(* src: crates/dnet-core/src/path_monitor.rs:243-265 PathMonitor::evidence *)
Definition evidence (m : PathMonitor) (now : Instant) : option (list NetworkPath) :=
  mapM (as_evidence m now) (paths m).

(* src: crates/dnet-core/src/path_monitor.rs:267-275 PathMonitor::evaluate *)
Definition monitor_evaluate (m : PathMonitor) (now : Instant) : option (PathMonitor * FailoverDecision) :=
  evidence ← evidence m now;
  let '(next, decision) := evaluate (pm_state m) evidence now (cfg m) in
  Some (apply_roles {|
    cfg := cfg m; cadence := cadence m; paths := paths m; pm_state := next; reporter := reporter m;
    history := history m; probed_at := probed_at m; sampled_at := sampled_at m |}, decision).

(* src: crates/dnet-core/src/path_monitor.rs:286-289 PathMonitor::report *)
Definition carrying_band (m : PathMonitor) (evidence : list NetworkPath) : option QualityBand :=
  id ← monitor_carrying m;
  p ← find_path id evidence;
  if is_measured (quality p) then Some (band (quality p) (thresholds (cfg m))) else None.

(* src: crates/dnet-core/src/path_monitor.rs:277-301 PathMonitor::report *)
Definition report (m : PathMonitor) (now : Instant) : option (PathMonitor * option Change) :=
  evidence ← evidence m now;
  let look := {|
    look_carrying := monitor_carrying m;
    look_band := carrying_band m evidence;
    look_staying := explain_staying (pm_state m) evidence now (cfg m);
  |} in
  let '(reporter', said) := Degraded.observe (reporter m) look now (degrade_for (cfg m)) (recover_for (cfg m)) in
  Some ({| cfg := cfg m; cadence := cadence m; paths := paths m; pm_state := pm_state m; reporter := reporter';
           history := history m; probed_at := probed_at m; sampled_at := sampled_at m |}, said).

(* src: crates/dnet-core/src/path_monitor.rs:311-326 PathMonitor::snapshot *)
Definition path_view (m : PathMonitor) (p : NetworkPath) : option PathView :=
  let measured := is_measured (quality p) in
  typical ← typical (history m) (interface_id p);
  Some {|
    view_id := interface_id p;
    view_kind := path_kind p;
    view_name := None;
    view_role := role p;
    view_measured := measured;
    view_band := if measured then Some (band (quality p) (thresholds (cfg m))) else None;
    view_rtt := if measured then rtt_ewma (quality p) else None;
    view_jitter := if measured then jitter_ewma (quality p) else None;
    view_loss := if measured then Some (loss_ewma (quality p)) else None;
    view_trace_ms := trace (history m) (interface_id p);
    view_typical_ms := typical;
  |}.

(* src: crates/dnet-core/src/path_monitor.rs:334-337 PathMonitor::degradation *)
Definition degradation (m : PathMonitor) : option Degradation := current (reporter m).

(* src: crates/dnet-core/src/path_monitor.rs:303-332 PathMonitor::snapshot *)
Definition snapshot (m : PathMonitor) (now : Instant) : option PathsSnapshot :=
  evidence ← evidence m now;
  views ← mapM (path_view m) evidence;
  Some {| snapshot_paths := views; snapshot_degradation := degradation m |}.

(** * Runs *)

(** What is done to a monitor. *)
Inductive Op : Type :=
  | OpSetCarrying (path : InterfaceId) (now : Instant)
  | OpPathsChanged (observed : list NetworkPath)
  | OpObserve (path : InterfaceId) (sample : PathSample) (now : Instant)
  | OpDueProbes (now : Instant)
  | OpEvaluate (now : Instant)
  | OpReport (now : Instant).

Definition monitor_step (m : PathMonitor) (op : Op) : option PathMonitor :=
  match op with
  | OpSetCarrying path now => Some (set_carrying m path now)
  | OpPathsChanged observed => Some (paths_changed m observed).1
  | OpObserve path sample now => monitor_observe m path sample now
  | OpDueProbes now => Some (due_probes m now).1
  | OpEvaluate now => fst <$> monitor_evaluate m now
  | OpReport now => fst <$> report m now
  end.

(** The system lists an interface once. *)
Definition op_ok (op : Op) : Prop :=
  match op with OpPathsChanged observed => NoDup (map interface_id observed) | _ => True end.

Inductive reached (cfg : FailoverConfig) : PathMonitor → Prop :=
  | reached_new cadence : reached cfg (with_cadence (monitor_new cfg) cadence)
  | reached_step m op m' : reached cfg m → op_ok op → monitor_step m op = Some m' → reached cfg m'.

(** Both staleness limits can be represented. *)
Definition cadence_ok (c : ProbeCadence) : Prop :=
  carrying_every c * STALE_AFTER_INTERVALS ≤ DURATION_MAX ∧ standby_every c * STALE_AFTER_INTERVALS ≤ DURATION_MAX.

(** A path's last sample is recent enough to be evidence. *)
Definition recently_sampled (m : PathMonitor) (now : Instant) (p : NetworkPath) : Prop :=
  ∃ t, sampled_at m !! interface_id p = Some t ∧
    saturating_duration_since now t ≤ interval m p * STALE_AFTER_INTERVALS.

(** * Lemmas *)

#[export] Instance shape_cmp_total : TotalCompare shape_cmp.
Proof. unfold shape_cmp. apply _. Qed.

Definition ids (m : PathMonitor) : list InterfaceId := map interface_id (paths m).

(** What holds of the parts of a monitor whatever the roles. *)
Record facts (m : PathMonitor) : Prop := {
  inv_ids : NoDup (ids m);
  inv_probed id t : probed_at m !! id = Some t → ∃ p, p ∈ paths m ∧ interface_id p = id ∧ usable p = true;
  inv_sampled id t : sampled_at m !! id = Some t → id ∈ ids m;
  inv_history id ring : readings (history m) !! id = Some ring → (length ring ≤ HISTORY_LEN)%nat ∧ id ∈ ids m;
}.

Record inv (m : PathMonitor) : Prop := {
  inv_facts : facts m;
  inv_roles p : p ∈ paths m → apply_role (monitor_carrying m) p = p;
}.

Lemma apply_role_id c p : interface_id (apply_role c p) = interface_id p.
Proof. done. Qed.

Lemma apply_role_usable c p : usable (apply_role c p) = usable p.
Proof. unfold usable. simpl. by destruct (role p); simpl; repeat case_bool_decide. Qed.

Lemma apply_role_twice c p : apply_role c (apply_role c p) = apply_role c p.
Proof. destruct p as [? ? ? ? []]; unfold apply_role; simpl; f_equal; by repeat case_bool_decide. Qed.

Lemma map_ids f (l : list NetworkPath) :
  (∀ p, interface_id (f p) = interface_id p) → map interface_id (map f l) = map interface_id l.
Proof. intros H. rewrite List.map_map. by apply map_ext. Qed.

Lemma ids_apply_roles m : ids (apply_roles m) = ids m.
Proof. by apply map_ids. Qed.

Lemma keep_quality_id known p : interface_id (keep_quality known p) = interface_id p.
Proof. unfold keep_quality. by case_match. Qed.

Lemma keep_quality_shape known p : shape (keep_quality known p) = shape p.
Proof. unfold keep_quality. by case_match. Qed.

Lemma is_listed_spec l id : is_listed l id = true ↔ id ∈ map interface_id l.
Proof.
  unfold is_listed. rewrite existsb_exists_elem, elem_of_map.
  split; intros (p & H1 & H2); exists p; [by bool_simpl|subst; by rewrite bool_decide_eq_true_2].
Qed.

Lemma is_listed_usable_spec l id :
  is_listed_usable l id = true ↔ ∃ p, p ∈ l ∧ interface_id p = id ∧ usable p = true.
Proof.
  unfold is_listed_usable, usable. rewrite existsb_exists_elem. split.
  - intros (p & Hp & H). apply andb_true_iff in H as [H1 H2]. bool_simpl. exists p.
    by rewrite bool_decide_eq_true_2.
  - intros (p & Hp & H1 & H2). bool_simpl. exists p. split; [done|].
    by rewrite bool_decide_eq_true_2, bool_decide_eq_false_2.
Qed.

Lemma find_path_spec id l p : find_path id l = Some p → p ∈ l ∧ interface_id p = id.
Proof. intros [? H]%find_Some_elem. by apply bool_decide_eq_true in H. Qed.

Lemma find_path_is_Some id l : is_Some (find_path id l) ↔ id ∈ map interface_id l.
Proof.
  unfold find_path. rewrite find_is_Some. apply is_listed_spec.
Qed.

Lemma find_path_unique id l p :
  NoDup (map interface_id l) → p ∈ l → interface_id p = id → find_path id l = Some p.
Proof. intros ? ? <-. by apply find_by_key. Qed.

Lemma update_first_ids id q l :
  map interface_id (update_first (fun p => bool_decide (interface_id p = id)) (set_quality q) l) =
  map interface_id l.
Proof. induction l as [|p l IH]; [done|]. simpl. case_match; simpl; [done|by rewrite IH]. Qed.

Lemma fold_insert_lookup (now : Instant) due (g : gmap InterfaceId Instant) id :
  fold_left (fun g id => <[id := now]> g) due g !! id =
    if bool_decide (id ∈ due) then Some now else g !! id.
Proof.
  induction due as [|d due IH] using rev_ind; [done|].
  rewrite fold_left_app. simpl. destruct (decide (d = id)) as [->|E].
  - rewrite lookup_insert_eq. by rewrite bool_decide_eq_true_2 by set_solver.
  - rewrite lookup_insert_ne, IH by done. by rewrite (bool_decide_ext (id ∈ due ++ [d]) (id ∈ due)) by set_solver.
Qed.

(** The evidence differs from the paths in quality only. *)
Lemma as_evidence_spec m now p e :
  as_evidence m now p = Some e →
  interface_id e = interface_id p ∧ role e = role p ∧ preference e = preference p ∧
  (recently_sampled m now p ∧ e = p ∨ ¬ recently_sampled m now p ∧ e = set_quality unmeasured p).
Proof.
  unfold as_evidence, fresh, recently_sampled. intros (b & Hb & He)%bind_Some.
  destruct (sampled_at m !! interface_id p) as [t|].
  - apply bind_Some in Hb as (limit & Hl & Hb). unfold duration_mul in Hl.
    destruct (interval m p * STALE_AFTER_INTERVALS <=? DURATION_MAX); [|done].
    apply (inj Some) in Hl as <-. apply (inj Some) in Hb as <-. apply (inj Some) in He as <-.
    destruct (Z.leb_spec (saturating_duration_since now t) (interval m p * STALE_AFTER_INTERVALS)) as [Hle|Hgt].
    + split_and!; [done..|]. left. eauto.
    + split_and!; [done..|]. right. split; [|done]. intros (t' & Ht & ?). simplify_eq. lia.
  - apply (inj Some) in Hb as <-. apply (inj Some) in He as <-. split_and!; [done..|].
    right. split; [|done]. by intros (? & ? & _).
Qed.

Lemma evidence_elem m now ev e :
  evidence m now = Some ev → e ∈ ev → ∃ p, p ∈ paths m ∧ as_evidence m now p = Some e.
Proof.
  intros H%mapM_Some_1 He. apply list_elem_of_lookup in He as [i Hi].
  destruct (Forall2_lookup_r _ _ _ _ _ H Hi) as (p & Hp & ?). exists p. split; [|done].
  by eapply list_elem_of_lookup_2.
Qed.

Lemma evidence_elem_of m now ev p :
  evidence m now = Some ev → p ∈ paths m → ∃ e, e ∈ ev ∧ as_evidence m now p = Some e.
Proof.
  intros H%mapM_Some_1 Hp. apply list_elem_of_lookup in Hp as [i Hi].
  destruct (Forall2_lookup_l _ _ _ _ _ H Hi) as (e & He & ?). exists e. split; [|done].
  by eapply list_elem_of_lookup_2.
Qed.

Lemma evidence_ids m now ev : evidence m now = Some ev → map interface_id ev = ids m.
Proof.
  intros H%mapM_Some_1. unfold ids. induction H as [|p e l k Hpe _ IH]; [done|]. simpl. rewrite IH. f_equal.
  by apply as_evidence_spec in Hpe as (? & _).
Qed.

Lemma evidence_total m now : cadence_ok (cadence m) → is_Some (evidence m now).
Proof.
  intros [Hc Hs]. apply mapM_is_Some_2, Forall_forall. intros p _.
  assert (duration_mul (interval m p) STALE_AFTER_INTERVALS = Some (interval m p * STALE_AFTER_INTERVALS)) as Hl.
  { unfold duration_mul, interval. case_bool_decide; by rewrite (proj2 (Z.leb_le _ _)). }
  unfold compose, as_evidence, fresh. cbv beta. case_match; [rewrite Hl|]; simpl; eauto.
Qed.

Lemma facts_apply_roles m : facts m → inv (apply_roles m).
Proof.
  intros [Hi Hp Hs Hh]. split; [split|].
  - by rewrite ids_apply_roles.
  - intros id t Ht. destruct (Hp id t Ht) as (p & Hin & Hid & Hu). exists (apply_role (monitor_carrying m) p).
    split_and!; [apply elem_of_map; eauto|done|by rewrite apply_role_usable].
  - rewrite ids_apply_roles. exact Hs.
  - rewrite ids_apply_roles. exact Hh.
  - intros p (q & -> & _)%elem_of_map. apply apply_role_twice.
Qed.

Lemma history_record_bound m id path sample ring :
  readings (history_record (history m) path sample) !! id = Some ring →
  (∀ id ring, readings (history m) !! id = Some ring → (length ring ≤ HISTORY_LEN)%nat) →
  (length ring ≤ HISTORY_LEN)%nat.
Proof.
  intros Hr Hh. unfold history_record in Hr. simpl in Hr. destruct (decide (path = id)) as [->|E].
  - rewrite lookup_insert_eq in Hr. apply (inj Some) in Hr as <-.
    assert (length (default [] (readings (history m) !! id)) ≤ HISTORY_LEN)%nat.
    { destruct (readings (history m) !! id) eqn:El; [by eapply Hh|simpl; lia]. }
    rewrite length_app. case_bool_decide; simpl; [|lia].
    destruct (default [] _); simpl in *; unfold HISTORY_LEN in *; lia.
  - rewrite lookup_insert_ne in Hr by done. by eapply Hh.
Qed.

Lemma inv_due_probes m now : inv m → inv (due_probes m now).1.
Proof.
  intros [[Hi Hp Hs Hh] Hr]. split; [split|]; try done. simpl. intros id t. rewrite fold_insert_lookup.
  case_bool_decide as E; [intros _|apply Hp].
  apply elem_of_map in E as (p & -> & (Hin & Hd)%elem_of_filter_bool). exists p. split_and!; [done..|].
  unfold is_due in Hd. unfold usable. apply bool_decide_eq_true. by case_bool_decide.
Qed.

Lemma inv_observe m path sample now m' : inv m → monitor_observe m path sample now = Some m' → inv m'.
Proof.
  intros Hinv Ho. unfold monitor_observe in Ho. destruct (find_path path (paths m)) as [p|] eqn:Ef; [|by simplify_eq].
  apply bind_Some in Ho as (q & _ & Ho). apply (inj Some) in Ho as <-.
  destruct Hinv as [[Hi Hp Hs Hh] Hr].
  assert (path ∈ ids m) as Hin by (apply find_path_is_Some; eauto).
  split; [split|]; unfold ids; simpl; rewrite ?update_first_ids; try done.
  - intros id t Ht. destruct (Hp id t Ht) as (r & Hrin & Hid & Hu).
    destruct (update_first_keeps (fun p => bool_decide (interface_id p = path)) (set_quality q) _ _ Hrin)
      as (r' & ? & [-> | ->]); eauto.
  - intros id t. destruct (decide (path = id)) as [->|E]; [done|]. rewrite lookup_insert_ne by done. apply Hs.
  - intros id ring Hring. split.
    { eapply history_record_bound; [exact Hring|]. intros i r Hir. by apply (Hh i r). }
    unfold history_record in Hring. simpl in Hring. destruct (decide (path = id)) as [->|E]; [done|].
    rewrite lookup_insert_ne in Hring by done. by eapply Hh.
  - intros r [Hrin|(p' & Hp' & _ & ->)]%elem_of_update_first; [by apply Hr|].
    change (set_quality q (apply_role (monitor_carrying m) p') = set_quality q p'). by rewrite Hr.
Qed.

Lemma inv_paths_changed m observed :
  NoDup (map interface_id observed) → inv m → inv (paths_changed m observed).1.
Proof.
  intros Hnd [[Hi Hp Hs Hh] _]. apply facts_apply_roles. split; unfold ids; simpl.
  - by rewrite map_ids by apply keep_quality_id.
  - intros id t [_ H]%map_lookup_filter_Some. by apply is_listed_usable_spec.
  - intros id t [_ H]%map_lookup_filter_Some. by apply is_listed_spec.
  - intros id ring [Hr H]%map_lookup_filter_Some. split; [by eapply Hh|by apply is_listed_spec].
Qed.

Lemma inv_step m op m' : inv m → op_ok op → monitor_step m op = Some m' → inv m'.
Proof.
  intros Hinv Hok Hstep. pose proof (inv_facts _ Hinv) as [Hi Hp Hs Hh].
  destruct op as [path now|observed|path sample now|now|now|now]; simpl in Hstep.
  - apply (inj Some) in Hstep as <-. by apply facts_apply_roles.
  - apply (inj Some) in Hstep as <-. by apply inv_paths_changed.
  - by eapply inv_observe.
  - apply (inj Some) in Hstep as <-. by apply inv_due_probes.
  - apply fmap_Some in Hstep as ([m1 d] & Hev & ->). unfold monitor_evaluate in Hev.
    apply bind_Some in Hev as (ev & _ & Hev). destruct (evaluate _ _ _ _) as [next dec].
    apply (inj Some) in Hev. simplify_eq. by apply facts_apply_roles.
  - apply fmap_Some in Hstep as ([m1 d] & Hev & ->). unfold report in Hev.
    apply bind_Some in Hev as (ev & _ & Hev). destruct (Degraded.observe _ _ _ _ _) as [rep said].
    apply (inj Some) in Hev. simplify_eq. split; [by split|]. apply (inv_roles _ Hinv).
Qed.

Lemma reached_inv c m : reached c m → inv m.
Proof.
  induction 1 as [cadence|m op m' _ IH Hok Hstep]; [|by eapply inv_step].
  split; [split|]; simpl; try set_solver. apply NoDup_nil_2.
Qed.

Lemma shapes_eq m observed :
  NoDup (ids m) → shapes (paths m) = shapes observed ↔ map shape (paths m) ≡ₚ map shape observed.
Proof.
  intros Hnd. apply sort_by_perm_eq; [apply _|]. intros x y (p & -> & Hp)%elem_of_map (q & -> & Hq)%elem_of_map.
  unfold shape_cmp. simpl. rewrite Z.compare_eq_iff. intros E.
  by rewrite (NoDup_map_inj interface_id (paths m) p q).
Qed.

(** Whatever is measured in the evidence was sampled recently. *)
Lemma evidence_measured m now ev e :
  evidence m now = Some ev → e ∈ ev → is_measured (quality e) = true →
  e ∈ paths m ∧ recently_sampled m now e.
Proof.
  intros Hev He Hm. destruct (evidence_elem _ _ _ _ Hev He) as (p & Hp & Hpe).
  by apply as_evidence_spec in Hpe as (_ & _ & _ & [[? ->]|[_ ->]]).
Qed.

Lemma evidence_below_good m now ev e :
  band unmeasured (thresholds (cfg m)) = Good →
  evidence m now = Some ev → e ∈ ev → band_of (cfg m) e ≠ Good →
  e ∈ paths m ∧ recently_sampled m now e.
Proof.
  intros Hg Hev He Hm. destruct (evidence_elem _ _ _ _ Hev He) as (p & Hp & Hpe).
  by apply as_evidence_spec in Hpe as (_ & _ & _ & [[? ->]|[_ ->]]).
Qed.

(** A path that counts as stable is measured in the very list that is looked at. *)
Lemma stable_measured c next paths now g t :
  NoDup (map interface_id paths) → t ∈ paths → good_since next = update_good_since c paths now g →
  stable c next now t = true → is_measured (quality t) = true ∧ band_of c t = Good.
Proof.
  intros Hnd Ht Hg H. unfold stable in H. apply andb_true_iff in H as [Hb Hh].
  apply held_for_iff in Hh as (since & Hl & _). rewrite Hg in Hl.
  apply update_good_since_lookup in Hl as [(p & Hp & Hid & Hpg) _].
  apply (NoDup_map_inj interface_id paths) in Hid as ->; [|done..].
  unfold proves_good in Hpg. bool_simpl. done.
Qed.

Lemma band_lt_good b : band_lt b Good = true ↔ b ≠ Good.
Proof. destruct b; vm_compute; split; try done; intros []; done. Qed.

Lemma carrying_iff m p :
  inv m → p ∈ paths m →
  role p = Carrying ↔ monitor_carrying m = Some (interface_id p) ∧ role p ≠ UnusableRole.
Proof.
  intros Hinv Hp. pose proof (f_equal role (inv_roles _ Hinv p Hp)) as H. simpl in H.
  rewrite <-H. case_bool_decide as E1; [naive_solver|]. case_bool_decide as E2; naive_solver.
Qed.

Lemma carrying_unique m p q :
  inv m → p ∈ paths m → q ∈ paths m → role p = Carrying → role q = Carrying → p = q.
Proof.
  intros Hinv Hp Hq E1 E2. apply (carrying_iff m p Hinv Hp) in E1 as [E1 _].
  apply (carrying_iff m q Hinv Hq) in E2 as [E2 _].
  apply (NoDup_map_inj interface_id (paths m)); [apply Hinv|done..|]. congruence.
Qed.

Lemma one_carrying m : inv m → validate_paths (paths m) = Ok ().
Proof.
  intros Hinv. unfold validate_paths.
  destruct (List.filter _ (paths m)) as [|p [|q l]] eqn:E; [done..|]. exfalso.
  assert (∀ r, r ∈ p :: q :: l → r ∈ paths m ∧ role r = Carrying) as Hr.
  { intros r. rewrite <-E, elem_of_filter_bool. intros [? H]. by apply bool_decide_eq_true in H. }
  assert (p = q) as ->.
  { destruct (Hr p) as [? ?], (Hr q) as [? ?]; [set_solver..|]. by apply (carrying_unique m). }
  assert (NoDup (q :: q :: l)) as [Hn _]%NoDup_cons; [|set_solver].
  rewrite <-E. apply NoDup_ListNoDup, List.NoDup_filter, NoDup_ListNoDup.
  apply (NoDup_fmap_1 interface_id), Hinv.
Qed.

Lemma monitor_evaluate_inv m now m' d :
  monitor_evaluate m now = Some (m', d) →
  ∃ ev next, evidence m now = Some ev ∧ evaluate (pm_state m) ev now (cfg m) = (next, d) ∧
    monitor_carrying m' = fs_carrying next ∧ paths m' = map (apply_role (fs_carrying next)) (paths m).
Proof.
  intros Hev. unfold monitor_evaluate in Hev. apply bind_Some in Hev as (ev & He & Hev).
  destruct (evaluate _ _ _ _) as [next dec] eqn:E. apply (inj Some) in Hev. simplify_eq. by exists ev, next.
Qed.

(** A usable path of the evidence is a usable path of the monitor. *)
Lemma evidence_usable m now ev e :
  evidence m now = Some ev → e ∈ ev →
  ∃ p, p ∈ paths m ∧ interface_id p = interface_id e ∧ usable p = usable e.
Proof.
  intros Hev He. destruct (evidence_elem _ _ _ _ Hev He) as (p & Hp & Hpe).
  apply as_evidence_spec in Hpe as (Hi & Hr & _). exists p. unfold usable. by rewrite Hi, Hr.
Qed.

Lemma NoDup_map_filter {A B} (f : A → B) (p : A → bool) l :
  NoDup (map f l) → NoDup (map f (List.filter p l)).
Proof.
  induction l as [|x l IH]; [done|]. simpl. intros [Hx Hl]%NoDup_cons.
  destruct (p x); [|by apply IH]. simpl. apply NoDup_cons. split; [|by apply IH].
  rewrite elem_of_map. intros (y & E & Hy%elem_of_filter_bool). apply Hx, elem_of_map. exists y. naive_solver.
Qed.

Lemma apply_role_shape c p : shape (apply_role c p) = shape p.
Proof. pose proof (apply_role_usable c p) as H. unfold usable in H. unfold shape. by rewrite H. Qed.

Lemma keep_quality_shapes known l : map shape (map (keep_quality known) l) = map shape l.
Proof. rewrite List.map_map. apply map_ext, keep_quality_shape. Qed.

Lemma keep_quality_ids known l : map interface_id (map (keep_quality known) l) = map interface_id l.
Proof. apply map_ids, keep_quality_id. Qed.

Lemma not_is_listed l id : id ∉ map interface_id l → is_listed l id = false.
Proof. rewrite <-is_listed_spec. by destruct (is_listed l id). Qed.

(** What a retained map holds. *)
Lemma retain_lookup {A} (keep : InterfaceId → bool) (g : gmap InterfaceId A) id :
  filter (fun kv => keep kv.1 = true) g !! id = if keep id then g !! id else None.
Proof.
  destruct (keep id) eqn:E.
  - destruct (g !! id) as [x|] eqn:Eg.
    + by apply map_lookup_filter_Some.
    + by apply map_lookup_filter_None; left.
  - apply map_lookup_filter_None. right. intros x _ H. simpl in H. congruence.
Qed.

Lemma gateway_change_spec m observed g :
  NoDup (ids m) → NoDup (map interface_id observed) →
  gateway_change (id ← monitor_carrying m; find_path id (paths m)) observed = Some g ↔
    ∃ old new, monitor_carrying m = Some (interface_id old) ∧ old ∈ paths m ∧ new ∈ observed ∧
      interface_id new = interface_id old ∧ usable new = true ∧ gateway new ≠ gateway old ∧
      g = mkGatewayChange (interface_id old) (gateway old) (gateway new).
Proof.
  intros Hm Ho. unfold gateway_change, usable. split.
  - intros (old & (id & Hc & Hold)%bind_Some & (new & Hnew & H)%bind_Some)%bind_Some.
    apply find_path_spec in Hold as [Hold <-]. apply find_path_spec in Hnew as [Hnew Hid].
    destruct (negb _ && _) eqn:E; [|done]. apply andb_true_iff in E as [E1 E2]. bool_simpl.
    apply (inj Some) in H as <-. exists old, new. split_and!; try done. by apply bool_decide_eq_true.
  - intros (old & new & Hc & Hold & Hnew & Hid & Hu & Hg & ->). rewrite Hc. simpl.
    rewrite (find_path_unique _ (paths m) old) by done. simpl.
    rewrite (find_path_unique _ observed new) by done. simpl. bool_simpl.
    by rewrite !bool_decide_eq_false_2.
Qed.

Lemma keep_quality_in known l p :
  p ∈ l → ∃ p', p' ∈ map (keep_quality known) l ∧ shape p' = shape p.
Proof. intros Hp. exists (keep_quality known p). rewrite keep_quality_shape. split; [apply elem_of_map; eauto|done]. Qed.

(** Only the shapes of the list count for the gateway and for usability. *)
Lemma keep_quality_gateway known c l :
  gateway_change c (map (keep_quality known) l) = gateway_change c l.
Proof.
  unfold gateway_change. destruct c as [old|]; [|done]. simpl. unfold find_path.
  induction l as [|p l IH]; [done|]. cbn [map List.find]. rewrite keep_quality_id. case_bool_decide; [|done].
  simpl. pose proof (keep_quality_shape known p) as [= _ _ Hg Hr].
  assert (role (keep_quality known p) = role p) as -> by (unfold keep_quality; by case_match).
  by rewrite Hg.
Qed.

Lemma keep_quality_listed_usable known l id :
  is_listed_usable (map (keep_quality known) l) id = is_listed_usable l id.
Proof.
  unfold is_listed_usable. induction l as [|p l IH]; [done|]. simpl. rewrite IH, keep_quality_id.
  assert (role (keep_quality known p) = role p) as -> by (unfold keep_quality; by case_match). done.
Qed.

(** * Properties *)

(** Whatever happens to the monitor (refreshes of the system's list, samples, decisions,
    adoptions, reports), the paths are a valid list: at most one of them is [Carrying], and that is exactly
    the usable path the failover state names.  After a decision exactly one path carries, unless the
    decision is that there is no path, and then every path is unusable. *)
Theorem one_carrying_path c m (Hreach : reached c m) :
  validate_paths (paths m) = Ok () ∧
  (∀ p, p ∈ paths m →
    role p = Carrying ↔ monitor_carrying m = Some (interface_id p) ∧ role p ≠ UnusableRole) ∧
  ∀ now m' d, monitor_evaluate m now = Some (m', d) →
    match d with
    | NoPath => monitor_carrying m' = None ∧ ∀ p, p ∈ paths m' → role p = UnusableRole
    | _ => ∃ p, p ∈ paths m' ∧ role p = Carrying ∧ ∀ q, q ∈ paths m' → role q = Carrying → q = p
    end.
Proof.
  pose proof (reached_inv _ _ Hreach) as Hinv. split_and!.
  - by apply one_carrying.
  - intros p Hp. by apply carrying_iff.
  - intros now m' d Hev.
    assert (inv m') as Hinv'.
    { apply (inv_step m (OpEvaluate now)); [done..|]. simpl. by rewrite Hev. }
    destruct (monitor_evaluate_inv _ _ _ _ Hev) as (ev & next & He & Hd & Hc & Hp).
    apply evaluate_cases in Hd as (_ & _ & Hd).
    assert (∀ e, e ∈ ev → usable e = true → fs_carrying next = Some (interface_id e) →
      ∃ p, p ∈ paths m' ∧ role p = Carrying ∧ ∀ q, q ∈ paths m' → role q = Carrying → q = p) as Hone.
    { intros e Hin Hu Hn. destruct (evidence_usable _ _ _ _ He Hin) as (p & Hpin & Hid & Hpu).
      set (p' := apply_role (fs_carrying next) p).
      assert (p' ∈ paths m') as Hp' by (rewrite Hp; apply elem_of_map; eauto).
      assert (role p' = Carrying).
      { apply (carrying_iff m'); [done..|]. rewrite Hc, Hn. unfold p'. rewrite apply_role_id, Hid.
        split; [done|]. apply (bool_decide_eq_true (role p' ≠ UnusableRole)).
        fold (usable p'). unfold p'. rewrite apply_role_usable. congruence. }
      exists p'. split_and!; [done..|]. intros q Hq Hqc. by apply (carrying_unique m'). }
    destruct d as [|from to reason|].
    + destruct Hd as (p & Hcp & Hfc & _). apply carrying_path_spec in Hcp as (Hin & Hcar & Hu).
      apply (Hone p); [done..|]. congruence.
    + destruct Hd as (_ & Hfc & _ & _ & _ & Hd).
      assert (∃ t, interface_id t = to ∧ ∃ el, best (cfg m) ev el = Some t) as (t & <- & el & Hb).
      { destruct reason; naive_solver. }
      apply best_elem in Hb as (Hin & Hu & _). by apply (Hone t).
    + destruct Hd as (_ & Hnone & Hfc & _). split; [congruence|].
      rewrite Hp. intros p (q & -> & Hq)%elem_of_map.
      destruct (evidence_elem_of _ _ _ _ He Hq) as (e & Hin & Hqe).
      apply as_evidence_spec in Hqe as (_ & Hr & _). specialize (Hnone e Hin).
      unfold usable in Hnone. bool_simpl. apply dec_stable in Hnone.
      simpl. rewrite bool_decide_eq_true_2 by congruence. done.
Qed.

(** A refresh of the system's list forgets nothing that was measured.  The new list is the
    system's, with the quality already known of every interface that is still listed; its history and the time
    of its last sample are kept, and those of an interface that is gone are dropped; a path that is down is due
    again at once.  "Nothing changed" is said exactly when the old and new lists hold the same paths in any
    order, quality and role aside; and a change of gateway is reported exactly when the carrying
    interface is still listed, usable, with another gateway. *)
Theorem refresh_keeps_measurements c m observed
    (Hreach : reached c m) (Hnd : NoDup (map interface_id observed)) :
  let m' := (paths_changed m observed).1 in
  let delta := (paths_changed m observed).2 in
  map shape (paths m') = map shape observed ∧
  map quality (paths m') =
    map (fun p => match find_path (interface_id p) (paths m) with Some k => quality k | None => quality p end)
      observed ∧
  (∀ id, id ∈ map interface_id observed →
    sampled_at m' !! id = sampled_at m !! id ∧ readings (history m') !! id = readings (history m) !! id) ∧
  (∀ id, id ∉ map interface_id observed →
    sampled_at m' !! id = None ∧ readings (history m') !! id = None) ∧
  (∀ id, (∀ p, p ∈ observed → interface_id p = id → usable p = false) → probed_at m' !! id = None) ∧
  (changed delta = false ↔ map shape (paths m) ≡ₚ map shape observed) ∧
  (∀ g, carrying_gateway delta = Some g ↔
    ∃ old new, monitor_carrying m = Some (interface_id old) ∧ old ∈ paths m ∧ new ∈ observed ∧
      interface_id new = interface_id old ∧ usable new = true ∧ gateway new ≠ gateway old ∧
      g = mkGatewayChange (interface_id old) (gateway old) (gateway new)).
Proof.
  pose proof (reached_inv _ _ Hreach) as [[Hi Hp Hs Hh] _].
  cbv zeta. split_and!; simpl.
  - rewrite <-(keep_quality_shapes (paths m) observed), List.map_map. apply map_ext, apply_role_shape.
  - rewrite !List.map_map. apply map_ext. intros p. unfold keep_quality. simpl. by case_match.
  - intros id Hid. rewrite <-(keep_quality_ids (paths m)) in Hid. apply is_listed_spec in Hid.
    rewrite !(retain_lookup (is_listed _)), Hid. done.
  - intros id Hid. rewrite <-(keep_quality_ids (paths m)) in Hid. apply not_is_listed in Hid.
    by rewrite !(retain_lookup (is_listed _)), Hid.
  - intros id Hid. rewrite (retain_lookup (is_listed_usable _)), keep_quality_listed_usable.
    destruct (is_listed_usable observed id) eqn:E; [|done].
    apply is_listed_usable_spec in E as (p & Hin & Hid' & Hu). by rewrite (Hid p) in Hu.
  - rewrite negb_false_iff, bool_decide_eq_true, shapes_eq by done. by rewrite keep_quality_shapes.
  - intros g. rewrite keep_quality_gateway. by apply gateway_change_spec.
Qed.

(** Probes go out on schedule: a path is handed out exactly when it is usable and was never handed out,
    or its interval (that of the carrying path, or of the others) has passed since; no path is handed out
    twice in one answer, nor again before its interval has passed. *)
Theorem probe_schedule c m now (Hreach : reached c m) :
  let m' := (due_probes m now).1 in
  let due := (due_probes m now).2 in
  NoDup due ∧
  (∀ id, id ∈ due ↔ ∃ p, p ∈ paths m ∧ interface_id p = id ∧ usable p = true ∧
    ∀ last, probed_at m !! id = Some last → interval m p ≤ saturating_duration_since now last) ∧
  (∀ p now', p ∈ paths m → interface_id p ∈ due → saturating_duration_since now' now < interval m p →
    interface_id p ∉ (due_probes m' now').2).
Proof.
  pose proof (reached_inv _ _ Hreach) as [[Hi Hp Hs Hh] _].
  assert (Hdue : ∀ m now p, is_due m now p = true ↔ usable p = true ∧
    ∀ last, probed_at m !! interface_id p = Some last → interval m p ≤ saturating_duration_since now last).
  { clear. intros m now p. unfold is_due, usable. case_bool_decide as E.
    - rewrite bool_decide_eq_false_2 by naive_solver. naive_solver.
    - rewrite bool_decide_eq_true_2 by done. case_match; [rewrite Z.leb_le|]; naive_solver. }
  cbv zeta. split_and!.
  - simpl. by apply NoDup_map_filter.
  - intros id. simpl. rewrite elem_of_map. setoid_rewrite elem_of_filter_bool. setoid_rewrite Hdue. naive_solver.
  - intros p now' Hin Hd Hlt (q & Hid & Hq)%elem_of_map.
    apply elem_of_filter_bool in Hq as [Hq Hqd]. simpl in Hq.
    apply (NoDup_map_inj interface_id (paths m)) in Hid as <-; [|done..].
    apply Hdue in Hqd as [_ Hqd]. specialize (Hqd now). simpl in Hqd.
    rewrite fold_insert_lookup, bool_decide_eq_true_2 in Hqd by done.
    specialize (Hqd eq_refl). unfold interval in *. simpl in Hqd. lia.
Qed.

(** Stale measurements move nothing.  A path left for being degraded has a recent sample, and it is
    that measurement which is below [Good]; the path moved to has a recent sample too, unless the one left was
    [Unusable]; and a path moved to by preference is freshly measured as [Good]. *)
Theorem moves_on_fresh_evidence c m now m' from to reason (Hreach : reached c m)
    (Hgood : band unmeasured (thresholds (cfg m)) = Good)
    (Hev : monitor_evaluate m now = Some (m', Move from to reason)) :
  match reason with
  | MoveDegraded => ∃ p, p ∈ paths m ∧ from = Some (interface_id p) ∧ recently_sampled m now p ∧
      band_of (cfg m) p ≠ Good ∧
      (band_of (cfg m) p = Unusable ∨ ∃ t, t ∈ paths m ∧ interface_id t = to ∧ recently_sampled m now t)
  | Preferred => ∃ t, t ∈ paths m ∧ interface_id t = to ∧ recently_sampled m now t ∧
      band_of (cfg m) t = Good ∧ is_measured (quality t) = true
  | _ => True
  end.
Proof.
  pose proof (reached_inv _ _ Hreach) as [[Hi _ _ _] _].
  destruct (monitor_evaluate_inv _ _ _ _ Hev) as (ev & next & He & Hd & _ & _).
  assert (NoDup (map interface_id ev)) as Hnd by by rewrite (evidence_ids _ _ _ He).
  apply evaluate_cases in Hd as (_ & _ & -> & _ & _ & _ & _ & Hd).
  destruct reason; try done; destruct Hd as (p & t & nx & Hp & <- & Hg & _ & _ & _ & _ & Hd);
    apply carrying_path_spec in Hp as (Hp & Hfrom & _).
  - destruct Hd as (Hb & _ & Hbest). apply best_elem in Hbest as (Ht & _ & Hr).
    apply band_lt_good in Hb. destruct (evidence_below_good _ _ _ _ Hgood He Hp Hb) as [Hpm Hps].
    exists p. split_and!; try done. unfold ready in Hr. apply andb_true_iff in Hr as [_ Hr].
    apply orb_true_iff in Hr as [Hr|Hr].
    + left. unfold urgent in Hr. bool_simpl. done.
    + right. exists t. assert (is_measured (quality t) = true) as Hm.
      { case_bool_decide; [|done]. by eapply stable_measured. }
      by destruct (evidence_measured _ _ _ _ He Ht Hm).
  - destruct Hd as (_ & Hbest). apply best_elem in Hbest as (Ht & _ & Hr).
    unfold preferred in Hr. apply andb_true_iff in Hr as [_ Hr].
    destruct (stable_measured _ _ _ _ _ _ Hnd Ht Hg Hr) as [Hm Hb].
    destruct (evidence_measured _ _ _ _ He Ht Hm) as [Htm Hts]. by exists t.
Qed.

(** The interface is shown the networks in the monitor's order, each with its history, and claims
    nothing about one whose measurements are stale: it is shown as unmeasured with no band, latency, jitter or
    loss.  One that is measured is shown with exactly its smoothed values.  Making the snapshot never panics. *)
Theorem snapshot_claims_only_evidence c m now
    (Hreach : reached c m) (Hcadence : cadence_ok (cadence m)) :
  ∃ snap, snapshot m now = Some snap ∧
    snapshot_degradation snap = degradation m ∧ map view_id (snapshot_paths snap) = ids m ∧
    ∀ v, v ∈ snapshot_paths snap → ∃ p, p ∈ paths m ∧
      view_id v = interface_id p ∧ view_kind v = path_kind p ∧ view_role v = role p ∧
      view_trace_ms v = trace (history m) (interface_id p) ∧
      typical (history m) (interface_id p) = Some (view_typical_ms v) ∧
      (view_measured v = true ↔ recently_sampled m now p ∧ is_measured (quality p) = true) ∧
      (view_band v, view_rtt v, view_jitter v, view_loss v) =
        if view_measured v
        then (Some (band_of (cfg m) p), rtt_ewma (quality p), jitter_ewma (quality p), Some (loss_ewma (quality p)))
        else (None, None, None, None).
Proof.
  pose proof (reached_inv _ _ Hreach) as [[Hi _ _ Hh] _].
  destruct (evidence_total m now Hcadence) as [ev He]. unfold snapshot. rewrite He. simpl.
  assert (∀ p, is_Some (path_view m p)) as Hv.
  { intros p. unfold path_view. destruct (readings (history m) !! interface_id p) as [ring|] eqn:E.
    - destruct (typical_total _ _ _ (proj1 (Hh _ _ E)) E) as [[_ ->]|(_ & low & high & -> & _)]; simpl; eauto.
    - unfold typical. rewrite E. simpl. eauto. }
  destruct (mapM_is_Some_2 (path_view m) ev) as [views Hviews]; [apply Forall_forall; intros p _; apply Hv|].
  rewrite Hviews. simpl. eexists. split; [done|]. simpl. apply mapM_Some_1 in Hviews. split_and!; [done| |].
  - rewrite <-(evidence_ids _ _ _ He). clear -Hviews.
    induction Hviews as [|p v ps vs Hpv _ IH]; [done|]. simpl. rewrite IH. f_equal.
    unfold path_view in Hpv. apply bind_Some in Hpv as (ty & _ & Hpv). by apply (inj Some) in Hpv as <-.
  - intros v Hin. apply list_elem_of_lookup in Hin as [i Hi'].
    destruct (Forall2_lookup_r _ _ _ _ _ Hviews Hi') as (e & Hle & Hpv).
    apply list_elem_of_lookup_2 in Hle. destruct (evidence_elem _ _ _ _ He Hle) as (p & Hp & Hpe).
    unfold path_view in Hpv. apply bind_Some in Hpv as (ty & Hty & Hpv). apply (inj Some) in Hpv as <-.
    exists p. apply as_evidence_spec in Hpe as (Hid & Hrole & _ & [[Hr ->]|[Hr ->]]); simpl in *; split_and!; try done.
    + naive_solver.
    + by destruct (is_measured (quality p)).
    + split; [done|by intros [? _]].
Qed.

(** * Witnesses

    A monitor that carries on Wi-Fi (1) with mobile data (2) listed; the Wi-Fi measures poor, then the
    mobile data good for long enough, and the traffic moves. *)

Definition demo_path (id : InterfaceId) (kind : PathKind) : NetworkPath := {|
  interface_id := id; path_kind := kind; gateway := Some (V4 id); quality := unmeasured; role := Standby;
  preference := 0;
|}.

Definition demo_ops : list Op := [
  OpPathsChanged [demo_path 1 Wifi; demo_path 2 Cellular]; OpEvaluate 0;
  OpObserve 1 (SampleAnswered (from_millis 900)) (from_secs 1);
  OpObserve 2 (SampleAnswered (from_millis 40)) (from_secs 1); OpEvaluate (from_secs 1);
  OpObserve 1 (SampleAnswered (from_millis 900)) (from_secs 31);
  OpObserve 2 (SampleAnswered (from_millis 40)) (from_secs 31) ].

Definition monitor_start : PathMonitor :=
  with_cadence (monitor_new failover_config_default) cadence_default.

Definition run_ops (m : PathMonitor) (ops : list Op) : option PathMonitor :=
  fold_left (fun m op => m ← m; monitor_step m op) ops (Some m).

Definition demo_monitor (n : nat) : PathMonitor :=
  default monitor_start (run_ops monitor_start (firstn n demo_ops)).

Lemma run_ops_reached c m ops m' :
  reached c m → Forall op_ok ops → run_ops m ops = Some m' → reached c m'.
Proof.
  intros Hm. revert m'. induction ops as [|op ops IH] using rev_ind; intros m' Hok Hrun.
  { by apply (inj Some) in Hrun as <-. }
  apply Forall_app in Hok as [Hok [Hop _]%Forall_cons].
  unfold run_ops in Hrun, IH. rewrite fold_left_app in Hrun. simpl in Hrun.
  apply bind_Some in Hrun as (m1 & H1 & H2). apply (reached_step _ m1 op); [by apply IH|done..].
Qed.

Lemma demo_reached n : reached failover_config_default (demo_monitor n).
Proof.
  unfold demo_monitor. destruct (run_ops monitor_start (firstn n demo_ops)) as [m|] eqn:E; simpl; [|constructor].
  apply (run_ops_reached _ monitor_start (firstn n demo_ops)); [constructor| |done].
  apply Forall_take. repeat constructor; simpl; set_solver.
Qed.

Lemma one_carrying_path_witness :
  validate_paths (paths (demo_monitor 7)) = Ok () ∧ map role (paths (demo_monitor 7)) = [Carrying; Standby].
Proof.
  split; [exact (proj1 (one_carrying_path _ _ (demo_reached 7)))|vm_compute; reflexivity].
Defined.

Lemma refresh_keeps_measurements_witness :
  changed (paths_changed (demo_monitor 7) [demo_path 2 Cellular; demo_path 1 Wifi]).2 = false.
Proof.
  apply (refresh_keeps_measurements _ _ [demo_path 2 Cellular; demo_path 1 Wifi] (demo_reached 7)).
  - simpl. apply NoDup_ListNoDup. repeat constructor; simpl; lia.
  - vm_compute. apply Permutation_swap.
Defined.

Lemma probe_schedule_witness : NoDup (due_probes (demo_monitor 7) (from_secs 31)).2 ∧
  (due_probes (demo_monitor 7) (from_secs 31)).2 = [1; 2].
Proof.
  split; [exact (proj1 (probe_schedule _ _ (from_secs 31) (demo_reached 7)))|vm_compute; reflexivity].
Defined.

Lemma moves_on_fresh_evidence_witness :
  ∃ p, p ∈ paths (demo_monitor 7) ∧ Some 1 = Some (interface_id p) ∧
    recently_sampled (demo_monitor 7) (from_secs 31) p ∧ band_of (cfg (demo_monitor 7)) p ≠ Good ∧
    (band_of (cfg (demo_monitor 7)) p = Unusable ∨
     ∃ t, t ∈ paths (demo_monitor 7) ∧ interface_id t = 2 ∧ recently_sampled (demo_monitor 7) (from_secs 31) t).
Proof.
  destruct (monitor_evaluate (demo_monitor 7) (from_secs 31)) as [[m' d]|] eqn:E;
    [|vm_compute in E; discriminate].
  assert (d = Move (Some 1) 2 MoveDegraded) as Hd.
  { change d with (snd (m', d)). change (m', d) with (default (m', d) (Some (m', d))). rewrite <-E.
    vm_compute. reflexivity. }
  subst d.
  exact (moves_on_fresh_evidence _ _ _ m' (Some 1) 2 MoveDegraded (demo_reached 7)
    ltac:(vm_compute; reflexivity) E).
Defined.

Lemma snapshot_claims_only_evidence_witness :
  ∃ snap, snapshot (demo_monitor 7) (from_secs 200) = Some snap ∧ map view_id (snapshot_paths snap) = [1; 2].
Proof.
  destruct (snapshot_claims_only_evidence _ _ (from_secs 200) (demo_reached 7)) as (snap & H1 & _ & H2 & _).
  - vm_compute. split; discriminate.
  - exists snap. split; [exact H1|]. rewrite H2. vm_compute. reflexivity.
Defined.
