(* ===== verification/Rule.v ===== *)
(** Routing rules: what one is, what a set of them must satisfy, and the pool of placeholder addresses
    rules are kept out of (crates/dnet-core/src/rule.rs, fakeip.rs, and the name patterns of
    rule_eval.rs). *)

From Stdlib Require Import Ascii.
From S2P Require Import Prelude Text IpText Profile.

(** * Address blocks *)

(* src: crates/dnet-core/src/rule.rs:41-46 IpCidr *)
Record IpCidr : Type := mkIpCidr {
  addr : IpAddr;
  prefix_len : Z;
}.

#[export] Instance IpCidr_eq_dec : EqDecision IpCidr.
Proof. solve_decision. Defined.

(** [FromStr] of the unsigned integers: decimal digits after an optional plus sign. *)
Fixpoint parse_digits (limit acc : Z) (l : list Ascii.ascii) : option Z :=
  match l with
  | [] => Some acc
  | c :: l' =>
      d ← to_digit 10 c;
      if limit <? acc * 10 + d then None else parse_digits limit (acc * 10 + d) l'
  end.
Definition parse_uint (limit : Z) (s : string) : option Z :=
  match bytes s with
  | [] => None
  | c :: l => if Ascii.eqb c "+" then (match l with [] => None | _ => parse_digits limit 0 l end)
              else parse_digits limit 0 (c :: l)
  end.
Definition parse_u8 : string → option Z := parse_uint U8_MAX.
Definition parse_u16 : string → option Z := parse_uint U16_MAX.

(* src: crates/dnet-core/src/rule.rs:49-60 IpCidr::parse *)
Definition cidr_parse (s : string) : result DomainError IpCidr :=
  let err := InvalidCidr s in
  '(addr_str, prefix_str) ← ok_or (split_once "/" s) err;
  addr ← ok_or (parse_ip addr_str) err;
  prefix_len ← ok_or (parse_u8 prefix_str) err;
  let max := if is_ipv4 addr then 32 else 128 in
  if max <? prefix_len then Err err else Ok {| addr := addr; prefix_len := prefix_len |}.

(** [u32::MAX.checked_shl(n).unwrap_or(0)], or the same of [u128]; a shift by the width or more, or by a
    wrapped-around negative amount, gives no bits. *)
Definition mask (width shift : Z) : Z :=
  if (0 <=? shift) && (shift <? width) then Z.shiftl (2 ^ width - 1) shift mod 2 ^ width else 0.

(* src: crates/dnet-core/src/rule.rs:70-86 IpCidr::overlaps *)
Definition overlaps (self other : IpCidr) : bool :=
  let shared := Z.min (prefix_len self) (prefix_len other) in
  match addr self, addr other with
  | V4 a, V4 b => let mask := mask 32 (32 - shared) in Z.land a mask =? Z.land b mask
  | V6 a, V6 b => let mask := mask 128 (128 - shared) in Z.land a mask =? Z.land b mask
  | _, _ => false
  end.

(* src: crates/dnet-core/src/rule.rs:89-93 IpCidr::fmt *)
Definition cidr_to_string (c : IpCidr) : string := ip_to_string (addr c) +:+ "/" +:+ pretty (prefix_len c).

(** * Placeholder addresses *)

(* src: crates/dnet-core/src/fakeip.rs:29-30 INET4_POOL *)
Definition INET4_POOL : string := "198.18.0.0/15".
(* src: crates/dnet-core/src/fakeip.rs:31-32 INET6_POOL *)
Definition INET6_POOL : string := "fc00::/18".

(** [Result::expect]: an error is a panic. *)
Definition expect {E T} (r : result E T) : option T := match r with Ok t => Some t | Err _ => None end.

(* src: crates/dnet-core/src/fakeip.rs:34-39 pools *)
Definition pools : option (list IpCidr) :=
  p4 ← expect (cidr_parse INET4_POOL);
  p6 ← expect (cidr_parse INET6_POOL);
  Some [p4; p6].

(* src: crates/dnet-core/src/fakeip.rs:41-47 canonical *)
Definition canonical (ip : IpAddr) : IpAddr :=
  match ip with
  | V6 v6 => match to_ipv4_mapped v6 with Some v4 => V4 v4 | None => ip end
  | v4 => v4
  end.

(* src: crates/dnet-core/src/fakeip.rs:49-55 is_placeholder *)
Definition is_placeholder (ip : IpAddr) : option bool :=
  let ip := canonical ip in
  host ← expect (cidr_parse (ip_to_string ip +:+ "/" +:+ pretty (if is_ipv4 ip then 32 else 128)));
  pools ← pools;
  Some (existsb (fun pool => overlaps pool host) pools).

(* src: crates/dnet-core/src/fakeip.rs:57-66 check_user_range *)
Definition check_user_range (range : IpCidr) : option (result DomainError unit) :=
  pools ← pools;
  let inside := existsb (fun pool => overlaps pool range && (prefix_len pool <=? prefix_len range)) pools in
  Some (if inside then Err (RangeInsideFakeIpPool (cidr_to_string range)) else Ok ()).

(** * Names *)

(* src: crates/dnet-core/src/rule_eval.rs:129-136 normalize_domain *)
Definition is_label (label : string) : bool :=
  (1 <=? str_len label) && (str_len label <=? 63) && negb (starts_with "-" label) && negb (ends_with "-" label) &&
  forallb (fun b => is_ascii_alphanumeric b || Ascii.eqb b "-" || Ascii.eqb b "_") (bytes label).

(* src: crates/dnet-core/src/rule_eval.rs:119-138 normalize_domain *)
Definition normalize_domain (name : string) : option string :=
  let name := default name (strip_suffix "." name) in
  if str_is_empty name || (253 <? str_len name) || negb (str_is_ascii name) then None
  else
    let lower := to_ascii_lowercase name in
    if forallb is_label (split "." lower) then Some lower else None.

(* src: crates/dnet-core/src/rule_eval.rs:238-245 check_domain_pattern *)
Definition check_domain_pattern (pattern : string) : result DomainError unit :=
  match normalize_domain pattern with
  | Some _ => Ok ()
  | None => Err (InvalidDomainPattern (concat_str (take 64 (chars pattern))))
  end.

(** * Rules *)

(* src: crates/dnet-core/src/rule.rs:13-21 Reliability *)
Inductive Reliability : Type := Deterministic | BestEffort.

(* src: crates/dnet-core/src/rule.rs:23-39 RuleAction *)
Inductive RuleAction : Type := Tunnel | Bypass | Capture | Reject.

(* src: crates/dnet-core/src/rule.rs:95-113 RuleMatcher *)
Inductive RuleMatcher : Type :=
  | Domain (p : string)
  | DomainSuffix (p : string)
  | Cidr (c : IpCidr)
  | Application (p : string)
  | DnsPort
  | EncryptedDnsPort.

#[export] Instance Reliability_eq_dec : EqDecision Reliability.
Proof. solve_decision. Defined.
#[export] Instance RuleAction_eq_dec : EqDecision RuleAction.
Proof. solve_decision. Defined.
#[export] Instance RuleMatcher_eq_dec : EqDecision RuleMatcher.
Proof. solve_decision. Defined.

(* src: crates/dnet-core/src/rule.rs:115-124 RoutingRule *)
Record RoutingRule : Type := mkRoutingRule {
  rule_id : RuleId;
  matcher : RuleMatcher;
  action : RuleAction;
  precedence : Z;
  is_builtin : bool;
}.

#[export] Instance RoutingRule_eq_dec : EqDecision RoutingRule.
Proof. solve_decision. Defined.

(* src: crates/dnet-core/src/rule.rs:173-178 RoutingRule::build *)
Definition pattern_empty (m : RuleMatcher) : bool :=
  match m with
  | Domain p | DomainSuffix p | Application p => str_is_empty (trim p)
  | Cidr _ | DnsPort | EncryptedDnsPort => false
  end.

(** [None] is a panic of the pool's constants. *)
(* src: crates/dnet-core/src/rule.rs:166-209 RoutingRule::build *)
Definition build (id : RuleId) (m : RuleMatcher) (a : RuleAction) (p : Z) (builtin : bool) :
    option (result DomainError RoutingRule) :=
  if pattern_empty m then Some (Err EmptyPattern)
  else
    let name := match m with Domain p | DomainSuffix p => check_domain_pattern p | _ => Ok () end in
    range ← (match m, builtin with Cidr range, false => check_user_range range | _, _ => Some (Ok ()) end);
    Some (
      _ ← name;
      _ ← range;
      if bool_decide (m = DnsPort) && negb (bool_decide (a = Capture)) then Err DnsPortRequiresCapture
      else if bool_decide (m = EncryptedDnsPort) && negb (bool_decide (a = Reject)) then
        Err EncryptedDnsPortRequiresReject
      else if bool_decide (a = Reject) && negb builtin then Err RejectIsBuiltinOnly
      else Ok {| rule_id := id; matcher := m; action := a; precedence := p; is_builtin := builtin |}).

(* src: crates/dnet-core/src/rule.rs:127-134 RoutingRule::user *)
Definition user (new_id : RuleId) (m : RuleMatcher) (a : RuleAction) (p : Z) := build new_id m a p false.

(* src: crates/dnet-core/src/rule.rs:136-154 RoutingRule::restored_user *)
Definition restored_user (id : RuleId) (m : RuleMatcher) (a : RuleAction) (p : Z) :
    option (result DomainError RoutingRule) :=
  let personal :=
    negb (match m with DnsPort | EncryptedDnsPort => true | _ => false end) &&
    match a with Tunnel | Bypass => true | _ => false end in
  if negb personal then Some (Err NotAPersonalRule) else build id m a p false.

(* src: crates/dnet-core/src/rule.rs:156-164 RoutingRule::builtin *)
Definition builtin (new_id : RuleId) (m : RuleMatcher) (a : RuleAction) (p : Z) := build new_id m a p true.

(* src: crates/dnet-core/src/rule.rs:232-240 RoutingRule::reliability *)
Definition reliability (r : RoutingRule) : Reliability :=
  match matcher r with Application _ => BestEffort | _ => Deterministic end.

(* src: crates/dnet-core/src/rule.rs:244-251 RoutingRule::renumbered *)
Definition renumbered (r : RoutingRule) (p : Z) : RoutingRule := {|
  rule_id := rule_id r; matcher := matcher r; action := action r; precedence := p; is_builtin := is_builtin r;
|}.

(* src: crates/dnet-core/src/rule.rs:253-255 RoutingRule::is_dns_capture *)
Definition is_dns_capture (r : RoutingRule) : bool :=
  bool_decide (matcher r = DnsPort) && bool_decide (action r = Capture).

(** * Sets of rules *)

(* src: crates/dnet-core/src/rule.rs:261-266 validate_rule_set *)
Fixpoint validate_unseen (seen : list Z) (rules : list RoutingRule) : result DomainError unit :=
  match rules with
  | [] => Ok ()
  | r :: rules' =>
      if bool_decide (precedence r ∈ seen) then Err (PrecedenceCollision (precedence r))
      else validate_unseen (precedence r :: seen) rules'
  end.

(* src: crates/dnet-core/src/rule.rs:258-268 validate_rule_set *)
Definition validate_rule_set (rules : list RoutingRule) : result DomainError unit := validate_unseen [] rules.

(** [Iterator::max] and [min] of numbers. *)
Definition list_max (l : list Z) : option Z := max_by Z.compare l.
Definition list_min (l : list Z) : option Z := min_by Z.compare l.

(* src: crates/dnet-core/src/doh_block.rs:57-59 FIRST_PRECEDENCE *)
Definition FIRST_PRECEDENCE : Z := 100.
(* src: crates/dnet-core/src/doh_block.rs:61-62 USER_RULES_START *)
Definition USER_RULES_START : Z := 200.

(* src: crates/dnet-core/src/rule.rs:270-291 validate_user_rules_follow_builtins *)
Definition validate_user_rules_follow_builtins (rules : list RoutingRule) : result DomainError unit :=
  let start := USER_RULES_START in
  let highest_builtin := default 0 (list_max (map precedence (List.filter is_builtin rules))) in
  match
    List.find (fun p => (p <? start) || (p <=? highest_builtin))
      (map precedence (List.filter (fun r => negb (is_builtin r)) rules))
  with
  | Some low => Err (UserRuleOutranksBuiltins low start)
  | None => Ok ()
  end.

(* src: crates/dnet-core/src/rule.rs:293-302 next_user_precedence *)
Definition next_user_precedence (rules : list RoutingRule) : option Z :=
  after ← match list_max (map precedence rules) with None => Some 0 | Some p => u32_checked_add p 1 end;
  Some (Z.max after USER_RULES_START).

(* src: crates/dnet-core/src/rule.rs:304-317 validate_dns_leak_protection *)
Definition validate_dns_leak_protection (rules : list RoutingRule) : result DomainError unit :=
  capture ← ok_or (List.find is_dns_capture rules) MissingDnsCapture;
  if negb (bool_decide (list_min (map precedence rules) = Some (precedence capture))) then Err MissingDnsCapture
  else Ok ().

Example cidr_texts :
  map (fun s => is_ok (cidr_parse s)) ["10.0.0.0/8"; "10.0.0.0/33"; "fc00::/18"; "10.0.0.0"; "::1/128"; "::1/129"; "1.2.3.4/+7"] =
  [true; false; true; false; true; false; true] ∧
  is_placeholder (V4 (198 * 2 ^ 24 + 19 * 2 ^ 16)) = Some true ∧ is_placeholder (V6 1) = Some false ∧
  normalize_domain "Example.COM." = Some "example.com" ∧ normalize_domain "a..b" = None ∧
  normalize_domain "-a.b" = None.
Proof. vm_compute. repeat split. Qed.
