(* ===== verification/RuleEval.v ===== *)
(** Which rule decides a connection, and which rules can never decide one
    (crates/dnet-core/src/rule_eval.rs). *)

From Stdlib Require Import Ascii.
From S2P Require Import Prelude Text IpText Profile Rule.

(** * Definitions *)

(* src: crates/dnet-core/src/doh_block.rs:31-32 ENCRYPTED_DNS_PORT *)
Definition ENCRYPTED_DNS_PORT : Z := 853.

(* src: crates/dnet-core/src/rule_eval.rs:43-48 Transport *)
Inductive Transport : Type := TransportTcp | TransportUdp.

(* src: crates/dnet-core/src/rule_eval.rs:50-57 Destination *)
Inductive Destination : Type :=
  | Named (name : string)
  | Address (ip : IpAddr).

(* src: crates/dnet-core/src/rule_eval.rs:59-67 Flow *)
Record Flow : Type := mkFlow {
  destination : Destination;
  flow_port : Z;
  transport : Transport;
  application : option string;
}.

(* src: crates/dnet-core/src/rule_eval.rs:104-113 Decision *)
Record Decision : Type := mkDecision {
  decided_action : RuleAction;
  decided_rule : option RuleId;
  decided_reliability : option Reliability;
}.

(* src: crates/dnet-core/src/rule_eval.rs:115-117 DEFAULT_ACTION *)
Definition DEFAULT_ACTION : RuleAction := Tunnel.

(* src: crates/dnet-core/src/rule_eval.rs:140-146 under *)
Definition under (domain suffix : string) : bool :=
  String.eqb domain suffix ||
  match strip_suffix suffix domain with Some head => ends_with "." head | None => false end.

Section Eval.
Context `{ToLowercase}.

(* src: crates/dnet-core/src/rule_eval.rs:148-157 normalize_application *)
Definition normalize_application (path : string) : string :=
  let slashed := replace_byte "/" "\" path in
  to_lowercase (trim_end_matches "\" (default slashed (strip_prefix "\\?\" slashed))).

(* src: crates/dnet-core/src/rule_eval.rs:168-177 contains *)
Definition contains (cidr : IpCidr) (ip : IpAddr) : bool :=
  let host_bits := match canonical ip with V4 _ => 32 | V6 _ => 128 end in
  match cidr_parse (ip_to_string (canonical ip) +:+ "/" +:+ pretty host_bits) with
  | Ok host => overlaps cidr host && (prefix_len cidr <=? host_bits)
  | Err _ => false
  end.

(* src: crates/dnet-core/src/rule_eval.rs:179-208 matches *)
Definition matches (rule : RoutingRule) (flow : Flow) : bool :=
  match matcher rule with
  | DnsPort => flow_port flow =? 53
  | EncryptedDnsPort => flow_port flow =? ENCRYPTED_DNS_PORT
  | Domain pattern =>
      match destination flow, normalize_domain pattern with
      | Named name, Some pattern =>
          match normalize_domain name with Some name => String.eqb name pattern | None => false end
      | _, _ => false
      end
  | DomainSuffix pattern =>
      match destination flow, normalize_domain pattern with
      | Named name, Some pattern =>
          match normalize_domain name with Some name => under name pattern | None => false end
      | _, _ => false
      end
  | Cidr cidr =>
      match destination flow with
      | Address ip => contains cidr ip
      | Named _ => false
      end
  | Application path =>
      match application flow with
      | Some app => String.eqb (normalize_application app) (normalize_application path)
      | None => false
      end
  end.

Definition precedence_cmp (a b : RoutingRule) : comparison := precedence a ?= precedence b.

(* src: crates/dnet-core/src/rule_eval.rs:210-215 in_order *)
Definition in_order (rules : list RoutingRule) : list RoutingRule := sort_by precedence_cmp rules.

(* src: crates/dnet-core/src/rule_eval.rs:217-234 evaluate *)
Definition evaluate (rules : list RoutingRule) (flow : Flow) : Decision :=
  match List.find (fun rule => matches rule flow) (in_order rules) with
  | None => {| decided_action := DEFAULT_ACTION; decided_rule := None; decided_reliability := None |}
  | Some rule => {|
      decided_action := action rule; decided_rule := Some (rule_id rule);
      decided_reliability := Some (reliability rule) |}
  end.

(* src: crates/dnet-core/src/rule_eval.rs:249-257 Shadowed *)
Record Shadowed : Type := mkShadowed { shadowed_rule : RuleId; shadowed_by : RuleId }.

(* src: crates/dnet-core/src/rule_eval.rs:277-279 same_name *)
Definition same_name (a b : string) : bool :=
  match normalize_domain a, normalize_domain b with Some a, Some b => String.eqb a b | _, _ => false end.

(* src: crates/dnet-core/src/rule_eval.rs:259-275 covers *)
Definition covers (outer inner : RuleMatcher) : bool :=
  match outer, inner with
  | Domain a, Domain b => same_name a b
  | DomainSuffix a, Domain b | DomainSuffix a, DomainSuffix b =>
      match normalize_domain a, normalize_domain b with Some a, Some b => under b a | _, _ => false end
  | Cidr a, Cidr b => (prefix_len a <=? prefix_len b) && overlaps a b
  | Application a, Application b => String.eqb (normalize_application a) (normalize_application b)
  | DnsPort, DnsPort => true
  | _, _ => false
  end.

(* src: crates/dnet-core/src/rule_eval.rs:287-297 shadowed *)
Fixpoint shadowed_from (tried ordered : list RoutingRule) : list Shadowed :=
  match ordered with
  | [] => []
  | rule :: ordered' =>
      let found := shadowed_from (tried ++ [rule]) ordered' in
      match List.find (fun earlier => covers (matcher earlier) (matcher rule)) tried with
      | Some winner => {| shadowed_rule := rule_id rule; shadowed_by := rule_id winner |} :: found
      | None => found
      end
  end.

(* src: crates/dnet-core/src/rule_eval.rs:281-299 shadowed *)
Definition shadowed (rules : list RoutingRule) : list Shadowed := shadowed_from [] (in_order rules).

End Eval.

(** * Lemmas: address blocks *)

(** The addresses of a block: those that agree with it on the bits of the prefix. *)
Definition in_block (c : IpCidr) (ip : IpAddr) : Prop :=
  is_ipv4 (addr c) = is_ipv4 ip ∧
  ip_bits (addr c) / 2 ^ (ip_width ip - prefix_len c) = ip_bits ip / 2 ^ (ip_width ip - prefix_len c).

Definition cidr_ok (c : IpCidr) : Prop := ip_ok (addr c) ∧ 0 ≤ prefix_len c ≤ ip_width (addr c).

Lemma land_mask w n x : 0 ≤ n ≤ w → 0 ≤ x < 2 ^ w → Z.land x (mask w n) = x / 2 ^ n * 2 ^ n.
Proof.
  intros Hn Hx. rewrite <-Z.shiftl_mul_pow2, <-Z.shiftr_div_pow2 by lia. unfold mask.
  destruct (decide (n = w)) as [->|Hne].
  - rewrite Z.ltb_irrefl, andb_false_r, Z.land_0_r.
    rewrite Z.shiftr_div_pow2, Z.div_small by lia. by rewrite Z.shiftl_0_l.
  - rewrite (proj2 (Z.leb_le 0 n)), (proj2 (Z.ltb_lt n w)) by lia. cbn [andb].
    rewrite <-Z.land_ones by lia. replace (2 ^ w - 1) with (Z.ones w) by (rewrite Z.ones_equiv; lia).
    apply Z.bits_inj_iff'. intros i Hi. rewrite !Z.land_spec, Z.testbit_ones_nonneg by lia.
    rewrite !Z.shiftl_spec by lia.
    destruct (Z.ltb_spec i n).
    + rewrite !(Z.testbit_neg_r _ (i - n)) by lia. by rewrite andb_false_l, andb_false_r.
    + rewrite Z.shiftr_spec by lia. replace (i - n + n) with i by lia.
      rewrite Z.testbit_ones_nonneg by lia. destruct (Z.ltb_spec i w).
      * rewrite (proj2 (Z.ltb_lt (i - n) w)) by lia. by rewrite andb_true_r.
      * rewrite !andb_false_r. symmetry. destruct (decide (x = 0)) as [->|]; [apply Z.testbit_0_l|].
        apply Z.bits_above_log2; [lia|]. apply Z.log2_lt_pow2; [lia|].
        eapply Z.lt_le_trans; [apply Hx|]. apply Z.pow_le_mono_r; lia.
Qed.

Lemma mul_pow_eq a b n : 0 ≤ n → a * 2 ^ n = b * 2 ^ n ↔ a = b.
Proof. intros Hn. assert (0 < 2 ^ n) by (apply Z.pow_pos_nonneg; lia). nia. Qed.

(** Blocks overlap when they agree on the bits of the shorter prefix. *)
Lemma overlaps_spec a b :
  cidr_ok a → cidr_ok b →
  overlaps a b = true ↔ is_ipv4 (addr a) = is_ipv4 (addr b) ∧
    let n := ip_width (addr a) - Z.min (prefix_len a) (prefix_len b) in
    ip_bits (addr a) / 2 ^ n = ip_bits (addr b) / 2 ^ n.
Proof.
  intros [Ha Hpa] [Hb Hpb]. unfold overlaps, ip_ok in *.
  destruct (addr a) as [x|x], (addr b) as [y|y]; cbn [is_ipv4 ip_bits ip_width] in *; cbv zeta.
  - rewrite Z.eqb_eq, !land_mask by lia. rewrite mul_pow_eq by lia. naive_solver.
  - split; [done|by intros [? _]].
  - split; [done|by intros [? _]].
  - rewrite Z.eqb_eq, !land_mask by lia. rewrite mul_pow_eq by lia. naive_solver.
Qed.

(** Agreeing on more bits, two addresses agree on fewer. *)
Lemma div_coarser x y m n : 0 ≤ n ≤ m → x / 2 ^ n = y / 2 ^ n → x / 2 ^ m = y / 2 ^ m.
Proof.
  intros Hn E. replace m with (n + (m - n)) by lia.
  rewrite Z.pow_add_r by lia. rewrite <-!Z.div_div by (try apply Z.pow_nonzero; try apply Z.pow_pos_nonneg; lia).
  by rewrite E.
Qed.

Lemma same_width ip ip' : is_ipv4 ip = is_ipv4 ip' → ip_width ip = ip_width ip'.
Proof. by destruct ip, ip'. Qed.

Lemma to_ipv4_mapped_ok bits v4 : to_ipv4_mapped bits = Some v4 → 0 ≤ v4 < 2 ^ 32.
Proof. unfold to_ipv4_mapped. destruct (_ =? _); [|done]. intros [= <-]. apply Z.mod_pos_bound. lia. Qed.

Lemma canonical_ok ip : ip_ok ip → ip_ok (canonical ip).
Proof.
  destruct ip as [b|b]; [done|]. simpl. destruct (to_ipv4_mapped b) eqn:E; [|done].
  intros _. by apply to_ipv4_mapped_ok in E.
Qed.

Lemma canonical_twice ip : ip_ok ip → canonical (canonical ip) = canonical ip.
Proof. destruct ip as [b|b]; [done|]. simpl. destruct (to_ipv4_mapped b) eqn:E; simpl; by rewrite ?E. Qed.

Definition host_block (ip : IpAddr) : IpCidr := {| addr := ip; prefix_len := ip_width ip |}.

Lemma host_block_ok ip : ip_ok ip → cidr_ok (host_block ip).
Proof. intros H. split; [done|]. destruct ip; simpl; lia. Qed.

Lemma cidr_parse_ip_text ip w n :
  ip_ok ip → parse_u8 w = Some n →
  cidr_parse (ip_to_string ip +:+ "/" +:+ w) =
    if ip_width ip <? n then Err (InvalidCidr (ip_to_string ip +:+ "/" +:+ w)) else Ok {| addr := ip; prefix_len := n |}.
Proof.
  intros Hip Hw. unfold cidr_parse.
  change (ip_to_string ip +:+ "/" +:+ w) with (ip_to_string ip +:+ String "/" w).
  rewrite split_once_spec by apply slashless_ip. cbn [ok_or mbind result_bind].
  rewrite parse_ip_to_string by done. cbn [ok_or mbind result_bind]. rewrite Hw. cbn [ok_or mbind result_bind].
  by destruct ip.
Qed.

Lemma cidr_parse_host ip :
  ip_ok ip → cidr_parse (ip_to_string ip +:+ "/" +:+ pretty (ip_width ip)) = Ok (host_block ip).
Proof.
  intros Hip. rewrite (cidr_parse_ip_text ip _ (ip_width ip)).
  - by rewrite Z.ltb_irrefl.
  - done.
  - destruct ip; vm_compute; done.
Qed.

Lemma parse_digits_nonneg limit l acc v : 0 ≤ acc → parse_digits limit acc l = Some v → 0 ≤ v.
Proof.
  revert acc. induction l as [|c l IH]; intros acc Hacc; simpl; [by intros [= <-]|].
  intros (d & Hd & H)%bind_Some. apply to_digit_nonneg in Hd; [|done].
  destruct (limit <? acc * 10 + d); [done|]. eapply IH; [|done]. lia.
Qed.

Lemma parse_u8_nonneg s v : parse_u8 s = Some v → 0 ≤ v.
Proof.
  unfold parse_u8, parse_uint. destruct (bytes s) as [|c l]; [done|]. destruct (Ascii.eqb c "+").
  - destruct l; [done|]. by apply parse_digits_nonneg.
  - by apply parse_digits_nonneg.
Qed.

Lemma cidr_parse_ok s c : cidr_parse s = Ok c → cidr_ok c.
Proof.
  unfold cidr_parse. destruct (split_once "/" s) as [[a p]|]; [|done]. cbn [ok_or mbind result_bind].
  destruct (parse_ip a) as [ip|] eqn:Ea; [|done]. cbn [ok_or mbind result_bind].
  destruct (parse_u8 p) as [n|] eqn:Ep; [|done]. cbn [ok_or mbind result_bind].
  destruct (Z.ltb_spec (if is_ipv4 ip then 32 else 128) n); [done|]. intros [= <-].
  apply parse_ip_ok in Ea. apply parse_u8_nonneg in Ep. split; [done|]. by destruct ip.
Qed.

Lemma overlaps_host c ip :
  cidr_ok c → ip_ok ip →
  overlaps c (host_block ip) && (prefix_len c <=? ip_width ip) = true ↔ in_block c ip.
Proof.
  intros Hc Hip. rewrite andb_true_iff, overlaps_spec, Z.leb_le by (try apply host_block_ok; done).
  unfold in_block. cbv zeta. cbn [host_block addr prefix_len]. split.
  - intros [[Hf He] Hle]. rewrite (same_width _ _ Hf) in He. split; [done|]. by rewrite Z.min_l in He by done.
  - intros [Hf He]. rewrite (same_width _ _ Hf). destruct Hc as [_ Hc]. rewrite (same_width _ _ Hf) in Hc.
    rewrite Z.min_l by lia. split; [done|lia].
Qed.

Lemma contains_spec c ip : cidr_ok c → ip_ok ip → contains c ip = true ↔ in_block c (canonical ip).
Proof.
  intros Hc Hip. rewrite <-overlaps_host by (try apply canonical_ok; done). unfold contains.
  assert (match canonical ip with V4 _ => 32 | V6 _ => 128 end = ip_width (canonical ip)) as -> by by destruct (canonical ip).
  rewrite cidr_parse_host by by apply canonical_ok. done.
Qed.

(** A block within a block holds its addresses. *)
Lemma in_block_nested a b ip :
  cidr_ok a → cidr_ok b → prefix_len a ≤ prefix_len b → overlaps a b = true → in_block b ip → in_block a ip.
Proof.
  intros Ha Hb Hle [Hf He]%overlaps_spec [Hf' He']; [|done..]. split; [congruence|].
  cbv zeta in He. rewrite Z.min_l in He by done. rewrite (same_width _ _ Hf), (same_width _ _ Hf') in He.
  rewrite He. destruct Hb as [_ Hb]. rewrite (same_width _ _ Hf') in Hb.
  eapply div_coarser; [|exact He']. lia.
Qed.

(** * Lemmas: names *)

Lemma under_spec d s : under d s = true ↔ d = s ∨ ∃ h, d = h +:+ "." +:+ s.
Proof.
  unfold under. rewrite orb_true_iff, String.eqb_eq. split.
  - intros [->|H]; [by left|]. right. destruct (strip_suffix s d) as [h|] eqn:E; [|done].
    apply strip_suffix_spec in E as ->. apply ends_with_spec in H as [h' ->]. exists h'. by rewrite str_app_assoc.
  - intros [->|[h ->]]; [by left|]. right.
    assert (strip_suffix s (h +:+ "." +:+ s) = Some (h +:+ ".")) as ->
      by (apply strip_suffix_spec; by rewrite str_app_assoc).
    apply ends_with_spec. eauto.
Qed.

Lemma under_trans a b c : under a b = true → under b c = true → under a c = true.
Proof.
  rewrite !under_spec. intros [->|[h ->]] [->|[k ->]]; eauto.
  right. exists (h +:+ "." +:+ k). by rewrite !str_app_assoc.
Qed.

(** * Lemmas: deciding *)

(** What every rule built from parsed parts satisfies. *)
Definition rule_ok (r : RoutingRule) : Prop :=
  0 ≤ precedence r ∧ match matcher r with Cidr c => cidr_ok c | _ => True end.

Definition flow_ok (f : Flow) : Prop :=
  match destination f with Address ip => ip_ok ip | Named _ => True end.

#[export] Instance precedence_cmp_total : TotalCompare precedence_cmp.
Proof. unfold precedence_cmp. apply _. Qed.

Lemma elem_of_in_order r rules : r ∈ in_order rules ↔ r ∈ rules.
Proof. apply elem_of_sort_by. Qed.

(** The first that satisfies a test, in a sorted list, is a least one that does. *)
Lemma find_sorted p l r :
  StronglySorted (le_by precedence_cmp) l → List.find p l = Some r →
  ∀ r', r' ∈ l → p r' = true → precedence r ≤ precedence r'.
Proof.
  induction 1 as [|x l _ IH Hx]; [done|]. simpl. destruct (p x) eqn:E.
  - intros [= <-] r' [->|Hr']%elem_of_cons _; [done|].
    rewrite Forall_forall in Hx. specialize (Hx r' Hr'). unfold le_by, precedence_cmp in Hx.
    exact Hx.
  - intros Hf r' [->|Hr']%elem_of_cons Hp; [congruence|]. by apply IH.
Qed.

Section Lemmas.
Context `{ToLowercase}.

Definition decision_of (r : RoutingRule) : Decision := {|
  decided_action := action r; decided_rule := Some (rule_id r); decided_reliability := Some (reliability r);
|}.
Definition default_decision : Decision := {|
  decided_action := DEFAULT_ACTION; decided_rule := None; decided_reliability := None;
|}.

(** A rule that matches decides, of those that do one of least precedence. *)
Lemma rule_decision_cases rules flow :
  (∃ r, r ∈ rules ∧ matches r flow = true ∧ evaluate rules flow = decision_of r ∧
     ∀ r', r' ∈ rules → matches r' flow = true → precedence r ≤ precedence r') ∨
  (evaluate rules flow = default_decision ∧ ∀ r, r ∈ rules → matches r flow = false).
Proof.
  unfold evaluate. destruct (List.find _ (in_order rules)) as [r|] eqn:E.
  - left. exists r. pose proof E as [Hr Hm]%find_Some_elem. rewrite elem_of_in_order in Hr.
    split_and!; try done. intros r' Hr' Hm'. eapply (find_sorted _ (in_order rules)); try done.
    + apply sort_by_sorted, _.
    + by rewrite elem_of_in_order.
  - right. split; [done|]. intros r Hr. eapply (find_None_elem (fun rule => matches rule flow)); [done|].
    by rewrite elem_of_in_order.
Qed.

(** With distinct precedences, a matching rule below every other decides. *)
Lemma evaluate_least rules flow r :
  r ∈ rules → matches r flow = true →
  (∀ r', r' ∈ rules → matches r' flow = true → r' = r ∨ precedence r < precedence r') →
  evaluate rules flow = decision_of r.
Proof.
  intros Hr Hm Hleast. destruct (rule_decision_cases rules flow) as [(r' & Hr' & Hm' & -> & Hle)|[_ Hn]].
  - destruct (Hleast r' Hr' Hm') as [->|Hlt]; [done|]. specialize (Hle r Hr Hm). lia.
  - by rewrite Hn in Hm.
Qed.

Lemma covers_sound a b flow :
  rule_ok a → rule_ok b → flow_ok flow →
  covers (matcher a) (matcher b) = true → matches b flow = true → matches a flow = true.
Proof.
  intros [_ Ha] [_ Hb] Hf. unfold matches, covers, same_name, flow_ok in *.
  destruct (matcher a) as [p|p|c|p| |], (matcher b) as [q|q|d|q| |]; try done.
  - destruct (normalize_domain p) as [x|], (normalize_domain q) as [y|]; try done.
    intros ->%String.eqb_eq. by destruct (destination flow).
  - destruct (normalize_domain p) as [x|], (normalize_domain q) as [y|]; try done. intros Hu.
    destruct (destination flow) as [n|]; [|done]. destruct (normalize_domain n); [|done].
    by intros ->%String.eqb_eq.
  - destruct (normalize_domain p) as [x|], (normalize_domain q) as [y|]; try done. intros Hu.
    destruct (destination flow) as [n|]; [|done]. destruct (normalize_domain n); [|done].
    intros Hn. by eapply under_trans.
  - intros [Hle%Z.leb_le Ho]%andb_true_iff. destruct (destination flow) as [|ip]; [done|].
    rewrite !contains_spec by done. by apply in_block_nested.
  - destruct (application flow); [|done]. intros Hpq%String.eqb_eq. by rewrite Hpq.
Qed.

Lemma shadowed_from_spec tried ordered s :
  s ∈ shadowed_from tried ordered →
  ∃ l1 r l2 w, tried ++ ordered = l1 ++ r :: l2 ∧ w ∈ l1 ∧ covers (matcher w) (matcher r) = true ∧
    s = mkShadowed (rule_id r) (rule_id w).
Proof.
  revert tried. induction ordered as [|r ordered IH]; intros tried; [by intros ?%elem_of_nil|].
  simpl. intros Hs.
  assert (s ∈ shadowed_from (tried ++ [r]) ordered ∨
    ∃ w, List.find (fun e => covers (matcher e) (matcher r)) tried = Some w ∧ s = mkShadowed (rule_id r) (rule_id w))
    as [Hs'|(w & Hw & ->)].
  { destruct (List.find _ tried); [apply elem_of_cons in Hs as [->|Hs]|]; eauto. }
  - destruct (IH _ Hs') as (l1 & r' & l2 & w & E & ?). exists l1, r', l2, w. by rewrite <-E, <-app_assoc.
  - apply find_Some_elem in Hw as [Hin Hc]. by exists tried, r, ordered, w.
Qed.

Lemma find_app_skip {A} (p : A → bool) l1 x l2 :
  x ∉ l1 → List.find p (l1 ++ x :: l2) = Some x → ∀ y, y ∈ l1 → p y = false.
Proof.
  intros Hx. induction l1 as [|z l1 IH]; [by intros _ y ?%elem_of_nil|]. simpl.
  destruct (p z) eqn:E; [intros [= ->]; set_solver|].
  intros Hf y [->|Hy]%elem_of_cons; [done|]. apply IH; [set_solver|done..].
Qed.
End Lemmas.

Lemma validate_unseen_ok seen rules :
  validate_unseen seen rules = Ok () ↔ NoDup (map precedence rules) ∧ ∀ p, p ∈ seen → p ∉ map precedence rules.
Proof.
  revert seen. induction rules as [|r rules IH]; intros seen; simpl.
  - split; [|done]. intros _. split; [constructor|set_solver].
  - case_bool_decide as E; [split; [done|]|].
    + intros [_ Hs]. exfalso. apply (Hs _ E). set_solver.
    + rewrite IH, NoDup_cons. set_solver.
Qed.

Lemma validate_rule_set_ok rules : validate_rule_set rules = Ok () ↔ NoDup (map precedence rules).
Proof. unfold validate_rule_set. rewrite validate_unseen_ok. set_solver. Qed.

Lemma list_min_spec l m : list_min l = Some m → m ∈ l ∧ ∀ x, x ∈ l → m ≤ x.
Proof.
  intros H. split; [by apply (min_by_elem Z.compare)|]. intros x Hx.
  pose proof (min_by_le Z.compare _ _ _ H Hx) as Hle. exact Hle.
Qed.

Lemma list_max_spec l :
  (l = [] ∧ list_max l = None) ∨ (∃ m, list_max l = Some m ∧ m ∈ l ∧ ∀ x, x ∈ l → x ≤ m).
Proof.
  destruct l as [|y l]; [by left|]. right. unfold list_max, max_by. eexists. split; [done|].
  revert y. induction l as [|z l IH]; intros y; simpl; [set_solver by lia|].
  destruct (Z.compare_spec y z) as [->|Hlt|Hgt].
  - destruct (IH z) as [H1 H2]. split; [set_solver|]. intros x. rewrite !elem_of_cons. set_solver.
  - destruct (IH z) as [H1 H2]. split; [set_solver|].
    intros x [->|Hx]%elem_of_cons; [|by apply H2]. specialize (H2 z). set_solver by lia.
  - destruct (IH y) as [H1 H2]. split; [set_solver|].
    intros x [->|[->|Hx]%elem_of_cons]%elem_of_cons; [apply H2; set_solver| |apply H2; set_solver].
    assert (y ≤ fold_left (fun a b => match a ?= b with Gt => a | _ => b end) l y) by (apply H2; set_solver). lia.
Qed.

Lemma dns_capture_least rules :
  validate_dns_leak_protection rules = Ok () →
  ∃ c, c ∈ rules ∧ matcher c = DnsPort ∧ action c = Capture ∧ ∀ r, r ∈ rules → precedence c ≤ precedence r.
Proof.
  unfold validate_dns_leak_protection. destruct (List.find is_dns_capture rules) as [c|] eqn:E; [|done].
  apply find_Some_elem in E as [Hc Hd]. unfold is_dns_capture in Hd. simpl.
  destruct (bool_decide (list_min _ = _)) eqn:El; [|done]. intros _. apply bool_decide_eq_true in El.
  apply list_min_spec in El as [_ Hmin]. bool_simpl. exists c. split_and!; try done.
  intros r Hr. apply Hmin, elem_of_map. eauto.
Qed.

(** Under the order that is enforced, a built-in rule comes before every rule of a person. *)
Lemma builtins_first rules b u :
  validate_user_rules_follow_builtins rules = Ok () →
  b ∈ rules → u ∈ rules → is_builtin b = true → is_builtin u = false →
  precedence b < precedence u ∧ USER_RULES_START ≤ precedence u.
Proof.
  unfold validate_user_rules_follow_builtins. cbv zeta. intros Hv Hb Hu Hbb Hub.
  set (highest := default 0 _) in Hv. destruct (List.find _ _) eqn:E; [done|].
  assert (precedence u ∈ map precedence (List.filter (fun r => negb (is_builtin r)) rules)) as Hin.
  { apply elem_of_map. exists u. split; [done|]. apply elem_of_filter_bool. by rewrite Hub. }
  pose proof (find_None_elem _ _ E _ Hin) as Hl. apply orb_false_iff in Hl as [H1%Z.ltb_ge H2%Z.leb_gt].
  split; [|done]. enough (precedence b ≤ highest) by lia.
  assert (precedence b ∈ map precedence (List.filter is_builtin rules)) as Hbin.
  { apply elem_of_map. exists b. split; [done|]. by apply elem_of_filter_bool. }
  unfold highest. destruct (list_max_spec (map precedence (List.filter is_builtin rules))) as [[E' _]|(m & -> & _ & Hle)].
  - rewrite E' in Hbin. by apply elem_of_nil in Hbin.
  - by apply Hle.
Qed.

(** * Properties *)

(** The rule that decides: among the rules that match a connection, the one with the lowest
    precedence number, whose action, id and reliability the decision carries; with none, the connection goes
    through the tunnel.  Only an application rule is ever best-effort, and it decides nothing when the program is not known; an address range never matches a connection asked for by name, nor a name one made to an address. *)
Theorem lowest_precedence_decides `{ToLowercase} rules flow :
  (∃ r, r ∈ rules ∧ matches r flow = true ∧
    (∀ r', r' ∈ rules → matches r' flow = true → precedence r ≤ precedence r') ∧
    evaluate rules flow = mkDecision (action r) (Some (rule_id r)) (Some (reliability r)) ∧
    (reliability r = BestEffort ↔ ∃ path, matcher r = Application path ∧ application flow ≠ None) ∧
    (∀ c, matcher r = Cidr c → ∃ ip, destination flow = Address ip) ∧
    (∀ p, matcher r = Domain p ∨ matcher r = DomainSuffix p → ∃ name, destination flow = Named name)) ∨
  (evaluate rules flow = mkDecision Tunnel None None ∧ ∀ r, r ∈ rules → matches r flow = false).
Proof.
  destruct (rule_decision_cases rules flow) as [(r & Hr & Hm & He & Hle)|[He Hn]]; [left|by right].
  exists r. split_and!; try done.
  - unfold reliability, matches in *. destruct (matcher r); split; try done; try (by intros (? & ? & _)).
    intros _. eexists. split; [done|]. by destruct (application flow).
  - intros c Hc. unfold matches in Hm. rewrite Hc in Hm. destruct (destination flow); [done|eauto].
  - intros p Hp. unfold matches in Hm. destruct Hp as [Hp|Hp]; rewrite Hp in Hm; destruct (destination flow); eauto; done.
Qed.

(** C6. No plaintext DNS leaves around the tunnel: in a rule set that passed the leak check and the
    precedence check, every connection to port 53 (whatever its destination, transport or program, and
    whatever other rules there are) is captured. *)
Theorem dns_never_leaks `{ToLowercase} rules flow
    (Hleak : validate_dns_leak_protection rules = Ok ()) (Hset : validate_rule_set rules = Ok ())
    (Hport : flow_port flow = 53) :
  decided_action (evaluate rules flow) = Capture.
Proof.
  apply dns_capture_least in Hleak as (c & Hc & Hm & Ha & Hle). apply validate_rule_set_ok in Hset.
  rewrite (evaluate_least rules flow c); [done|done| |].
  - unfold matches. rewrite Hm, Hport. done.
  - intros r Hr _. specialize (Hle r Hr). destruct (decide (precedence r = precedence c)) as [E|E]; [|right; lia].
    left. by apply (NoDup_map_inj precedence rules).
Qed.

(** C7. A person's rule never overrides one of the product's: in a rule set whose order was
    checked, if any built-in rule matches a connection then a built-in rule decides it. *)
Theorem builtins_always_win `{ToLowercase} rules flow b
    (Horder : validate_user_rules_follow_builtins rules = Ok ())
    (Hb : b ∈ rules) (Hbuiltin : is_builtin b = true) (Hmatch : matches b flow = true) :
  ∃ r, r ∈ rules ∧ is_builtin r = true ∧ precedence r ≤ precedence b ∧
    decided_rule (evaluate rules flow) = Some (rule_id r) ∧ decided_action (evaluate rules flow) = action r.
Proof.
  destruct (rule_decision_cases rules flow) as [(r & Hr & Hm & -> & Hle)|[_ Hn]]; [|by rewrite Hn in Hmatch].
  specialize (Hle b Hb Hmatch). exists r. split_and!; try done. destruct (is_builtin r) eqn:E; [done|].
  destruct (builtins_first _ _ _ Horder Hb Hr Hbuiltin E). lia.
Qed.

(** A rule reported as shadowed can never decide anything: it and the rule that shadows it are in the set, the
    other is tried first and matches every connection that it matches (names on label boundaries, nested
    address blocks, the same program), and whatever the connection, the decision is not its. *)
Theorem shadowed_never_decides `{ToLowercase} rules s flow
    (Hids : NoDup (map rule_id rules)) (Hrules : ∀ r, r ∈ rules → rule_ok r) (Hflow : flow_ok flow)
    (Hs : s ∈ shadowed rules) :
  decided_rule (evaluate rules flow) ≠ Some (shadowed_rule s) ∧
  ∃ r w, r ∈ rules ∧ w ∈ rules ∧ rule_id r = shadowed_rule s ∧ rule_id w = shadowed_by s ∧
    precedence w ≤ precedence r ∧ (matches r flow = true → matches w flow = true).
Proof.
  apply shadowed_from_spec in Hs as (l1 & r & l2 & w & E & Hw & Hc & ->). simpl in E. cbn [shadowed_rule shadowed_by].
  assert (Hr : r ∈ rules) by (apply elem_of_in_order; rewrite E; set_solver).
  assert (Hwr : w ∈ rules) by (apply elem_of_in_order; rewrite E; set_solver).
  assert (Hcover : matches r flow = true → matches w flow = true) by (apply covers_sound; auto).
  assert (NoDup (map rule_id (in_order rules))) as Hnd.
  { assert (map rule_id (in_order rules) ≡ₚ map rule_id rules) as -> by apply Permutation_map, sort_by_permutation.
    done. }
  split.
  - unfold evaluate. destruct (List.find _ (in_order rules)) as [r'|] eqn:Ef; [|done]. cbn [decided_rule].
    intros [= Hid]. pose proof Ef as [Hr' Hm]%find_Some_elem.
    assert (r' = r) as -> by (apply (NoDup_map_inj rule_id (in_order rules)); try done; by apply elem_of_in_order).
    rewrite E in Ef. eapply find_app_skip in Ef; [|apply NoDup_fmap_1 in Hnd; rewrite E in Hnd|exact Hw].
    + simpl in Ef. by rewrite Hcover in Ef.
    + apply NoDup_app in Hnd as (_ & Hnd & _). intros Hin. apply (Hnd r Hin). set_solver.
  - exists r, w. split_and!; try done.
    pose proof (sort_by_sorted precedence_cmp rules) as Hsorted. fold (in_order rules) in Hsorted. rewrite E in Hsorted.
    exact (StronglySorted_app_1_elem_of _ _ _ w r Hsorted Hw ltac:(set_solver)).
Qed.

Lemma parse_u8_pretty n : 0 ≤ n ≤ 128 → parse_u8 (pretty n) = Some n.
Proof.
  intros Hn. apply (below_cases (fun n => parse_u8 (pretty n) = Some n) 129); [vm_compute; done|lia].
Qed.

(** A block reads back from its own text. *)
Lemma cidr_text_reads_back a : cidr_ok a → cidr_parse (cidr_to_string a) = Ok a.
Proof.
  destruct a as [ip n]. intros [Hok Hn]. unfold cidr_to_string. cbn [addr prefix_len] in *.
  rewrite (cidr_parse_ip_text ip (pretty n) n); [|done|].
  - by rewrite (proj2 (Z.ltb_ge _ _)) by lia.
  - apply parse_u8_pretty. destruct ip; simpl in Hn; lia.
Qed.

(** Address blocks mean what they say.  A block is read back from its own text, whichever family
    it is of; two blocks overlap exactly when some address is in both; a block contains an address exactly when
    its IPv4 form, if it has one, agrees with the block on the bits of the prefix; and everything that is parsed is such
    a block, with its prefix no longer than its address. *)
Theorem blocks_mean_ranges a b ip (Ha : cidr_ok a) (Hb : cidr_ok b) (Hip : ip_ok ip) :
  cidr_parse (cidr_to_string a) = Ok a ∧
  (overlaps a b = true ↔ ∃ x, ip_ok x ∧ in_block a x ∧ in_block b x) ∧
  (contains a ip = true ↔ in_block a (canonical ip)) ∧
  (∀ s c, cidr_parse s = Ok c → cidr_ok c).
Proof.
  split_and!; [by apply cidr_text_reads_back| |by apply contains_spec|apply cidr_parse_ok].
  split.
  - intros [Hf He]%overlaps_spec; [|done..]. destruct Ha as [Hoka Ha], Hb as [Hokb Hb]. cbv zeta in He.
    rewrite (same_width _ _ Hf) in He, Ha.
    destruct (Z.le_ge_cases (prefix_len a) (prefix_len b)) as [Hle|Hle].
    + exists (addr b). rewrite Z.min_l in He by done. split_and!; [done|by split|by split].
    + exists (addr a). rewrite Z.min_r in He by done.
      split_and!; [done|by split|]. split; [done|]. by rewrite (same_width _ _ Hf).
  - intros (x & Hx & [Hfa Hea] & [Hfb Heb]). apply overlaps_spec; [done..|]. split; [congruence|]. cbv zeta.
    destruct Ha as [_ Ha], Hb as [_ Hb]. rewrite (same_width _ _ Hfa) in *. rewrite (same_width _ _ Hfb) in *.
    apply (div_coarser _ _ (ip_width x - Z.min (prefix_len a) (prefix_len b))) in Hea; [|lia].
    apply (div_coarser _ _ (ip_width x - Z.min (prefix_len a) (prefix_len b))) in Heb; [|lia].
    congruence.
Qed.

(** * Witnesses *)

Definition ascii_lowercase : ToLowercase := to_ascii_lowercase.

Definition demo_block : IpCidr := mkIpCidr (V4 (10 * 2 ^ 24)) 8.
Definition demo_narrow : IpCidr := mkIpCidr (V4 (10 * 2 ^ 24 + 9 * 2 ^ 16)) 16.

Lemma blocks_mean_ranges_witness :
  cidr_parse "10.0.0.0/8" = Ok demo_block ∧ ∃ x, ip_ok x ∧ in_block demo_block x ∧ in_block demo_narrow x.
Proof.
  assert (cidr_ok demo_block) as Ha by (repeat split; vm_compute; congruence).
  assert (cidr_ok demo_narrow) as Hb by (repeat split; vm_compute; congruence).
  destruct (blocks_mean_ranges demo_block demo_narrow (V4 0) Ha Hb ltac:(split; vm_compute; congruence)) as (H1 & H2 & _).
  split; [exact H1|apply H2; vm_compute; reflexivity].
Defined.

(** DNS capture, a bypassed block, and two rules of a person of which the second is never reached. *)
Definition demo_rules : list RoutingRule := [
  mkRoutingRule 1 DnsPort Capture 0 true;
  mkRoutingRule 2 (Cidr demo_block) Bypass 3 true;
  mkRoutingRule 3 (DomainSuffix "Example.com") Bypass 200 false;
  mkRoutingRule 4 (Domain "www.example.com.") Tunnel 201 false ].

Definition demo_flow : Flow := mkFlow (Named "WWW.example.com") 443 TransportTcp None.
Definition dns_flow : Flow := mkFlow (Named "www.example.com") 53 TransportUdp None.
Definition local_flow : Flow := mkFlow (Address (V4 (10 * 2 ^ 24 + 1))) 443 TransportTcp None.

Lemma dns_never_leaks_witness :
  decided_action (@evaluate ascii_lowercase demo_rules dns_flow) = Capture.
Proof.
  apply (@dns_never_leaks ascii_lowercase demo_rules dns_flow); vm_compute; reflexivity.
Defined.

Lemma builtins_always_win_witness :
  ∃ r, r ∈ demo_rules ∧ is_builtin r = true ∧
    decided_rule (@evaluate ascii_lowercase demo_rules local_flow) = Some (rule_id r).
Proof.
  destruct (@builtins_always_win ascii_lowercase demo_rules local_flow (mkRoutingRule 2 (Cidr demo_block) Bypass 3 true))
    as (r & H1 & H2 & _ & H4 & _).
  - vm_compute. reflexivity.
  - right. left.
  - reflexivity.
  - vm_compute. reflexivity.
  - exists r. split; [exact H1|]. split; [exact H2|exact H4].
Defined.

Lemma shadowed_never_decides_witness :
  shadowed_rule (mkShadowed 4 3) = 4 ∧
  decided_rule (@evaluate ascii_lowercase demo_rules demo_flow) ≠ Some 4.
Proof.
  split; [reflexivity|].
  refine (proj1 (@shadowed_never_decides ascii_lowercase demo_rules (mkShadowed 4 3) demo_flow _ _ I _)).
  - apply NoDup_ListNoDup. repeat constructor; simpl; lia.
  - apply Forall_forall. repeat constructor; vm_compute; congruence.
  - vm_compute. left.
Defined.
