(* ===== verification/Origin.v ===== *)
(** The known origin a probe fetches from (crates/dnet-core/src/origin.rs). *)

From Stdlib Require Import Ascii.
From S2P Require Import Prelude Text IpText Profile Rule.

(** * Definitions *)

(* src: crates/dnet-core/src/origin.rs:12-18 TUNNEL_ORIGIN_HOSTS *)
Definition TUNNEL_ORIGIN_HOSTS : list string := ["10.66.0.1"; "10.9.0.254"].

(* src: crates/dnet-core/src/origin.rs:20-25 Origin *)
Record Origin : Type := mkOrigin {
  origin_host : string;
  origin_port : Z;
}.

(* src: crates/dnet-core/src/origin.rs:27-38 OriginError *)
Inductive OriginError : Type := NotHttp | NoHost | BadPort | Extra.

(* src: crates/dnet-core/src/origin.rs:73-77 Origin::parse *)
Definition host_byte (b : Ascii.ascii) : bool := is_ascii_alphanumeric b || Ascii.eqb b "." || Ascii.eqb b "-".

(* src: crates/dnet-core/src/origin.rs:49-83 Origin::parse *)
Definition origin_parse (url : string) : result OriginError Origin :=
  rest ← ok_or (strip_prefix "http://" url) NotHttp;
  let rest := default rest (strip_suffix "/" rest) in
  if existsb (fun b => Ascii.eqb b "/" || Ascii.eqb b "?" || Ascii.eqb b "#" || Ascii.eqb b "@") (bytes rest)
  then Err Extra
  else
    '(host, port) ←
      match rsplit_once ":" rest with
      | Some (host, port) =>
          port ← ok_or (p ← parse_u16 port; if negb (p =? 0) then Some p else None) BadPort;
          Ok (host, port)
      | None => Ok (rest, 80)
      end;
    if str_is_empty host then Err NoHost
    else if negb (forallb host_byte (bytes host)) then Err Extra
    else Ok {| origin_host := host; origin_port := port |}.

Example origins :
  map origin_parse ["http://10.9.0.254/"; "http://a.b:8080"; "https://a"; "http://a/b"; "http://:80"; "http://a:0";
    "http://a b"; "http://[::1]:80"] =
  [Ok (mkOrigin "10.9.0.254" 80); Ok (mkOrigin "a.b" 8080); Err NotHttp; Err Extra; Err NoHost; Err BadPort;
   Err Extra; Err Extra].
Proof. vm_compute. reflexivity. Qed.

(** * Lemmas *)

(** An accepted origin cannot add anything to the request its host is written into. *)
Lemma origin_parse_ok url o :
  origin_parse url = Ok o →
  origin_host o ≠ EmptyString ∧ forallb host_byte (bytes (origin_host o)) = true ∧ origin_port o ≠ 0.
Proof.
  unfold origin_parse. destruct (strip_prefix "http://" url) as [rest|]; [|done]. cbn [ok_or mbind result_bind].
  cbv zeta. destruct (existsb _ _); [done|].
  assert (∀ r, r = Ok o →
    (∃ host port, port ≠ 0 ∧ r = (if str_is_empty host then Err NoHost
      else if negb (forallb host_byte (bytes host)) then Err Extra
      else Ok (mkOrigin host port))) →
    origin_host o ≠ EmptyString ∧ forallb host_byte (bytes (origin_host o)) = true ∧ origin_port o ≠ 0) as Hfin.
  { intros r -> (host & port & Hp & E). destruct (str_is_empty host) eqn:Eh; [done|].
    destruct (forallb host_byte (bytes host)) eqn:Eb; [|done]. injection E as ->. split_and!; [|done..].
    intros Ehost. simpl in Ehost. by subst host. }
  destruct (rsplit_once _ _) as [[host port]|].
  - destruct (parse_u16 port) as [p|]; [|done]. cbn [mbind option_bind].
    destruct (Z.eqb_spec p 0); [done|]. cbn [negb ok_or mbind result_bind]. intros H. eapply Hfin; [exact H|].
    exists host, p. done.
  - cbn [mbind result_bind]. intros H. eapply Hfin; [exact H|]. eexists _, 80. done.
Qed.
