(* ===== verification/Builtin.v ===== *)
(** The product's own rules: DNS capture, the bypasses, the encrypted-DNS block and the consent to it
    (crates/dnet-core/src/builtin_rules.rs, doh_block.rs and doh_consent.rs). *)

From Stdlib Require Import Ascii.
From S2P Require Import Prelude Text IpText Profile Endpoint Rule RuleEval Origin.

(** * Definitions *)

(* src: crates/dnet-core/src/builtin_rules.rs:26-35 LOCAL_BYPASS_CIDRS *)
Definition LOCAL_BYPASS_CIDRS : list string := [
  "10.0.0.0/8"; "172.16.0.0/12"; "192.168.0.0/16"; "169.254.0.0/16"; "224.0.0.0/4"; "fe80::/10"; "ff00::/8"].

(* src: crates/dnet-core/src/builtin_rules.rs:37-45 CAPTIVE_PORTAL_PROBE_SUFFIXES *)
Definition CAPTIVE_PORTAL_PROBE_SUFFIXES : list string := ["msftconnecttest.com"; "msftncsi.com"].

(* src: crates/dnet-core/src/doh_block.rs:34-55 ENCRYPTED_RESOLVER_SUFFIXES *)
Definition ENCRYPTED_RESOLVER_SUFFIXES : list string := [
  "use-application-dns.net"; "cloudflare-dns.com"; "one.one.one.one"; "dns.cloudflare.com"; "dns.google";
  "dns.quad9.net"; "dns.adguard-dns.com"; "dns.adguard.com"; "dns.nextdns.io"; "doh.opendns.com";
  "doh.cleanbrowsing.org"; "dns.mullvad.net"; "doh.dns.sb"; "dns.sb"].

(* src: crates/dnet-core/src/doh_block.rs:85-93 Policy *)
Inductive Policy : Type := Block | Allow.

#[export] Instance Policy_eq_dec : EqDecision Policy.
Proof. solve_decision. Defined.

(** [None] is a failed [expect]. *)
(* src: crates/dnet-core/src/builtin_rules.rs:158-171 endpoint_matcher *)
Definition endpoint_matcher (address : EndpointAddress) : option RuleMatcher :=
  match parse_ip (host address) with
  | Some ip =>
      cidr ← expect (cidr_parse (ip_to_string ip +:+ "/" +:+ pretty (if is_ipv4 ip then 32 else 128)));
      Some (Cidr cidr)
  | None => Some (Domain (host address))
  end.

(* src: crates/dnet-core/src/builtin_rules.rs:146-156 describe *)
Definition describe (rule : RoutingRule) : string :=
  match matcher rule with
  | EncryptedDnsPort => "encrypted DNS block (port 853)"
  | DnsPort => "DNS capture (port 53)"
  | Cidr c => "bypass " +:+ cidr_to_string c
  | Domain d => "bypass " +:+ d
  | DomainSuffix d => "bypass *." +:+ d
  | Application p => "application " +:+ p
  end.

(** The same matcher and action in a built-in rule. *)
(* src: crates/dnet-core/src/builtin_rules.rs:180-182 validate_builtin_rules_present *)
Definition is_present (rules : list RoutingRule) (wanted : RoutingRule) : bool :=
  existsb (fun r => is_builtin r && bool_decide (matcher r = matcher wanted) &&
    bool_decide (action r = action wanted)) rules.

(** The ids that [RuleId::new] mints, in the order they are minted. *)
Section Ids.
Context (new_ids : nat → RuleId).

(* src: crates/dnet-core/src/builtin_rules.rs:77-82 builtin_rules *)
Definition make_rule (n : nat) (m : RuleMatcher) (a : RuleAction) (p : Z) : option RoutingRule :=
  r ← builtin (new_ids n) m a p; expect r.

(* src: crates/dnet-core/src/builtin_rules.rs:56-75 builtin_rules *)
Definition ordered (active_endpoint : option EndpointAddress) : option (list (RuleMatcher * RuleAction)) :=
  endpoint ← match active_endpoint with
    | Some e => m ← endpoint_matcher e; Some [(m, Bypass)]
    | None => Some []
    end;
  origins ← mapM (fun host => c ← expect (cidr_parse (host +:+ "/32")); Some (Cidr c, Tunnel)) TUNNEL_ORIGIN_HOSTS;
  locals ← mapM (fun c => c ← expect (cidr_parse c); Some (Cidr c, Bypass)) LOCAL_BYPASS_CIDRS;
  Some (endpoint ++ origins ++ locals ++ map (fun s => (DomainSuffix s, Bypass)) CAPTIVE_PORTAL_PROBE_SUFFIXES).

(* src: crates/dnet-core/src/builtin_rules.rs:47-84 builtin_rules *)
Definition builtin_rules (active_endpoint : option EndpointAddress) : option (list RoutingRule) :=
  capture ← make_rule 0 DnsPort Capture 0;
  rest ← ordered active_endpoint;
  rules ← mapM (fun '(n, (m, a)) => make_rule n m a (Z.of_nat n)) (zip (seq 1 (length rest)) rest);
  Some (capture :: rules).

(* src: crates/dnet-core/src/doh_block.rs:122-137 blocking_rules *)
Definition blocking_rules (policy : Policy) : option (list RoutingRule) :=
  match policy with
  | Allow => Some []
  | Block =>
      let wanted := map DomainSuffix ENCRYPTED_RESOLVER_SUFFIXES ++ [EncryptedDnsPort] in
      mapM (fun '(n, m) => make_rule n m Reject (FIRST_PRECEDENCE + Z.of_nat n)) (zip (seq 0 (length wanted)) wanted)
  end.

(* src: crates/dnet-core/src/builtin_rules.rs:173-188 validate_builtin_rules_present *)
Definition validate_builtin_rules_present (rules : list RoutingRule) (active_endpoint : option EndpointAddress) :
    option (result DomainError unit) :=
  expected ← builtin_rules active_endpoint;
  match List.find (fun e => negb (is_present rules e)) expected with
  | Some missing => Some (Err (BuiltinRuleMissing (describe missing)))
  | None => Some (Ok ())
  end.

(* src: crates/dnet-core/src/doh_block.rs:95-120 validate_block_matches_policy *)
Definition validate_block_matches_policy (rules : list RoutingRule) (policy : Policy) :
    option (result DomainError unit) :=
  match policy with
  | Block =>
      wanted ← blocking_rules Block;
      match List.find (fun w => negb (is_present rules w)) wanted with
      | Some missing =>
          Some (Err (BuiltinRuleMissing
            (match matcher missing with
             | DomainSuffix d => "block *." +:+ d
             | _ => "block encrypted DNS (port 853)"
             end)))
      | None => Some (Ok ())
      end
  | Allow =>
      Some (match List.find (fun r => bool_decide (action r = Reject)) rules with
        | Some _ => Err EncryptedDnsBlockLeftBehind
        | None => Ok ()
        end)
  end.

(* src: crates/dnet-core/src/builtin_rules.rs:120-131 with_active_endpoint *)
Definition make_room (r : RoutingRule) : RoutingRule :=
  if is_builtin r && negb (is_dns_capture r) && ((1 <=? precedence r) && (precedence r <? FIRST_PRECEDENCE))
  then renumbered r (precedence r + 1) else r.

(* src: crates/dnet-core/src/builtin_rules.rs:100-144 with_active_endpoint *)
Definition with_active_endpoint (rules : list RoutingRule) (endpoint : EndpointAddress) :
    option (result DomainError (list RoutingRule)) :=
  m ← endpoint_matcher endpoint;
  if existsb (fun r => is_builtin r && bool_decide (action r = Bypass) && bool_decide (matcher r = m)) rules
  then Some (Ok rules)
  else
    let first_after_bypasses := FIRST_PRECEDENCE in
    let out := map make_room rules in
    if existsb (fun r => is_builtin r && bool_decide (action r = Bypass) && (first_after_bypasses <=? precedence r)) out
    then Some (Err (PrecedenceCollision first_after_bypasses))
    else
      r ← builtin (new_ids 0) m Bypass 1;
      match r with
      | Err e => Some (Err e)
      | Ok bypass =>
          let out := out ++ [bypass] in
          match validate_rule_set out with
          | Err e => Some (Err e)
          | Ok _ =>
              match validate_dns_leak_protection out with
              | Err e => Some (Err e)
              | Ok _ =>
                  present ← validate_builtin_rules_present out (Some endpoint);
                  Some (match present with Err e => Err e | Ok _ => Ok out end)
              end
          end
      end.
End Ids.

(* src: crates/dnet-core/src/builtin_rules.rs:86-98 builtin_rules_for *)
Definition builtin_rules_for (new_ids : nat → RuleId) (active_endpoint : option EndpointAddress) (policy : Policy) :
    option (list RoutingRule) :=
  rules ← builtin_rules new_ids active_endpoint;
  block ← blocking_rules (fun n => new_ids (length rules + n)%nat) policy;
  Some (rules ++ block).

(* src: crates/dnet-core/src/doh_block.rs:64-83 validate_block_outranks_user_rules *)
Definition validate_block_outranks_user_rules (rules : list RoutingRule) : result DomainError unit :=
  if negb (existsb (fun r => bool_decide (action r = Reject)) rules) then Ok ()
  else
    match list_min (map precedence
      (List.filter (fun r => negb (is_builtin r) && (precedence r <? USER_RULES_START)) rules)) with
    | Some low => Err (OutranksEncryptedDnsBlock low USER_RULES_START)
    | None => Ok ()
    end.

(** ** Consent *)

(* src: crates/dnet-core/src/doh_consent.rs:26-27 DISCLOSURE_VERSION *)
Definition DISCLOSURE_VERSION : Z := 1.

(* src: crates/dnet-core/src/doh_consent.rs:58-62 consequence_of_opting_out *)
Definition consequence_of_opting_out : string :=
  "Rules for sites and domains will not apply to traffic from programs that use their own " +:+
  "encrypted lookups. Those programs will be routed by address only.".

(* src: crates/dnet-core/src/doh_consent.rs:70-75 ConsentState *)
Record ConsentState : Type := mkConsentState {
  policy : Policy;
  disclosed : option Z;
}.

#[export] Instance ConsentState_eq_dec : EqDecision ConsentState.
Proof. solve_decision. Defined.

(* src: crates/dnet-core/src/doh_consent.rs:77-90 ConsentState::default *)
Definition consent_new : ConsentState := {| policy := Block; disclosed := None |}.

(* src: crates/dnet-core/src/doh_consent.rs:97-100 ConsentState::needs_disclosure *)
Definition needs_disclosure (s : ConsentState) : bool :=
  negb (bool_decide (disclosed s = Some DISCLOSURE_VERSION)).

(* src: crates/dnet-core/src/doh_consent.rs:102-105 ConsentState::acknowledge_disclosure *)
Definition acknowledge_disclosure (s : ConsentState) : ConsentState :=
  {| policy := policy s; disclosed := Some DISCLOSURE_VERSION |}.

(* src: crates/dnet-core/src/doh_consent.rs:107-115 ConsentState::opt_out *)
Definition opt_out (s : ConsentState) : ConsentState * string :=
  ({| policy := Allow; disclosed := Some DISCLOSURE_VERSION |}, consequence_of_opting_out).

(* src: crates/dnet-core/src/doh_consent.rs:117-120 ConsentState::restore *)
Definition restore (s : ConsentState) : ConsentState := {| policy := Block; disclosed := disclosed s |}.

(* src: crates/dnet-core/src/doh_consent.rs:122-131 ConsentState::to_stored *)
Definition to_stored (s : ConsentState) : string * Z :=
  (match policy s with Block => "block" | Allow => "allow" end, default 0 (disclosed s)).

(* src: crates/dnet-core/src/doh_consent.rs:133-144 ConsentState::from_stored *)
Definition from_stored (policy : string) (disclosed : Z) : ConsentState := {|
  policy := if String.eqb policy "allow" then Allow else Block;
  disclosed := if negb (disclosed =? 0) then Some disclosed else None;
|}.

Example builtin_layout :
  map (fun r => (precedence r, action r)) <$> builtin_rules (fun n => Z.of_nat n) None =
  Some [(0, Capture); (1, Tunnel); (2, Tunnel); (3, Bypass); (4, Bypass); (5, Bypass); (6, Bypass); (7, Bypass);
    (8, Bypass); (9, Bypass); (10, Bypass); (11, Bypass)].
Proof. vm_compute. reflexivity. Qed.

(** * Lemmas *)

Lemma build_ok id m a p b r :
  build id m a p b = Some (Ok r) →
  r = {| rule_id := id; matcher := m; action := a; precedence := p; is_builtin := b |} ∧
  (m = DnsPort → a = Capture) ∧ (m = EncryptedDnsPort → a = Reject) ∧ (a = Reject → b = true).
Proof.
  unfold build. destruct (pattern_empty m); [done|]. cbv zeta. intros (range & _ & H)%bind_Some.
  apply (inj Some) in H.
  destruct (match m with Domain p | DomainSuffix p => check_domain_pattern p | _ => Ok () end); [|done].
  destruct range; [|done]. cbn [mbind result_bind] in H.
  case_bool_decide as E1; [case_bool_decide as E2|]; cbn [andb negb] in H;
    try done; case_bool_decide as E3; try done; case_bool_decide as E4; try done; cbn [andb negb] in H;
    try done; destruct b; try done; injection H as <-; split_and!; try done; congruence.
Qed.

(** The pools are constants that parse: making a rule never panics. *)
Lemma build_total id m a p b : is_Some (build id m a p b).
Proof.
  unfold build. destruct (pattern_empty m); [by eexists|]. cbv zeta.
  assert (∀ c, is_Some (check_user_range c)) as Hrange.
  { intros c. unfold check_user_range. assert (is_Some pools) as [x ->] by (vm_compute; by eexists). by eexists. }
  destruct m as [| |c| | |]; try (by eexists). destruct b; [by eexists|]. destruct (Hrange c) as [x ->]. by eexists.
Qed.

Lemma make_room_id r : rule_id (make_room r) = rule_id r.
Proof. unfold make_room. by case_match. Qed.

Lemma make_room_same r :
  matcher (make_room r) = matcher r ∧ action (make_room r) = action r ∧ is_builtin (make_room r) = is_builtin r.
Proof. unfold make_room. by case_match. Qed.

Lemma make_room_precedence r : precedence r ≤ precedence (make_room r) ≤ precedence r + 1.
Proof. unfold make_room. case_match; simpl; lia. Qed.

Lemma make_room_matches `{ToLowercase} r flow : matches (make_room r) flow = matches r flow.
Proof. unfold matches. by destruct (make_room_same r) as (-> & _). Qed.

Lemma make_room_decision `{ToLowercase} r : decision_of (make_room r) = decision_of r.
Proof.
  unfold decision_of, reliability. destruct (make_room_same r) as (-> & -> & _). by rewrite make_room_id.
Qed.

(** What a rule set for an endpoint is, when it did not bypass that endpoint before. *)
Lemma with_active_endpoint_inv new_ids rules endpoint m out :
  endpoint_matcher endpoint = Some m →
  (∀ r, r ∈ rules → is_builtin r = true → action r = Bypass → matcher r ≠ m) →
  with_active_endpoint new_ids rules endpoint = Some (Ok out) →
  out = map make_room rules ++ [mkRoutingRule (new_ids 0%nat) m Bypass 1 true] ∧
  builtin (new_ids 0%nat) m Bypass 1 = Some (Ok (mkRoutingRule (new_ids 0%nat) m Bypass 1 true)) ∧
  validate_rule_set out = Ok () ∧ validate_dns_leak_protection out = Ok () ∧
  validate_builtin_rules_present new_ids out (Some endpoint) = Some (Ok ()).
Proof.
  intros Hm Hnew. unfold with_active_endpoint. rewrite Hm. cbn [mbind option_bind].
  destruct (existsb _ rules) eqn:Ee.
  { exfalso. apply existsb_exists_elem in Ee as (r & Hr & E). apply andb_true_iff in E as [E E3].
    apply andb_true_iff in E as [E1 E2]. bool_simpl. by apply (Hnew r). }
  cbv zeta. destruct (existsb _ (map make_room rules)); [done|].
  intros ([b|e] & Hb & H)%bind_Some; [|done]. pose proof (build_ok _ _ _ _ _ _ Hb) as [-> _].
  destruct (validate_rule_set _) as [[]|] eqn:E1; [|done].
  destruct (validate_dns_leak_protection _) as [[]|] eqn:E2; [|done].
  apply bind_Some in H as ([[]|e] & E3 & H); [|done]. injection H as <-. done.
Qed.

Lemma endpoint_matcher_kind endpoint m : endpoint_matcher endpoint = Some m → m ≠ DnsPort.
Proof.
  unfold endpoint_matcher. destruct (parse_ip _); [|by intros [= <-]].
  intros (c & _ & H)%bind_Some. by injection H as <-.
Qed.

(** Where the tunnel's own packets go: to the endpoint, by the address or name it was given with. *)
Definition to_endpoint (endpoint : EndpointAddress) (d : Destination) : Prop :=
  match parse_ip (host endpoint) with
  | Some ip => d = Address ip ∧ canonical ip = ip
  | None => d = Named (host endpoint)
  end.

Lemma endpoint_matcher_total endpoint :
  ∃ m, endpoint_matcher endpoint = Some m ∧
    m = match parse_ip (host endpoint) with Some ip => Cidr (host_block ip) | None => Domain (host endpoint) end.
Proof.
  unfold endpoint_matcher. destruct (parse_ip (host endpoint)) as [ip|] eqn:E; [|eauto].
  apply parse_ip_ok in E. replace (if is_ipv4 ip then 32 else 128) with (ip_width ip) by by destruct ip.
  rewrite cidr_parse_host by done. simpl. eauto.
Qed.

Lemma endpoint_rule_matches `{ToLowercase} new_ids endpoint m r flow :
  endpoint_matcher endpoint = Some m → builtin (new_ids 0%nat) m Bypass 1 = Some (Ok r) →
  to_endpoint endpoint (destination flow) → matches r flow = true.
Proof.
  intros Hm Hr Hto. pose proof (build_ok _ _ _ _ _ _ Hr) as [-> _]. unfold matches, to_endpoint in *. cbn [matcher].
  destruct (endpoint_matcher_total endpoint) as (m' & Hm' & E). rewrite Hm in Hm'. injection Hm' as <-. subst m.
  destruct (parse_ip (host endpoint)) as [ip|] eqn:Ep.
  - destruct Hto as [-> Hc]. apply parse_ip_ok in Ep. apply contains_spec; [by apply host_block_ok|done|].
    rewrite Hc. done.
  - rewrite Hto. unfold builtin, build in Hr. destruct (pattern_empty _); [done|]. cbv zeta in Hr.
    unfold check_domain_pattern in Hr. destruct (normalize_domain (host endpoint)) as [n|]; [|done].
    apply String.eqb_refl.
Qed.

(** Making room keeps the order of the rules. *)
Lemma make_room_order rules r r' :
  NoDup (map precedence rules) → NoDup (map precedence (map make_room rules)) →
  r ∈ rules → r' ∈ rules → precedence r ≤ precedence r' →
  make_room r' = make_room r ∨ precedence (make_room r) < precedence (make_room r').
Proof.
  intros Hnd Hnd' Hr Hr' Hle.
  destruct (decide (precedence r = precedence r')) as [E|E].
  { left. by rewrite (NoDup_map_inj precedence rules r r'). }
  destruct (decide (precedence (make_room r) = precedence (make_room r'))) as [E'|E'].
  { left. symmetry. apply (NoDup_map_inj precedence (map make_room rules)); [done|apply elem_of_map; eauto..|done]. }
  right. pose proof (make_room_precedence r). pose proof (make_room_precedence r'). lia.
Qed.

(** ** Sets of the product's rules and a person's *)

(** What a rule a person made is like. *)
Definition person (r : RoutingRule) : Prop :=
  is_builtin r = false ∧ action r ≠ Reject ∧ USER_RULES_START ≤ precedence r.

(** Every check that is run on a rule set. *)
Definition valid (new_ids : nat → RuleId) (policy : Policy) (rules : list RoutingRule) : Prop :=
  validate_rule_set rules = Ok () ∧ validate_dns_leak_protection rules = Ok () ∧
  validate_user_rules_follow_builtins rules = Ok () ∧ validate_block_outranks_user_rules rules = Ok () ∧
  validate_builtin_rules_present new_ids rules None = Some (Ok ()) ∧
  validate_block_matches_policy new_ids rules policy = Some (Ok ()).

Lemma find_all_false {A} (p : A → bool) l : (∀ x, x ∈ l → p x = false) → List.find p l = None.
Proof.
  intros Hp. destruct (List.find p l) eqn:E; [|done]. apply find_Some_elem in E as [Hx Hpx]. by rewrite Hp in Hpx.
Qed.

Lemma list_min_app l k m : list_min l = Some m → (∀ x, x ∈ k → m ≤ x) → list_min (l ++ k) = Some m.
Proof.
  intros Hm Hk. revert Hm. induction k as [|x k IH] using rev_ind; [by rewrite app_nil_r|].
  intros Hm. specialize (IH ltac:(set_solver) Hm). specialize (Hk x ltac:(set_solver)). rewrite app_assoc.
  destruct (l ++ k) as [|y j]; [done|]. unfold list_min, min_by in *. simpl. rewrite fold_left_app. simpl.
  injection IH as ->. by destruct (Z.compare_spec m x); [..|lia].
Qed.

Lemma filter_none {A} (p : A → bool) l : (∀ x, x ∈ l → p x = false) → List.filter p l = [].
Proof.
  intros Hp. destruct (List.filter p l) as [|x k] eqn:E; [done|].
  assert (x ∈ List.filter p l) as Hx by (rewrite E; set_solver).
  apply elem_of_filter_bool in Hx as [Hx Hpx]. by rewrite Hp in Hpx.
Qed.

Lemma is_present_app rules users w : is_present rules w = true → is_present (rules ++ users) w = true.
Proof. unfold is_present. rewrite existsb_app. by intros ->. Qed.

Lemma find_absent_app rules users l :
  List.find (fun w => negb (is_present rules w)) l = None →
  List.find (fun w => negb (is_present (rules ++ users) w)) l = None.
Proof.
  intros H. apply find_all_false. intros w Hw. pose proof (find_None_elem _ _ H w Hw) as Hp. simpl in Hp.
  apply negb_false_iff in Hp. by rewrite is_present_app.
Qed.

(** The product's set stays valid with a person's rules after it. *)
Lemma valid_app new_ids policy rules users :
  valid new_ids policy rules → (∀ u, u ∈ users → person u) → NoDup (map precedence users) →
  (∀ r, r ∈ rules → precedence r < USER_RULES_START) →
  valid new_ids policy (rules ++ users).
Proof.
  intros (H1 & H2 & H3 & H4 & H5 & H6) Hu Hnd Hlow. split_and!.
  - rewrite validate_rule_set_ok in *. rewrite map_app. apply NoDup_app. split_and!; [done| |done].
    intros p (r & -> & Hr)%elem_of_map (u & E & Hin)%elem_of_map. specialize (Hlow r Hr).
    destruct (Hu u Hin) as (_ & _ & ?). lia.
  - unfold validate_dns_leak_protection in *. rewrite find_app.
    destruct (List.find is_dns_capture rules) as [c|] eqn:Ec; [|done]. cbn [ok_or mbind result_bind] in *.
    apply find_Some_elem in Ec as [Hc _].
    destruct (bool_decide (list_min (map precedence rules) = Some (precedence c))) eqn:El; [|done].
    apply bool_decide_eq_true in El. rewrite map_app, (list_min_app _ _ _ El); [by rewrite bool_decide_eq_true_2|].
    intros p (u & -> & Hin)%elem_of_map. specialize (Hlow c Hc). destruct (Hu u Hin) as (_ & _ & ?). lia.
  - unfold validate_user_rules_follow_builtins in *. cbv zeta in *.
    rewrite !List.filter_app, (filter_none is_builtin users), app_nil_r by (intros u Hin; apply (Hu u Hin)).
    set (highest := default 0 _) in *. rewrite map_app, find_app.
    destruct (List.find _ (map precedence (List.filter _ rules))); [done|]. rewrite find_all_false; [done|].
    intros p (u & -> & [Hin _]%elem_of_filter_bool)%elem_of_map. destruct (Hu u Hin) as (_ & _ & Hp).
    apply orb_false_iff. split; [by apply Z.ltb_ge|]. apply Z.leb_gt.
    enough (highest < USER_RULES_START) by lia. unfold highest.
    destruct (list_max_spec (map precedence (List.filter is_builtin rules))) as [[_ ->]|(m & -> & Hm & _)]; [done|].
    apply elem_of_map in Hm as (r & -> & [Hr _]%elem_of_filter_bool). by apply Hlow.
  - unfold validate_block_outranks_user_rules in *. rewrite existsb_app, List.filter_app.
    rewrite (filter_none _ users), app_nil_r.
    2: { intros u Hin. destruct (Hu u Hin) as (-> & _ & Hp). simpl. by apply Z.ltb_ge. }
    assert (existsb (fun r => bool_decide (action r = Reject)) users = false) as ->; [|by rewrite orb_false_r].
    apply not_true_is_false. intros (u & Hin & E)%existsb_exists_elem. bool_simpl.
    by destruct (Hu u Hin) as (_ & ? & _).
  - unfold validate_builtin_rules_present in *. destruct (builtin_rules new_ids None) as [expected|]; [|done].
    cbn [mbind option_bind] in *.
    destruct (List.find (fun e => negb (is_present rules e)) expected) eqn:E; [done|].
    by rewrite find_absent_app.
  - unfold validate_block_matches_policy in *. destruct policy.
    + destruct (blocking_rules new_ids Block) as [wanted|]; [|done]. cbn [mbind option_bind] in *.
      destruct (List.find (fun w => negb (is_present rules w)) wanted) eqn:E; [done|].
      by rewrite find_absent_app.
    + rewrite find_app. destruct (List.find _ rules); [done|]. rewrite find_all_false; [done|].
      intros u Hin. apply bool_decide_eq_false. by destruct (Hu u Hin) as (_ & ? & _).
Qed.

Lemma builtin_rules_for_valid new_ids policy :
  ∃ rules, builtin_rules_for new_ids None policy = Some rules ∧ valid new_ids policy rules ∧
    (∀ r, r ∈ rules → is_builtin r = true ∧ 0 ≤ precedence r < USER_RULES_START).
Proof.
  destruct policy; (eexists; split; [vm_compute; reflexivity|]; split; [repeat split; vm_compute; reflexivity|]);
    apply Forall_forall; repeat (constructor; [vm_compute; repeat split; discriminate|]); constructor.
Qed.

Lemma next_user_precedence_spec rules p :
  next_user_precedence rules = Some p → USER_RULES_START ≤ p ∧ ∀ r, r ∈ rules → precedence r < p.
Proof.
  unfold next_user_precedence. destruct (list_max_spec (map precedence rules)) as [[E ->]|(m & -> & _ & Hm)].
  - intros [= <-]. split; [unfold USER_RULES_START; lia|]. intros r Hr.
    assert (precedence r ∈ map precedence rules) as Hin by (apply elem_of_map; eauto).
    rewrite E in Hin. by apply elem_of_nil in Hin.
  - unfold u32_checked_add. destruct (_ <=? _); [|done]. intros [= <-]. split; [lia|]. intros r Hr.
    assert (precedence r ≤ m) by (apply Hm, elem_of_map; eauto). lia.
Qed.

(** What a rule set made for an endpoint decides. *)
Lemma active_endpoint_decides `{ToLowercase} new_ids rules endpoint m out
    (Hm : endpoint_matcher endpoint = Some m)
    (Hnew : ∀ r, r ∈ rules → is_builtin r = true → action r = Bypass → matcher r ≠ m)
    (Hset : validate_rule_set rules = Ok ()) (Hu32 : ∀ r, r ∈ rules → 0 ≤ precedence r)
    (Hout : with_active_endpoint new_ids rules endpoint = Some (Ok out)) :
  (∀ flow, flow_port flow = 53 → decided_action (evaluate out flow) = Capture) ∧
  ∃ e, e ∈ out ∧ is_builtin e = true ∧ action e = Bypass ∧ matcher e = m ∧
    (∀ flow, to_endpoint endpoint (destination flow) → matches e flow = true) ∧
    (∀ flow, matches e flow = true → flow_port flow ≠ 53 → evaluate out flow = decision_of e) ∧
    (∀ flow, matches e flow = false → evaluate out flow = evaluate rules flow).
Proof.
  destruct (with_active_endpoint_inv _ _ _ _ _ Hm Hnew Hout) as (-> & Hb & H1 & H2 & _).
  set (e := mkRoutingRule (new_ids 0%nat) m Bypass 1 true) in *.
  apply validate_rule_set_ok in H1, Hset. apply dns_capture_least in H2 as (c & Hc & Hcm & Hca & Hcle).
  set (out := map make_room rules ++ [e]) in *.
  assert (He : e ∈ out) by (apply elem_of_app; right; set_solver).
  assert (Hpos : ∀ r, r ∈ out → 0 ≤ precedence r).
  { intros r [(r' & -> & Hr')%elem_of_map|Hr]%elem_of_app.
    - pose proof (make_room_precedence r'). specialize (Hu32 r' Hr'). lia.
    - apply list_elem_of_singleton in Hr as ->. simpl. lia. }
  assert (Hne : precedence c ≠ precedence e).
  { intros E. apply (NoDup_map_inj precedence out) in E; [|done..]. subst c.
    by apply (endpoint_matcher_kind _ _ Hm). }
  split; [|exists e; split_and!; try done].
  - intros flow Hport. rewrite (evaluate_least out flow c); [done|done| |].
    + unfold matches. by rewrite Hcm, Hport.
    + intros r Hr _. specialize (Hcle r Hr). destruct (decide (precedence r = precedence c)) as [E|]; [|right; lia].
      left. by apply (NoDup_map_inj precedence out).
  - intros flow Hto. by eapply endpoint_rule_matches.
  - intros flow Hme Hport. apply evaluate_least; [done..|]. intros r Hr Hmr.
    destruct (decide (precedence r = precedence e)) as [E|E].
    { left. by apply (NoDup_map_inj precedence out). }
    right. pose proof (Hcle e He). pose proof (Hpos c Hc). pose proof (Hpos r Hr). simpl in *.
    destruct (decide (precedence r = 0)) as [E0|]; [|lia]. exfalso.
    assert (r = c) as -> by (apply (NoDup_map_inj precedence out); try done; lia).
    unfold matches in Hmr. rewrite Hcm in Hmr. by apply Z.eqb_eq in Hmr.
  - intros flow Hme. unfold out in *. rewrite map_app in H1. apply NoDup_app in H1 as (H1 & _ & _).
    destruct (rule_decision_cases rules flow) as [(r & Hr & Hmr & -> & Hle)|[-> Hn]].
    + rewrite <-(make_room_decision r). apply evaluate_least.
      * apply elem_of_app. left. apply elem_of_map. eauto.
      * by rewrite make_room_matches.
      * intros r' [(r1 & -> & Hr1)%elem_of_map|Hr']%elem_of_app Hm'.
        -- rewrite make_room_matches in Hm'. by apply (make_room_order rules); auto.
        -- apply list_elem_of_singleton in Hr' as ->. congruence.
    + destruct (rule_decision_cases (map make_room rules ++ [e]) flow) as [(r & Hr & Hmr & _ & _)|[-> _]]; [|done].
      exfalso. apply elem_of_app in Hr as [(r1 & -> & Hr1)%elem_of_map|Hr].
      * rewrite make_room_matches, Hn in Hmr; done.
      * apply list_elem_of_singleton in Hr as ->. congruence.
Qed.

(** * Properties *)

(** The rule set a tunnel is started with.  When one is made for an endpoint that the held set did not
    bypass, DNS stays captured; the tunnel's own packets, to the endpoint's address or name on any other
    port, go around the tunnel by a built-in rule; and every other connection is decided exactly as
    before, by the same rule.  (An address that has an IPv4-mapped IPv6 form is meant in its IPv4 form.) *)
Theorem endpoint_traffic_bypasses `{ToLowercase} new_ids rules endpoint m out
    (Hm : endpoint_matcher endpoint = Some m)
    (Hnew : ∀ r, r ∈ rules → is_builtin r = true → action r = Bypass → matcher r ≠ m)
    (Hset : validate_rule_set rules = Ok ()) (Hu32 : ∀ r, r ∈ rules → 0 ≤ precedence r)
    (Hout : with_active_endpoint new_ids rules endpoint = Some (Ok out)) :
  (∀ flow, flow_port flow = 53 → decided_action (evaluate out flow) = Capture) ∧
  ∃ e, e ∈ out ∧ is_builtin e = true ∧ action e = Bypass ∧ matcher e = m ∧
    (∀ flow, to_endpoint endpoint (destination flow) → matches e flow = true) ∧
    (∀ flow, matches e flow = true → flow_port flow ≠ 53 → evaluate out flow = decision_of e) ∧
    (∀ flow, matches e flow = false → evaluate out flow = evaluate rules flow).
Proof. by eapply active_endpoint_decides. Qed.

(** The product's own rule set passes every check, and so does any set made of it and a person's rules
    that do not refuse traffic, are at 200 or above and share no number; and a rule a person adds at the number offered
    next, when it is one a person may make, fits such a set whatever it matches. *)
Theorem person_rules_fit new_ids policy base users
    (Hbase : builtin_rules_for new_ids None policy = Some base)
    (Husers : ∀ u, u ∈ users → person u) (Hnd : NoDup (map precedence users)) :
  valid new_ids policy (base ++ users) ∧
  ∀ p id m a r, next_user_precedence (base ++ users) = Some p → user id m a p = Some (Ok r) →
    valid new_ids policy (base ++ users ++ [r]).
Proof.
  destruct (builtin_rules_for_valid new_ids policy) as (rules & E & Hv & Hb). rewrite Hbase in E. injection E as <-.
  assert (∀ r, r ∈ base → precedence r < USER_RULES_START) as Hlow by (intros r Hr; apply Hb, Hr). split.
  - by apply valid_app.
  - intros p id m a r [Hp Hlt]%next_user_precedence_spec Hr. apply valid_app; try done.
    + intros u [Hu|Hu]%elem_of_app; [by apply Husers|]. apply list_elem_of_singleton in Hu as ->.
      destruct (build_ok _ _ _ _ _ _ Hr) as (-> & _ & _ & Hrej). split_and!; [done| |done].
      simpl. intros Ea. by specialize (Hrej Ea).
    + rewrite map_app. apply NoDup_app. split_and!; [done| |apply NoDup_singleton].
      intros q (u & -> & Hu)%elem_of_map Hin. apply list_elem_of_singleton in Hin.
      specialize (Hlt u ltac:(set_solver)). destruct (build_ok _ _ _ _ _ _ Hr) as (-> & _). simpl in Hin. lia.
Qed.

(** ** Consent *)

(** What a person does about the encrypted-DNS block. *)
Inductive ConsentOp : Type := Acknowledge | OptOut | Restore.

Definition consent_step (s : ConsentState) (op : ConsentOp) : ConsentState :=
  match op with
  | Acknowledge => acknowledge_disclosure s
  | OptOut => (opt_out s).1
  | Restore => restore s
  end.
Definition consent_after (ops : list ConsentOp) : ConsentState := fold_left consent_step ops consent_new.

(** The choice about encrypted DNS survives being stored: whatever a person did, reading the two
    stored values back gives the same state; the block is lifted exactly when the last choice made was to
    opt out; and a stored policy that is not the word for "allow" blocks, and a disclosure that is not the current one
    is shown again. *)
Theorem consent_survives_storage ops :
  let s := consent_after ops in
  from_stored (to_stored s).1 (to_stored s).2 = s ∧
  (policy s = Allow ↔ ∃ l1 l2, ops = l1 ++ OptOut :: l2 ∧ Restore ∉ l2) ∧
  (∀ p d, p ≠ "allow" → policy (from_stored p d) = Block) ∧
  (∀ p d, d ≠ DISCLOSURE_VERSION → needs_disclosure (from_stored p d) = true).
Proof.
  cbv zeta. split_and!.
  - assert (disclosed (consent_after ops) = None ∨ disclosed (consent_after ops) = Some DISCLOSURE_VERSION) as Hd.
    { unfold consent_after. induction ops as [|[] ops IH] using rev_ind; [by left|..]; rewrite fold_left_app; simpl; auto. }
    destruct (consent_after ops) as [[] d]; simpl in Hd; destruct Hd as [-> | ->]; done.
  - unfold consent_after. induction ops as [|op ops IH] using rev_ind.
    + split; [done|]. intros (l1 & l2 & E & _). by destruct l1.
    + rewrite fold_left_app. destruct op; simpl.
      * rewrite IH. split; intros (l1 & l2 & E & Hn).
        -- exists l1, (l2 ++ [Acknowledge]). rewrite E, <-app_assoc. split; [done|set_solver].
        -- destruct l2 as [|x l2 _] using rev_ind; [by apply app_inj_tail in E as [_ ?]|].
           rewrite app_comm_cons, app_assoc in E. apply app_inj_tail in E as [-> _]. exists l1, l2. set_solver.
      * split; [|done]. intros _. exists ops, []. set_solver.
      * split; [done|]. intros (l1 & l2 & E & Hn). destruct l2 as [|x l2 _] using rev_ind; [by apply app_inj_tail in E as [_ ?]|].
        rewrite app_comm_cons, app_assoc in E. apply app_inj_tail in E as [_ <-]. set_solver.
  - intros p d Hp. unfold from_stored. simpl. by rewrite (proj2 (String.eqb_neq _ _)).
  - intros p d Hd. unfold needs_disclosure, from_stored. simpl. case_match; by rewrite bool_decide_eq_false_2 by naive_solver.
Qed.

(** * Witnesses *)

Definition demo_ids (n : nat) : RuleId := Z.of_nat n.
Definition demo_base : list RoutingRule := default [] (builtin_rules_for demo_ids None Block).
Definition demo_user : RoutingRule := mkRoutingRule 900 (Domain "example.com") Bypass 200 false.
Definition demo_endpoint : EndpointAddress := mkEndpointAddress "203.0.113.7" 443.

Lemma person_rules_fit_witness : valid demo_ids Block (demo_base ++ [demo_user]).
Proof.
  refine (proj1 (person_rules_fit demo_ids Block demo_base [demo_user] _ _ _)).
  - vm_compute. reflexivity.
  - intros u Hu. inversion Hu as [? ?|? ? ? Hu']; subst; [|inversion Hu'].
    repeat split; vm_compute; congruence.
  - apply NoDup_ListNoDup. repeat constructor. simpl. tauto.
Defined.

Lemma endpoint_traffic_bypasses_witness :
  ∃ out e, with_active_endpoint demo_ids demo_base demo_endpoint = Some (Ok out) ∧
    e ∈ out ∧ action e = Bypass ∧ @matches ascii_lowercase e (mkFlow (Address (V4 3405803783)) 443 TransportUdp None) = true.
Proof.
  destruct (with_active_endpoint demo_ids demo_base demo_endpoint) as [[out|]|] eqn:E;
    [|vm_compute in E; discriminate..].
  exists out. destruct (@endpoint_traffic_bypasses ascii_lowercase demo_ids demo_base demo_endpoint
    (Cidr (host_block (V4 3405803783))) out) as (_ & e & H1 & _ & H2 & _ & H3 & _).
  - vm_compute. reflexivity.
  - apply (Forall_forall (fun r => is_builtin r = true → action r = Bypass → matcher r ≠ _)).
    apply (bool_decide_unpack _). vm_compute. exact I.
  - vm_compute. reflexivity.
  - apply (Forall_forall (fun r => 0 ≤ precedence r)). apply (bool_decide_unpack _). vm_compute. exact I.
  - exact E.
  - exists e. split; [reflexivity|]. split; [exact H1|]. split; [exact H2|]. apply H3. vm_compute. split; reflexivity.
Defined.

(** An endpoint given by an IPv4-mapped IPv6 literal: the bypass made for it matches no connection, and the
    tunnel's own packets to that address are sent into the tunnel. *)
Lemma mapped_endpoint_not_bypassed :
  ∃ out, with_active_endpoint demo_ids demo_base (mkEndpointAddress "::ffff:203.0.113.7" 443) = Some (Ok out) ∧
    ∀ ip, parse_ip "::ffff:203.0.113.7" = Some ip →
      decided_action (@evaluate ascii_lowercase out (mkFlow (Address ip) 443 TransportUdp None)) = Tunnel ∧
      decided_action (@evaluate ascii_lowercase out (mkFlow (Address (canonical ip)) 443 TransportUdp None)) = Tunnel.
Proof.
  eexists. split; [vm_compute; reflexivity|]. intros ip Hip. vm_compute in Hip. injection Hip as <-.
  split; vm_compute; reflexivity.
Qed.
