(* ===== verification/Portal.v ===== *)
(** Captive portals: what a probe's response shows, the login address that may be offered, and when a
    network has become a portal or stopped being one
    (crates/dnet-core/src/portal.rs and portal_expiry.rs). *)

From Stdlib Require Import Ascii.
From S2P Require Import Prelude Text.

(** * Definitions *)

(* src: crates/dnet-core/src/portal.rs:34-39 Probe *)
Inductive PortalProbe : Type := ConnectTest | Ncsi.

(* src: crates/dnet-core/src/portal.rs:42-48 Probe::host *)
Definition probe_host (p : PortalProbe) : string :=
  match p with ConnectTest => "www.msftconnecttest.com" | Ncsi => "www.msftncsi.com" end.

(* src: crates/dnet-core/src/portal.rs:50-55 Probe::path *)
Definition probe_path (p : PortalProbe) : string :=
  match p with ConnectTest => "/connecttest.txt" | Ncsi => "/ncsi.txt" end.

(* src: crates/dnet-core/src/portal.rs:57-63 Probe::expected_body *)
Definition expected_body (p : PortalProbe) : string :=
  match p with ConnectTest => "Microsoft Connect Test" | Ncsi => "Microsoft NCSI" end.

(* src: crates/dnet-core/src/portal.rs:66-79 Response *)
Inductive Response : Type :=
  | Http (status : Z) (location : option string) (body : string)
  | NoAnswer.

(* src: crates/dnet-core/src/portal.rs:81-93 PortalState *)
Inductive PortalState : Type :=
  | Open
  | Intercepted (login : option string)
  | PortalUnreachable
  | Inconclusive.

#[export] Instance PortalState_eq_dec : EqDecision PortalState.
Proof. solve_decision. Defined.

(* src: crates/dnet-core/src/portal.rs:144-145 MAX_LOGIN_URL *)
Definition MAX_LOGIN_URL : Z := 2048.

Definition byte_in (l : list Ascii.ascii) (b : Ascii.ascii) : bool := existsb (Ascii.eqb b) l.

(** The text before the first of some bytes: the first part of a [split]. *)
Fixpoint before_any (p : Ascii.ascii → bool) (l : list Ascii.ascii) : list Ascii.ascii :=
  match l with
  | [] => []
  | x :: l' => if p x then [] else x :: before_any p l'
  end.

(* src: crates/dnet-core/src/portal.rs:165-169 login_url *)
Definition authority (url : string) : option string :=
  let lower := to_ascii_lowercase url in
  rest ← match strip_prefix "http://" lower with Some r => Some r | None => strip_prefix "https://" lower end;
  Some (of_ascii (before_any (byte_in ["/"; "?"; "#"]%char) (bytes rest))).

(* src: crates/dnet-core/src/portal.rs:147-179 login_url *)
Definition login_url (raw : string) : option string :=
  let url := trim raw in
  if str_is_empty url || (MAX_LOGIN_URL <? str_len url) || negb (str_is_ascii url) ||
     existsb (fun b => is_ascii_control b || is_ascii_whitespace b) (bytes url)
  then None
  else
    authority ← authority url;
    if str_is_empty authority || existsb (fun b => Ascii.eqb b "@") (bytes authority) || starts_with ":" authority
    then None
    else
      let host := match rsplit_once ":" authority with Some (h, _) => h | None => authority end in
      if str_is_empty host || str_is_empty (trim_matches (byte_in ["."; "["; "]"]%char) host) then None
      else Some url.

(* src: crates/dnet-core/src/portal.rs:95-118 classify *)
Definition classify (probe : PortalProbe) (response : Response) : PortalState :=
  match response with
  | NoAnswer => PortalUnreachable
  | Http status location body =>
      if (status =? 200) && String.eqb (trim body) (expected_body probe) then Open
      else if (300 <=? status) && (status <=? 399) then Intercepted (location ≫= login_url)
      else if status =? 200 then Intercepted None
      else if (status =? 401) || (status =? 403) || (status =? 407) then Intercepted None
      else Inconclusive
  end.

(* src: crates/dnet-core/src/portal.rs:120-142 combine *)
Definition combine (first second : PortalState) : PortalState :=
  match first, second with
  | Open, _ | _, Open => Open
  | Intercepted a, Intercepted b => Intercepted (match a with Some _ => a | None => b end)
  | Intercepted login, _ | _, Intercepted login => Intercepted login
  | PortalUnreachable, PortalUnreachable => PortalUnreachable
  | _, _ => Inconclusive
  end.

(* src: crates/dnet-core/src/portal.rs:181-185 fallback_login_url *)
Definition fallback_login_url (probe : PortalProbe) : string := "http://" +:+ probe_host probe +:+ probe_path probe.

(** ** The watch *)

(* src: crates/dnet-core/src/portal_expiry.rs:32-41 Recognised *)
Inductive Recognised : Type :=
  | PortalAppeared (login : option string)
  | SessionExpired (login : option string)
  | Cleared.

(* src: crates/dnet-core/src/portal_expiry.rs:43-45 CONFIRM_READINGS *)
Definition CONFIRM_READINGS : Z := 2.

(* src: crates/dnet-core/src/portal_expiry.rs:47-57 PortalWatch *)
Record PortalWatch : Type := mkPortalWatch {
  run : Z;
  active : bool;
  signed_in_before : bool;
  login : option string;
}.

(* src: crates/dnet-core/src/portal_expiry.rs:59-62 PortalWatch::new *)
Definition watch_new : PortalWatch := {| run := 0; active := false; signed_in_before := false; login := None |}.

(* src: crates/dnet-core/src/portal_expiry.rs:74-77 PortalWatch::new_network *)
Definition new_network (w : PortalWatch) : PortalWatch := watch_new.

(* src: crates/dnet-core/src/portal_expiry.rs:79-121 PortalWatch::observe *)
Definition watch_observe (w : PortalWatch) (reading : PortalState) : PortalWatch * option Recognised :=
  match reading with
  | Open =>
      if active w then
        ({| run := 0; active := false; signed_in_before := true; login := None |}, Some Cleared)
      else
        ({| run := 0; active := active w; signed_in_before := signed_in_before w; login := login w |}, None)
  | Intercepted given =>
      let login := match given with Some _ => given | None => login w end in
      if active w then
        ({| run := run w; active := active w; signed_in_before := signed_in_before w; login := login |}, None)
      else
        let run := u32_wrapping_add (run w) 1 in
        let needed := if signed_in_before w then 1 else CONFIRM_READINGS in
        if run <? needed then
          ({| run := run; active := active w; signed_in_before := signed_in_before w; login := login |}, None)
        else
          ({| run := run; active := true; signed_in_before := signed_in_before w; login := login |},
           Some (if signed_in_before w then SessionExpired login else PortalAppeared login))
  | PortalUnreachable | Inconclusive => (w, None)
  end.

(** * Histories *)

(** Readings of one network, newest first; those that prove something. *)
Definition telling (r : PortalState) : bool :=
  match r with Open | Intercepted _ => true | _ => false end.

(** How many interceptions there are since the network was last seen open. *)
Fixpoint since_open (hist : list PortalState) : Z :=
  match hist with
  | [] => 0
  | Open :: _ => 0
  | Intercepted _ :: hist => since_open hist + 1
  | _ :: hist => since_open hist
  end.

(** Whether, at some time, there had been two interceptions in a row and then the network was open. *)
Fixpoint signed_in (hist : list PortalState) : bool :=
  match hist with
  | [] => false
  | Open :: hist => signed_in hist || (2 <=? since_open hist)
  | _ :: hist => signed_in hist
  end.

(** Whether the readings make the network a portal. *)
Definition is_portal (hist : list PortalState) : bool :=
  (2 <=? since_open hist) || (1 <=? since_open hist) && signed_in hist.

(** The watch after the readings, the oldest first taken. *)
Fixpoint watch_after (hist : list PortalState) : PortalWatch :=
  match hist with
  | [] => watch_new
  | r :: hist => (watch_observe (watch_after hist) r).1
  end.

Definition recognised (r : PortalState) (hist : list PortalState) : option Recognised :=
  (watch_observe (watch_after hist) r).2.

(** * Lemmas *)

Lemma since_open_nonneg hist : 0 ≤ since_open hist.
Proof. induction hist as [|[] hist IH]; simpl; lia. Qed.

Record watch_inv (hist : list PortalState) (w : PortalWatch) : Prop := {
  wi_active : active w = is_portal hist;
  wi_signed : signed_in_before w = signed_in hist;
  wi_run : active w = false → run w = since_open hist;
}.

Lemma watch_after_inv hist : watch_inv hist (watch_after hist).
Proof.
  induction hist as [|r hist [Ha Hs Hr]]; [by split|].
  pose proof (since_open_nonneg hist) as Hnn.
  destruct r as [|given| |]; simpl; [| |by split..].
  - destruct (active (watch_after hist)) eqn:E; split; simpl; rewrite ?orb_false_r, ?Hs, ?E; try done.
    + unfold is_portal in Ha. symmetry in Ha. apply orb_true_iff in Ha as [->|H]; [by rewrite orb_true_r|].
      apply andb_true_iff in H as [_ ->]. done.
    + unfold is_portal in Ha. symmetry in Ha. apply orb_false_iff in Ha as [-> _]. by rewrite orb_false_r.
  - destruct (active (watch_after hist)) eqn:E.
    + split; simpl; rewrite ?E; try done. unfold is_portal in *. simpl. symmetry in Ha. symmetry.
      apply orb_true_iff in Ha as [H|H]; apply orb_true_iff.
      * left. apply Z.leb_le in H. apply Z.leb_le. lia.
      * right. apply andb_true_iff in H as [H ->]. apply Z.leb_le in H. rewrite andb_true_r. apply Z.leb_le. lia.
    + specialize (Hr eq_refl). unfold is_portal in Ha. symmetry in Ha. apply orb_false_iff in Ha as [H2 H1].
      apply Z.leb_gt in H2. rewrite Hs. unfold u32_wrapping_add. rewrite Hr, Z.mod_small by lia.
      destruct (signed_in hist) eqn:Es.
      * rewrite andb_true_r in H1. apply Z.leb_gt in H1.
        rewrite (proj2 (Z.ltb_ge _ _)) by lia. split; simpl; try done.
        unfold is_portal. simpl. rewrite Es, andb_true_r. symmetry. apply orb_true_iff. right. apply Z.leb_le. lia.
      * unfold CONFIRM_READINGS. destruct (Z.ltb_spec (since_open hist + 1) 2); split; simpl; try done;
          unfold is_portal; simpl; rewrite Es, andb_false_r, orb_false_r; symmetry;
          [apply Z.leb_gt|apply Z.leb_le]; lia.
Qed.

(** * Properties *)

(** A network is called a portal, and the end of its session is told apart from a loss, on exactly
    these grounds: two interceptions with no open reading between them (readings that prove nothing
    aside), or one once a login was given on this network.  "Appeared" and "expired" are said at the moment it becomes
    one, for the first time or after a login; "cleared" at the first open reading after that; and nothing
    otherwise. *)
Theorem portal_recognition r hist :
  active (watch_after hist) = is_portal hist ∧
  match recognised r hist with
  | Some (PortalAppeared _) =>
      is_portal hist = false ∧ is_portal (r :: hist) = true ∧ signed_in hist = false
  | Some (SessionExpired _) =>
      is_portal hist = false ∧ is_portal (r :: hist) = true ∧ signed_in hist = true
  | Some Cleared => is_portal hist = true ∧ r = Open
  | None => is_portal (r :: hist) = is_portal hist
  end.
Proof.
  destruct (watch_after_inv hist) as [Ha Hs Hr]. destruct (watch_after_inv (r :: hist)) as [Ha' _ _].
  split; [done|]. unfold recognised in *. simpl in Ha'. rewrite <-Ha, <-Ha', <-Hs. clear Ha' Ha Hs Hr.
  unfold watch_observe. destruct r as [|given| |]; simpl; try done.
  - by destruct (active (watch_after hist)) eqn:E; simpl; rewrite ?E.
  - destruct (active (watch_after hist)); simpl; [done|].
    destruct (_ <? _); simpl; [done|]. by destruct (signed_in_before (watch_after hist)).
Qed.

(** The bytes that [u8::is_ascii_graphic] names. *)
Definition printable (b : Ascii.ascii) : Prop := 33 ≤ byte_value b ≤ 126.

Lemma printable_byte b : is_ascii b && negb (is_ascii_control b || is_ascii_whitespace b) = true → printable b.
Proof. destruct b as [[] [] [] [] [] [] [] []]; vm_compute; try done; by intros _; split. Qed.

Lemma before_any_none p l b : b ∈ before_any p l → p b = false.
Proof.
  induction l as [|x l IH]; simpl; [by intros ?%elem_of_nil|].
  destruct (p x) eqn:E; [by intros ?%elem_of_nil|]. intros [->|?]%elem_of_cons; auto.
Qed.

(** A login address that is offered to a person is harmless to show and open: it is the given text without white space
    around it, at most 2048 bytes, all of them printable ASCII (no space, control character or disguised letter); it begins
    with http:// or https:// in any case; and what is between that and the first slash, question
    mark or hash is not empty, names a host and holds no credentials.  Whatever a probe's response was,
    the login address of the reading it gives is such an address. *)
Theorem login_url_safe :
  (∀ raw url, login_url raw = Some url →
    url = trim raw ∧ url ≠ EmptyString ∧ str_len url ≤ 2048 ∧ (∀ b, b ∈ bytes url → printable b) ∧
    ∃ a rest, (to_ascii_lowercase url = "http://" +:+ rest ∨ to_ascii_lowercase url = "https://" +:+ rest) ∧
      a = before_any (byte_in ["/"; "?"; "#"]%char) (bytes rest) ∧ a ≠ [] ∧ "@"%char ∉ a) ∧
  (∀ probe status location body login,
    classify probe (Http status location body) = Intercepted (Some login) →
    ∃ raw, location = Some raw ∧ login_url raw = Some login ∧ 300 ≤ status ≤ 399).
Proof.
  split.
  - intros raw url. unfold login_url. cbv zeta.
    destruct (str_is_empty (trim raw)) eqn:Ee; [done|]. destruct (Z.ltb_spec MAX_LOGIN_URL (str_len (trim raw))) as [|Hlen]; [done|].
    destruct (negb (str_is_ascii (trim raw))) eqn:Ea; [done|]. apply negb_false_iff in Ea.
    destruct (existsb _ (bytes (trim raw))) eqn:Ec; [done|]. cbn [orb].
    intros (a & Hauth & H)%bind_Some.
    destruct (str_is_empty a) eqn:E1; [done|]. destruct (existsb _ (bytes a)) eqn:E2; [done|].
    destruct (starts_with ":" a); [done|]. cbn [orb] in H. destruct (_ || _); [done|]. injection H as <-.
    split_and!; [done| |done| |].
    + intros E. by rewrite E in Ee.
    + intros b Hb. apply printable_byte. unfold str_is_ascii in Ea. rewrite forallb_forall_elem in Ea.
      rewrite (Ea b Hb). cbn [andb]. apply negb_true_iff. apply not_true_is_false. intros Hbad.
      assert (existsb (fun b => is_ascii_control b || is_ascii_whitespace b) (bytes (trim raw)) = true) as Hx
        by (apply existsb_exists_elem; eauto).
      by rewrite Hx in Ec.
    + unfold authority in Hauth. apply bind_Some in Hauth as (rest & Hrest & Hauth). injection Hauth as <-.
      exists (before_any (byte_in ["/"; "?"; "#"]%char) (bytes rest)), rest. split_and!.
      * assert (∀ p s r, strip_prefix p s = Some r → s = p +:+ r) as Hp.
        { intros p s r. unfold strip_prefix. case_bool_decide as E; [|done]. intros [= <-]. apply bytes_inj.
          rewrite bytes_app, bytes_of_ascii. etransitivity; [symmetry; apply (take_drop (length (bytes p)))|]. by f_equal. }
        destruct (strip_prefix "http://" _) eqn:E; [injection Hrest as ->; left|right]; by apply Hp.
      * done.
      * intros E. by rewrite E in E1.
      * intros Hin. assert (existsb (fun b => Ascii.eqb b "@") (bytes (of_ascii
          (before_any (byte_in ["/"; "?"; "#"]%char) (bytes rest)))) = true) as Hx.
        { apply existsb_exists_elem. exists "@"%char. by rewrite bytes_of_ascii. }
        by rewrite Hx in E2.
  - intros probe status location body login. unfold classify.
    destruct (_ && String.eqb _ _); [done|]. destruct ((300 <=? status) && (status <=? 399)) eqn:E.
    + apply andb_true_iff in E as [E1%Z.leb_le E2%Z.leb_le]. intros [= H]. apply bind_Some in H as (raw & -> & H). eauto.
    + destruct (status =? 200); [done|]. by destruct (_ || _).
Qed.

Example login_urls :
  map login_url ["  HTTP://login.example/x?y  "; "https://user@evil/"; "javascript:x"; "http:///path"; "http://[.]/";
    "http://a b/"; "https://10.0.0.1:8080"] =
  [Some "HTTP://login.example/x?y"; None; None; None; None; None; Some "https://10.0.0.1:8080"].
Proof. vm_compute. reflexivity. Qed.
