(* ===== verification/ProbePlan.v ===== *)
(** How a path is measured, what a probe's silence means, and noticing that the machine was frozen
    (crates/dnet-core/src/probe_plan.rs and tick_gap.rs). *)

From S2P Require Import Prelude Profile IpText Quality.

(** * Definitions *)

(* src: crates/dnet-core/src/probe_plan.rs:33-41 Strategy *)
Inductive Strategy : Type := EndpointStrategy | GatewayStrategy.

#[export] Instance Strategy_eq_dec : EqDecision Strategy.
Proof. solve_decision. Defined.

(* src: crates/dnet-core/src/probe_plan.rs:43-52 Availability *)
Record Availability : Type := mkAvailability {
  av_carrier : Carrier;
  endpoint_tcp : bool;
  av_gateway : bool;
}.

(* src: crates/dnet-core/src/probe_plan.rs:54-59 Observation *)
Inductive Observation : Type := Answered (rtt : Duration) | Silent.

(* src: crates/dnet-core/src/probe_plan.rs:61-68 Verdict *)
Inductive Verdict : Type := Sample (s : PathSample) | NoInformation.

(* src: crates/dnet-core/src/probe_plan.rs:70-75 ProbePlanner *)
Record ProbePlanner : Type := mkProbePlanner {
  endpoint_heard : bool;
  gateways_heard : gset InterfaceId;
}.

(* src: crates/dnet-core/src/probe_plan.rs:77-80 ProbePlanner::new *)
Definition planner_new : ProbePlanner := {| endpoint_heard := false; gateways_heard := ∅ |}.

(* src: crates/dnet-core/src/probe_plan.rs:82-92 ProbePlanner::order *)
Definition order (available : Availability) : list Strategy :=
  (if bool_decide (av_carrier available = Tcp) && endpoint_tcp available then [EndpointStrategy] else []) ++
  (if av_gateway available then [GatewayStrategy] else []).

(* src: crates/dnet-core/src/probe_plan.rs:94-116 ProbePlanner::judge *)
Definition judge (p : ProbePlanner) (strategy : Strategy) (path : InterfaceId) (seen : Observation) :
    ProbePlanner * Verdict :=
  let answered := match seen with Answered _ => true | Silent => false end in
  let '(p, heard_before) :=
    match strategy with
    | EndpointStrategy =>
        ({| endpoint_heard := endpoint_heard p || answered; gateways_heard := gateways_heard p |}, endpoint_heard p)
    | GatewayStrategy =>
        ({| endpoint_heard := endpoint_heard p;
            gateways_heard := if answered then {[path]} ∪ gateways_heard p else gateways_heard p |},
         bool_decide (path ∈ gateways_heard p))
    end in
  (p,
   match seen with
   | Answered rtt => Sample (SampleAnswered rtt)
   | Silent => if heard_before : bool then Sample SampleLost else NoInformation
   end).

(* src: crates/dnet-core/src/probe_plan.rs:118-121 ProbePlanner::forget_endpoint *)
Definition forget_endpoint (p : ProbePlanner) : ProbePlanner :=
  {| endpoint_heard := false; gateways_heard := gateways_heard p |}.

(* src: crates/dnet-core/src/probe_plan.rs:123-126 ProbePlanner::forget_gateway *)
Definition forget_gateway (p : ProbePlanner) (path : InterfaceId) : ProbePlanner :=
  {| endpoint_heard := endpoint_heard p; gateways_heard := gateways_heard p ∖ {[path]} |}.

(** ** Ticks *)

(* src: crates/dnet-core/src/tick_gap.rs:20-23 DEFAULT_TOLERANCE *)
Definition DEFAULT_TOLERANCE : Duration := from_secs 5.

(* src: crates/dnet-core/src/tick_gap.rs:40-44 Reading *)
Record TickReading : Type := mkTickReading { monotonic : Duration; wall : Duration }.

(* src: crates/dnet-core/src/tick_gap.rs:32-38 TickGap *)
Record TickGap : Type := mkTickGap {
  period : Duration;
  tolerance : Duration;
  last : option TickReading;
}.

(* src: crates/dnet-core/src/tick_gap.rs:46-53 TickGap::new *)
Definition tick_gap_new (period tolerance : Duration) : TickGap :=
  {| period := period; tolerance := tolerance; last := None |}.

(** What is reported is the gap's [late_by]. *)
(* src: crates/dnet-core/src/tick_gap.rs:55-71 TickGap::tick *)
Definition tick (t : TickGap) (monotonic_now wall_now : Duration) : TickGap * option Duration :=
  let now := {| monotonic := monotonic_now; wall := wall_now |} in
  ({| period := period t; tolerance := tolerance t; last := Some now |},
   previous ← last t;
   let elapsed :=
     Z.max (duration_saturating_sub (monotonic now) (monotonic previous))
       (duration_saturating_sub (wall now) (wall previous)) in
   let allowed := duration_saturating_add (period t) (tolerance t) in
   if allowed <? elapsed then Some (duration_saturating_sub elapsed (period t)) else None).

(** * Histories *)

(** What happened to a planner, newest first. *)
Inductive PlanEvent : Type :=
  | Judged (strategy : Strategy) (path : InterfaceId) (seen : Observation)
  | EndpointForgotten
  | GatewayForgotten (path : InterfaceId).

Definition plan_step (p : ProbePlanner) (e : PlanEvent) : ProbePlanner :=
  match e with
  | Judged strategy path seen => (judge p strategy path seen).1
  | EndpointForgotten => forget_endpoint p
  | GatewayForgotten path => forget_gateway p path
  end.

Fixpoint planner_after (hist : list PlanEvent) : ProbePlanner :=
  match hist with
  | [] => planner_new
  | e :: hist => plan_step (planner_after hist) e
  end.

(** The probe has been heard: the endpoint on any path, or the gateway of this one, since that was
    last forgotten. *)
Definition hears (strategy : Strategy) (path : InterfaceId) (e : PlanEvent) : Prop :=
  match e, strategy with
  | Judged EndpointStrategy _ (Answered _), EndpointStrategy => True
  | Judged GatewayStrategy path' (Answered _), GatewayStrategy => path' = path
  | _, _ => False
  end.
Definition forgets (strategy : Strategy) (path : InterfaceId) (e : PlanEvent) : Prop :=
  match e, strategy with
  | EndpointForgotten, EndpointStrategy => True
  | GatewayForgotten path', GatewayStrategy => path' = path
  | _, _ => False
  end.

Definition heard (strategy : Strategy) (path : InterfaceId) (hist : list PlanEvent) : Prop :=
  ∃ newer e older, hist = newer ++ e :: older ∧ hears strategy path e ∧
    ∀ x, x ∈ newer → ¬ forgets strategy path x.

(** * Lemmas *)

Lemma heard_cons strategy path e hist :
  heard strategy path (e :: hist) ↔
    hears strategy path e ∨ (¬ forgets strategy path e ∧ heard strategy path hist).
Proof.
  split.
  - intros ([|e0 newer] & e' & older & E & He & Hn); simplify_eq/=; [by left|right].
    split; [apply Hn; set_solver|]. exists newer, e', older. split_and!; [done..|]. intros x Hx. apply Hn. set_solver.
  - intros [He|(Hf & newer & e' & older & -> & He & Hn)].
    + exists [], e, hist. split_and!; [done..|]. by intros x ?%elem_of_nil.
    + exists (e :: newer), e', older. split_and!; [done..|]. intros x [->|Hx]%elem_of_cons; auto.
Qed.

Lemma planner_after_endpoint path hist :
  endpoint_heard (planner_after hist) = true ↔ heard EndpointStrategy path hist.
Proof.
  induction hist as [|e hist IH].
  - split; [done|]. by intros ([|] & ? & ? & ? & _).
  - rewrite heard_cons, <-IH. destruct e as [[] p [rtt|]| |p]; simpl; rewrite ?orb_true_r, ?orb_false_r; naive_solver.
Qed.

Lemma planner_after_gateway path hist :
  path ∈ gateways_heard (planner_after hist) ↔ heard GatewayStrategy path hist.
Proof.
  induction hist as [|e hist IH].
  - split; [set_solver|]. by intros ([|] & ? & ? & ? & _).
  - rewrite heard_cons, <-IH. destruct e as [[] p [rtt|]| |p]; simpl; set_solver.
Qed.

(** * Properties *)

(** Silence counts only from a probe that has been heard.  After any history, an answer is a sample; a
    silence is a loss exactly when the same endpoint, or the gateway of the same path, has answered since what was
    learned about it was last forgotten, and is no information otherwise.  The endpoint is probed only for a
    profile carried over TCP whose endpoint serves TCP, the gateway only if there is one, and the endpoint
    first. *)
Theorem silence_needs_hearing strategy path seen hist available :
  match seen, (judge (planner_after hist) strategy path seen).2 with
  | Answered rtt, verdict => verdict = Sample (SampleAnswered rtt)
  | Silent, Sample s => s = SampleLost ∧ heard strategy path hist
  | Silent, NoInformation => ¬ heard strategy path hist
  end ∧
  (EndpointStrategy ∈ order available ↔ av_carrier available = Tcp ∧ endpoint_tcp available = true) ∧
  (GatewayStrategy ∈ order available ↔ av_gateway available = true) ∧
  NoDup (order available) ∧ (EndpointStrategy ∈ order available → head (order available) = Some EndpointStrategy).
Proof.
  split.
  - destruct seen as [rtt|]; [by destruct strategy|]. destruct strategy; simpl.
    + pose proof (planner_after_endpoint path hist) as Hp. destruct (endpoint_heard (planner_after hist)); naive_solver.
    + pose proof (planner_after_gateway path hist) as Hp. case_bool_decide; naive_solver.
  - unfold order. case_bool_decide as E; destruct (endpoint_tcp available), (av_gateway available); cbn [andb app];
      split_and!; try apply NoDup_nil_2; try apply NoDup_singleton; try (set_solver);
      repeat (apply NoDup_cons; split; [set_solver|]); apply NoDup_nil_2.
Qed.
