(* ===== verification/Effects.v ===== *)
(** Programs with effects whose outcome the environment chooses, and that can be cut off between any
    two of them: what the crash-safety statements are about. *)

From S2P Require Import Prelude.

(** * Programs

    An effect [e : E] is answered with an [R e]. *)

Section Prog.
Context {E : Type} {R : E → Type}.

Inductive Prog (A : Type) : Type :=
  | Ret (a : A)
  | Do (e : E) (k : R e → Prog A).
Arguments Ret {A} a.
Arguments Do {A} e k.

Fixpoint prog_bind {A B} (p : Prog A) (f : A → Prog B) : Prog B :=
  match p with
  | Ret a => f a
  | Do e k => Do e (fun r => prog_bind (k r) f)
  end.

Definition perform (e : E) : Prog (R e) := Do e Ret.

(** * Runs

    [handle w e r w']: in the world [w] the effect [e] may be answered with [r], leaving [w'].  A run
    gives the world it ends in and its value, or no value when it was cut off. *)

Context {W : Type} (handle : W → ∀ e : E, R e → W → Prop).

Inductive run {A} : W → Prog A → W → option A → Prop :=
  | run_ret w a : run w (Ret a) w (Some a)
  | run_crash w p : run w p w None
  | run_do w e k r w1 w2 o : handle w e r w1 → run w1 (k r) w2 o → run w (Do e k) w2 o.

(** How a run went on. *)
Lemma prog_run_inv {A} w (p : Prog A) w' o :
  run w p w' o →
  match p with
  | Ret a => w' = w ∧ (o = None ∨ o = Some a)
  | Do e k => (w' = w ∧ o = None) ∨ ∃ r w1, handle w e r w1 ∧ run w1 (k r) w' o
  end.
Proof.
  destruct 1 as [w a|w [a|e k]|w e k r w1 w2 o Hh Hr]; [by auto|by auto|by left|right]. by exists r, w1.
Qed.

Lemma run_cut {A} w (p : Prog A) w' o : run w p w' o → run w p w' None.
Proof. induction 1; [constructor|constructor|by eapply run_do]. Qed.

(** A program followed by another is cut off in the first, or ran it whole. *)
Lemma run_bind_inv {A B} (p : Prog A) (f : A → Prog B) w w' o :
  run w (prog_bind p f) w' o → (run w p w' None ∧ o = None) ∨ ∃ a w1, run w p w1 (Some a) ∧ run w1 (f a) w' o.
Proof.
  revert w. induction p as [a|e k IH]; intros w Hr; simpl in Hr.
  - right. exists a, w. split; [constructor|done].
  - apply prog_run_inv in Hr as [[-> ->]|(r & w1 & Hh & Hr)]; [left; split; [constructor|done]|].
    apply IH in Hr as [[Hr ->]|(a & w2 & Hp & Hr)].
    + left. split; [by eapply run_do|done].
    + right. exists a, w2. split; [by eapply run_do|done].
Qed.

(** What holds of every world a program can be in holds wherever it is cut off: [safe I post p w] says so,
    with [post] for the value and the world it ends with. *)
Fixpoint safe {A} (I : W → Prop) (post : A → W → Prop) (p : Prog A) (w : W) : Prop :=
  I w ∧
  match p with
  | Ret a => post a w
  | Do e k => ∀ r w', handle w e r w' → safe I post (k r) w'
  end.

Lemma safe_inv {A} I (post : A → W → Prop) p w : safe I post p w → I w.
Proof. by destruct p as [a|e k]; intros [? _]. Qed.

Lemma safe_run {A} I (post : A → W → Prop) p w w' o :
  run w p w' o → safe I post p w → I w' ∧ ∀ a, o = Some a → post a w'.
Proof.
  induction 1 as [w a|w p|w e k r w1 w2 o Hh _ IH]; intros Hs.
  - destruct Hs as [? ?]. split; [done|]. by intros b [= <-].
  - split; [by eapply safe_inv|done].
  - destruct Hs as [_ Hk]. by apply IH, Hk.
Qed.

Lemma safe_bind {A B} I (post : A → W → Prop) (post' : B → W → Prop) p f w :
  safe I post p w → (∀ a w', I w' → post a w' → safe I post' (f a) w') → safe I post' (prog_bind p f) w.
Proof.
  revert w. induction p as [a|e k IH]; intros w [Hi Hk] Hf; simpl; [by apply Hf|].
  split; [done|]. intros r w' Hh. apply IH; [by apply Hk|done].
Qed.

Lemma safe_weaken {A} I (post post' : A → W → Prop) p w :
  safe I post p w → (∀ a w', post a w' → post' a w') → safe I post' p w.
Proof.
  revert w. induction p as [a|e k IH]; intros w [Hi Hk] Hpost; simpl; split; auto.
Qed.
End Prog.

Arguments Prog {E} R A.
Arguments Ret {E R A} a.
Arguments Do {E R A} e k.
Arguments perform {E R} e.

#[export] Instance prog_ret {E} {R : E → Type} : MRet (Prog R) := fun A a => Ret a.
#[export] Instance prog_mbind {E} {R : E → Type} : MBind (Prog R) := fun A B f p => prog_bind p f.
