(* ===== verification/Undo.v ===== *)
(** The write-ahead undo registry: every change of the machine's routing is recorded before it is made, so
    that it can be reversed after a crash (crates/dnet-netstate/src/undo.rs and error.rs). *)

From S2P Require Import Prelude IpText Effects.

(** * Definitions *)

(* src: crates/dnet-netstate/src/error.rs:3-12 NetstateError *)
Inductive NetstateError : Type :=
  | Operation (what : string)
  | Journal (what : string).

(* src: crates/dnet-netstate/src/undo.rs:28-29 JOURNAL_VERSION *)
Definition JOURNAL_VERSION : Z := 1.

(* src: crates/dnet-netstate/src/undo.rs:31-34 UndoId *)
Definition UndoId : Type := Z.

(* src: crates/dnet-netstate/src/undo.rs:36-47 UndoRecord *)
Inductive UndoRecord : Type :=
  | HostRouteRecord (interface_luid : Z) (destination next_hop : IpAddr).

#[export] Instance UndoId_eq_dec : EqDecision UndoId := Z.eq_dec.
#[export] Instance UndoRecord_eq_dec : EqDecision UndoRecord.
Proof. solve_decision. Defined.

Definition is_unspecified (ip : IpAddr) : bool := ip_bits ip =? 0.

(* src: crates/dnet-netstate/src/undo.rs:50-73 UndoRecord::validate *)
Definition validate (r : UndoRecord) : result NetstateError unit :=
  match r with
  | HostRouteRecord interface_luid destination next_hop =>
      let invalid why := Err (Journal ("invalid host route: " +:+ why)) in
      if interface_luid =? 0 then invalid "no interface"
      else if is_unspecified destination || is_unspecified next_hop then invalid "unspecified address"
      else if negb (Bool.eqb (is_ipv4 destination) (is_ipv4 next_hop)) then
        invalid "destination and next hop differ in address family"
      else Ok ()
  end.

(* src: crates/dnet-netstate/src/undo.rs:76-82 UndoEntry *)
Record UndoEntry : Type := mkUndoEntry {
  entry_id : UndoId;
  record : UndoRecord;
}.

(* src: crates/dnet-netstate/src/undo.rs:84-91 UndoJournal *)
Record UndoJournal : Type := mkUndoJournal {
  version : Z;
  next_id : Z;
  entries : list UndoEntry;
}.

(* src: crates/dnet-netstate/src/undo.rs:93-101 UndoJournal::default *)
Definition journal_default : UndoJournal := {| version := JOURNAL_VERSION; next_id := 1; entries := [] |}.

(* src: crates/dnet-netstate/src/undo.rs:115-129 UndoJournal::from_json *)
Fixpoint check_entries (next : Z) (seen : list UndoId) (es : list UndoEntry) : result NetstateError unit :=
  match es with
  | [] => Ok ()
  | e :: es =>
      _ ← validate (record e);
      if bool_decide (entry_id e ∈ seen) then Err (Journal ("duplicate id " +:+ pretty (entry_id e)))
      else if next <=? entry_id e then
        Err (Journal ("id " +:+ pretty (entry_id e) +:+ " is not below the next id " +:+ pretty next))
      else check_entries next (entry_id e :: seen) es
  end.

(** What is checked of a journal once serde has read its JSON. *)
(* src: crates/dnet-netstate/src/undo.rs:103-131 UndoJournal::from_json *)
Definition check_journal (j : UndoJournal) : result NetstateError UndoJournal :=
  if negb (version j =? JOURNAL_VERSION) then Err (Journal ("unsupported version " +:+ pretty (version j)))
  else _ ← check_entries (next_id j) [] (entries j); Ok j.

(* src: crates/dnet-netstate/src/undo.rs:137-147 UndoJournal::without *)
Definition without (j : UndoJournal) (ids : list UndoId) : UndoJournal := {|
  version := version j; next_id := next_id j;
  entries := List.filter (fun e => negb (bool_decide (entry_id e ∈ ids))) (entries j);
|}.

(* src: crates/dnet-netstate/src/undo.rs:164-171 Mutation *)
Inductive Mutation : Type := Applied | AlreadyPresent.

(* src: crates/dnet-netstate/src/undo.rs:173-180 ReplayReport *)
Record ReplayReport : Type := mkReplayReport {
  restored : Z;
  failed : list (UndoId * NetstateError);
}.

(** The effects: saving the journal ([UndoStore::save]), the mutation that a record is for, and reversing a
    record ([UndoExecutor::reverse]). *)
(* src: crates/dnet-netstate/src/undo.rs:150-162 UndoStore *)
Inductive UndoEffect : Type :=
  | Save (j : UndoJournal)
  | Mutate (r : UndoRecord)
  | Reverse (r : UndoRecord).

Definition answer (e : UndoEffect) : Type :=
  match e with
  | Save _ => result NetstateError unit
  | Mutate _ => result NetstateError Mutation
  | Reverse _ => result NetstateError unit
  end.

Abbreviation Undo := (Prog answer).
Definition save (j : UndoJournal) : Undo (result NetstateError unit) := perform (R := answer) (Save j).
Definition mutate (r : UndoRecord) : Undo (result NetstateError Mutation) := perform (R := answer) (Mutate r).
Definition reverse (r : UndoRecord) : Undo (result NetstateError unit) := perform (R := answer) (Reverse r).

(** [next_id += 1] on a [u64], which wraps in a release build. *)
Definition u64_succ (n : Z) : Z := (n + 1) mod 2 ^ 64.

(** Each operation is given the journal held in memory and gives it back with its own result. *)
(* src: crates/dnet-netstate/src/undo.rs:210-244 UndoRegistry::apply *)
Definition apply (journal : UndoJournal) (r : UndoRecord) :
    Undo (UndoJournal * result NetstateError (option UndoId)) :=
  match validate r with
  | Err e => mret (journal, Err e)
  | Ok _ =>
      let id := next_id journal in
      let registered := {|
        version := version journal; next_id := u64_succ (next_id journal);
        entries := entries journal ++ [{| entry_id := id; record := r |}] |} in
      saved ← save registered;
      match saved with
      | Err e => mret (journal, Err e)
      | Ok _ =>
          outcome ← mutate r;
          match outcome with
          | Ok Applied => mret (registered, Ok (Some id))
          | Ok AlreadyPresent =>
              let withdrawn := without registered [id] in
              _ ← save withdrawn;
              mret (withdrawn, Ok None)
          | Err e =>
              let withdrawn := without registered [id] in
              _ ← save withdrawn;
              mret (withdrawn, Err e)
          end
      end
  end.

(* src: crates/dnet-netstate/src/undo.rs:246-263 UndoRegistry::undo *)
Definition undo (journal : UndoJournal) (id : UndoId) : Undo (UndoJournal * result NetstateError unit) :=
  match List.find (fun e => bool_decide (entry_id e = id)) (entries journal) with
  | None => mret (journal, Err (Journal ("no outstanding record " +:+ pretty id)))
  | Some entry =>
      reversed ← reverse (record entry);
      match reversed with
      | Err e => mret (journal, Err e)
      | Ok _ =>
          let remaining := without journal [id] in
          saved ← save remaining;
          match saved with
          | Err e => mret (journal, Err e)
          | Ok _ => mret (remaining, Ok ())
          end
      end
  end.

(* src: crates/dnet-netstate/src/undo.rs:268-275 UndoRegistry::replay *)
Fixpoint reverse_each (es : list UndoEntry) (restored : list UndoId) (failed : list (UndoId * NetstateError)) :
    Undo (list UndoId * list (UndoId * NetstateError)) :=
  match es with
  | [] => mret (restored, failed)
  | e :: es =>
      reversed ← reverse (record e);
      match reversed with
      | Ok _ => reverse_each es (restored ++ [entry_id e]) failed
      | Err err => reverse_each es restored (failed ++ [(entry_id e, err)])
      end
  end.

(* src: crates/dnet-netstate/src/undo.rs:265-283 UndoRegistry::replay *)
Definition replay (journal : UndoJournal) : Undo (UndoJournal * result NetstateError ReplayReport) :=
  '(restored, failed) ← reverse_each (rev (entries journal)) [] [];
  let report := {| restored := Z.of_nat (length restored); failed := failed |} in
  match restored with
  | [] => mret (journal, Ok report)
  | _ =>
      let remaining := without journal restored in
      saved ← save remaining;
      match saved with
      | Err e => mret (journal, Err e)
      | Ok _ => mret (remaining, Ok report)
      end
  end.

(** * The machine

    What survives a crash: the stored journal, and which recorded changes are in force. *)

Record Machine : Type := mkMachine {
  disk : UndoJournal;
  live : UndoRecord → Prop;
}.

(** The contracts of the effects.  A save that succeeds has replaced the journal; one that fails has left
    either the old or the new one (a write is a rename).  A mutation that says "applied" is in force;
    any other changed nothing.  A reversal that succeeds leaves the change out of force, and one that fails
    leaves things as they were. *)
Definition handle (m : Machine) (e : UndoEffect) : answer e → Machine → Prop :=
  match e with
  | Save j => fun ans m' =>
      (∀ r, live m' r ↔ live m r) ∧
      match ans with Ok _ => disk m' = j | Err _ => disk m' = disk m ∨ disk m' = j end
  | Mutate r => fun ans m' =>
      disk m' = disk m ∧
      match ans with
      | Ok Applied => ∀ r', live m' r' ↔ r' = r ∨ live m r'
      | _ => ∀ r', live m' r' ↔ live m r'
      end
  | Reverse r => fun ans m' =>
      disk m' = disk m ∧
      match ans with
      | Ok _ => ∀ r', live m' r' ↔ r' ≠ r ∧ live m r'
      | Err _ => ∀ r', live m' r' ↔ live m r'
      end
  end.

(** The life of a machine: [reached m memory], with the journal held in memory by the service, if it
    runs.  It starts with no journal; the service opens the registry over what is stored, performs
    operations one at a time, and may be cut off anywhere.  Fewer than 2^64 records are ever registered. *)
Inductive reached : Machine → option UndoJournal → Prop :=
  | reached_fresh : reached (mkMachine journal_default (fun _ => False)) None
  | reached_open m j : reached m None → check_journal (disk m) = Ok j → reached m (Some j)
  | reached_apply m j r m' j' res :
      reached m (Some j) → next_id j + 1 < 2 ^ 64 → run handle m (apply j r) m' (Some (j', res)) → reached m' (Some j')
  | reached_apply_cut m j r m' :
      reached m (Some j) → next_id j + 1 < 2 ^ 64 → run handle m (apply j r) m' None → reached m' None
  | reached_undo m j id m' j' res :
      reached m (Some j) → run handle m (undo j id) m' (Some (j', res)) → reached m' (Some j')
  | reached_undo_cut m j id m' : reached m (Some j) → run handle m (undo j id) m' None → reached m' None
  | reached_replay m j m' j' res :
      reached m (Some j) → run handle m (replay j) m' (Some (j', res)) → reached m' (Some j')
  | reached_replay_cut m j m' : reached m (Some j) → run handle m (replay j) m' None → reached m' None.

(** * Lemmas *)

Record wf (j : UndoJournal) : Prop := {
  wf_version : version j = JOURNAL_VERSION;
  wf_next : 0 ≤ next_id j;
  wf_ids : NoDup (map entry_id (entries j));
  wf_entry e : e ∈ entries j → entry_id e < next_id j ∧ validate (record e) = Ok ();
}.

(** Every change in force has an entry. *)
Definition covered (j : UndoJournal) (l : UndoRecord → Prop) : Prop :=
  ∀ r, l r → ∃ e, e ∈ entries j ∧ record e = r.

Definition durable (m : Machine) : Prop := wf (disk m) ∧ covered (disk m) (live m).
Definition in_memory (j : UndoJournal) (m : Machine) : Prop := wf j ∧ covered j (live m).

Lemma check_entries_ok next seen es :
  check_entries next seen es = Ok () ↔
    NoDup (map entry_id es) ∧ (∀ e, e ∈ es → entry_id e < next ∧ validate (record e) = Ok () ∧ entry_id e ∉ seen).
Proof.
  revert seen. induction es as [|e es IH]; intros seen; simpl; [split; [intros _; split; [constructor|set_solver]|done]|].
  destruct (validate (record e)) as [[]|] eqn:Ev; cbn [mbind result_bind].
  - case_bool_decide as Es.
    + split; [done|]. intros [_ H]. by destruct (H e ltac:(set_solver)) as (_ & _ & ?).
    + destruct (Z.leb_spec next (entry_id e)) as [Hle|Hlt].
      * split; [done|]. intros [_ H]. destruct (H e ltac:(set_solver)) as (? & _). lia.
      * rewrite IH, NoDup_cons. split.
        -- intros [Hn H]. split.
           ++ split; [|done]. intros (e' & E & He')%elem_of_map. destruct (H e' He') as (_ & _ & Hs). set_solver.
           ++ intros e' [->|He']%elem_of_cons; [done|]. destruct (H e' He') as (? & ? & ?). set_solver.
        -- intros [[Hn Hnd] H]. split; [done|]. intros e' He'. destruct (H e' ltac:(set_solver)) as (? & ? & ?).
           split_and!; [done..|]. intros [E|?]%elem_of_cons; [|done]. apply Hn, elem_of_map. eauto.
  - split; [done|]. intros [_ H]. destruct (H e ltac:(set_solver)) as (_ & E & _). congruence.
Qed.

Lemma check_journal_wf j : wf j → check_journal j = Ok j.
Proof.
  intros [Hv _ Hi He]. unfold check_journal. rewrite Hv. cbn [negb Z.eqb JOURNAL_VERSION Pos.eqb].
  assert (check_entries (next_id j) [] (entries j) = Ok ()) as ->; [|done].
  apply check_entries_ok. split; [done|]. intros e Hin. destruct (He e Hin). set_solver.
Qed.

Lemma check_journal_same d j : check_journal d = Ok j → j = d.
Proof.
  unfold check_journal. destruct (negb _); [done|]. destruct (check_entries _ _ _); [|done]. by intros [= <-].
Qed.

Lemma elem_of_without j ids e : e ∈ entries (without j ids) ↔ e ∈ entries j ∧ entry_id e ∉ ids.
Proof. simpl. rewrite elem_of_filter_bool. by rewrite negb_true_iff, bool_decide_eq_false. Qed.

Lemma wf_without j ids : wf j → wf (without j ids).
Proof.
  intros [Hv Hn Hi He]. split; [done|done| |].
  - simpl. clear -Hi. induction (entries j) as [|e es IH]; [done|]. simpl in *. apply NoDup_cons in Hi as [Hx Hi].
    destruct (negb _); [|by apply IH]. simpl. apply NoDup_cons. split; [|by apply IH].
    rewrite elem_of_map. intros (e' & E & [Hin _]%elem_of_filter_bool). apply Hx, elem_of_map. eauto.
  - intros e [Hin _]%elem_of_without. by apply He.
Qed.

Definition register (j : UndoJournal) (r : UndoRecord) : UndoJournal := {|
  version := version j; next_id := u64_succ (next_id j);
  entries := entries j ++ [{| entry_id := next_id j; record := r |}];
|}.

Lemma wf_register j r : wf j → next_id j + 1 < 2 ^ 64 → validate r = Ok () → wf (register j r).
Proof.
  intros [Hv Hn Hi He] Hlt Hr. unfold register, u64_succ. rewrite Z.mod_small by lia. split; simpl; [done|lia| |].
  - rewrite map_app. apply NoDup_app. split_and!; [done| |apply NoDup_singleton].
    intros i (e & -> & Hin)%elem_of_map E. apply list_elem_of_singleton in E. destruct (He e Hin). simpl in E. lia.
  - intros e [Hin|Hin]%elem_of_app; [destruct (He e Hin); split; [lia|done]|].
    apply list_elem_of_singleton in Hin as ->. simpl. split; [lia|done].
Qed.

Lemma covered_register j r l : covered j l → covered (register j r) (fun r' => r' = r ∨ l r').
Proof.
  intros Hc r' [->|Hr']; [exists {| entry_id := next_id j; record := r |}; set_solver|].
  destruct (Hc r' Hr') as (e & ? & ?). exists e. set_solver.
Qed.

Lemma covered_register_same j r l : covered j l → covered (register j r) l.
Proof.
  intros Hc r' Hr'. destruct (covered_register j r l Hc r' (or_intror Hr')) as (e & ? & ?). eauto.
Qed.

Lemma covered_withdrawn j r l : wf j → covered j l → covered (without (register j r) [next_id j]) l.
Proof.
  intros Hwf Hc r' Hr'. destruct (Hc r' Hr') as (e & He & Er). exists e. split; [|done].
  apply elem_of_without. destruct (wf_entry _ Hwf e He). split; [set_solver|].
  intros E%list_elem_of_singleton. lia.
Qed.

Lemma covered_mono j (l l' : UndoRecord → Prop) : covered j l → (∀ r, l' r → l r) → covered j l'.
Proof. intros Hc Hl r Hr. apply Hc, Hl, Hr. Qed.

(** A save of a journal that covers what is in force is safe, whether it succeeds or not. *)
Lemma handle_save m j ans m' :
  handle m (Save j) ans m' → durable m → wf j → covered j (live m) →
  durable m' ∧ in_memory j m' ∧ (∀ r, live m' r ↔ live m r) ∧ (ans = Ok () → disk m' = j).
Proof.
  intros [Hl Hd] [Hw Hc] Hj Hcj.
  assert (covered j (live m')) by (apply (covered_mono _ _ _ Hcj); naive_solver).
  assert (covered (disk m) (live m')) by (apply (covered_mono _ _ _ Hc); naive_solver).
  split_and!; [|split; done|done|intros ->; done].
  destruct ans as [[]|e]; [|destruct Hd as [Hd|Hd]]; split; rewrite ?Hd; done.
Qed.

Definition kept {A} (x : UndoJournal * A) (m : Machine) : Prop := in_memory (fst x) m.

(** A mutation that changed nothing is taken back out of the journal. *)
Lemma withdraw_safe m j r (o : result NetstateError (option UndoId)) :
  durable m → in_memory j m → next_id j + 1 < 2 ^ 64 → validate r = Ok () →
  let withdrawn := without (register j r) [next_id j] in
  safe handle durable kept (_ ← save withdrawn; mret (withdrawn, o)) m.
Proof.
  intros Hm [Hw Hc] Hn Hv withdrawn.
  assert (wf withdrawn) as Hww by (apply wf_without, wf_register; done).
  split; [done|]. intros ans m1 Hs.
  destruct (handle_save _ _ _ _ Hs Hm Hww (covered_withdrawn _ _ _ Hw Hc)) as (? & ? & _). split; done.
Qed.

Lemma same_live_kept m m' :
  disk m' = disk m → (∀ r, live m' r → live m r) →
  (durable m → durable m') ∧ ∀ j, in_memory j m → in_memory j m'.
Proof.
  intros Hd Hl. split; [intros [? Hc]; split; rewrite Hd; [done|]|intros j [? Hc]; split; [done|]];
    by apply (covered_mono _ _ _ Hc).
Qed.

Lemma apply_safe m j r :
  durable m → in_memory j m → next_id j + 1 < 2 ^ 64 → safe handle durable kept (apply j r) m.
Proof.
  intros Hm Hj Hn. pose proof Hj as [Hw Hc]. unfold apply.
  destruct (validate r) as [[]|e] eqn:Ev; [|split; done].
  fold (register j r). split; [done|]. intros ans m1 Hs.
  destruct (handle_save _ _ _ _ Hs Hm (wf_register _ _ Hw Hn Ev) (covered_register_same _ _ _ Hc))
    as (Hm1 & [Hwr Hcr] & Hl1 & Hd1).
  assert (in_memory j m1) as Hj1 by (split; [done|apply (covered_mono _ _ _ Hc); naive_solver]).
  destruct ans as [[]|e]; simpl; [|split; done]. split; [done|].
  intros out m2 [Hd2 Hl2].
  assert ((∀ r', live m2 r' ↔ live m1 r') → durable m2 ∧ in_memory j m2) as Hsame.
  { intros E. destruct (same_live_kept m1 m2 Hd2) as [? ?]; [naive_solver|auto]. }
  destruct out as [[]|e]; [|destruct (Hsame Hl2); by apply withdraw_safe..].
  assert (in_memory (register j r) m2) as Hj2.
  { split; [done|]. apply (covered_mono _ (fun r' => r' = r ∨ live m1 r')); [|naive_solver].
    by apply covered_register, Hj1. }
  split; [|done]. unfold durable. rewrite Hd2, Hd1 by done. apply Hj2.
Qed.

(** ** Reversing *)

(** The changes of the entries [ids] are out of force. *)
Definition reversed_ids (j : UndoJournal) (ids : list UndoId) (m : Machine) : Prop :=
  ∀ e, e ∈ entries j → entry_id e ∈ ids → ¬ live m (record e).

Lemma covered_reversed j ids m :
  covered j (live m) → reversed_ids j ids m → covered (without j ids) (live m).
Proof.
  intros Hc Hr r Hl. destruct (Hc r Hl) as (e & He & <-). exists e. split; [|done].
  apply elem_of_without. split; [done|]. intros Hid. by apply (Hr e).
Qed.

Lemma entry_unique j e e' :
  wf j → e ∈ entries j → e' ∈ entries j → entry_id e = entry_id e' → e = e'.
Proof. intros Hw. apply NoDup_map_inj, Hw. Qed.

(** One reversal, whatever it answers. *)
Lemma handle_reverse m j ids e ans m' :
  handle m (Reverse (record e)) ans m' → durable m → in_memory j m → e ∈ entries j → reversed_ids j ids m →
  durable m' ∧ in_memory j m' ∧ reversed_ids j ids m' ∧ (ans = Ok () → reversed_ids j (ids ++ [entry_id e]) m').
Proof.
  intros [Hd Hl] Hm Hj He Hr.
  assert (∀ r, live m' r → live m r) as Hsub by (destruct ans; naive_solver).
  destruct (same_live_kept m m' Hd Hsub) as [? ?].
  split_and!; [auto|auto|intros e' ???; by apply (Hr e'), Hsub|].
  intros -> e' He' [Hid|Hid%list_elem_of_singleton]%elem_of_app Hlive; apply Hl in Hlive as [Hne Hlive].
  - by apply (Hr e').
  - apply Hne. by rewrite (entry_unique j e' e (proj1 Hj) He' He Hid).
Qed.

Lemma undo_safe m j id : durable m → in_memory j m → safe handle durable kept (undo j id) m.
Proof.
  intros Hm Hj. unfold undo. destruct (List.find _ _) as [e|] eqn:Ef; [|split; done].
  apply find_some in Ef as [He%list_elem_of_In Hid%bool_decide_eq_true].
  split; [done|]. intros ans m1 Hr.
  destruct (handle_reverse m j [] e ans m1 Hr Hm Hj He) as (Hm1 & Hj1 & _ & Hrev); [intros e' _; set_solver|].
  destruct ans as [[]|err]; [|split; done]. specialize (Hrev eq_refl). simpl in Hrev. rewrite Hid in Hrev.
  pose proof (wf_without j [id] (proj1 Hj1)) as Hw.
  pose proof (covered_reversed j [id] m1 (proj2 Hj1) Hrev) as Hc.
  split; [done|]. intros ans m2 Hs. destruct (handle_save _ _ _ _ Hs Hm1 Hw Hc) as (Hm2 & Hr2 & Hl2 & _).
  destruct ans as [[]|err2]; split; [done|done|done|].
  split; [apply Hj1|]. apply (covered_mono _ _ _ (proj2 Hj1)). naive_solver.
Qed.

Lemma reverse_each_safe m j es restored failed :
  durable m → in_memory j m → (∀ e, e ∈ es → e ∈ entries j) → reversed_ids j restored m →
  safe handle durable
    (fun '(restored', failed') m' =>
       in_memory j m' ∧ reversed_ids j restored' m' ∧
       restored' ++ map fst failed' ≡ₚ restored ++ map fst failed ++ map entry_id es)
    (reverse_each es restored failed) m.
Proof.
  revert m restored failed. induction es as [|e es IH]; intros m restored failed Hm Hj Hes Hr; simpl.
  - split_and!; [done..|]. by rewrite app_nil_r.
  - split; [done|]. intros ans m1 Hh.
    destruct (handle_reverse m j restored e ans m1 Hh Hm Hj (Hes e ltac:(set_solver)) Hr) as (Hm1 & Hj1 & Hr1 & Hok).
    assert (∀ e', e' ∈ es → e' ∈ entries j) as Hes' by (intros; apply Hes; set_solver).
    destruct ans as [[]|err].
    + specialize (Hok eq_refl). eapply safe_weaken; [by apply IH|].
      intros [res fl] m' (? & ? & Hp). split_and!; [done..|]. rewrite Hp. solve_Permutation.
    + eapply safe_weaken; [by apply IH|].
      intros [res fl] m' (? & ? & Hp). split_and!; [done..|]. rewrite Hp, map_app. simpl. solve_Permutation.
Qed.

(** What a replay reports of the journal [j] it ran over. *)
Definition accounts (j j' : UndoJournal) (report : ReplayReport) : Prop :=
  restored report + Z.of_nat (length (failed report)) = Z.of_nat (length (entries j)) ∧
  ∀ e, e ∈ entries j' ↔ e ∈ entries j ∧ entry_id e ∈ map fst (failed report).

Lemma accounts_without j ids (fl : list (UndoId * NetstateError)) :
  wf j → ids ++ map fst fl ≡ₚ map entry_id (rev (entries j)) →
  accounts j (without j ids) {| restored := Z.of_nat (length ids); failed := fl |}.
Proof.
  intros Hw Hp. rewrite map_rev, <- Permutation_rev in Hp. split; simpl.
  - apply Permutation_length in Hp. rewrite length_app, !length_map in Hp. simpl. lia.
  - intros e. etransitivity; [apply elem_of_without|]. simpl.
    pose proof (wf_ids _ Hw) as Hn. rewrite <- Hp in Hn. apply NoDup_app in Hn as (_ & Hd & _).
    split; intros [He Hid]; (split; [done|]).
    + assert (entry_id e ∈ ids ++ map fst fl) as Hin by (rewrite Hp; apply elem_of_map; eauto). set_solver.
    + intros Hid'. by apply (Hd (entry_id e)).
Qed.

Lemma without_nil j : without j [] = j.
Proof.
  destruct j as [v n es]. unfold without. simpl. f_equal. induction es as [|e es IH]; [done|]. simpl. by rewrite IH.
Qed.

Lemma replay_safe m j :
  durable m → in_memory j m →
  safe handle durable (fun x m' => kept x m' ∧ ∀ report, snd x = Ok report → accounts j (fst x) report)
    (replay j) m.
Proof.
  intros Hm Hj. unfold replay. eapply safe_bind.
  { apply (reverse_each_safe m j); [done|done| |intros e _; set_solver].
    intros e He%list_elem_of_In%in_rev. by apply list_elem_of_In. }
  intros [ids fl] m1 Hm1 (Hj1 & Hr1 & Hp). simpl in Hp.
  pose proof (accounts_without j ids fl (proj1 Hj) Hp) as Hacc.
  destruct ids as [|i ids]; [rewrite without_nil in Hacc|].
  { split; [done|]. split; [done|]. by intros report [= <-]. }
  set (ids' := i :: ids) in *.
  pose proof (covered_reversed j ids' m1 (proj2 Hj1) Hr1) as Hc.
  split; [done|]. intros ans m2 Hs.
  destruct (handle_save _ _ _ _ Hs Hm1 (wf_without j ids' (proj1 Hj1)) Hc) as (Hm2 & Hr2 & Hl2 & _).
  destruct ans as [[]|err]; (split; [done|]; split).
  - done.
  - by intros report [= <-].
  - split; [apply Hj1|]. apply (covered_mono _ _ _ (proj2 Hj1)). naive_solver.
  - done.
Qed.

Lemma reached_durable m mem :
  reached m mem → durable m ∧ match mem with Some j => in_memory j m | None => True end.
Proof.
  induction 1 as [|m j _ [[Hw Hc] _] Hj|m j r m' j' res _ [Hm Hj] Hn Hrun|m j r m' _ [Hm Hj] Hn Hrun
                 |m j id m' j' res _ [Hm Hj] Hrun|m j id m' _ [Hm Hj] Hrun
                 |m j m' j' res _ [Hm Hj] Hrun|m j m' _ [Hm Hj] Hrun].
  - split; [|done]. split; [|by intros r []]. split; simpl; [done|lia|constructor|set_solver].
  - apply check_journal_same in Hj as ->. split; split; done.
  - destruct (safe_run _ _ _ _ _ _ _ Hrun (apply_safe m j r Hm Hj Hn)) as [? Hk]. split; [done|].
    exact (Hk _ eq_refl).
  - split; [|done]. apply (safe_run _ _ _ _ _ _ _ Hrun (apply_safe m j r Hm Hj Hn)).
  - destruct (safe_run _ _ _ _ _ _ _ Hrun (undo_safe m j id Hm Hj)) as [? Hk]. split; [done|].
    exact (Hk _ eq_refl).
  - split; [|done]. apply (safe_run _ _ _ _ _ _ _ Hrun (undo_safe m j id Hm Hj)).
  - destruct (safe_run _ _ _ _ _ _ _ Hrun (replay_safe m j Hm Hj)) as [? Hk]. split; [done|].
    exact (proj1 (Hk _ eq_refl)).
  - split; [|done]. apply (safe_run _ _ _ _ _ _ _ Hrun (replay_safe m j Hm Hj)).
Qed.

(** * Theorems *)

(** C11. No change of the machine's network state is ever in force without a record of it on disk, wherever
    the service is cut off: between the mutation and anything after it, in the middle of an undo, or in
    the middle of a replay, whichever saves fail.  The stored journal also always passes the checks it is
    read with, so a restart can always replay it. *)
Theorem changes_are_recorded m memory :
  reached m memory →
  (∀ r, live m r → ∃ e, e ∈ entries (disk m) ∧ record e = r ∧ validate r = Ok ()) ∧
  check_journal (disk m) = Ok (disk m).
Proof.
  intros [[Hw Hc] _]%reached_durable. split; [|by apply check_journal_wf].
  intros r Hl. destruct (Hc r Hl) as (e & He & <-). exists e. destruct (wf_entry _ Hw e He). done.
Qed.

(** A replay accounts for every record: each is either reversed and dropped from the journal or
    reported as failed and kept for the next attempt, so when none fails nothing that the service changed
    is left in force. *)
Theorem replay_accounts m j m' j' report :
  reached m (Some j) →
  run handle m (replay j) m' (Some (j', Ok report)) →
  restored report + Z.of_nat (length (failed report)) = Z.of_nat (length (entries j)) ∧
  (∀ e, e ∈ entries j' ↔ e ∈ entries j ∧ entry_id e ∈ map fst (failed report)) ∧
  (∀ r, live m' r → ∃ e, e ∈ entries j' ∧ record e = r) ∧
  (failed report = [] → ∀ r, ¬ live m' r).
Proof.
  intros [Hm Hj]%reached_durable Hrun.
  destruct (safe_run _ _ _ _ _ _ _ Hrun (replay_safe m j Hm Hj)) as [_ Hk].
  destruct (Hk _ eq_refl) as [[_ Hc] Hacc]. destruct (Hacc report eq_refl) as [Hn He].
  split_and!; [done|done|exact Hc|]. intros Hf r Hl. destruct (Hc r Hl) as (e & Hin & _).
  apply He in Hin as [_ Hin]. rewrite Hf in Hin. set_solver.
Qed.

(** ** Witnesses *)

Definition example_route : UndoRecord := HostRouteRecord 7 (V4 (16909060)) (V4 (3232235777)).
Definition example_recorded : UndoJournal := register journal_default example_route.
Definition example_nothing (r : UndoRecord) : Prop := False.
Definition example_in_force (r : UndoRecord) : Prop := r = example_route.

(** The service is cut off just after its first mutation. *)
Lemma example_cut : reached (mkMachine example_recorded example_in_force) None.
Proof.
  eapply (reached_apply_cut (mkMachine journal_default example_nothing) journal_default example_route).
  - by apply reached_open; [apply reached_fresh|].
  - done.
  - eapply (run_do _ _ (Save example_recorded) _ (Ok ()) (mkMachine example_recorded example_nothing)); [done|].
    eapply (run_do _ _ (Mutate example_route) _ (Ok Applied) (mkMachine example_recorded example_in_force)); [|apply run_crash].
    split; [done|]. intros r. unfold example_in_force, example_nothing. simpl. tauto.
Defined.

Lemma changes_are_recorded_witness :
  (∀ r, r = example_route → ∃ e, e ∈ entries example_recorded ∧ record e = r ∧ validate r = Ok ()) ∧
  check_journal example_recorded = Ok example_recorded.
Proof. exact (changes_are_recorded (mkMachine example_recorded example_in_force) None example_cut). Defined.

Definition example_emptied : UndoJournal := without example_recorded [1].

(** The next start replays the journal. *)
Lemma replay_accounts_witness :
  1 + 0 = 1 ∧
  (∀ e, e ∈ entries example_emptied ↔ e ∈ entries example_recorded ∧ entry_id e ∈ []) ∧
  (∀ r, example_nothing r → ∃ e, e ∈ entries example_emptied ∧ record e = r) ∧
  ([] = @nil (UndoId * NetstateError) → ∀ r, ¬ example_nothing r).
Proof.
  refine (replay_accounts (mkMachine example_recorded example_in_force) example_recorded (mkMachine example_emptied example_nothing)
            example_emptied {| restored := 1; failed := [] |} _ _).
  - by apply reached_open; [exact example_cut|].
  - eapply (run_do _ _ (Reverse example_route) _ (Ok ()) (mkMachine example_recorded example_nothing)).
    { split; [done|]. intros r. unfold example_in_force, example_nothing. simpl. tauto. }
    eapply (run_do _ _ (Save example_emptied) _ (Ok ()) (mkMachine example_emptied example_nothing)); [done|].
    apply run_ret.
Defined.
