(* ===== verification/Names.v ===== *)
(** Values shared by the generators and the profile feed: host names that reach a TLS handshake
    (crates/dnet-core/src/hostname.rs) and transport parameters with their bounds
    (crates/dnet-core/src/transport_params.rs). *)

From Stdlib Require Import Ascii.
From S2P Require Import Prelude Text Builtin.

(** * Definitions *)

(* src: crates/dnet-core/src/hostname.rs:11-12 MAX_NAME_LEN *)
Definition MAX_NAME_LEN : Z := 253.

(* src: crates/dnet-core/src/hostname.rs:13-14 MAX_LABEL_LEN *)
Definition MAX_LABEL_LEN : Z := 63.

(* src: crates/dnet-core/src/hostname.rs:30-37 is_label *)
Definition is_label (label : string) : bool :=
  (1 <=? str_len label) && (str_len label <=? MAX_LABEL_LEN) &&
  forallb (fun b => is_ascii_alphanumeric b || Ascii.eqb b "-") (bytes label) &&
  negb (starts_with "-" label) && negb (ends_with "-" label).

(* src: crates/dnet-core/src/hostname.rs:16-28 is_dns_hostname *)
Definition is_dns_hostname (name : string) : bool :=
  if str_is_empty name || (MAX_NAME_LEN <? str_len name) then false
  else
    let labels := split "." name in
    if bool_decide (length labels < 2)%nat || negb (forallb is_label labels) then false
    else
      let tld := List.last labels "" in
      negb (forallb is_ascii_digit (bytes tld)).

(* src: crates/dnet-core/src/hostname.rs:39-55 validate_target_domain *)
Definition validate_target_domain (raw : string) : result string string :=
  let name := to_ascii_lowercase raw in
  if negb (is_dns_hostname name) then Err "not a DNS hostname"
  else
    let bypassed :=
      existsb (fun suffix => String.eqb name suffix || ends_with ("." +:+ suffix) name)
        CAPTIVE_PORTAL_PROBE_SUFFIXES in
    if bypassed then Err "covered by a built-in bypass rule" else Ok name.

(** ** Transport parameters *)

(* src: crates/dnet-core/src/transport_params.rs:12-21 BbrProfile *)
Inductive BbrProfile : Type := Standard | Conservative | Aggressive.

(* src: crates/dnet-core/src/transport_params.rs:23-31 BbrProfile::as_str *)
Definition bbr_as_str (p : BbrProfile) : string :=
  match p with Standard => "standard" | Conservative => "conservative" | Aggressive => "aggressive" end.

(* src: crates/dnet-core/src/transport_params.rs:33-45 UtlsFingerprint *)
Inductive UtlsFingerprint : Type := Chrome | Firefox | Edge | Safari | Ios | Android.

(* src: crates/dnet-core/src/transport_params.rs:47-58 UtlsFingerprint::as_str *)
Definition utls_as_str (f : UtlsFingerprint) : string :=
  match f with
  | Chrome => "chrome"
  | Firefox => "firefox"
  | Edge => "edge"
  | Safari => "safari"
  | Ios => "ios"
  | Android => "android"
  end.

#[export] Instance BbrProfile_eq_dec : EqDecision BbrProfile.
Proof. solve_decision. Defined.
#[export] Instance UtlsFingerprint_eq_dec : EqDecision UtlsFingerprint.
Proof. solve_decision. Defined.

(* src: crates/dnet-core/src/transport_params.rs:60-61 GECKO_PACKET_SIZE_MIN *)
Definition GECKO_PACKET_SIZE_MIN : Z := 256.
(* src: crates/dnet-core/src/transport_params.rs:62-64 GECKO_PACKET_SIZE_MAX *)
Definition GECKO_PACKET_SIZE_MAX : Z := 1400.

(* src: crates/dnet-core/src/transport_params.rs:66-72 gecko_packet_sizes_valid *)
Definition gecko_packet_sizes_valid (min_packet_size max_packet_size : Z) : bool :=
  let within n := (GECKO_PACKET_SIZE_MIN <=? n) && (n <=? GECKO_PACKET_SIZE_MAX) in
  within min_packet_size && within max_packet_size && (min_packet_size <=? max_packet_size).

Module awg.
(* src: crates/dnet-core/src/transport_params.rs:79-79 JC_MIN *)
Definition JC_MIN : Z := 1.
(* src: crates/dnet-core/src/transport_params.rs:80-80 JC_MAX *)
Definition JC_MAX : Z := 16.
(* src: crates/dnet-core/src/transport_params.rs:81-82 JUNK_SIZE_MAX *)
Definition JUNK_SIZE_MAX : Z := 1280.
(* src: crates/dnet-core/src/transport_params.rs:83-84 S1_MAX *)
Definition S1_MAX : Z := 1132.
(* src: crates/dnet-core/src/transport_params.rs:85-86 S2_MAX *)
Definition S2_MAX : Z := 1188.
(* src: crates/dnet-core/src/transport_params.rs:87-89 INIT_RESPONSE_SIZE_DIFFERENCE *)
Definition INIT_RESPONSE_SIZE_DIFFERENCE : Z := 56.
(* src: crates/dnet-core/src/transport_params.rs:90-91 HEADER_MIN *)
Definition HEADER_MIN : Z := 5.
(* src: crates/dnet-core/src/transport_params.rs:92-92 HEADER_MAX *)
Definition HEADER_MAX : Z := 2 ^ 31 - 1.
End awg.

(** * Lemmas *)

Lemma lower_byte_idem b : lower_byte (lower_byte b) = lower_byte b.
Proof. by destruct b as [[] [] [] [] [] [] [] []]; vm_compute. Qed.

Lemma to_ascii_lowercase_idem s : to_ascii_lowercase (to_ascii_lowercase s) = to_ascii_lowercase s.
Proof.
  unfold to_ascii_lowercase. rewrite bytes_of_ascii, map_map. f_equal. apply map_ext, lower_byte_idem.
Qed.

(** What the validator lets through. *)
Record target_domain (name : string) : Prop := {
  target_hostname : is_dns_hostname name = true;
  target_lower : to_ascii_lowercase name = name;
  target_reachable suffix :
    suffix ∈ CAPTIVE_PORTAL_PROBE_SUFFIXES → name ≠ suffix ∧ ∀ label, name ≠ label +:+ "." +:+ suffix;
}.

Lemma validate_target_domain_spec raw name :
  validate_target_domain raw = Ok name ↔ name = to_ascii_lowercase raw ∧ target_domain name.
Proof.
  unfold validate_target_domain. destruct (is_dns_hostname (to_ascii_lowercase raw)) eqn:Eh; simpl negb; cbn iota.
  2:{ split; [done|]. intros (-> & [? _ _]). congruence. }
  destruct (existsb _ _) eqn:Ee.
  - split; [done|]. intros (-> & [_ _ Hall]).
    apply existsb_exists_elem in Ee as (suffix & Hin & Hor). destruct (Hall suffix Hin) as [Hne Hno].
    apply orb_true_iff in Hor as [E%String.eqb_eq|(h & E)%ends_with_spec]; [done|]. by destruct (Hno h).
  - rewrite existsb_false_elem in Ee. split; [|by intros (-> & _)].
    intros [= <-]. split; [done|]. split; [done|apply to_ascii_lowercase_idem|].
    intros suffix Hin. specialize (Ee suffix Hin). apply orb_false_iff in Ee as [Hne Hno].
    split; [by apply String.eqb_neq|]. intros h E.
    assert (ends_with ("." +:+ suffix) (to_ascii_lowercase raw) = true) by (apply ends_with_spec; eauto).
    congruence.
Qed.

Lemma validate_target_domain_idem name : target_domain name → validate_target_domain name = Ok name.
Proof. intros H. apply validate_target_domain_spec. split; [by rewrite (target_lower _ H)|done]. Qed.
