(* ===== verification/Persist.v ===== *)
(** The saved configuration: what of the endpoints, the profiles, the encrypted-DNS choice and a person's rules is
    written, and what a reader takes of a file that anyone may have touched
    (crates/dnet-config/src/persist.rs, with the keys of secret_store.rs and the files of trusted_file.rs). *)

From Stdlib Require Import Ascii.
From S2P Require Import Prelude Text IpText Profile Health Endpoint Rule RuleEval Builtin Names.

(** * Definitions *)

(* src: crates/dnet-config/src/persist.rs:40-41 FORMAT_VERSION *)
Definition FORMAT_VERSION : Z := 1.
(* src: crates/dnet-config/src/persist.rs:42-43 MAX_CONFIG_LEN *)
Definition MAX_CONFIG_LEN : Z := 256 * 1024.
(* src: crates/dnet-config/src/persist.rs:44-44 MAX_ENDPOINTS *)
Definition MAX_ENDPOINTS : Z := 64.
(* src: crates/dnet-config/src/persist.rs:45-45 MAX_PARAMS *)
Definition MAX_PARAMS : Z := 64.
(* src: crates/dnet-config/src/persist.rs:46-46 MAX_PARAM_KEY_LEN *)
Definition MAX_PARAM_KEY_LEN : Z := 64.
(* src: crates/dnet-config/src/persist.rs:47-47 MAX_PARAM_VALUE_LEN *)
Definition MAX_PARAM_VALUE_LEN : Z := 512.
(* src: crates/dnet-config/src/persist.rs:48-48 MAX_RESOURCE_IDS *)
Definition MAX_RESOURCE_IDS : Z := 32.
(* src: crates/dnet-config/src/persist.rs:49-49 MAX_TEXT_LEN *)
Definition MAX_TEXT_LEN : Z := 256.
(* src: crates/dnet-config/src/persist.rs:50-51 MAX_USER_RULES *)
Definition MAX_USER_RULES : Z := 128.
(* src: crates/dnet-config/src/persist.rs:53-55 MAX_BRUTAL_MBPS *)
Definition MAX_BRUTAL_MBPS : Z := 1000000.

(* src: crates/dnet-config/src/persist.rs:57-70 PersistError *)
Inductive PersistError : Type :=
  | Storage (detail : string)
  | ConfigTooLarge
  | Malformed (detail : string)
  | UnsupportedVersion (found : Z)
  | Invalid (detail : string).

(* src: crates/dnet-config/src/persist.rs:72-94 PersistError::fmt *)
Definition persist_error_to_string (e : PersistError) : string :=
  match e with
  | Storage detail => "the saved configuration could not be read or written (" +:+ detail +:+ ")"
  | ConfigTooLarge => "the saved configuration is larger than " +:+ pretty MAX_CONFIG_LEN +:+ " bytes"
  | Malformed detail => "the saved configuration is not in the expected form (" +:+ detail +:+ ")"
  | UnsupportedVersion found =>
      "the saved configuration is format version " +:+ pretty found +:+ "; this version reads version " +:+ pretty FORMAT_VERSION
  | Invalid detail => "the saved configuration has an invalid entry (" +:+ detail +:+ ")"
  end.

(* src: crates/dnet-config/src/persist.rs:110-116 ProfileSettings *)
Record ProfileSettings : Type := mkProfileSettings {
  ps_id : ProfileId;
  ps_params : ProfileParams;
  ps_brutal : option (BandwidthPair * BrutalAcknowledgement);
}.

(* src: crates/dnet-config/src/persist.rs:118-133 LoadedConfig *)
Record LoadedConfig : Type := mkLoadedConfig {
  lc_endpoints : list Endpoint;
  lc_profiles : list ProfileSettings;
  lc_encrypted_dns : option ConsentState;
  lc_rules : list RoutingRule;
  lc_notes : list string;
}.

(** ** The stored form *)

(* src: crates/dnet-config/src/persist.rs:288-298 RuleWire *)
Record RuleWire : Type := mkRuleWire { rw_id : string; rw_kind : string; rw_value : string; rw_action : string; rw_precedence : Z }.

(* src: crates/dnet-config/src/persist.rs:300-307 ConsentWire *)
Record ConsentWire : Type := mkConsentWire { cw_policy : string; cw_disclosed_version : Z }.

(* src: crates/dnet-config/src/persist.rs:328-338 OriginWire *)
Record OriginWire : Type := mkOriginWire {
  ow_kind : string;
  ow_provider : option string;
  ow_region : option string;
  ow_resource_ids : option (list string);
}.

(* src: crates/dnet-config/src/persist.rs:314-324 EndpointWire *)
Record EndpointWire : Type := mkEndpointWire {
  ew_id : string;
  ew_label : string;
  ew_host : string;
  ew_port : Z;
  ew_origin : OriginWire;
  ew_credential : string;
  ew_enabled : bool;
}.

(* src: crates/dnet-config/src/persist.rs:348-355 BrutalWire *)
Record BrutalWire : Type := mkBrutalWire { bw_up : Z; bw_down : Z; bw_warning : Z; bw_at_unix : Z }.

(* src: crates/dnet-config/src/persist.rs:340-346 ProfileWire *)
Record ProfileWire : Type := mkProfileWire { pw_id : string; pw_params : gmap string string; pw_brutal : option BrutalWire }.

(* src: crates/dnet-config/src/persist.rs:274-286 Wire *)
Record Wire : Type := mkWire {
  w_version : Z;
  w_endpoints : list EndpointWire;
  w_profiles : list ProfileWire;
  w_encrypted_dns : option ConsentWire;
  w_rules : list RuleWire;
}.

(** Its text is serde_json's, derived: [deny_unknown_fields] and all.  An error is its summary. *)
Class ConfigText : Type := {
  to_vec_pretty : Wire → string;
  wire_from_slice : string → result string Wire;
  version_from_slice : string → result string Z;
}.

(** ** Keys of secrets *)

(* src: crates/dnet-config/src/secret_store.rs:33-34 MAX_KEY_LEN *)
Definition MAX_KEY_LEN : Z := 80.

(** The four ways a reference is refused, as their text. *)
(* src: crates/dnet-config/src/secret_store.rs:70-92 SecretKey::parse *)
Definition secret_key_parse (reference : CredentialRef) : result string string :=
  let key := store_key reference in
  let wrong why := Err ("the credential reference is not a valid secret-store key: " +:+ why) in
  let chars_ok := forallb (fun b => in_range 97 122 b || is_ascii_digit b || Ascii.eqb b "-") (bytes key) in
  if str_is_empty key then wrong "it is empty"
  else if MAX_KEY_LEN <? str_len key then wrong "it is longer than 80 characters"
  else if negb chars_ok then wrong "it may contain only a-z, 0-9 and '-'"
  else if starts_with "-" key || ends_with "-" key then wrong "it may not start or end with '-'"
  else Ok key.

(* src: crates/dnet-config/src/persist.rs:677-681 host_is_acceptable *)
Definition host_is_acceptable (host : string) : bool :=
  bool_decide (is_Some (parse_ip host)) || is_dns_hostname host.

(* src: crates/dnet-config/src/persist.rs:357-369 shown *)
Definition shown (id : string) : string :=
  if (1 <=? str_len id) && (str_len id <=? 64) &&
     forallb (fun b => in_range 97 122 b || is_ascii_digit b || Ascii.eqb b "-") (bytes id)
  then id else "(not a valid id)".

(* src: crates/dnet-config/src/persist.rs:371-373 invalid *)
Definition invalid (what : string) : PersistError := Invalid what.

(* src: crates/dnet-config/src/persist.rs:386-398 plain_text *)
Definition plain_text (value what : string) : result PersistError unit :=
  if str_is_empty value || (MAX_TEXT_LEN <? str_len value) || negb (forallb (in_range 0x20 0x7E) (bytes value)) then
    Err (invalid (what +:+ " must be 1 to " +:+ pretty MAX_TEXT_LEN +:+ " printable ASCII characters"))
  else Ok ().

Section Persist.
Context `{UuidText, DebugText, ConfigText}.

(** ** Reading *)

(* src: crates/dnet-config/src/persist.rs:706-733 decode_endpoint *)
Definition decode_origin (at_ : string → string) (o : OriginWire) : result PersistError EndpointOrigin :=
  let wrong := Err (invalid (at_ "the origin is not 'manual' or a complete 'provisioned'")) in
  match ow_provider o, ow_region o, ow_resource_ids o with
  | None, None, None => if String.eqb (ow_kind o) "manual" then Ok Manual else wrong
  | Some provider, Some region, Some resource_ids =>
      if String.eqb (ow_kind o) "provisioned" then
        _ ← plain_text provider (at_ "the provider");
        _ ← plain_text region (at_ "the region");
        if MAX_RESOURCE_IDS <? Z.of_nat (length resource_ids) then Err (invalid (at_ "too many cloud resource ids"))
        else
          _ ← mapM (fun id => plain_text id (at_ "a cloud resource id")) resource_ids;
          Ok (Provisioned provider region resource_ids)
      else wrong
  | _, _, _ => wrong
  end.

Definition at_endpoint (index : Z) (what : string) : string := "endpoint " +:+ pretty index +:+ ": " +:+ what.

(* src: crates/dnet-config/src/persist.rs:683-745 decode_endpoint *)
Definition decode_endpoint (e : EndpointWire) (index : Z) : result PersistError Endpoint :=
  let at_ := at_endpoint index in
  if negb (str_len (ew_id e) =? 36) then Err (invalid (at_ "the id is not a UUID"))
  else
    id ← ok_or (uuid_parse_str (ew_id e)) (invalid (at_ "the id is not a UUID"));
    _ ← plain_text (ew_label e) (at_ "the label");
    if negb (host_is_acceptable (ew_host e)) then
      Err (invalid (at_ "the host is neither an IP address nor a host name"))
    else
      match address_new (ew_host e) (ew_port e) with
      | Err err => Err (invalid (at_ (domain_error_to_string err)))
      | Ok address =>
          let reference := {| store_key := ew_credential e |} in
          match secret_key_parse reference with
          | Err err => Err (invalid (at_ err))
          | Ok _ =>
              origin ← decode_origin at_ (ew_origin e);
              match endpoint_new id (ew_label e) address origin reference with
              | Err err => Err (invalid (at_ (domain_error_to_string err)))
              | Ok endpoint => Ok (set_enabled (ew_enabled e) endpoint)
              end
          end
      end.

(* src: crates/dnet-config/src/persist.rs:577-591 decode *)
Fixpoint decode_endpoints (index : Z) (seen_ids : list EndpointId) (seen_labels : list string) (l : list EndpointWire) :
    result PersistError (list Endpoint) :=
  match l with
  | [] => Ok []
  | e :: l =>
      endpoint ← decode_endpoint e index;
      if bool_decide (endpoint_id endpoint ∈ seen_ids) then
        Err (invalid ("endpoint " +:+ pretty index +:+ ": its id is used twice"))
      else if bool_decide (endpoint_label endpoint ∈ seen_labels) then
        Err (invalid ("endpoint " +:+ pretty index +:+ ": its label is used twice"))
      else
        rest ← decode_endpoints (index + 1) (endpoint_id endpoint :: seen_ids) (endpoint_label endpoint :: seen_labels) l;
        Ok (endpoint :: rest)
  end.

(* src: crates/dnet-config/src/persist.rs:766-772 decode_profile *)
Definition param_ok (kv : string * string) : bool :=
  let '(key, value) := kv in
  let key_ok :=
    negb (str_is_empty key) && (str_len key <=? MAX_PARAM_KEY_LEN) &&
    forallb (fun b => in_range 97 122 b || is_ascii_digit b || existsb (Ascii.eqb b) ["_"%char; "-"%char; "."%char]) (bytes key) in
  let value_ok := (str_len value <=? MAX_PARAM_VALUE_LEN) && forallb (in_range 0x20 0x7E) (bytes value) in
  key_ok && value_ok.

Definition of_profile (id what : string) : string := "profile '" +:+ shown id +:+ "': " +:+ what.

(** The settings, and a note of what was dropped. *)
(* src: crates/dnet-config/src/persist.rs:782-823 decode_profile *)
Definition decode_brutal (id : string) (kind : ProfileKind) (b : BrutalWire) :
    result PersistError (option (BandwidthPair * BrutalAcknowledgement) * list string) :=
  if negb (bool_decide (kind = Hysteria2)) then Err (invalid (of_profile id "only Hysteria 2 has a Brutal setting"))
  else if (bw_up b =? 0) || (bw_down b =? 0) || (MAX_BRUTAL_MBPS <? bw_up b) || (MAX_BRUTAL_MBPS <? bw_down b) then
    Err (invalid (of_profile id "the Brutal bandwidth is not a plausible pair"))
  else if negb (bw_warning b =? BRUTAL_WARNING_REVISION) then
    Ok (None, [of_profile id "Brutal congestion control was turned off because the warning it was accepted under has changed; enable it again to accept the new one"])
  else Ok (Some (mkBandwidthPair (bw_up b) (bw_down b), mkBrutalAcknowledgement (bw_warning b) (bw_at_unix b)), []).

(** The parameters are copied one by one, each checked first. *)
(* src: crates/dnet-config/src/persist.rs:764-780 decode_profile *)
Fixpoint decode_params (id : string) (params : ProfileParams) (l : list (string * string)) :
    result PersistError ProfileParams :=
  match l with
  | [] => Ok params
  | (key, value) :: l =>
      if negb (param_ok (key, value)) then Err (invalid (of_profile id "a parameter name or value is not allowed"))
      else decode_params id (params_set key value params) l
  end.

(* src: crates/dnet-config/src/persist.rs:747-830 decode_profile *)
Definition decode_profile (p : ProfileWire) : result PersistError (ProfileSettings * list string) :=
  kind ← ok_or (bundled_kind (pw_id p)) (invalid ("profile '" +:+ shown (pw_id p) +:+ "' is not one this build defines"));
  if MAX_PARAMS <? Z.of_nat (size (pw_params p)) then Err (invalid (of_profile (pw_id p) "too many parameters"))
  else
    params ← decode_params (pw_id p) params_new (map_to_list (pw_params p));
    '(brutal, notes) ← match pw_brutal p with None => Ok (None, []) | Some b => decode_brutal (pw_id p) kind b end;
    Ok ({| ps_id := pw_id p; ps_params := params; ps_brutal := brutal |}, notes).

(* src: crates/dnet-config/src/persist.rs:593-601 decode *)
Fixpoint decode_profiles (seen : list string) (l : list ProfileWire) :
    result PersistError (list ProfileSettings * list string) :=
  match l with
  | [] => Ok ([], [])
  | p :: l =>
      if bool_decide (pw_id p ∈ seen) then Err (invalid ("profile '" +:+ shown (pw_id p) +:+ "' appears twice"))
      else
        '(settings, notes) ← decode_profile p;
        '(rest, more) ← decode_profiles (pw_id p :: seen) l;
        Ok (settings :: rest, notes ++ more)
  end.

(** [None] is a panic of the rules' own constants. *)
(* src: crates/dnet-config/src/persist.rs:636-666 decode_rules *)
Definition decode_rule (index : Z) (r : RuleWire) : option (result PersistError RoutingRule) :=
  let bad why := invalid ("rule " +:+ pretty index +:+ ": " +:+ why) in
  let parts :=
    id ← ok_or (uuid_parse_str (rw_id r)) (bad "its id is not an id");
    matcher ←
      (if String.eqb (rw_kind r) "domain" then Ok (Domain (rw_value r))
       else if String.eqb (rw_kind r) "domain_suffix" then Ok (DomainSuffix (rw_value r))
       else if String.eqb (rw_kind r) "ip_cidr" then
         match cidr_parse (rw_value r) with Ok c => Ok (Cidr c) | Err _ => Err (bad "its address range is not valid") end
       else if String.eqb (rw_kind r) "application" then
         match plain_text (rw_value r) "a program path" with
         | Ok _ => Ok (Application (rw_value r))
         | Err _ => Err (bad "its program path is not allowed")
         end
       else Err (bad "it is not a kind of rule a person can add"));
    action ←
      (if String.eqb (rw_action r) "tunnel" then Ok Tunnel
       else if String.eqb (rw_action r) "bypass" then Ok Bypass
       else Err (bad "it is not an action a person's rule can have"));
    if rw_precedence r <? USER_RULES_START then Err (bad "it would outrank the built-in rules")
    else Ok (id, matcher, action) in
  match parts with
  | Err e => Some (Err e)
  | Ok (id, matcher, action) =>
      rule ← restored_user id matcher action (rw_precedence r);
      Some (match rule with Ok rule => Ok rule | Err _ => Err (bad "it is not a rule that can be applied") end)
  end.

(* src: crates/dnet-config/src/persist.rs:633-674 decode_rules *)
Fixpoint decode_rules_from (index : Z) (ids : list RuleId) (precedences : list Z) (l : list RuleWire) :
    option (result PersistError (list RoutingRule)) :=
  let bad why := invalid ("rule " +:+ pretty index +:+ ": " +:+ why) in
  match l with
  | [] => Some (Ok [])
  | r :: l =>
      decoded ← decode_rule index r;
      match decoded with
      | Err e => Some (Err e)
      | Ok rule =>
          if bool_decide (rule_id rule ∈ ids) then Some (Err (bad "its id is used twice"))
          else if bool_decide (precedence rule ∈ precedences) then Some (Err (bad "its precedence is used twice"))
          else
            rest ← decode_rules_from (index + 1) (rule_id rule :: ids) (precedence rule :: precedences) l;
            Some (rest ← rest; Ok (rule :: rest))
      end
  end.

(* src: crates/dnet-config/src/persist.rs:626-675 decode_rules *)
Definition decode_rules (l : list RuleWire) : option (result PersistError (list RoutingRule)) :=
  if MAX_USER_RULES <? Z.of_nat (length l) then Some (Err (invalid ("more than " +:+ pretty MAX_USER_RULES +:+ " rules")))
  else decode_rules_from 0 [] [] l.

(* src: crates/dnet-config/src/persist.rs:603-613 decode *)
Definition decode_consent (c : ConsentWire) : ConsentState * list string :=
  (from_stored (cw_policy c) (cw_disclosed_version c),
   if String.eqb (cw_policy c) "block" || String.eqb (cw_policy c) "allow" then []
   else ["the saved encrypted-DNS setting was not recognised, so the default (blocked) applies"]).

(* src: crates/dnet-config/src/persist.rs:572-624 decode *)
Definition decode_wire (wire : Wire) : option (result PersistError LoadedConfig) :=
  let first :=
    if MAX_ENDPOINTS <? Z.of_nat (length (w_endpoints wire)) then
      Err (invalid ("more than " +:+ pretty MAX_ENDPOINTS +:+ " endpoints"))
    else
      endpoints ← decode_endpoints 0 [] [] (w_endpoints wire);
      '(profiles, notes) ← decode_profiles [] (w_profiles wire);
      Ok (endpoints, profiles, notes) in
  match first with
  | Err e => Some (Err e)
  | Ok (endpoints, profiles, notes) =>
      let dns := decode_consent <$> w_encrypted_dns wire in
      rules ← decode_rules (w_rules wire);
      Some (
        rules ← rules;
        Ok {| lc_endpoints := endpoints; lc_profiles := profiles; lc_encrypted_dns := fst <$> dns; lc_rules := rules;
              lc_notes := notes ++ default [] (snd <$> dns) |})
  end.

(* src: crates/dnet-config/src/persist.rs:563-624 decode *)
Definition decode (bytes : string) : option (result PersistError LoadedConfig) :=
  let read :=
    if MAX_CONFIG_LEN <? str_len bytes then Err ConfigTooLarge
    else
      match version_from_slice bytes with
      | Err e => Err (Malformed e)
      | Ok version =>
          if negb (version =? FORMAT_VERSION) then Err (UnsupportedVersion version)
          else match wire_from_slice bytes with Err e => Err (Malformed e) | Ok wire => Ok wire end
      end in
  match read with Err e => Some (Err e) | Ok wire => decode_wire wire end.

(** ** Writing *)

Definition brutal_wire (b : BandwidthPair * BrutalAcknowledgement) : BrutalWire :=
  mkBrutalWire (up_mbps b.1) (down_mbps b.1) (warning_revision b.2) (acknowledged_at_unix b.2).

Definition settings_of (p : ConnectionProfile) : ProfileSettings := {|
  ps_id := profile_id p; ps_params := profile_params p;
  ps_brutal := (fun b => (bandwidth b, acknowledgement b)) <$> profile_brutal p;
|}.

(* src: crates/dnet-config/src/persist.rs:485-502 encode_config *)
Definition settings_wire (p : ProfileSettings) : ProfileWire :=
  mkProfileWire (ps_id p) (ps_params p) (brutal_wire <$> ps_brutal p).

(* src: crates/dnet-config/src/persist.rs:433-451 profile_wires *)
Definition profile_wires (profiles : list ConnectionProfile) : list ProfileWire :=
  map (fun p => mkProfileWire (profile_id p) (profile_params p)
    ((fun b => mkBrutalWire (up_mbps (bandwidth b)) (down_mbps (bandwidth b))
       (warning_revision (acknowledgement b)) (acknowledged_at_unix (acknowledgement b))) <$> profile_brutal p)) profiles.

(* src: crates/dnet-config/src/persist.rs:453-477 rule_wire *)
Definition rule_wire (rule : RoutingRule) : option RuleWire :=
  if is_builtin rule then None
  else
    '(kind, value) ←
      match matcher rule with
      | Domain d => Some ("domain", d)
      | DomainSuffix d => Some ("domain_suffix", d)
      | Cidr c => Some ("ip_cidr", cidr_to_string c)
      | Application p => Some ("application", p)
      | DnsPort | EncryptedDnsPort => None
      end;
    action ← match action rule with Tunnel => Some "tunnel" | Bypass => Some "bypass" | Capture | Reject => None end;
    Some (mkRuleWire (uuid_to_string (rule_id rule)) kind value action (precedence rule)).

(* src: crates/dnet-config/src/persist.rs:507-534 endpoint_wire *)
Definition endpoint_wire (e : Endpoint) : EndpointWire := {|
  ew_id := uuid_to_string (endpoint_id e);
  ew_label := endpoint_label e;
  ew_host := host (endpoint_address e);
  ew_port := port (endpoint_address e);
  ew_origin :=
    match endpoint_origin e with
    | Manual => mkOriginWire "manual" None None None
    | Provisioned provider region resource_ids => mkOriginWire "provisioned" (Some provider) (Some region) (Some resource_ids)
    end;
  ew_credential := store_key (endpoint_credentials e);
  ew_enabled := endpoint_enabled e;
|}.

Definition to_wire (endpoints : list Endpoint) (encrypted_dns : option ConsentState) (profiles : list ProfileWire)
    (rules : list RoutingRule) : Wire := {|
  w_version := FORMAT_VERSION;
  w_endpoints := map endpoint_wire endpoints;
  w_profiles := profiles;
  w_encrypted_dns := (fun c => let '(p, d) := to_stored c in mkConsentWire p d) <$> encrypted_dns;
  w_rules := omap rule_wire rules;
|}.

(* src: crates/dnet-config/src/persist.rs:536-559 finish *)
Definition finish (endpoints : list Endpoint) (encrypted_dns : option ConsentState) (profiles : list ProfileWire)
    (rules : list RoutingRule) : option (result PersistError string) :=
  let bytes := to_vec_pretty (to_wire endpoints encrypted_dns profiles rules) in
  read ← decode bytes;
  Some (_ ← read; Ok bytes).

(* src: crates/dnet-config/src/persist.rs:413-422 encode_with_rules *)
Definition encode_with_rules (endpoints : list Endpoint) (profiles : list ConnectionProfile)
    (encrypted_dns : option ConsentState) (rules : list RoutingRule) : option (result PersistError string) :=
  finish endpoints encrypted_dns (profile_wires profiles) rules.

(* src: crates/dnet-config/src/persist.rs:424-431 encode_full *)
Definition encode_full (endpoints : list Endpoint) (profiles : list ConnectionProfile)
    (encrypted_dns : option ConsentState) : option (result PersistError string) :=
  finish endpoints encrypted_dns (profile_wires profiles) [].

(* src: crates/dnet-config/src/persist.rs:402-411 encode *)
Definition encode (endpoints : list Endpoint) (profiles : list ConnectionProfile) : option (result PersistError string) :=
  encode_full endpoints profiles None.

(* src: crates/dnet-config/src/persist.rs:479-505 encode_config *)
Definition encode_config (config : LoadedConfig) : option (result PersistError string) :=
  finish (lc_endpoints config) (lc_encrypted_dns config) (map settings_wire (lc_profiles config)) (lc_rules config).

(** ** The file *)

(* src: crates/dnet-config/src/persist.rs:135-141 StateFile *)
Class StateFile (F : Type) : Type := {
  file_read : F → result string (option string);
  file_write : string → F → F * result string unit;
  file_remove : F → F * result string unit;
}.

Section Store.
Context {F : Type} `{!StateFile F}.

(* src: crates/dnet-config/src/persist.rs:153-159 ConfigStore::load *)
Definition load (file : F) : option (result PersistError (option LoadedConfig)) :=
  match file_read file with
  | Err e => Some (Err (Storage e))
  | Ok None => Some (Ok None)
  | Ok (Some bytes) => read ← decode bytes; Some (config ← read; Ok (Some config))
  end.

(* src: crates/dnet-config/src/persist.rs:171-176 ConfigStore::save_bytes *)
Definition save_bytes (bytes : string) (file : F) : F * result PersistError unit :=
  match file_write bytes file with
  | (file, Ok _) => (file, Ok ())
  | (file, Err e) => (file, Err (Storage e))
  end.

(* src: crates/dnet-config/src/persist.rs:161-169 ConfigStore::save *)
Definition save (endpoints : list Endpoint) (profiles : list ConnectionProfile) (file : F) :
    option (F * result PersistError unit) :=
  encoded ← encode endpoints profiles;
  Some (match encoded with Ok bytes => save_bytes bytes file | Err e => (file, Err e) end).

(* src: crates/dnet-config/src/persist.rs:178-182 ConfigStore::save_config *)
Definition save_config (config : LoadedConfig) (file : F) : option (F * result PersistError unit) :=
  encoded ← encode_config config;
  Some (match encoded with Ok bytes => save_bytes bytes file | Err e => (file, Err e) end).
End Store.

End Persist.

(** MemoryStateFile of crates/dnet-config/src/persist.rs:208-226. *)
#[export] Instance MemoryStateFile : StateFile (option string) := {|
  file_read file := Ok file;
  file_write bytes _ := (Some bytes, Ok ());
  file_remove _ := (None, Ok ());
|}.

(** * Lemmas *)

Lemma plain_text_ok value what u :
  plain_text value what = Ok u →
  1 ≤ str_len value ≤ 256 ∧ Forall (fun b => 0x20 ≤ byte_value b ≤ 0x7E) (bytes value).
Proof.
  unfold plain_text. destruct (_ || _ || _) eqn:E; [done|]. intros _.
  apply orb_false_iff in E as [[He Hl]%orb_false_iff Hb]. apply negb_false_iff in Hb. unfold MAX_TEXT_LEN in Hl.
  split; [split; [|lia]|].
  - destruct value; [done|]. unfold str_len. simpl. lia.
  - apply Forall_forall. intros b Hin. rewrite forallb_forall_elem in Hb. apply Hb in Hin. unfold in_range in Hin. lia.
Qed.

(** An endpoint as a file has it: what was measured of it is not kept. *)
Definition unmeasured (e : Endpoint) : Endpoint := set_health health_new e.

Section PersistLemmas.
Context `{UuidText, DebugText, ConfigText, !UuidLaws}.

Lemma decode_endpoint_inv w i e :
  decode_endpoint w i = Ok e →
  uuid_parse_str (ew_id w) = Some (endpoint_id e) ∧
  is_ok (plain_text (endpoint_label e) "") = true ∧ host_is_acceptable (host (endpoint_address e)) = true ∧
  address_new (ew_host w) (ew_port w) = Ok (endpoint_address e) ∧
  is_ok (secret_key_parse (endpoint_credentials e)) = true ∧
  decode_origin (at_endpoint i) (ew_origin w) = Ok (endpoint_origin e) ∧
  endpoint_new (endpoint_id e) (ew_label w) (endpoint_address e) (endpoint_origin e) {| store_key := ew_credential w |} =
    Ok (set_enabled true e) ∧
  endpoint_enabled e = ew_enabled w.
Proof.
  unfold decode_endpoint. destruct (negb _); [done|]. intros E. apply bind_Ok in E as (id & Hid & E).
  apply bind_Ok in E as (u & Hl & E). destruct (negb (host_is_acceptable _)) eqn:Eh; [done|].
  destruct (address_new _ _) as [addr|] eqn:Ea; [|done].
  destruct (secret_key_parse _) as [k|] eqn:Ek; [|done].
  apply bind_Ok in E as (o & Ho & E). destruct (endpoint_new _ _ _ _ _) as [e'|] eqn:En; [|done]. injection E as <-.
  unfold ok_or in Hid. destruct (uuid_parse_str (ew_id w)) eqn:Eid; [|done]. injection Hid as ->.
  unfold address_new in Ea. destruct (str_is_empty _); [done|]. destruct (ew_port w =? 0); [done|]. injection Ea as <-.
  unfold endpoint_new in En |- *. destruct (_ || _); [done|]. injection En as <-. simpl.
  split_and!; try done.
  - unfold plain_text in *. by destruct (_ || _ || _).
  - by apply negb_false_iff in Eh.
  - by rewrite Ek.
Qed.

Lemma decode_origin_wire at_ o o' :
  decode_origin at_ (match o with
    | Manual => mkOriginWire "manual" None None None
    | Provisioned p r ids => mkOriginWire "provisioned" (Some p) (Some r) (Some ids) end) = Ok o' → o' = o.
Proof.
  unfold decode_origin. destruct o as [p r ids|]; simpl.
  - intros E. apply bind_Ok in E as (? & _ & E). apply bind_Ok in E as (? & _ & E).
    destruct (_ <? _); [done|]. apply bind_Ok in E as (? & _ & E). by injection E as <-.
  - by intros [= <-].
Qed.

Lemma decode_endpoint_wire e i e' : decode_endpoint (endpoint_wire e) i = Ok e' → e' = unmeasured e.
Proof.
  intros (Hid & _ & _ & Ha & _ & Ho & Hn & Hen)%decode_endpoint_inv. simpl in *.
  apply uuid_reads_itself in Hid. apply decode_origin_wire in Ho.
  destruct e as [id l [h p] o [k] he en], e' as [id' l' a' o' k' he' en']. simpl in *. subst.
  unfold address_new in Ha. destruct (str_is_empty _); [done|]. destruct (p =? 0); [done|]. injection Ha as <-.
  unfold endpoint_new in Hn. destruct (_ || _); [done|]. unfold set_enabled in Hn. simpl in Hn.
  injection Hn as <- <- <-. done.
Qed.

Lemma decode_endpoints_wire i ids labels es es' :
  decode_endpoints i ids labels (map endpoint_wire es) = Ok es' → es' = map unmeasured es.
Proof.
  revert i ids labels es'. induction es as [|e es IH]; intros i ids labels es'; simpl; [by intros [= <-]|].
  intros E. apply bind_Ok in E as (e' & He & E). repeat (case_bool_decide; [done|]).
  apply bind_Ok in E as (rest & Hr & E). injection E as <-. apply decode_endpoint_wire in He as ->. f_equal. by eapply IH.
Qed.

Lemma decode_params_ok id ps l ps' :
  decode_params id ps l = Ok ps' → ps' = foldl (fun ps kv => <[kv.1 := kv.2]> ps) ps l ∧ Forall (fun kv => param_ok kv = true) l.
Proof.
  revert ps. induction l as [|[k v] l IH]; intros ps; [by intros [= <-]|]. cbn [decode_params foldl fst snd].
  destruct (param_ok (k, v)) eqn:E; [|done]. cbn [negb]. intros [-> Hl]%IH. split; [done|]. by constructor.
Qed.

Lemma copy_params (m : gmap string string) : foldl (fun ps kv => <[kv.1 := kv.2]> ps) (∅ : gmap string string) (map_to_list m) = m.
Proof.
  rewrite <-(list_to_map_to_list m) at 2. pose proof (NoDup_fst_map_to_list m) as Hnd.
  generalize (map_to_list m), Hnd. clear. intros l Hnd.
  enough (∀ acc : gmap string string, foldl (fun ps kv => <[kv.1:=kv.2]> ps) acc l = list_to_map l ∪ acc) as ->.
  { by rewrite map_union_empty. }
  induction l as [|[k v] l IH]; intros acc; simpl; [by rewrite map_empty_union|].
  apply NoDup_cons in Hnd as [Hk Hnd]. rewrite IH by done.
  rewrite <-insert_union_l, insert_union_r; [done|]. apply not_elem_of_list_to_map_1. exact Hk.
Qed.

Lemma decode_profile_wire p s notes :
  (∀ b, ps_brutal p = Some b → is_current b.2 = true) →
  decode_profile (settings_wire p) = Ok (s, notes) → s = p ∧ notes = [].
Proof.
  intros Hb. unfold decode_profile. simpl. intros E. apply bind_Ok in E as (k & _ & E).
  destruct (_ <? _); [done|]. apply bind_Ok in E as (ps & Hps & E). apply decode_params_ok in Hps as [-> _].
  unfold params_new in E. rewrite copy_params in E. apply bind_Ok in E as ([br nt] & Hbr & E). injection E as <- <-.
  destruct p as [id params [[bw ack]|]]; simpl in *; [|by injection Hbr as <- <-].
  unfold decode_brutal in Hbr. destruct (negb (bool_decide _)); [done|]. destruct (_ || _ || _ || _); [done|].
  specialize (Hb _ eq_refl). unfold is_current in Hb. simpl in *. rewrite Hb in Hbr. simpl in Hbr.
  injection Hbr as <- <-. by destruct bw, ack.
Qed.

Lemma decode_profiles_wire seen ps ss notes :
  (∀ p b, p ∈ ps → ps_brutal p = Some b → is_current b.2 = true) →
  decode_profiles seen (map settings_wire ps) = Ok (ss, notes) → ss = ps ∧ notes = [].
Proof.
  revert seen ss notes. induction ps as [|p ps IH]; intros seen ss notes Hb; simpl; [by intros [= <- <-]|].
  case_bool_decide; [done|]. intros E. apply bind_Ok in E as ([s n] & Hs & E).
  apply bind_Ok in E as ([rest more] & Hr & E). injection E as <- <-.
  apply decode_profile_wire in Hs as [-> ->]; [|intros b; apply Hb; set_solver].
  apply IH in Hr as [-> ->]; [done|]. intros p' b Hp'. apply Hb. set_solver.
Qed.

Lemma profile_wires_settings ps : profile_wires ps = map settings_wire (map settings_of ps).
Proof. unfold profile_wires. rewrite map_map. apply map_ext. intros p. unfold settings_wire, settings_of. simpl. by destruct (profile_brutal p). Qed.

Lemma stored_consent_reads_back c : disclosed c ≠ Some 0 →
  decode_consent (let '(p, d) := to_stored c in mkConsentWire p d) = (c, []).
Proof.
  destruct c as [[] [d|]]; intros Hd; unfold decode_consent, to_stored, from_stored; simpl; try done.
  all: destruct (Z.eqb_spec d 0) as [->|]; [done|done].
Qed.

Lemma stored_choice_reads_back es dns ps rules : (∀ c, dns = Some c → disclosed c ≠ Some 0) →
  decode_consent <$> w_encrypted_dns (to_wire es dns ps rules) = (λ c, (c, [])) <$> dns.
Proof.
  intros Hdns. destruct dns as [c|]; [|done]. cbn. f_equal. apply stored_consent_reads_back. by apply Hdns.
Qed.

(** What a rule read from a file is: a person's, with what the file says. *)
Lemma decode_rule_inv i w r :
  decode_rule i w = Some (Ok r) →
  uuid_parse_str (rw_id w) = Some (rule_id r) ∧ precedence r = rw_precedence w ∧ USER_RULES_START ≤ precedence r ∧
  is_builtin r = false ∧ (action r = Tunnel ∨ action r = Bypass) ∧ matcher r ≠ DnsPort ∧ matcher r ≠ EncryptedDnsPort ∧
  ((rw_kind w = "domain" ∧ matcher r = Domain (rw_value w)) ∨ (rw_kind w = "domain_suffix" ∧ matcher r = DomainSuffix (rw_value w)) ∨
   (rw_kind w = "ip_cidr" ∧ ∃ c, cidr_parse (rw_value w) = Ok c ∧ matcher r = Cidr c) ∨
   (rw_kind w = "application" ∧ matcher r = Application (rw_value w))) ∧
  rw_action w = match action r with Tunnel => "tunnel" | _ => "bypass" end ∧
  build (rule_id r) (matcher r) (action r) (precedence r) false = Some (Ok r).
Proof.
  unfold decode_rule. set (bad := fun why => _).
  destruct (mbind _ (ok_or (uuid_parse_str (rw_id w)) _)) as [[[id m] a]|] eqn:E; [|done].
  intros (rule & Hrule & Hr)%bind_Some. destruct rule as [rule|]; [|done]. injection Hr as ->.
  apply bind_Ok in E as (id' & Hid & E). apply bind_Ok in E as (m' & Hm & E). apply bind_Ok in E as (a' & Ha & E).
  destruct (Z.ltb_spec (rw_precedence w) USER_RULES_START); [done|]. injection E as -> -> ->.
  unfold restored_user in Hrule. destruct (negb _); [done|]. pose proof (build_ok _ _ _ _ _ _ Hrule) as [-> _]. simpl.
  unfold ok_or in Hid. destruct (uuid_parse_str (rw_id w)); [|done]. injection Hid as ->.
  assert ((a = Tunnel ∨ a = Bypass) ∧ rw_action w = match a with Tunnel => "tunnel" | _ => "bypass" end) as [Hact Hw].
  { destruct (String.eqb_spec (rw_action w) "tunnel"); [injection Ha as <-; auto|].
    destruct (String.eqb_spec (rw_action w) "bypass"); [injection Ha as <-; auto|done]. }
  split_and!; try done.
  all: destruct (String.eqb_spec (rw_kind w) "domain"); [injection Hm as <-; auto|].
  all: destruct (String.eqb_spec (rw_kind w) "domain_suffix"); [injection Hm as <-; auto|].
  all: destruct (String.eqb_spec (rw_kind w) "ip_cidr");
    [destruct (cidr_parse _) as [c|]; [injection Hm as <-|done]; try done; eauto 8|].
  all: destruct (String.eqb_spec (rw_kind w) "application"); [|done].
  all: destruct (plain_text _ _); [|done]; injection Hm as <-; try done; auto.
Qed.

Lemma decode_rule_wire i r w r' :
  rule_wire r = Some w → (∀ c, matcher r = Cidr c → cidr_ok c) → decode_rule i w = Some (Ok r') → r' = r.
Proof.
  intros Hw Hc (Hid & Hp & _ & Hb & Ha & _ & _ & Hm & Hact & _)%decode_rule_inv.
  unfold rule_wire in Hw. destruct (is_builtin r) eqn:Er; [done|].
  apply bind_Some in Hw as ([kind value] & Hk & Hw). apply bind_Some in Hw as (act & Hac & Hw). injection Hw as <-.
  simpl in *. apply uuid_reads_itself in Hid.
  destruct r as [id m a p b], r' as [id' m' a' p' b']. simpl in *. subst.
  assert (a' = a) as -> by (destruct a, a'; destruct Ha as [Ha|Ha]; try done; injection Hac as Hac; congruence).
  f_equal. destruct m; simplify_eq; destruct Hm as [[? ?]|[[? ?]|[[? (c' & Hc' & ?)]|[? ?]]]]; simplify_eq; try done.
  rewrite cidr_text_reads_back in Hc' by by apply Hc. congruence.
Qed.

Lemma decode_rules_wire i ids ps rs rs' :
  (∀ r c, r ∈ rs → matcher r = Cidr c → cidr_ok c) →
  decode_rules_from i ids ps (omap rule_wire rs) = Some (Ok rs') →
  rs' = List.filter (fun r => bool_decide (is_Some (rule_wire r))) rs.
Proof.
  revert i ids ps rs'. induction rs as [|r rs IH]; intros i ids ps rs' Hc; [by intros [= <-]|].
  assert (∀ r c, r ∈ rs → matcher r = Cidr c → cidr_ok c) as Hc' by (intros r' c Hr'; apply Hc; set_solver).
  simpl. destruct (rule_wire r) as [w|] eqn:Ew; [|by apply IH].
  simpl. intros (d & Hd & E)%bind_Some. destruct d as [r'|]; [|done]. repeat (case_bool_decide; [done|]).
  apply bind_Some in E as (rest & Hr & E). destruct rest as [rest|]; [|done]. injection E as <-.
  apply decode_rule_wire with (r := r) in Hd as ->; [|done|intros c; apply Hc; set_solver].
  f_equal. by eapply IH.
Qed.

Lemma decode_wire_of bytes w cfg :
  wire_from_slice bytes = Ok w → decode bytes = Some (Ok cfg) → decode_wire w = Some (Ok cfg).
Proof.
  intros Hw. unfold decode. destruct (_ <? _); [done|]. destruct (version_from_slice bytes); [|done].
  destruct (negb _); [done|]. by rewrite Hw.
Qed.

Lemma decode_wire_parts w cfg :
  decode_wire w = Some (Ok cfg) →
  Z.of_nat (length (w_endpoints w)) ≤ MAX_ENDPOINTS ∧
  decode_endpoints 0 [] [] (w_endpoints w) = Ok (lc_endpoints cfg) ∧
  (∃ notes, decode_profiles [] (w_profiles w) = Ok (lc_profiles cfg, notes) ∧
     lc_notes cfg = notes ++ default [] (snd <$> (decode_consent <$> w_encrypted_dns w))) ∧
  lc_encrypted_dns cfg = fst <$> (decode_consent <$> w_encrypted_dns w) ∧
  decode_rules (w_rules w) = Some (Ok (lc_rules cfg)).
Proof.
  unfold decode_wire. destruct (Z.ltb_spec MAX_ENDPOINTS (Z.of_nat (length (w_endpoints w)))); [done|].
  destruct (mbind _ (decode_endpoints _ _ _ _)) as [[[es ps] ns]|] eqn:E; [|done].
  intros (rs & Hrs & Hc)%bind_Some. destruct rs as [rs|]; [|done]. injection Hc as <-.
  apply bind_Ok in E as (es' & Hes & E). apply bind_Ok in E as ([ps' ns'] & Hps & E). injection E as -> -> ->.
  simpl. split_and!; [done|done|by exists ns|done|done].
Qed.

(** What a configuration that was read is. *)
Record config_valid (cfg : LoadedConfig) : Prop := {
  cv_count : Z.of_nat (length (lc_endpoints cfg)) ≤ MAX_ENDPOINTS;
  cv_ids : NoDup (map endpoint_id (lc_endpoints cfg));
  cv_labels : NoDup (map endpoint_label (lc_endpoints cfg));
  cv_endpoints e : e ∈ lc_endpoints cfg →
    1 ≤ str_len (endpoint_label e) ≤ 256 ∧ Forall (fun b => 0x20 ≤ byte_value b ≤ 0x7E) (bytes (endpoint_label e)) ∧
    char_count (endpoint_label e) ≤ 64 ∧ uuid_known (endpoint_id e) ∧
    host_is_acceptable (host (endpoint_address e)) = true ∧ port (endpoint_address e) ≠ 0 ∧
    is_ok (secret_key_parse (endpoint_credentials e)) = true ∧ endpoint_health e = health_new;
  cv_profiles : NoDup (map ps_id (lc_profiles cfg));
  cv_settings p : p ∈ lc_profiles cfg → ∃ kind, bundled_kind (ps_id p) = Some kind ∧
    ∀ b, ps_brutal p = Some b → kind = Hysteria2 ∧ is_current b.2 = true ∧
      up_mbps b.1 ≠ 0 ∧ up_mbps b.1 ≤ MAX_BRUTAL_MBPS ∧ down_mbps b.1 ≠ 0 ∧ down_mbps b.1 ≤ MAX_BRUTAL_MBPS;
  cv_consent c : lc_encrypted_dns cfg = Some c → disclosed c ≠ Some 0;
  cv_rule_count : Z.of_nat (length (lc_rules cfg)) ≤ MAX_USER_RULES;
  cv_rule_ids : NoDup (map rule_id (lc_rules cfg));
  cv_precedences : NoDup (map precedence (lc_rules cfg));
  cv_rules r : r ∈ lc_rules cfg →
    USER_RULES_START ≤ precedence r ∧ is_builtin r = false ∧ (action r = Tunnel ∨ action r = Bypass) ∧
    matcher r ≠ DnsPort ∧ matcher r ≠ EncryptedDnsPort ∧ (∀ c, matcher r = Cidr c → cidr_ok c) ∧
    build (rule_id r) (matcher r) (action r) (precedence r) false = Some (Ok r) ∧ is_Some (rule_wire r);
}.

Lemma decode_endpoints_valid i ids labels ws es :
  decode_endpoints i ids labels ws = Ok es →
  length es = length ws ∧ NoDup (map endpoint_id es) ∧ NoDup (map endpoint_label es) ∧
  (∀ e, e ∈ es → endpoint_id e ∉ ids ∧ endpoint_label e ∉ labels ∧ ∃ w j, decode_endpoint w j = Ok e).
Proof.
  revert i ids labels es. induction ws as [|w ws IH]; intros i ids labels es; simpl.
  { intros [= <-]. split_and!; [done|constructor|constructor|by intros e ?%elem_of_nil]. }
  intros E. apply bind_Ok in E as (e & He & E). case_bool_decide as Hi; [done|]. case_bool_decide as Hl; [done|].
  apply bind_Ok in E as (rest & Hr & E). injection E as <-. apply IH in Hr as (Hlen & Hids & Hlabels & Hall).
  split_and!; [by f_equal/=| | |].
  - simpl. apply NoDup_cons. split; [|done]. intros (e' & Heq & He')%elem_of_map.
    destruct (Hall e' He') as [Hn _]. rewrite <-Heq in Hn. set_solver.
  - simpl. apply NoDup_cons. split; [|done]. intros (e' & Heq & He')%elem_of_map.
    destruct (Hall e' He') as (_ & Hn & _). rewrite <-Heq in Hn. set_solver.
  - intros e' [->|He']%elem_of_cons; [by eauto|]. destruct (Hall e' He') as (H3 & H4 & H5). split_and!; [set_solver..|done].
Qed.

Lemma decode_profiles_valid seen ws ps notes :
  decode_profiles seen ws = Ok (ps, notes) →
  NoDup (map ps_id ps) ∧ (∀ p, p ∈ ps → ps_id p ∉ seen ∧ ∃ w n, decode_profile w = Ok (p, n)).
Proof.
  revert seen ps notes. induction ws as [|w ws IH]; intros seen ps notes; simpl.
  { intros [= <- <-]. split; [constructor|by intros p ?%elem_of_nil]. }
  case_bool_decide as Hseen; [done|]. intros E. apply bind_Ok in E as ([p n] & Hp & E).
  apply bind_Ok in E as ([rest more] & Hr & E). injection E as <- <-. apply IH in Hr as [Hnd Hall].
  assert (ps_id p = pw_id w) as Hid.
  { unfold decode_profile in Hp. unbind Hp. destruct (_ <? _); [done|]. unbind Hp. destruct u1. by injection Hp as <- <-. }
  split.
  - simpl. apply NoDup_cons. split; [|done]. intros (p' & Heq & Hp')%elem_of_map.
    destruct (Hall p' Hp') as [Hn _]. rewrite <-Heq, Hid in Hn. set_solver.
  - intros p' [->|Hp']%elem_of_cons; [split; [by rewrite Hid|eauto]|]. destruct (Hall p' Hp') as [Hn Hw].
    split; [set_solver|done].
Qed.

Lemma decode_rules_valid i ids ps ws rs :
  decode_rules_from i ids ps ws = Some (Ok rs) →
  length rs = length ws ∧ NoDup (map rule_id rs) ∧ NoDup (map precedence rs) ∧
  (∀ r, r ∈ rs → rule_id r ∉ ids ∧ precedence r ∉ ps ∧ ∃ w j, decode_rule j w = Some (Ok r)).
Proof.
  revert i ids ps rs. induction ws as [|w ws IH]; intros i ids ps rs; cbn [decode_rules_from].
  { intros [= <-]. split_and!; [done|constructor|constructor|by intros r ?%elem_of_nil]. }
  intros (d & Hd & E)%bind_Some. destruct d as [r|]; [|done]. case_bool_decide as Hi; [done|]. case_bool_decide as Hp; [done|].
  apply bind_Some in E as (rest & Hr & E). destruct rest as [rest|]; [|done]. injection E as <-.
  apply IH in Hr as (Hlen & Hids & Hps & Hall). split_and!; [by f_equal/=| | |].
  - simpl. apply NoDup_cons. split; [|done]. intros (r' & Heq & Hr')%elem_of_map.
    destruct (Hall r' Hr') as [Hn _]. rewrite <-Heq in Hn. set_solver.
  - simpl. apply NoDup_cons. split; [|done]. intros (r' & Heq & Hr')%elem_of_map.
    destruct (Hall r' Hr') as (_ & Hn & _). rewrite <-Heq in Hn. set_solver.
  - intros r' [->|Hr']%elem_of_cons; [by eauto|]. destruct (Hall r' Hr') as (H3 & H4 & H5). split_and!; [set_solver..|done].
Qed.

Lemma decode_endpoint_valid w i e :
  decode_endpoint w i = Ok e →
  1 ≤ str_len (endpoint_label e) ≤ 256 ∧ Forall (fun b => 0x20 ≤ byte_value b ≤ 0x7E) (bytes (endpoint_label e)) ∧
  char_count (endpoint_label e) ≤ 64 ∧ uuid_known (endpoint_id e) ∧
  host_is_acceptable (host (endpoint_address e)) = true ∧ port (endpoint_address e) ≠ 0 ∧
  is_ok (secret_key_parse (endpoint_credentials e)) = true ∧ endpoint_health e = health_new.
Proof.
  intros (Hid & Hl & Hh & Ha & Hk & _ & Hn & _)%decode_endpoint_inv.
  destruct (plain_text (endpoint_label e) "") as [u|] eqn:Ep; [|done]. apply plain_text_ok in Ep as [? ?].
  unfold endpoint_new in Hn. destruct (_ || _) eqn:El; [done|]. apply orb_false_iff in El as [_ El].
  destruct e as [id l a o k h en]. unfold set_enabled in Hn. simpl in *. injection Hn as <- <- <-.
  unfold address_new in Ha. destruct (str_is_empty _); [done|].
  destruct (Z.eqb_spec (ew_port w) 0) as [|Hport]; [done|]. injection Ha as <-.
  unfold Endpoint.MAX_LABEL_LEN in El. split_and!; try done; try lia. by eexists.
Qed.

Lemma decode_profile_valid w p n :
  decode_profile w = Ok (p, n) → ∃ kind, bundled_kind (ps_id p) = Some kind ∧
    ∀ b, ps_brutal p = Some b → kind = Hysteria2 ∧ is_current b.2 = true ∧
      up_mbps b.1 ≠ 0 ∧ up_mbps b.1 ≤ MAX_BRUTAL_MBPS ∧ down_mbps b.1 ≠ 0 ∧ down_mbps b.1 ≤ MAX_BRUTAL_MBPS.
Proof.
  unfold decode_profile. intros E. apply bind_Ok in E as (kind & Hk & E). destruct (_ <? _); [done|].
  apply bind_Ok in E as (params & _ & E). apply bind_Ok in E as ([br notes] & Hbr & E). injection E as <- <-. simpl.
  exists kind. split; [unfold ok_or in Hk; destruct (bundled_kind _); [congruence|done]|].
  intros b ->. destruct (pw_brutal w) as [bw|]; [|done]. unfold decode_brutal in Hbr.
  case_bool_decide; [|done]. simpl in Hbr.
  destruct (Z.eqb_spec (bw_up bw) 0); [done|]. destruct (Z.eqb_spec (bw_down bw) 0); [done|]. simpl in Hbr.
  destruct (Z.ltb_spec MAX_BRUTAL_MBPS (bw_up bw)); [done|]. destruct (Z.ltb_spec MAX_BRUTAL_MBPS (bw_down bw)); [done|].
  simpl in Hbr. destruct (bw_warning bw =? BRUTAL_WARNING_REVISION) eqn:Ew; [|done]. injection Hbr as <- <-. done.
Qed.

Lemma decode_wire_valid w cfg : decode_wire w = Some (Ok cfg) → config_valid cfg.
Proof.
  intros (Hcount & Hes & (notes & Hps & _) & Hd & Hrs)%decode_wire_parts.
  apply decode_endpoints_valid in Hes as (Hlen & Hids & Hlabels & Hes).
  apply decode_profiles_valid in Hps as [Hpnd Hps].
  unfold decode_rules in Hrs. destruct (Z.ltb_spec MAX_USER_RULES (Z.of_nat (length (w_rules w)))); [done|].
  apply decode_rules_valid in Hrs as (Hrlen & Hrids & Hprec & Hrs).
  split; try done; try lia.
  - intros e He. destruct (Hes e He) as (_ & _ & w' & j & Hw). by eapply decode_endpoint_valid.
  - intros p Hp. destruct (Hps p Hp) as (_ & w' & n & Hw). by eapply decode_profile_valid.
  - intros c Hc. rewrite Hd in Hc. destruct (w_encrypted_dns w) as [x|]; [|done]. injection Hc as <-. simpl.
    by destruct (Z.eqb_spec (cw_disclosed_version x) 0) as [?|]; simpl; congruence.
  - intros r Hr. destruct (Hrs r Hr) as (_ & _ & w' & j & Hw).
    apply decode_rule_inv in Hw as (_ & _ & Hstart & Hb & Ha & Hm1 & Hm2 & Hm & _ & Hbuild).
    split_and!; try done.
    + intros c Hc. destruct Hm as [[? ?]|[[? ?]|[[? (c' & Hc' & ?)]|[? ?]]]]; simplify_eq; try congruence.
      replace c with c' by congruence. by eapply cidr_parse_ok.
    + unfold rule_wire. rewrite Hb. destruct (matcher r); try done; destruct (action r), Ha; done.
Qed.

(** What was encoded reads back. *)
Lemma encoded_reads_back endpoints profiles dns rules bytes
    (Hbrutal : ∀ p b, p ∈ profiles → profile_brutal p = Some b → is_current (acknowledgement b) = true)
    (Hdns : ∀ c, dns = Some c → disclosed c ≠ Some 0)
    (Hrules : ∀ r c, r ∈ rules → matcher r = Cidr c → cidr_ok c)
    (Htext : let w := to_wire endpoints dns (profile_wires profiles) rules in wire_from_slice (to_vec_pretty w) = Ok w)
    (Hsaved : encode_with_rules endpoints profiles dns rules = Some (Ok bytes)) :
  decode bytes = Some (Ok {|
    lc_endpoints := map unmeasured endpoints;
    lc_profiles := map settings_of profiles;
    lc_encrypted_dns := dns;
    lc_rules := List.filter (fun r => bool_decide (is_Some (rule_wire r))) rules;
    lc_notes := [] |}).
Proof.
  unfold encode_with_rules, finish in Hsaved. apply bind_Some in Hsaved as (read & Hread & Hsaved).
  destruct read as [cfg|]; [|done]. injection Hsaved as <-. rewrite Hread. do 2 f_equal.
  pose proof (decode_wire_of _ _ _ Htext Hread) as (_ & Hes & (notes & Hps & Hnotes) & Hd & Hrs)%decode_wire_parts.
  rewrite stored_choice_reads_back in Hnotes, Hd by done. simpl in *. apply decode_endpoints_wire in Hes. rewrite profile_wires_settings in Hps.
  apply decode_profiles_wire in Hps as [Hps ->].
  2:{ intros p b (p' & -> & Hp')%elem_of_map. simpl. destruct (profile_brutal p') as [b'|] eqn:Eb; [|done].
      intros [= <-]. simpl. by eapply Hbrutal. }
  unfold decode_rules in Hrs. destruct (_ <? _); [done|]. apply decode_rules_wire in Hrs; [|done].
  destruct cfg as [es ps d rs ns]. simpl in *. subst. f_equal.
  all: by destruct dns.
Qed.

Lemma decode_valid bytes cfg : decode bytes = Some (Ok cfg) → config_valid cfg ∧ str_len bytes ≤ MAX_CONFIG_LEN.
Proof.
  intros Hread. unfold decode in Hread. destruct (Z.ltb_spec MAX_CONFIG_LEN (str_len bytes)); [done|]. split; [|done].
  destruct (version_from_slice bytes); [|done]. destruct (negb _); [done|]. destruct (wire_from_slice bytes); [|done].
  by eapply decode_wire_valid.
Qed.

(** Reading never panics. *)
Lemma decode_rule_total i w : is_Some (decode_rule i w).
Proof.
  unfold decode_rule. cbv zeta. destruct (mbind _ _) as [[[id m] a]|]; [|by eexists]. unfold restored_user.
  destruct (negb _); [by eexists|]. destruct (build_total id m a (rw_precedence w) false) as [x ->]. by eexists.
Qed.

Lemma decode_rules_total ws i ids ps : is_Some (decode_rules_from i ids ps ws).
Proof.
  revert i ids ps. induction ws as [|w ws IH]; intros i ids ps; [by eexists|]. cbn [decode_rules_from].
  destruct (decode_rule_total i w) as [[r|e] ->]; cbn [mbind option_bind]; [|by eexists].
  case_bool_decide; [by eexists|]. case_bool_decide; [by eexists|].
  destruct (IH (i + 1) (rule_id r :: ids) (precedence r :: ps)) as [x ->]. by eexists.
Qed.

Lemma decode_total bytes : is_Some (decode bytes).
Proof.
  unfold decode. destruct (if MAX_CONFIG_LEN <? _ then _ else _) as [w|]; [|by eexists]. unfold decode_wire.
  destruct (if MAX_ENDPOINTS <? _ then _ else _) as [[[es ps] ns]|]; [|by eexists].
  unfold decode_rules. destruct (_ <? _); [by eexists|]. destruct (decode_rules_total (w_rules w) 0 [] []) as [x ->].
  by eexists.
Qed.
End PersistLemmas.

(** * Properties *)

(** A configuration that is saved reads back as what was saved: every endpoint with its id, name, address, origin,
    key and switch, less only what was measured of it; every profile's settings; the encrypted-DNS choice; and, of
    the rules, exactly those a person made. *)
Theorem saved_configuration_reads_back `{UuidText, DebugText, ConfigText, !UuidLaws} endpoints profiles dns rules bytes
    (Hbrutal : ∀ p b, p ∈ profiles → profile_brutal p = Some b → is_current (acknowledgement b) = true)
    (Hdns : ∀ c, dns = Some c → disclosed c ≠ Some 0)
    (Hrules : ∀ r c, r ∈ rules → matcher r = Cidr c → cidr_ok c)
    (Htext : let w := to_wire endpoints dns (profile_wires profiles) rules in wire_from_slice (to_vec_pretty w) = Ok w)
    (Hsaved : encode_with_rules endpoints profiles dns rules = Some (Ok bytes)) :
  decode bytes = Some (Ok {|
    lc_endpoints := map unmeasured endpoints;
    lc_profiles := map settings_of profiles;
    lc_encrypted_dns := dns;
    lc_rules := List.filter (fun r => bool_decide (is_Some (rule_wire r))) rules;
    lc_notes := [] |}).
Proof. by apply encoded_reads_back. Qed.

(** Nothing a planted file holds gets past the reader outside its bounds: of a configuration that is read, the
    endpoints have ids and names of their own, names and hosts and keys a client could have given, and no
    measurements; the profiles are the catalogue's, once each, with Brutal only where it applies, plausible and
    accepted under the warning in force; and the rules are ones a person may make, after every built-in. *)
Theorem loaded_configuration_is_valid `{UuidText, DebugText, ConfigText, !UuidLaws} bytes cfg
    (Hread : decode bytes = Some (Ok cfg)) : config_valid cfg ∧ str_len bytes ≤ MAX_CONFIG_LEN.
Proof. by apply decode_valid. Qed.

Import ToyText.

Module SavedDemo.
Definition id : string := "67e55044-10b1-426f-9247-bb680e5fe0c8".
Definition wire : Wire := {|
  w_version := 1;
  w_endpoints := [{| ew_id := id; ew_label := "home"; ew_host := "198.51.100.7"; ew_port := 443;
    ew_origin := mkOriginWire "manual" None None None; ew_credential := "endpoint-7"; ew_enabled := true |}];
  w_profiles := [mkProfileWire "hy2-default" ∅ (Some (mkBrutalWire 50 200 1 1700000000))];
  w_encrypted_dns := Some (mkConsentWire "block" 1);
  w_rules := [mkRuleWire id "ip_cidr" "198.51.100.0/24" "bypass" 200];
|}.
#[export] Instance text : ConfigText := {|
  to_vec_pretty _ := "saved";
  wire_from_slice s := if String.eqb s "saved" then Ok wire else Err "eof";
  version_from_slice s := if String.eqb s "saved" then Ok 1 else Err "eof";
|}.
Definition home : Endpoint := {|
  endpoint_id := 7; endpoint_label := "home"; endpoint_address := mkEndpointAddress "198.51.100.7" 443;
  endpoint_origin := Manual; endpoint_credentials := {| store_key := "endpoint-7" |};
  endpoint_health := health_new; endpoint_enabled := true |}.
Definition fast : ConnectionProfile := {|
  profile_id := "hy2-default"; profile_kind := Hysteria2; profile_tier := Tier1; profile_params := ∅;
  profile_viability := Untested;
  profile_brutal := Some (mkBrutalOptIn (mkBandwidthPair 50 200) (mkBrutalAcknowledgement 1 1700000000)) |}.
Definition block : IpCidr := mkIpCidr (V4 3325256704) 24.
Definition rule : RoutingRule := mkRoutingRule 7 (Cidr block) Bypass 200 false.
Definition asked : ConsentState := mkConsentState Block (Some 1).
End SavedDemo.
Import SavedDemo.

Lemma saved_configuration_reads_back_witness :
  decode "saved" = Some (Ok {|
    lc_endpoints := [home]; lc_profiles := [settings_of fast]; lc_encrypted_dns := Some asked; lc_rules := [rule];
    lc_notes := [] |}).
Proof.
  refine (saved_configuration_reads_back [home] [fast] (Some asked) [rule] "saved" _ _ _ _ _).
  - intros p b ->%list_elem_of_singleton. intros [= <-]. reflexivity.
  - intros c [= <-]. discriminate.
  - intros r c ->%list_elem_of_singleton. intros [= <-]. vm_compute. repeat split; discriminate.
  - vm_compute. reflexivity.
  - vm_compute. reflexivity.
Defined.

Lemma loaded_configuration_is_valid_witness :
  ∃ cfg, decode "saved" = Some (Ok cfg) ∧ config_valid cfg ∧ length (lc_rules cfg) = 1%nat.
Proof.
  destruct (decode "saved") as [[cfg|]|] eqn:E; [|vm_compute in E; discriminate E..].
  exists cfg. split; [reflexivity|]. split; [exact (proj1 (loaded_configuration_is_valid "saved" cfg E))|].
  vm_compute in E. injection E as <-. reflexivity.
Defined.
