(* ===== verification/TrustedFile.v ===== *)
(** A state file that only SYSTEM and Administrators control: how it is read, replaced and removed, on a disk whose every
    operation may fail (crates/dnet-config/src/trusted_file.rs), and what that makes of a [StateFile]
    (crates/dnet-config/src/persist.rs). *)

From Stdlib Require Import Ascii.
From S2P Require Import Prelude IpText Text Persist.

(** * Definitions

    ** Whom a file is trusted to *)

(** [str::split_once] at a pattern. *)
Fixpoint split_once_at (p s : string) : option (string * string) :=
  match strip_prefix p s with
  | Some rest => Some (EmptyString, rest)
  | None =>
      match s with
      | EmptyString => None
      | String b s => '(a, rest) ← split_once_at p s; Some (String b a, rest)
      end
  end.

(** [trim_start_matches] of a byte. *)
Definition trim_start_matches (c : Ascii.ascii) (s : string) : string :=
  of_ascii (skip_while (fun b => Ascii.eqb b c) (bytes s)).

(* src: crates/dnet-config/src/trusted_file.rs:41-64 is_trusted_sddl *)
Definition is_trusted_sddl (sddl : string) : bool :=
  match strip_prefix "O:" sddl with
  | None => false
  | Some rest =>
      match split_once_at "D:" rest with
      | None => false
      | Some (owner, dacl) =>
          if negb (String.eqb owner "SY" || String.eqb owner "BA") then false
          else
            match split_once "(" dacl with
            | None => false
            | Some (flags, aces) =>
                existsb (fun b => Ascii.eqb b "P") (bytes flags) &&
                forallb (fun ace => ends_with ";;;SY" ace || ends_with ";;;BA" ace)
                  (List.filter (fun ace => negb (str_is_empty ace)) (map (trim_start_matches "(") (split ")" aces)))
            end
      end
  end.

(* src: crates/dnet-config/src/write.rs:16 RUN_DIR_SDDL *)
Definition RUN_DIR_SDDL : string := "D:P(A;OICI;FA;;;SY)(A;OICI;FA;;;BA)".
(* src: crates/dnet-config/src/write.rs:19 RUN_FILE_SDDL *)
Definition RUN_FILE_SDDL : string := "D:P(A;;FA;;;SY)(A;;FA;;;BA)".
(** What Windows gives a file that is made in such a directory: the entries it inherits, and no protection of its own. *)
Definition INHERITED_SDDL : string := "D:AI(A;ID;FA;;;SY)(A;ID;FA;;;BA)".

(** ** The disk

    What is at the path, in the directory of it and beside it; and what the operating system answers to the calls that
    are still to come, [None] being success. A file has the owner of whoever made it; the service runs as SYSTEM or as
    an administrator. What reading does is not part of what may fail: a file that is there is read. *)

Record Security : Type := mkSecurity { owner : string; dacl : string }.
Definition sddl_of (s : Security) : string := "O:" +:+ owner s +:+ dacl s.

(* src: crates/dnet-config/src/trusted_file.rs:78-82 TrustedFile *)
Record TrustedFile : Type := mkTrusted {
  shown : string;
  service : string;
  contents : option (string * Security);
  temporary : option string;
  directory : option Security;
  dir_restricted : bool;
  faults : list (option string);
}.

(* src: crates/dnet-config/src/trusted_file.rs:29-39 TrustedFileError *)
Inductive TrustedFileError : Type := TrustedIo (why : string) | Untrusted (why : string).
(* src: crates/dnet-config/src/trusted_file.rs:30-38 TrustedFileError *)
Definition trusted_error_to_string (e : TrustedFileError) : string := match e with TrustedIo why | Untrusted why => why end.

(* src: crates/dnet-config/src/trusted_file.rs:96-98 TrustedFile::io_error *)
Definition io_error (t : TrustedFile) (what e : string) : TrustedFileError :=
  TrustedIo (what +:+ " " +:+ shown t +:+ ": " +:+ e).
(* src: crates/dnet-config/src/trusted_file.rs:100-105 TrustedFile::untrusted *)
Definition untrusted (t : TrustedFile) (sddl : string) : TrustedFileError :=
  Untrusted ("refusing " +:+ shown t +:+ ": not controlled only by SYSTEM and Administrators (" +:+ sddl +:+ ")").

(** One call of the operating system: the next answer is taken, and what the call does is done if it succeeds. *)
Definition call (what : string) (effect : TrustedFile → TrustedFile) (t : TrustedFile) :
    TrustedFile * result TrustedFileError unit :=
  let t' := mkTrusted (shown t) (service t) (contents t) (temporary t) (directory t) (dir_restricted t) (tail (faults t)) in
  match head (faults t) with
  | Some (Some e) => (t', Err (io_error t what e))
  | _ => (effect t', Ok ())
  end.

(** [?]: the rest happens only when what came before succeeded. *)
Definition and_then {A B} (r : TrustedFile * result TrustedFileError A) (k : A → TrustedFile → TrustedFile * result TrustedFileError B) :
    TrustedFile * result TrustedFileError B :=
  match r with (t, Ok a) => k a t | (t, Err e) => (t, Err e) end.

Definition with_contents (c : option (string * Security)) (t : TrustedFile) : TrustedFile :=
  mkTrusted (shown t) (service t) c (temporary t) (directory t) (dir_restricted t) (faults t).
Definition with_temporary (c : option string) (t : TrustedFile) : TrustedFile :=
  mkTrusted (shown t) (service t) (contents t) c (directory t) (dir_restricted t) (faults t).
Definition with_directory (d : option Security) (t : TrustedFile) : TrustedFile :=
  mkTrusted (shown t) (service t) (contents t) (temporary t) d (dir_restricted t) (faults t).
Definition now_restricted (t : TrustedFile) : TrustedFile :=
  mkTrusted (shown t) (service t) (contents t) (temporary t) (directory t) true (faults t).

(** [apply_protected_dacl] leaves the owner. *)
Definition with_dacl (d : string) (s : Security) : Security := mkSecurity (owner s) d.

(** ** What is done with the file *)

(** Whether the directory is someone's who may replace what is in it; the security is read by the caller. *)
(* src: crates/dnet-config/src/trusted_file.rs:115-123 TrustedFile::check_dir_owner *)
Definition judge_dir (t : TrustedFile) : result TrustedFileError unit :=
  match directory t with
  | None => Err (io_error t "reading the security of the directory of" "not found")
  | Some d =>
      if negb (starts_with "O:SY" (sddl_of d)) && negb (starts_with "O:BA" (sddl_of d)) then Err (untrusted t (sddl_of d))
      else Ok ()
  end.

(* src: crates/dnet-config/src/trusted_file.rs:113-123 TrustedFile::check_dir_owner *)
Definition check_dir_owner (t : TrustedFile) : TrustedFile * result TrustedFileError unit :=
  and_then (call "reading the security of the directory of" id t) (fun _ t => (t, judge_dir t)).

(* src: crates/dnet-config/src/trusted_file.rs:125-146 TrustedFile::read *)
Definition trusted_read (t : TrustedFile) : result TrustedFileError (option string) :=
  match contents t with
  | None => Ok None
  | Some (bytes, security) =>
      if negb (is_trusted_sddl (sddl_of security)) then Err (untrusted t (sddl_of security))
      else _ ← judge_dir t; Ok (Some bytes)
  end.

(* src: crates/dnet-config/src/trusted_file.rs:66-76 write_durably *)
Definition write_durably (bytes : string) (t : TrustedFile) : TrustedFile * result TrustedFileError unit :=
  and_then (call "writing" (with_temporary (Some EmptyString)) t) (fun _ t =>
  and_then (call "writing" (with_temporary (Some bytes)) t) (fun _ t =>
  and_then (call "writing" id t) (fun _ t =>
  call "writing" (fun t => with_temporary None
    (with_contents ((fun b => (b, mkSecurity (service t) INHERITED_SDDL)) <$> temporary t) t)) t))).

(* src: crates/dnet-config/src/trusted_file.rs:172-184 TrustedFile::prepare_dir *)
Definition prepare_dir (t : TrustedFile) : TrustedFile * result TrustedFileError unit :=
  if dir_restricted t then (t, Ok ())
  else
    and_then (call "creating the directory of"
      (fun t => with_directory (Some (default (mkSecurity (service t) INHERITED_SDDL) (directory t))) t) t) (fun _ t =>
    and_then (call "restricting the directory of" (fun t => with_directory (with_dacl RUN_DIR_SDDL <$> directory t) t) t) (fun _ t =>
    and_then (check_dir_owner t) (fun _ t => (now_restricted t, Ok ())))).

(* src: crates/dnet-config/src/trusted_file.rs:148-156 TrustedFile::write *)
Definition trusted_write (bytes : string) (t : TrustedFile) : TrustedFile * result TrustedFileError unit :=
  and_then (prepare_dir t) (fun _ t =>
  and_then (write_durably bytes t) (fun _ t =>
  call "restricting" (fun t => with_contents ((fun c => (fst c, with_dacl RUN_FILE_SDDL (snd c))) <$> contents t) t) t)).

(* src: crates/dnet-config/src/trusted_file.rs:158-170 TrustedFile::remove *)
Definition trusted_remove (t : TrustedFile) : TrustedFile * result TrustedFileError bool :=
  match contents t with
  | None => (t, Ok false)
  | Some _ =>
      and_then (check_dir_owner t) (fun _ t =>
      and_then (call "removing" (with_contents None) t) (fun _ t => (t, Ok true)))
  end.

(** ** As a state file

    The service is SYSTEM or an administrator, a file is in a directory, and a directory that was found restricted is
    one of theirs: so it is when the file is first opened, and so it stays. *)

Definition ours (name : string) : bool := String.eqb name "SY" || String.eqb name "BA".

Definition in_order (t : TrustedFile) : bool :=
  ours (service t) &&
  match directory t with
  | Some _ => negb (dir_restricted t) || is_ok (judge_dir t)
  | None => negb (dir_restricted t) && negb (bool_decide (is_Some (contents t)))
  end.

Definition TrustedStateFile : Type := {t : TrustedFile | in_order t = true}.

(** * Lemmas *)

Lemma ours_cases name : ours name = true ↔ name = "SY" ∨ name = "BA".
Proof. unfold ours. rewrite orb_true_iff, !String.eqb_eq. done. Qed.

(** What the service protects is trusted, and what it has not protected yet is not. *)
Lemma restricted_is_trusted s : ours (owner s) = true → is_trusted_sddl (sddl_of (with_dacl RUN_FILE_SDDL s)) = true.
Proof. intros [E|E]%ours_cases; unfold with_dacl, sddl_of; rewrite E; vm_compute; reflexivity. Qed.

Lemma inherited_is_not_trusted name : ours name = true → is_trusted_sddl (sddl_of (mkSecurity name INHERITED_SDDL)) = false.
Proof. intros [->| ->]%ours_cases; vm_compute; reflexivity. Qed.

(** ** What every way of going through the calls ends with *)

Definition ends {A} (P : TrustedFile → result TrustedFileError A → Prop) (r : TrustedFile * result TrustedFileError A) : Prop :=
  P (fst r) (snd r).

(** The same, with other answers to come. *)
Definition later (t : TrustedFile) (left : list (option string)) : TrustedFile :=
  mkTrusted (shown t) (service t) (contents t) (temporary t) (directory t) (dir_restricted t) left.

Lemma call_ends what effect t P :
  (∀ left, P (effect (later t left)) (Ok ())) → (∀ left e, P (later t left) (Err e)) → ends P (call what effect t).
Proof. intros Hok Herr. unfold ends, call. destruct (head (faults t)) as [[e|]|]; [apply Herr|apply Hok..]. Qed.

Lemma and_then_ends {A B} (P : TrustedFile → result TrustedFileError B → Prop) (r : TrustedFile * result TrustedFileError A) k :
  ends (fun t r => match r with Ok a => ends P (k a t) | Err e => P t (Err e) end) r → ends P (and_then r k).
Proof. destruct r as [t [a|e]]; done. Qed.

Lemma check_dir_owner_ends t P :
  (∀ left, judge_dir t = Ok () → P (later t left) (Ok ())) → (∀ left e, P (later t left) (Err e)) → ends P (check_dir_owner t).
Proof.
  intros Hok Herr. apply and_then_ends, call_ends; [intros l|done]. unfold ends. simpl.
  change (judge_dir (later t l)) with (judge_dir t). destruct (judge_dir t) as [[]|e]; [by apply Hok|apply Herr].
Qed.

(** A directory that is ours once its access list is the service's was ours before. *)
Lemma prefix_before o d p : p = "SY" ∨ p = "BA" → starts_with ("O:" +:+ p) ("O:" +:+ o +:+ RUN_DIR_SDDL) = true →
  starts_with ("O:" +:+ p) ("O:" +:+ o +:+ d) = true.
Proof.
  unfold starts_with. rewrite !bool_decide_eq_true. intros Hp [rest E]%not_eq_None_Some.
  assert (∃ t, o = p +:+ t) as [t ->].
  { apply strip_prefix_spec in E. destruct Hp as [-> | ->]; injection E as E;
      (destruct o as [|a [|b o]]; try done; injection E as -> -> E; by exists o). }
  replace ("O:" +:+ (p +:+ t) +:+ d) with (("O:" +:+ p) +:+ (t +:+ d)); [by rewrite strip_prefix_app|].
  by rewrite !str_app_assoc.
Qed.

Lemma restricted_dir_was_ours t t' d : directory t = Some d → directory t' = Some (with_dacl RUN_DIR_SDDL d) →
  judge_dir t' = Ok () → judge_dir t = Ok ().
Proof.
  unfold judge_dir, sddl_of, with_dacl. intros -> ->. cbn [owner dacl].
  destruct (starts_with "O:SY" ("O:" +:+ owner d +:+ RUN_DIR_SDDL)) eqn:E.
  { assert (starts_with "O:SY" ("O:" +:+ owner d +:+ dacl d) = true) as Hsy by exact (prefix_before _ _ "SY" ltac:(by left) E).
    by rewrite Hsy. }
  destruct (starts_with "O:BA" ("O:" +:+ owner d +:+ RUN_DIR_SDDL)) eqn:E'; [|done].
  assert (starts_with "O:BA" ("O:" +:+ owner d +:+ dacl d) = true) as Hba by exact (prefix_before _ _ "BA" ltac:(by right) E').
  rewrite Hba. cbn [negb]. rewrite !andb_false_r. done.
Qed.

(** The same file in a directory that is no more trusted than it was reads as it did, or is refused. *)
Lemma read_again t t' : shown t' = shown t → contents t' = contents t →
  (judge_dir t' = Ok () → contents t ≠ None → judge_dir t = Ok ()) →
  trusted_read t' = trusted_read t ∨ is_ok (trusted_read t') = false.
Proof.
  unfold trusted_read, untrusted. intros -> -> Hj. destruct (contents t) as [[bytes s]|]; [|by left].
  destruct (negb _); [by left|]. destruct (judge_dir t') as [[]|e]; [|by right]. rewrite Hj by done. by left.
Qed.

(** What preparing the directory leaves: the file in order, which reads as it did or is refused; and once it is prepared,
    a directory of ours. *)
Record prepares (t t' : TrustedFile) (r : result TrustedFileError unit) : Prop := {
  prepares_order : in_order t' = true;
  prepares_service : service t' = service t;
  prepares_read : trusted_read t' = trusted_read t ∨ is_ok (trusted_read t') = false;
  prepares_dir : r = Ok () → dir_restricted t' = true ∧ judge_dir t' = Ok ();
}.

(** On the way there: the directory is there, and no more trusted than it was. *)
Record made (t t' : TrustedFile) : Prop := {
  made_shown : shown t' = shown t;
  made_service : service t' = service t;
  made_contents : contents t' = contents t;
  made_dir : directory t' ≠ None;
  made_judged : judge_dir t' = Ok () → contents t ≠ None → judge_dir t = Ok ();
}.

Lemma made_prepares t t' r : ours (service t) = true → made t t' → dir_restricted t' = false ∨ judge_dir t' = Ok () →
  (r = Ok () → dir_restricted t' = true) → prepares t t' r.
Proof.
  intros Hs [H1 H2 H3 H4 H5] Hj Hr. split; [|done|by apply read_again|].
  - unfold in_order. rewrite H2, Hs. destruct (directory t'); [|done]. destruct Hj as [-> | ->]; [done|]. apply orb_true_r.
  - intros ->. specialize (Hr eq_refl). split; [done|]. destruct Hj; [congruence|done].
Qed.

Lemma prepare_dir_ends t : in_order t = true → ends (prepares t) (prepare_dir t).
Proof.
  unfold prepare_dir. intros Ho. pose proof Ho as (Hs & Hd)%andb_true_iff. destruct (dir_restricted t) eqn:Er.
  { split; [done|done|by left|]. intros _. split; [done|]. revert Hd. simpl. destruct (directory t); [|done]. by destruct (judge_dir t) as [[]|]. }
  apply and_then_ends, call_ends; [intros l1|by intros l e; split; [exact Ho|done|by left|]].
  set (t1 := with_directory _ _).
  assert (made t t1) as M1.
  { split; [done..|]. intros Hj Hc. destruct (directory t) as [d|] eqn:Ed; [|by destruct (contents t)].
    revert Hj. unfold judge_dir, t1. simpl. by rewrite Ed. }
  apply and_then_ends, call_ends; [intros l2|intros l2 e; apply made_prepares; [done| |by left|done]].
  2: { destruct M1. by split. }
  set (t2 := with_directory _ _).
  assert (made t t2) as M2.
  { destruct M1 as [H1 H2 H3 H4 H5]. split; try done.
    intros Hj Hc. apply H5; [|done]. by apply (restricted_dir_was_ours t1 t2 (default (mkSecurity (service t) INHERITED_SDDL) (directory t))). }
  apply and_then_ends, check_dir_owner_ends; [intros l3 Hj|intros l3 e; apply made_prepares; [done| |by left|done]].
  2: { destruct M2. by split. }
  unfold ends. cbn [fst snd]. apply made_prepares; [done| |by right|done]. destruct M2. by split.
Qed.

(** Replacing the file: what was there stays until the rename. *)
Lemma write_durably_ends bytes t :
  ends (fun t' r => ∃ tmp left,
    t' = mkTrusted (shown t) (service t)
      (match r with Ok _ => Some (bytes, mkSecurity (service t) INHERITED_SDDL) | Err _ => contents t end)
      tmp (directory t) (dir_restricted t) left) (write_durably bytes t).
Proof.
  unfold write_durably. do 3 (apply and_then_ends, call_ends; [intros ?|by intros ? ?; eexists _, _]).
  apply call_ends; intros; by eexists _, _.
Qed.

(** What a write leaves: the file in order; after one that succeeded, what was written; after one that failed, what was
    there, or nothing that is read. *)
Record writes (bytes : string) (t t' : TrustedFile) (r : result TrustedFileError unit) : Prop := {
  writes_order : in_order t' = true;
  writes_read : match r with
    | Ok _ => trusted_read t' = Ok (Some bytes)
    | Err _ => trusted_read t' = trusted_read t ∨ is_ok (trusted_read t') = false
    end;
}.

Lemma trusted_write_ends bytes t : in_order t = true → ends (writes bytes t) (trusted_write bytes t).
Proof.
  intros Ho. apply and_then_ends. pose proof (prepare_dir_ends t Ho) as Hp. unfold ends in Hp |- *.
  destruct (prepare_dir t) as [t1 [u|e]]; simpl in Hp |- *; destruct Hp as [Ho1 Hs1 Hr1 Hd1]; [|by split].
  destruct (Hd1 ltac:(by destruct u)) as [Hdr Hj]. clear Hd1 u.
  apply and_then_ends. pose proof (write_durably_ends bytes t1) as Hw. unfold ends in Hw |- *.
  destruct (write_durably bytes t1) as [t2 [u|e]]; simpl in Hw |- *; destruct Hw as (tmp & l & ->); [|by split].
  assert (ours (service t1) = true) as Hours by (by apply andb_true_iff in Ho1 as [? _]).
  assert (∀ c l, in_order (mkTrusted (shown t1) (service t1) c tmp (directory t1) (dir_restricted t1) l) = true) as Hin.
  { intros c l'. unfold in_order in Ho1 |- *. cbn [service directory contents dir_restricted] in *.
    change (judge_dir (mkTrusted _ _ _ _ _ _ _)) with (judge_dir t1). rewrite Hdr in *.
    destruct (directory t1); [exact Ho1|]. by rewrite andb_false_r in Ho1. }
  apply call_ends.
  - intros l'. split; [apply Hin|]. unfold trusted_read. simpl.
    change (with_dacl _ _) with (with_dacl RUN_FILE_SDDL (mkSecurity (service t1) INHERITED_SDDL)).
    rewrite restricted_is_trusted by done. simpl.
    change (judge_dir (with_contents _ _)) with (judge_dir t1). by rewrite Hj.
  - intros l' e. split; [apply Hin|]. right. unfold trusted_read. simpl. by rewrite inherited_is_not_trusted.
Qed.

(** What removing leaves: the file in order; gone after it succeeded, and as it was after it failed. *)
Lemma trusted_remove_ends t : in_order t = true →
  ends (fun t' r => in_order t' = true ∧
    trusted_read t' = match r with Ok _ => Ok None | Err _ => trusted_read t end) (trusted_remove t).
Proof.
  intros Ho. unfold trusted_remove. destruct (contents t) as [c|] eqn:Ec.
  2: { split; [done|]. simpl. unfold trusted_read. by rewrite Ec. }
  apply and_then_ends, check_dir_owner_ends; [intros l Hj|by intros l e].
  apply and_then_ends, call_ends; [intros l'|by intros l' e].
  split; [|done]. simpl. unfold in_order in *. simpl. destruct (directory t) eqn:Ed; [|by rewrite Ec, !andb_false_r in Ho].
  change (judge_dir (with_contents _ _)) with (judge_dir t). exact Ho.
Qed.

Definition written (bytes : string) (f : TrustedStateFile) : TrustedStateFile :=
  exist _ (trusted_write bytes (`f)).1 (writes_order _ _ _ _ (trusted_write_ends bytes (`f) (proj2_sig f))).
Definition removed (f : TrustedStateFile) : TrustedStateFile :=
  exist _ (trusted_remove (`f)).1 (proj1 (trusted_remove_ends (`f) (proj2_sig f))).

(** [map_err(|e| e.to_string())]. *)
Definition as_text {A} (r : result TrustedFileError A) : result string A :=
  match r with Ok a => Ok a | Err e => Err (trusted_error_to_string e) end.

(** TrustedStateFile of crates/dnet-config/src/persist.rs:259-269. *)
#[export] Instance trusted_state_file : StateFile TrustedStateFile := {|
  file_read f := as_text (trusted_read (`f));
  file_write bytes f := (written bytes f, as_text (trusted_write bytes (`f)).2);
  file_remove f := (removed f, _ ← as_text (trusted_remove (`f)).2; Ok ());
|}.

(** ** What those who keep their state in a file rely on *)

(** A write that succeeds is what is read next. One that fails leaves what was there, or what was to be written, or a
    file that is refused: a failure can come after the old file is replaced. *)
Class StateFileLaws (F : Type) `{StateFile F} : Prop := {
  write_is_read bytes (f f' : F) : file_write bytes f = (f', Ok ()) → file_read f' = Ok (Some bytes);
  failed_write_leaves bytes (f f' : F) e : file_write bytes f = (f', Err e) →
    file_read f' = file_read f ∨ file_read f' = Ok (Some bytes) ∨ is_ok (file_read f') = false;
}.

(** A removed file is absent, and one that could not be removed is as it was. *)
Class StateFileRemoval (F : Type) `{StateFile F} : Prop := {
  remove_is_absent (f f' : F) : file_remove f = (f', Ok ()) → file_read f' = Ok None;
  failed_remove_is_not (f f' : F) e : file_remove f = (f', Err e) → file_read f' = file_read f;
}.

#[export] Instance trusted_file_laws : StateFileLaws TrustedStateFile.
Proof.
  split; intros bytes f f'; [|intros e]; simpl; intros [= <- Er];
    destruct (trusted_write_ends bytes (`f) (proj2_sig f)) as [_ Hr]; unfold ends in Hr; simpl in Hr |- *;
    destruct (trusted_write bytes (`f)) as [t r]; simpl in *; destruct r; try done.
  - by rewrite Hr.
  - destruct Hr as [->|Hr]; [by left|right; right]. by destruct (trusted_read t).
Qed.

#[export] Instance trusted_file_removal : StateFileRemoval TrustedStateFile.
Proof.
  split; intros f f'; [|intros e]; simpl; intros [= <- Er]; destruct (trusted_remove_ends (`f) (proj2_sig f)) as [_ Hr];
    simpl in Hr |- *; destruct (trusted_remove (`f)) as [t r]; simpl in *; destruct r; try done; by rewrite Hr.
Qed.

#[export] Instance memory_file_laws : StateFileLaws (option string).
Proof. split; [|done]. intros bytes f f' [= <-]. done. Qed.
#[export] Instance memory_file_removal : StateFileRemoval (option string).
Proof. split; [by intros f f' [= <-]|done]. Qed.
