(* ===== verification/FeedEnvelope.v ===== *)
(** The signed envelope of the profile feed: its errors, the trust anchor, the pre-authentication encoding,
    reading an envelope and counting the keys that signed it
    (crates/dnet-core/src/feed.rs and feed/envelope.rs). *)

From Stdlib Require Import Ascii.
From S2P Require Import Prelude Text IpText.

(** * Definitions *)

(* src: crates/dnet-core/src/feed.rs:38-39 KEYS_PAYLOAD_TYPE *)
Definition KEYS_PAYLOAD_TYPE : string := "application/vnd.dnet-engine.feed-keys.v1+json".
(* src: crates/dnet-core/src/feed.rs:40-41 FEED_PAYLOAD_TYPE *)
Definition FEED_PAYLOAD_TYPE : string := "application/vnd.dnet-engine.profile-feed.v1+json".
(* src: crates/dnet-core/src/feed.rs:43-44 ENVELOPE_MAX_BYTES *)
Definition ENVELOPE_MAX_BYTES : Z := 262144.
(* src: crates/dnet-core/src/feed.rs:45-46 CLOCK_SKEW_SECS *)
Definition CLOCK_SKEW_SECS : Z := 24 * 3600.
(* src: crates/dnet-core/src/feed.rs:48-48 DAY_SECS *)
Definition DAY_SECS : Z := 24 * 3600.
(* src: crates/dnet-core/src/feed.rs:49-50 KEYS_MAX_LIFETIME_SECS *)
Definition KEYS_MAX_LIFETIME_SECS : Z := 366 * DAY_SECS.
(* src: crates/dnet-core/src/feed.rs:51-52 SIGNING_KEY_MAX_LIFETIME_SECS *)
Definition SIGNING_KEY_MAX_LIFETIME_SECS : Z := 180 * DAY_SECS.
(* src: crates/dnet-core/src/feed.rs:53-54 FEED_MAX_LIFETIME_SECS *)
Definition FEED_MAX_LIFETIME_SECS : Z := 30 * DAY_SECS.
(* src: crates/dnet-core/src/feed.rs:58-59 ROOT_THRESHOLD *)
Definition ROOT_THRESHOLD : Z := 2.

(* src: crates/dnet-core/src/feed.rs:61-66 Document *)
Inductive Document : Type := KeysDoc | FeedDoc.

(* src: crates/dnet-core/src/feed.rs:77-143 FeedError *)
Inductive FeedError : Type :=
  | TooLarge
  | MalformedEnvelope (field : string)
  | WrongPayloadType (document : Document)
  | ThresholdNotMet (document : Document) (valid required : Z)
  | MalformedPayload (document : Document) (detail : string)
  | InvalidField (field reason : string)
  | NotCurrent (document : Document) (reason : string)
  | Rollback (document : Document)
  | Equivocation (document : Document)
  | KeysVersionMismatch
  | NoKeysDocument
  | UnknownProfile (id : string)
  | KindMismatch (id : string)
  | DuplicateProfile (id : string)
  | EmptyProposal (id : string)
  | InvalidTrust (what : string).

(* src: crates/dnet-core/src/feed/envelope.rs:15-16 MAX_SIGNATURES *)
Definition MAX_SIGNATURES : Z := 8.

(* src: crates/dnet-core/src/feed/envelope.rs:27-36 SignatureJson *)
Record SignatureJson : Type := mkSignatureJson { keyid : string; sig : string }.

(* src: crates/dnet-core/src/feed/envelope.rs:18-25 EnvelopeJson *)
Record EnvelopeJson : Type := mkEnvelopeJson {
  json_payload : string;
  json_payload_type : string;
  json_signatures : list SignatureJson;
}.

(** What other crates provide: the keys and signatures of ed25519-dalek, base64's standard alphabet, SHA-256,
    and serde_json's reading of an envelope.  [[u8; n]] is a string of [n] bytes. *)
Class FeedPrimitives : Type := {
  VerifyingKey : Type;
  VerifyingKey_eq_dec :: EqDecision VerifyingKey;
  key_from_bytes : string → option VerifyingKey;
  is_weak : VerifyingKey → bool;
  Signature : Type;
  signature_from_bytes : string → Signature;
  verify_strict : VerifyingKey → string → Signature → bool;
  base64_encode : string → string;
  base64_decode : string → option string;
  sha256 : string → string;
  envelope_json : string → option EnvelopeJson;
}.

(* src: crates/dnet-core/src/feed/envelope.rs:68-81 pae *)
Definition pae (payload_type body : string) : string :=
  "DSSEv1 " +:+ pretty (Z.of_nat (String.length payload_type)) +:+ " " +:+ payload_type +:+ " " +:+
  pretty (Z.of_nat (String.length body)) +:+ " " +:+ body.

(** [read] gives what the reader yields before it ends, or fails. *)
(* src: crates/dnet-core/src/feed/envelope.rs:54-66 read_capped *)
Definition read_capped (read : Z → option string) : result FeedError string :=
  match read (ENVELOPE_MAX_BYTES + 1) with
  | None => Err (MalformedEnvelope "unreadable")
  | Some bytes => if ENVELOPE_MAX_BYTES <? str_len bytes then Err TooLarge else Ok bytes
  end.

Section Envelope.
Context `{FeedPrimitives}.

(* src: crates/dnet-core/src/feed.rs:145-151 FeedTrust *)
Record FeedTrust : Type := mkFeedTrust { roots : list VerifyingKey; min_keys_version : Z }.

(* src: crates/dnet-core/src/feed.rs:163-174 FeedTrust::new *)
Fixpoint read_roots (seen : list VerifyingKey) (root_keys : list string) : result FeedError (list VerifyingKey) :=
  match root_keys with
  | [] => Ok seen
  | bytes :: rest =>
      key ← ok_or (key_from_bytes bytes) (InvalidTrust "root key is not a valid point");
      if is_weak key then Err (InvalidTrust "root key is weak")
      else if bool_decide (key ∈ seen) then Err (InvalidTrust "root keys are not distinct")
      else read_roots (seen ++ [key]) rest
  end.

(** The anchor is built from an array of three keys, so as many are collected. *)
(* src: crates/dnet-core/src/feed.rs:153-187 FeedTrust::new *)
Definition trust_new (k1 k2 k3 : string) (min_version : Z) : result FeedError FeedTrust :=
  collected ← read_roots [] [k1; k2; k3];
  if min_version =? 0 then Err (InvalidTrust "minimum keys version must be at least 1")
  else Ok {| roots := collected; min_keys_version := min_version |}.

(* src: crates/dnet-core/src/feed/envelope.rs:38-45 Envelope *)
Record Envelope : Type := mkEnvelope {
  payload : string;
  signatures : list Signature;
  payload_type : string;
}.

(* src: crates/dnet-core/src/feed/envelope.rs:47-52 Envelope::signed_message *)
Definition signed_message (e : Envelope) : string := pae (payload_type e) (payload e).

(* src: crates/dnet-core/src/feed/envelope.rs:119-124 decode_canonical *)
Definition decode_canonical (text : string) : option string :=
  bytes ← base64_decode text;
  if String.eqb (base64_encode bytes) text then Some bytes else None.

(** [try_into] for [[u8; n]]. *)
Definition sized (n : nat) (bytes : string) : option string :=
  if bool_decide (String.length bytes = n) then Some bytes else None.

(* src: crates/dnet-core/src/feed/envelope.rs:102-111 parse_envelope *)
Fixpoint read_signatures (sigs : list SignatureJson) : result FeedError (list Signature) :=
  match sigs with
  | [] => Ok []
  | s :: rest =>
      bytes ← ok_or (decode_canonical (sig s) ≫= sized 64) (MalformedEnvelope "signature");
      read ← read_signatures rest;
      Ok (signature_from_bytes bytes :: read)
  end.

(* src: crates/dnet-core/src/feed/envelope.rs:83-117 parse_envelope *)
Definition parse_envelope (bytes expected_type : string) (document : Document) : result FeedError Envelope :=
  if ENVELOPE_MAX_BYTES <? str_len bytes then Err TooLarge
  else
    json ← ok_or (envelope_json bytes) (MalformedEnvelope "structure");
    if negb (String.eqb (json_payload_type json) expected_type) then Err (WrongPayloadType document)
    else if bool_decide (json_signatures json = []) || (MAX_SIGNATURES <? Z.of_nat (length (json_signatures json)))
    then Err (MalformedEnvelope "signature count")
    else
      payload ← ok_or (decode_canonical (json_payload json)) (MalformedEnvelope "payload");
      signatures ← read_signatures (json_signatures json);
      Ok {| payload := payload; signatures := signatures; payload_type := expected_type |}.

(** The keys that produced one of the signatures. *)
Definition signers (message : string) (sigs : list Signature) (keys : list VerifyingKey) : list VerifyingKey :=
  List.filter (fun key => existsb (verify_strict key message) sigs) keys.

(* src: crates/dnet-core/src/feed/envelope.rs:126-142 count_signers *)
Definition count_signers (message : string) (sigs : list Signature) (keys : list VerifyingKey) : Z :=
  Z.of_nat (length (signers message sigs keys)).

(* src: crates/dnet-core/src/feed/state.rs:327-337 require_threshold *)
Definition require_threshold (document : Document) (valid required : Z) : result FeedError unit :=
  if required <=? valid then Ok () else Err (ThresholdNotMet document valid required).
End Envelope.

#[export] Instance SignatureJson_eq_dec : EqDecision SignatureJson.
Proof. solve_decision. Defined.

(** * Lemmas *)

(** ** The encoding *)

Definition spaceless (s : string) : Prop := " "%char ∉ bytes s.

Lemma pretty_N_go_spaceless x s : spaceless s → spaceless (pretty_N_go x s).
Proof.
  revert s. induction (N.lt_wf_0 x) as [x _ IH]; intros s Hs.
  assert (x = 0 ∨ 0 < x)%N as [->|Hx] by lia; [done|].
  rewrite pretty_N_go_step by done. apply IH; [by apply N.div_lt|].
  unfold spaceless. change (bytes (String ?c s)) with (c :: bytes s).
  apply not_elem_of_cons. split; [|done]. unfold pretty_N_char. by repeat case_match.
Qed.

Lemma pretty_nat_spaceless (n : nat) : spaceless (pretty (Z.of_nat n)).
Proof.
  assert (∀ x : N, spaceless (pretty x)) as HN.
  { intros x. unfold pretty, pretty_N. case_decide; [by vm_compute; set_solver|].
    apply pretty_N_go_spaceless. vm_compute. set_solver. }
  destruct n as [|n]; [vm_compute; set_solver|]. exact (HN _).
Qed.

Lemma spaceless_split a b a' b' :
  spaceless a → spaceless a' → a +:+ " " +:+ b = a' +:+ " " +:+ b' → a = a' ∧ b = b'.
Proof.
  intros Ha Ha' E. pose proof (split_once_spec " " a b Ha) as E1. pose proof (split_once_spec " " a' b' Ha') as E2.
  change (" " +:+ b) with (String " " b) in E. change (" " +:+ b') with (String " " b') in E. rewrite E in E1.
  simplify_eq. done.
Qed.

Lemma length_bytes s : length (bytes s) = String.length s.
Proof. induction s as [|c s IH]; [done|]. simpl. by rewrite <-IH. Qed.

Lemma str_app_inj a b a' b' : String.length a = String.length a' → a +:+ b = a' +:+ b' → a = a' ∧ b = b'.
Proof.
  intros Hl E. apply (f_equal bytes) in E. rewrite !bytes_app in E.
  apply app_inj_1 in E as [E1 E2]; [|by rewrite !length_bytes]. split; by apply bytes_inj.
Qed.

(** A length, a space and as many bytes. *)
Definition sized_field (s : string) : string := pretty (Z.of_nat (String.length s)) +:+ " " +:+ s.

Lemma sized_field_inj s s' rest rest' :
  sized_field s +:+ rest = sized_field s' +:+ rest' → s = s' ∧ rest = rest'.
Proof.
  unfold sized_field. rewrite !str_app_assoc. intros E.
  apply spaceless_split in E as [El E]; [|apply pretty_nat_spaceless..].
  apply (inj pretty) in El. apply str_app_inj; [lia|done].
Qed.

Lemma pae_fields t b : pae t b = "DSSEv1 " +:+ sized_field t +:+ " " +:+ sized_field b.
Proof. unfold pae, sized_field. by rewrite !str_app_assoc. Qed.

(** ** Keys *)

Section Keys.
Context `{FeedPrimitives}.

Lemma read_roots_ok seen ks rs :
  read_roots seen ks = Ok rs → NoDup seen →
  NoDup rs ∧ length rs = (length seen + length ks)%nat ∧
  ∀ k, k ∈ rs → k ∈ seen ∨ is_weak k = false.
Proof.
  revert seen. induction ks as [|k ks IH]; intros seen E Hs; simpl in E.
  { simplify_eq. split_and!; [done|simpl; lia|auto]. }
  destruct (key_from_bytes k) as [key|]; [|done]. cbn [ok_or mbind result_bind] in E.
  destruct (is_weak key) eqn:Ew; [done|]. case_bool_decide as Hk; [done|].
  apply IH in E as (Hn & Hl & Hw).
  - split_and!; [done|rewrite Hl, length_app; simpl; lia|]. intros k' Hk'.
    destruct (Hw k' Hk') as [[?| ->%list_elem_of_singleton]%elem_of_app|?]; auto.
  - apply NoDup_app. split_and!; [done|set_solver|apply NoDup_singleton].
Qed.

(** The compiled-in anchor is three distinct sound keys. *)
Record trust_ok (t : FeedTrust) : Prop := {
  trust_distinct : NoDup (roots t);
  trust_three : length (roots t) = 3%nat;
  trust_sound k : k ∈ roots t → is_weak k = false;
}.

Lemma trust_new_ok k1 k2 k3 v t : trust_new k1 k2 k3 v = Ok t → trust_ok t.
Proof.
  unfold trust_new. destruct (read_roots _ _) as [rs|] eqn:E; [|done]. cbn [mbind result_bind].
  destruct (v =? 0); [done|]. intros [= <-].
  apply read_roots_ok in E as (Hn & Hl & Hw); [|constructor].
  split; [done|done|]. intros k Hk. destruct (Hw k Hk); [set_solver|done].
Qed.

Lemma elem_of_signers message sigs keys k :
  k ∈ signers message sigs keys ↔ k ∈ keys ∧ ∃ s, s ∈ sigs ∧ verify_strict k message s = true.
Proof. unfold signers. by rewrite elem_of_filter_bool, existsb_exists_elem. Qed.

Lemma signers_NoDup message sigs keys : NoDup keys → NoDup (signers message sigs keys).
Proof.
  induction 1 as [|k keys Hk _ IH]; [constructor|]. unfold signers in *. simpl.
  destruct (existsb _ _); [|done]. constructor; [|done]. intros [? _]%elem_of_filter_bool. done.
Qed.

Lemma count_signers_nonneg message sigs keys : 0 ≤ count_signers message sigs keys.
Proof. unfold count_signers. lia. Qed.

(** More keys, no fewer signers. *)
Lemma count_signers_sublist message sigs keys keys' :
  sublist keys keys' → count_signers message sigs keys ≤ count_signers message sigs keys'.
Proof.
  unfold count_signers, signers. induction 1 as [|k keys keys' _ IH|k keys keys' _ IH]; simpl; [done|..];
    destruct (existsb _ _); simpl; lia.
Qed.

(** The count is met by that many distinct keys, each with a signature. *)
Lemma count_signers_distinct message sigs keys n :
  NoDup keys → n ≤ count_signers message sigs keys →
  ∃ ks, NoDup ks ∧ n ≤ Z.of_nat (length ks) ∧
    ∀ k, k ∈ ks → k ∈ keys ∧ ∃ s, s ∈ sigs ∧ verify_strict k message s = true.
Proof.
  intros Hn Hle. exists (signers message sigs keys).
  split_and!; [by apply signers_NoDup|done|]. intros k. apply elem_of_signers.
Qed.

Lemma require_threshold_ok document valid required u :
  require_threshold document valid required = Ok u → required ≤ valid.
Proof. unfold require_threshold. case_match eqn:E; [|done]. intros _. lia. Qed.

(** ** Reading *)

Lemma decode_canonical_encode text bytes : decode_canonical text = Some bytes → base64_encode bytes = text.
Proof.
  unfold decode_canonical. destruct (base64_decode text) as [b|]; [|done]. simpl.
  destruct (String.eqb_spec (base64_encode b) text); [|done]. by intros [= <-].
Qed.

Lemma parse_envelope_ok bytes t d e :
  parse_envelope bytes t d = Ok e →
  payload_type e = t ∧ str_len bytes ≤ ENVELOPE_MAX_BYTES ∧ (length (signatures e) ≤ 8)%nat.
Proof.
  unfold parse_envelope. destruct (_ <? _) eqn:El; [done|].
  destruct (envelope_json bytes) as [j|]; [|done]. cbn [ok_or mbind result_bind].
  destruct (negb _); [done|]. case_match eqn:Es; [done|].
  destruct (decode_canonical (json_payload j)); [|done]. cbn [ok_or mbind result_bind].
  destruct (read_signatures (json_signatures j)) as [sigs|] eqn:Er; [|done]. intros [= <-]. simpl.
  apply orb_false_iff in Es as [_ Es%Z.ltb_ge]. split_and!; [done|by apply Z.ltb_ge|].
  assert (length sigs = length (json_signatures j)) as ->; [|unfold MAX_SIGNATURES in Es; lia].
  clear -Er. revert sigs Er. induction (json_signatures j) as [|s ss IH]; intros sigs E; simpl in E; [by simplify_eq|].
  destruct (decode_canonical (sig s) ≫= sized 64); [|done]. cbn [ok_or mbind result_bind] in E.
  destruct (read_signatures ss) as [r|]; [|done]. simplify_eq/=. by rewrite (IH r).
Qed.
End Keys.

(** * Theorems *)

(** What is signed determines the document type and the payload: no two documents have the same
    pre-authentication encoding, so a signature for one can never be presented as a signature for another,
    whatever bytes (spaces and digits included) either holds. *)
Theorem pae_injective t b t' b' : pae t b = pae t' b' ↔ t = t' ∧ b = b'.
Proof.
  split; [|by intros [-> ->]]. rewrite !pae_fields. intros E.
  apply str_app_inj in E as [_ E]; [|done].
  apply sized_field_inj in E as [-> E]. apply str_app_inj in E as [_ E]; [|done].
  destruct (sized_field_inj b b' EmptyString EmptyString) as [-> _]; [by rewrite !str_app_nil|done].
Qed.
