(* ===== verification/FeedKeys.v ===== *)
(** The keys document of the profile feed, which delegates the signing keys
    (crates/dnet-core/src/feed/keys.rs). *)

From S2P Require Import Prelude Text FeedEnvelope.

(** * Definitions *)

(* src: crates/dnet-core/src/feed/keys.rs:13-14 MAX_SIGNING_KEYS *)
Definition MAX_SIGNING_KEYS : Z := 8.

(* src: crates/dnet-core/src/feed/keys.rs:26-32 SigningKeyJson *)
Record SigningKeyJson : Type := mkSigningKeyJson {
  json_public_key : string;
  json_not_before : Z;
  json_not_after : Z;
}.

(* src: crates/dnet-core/src/feed/keys.rs:16-24 KeysDocumentJson *)
Record KeysDocumentJson : Type := mkKeysDocumentJson {
  json_keys_version : Z;
  json_issued_at : Z;
  json_expires_at : Z;
  json_signing_threshold : Z;
  json_signing_keys : list SigningKeyJson;
}.

(** serde_json's reading of a keys payload. *)
Class KeysWire : Type := keys_json : string → result string KeysDocumentJson.

(* src: crates/dnet-core/src/feed/keys.rs:143-145 invalid *)
Definition invalid {A} (field reason : string) : result FeedError A := Err (InvalidField field reason).

(* src: crates/dnet-core/src/feed/keys.rs:147-161 lifetime *)
Definition lifetime (start end_ max : Z) (field : string) : result FeedError unit :=
  if end_ <=? start then invalid field "must end after it starts"
  else if max <? end_ - start then invalid field "exceeds the maximum lifetime"
  else Ok ().

(* src: crates/dnet-core/src/feed/keys.rs:163-183 check_issued_and_expiry *)
Definition check_issued_and_expiry (document : Document) (issued_at expires_at now : Z) : result FeedError unit :=
  if u64_saturating_add now CLOCK_SKEW_SECS <? issued_at then Err (NotCurrent document "issued in the future")
  else if u64_saturating_add expires_at CLOCK_SKEW_SECS <=? now then Err (NotCurrent document "expired")
  else Ok ().

Section Keys.
Context `{FeedPrimitives, KeysWire}.

(* src: crates/dnet-core/src/feed/keys.rs:34-40 DelegatedKey *)
Record DelegatedKey : Type := mkDelegatedKey {
  key : VerifyingKey;
  not_before : Z;
  not_after : Z;
}.

(* src: crates/dnet-core/src/feed/keys.rs:42-48 DelegatedKey::is_valid_at *)
Definition is_valid_at (k : DelegatedKey) (now : Z) : bool :=
  (u64_saturating_sub (not_before k) CLOCK_SKEW_SECS <=? now) &&
  (now <=? u64_saturating_add (not_after k) CLOCK_SKEW_SECS).

(* src: crates/dnet-core/src/feed/keys.rs:50-58 KeysDocument *)
Record KeysDocument : Type := mkKeysDocument {
  keys_version : Z;
  keys_issued_at : Z;
  keys_expires_at : Z;
  signing_threshold : Z;
  signing_keys : list DelegatedKey;
}.

(* src: crates/dnet-core/src/feed/keys.rs:83-113 KeysDocument::parse *)
Fixpoint read_signing_keys (trust : FeedTrust) (seen : list DelegatedKey) (entries : list SigningKeyJson) :
    result FeedError (list DelegatedKey) :=
  match entries with
  | [] => Ok seen
  | entry :: rest =>
      bytes ← ok_or (decode_canonical (json_public_key entry) ≫= sized 32)
        (InvalidField "signing_keys.public_key" "must be 32 bytes of canonical base64");
      k ← ok_or (key_from_bytes bytes) (InvalidField "signing_keys.public_key" "is not a valid point");
      if is_weak k then invalid "signing_keys.public_key" "is a weak key"
      else if bool_decide (k ∈ roots trust) then invalid "signing_keys.public_key" "is a root key"
      else if existsb (fun d => bool_decide (key d = k)) seen then
        invalid "signing_keys.public_key" "is listed twice"
      else
        _ ← lifetime (json_not_before entry) (json_not_after entry) SIGNING_KEY_MAX_LIFETIME_SECS
              "signing key validity";
        read_signing_keys trust
          (seen ++ [{| key := k; not_before := json_not_before entry; not_after := json_not_after entry |}]) rest
  end.

(* src: crates/dnet-core/src/feed/keys.rs:60-130 KeysDocument::parse *)
Definition parse_keys (payload : string) (trust : FeedTrust) : result FeedError KeysDocument :=
  json ← match keys_json payload with Ok j => Ok j | Err detail => Err (MalformedPayload KeysDoc detail) end;
  if json_keys_version json =? 0 then invalid "keys_version" "must be at least 1"
  else
    _ ← lifetime (json_issued_at json) (json_expires_at json) KEYS_MAX_LIFETIME_SECS "keys document lifetime";
    let count := Z.of_nat (length (json_signing_keys json)) in
    if (count =? 0) || (MAX_SIGNING_KEYS <? count) then invalid "signing_keys" "must list 1 to 8 keys"
    else
      read ← read_signing_keys trust [] (json_signing_keys json);
      let threshold := json_signing_threshold json in
      if (threshold =? 0) || (Z.of_nat (length read) <? threshold) then
        invalid "signing_threshold" "must be between 1 and the number of signing keys"
      else Ok {|
        keys_version := json_keys_version json;
        keys_issued_at := json_issued_at json;
        keys_expires_at := json_expires_at json;
        signing_threshold := threshold;
        signing_keys := read |}.

(* src: crates/dnet-core/src/feed/keys.rs:132-135 KeysDocument::is_expired_at *)
Definition is_expired_at (d : KeysDocument) (now : Z) : bool :=
  u64_saturating_add (keys_expires_at d) CLOCK_SKEW_SECS <=? now.

(* src: crates/dnet-core/src/feed/keys.rs:137-140 KeysDocument::check_current *)
Definition keys_check_current (d : KeysDocument) (now : Z) : result FeedError unit :=
  check_issued_and_expiry KeysDoc (keys_issued_at d) (keys_expires_at d) now.

(** * Lemmas *)

Lemma lifetime_ok start end_ max field u : lifetime start end_ max field = Ok u → start < end_ ≤ start + max.
Proof. unfold lifetime. case_match eqn:E1; [done|]. case_match eqn:E2; [done|]. intros _. bool_simpl. lia. Qed.

Lemma check_issued_and_expiry_ok document issued_at expires_at now u :
  check_issued_and_expiry document issued_at expires_at now = Ok u →
  issued_at ≤ now + CLOCK_SKEW_SECS ∧ now < expires_at + CLOCK_SKEW_SECS.
Proof.
  unfold check_issued_and_expiry, u64_saturating_add. case_match eqn:E1; [done|]. case_match eqn:E2; [done|]. intros _. bool_simpl. lia.
Qed.

(** What a delegated key always is. *)
Record delegated_ok (trust : FeedTrust) (k : DelegatedKey) : Prop := {
  delegated_sound : is_weak (key k) = false;
  delegated_not_root : key k ∉ roots trust;
  delegated_window : not_before k < not_after k ≤ not_before k + SIGNING_KEY_MAX_LIFETIME_SECS;
}.

(** What a keys document always is: a threshold that its distinct keys can meet. *)
Record keys_ok (trust : FeedTrust) (d : KeysDocument) : Prop := {
  keys_versioned : keys_version d ≠ 0;
  keys_lifetime : keys_issued_at d < keys_expires_at d ≤ keys_issued_at d + KEYS_MAX_LIFETIME_SECS;
  keys_few : (length (signing_keys d) ≤ 8)%nat;
  keys_distinct : NoDup (map key (signing_keys d));
  keys_threshold : signing_threshold d ≠ 0 ∧ signing_threshold d ≤ Z.of_nat (length (signing_keys d));
  keys_delegated k : k ∈ signing_keys d → delegated_ok trust k;
}.

Lemma read_signing_keys_ok trust seen entries ks :
  read_signing_keys trust seen entries = Ok ks →
  NoDup (map key seen) → (∀ k, k ∈ seen → delegated_ok trust k) →
  length ks = (length seen + length entries)%nat ∧ NoDup (map key ks) ∧ (∀ k, k ∈ ks → delegated_ok trust k).
Proof.
  revert seen. induction entries as [|e entries IH]; intros seen E Hn Hok; simpl in E.
  { simplify_eq. split_and!; [simpl; lia|done|done]. }
  destruct (decode_canonical _ ≫= _) as [b|]; [|done]. cbn [ok_or mbind result_bind] in E.
  destruct (key_from_bytes b) as [k|]; [|done]. cbn [ok_or mbind result_bind] in E.
  destruct (is_weak k) eqn:Ew; [done|]. case_bool_decide as Hr; [done|].
  destruct (existsb _ seen) eqn:Es; [done|]. rewrite existsb_false_elem in Es.
  destruct (lifetime _ _ _ _) as [u|] eqn:El; [|done]. cbn [mbind result_bind] in E. apply lifetime_ok in El.
  apply IH in E as (Hl & ? & ?).
  - split_and!; [rewrite Hl, length_app; simpl; lia|done|done].
  - rewrite map_app. apply NoDup_app. split_and!; [done| |apply NoDup_singleton].
    intros k' (d & -> & Hd)%elem_of_map Hk%list_elem_of_singleton. simpl in Hk.
    specialize (Es d Hd). by apply bool_decide_eq_false in Es.
  - intros k' [?| ->%list_elem_of_singleton]%elem_of_app; [auto|]. split; simpl; done.
Qed.

Lemma parse_keys_ok payload trust d : parse_keys payload trust = Ok d → keys_ok trust d.
Proof.
  unfold parse_keys. destruct (keys_json payload) as [j|]; [|done]. cbn [mbind result_bind].
  destruct (_ =? 0) eqn:Ev; [done|].
  destruct (lifetime _ _ _ _) as [u|] eqn:El; [|done]. cbn [mbind result_bind]. apply lifetime_ok in El.
  case_match eqn:Ec; [done|]. apply orb_false_iff in Ec as [_ Ec%Z.ltb_ge].
  destruct (read_signing_keys _ _ _) as [ks|] eqn:Er; [|done]. cbn [mbind result_bind].
  case_match eqn:Et; [done|]. apply orb_false_iff in Et as [Et1%Z.eqb_neq Et2%Z.ltb_ge]. intros [= <-].
  apply read_signing_keys_ok in Er as (Hl & Hn & Hd); [|constructor|set_solver]. simpl in Hl.
  unfold MAX_SIGNING_KEYS in Ec. split; simpl; [by apply Z.eqb_neq|done|lia|done|done|done].
Qed.
End Keys.
