(* ===== verification/FeedDocument.v ===== *)
(** The feed document: parameter proposals for the bundled profiles, their bounds, and what an accepted
    feed changes (crates/dnet-core/src/feed/document.rs and applied.rs). *)

From S2P Require Import Prelude Text Profile Names FeedEnvelope FeedKeys.

(** * Definitions *)

(* src: crates/dnet-core/src/feed/document.rs:21-22 MAX_PROFILES *)
Definition MAX_PROFILES : Z := 16.
(* src: crates/dnet-core/src/feed/document.rs:23-24 MAX_TARGET_CANDIDATES *)
Definition MAX_TARGET_CANDIDATES : Z := 8.

(** ** What serde reads *)

(* src: crates/dnet-core/src/feed/document.rs:58-64 AwgClientJson *)
Record AwgClientJson : Type := mkAwgClientJson { json_jc : option Z; json_jmin : option Z; json_jmax : option Z }.

(* src: crates/dnet-core/src/feed/document.rs:66-75 AwgEndpointJson *)
Record AwgEndpointJson : Type := mkAwgEndpointJson { json_s1 : option Z; json_s2 : option Z; json_h1 : option Z; json_h2 : option Z; json_h3 : option Z; json_h4 : option Z }.

(* src: crates/dnet-core/src/feed/document.rs:77-82 Hy2ClientJson *)
Record Hy2ClientJson : Type := mkHy2ClientJson {
  json_bbr_profile : option BbrProfile;
  json_chrome_parrot : option bool;
}.

(* src: crates/dnet-core/src/feed/document.rs:90-100 ObfsJson *)
Inductive ObfsJson : Type := SalamanderJson | GeckoJson (min_packet_size max_packet_size : Z).

(* src: crates/dnet-core/src/feed/document.rs:84-88 Hy2EndpointJson *)
Record Hy2EndpointJson : Type := mkHy2EndpointJson { json_obfs : option ObfsJson }.

(* src: crates/dnet-core/src/feed/document.rs:102-106 RealityClientJson *)
Record RealityClientJson : Type := mkRealityClientJson { json_utls_fingerprint : option UtlsFingerprint }.

(* src: crates/dnet-core/src/feed/document.rs:108-112 RealityEndpointJson *)
Record RealityEndpointJson : Type := mkRealityEndpointJson {
  json_target_domain_candidates : option (list string);
}.

(* src: crates/dnet-core/src/feed/document.rs:38-56 ProfileEntryJson *)
Inductive ProfileEntryJson : Type :=
  | AmneziaWgJson (profile_id : string) (client : option AwgClientJson) (endpoint : option AwgEndpointJson)
  | Hysteria2Json (profile_id : string) (client : option Hy2ClientJson) (endpoint : option Hy2EndpointJson)
  | VlessRealityJson (profile_id : string) (client : option RealityClientJson) (endpoint : option RealityEndpointJson).

(* src: crates/dnet-core/src/feed/document.rs:28-36 FeedDocumentJson *)
Record FeedDocumentJson : Type := mkFeedDocumentJson {
  feed_json_keys_version : Z;
  feed_json_sequence : Z;
  feed_json_issued_at : Z;
  feed_json_expires_at : Z;
  feed_json_profiles : list ProfileEntryJson;
}.

(** serde_json's reading of a feed payload. *)
Class FeedWire : Type := feed_json : string → result string FeedDocumentJson.

(** ** The validated form *)

(* src: crates/dnet-core/src/feed/document.rs:150-156 JunkPacketProposal *)
Record JunkPacketProposal : Type := mkJunkPacketProposal { jc : option Z; jmin : option Z; jmax : option Z }.

(* src: crates/dnet-core/src/feed/document.rs:158-164 JunkPackets *)
Record JunkPackets : Type := mkJunkPackets { jc_now : Z; jmin_now : Z; jmax_now : Z }.

(* src: crates/dnet-core/src/feed/document.rs:186-195 AmneziaWgHeaderProposal *)
Record AmneziaWgHeaderProposal : Type := mkAmneziaWgHeaderProposal { s1 : option Z; s2 : option Z; h1 : option Z; h2 : option Z; h3 : option Z; h4 : option Z }.

(* src: crates/dnet-core/src/feed/document.rs:197-206 AmneziaWgHeaders *)
Record AmneziaWgHeaders : Type := mkAmneziaWgHeaders { s1_now : Z; s2_now : Z; h1_now : Z; h2_now : Z; h3_now : Z; h4_now : Z }.

(* src: crates/dnet-core/src/feed/document.rs:230-235 Hysteria2ClientProposal *)
Record Hysteria2ClientProposal : Type := mkHysteria2ClientProposal {
  bbr_profile : option BbrProfile;
  chrome_parrot : option bool;
}.

(* src: crates/dnet-core/src/feed/document.rs:243-251 ObfsProposal *)
Inductive ObfsProposal : Type := Salamander | Gecko (min_packet_size max_packet_size : Z).

(* src: crates/dnet-core/src/feed/document.rs:237-241 Hysteria2EndpointProposal *)
Record Hysteria2EndpointProposal : Type := mkHysteria2EndpointProposal { obfs : option ObfsProposal }.

(* src: crates/dnet-core/src/feed/document.rs:253-257 RealityClientProposal *)
Record RealityClientProposal : Type := mkRealityClientProposal { utls_fingerprint : option UtlsFingerprint }.

(* src: crates/dnet-core/src/feed/document.rs:259-264 RealityEndpointProposal *)
Record RealityEndpointProposal : Type := mkRealityEndpointProposal {
  target_domain_candidates : option (list string);
}.

(* src: crates/dnet-core/src/feed/document.rs:133-148 ProposedParams *)
Inductive ProposedParams : Type :=
  | AmneziaWgParams (client : JunkPacketProposal) (endpoint : AmneziaWgHeaderProposal)
  | Hysteria2Params (client : Hysteria2ClientProposal) (endpoint : Hysteria2EndpointProposal)
  | VlessRealityParams (client : RealityClientProposal) (endpoint : RealityEndpointProposal).

(* src: crates/dnet-core/src/feed/document.rs:126-131 ProfileProposal *)
Record ProfileProposal : Type := mkProfileProposal { profile_id : ProfileId; params : ProposedParams }.

(* src: crates/dnet-core/src/feed/document.rs:116-124 FeedDocument *)
Record FeedDocument : Type := mkFeedDocument {
  feed_keys_version : Z;
  sequence : Z;
  feed_issued_at : Z;
  feed_expires_at : Z;
  profiles : list ProfileProposal;
}.

#[export] Instance JunkPacketProposal_eq_dec : EqDecision JunkPacketProposal.
Proof. solve_decision. Defined.
#[export] Instance AmneziaWgHeaderProposal_eq_dec : EqDecision AmneziaWgHeaderProposal.
Proof. solve_decision. Defined.
#[export] Instance Hysteria2ClientProposal_eq_dec : EqDecision Hysteria2ClientProposal.
Proof. solve_decision. Defined.
#[export] Instance ObfsProposal_eq_dec : EqDecision ObfsProposal.
Proof. solve_decision. Defined.
#[export] Instance Hysteria2EndpointProposal_eq_dec : EqDecision Hysteria2EndpointProposal.
Proof. solve_decision. Defined.
#[export] Instance RealityClientProposal_eq_dec : EqDecision RealityClientProposal.
Proof. solve_decision. Defined.
#[export] Instance RealityEndpointProposal_eq_dec : EqDecision RealityEndpointProposal.
Proof. solve_decision. Defined.

Definition no_junk : JunkPacketProposal := mkJunkPacketProposal None None None.
Definition no_headers : AmneziaWgHeaderProposal := mkAmneziaWgHeaderProposal None None None None None None.
Definition no_hy2_client : Hysteria2ClientProposal := mkHysteria2ClientProposal None None.
Definition no_hy2_endpoint : Hysteria2EndpointProposal := mkHysteria2EndpointProposal None.
Definition no_reality_client : RealityClientProposal := mkRealityClientProposal None.
Definition no_reality_endpoint : RealityEndpointProposal := mkRealityEndpointProposal None.

(** ** Checks *)

(* src: crates/dnet-core/src/feed/document.rs:494-502 check_padding_sizes_differ *)
Definition check_padding_sizes_differ (s1 s2 : Z) : result FeedError unit :=
  if bool_decide (u32_checked_add s1 awg.INIT_RESPONSE_SIZE_DIFFERENCE = Some s2) then
    invalid "s2" "must not equal s1 + 56 (padded initiation and response would match in size)"
  else Ok ().

(* src: crates/dnet-core/src/feed/document.rs:504-511 check_distinct_headers *)
Fixpoint check_distinct_headers (headers : list Z) : result FeedError unit :=
  match headers with
  | [] => Ok ()
  | a :: rest =>
      if bool_decide (a ∈ rest) then invalid "h1..h4" "must be pairwise distinct"
      else check_distinct_headers rest
  end.

(* src: crates/dnet-core/src/feed/document.rs:513-519 in_range *)
Definition in_bounds (field : string) (value min max : Z) : result FeedError unit :=
  if (min <=? value) && (value <=? max) then Ok () else invalid field "is out of bounds".

Definition if_some {A} (o : option A) (f : A → result FeedError unit) : result FeedError unit :=
  match o with Some a => f a | None => Ok () end.

(* src: crates/dnet-core/src/feed/document.rs:167-169 JunkPacketProposal::is_empty *)
Definition junk_is_empty (p : JunkPacketProposal) : bool :=
  match jc p, jmin p, jmax p with None, None, None => true | _, _, _ => false end.

(* src: crates/dnet-core/src/feed/document.rs:171-183 JunkPacketProposal::merged_over *)
Definition junk_merged_over (p : JunkPacketProposal) (current : JunkPackets) : result FeedError JunkPackets :=
  let merged := {|
    jc_now := default (jc_now current) (jc p);
    jmin_now := default (jmin_now current) (jmin p);
    jmax_now := default (jmax_now current) (jmax p) |} in
  if jmax_now merged <=? jmin_now merged then invalid "jmin" "must be less than jmax" else Ok merged.

(* src: crates/dnet-core/src/feed/document.rs:209-211 AmneziaWgHeaderProposal::is_empty *)
Definition headers_is_empty (p : AmneziaWgHeaderProposal) : bool := bool_decide (p = no_headers).

(* src: crates/dnet-core/src/feed/document.rs:213-227 AmneziaWgHeaderProposal::merged_over *)
Definition headers_merged_over (p : AmneziaWgHeaderProposal) (current : AmneziaWgHeaders) :
    result FeedError AmneziaWgHeaders :=
  let merged := {|
    s1_now := default (s1_now current) (s1 p);
    s2_now := default (s2_now current) (s2 p);
    h1_now := default (h1_now current) (h1 p);
    h2_now := default (h2_now current) (h2 p);
    h3_now := default (h3_now current) (h3 p);
    h4_now := default (h4_now current) (h4 p) |} in
  _ ← check_padding_sizes_differ (s1_now merged) (s2_now merged);
  _ ← check_distinct_headers [h1_now merged; h2_now merged; h3_now merged; h4_now merged];
  Ok merged.

(** ** Parsing *)

(* src: crates/dnet-core/src/feed/document.rs:393-412 awg_client *)
Definition awg_client (json : AwgClientJson) : result FeedError JunkPacketProposal :=
  _ ← if_some (json_jc json) (fun jc => in_bounds "jc" jc awg.JC_MIN awg.JC_MAX);
  _ ← if_some (json_jmin json) (fun v => in_bounds "jmin" v 0 awg.JUNK_SIZE_MAX);
  _ ← if_some (json_jmax json) (fun v => in_bounds "jmax" v 0 awg.JUNK_SIZE_MAX);
  let proposal := {| jc := json_jc json; jmin := json_jmin json; jmax := json_jmax json |} in
  match json_jmin json, json_jmax json with
  | Some jmin, Some jmax => if jmax <=? jmin then invalid "jmin" "must be less than jmax" else Ok proposal
  | _, _ => Ok proposal
  end.

(* src: crates/dnet-core/src/feed/document.rs:414-445 awg_endpoint *)
Definition awg_endpoint (json : AwgEndpointJson) : result FeedError AmneziaWgHeaderProposal :=
  _ ← if_some (json_s1 json) (fun s1 => in_bounds "s1" s1 0 awg.S1_MAX);
  _ ← if_some (json_s2 json) (fun s2 => in_bounds "s2" s2 0 awg.S2_MAX);
  _ ← match json_s1 json, json_s2 json with
      | Some s1, Some s2 => check_padding_sizes_differ s1 s2
      | _, _ => Ok ()
      end;
  let header field value := if_some value (fun h => in_bounds field h awg.HEADER_MIN awg.HEADER_MAX) in
  _ ← header "h1" (json_h1 json);
  _ ← header "h2" (json_h2 json);
  _ ← header "h3" (json_h3 json);
  _ ← header "h4" (json_h4 json);
  _ ← check_distinct_headers (omap id [json_h1 json; json_h2 json; json_h3 json; json_h4 json]);
  Ok {| s1 := json_s1 json; s2 := json_s2 json;
        h1 := json_h1 json; h2 := json_h2 json; h3 := json_h3 json; h4 := json_h4 json |}.

(* src: crates/dnet-core/src/feed/document.rs:447-468 hy2_endpoint *)
Definition hy2_endpoint (json : Hy2EndpointJson) : result FeedError Hysteria2EndpointProposal :=
  match json_obfs json with
  | None => Ok {| obfs := None |}
  | Some SalamanderJson => Ok {| obfs := Some Salamander |}
  | Some (GeckoJson min_packet_size max_packet_size) =>
      if negb (gecko_packet_sizes_valid min_packet_size max_packet_size) then
        invalid "obfs.min_packet_size" "Gecko sizes must satisfy 256 <= min <= max <= 1400"
      else Ok {| obfs := Some (Gecko min_packet_size max_packet_size) |}
  end.

(* src: crates/dnet-core/src/feed/document.rs:480-488 reality_endpoint *)
Fixpoint read_candidates (validated names : list string) : result FeedError (list string) :=
  match names with
  | [] => Ok validated
  | raw :: rest =>
      match validate_target_domain raw with
      | Err reason => invalid "target_domain_candidates" reason
      | Ok name =>
          if bool_decide (name ∈ validated) then invalid "target_domain_candidates" "lists a name twice"
          else read_candidates (validated ++ [name]) rest
      end
  end.

(* src: crates/dnet-core/src/feed/document.rs:470-492 reality_endpoint *)
Definition reality_endpoint (json : RealityEndpointJson) : result FeedError RealityEndpointProposal :=
  match json_target_domain_candidates json with
  | None => Ok no_reality_endpoint
  | Some candidates =>
      let count := Z.of_nat (length candidates) in
      if (count =? 0) || (MAX_TARGET_CANDIDATES <? count) then
        invalid "target_domain_candidates" "must list 1 to 8 names"
      else
        validated ← read_candidates [] candidates;
        Ok {| target_domain_candidates := Some validated |}
  end.

(** [o.map(f).transpose()?.unwrap_or_default()]. *)
Definition section {A B} (f : A → result FeedError B) (absent : B) (o : option A) : result FeedError B :=
  match o with Some a => f a | None => Ok absent end.

(* src: crates/dnet-core/src/feed/document.rs:314-374 parse_entry *)
Definition entry_params (entry : ProfileEntryJson) :
    result FeedError (string * ProfileKind * ProposedParams * bool) :=
  match entry with
  | AmneziaWgJson id client endpoint =>
      client ← section awg_client no_junk client;
      endpoint ← section awg_endpoint no_headers endpoint;
      Ok (id, AmneziaWg, AmneziaWgParams client endpoint, junk_is_empty client && headers_is_empty endpoint)
  | Hysteria2Json id client endpoint =>
      let client := match client with
                    | Some c => {| bbr_profile := json_bbr_profile c; chrome_parrot := json_chrome_parrot c |}
                    | None => no_hy2_client
                    end in
      endpoint ← section hy2_endpoint no_hy2_endpoint endpoint;
      Ok (id, Hysteria2, Hysteria2Params client endpoint,
          bool_decide (client = no_hy2_client) && bool_decide (endpoint = no_hy2_endpoint))
  | VlessRealityJson id client endpoint =>
      let client := match client with
                    | Some c => {| utls_fingerprint := json_utls_fingerprint c |}
                    | None => no_reality_client
                    end in
      endpoint ← section reality_endpoint no_reality_endpoint endpoint;
      Ok (id, VlessReality, VlessRealityParams client endpoint,
          bool_decide (client = no_reality_client) && bool_decide (endpoint = no_reality_endpoint))
  end.

(* src: crates/dnet-core/src/feed/document.rs:313-391 parse_entry *)
Definition parse_entry (entry : ProfileEntryJson) : result FeedError ProfileProposal :=
  '(id, kind, params, empty) ← entry_params entry;
  if MAX_NAME_LEN <? str_len id then invalid "profile_id" "is too long"
  else
    match bundled_kind id with
    | None => Err (UnknownProfile id)
    | Some defined =>
        if negb (bool_decide (defined = kind)) then Err (KindMismatch id)
        else if (empty : bool) then Err (EmptyProposal id)
        else Ok {| profile_id := id; params := params |}
    end.

(* src: crates/dnet-core/src/feed/document.rs:287-296 FeedDocument::parse *)
Fixpoint read_profiles (seen : list ProfileProposal) (entries : list ProfileEntryJson) :
    result FeedError (list ProfileProposal) :=
  match entries with
  | [] => Ok seen
  | entry :: rest =>
      proposal ← parse_entry entry;
      if existsb (fun p => String.eqb (profile_id p) (profile_id proposal)) seen then
        Err (DuplicateProfile (profile_id proposal))
      else read_profiles (seen ++ [proposal]) rest
  end.

(* src: crates/dnet-core/src/feed/document.rs:268-305 FeedDocument::parse *)
Definition parse_feed `{FeedWire} (payload : string) : result FeedError FeedDocument :=
  json ← match feed_json payload with Ok j => Ok j | Err detail => Err (MalformedPayload FeedDoc detail) end;
  _ ← lifetime (feed_json_issued_at json) (feed_json_expires_at json) FEED_MAX_LIFETIME_SECS "feed lifetime";
  let count := Z.of_nat (length (feed_json_profiles json)) in
  if (count =? 0) || (MAX_PROFILES <? count) then invalid "profiles" "must list 1 to 16 entries"
  else
    read ← read_profiles [] (feed_json_profiles json);
    Ok {| feed_keys_version := feed_json_keys_version json;
          sequence := feed_json_sequence json;
          feed_issued_at := feed_json_issued_at json;
          feed_expires_at := feed_json_expires_at json;
          profiles := read |}.

(* src: crates/dnet-core/src/feed/document.rs:307-310 FeedDocument::check_current *)
Definition feed_check_current (d : FeedDocument) (now : Z) : result FeedError unit :=
  check_issued_and_expiry FeedDoc (feed_issued_at d) (feed_expires_at d) now.

(** ** What an applied feed changes *)

(* src: crates/dnet-core/src/feed/applied.rs:32-40 ClientDefinitions *)
Record ClientDefinitions : Type := mkClientDefinitions {
  hysteria2 : Hysteria2ClientProposal;
  reality : RealityClientProposal;
  definitions_sequence : option Z;
}.

(* src: crates/dnet-core/src/feed/applied.rs:49-56 ClientDefinitions::from_feed *)
Definition define (d : ClientDefinitions) (p : ProfileProposal) : ClientDefinitions :=
  match params p with
  | Hysteria2Params client _ =>
      {| hysteria2 := client; reality := reality d; definitions_sequence := definitions_sequence d |}
  | VlessRealityParams client _ =>
      {| hysteria2 := hysteria2 d; reality := client; definitions_sequence := definitions_sequence d |}
  | AmneziaWgParams _ _ => d
  end.

(* src: crates/dnet-core/src/feed/applied.rs:42-59 ClientDefinitions::from_feed *)
Definition from_feed (document : FeedDocument) : ClientDefinitions :=
  fold_left define (profiles document)
    {| hysteria2 := no_hy2_client; reality := no_reality_client; definitions_sequence := Some (sequence document) |}.

(* src: crates/dnet-core/src/feed/applied.rs:61-66 StagedEndpointUpdate *)
Record StagedEndpointUpdate : Type := mkStagedEndpointUpdate {
  staged_profile : ProfileId;
  staged_params : ProposedParams;
}.

(* src: crates/dnet-core/src/feed/applied.rs:81-87 proposes_endpoint_change *)
Definition proposes_endpoint_change (params : ProposedParams) : bool :=
  match params with
  | AmneziaWgParams _ endpoint => negb (bool_decide (endpoint = no_headers))
  | Hysteria2Params _ endpoint => negb (bool_decide (endpoint = no_hy2_endpoint))
  | VlessRealityParams _ endpoint => negb (bool_decide (endpoint = no_reality_endpoint))
  end.

(* src: crates/dnet-core/src/feed/applied.rs:68-79 staged_endpoint_updates *)
Definition staged_endpoint_updates (document : FeedDocument) : list StagedEndpointUpdate :=
  map (fun p => {| staged_profile := profile_id p; staged_params := params p |})
    (List.filter (fun p => proposes_endpoint_change (params p)) (profiles document)).

(** * Lemmas *)

(** ** Bounds *)

Definition within (lo hi : Z) (o : option Z) : Prop := ∀ v, o = Some v → lo ≤ v ≤ hi.

Record junk_ok (p : JunkPacketProposal) : Prop := {
  jc_ok : within 1 16 (jc p);
  jmin_ok : within 0 1280 (jmin p);
  jmax_ok : within 0 1280 (jmax p);
  junk_order a b : jmin p = Some a → jmax p = Some b → a < b;
}.

Record headers_ok (p : AmneziaWgHeaderProposal) : Prop := {
  s1_ok : within 0 1132 (s1 p);
  s2_ok : within 0 1188 (s2 p);
  h_ok h : h ∈ [h1 p; h2 p; h3 p; h4 p] → within 5 (2 ^ 31 - 1) h;
  padding_differs a b : s1 p = Some a → s2 p = Some b → a + 56 ≠ b;
  headers_distinct : NoDup (omap id [h1 p; h2 p; h3 p; h4 p]);
}.

Definition obfs_ok (p : Hysteria2EndpointProposal) : Prop :=
  ∀ a b, obfs p = Some (Gecko a b) → 256 ≤ a ∧ a ≤ b ∧ b ≤ 1400.

Definition candidates_ok (p : RealityEndpointProposal) : Prop :=
  ∀ names, target_domain_candidates p = Some names →
    (1 ≤ length names ≤ 8)%nat ∧ NoDup names ∧ ∀ name, name ∈ names → target_domain name.

Definition params_ok (ps : ProposedParams) : Prop :=
  match ps with
  | AmneziaWgParams client endpoint => junk_ok client ∧ headers_ok endpoint
  | Hysteria2Params _ endpoint => obfs_ok endpoint
  | VlessRealityParams _ endpoint => candidates_ok endpoint
  end.

Definition params_kind (ps : ProposedParams) : ProfileKind :=
  match ps with
  | AmneziaWgParams _ _ => AmneziaWg
  | Hysteria2Params _ _ => Hysteria2
  | VlessRealityParams _ _ => VlessReality
  end.

Definition proposes_nothing (ps : ProposedParams) : Prop :=
  match ps with
  | AmneziaWgParams client endpoint => client = no_junk ∧ endpoint = no_headers
  | Hysteria2Params client endpoint => client = no_hy2_client ∧ endpoint = no_hy2_endpoint
  | VlessRealityParams client endpoint => client = no_reality_client ∧ endpoint = no_reality_endpoint
  end.

Lemma in_bounds_ok field v lo hi : in_bounds field v lo hi = Ok () ↔ lo ≤ v ≤ hi.
Proof. unfold in_bounds. destruct (_ && _) eqn:E; split; intros H; try done; [|]; lia. Qed.

Lemma if_some_within field o lo hi u : if_some o (fun v => in_bounds field v lo hi) = Ok u → within lo hi o.
Proof. destruct u. destruct o as [v|]; intros H v' [= <-]. by apply in_bounds_ok in H. Qed.

Lemma check_distinct_headers_ok l : check_distinct_headers l = Ok () ↔ NoDup l.
Proof.
  induction l as [|a l IH]; simpl; [split; [constructor|done]|]. rewrite NoDup_cons.
  case_bool_decide; [split; [done|tauto]|]. rewrite IH. tauto.
Qed.

Lemma check_padding_ok a b :
  0 ≤ a → b ≤ U32_MAX → check_padding_sizes_differ a b = Ok () ↔ a + 56 ≠ b.
Proof.
  intros Ha Hb. unfold check_padding_sizes_differ, u32_checked_add, awg.INIT_RESPONSE_SIZE_DIFFERENCE.
  destruct (Z.leb_spec (a + 56) U32_MAX); case_bool_decide as E; split; intros Hx; try done.
  - by injection E.
  - congruence.
  - lia.
Qed.

Lemma awg_client_ok json p : awg_client json = Ok p → junk_ok p.
Proof.
  intros H. unfold awg_client in H. unbind H.
  apply if_some_within in Hu, Hu0, Hu1.
  assert (p = {| jc := json_jc json; jmin := json_jmin json; jmax := json_jmax json |}) as ->.
  { destruct (json_jmin json), (json_jmax json); [destruct (_ <=? _)|..]; by simplify_eq. }
  split; simpl; [done..|]. intros a b Ea Eb. rewrite Ea, Eb in H.
  destruct (b <=? a) eqn:E; [done|]. lia.
Qed.

Lemma awg_endpoint_ok json p : awg_endpoint json = Ok p → headers_ok p.
Proof.
  intros H. unfold awg_endpoint in H. unbind H. simplify_eq.
  apply if_some_within in Hu, Hu0, Hu2, Hu3, Hu4, Hu5. destruct u6. apply check_distinct_headers_ok in Hu6.
  split; simpl; [done|done| | |done].
  - intros h Hh. repeat (apply elem_of_cons in Hh as [->|Hh]; [done|]). by apply elem_of_nil in Hh.
  - intros a b Ea Eb. rewrite Ea, Eb in Hu1. destruct u1. pose proof (Hu _ Ea). pose proof (Hu0 _ Eb).
    apply check_padding_ok in Hu1; unfold awg.S2_MAX, U32_MAX in *; lia.
Qed.

Lemma hy2_endpoint_ok json p : hy2_endpoint json = Ok p → obfs_ok p.
Proof.
  unfold hy2_endpoint. intros H a b E.
  destruct (json_obfs json) as [[|lo hi]|]; simplify_eq/=.
  destruct (gecko_packet_sizes_valid lo hi) eqn:Eg; simplify_eq/=.
  unfold gecko_packet_sizes_valid, GECKO_PACKET_SIZE_MIN, GECKO_PACKET_SIZE_MAX in Eg. lia.
Qed.

Lemma read_candidates_ok validated names l :
  read_candidates validated names = Ok l →
  NoDup validated → (∀ n, n ∈ validated → target_domain n) →
  length l = (length validated + length names)%nat ∧ NoDup l ∧ (∀ n, n ∈ l → target_domain n).
Proof.
  revert validated. induction names as [|raw names IH]; intros validated E Hn Hok; simpl in E.
  { simplify_eq. split_and!; [simpl; lia|done|done]. }
  destruct (validate_target_domain raw) as [name|] eqn:Ev; [|done]. case_bool_decide as Hin; [done|].
  apply validate_target_domain_spec in Ev as [_ Ht].
  apply IH in E as (Hl & ? & ?).
  - split_and!; [rewrite Hl, length_app; simpl; lia|done|done].
  - apply NoDup_app. split_and!; [done|set_solver|apply NoDup_singleton].
  - set_solver.
Qed.

Lemma reality_endpoint_ok json p : reality_endpoint json = Ok p → candidates_ok p.
Proof.
  unfold reality_endpoint. intros H names E.
  destruct (json_target_domain_candidates json) as [cs|]; [|by simplify_eq].
  case_match eqn:Ec; [done|]. apply orb_false_iff in Ec as [Ec1%Z.eqb_neq Ec2%Z.ltb_ge].
  unbind H. simplify_eq/=. apply read_candidates_ok in Hu as (Hl & ? & ?); [|constructor|set_solver].
  unfold MAX_TARGET_CANDIDATES in Ec2. simpl in Hl. split; [lia|done].
Qed.

Lemma section_ok {A B} (f : A → result FeedError B) (P : B → Prop) absent o b :
  (∀ a b, f a = Ok b → P b) → P absent → section f absent o = Ok b → P b.
Proof. intros Hf Ha. destruct o as [a|]; simpl; [apply Hf|]. by intros [= <-]. Qed.

Lemma no_junk_ok : junk_ok no_junk.
Proof. by split. Qed.
Lemma no_headers_ok : headers_ok no_headers.
Proof.
  split; simpl; [done|done| |done|constructor].
  intros h Hh. repeat (apply elem_of_cons in Hh as [->|Hh]; [done|]). by apply elem_of_nil in Hh.
Qed.

Lemma no_obfs_ok : obfs_ok no_hy2_endpoint.
Proof. by intros a b ?. Qed.
Lemma no_candidates_ok : candidates_ok no_reality_endpoint.
Proof. by intros names ?. Qed.

Lemma entry_params_ok entry id kind ps empty :
  entry_params entry = Ok (id, kind, ps, empty) →
  params_kind ps = kind ∧ params_ok ps ∧ (empty = true ↔ proposes_nothing ps).
Proof.
  destruct entry as [i client endpoint|i client endpoint|i client endpoint]; intros H; simpl in H; unbind H;
    injection H as <- <- <- <-; (split; [done|]).
  - split; [split|]; [by apply (section_ok _ _ _ _ _ awg_client_ok no_junk_ok Hu)
                     |by apply (section_ok _ _ _ _ _ awg_endpoint_ok no_headers_ok Hu0)|].
    unfold headers_is_empty. rewrite andb_true_iff, bool_decide_eq_true. simpl.
    assert (junk_is_empty u = true ↔ u = no_junk) as ->; [|done].
    destruct u as [[] [] []]; unfold no_junk; simpl; naive_solver.
  - split; [by apply (section_ok _ _ _ _ _ hy2_endpoint_ok no_obfs_ok Hu)|].
    by rewrite andb_true_iff, !bool_decide_eq_true.
  - split; [by apply (section_ok _ _ _ _ _ reality_endpoint_ok no_candidates_ok Hu)|].
    by rewrite andb_true_iff, !bool_decide_eq_true.
Qed.

(** What a proposal always is. *)
Record proposal_ok (p : ProfileProposal) : Prop := {
  proposal_bundled : bundled_kind (profile_id p) = Some (params_kind (params p));
  proposal_bounds : params_ok (params p);
  proposal_says : ¬ proposes_nothing (params p);
}.

Lemma parse_entry_ok entry p : parse_entry entry = Ok p → proposal_ok p.
Proof.
  intros H. unfold parse_entry in H. apply bind_Ok in H as ([[[id kind] ps] empty] & He & H).
  apply entry_params_ok in He as (Hk & Hp & Hempty).
  destruct (_ <? _); [done|]. destruct (bundled_kind id) as [defined|] eqn:Eb; [|done].
  case_bool_decide as Ed; [|done]. cbn [negb] in H. destruct empty; [done|]. injection H as <-.
  split; simpl; [by rewrite Eb, Ed, Hk|done|]. by rewrite <-Hempty.
Qed.

Lemma read_profiles_ok seen entries ps :
  read_profiles seen entries = Ok ps →
  NoDup (map profile_id seen) → (∀ p, p ∈ seen → proposal_ok p) →
  length ps = (length seen + length entries)%nat ∧ NoDup (map profile_id ps) ∧ (∀ p, p ∈ ps → proposal_ok p).
Proof.
  revert seen. induction entries as [|e entries IH]; intros seen E Hn Hok; simpl in E.
  { simplify_eq. split_and!; [simpl; lia|done|done]. }
  apply bind_Ok in E as (p & Hp & E). apply parse_entry_ok in Hp.
  destruct (existsb _ seen) eqn:Es; [done|]. rewrite existsb_false_elem in Es.
  apply IH in E as (Hl & ? & ?).
  - split_and!; [rewrite Hl, length_app; simpl; lia|done|done].
  - rewrite map_app. apply NoDup_app. split_and!; [done| |apply NoDup_singleton].
    intros i (q & -> & Hq)%elem_of_map Hi%list_elem_of_singleton. simpl in Hi.
    specialize (Es q Hq). by apply String.eqb_neq in Es.
  - intros q [?| ->%list_elem_of_singleton]%elem_of_app; auto.
Qed.

Record feed_ok (d : FeedDocument) : Prop := {
  feed_size : (1 ≤ length (profiles d) ≤ 16)%nat;
  feed_distinct : NoDup (map profile_id (profiles d));
  feed_lifetime : feed_issued_at d < feed_expires_at d ≤ feed_issued_at d + 30 * 86400;
  feed_proposals p : p ∈ profiles d → proposal_ok p;
}.

Lemma parse_feed_ok `{FeedWire} text d : parse_feed text = Ok d → feed_ok d.
Proof.
  unfold parse_feed. intros H0. apply bind_Ok in H0 as (j & Hj & H0). apply bind_Ok in H0 as ([] & Hl & H0).
  apply lifetime_ok in Hl. destruct (_ || _) eqn:Ec; [done|].
  apply orb_false_iff in Ec as [Ec1%Z.eqb_neq Ec2%Z.ltb_ge].
  apply bind_Ok in H0 as (ps & Hps & [= <-]). apply read_profiles_ok in Hps as (Hlen & ? & ?); [|constructor|set_solver].
  unfold MAX_PROFILES in Ec2. simpl in Hlen. split; simpl; [lia|done|exact Hl|done].
Qed.

(** ** Definitions *)

(** One bundled profile for each kind. *)
Lemma bundled_kind_inj a b k : bundled_kind a = Some k → bundled_kind b = Some k → a = b.
Proof.
  assert (∀ i, bundled_kind i = Some k →
    i = match k with AmneziaWg => "awg-default" | Hysteria2 => "hy2-default" | VlessReality => "reality-default" end)
    as Hk.
  { intros i. unfold bundled_kind, BUNDLED_PROFILES. cbn [List.find entry_id].
    destruct (String.eqb_spec "awg-default" i) as [<-|?]; [cbn; by intros [= <-]|].
    destruct (String.eqb_spec "hy2-default" i) as [<-|?]; [cbn; by intros [= <-]|].
    by destruct (String.eqb_spec "reality-default" i) as [<-|?]; cbn; [intros [= <-]|]. }
  intros Ha Hb. by rewrite (Hk a Ha), (Hk b Hb).
Qed.

Lemma proposal_unique d p q :
  feed_ok d → p ∈ profiles d → q ∈ profiles d → params_kind (params p) = params_kind (params q) → p = q.
Proof.
  intros Hd Hp Hq E. apply (NoDup_map_inj profile_id (profiles d)); [apply Hd|done|done|].
  pose proof (proposal_bundled _ (feed_proposals _ Hd p Hp)) as Ep.
  pose proof (proposal_bundled _ (feed_proposals _ Hd q Hq)) as Eq. rewrite <-E in Eq.
  by apply (bundled_kind_inj _ _ _ Ep).
Qed.

(** The client sections in effect are those proposed last, and there is at most one of each. *)
Lemma define_hysteria2 ps d0 client :
  (∀ p c e, p ∈ ps → params p = Hysteria2Params c e → c = client) →
  hysteria2 (fold_left define ps d0) =
    if existsb (fun p => bool_decide (params_kind (params p) = Hysteria2)) ps then client else hysteria2 d0.
Proof.
  revert d0. induction ps as [|p ps IH]; intros d0 Hc; [done|]. simpl. rewrite IH by set_solver.
  destruct (existsb _ ps); [by rewrite orb_true_r|]. rewrite orb_false_r. unfold define.
  destruct (params p) eqn:E; simpl; [done| |done]. apply (Hc p _ _ ltac:(set_solver) E).
Qed.

Lemma define_reality ps d0 client :
  (∀ p c e, p ∈ ps → params p = VlessRealityParams c e → c = client) →
  reality (fold_left define ps d0) =
    if existsb (fun p => bool_decide (params_kind (params p) = VlessReality)) ps then client else reality d0.
Proof.
  revert d0. induction ps as [|p ps IH]; intros d0 Hc; [done|]. simpl. rewrite IH by set_solver.
  destruct (existsb _ ps); [by rewrite orb_true_r|]. rewrite orb_false_r. unfold define.
  destruct (params p) eqn:E; simpl; [done|done|]. apply (Hc p _ _ ltac:(set_solver) E).
Qed.

Lemma proposed p ps k :
  p ∈ ps → params_kind (params p) = k → existsb (fun p => bool_decide (params_kind (params p) = k)) ps = true.
Proof. intros Hp E. apply existsb_exists_elem. exists p. by rewrite bool_decide_eq_true. Qed.

(** * Theorems *)

(** A feed payload that parses holds what the application may act on: between one and sixteen
    entries, each for a different profile this build defines and of that profile's kind, each proposing
    something, and every value within its bounds (junk packets, paddings that stay distinguishable, header
    values clear of the plain message types and pairwise distinct, packet sizes that fit, and one to eight
    distinct, lower-case host names outside the bypassed suffixes); and it lives at most thirty days. *)
Theorem parsed_feed_bounded `{FeedWire} text d :
  parse_feed text = Ok d →
  (1 ≤ length (profiles d) ≤ 16)%nat ∧
  NoDup (map profile_id (profiles d)) ∧
  feed_issued_at d < feed_expires_at d ≤ feed_issued_at d + 30 * 86400 ∧
  ∀ p, p ∈ profiles d →
    bundled_kind (profile_id p) = Some (params_kind (params p)) ∧ params_ok (params p) ∧
    ¬ proposes_nothing (params p).
Proof.
  intros Hd%parse_feed_ok. split_and!; [apply Hd..|]. intros p Hp.
  by destruct (feed_proposals _ Hd p Hp).
Qed.

(** Applying a feed changes exactly the client sections it proposes: the Hysteria 2 and REALITY
    settings in effect are those of its entry for that kind, or the bundled defaults when there is none,
    nothing is taken from an endpoint section or from an AmneziaWG entry, and the proposals offered for the
    endpoint are exactly the entries whose endpoint section says something. *)
Theorem feed_changes_only_client_sections `{FeedWire} text d :
  parse_feed text = Ok d →
  (∀ p c e, p ∈ profiles d → params p = Hysteria2Params c e → hysteria2 (from_feed d) = c) ∧
  ((∀ p, p ∈ profiles d → params_kind (params p) ≠ Hysteria2) → hysteria2 (from_feed d) = no_hy2_client) ∧
  (∀ p c e, p ∈ profiles d → params p = VlessRealityParams c e → reality (from_feed d) = c) ∧
  ((∀ p, p ∈ profiles d → params_kind (params p) ≠ VlessReality) → reality (from_feed d) = no_reality_client) ∧
  (∀ i ps, {| staged_profile := i; staged_params := ps |} ∈ staged_endpoint_updates d ↔
     {| profile_id := i; params := ps |} ∈ profiles d ∧ proposes_endpoint_change ps = true).
Proof.
  intros Hd%parse_feed_ok. unfold from_feed. split_and!.
  - intros p c e Hp E. rewrite (define_hysteria2 _ _ c), (proposed p); [done|done|by rewrite E|].
    intros q c' e' Hq E'. assert (p = q) as -> by (apply (proposal_unique d); rewrite ?E, ?E'; done). congruence.
  - intros Hno. rewrite (define_hysteria2 _ _ no_hy2_client).
    + by case_match.
    + intros p c e Hp E. destruct (Hno p Hp). by rewrite E.
  - intros p c e Hp E. rewrite (define_reality _ _ c), (proposed p); [done|done|by rewrite E|].
    intros q c' e' Hq E'. assert (p = q) as -> by (apply (proposal_unique d); rewrite ?E, ?E'; done). congruence.
  - intros Hno. rewrite (define_reality _ _ no_reality_client).
    + by case_match.
    + intros p c e Hp E. destruct (Hno p Hp). by rewrite E.
  - intros i ps. unfold staged_endpoint_updates. rewrite elem_of_map. split.
    + intros (p & [= -> ->] & [Hp Hc]%elem_of_filter_bool). by destruct p.
    + intros [Hp Hc]. exists {| profile_id := i; params := ps |}. by rewrite elem_of_filter_bool.
Qed.

(** ** Witnesses *)

Definition example_json : FeedDocumentJson := {|
  feed_json_keys_version := 3;
  feed_json_sequence := 7;
  feed_json_issued_at := 1000000;
  feed_json_expires_at := 2000000;
  feed_json_profiles := [
    AmneziaWgJson "awg-default" (Some (mkAwgClientJson (Some 4) (Some 40) (Some 70)))
      (Some (mkAwgEndpointJson (Some 15) (Some 18) (Some 5) (Some 6) None (Some 7)));
    Hysteria2Json "hy2-default" (Some (mkHy2ClientJson (Some Aggressive) None))
      (Some (mkHy2EndpointJson (Some (GeckoJson 300 1200))));
    VlessRealityJson "reality-default" (Some (mkRealityClientJson (Some Edge)))
      (Some (mkRealityEndpointJson (Some ["Www.Example.com"; "cdn.example.org"])))];
|}.
Definition example_feed_wire : FeedWire := fun _ => Ok example_json.
Definition example_feed : FeedDocument := {|
  feed_keys_version := 3;
  sequence := 7;
  feed_issued_at := 1000000;
  feed_expires_at := 2000000;
  profiles := [
    {| profile_id := "awg-default";
       params := AmneziaWgParams (mkJunkPacketProposal (Some 4) (Some 40) (Some 70))
                   (mkAmneziaWgHeaderProposal (Some 15) (Some 18) (Some 5) (Some 6) None (Some 7)) |};
    {| profile_id := "hy2-default";
       params := Hysteria2Params (mkHysteria2ClientProposal (Some Aggressive) None)
                   (mkHysteria2EndpointProposal (Some (Gecko 300 1200))) |};
    {| profile_id := "reality-default";
       params := VlessRealityParams (mkRealityClientProposal (Some Edge))
                   (mkRealityEndpointProposal (Some ["www.example.com"; "cdn.example.org"])) |}];
|}.

Lemma parsed_feed_bounded_witness :
  (1 ≤ length (profiles example_feed) ≤ 16)%nat ∧
  NoDup (map profile_id (profiles example_feed)) ∧
  1000000 < 2000000 ≤ 1000000 + 30 * 86400 ∧
  ∀ p, p ∈ profiles example_feed →
    bundled_kind (profile_id p) = Some (params_kind (params p)) ∧ params_ok (params p) ∧
    ¬ proposes_nothing (params p).
Proof. apply (@parsed_feed_bounded example_feed_wire "feed"). vm_compute. reflexivity. Defined.

Lemma feed_changes_only_client_sections_witness :
  hysteria2 (from_feed example_feed) = mkHysteria2ClientProposal (Some Aggressive) None.
Proof.
  refine (proj1 (@feed_changes_only_client_sections example_feed_wire "feed" example_feed _)
    (mkProfileProposal "hy2-default" (Hysteria2Params (mkHysteria2ClientProposal (Some Aggressive) None)
                   (mkHysteria2EndpointProposal (Some (Gecko 300 1200))))) _ _ _ _).
  - vm_compute. reflexivity.
  - apply elem_of_cons. right. apply elem_of_cons. left. reflexivity.
  - reflexivity.
Defined.
