(* ===== verification/FeedState.v ===== *)
(** Accepting the profile feed: signatures, versions, rollback, re-checking under new keys, restoring at
    startup, and the publisher's rehearsal (crates/dnet-core/src/feed/state.rs, sign.rs and fetch.rs). *)

From Stdlib Require Import Ascii.
From S2P Require Import Prelude Text Portal Selection FeedEnvelope FeedKeys FeedDocument.

(** * Definitions *)

Section State.
Context `{FeedPrimitives, KeysWire, FeedWire}.

(* src: crates/dnet-core/src/feed/state.rs:20-26 AcceptedKeys *)
Record AcceptedKeys : Type := mkAcceptedKeys {
  keys_envelope : string;
  keys_digest : string;
  keys_document : KeysDocument;
}.

(* src: crates/dnet-core/src/feed/state.rs:39-47 AppliedFeed *)
Record AppliedFeed : Type := mkAppliedFeed {
  feed_envelope : string;
  feed_digest : string;
  feed_document : FeedDocument;
  verified : Envelope;
}.

(* src: crates/dnet-core/src/feed/state.rs:60-66 FeedState *)
Record FeedState : Type := mkFeedState {
  keys : option AcceptedKeys;
  feed : option AppliedFeed;
}.

Definition state_default : FeedState := {| keys := None; feed := None |}.

(* src: crates/dnet-core/src/feed/state.rs:91-100 FeedStatus *)
Inductive FeedStatus : Type := BundledDefaults | Current | Stale.

(* src: crates/dnet-core/src/feed/state.rs:77-88 FeedState::status *)
Definition status (s : FeedState) (now : Z) : FeedStatus :=
  match feed s with
  | None => BundledDefaults
  | Some applied =>
      if now <? u64_saturating_add (feed_expires_at (feed_document applied)) CLOCK_SKEW_SECS then Current else Stale
  end.

(* src: crates/dnet-core/src/feed/state.rs:102-113 KeysOutcome *)
Inductive KeysOutcome : Type :=
  | KeysAccepted (state : FeedState) (feed_evicted : bool)
  | KeysUnchanged.

(* src: crates/dnet-core/src/feed/state.rs:115-123 FeedOutcome *)
Inductive FeedOutcome : Type :=
  | FeedAccepted (state : FeedState)
  | FeedUnchanged.

(* src: crates/dnet-core/src/feed/state.rs:319-325 count_all_signing_keys *)
Definition count_all_signing_keys (envelope : Envelope) (d : KeysDocument) : Z :=
  count_signers (signed_message envelope) (signatures envelope) (map key (signing_keys d)).

(* src: crates/dnet-core/src/feed/state.rs:315-317 meets_threshold_ignoring_windows *)
Definition meets_threshold_ignoring_windows (envelope : Envelope) (d : KeysDocument) : bool :=
  signing_threshold d <=? count_all_signing_keys envelope d.

(* src: crates/dnet-core/src/feed/state.rs:298-313 verify_keys *)
Definition verify_keys (trust : FeedTrust) (bytes : string) : result FeedError AcceptedKeys :=
  envelope ← parse_envelope bytes KEYS_PAYLOAD_TYPE KeysDoc;
  let valid := count_signers (signed_message envelope) (signatures envelope) (roots trust) in
  _ ← require_threshold KeysDoc valid ROOT_THRESHOLD;
  document ← parse_keys (payload envelope) trust;
  Ok {| keys_envelope := bytes; keys_digest := sha256 (payload envelope); keys_document := document |}.

(* src: crates/dnet-core/src/feed/state.rs:125-164 accept_keys_document *)
Definition accept_keys_document (trust : FeedTrust) (state : FeedState) (envelope_bytes : string) (now : Z) :
    result FeedError KeysOutcome :=
  accepted ← verify_keys trust envelope_bytes;
  let version := keys_version (keys_document accepted) in
  let floor := match keys state with
               | None => min_keys_version trust
               | Some k => Z.max (keys_version (keys_document k)) (min_keys_version trust)
               end in
  if version <? floor then Err (Rollback KeysDoc)
  else
    let install :=
      _ ← keys_check_current (keys_document accepted) now;
      let kept := match feed state with
                  | Some applied =>
                      if meets_threshold_ignoring_windows (verified applied) (keys_document accepted)
                      then Some applied else None
                  | None => None
                  end in
      let feed_evicted := bool_decide (is_Some (feed state)) && bool_decide (kept = None) in
      Ok (KeysAccepted {| keys := Some accepted; feed := kept |} feed_evicted) in
    match keys state with
    | Some current =>
        if version =? keys_version (keys_document current) then
          if String.eqb (keys_digest accepted) (keys_digest current) then Ok KeysUnchanged
          else Err (Equivocation KeysDoc)
        else install
    | None => install
    end.

(** The order of a feed's [(keys_version, sequence)]. *)
Definition feed_version (d : FeedDocument) : Z * Z := (feed_keys_version d, sequence d).
Definition pair_compare (a b : Z * Z) : comparison := cmp_then (fst a ?= fst b) (snd a ?= snd b).

(* src: crates/dnet-core/src/feed/state.rs:166-223 accept_feed *)
Definition accept_feed (state : FeedState) (envelope_bytes : string) (now : Z) : result FeedError FeedOutcome :=
  envelope ← parse_envelope envelope_bytes FEED_PAYLOAD_TYPE FeedDoc;
  k ← ok_or (keys state) NoKeysDocument;
  if is_expired_at (keys_document k) now then
    Err (NotCurrent KeysDoc "expired, so no new feed is accepted")
  else
    let valid := count_signers (signed_message envelope) (signatures envelope)
                   (map key (List.filter (fun d => is_valid_at d now) (signing_keys (keys_document k)))) in
    _ ← require_threshold FeedDoc valid (signing_threshold (keys_document k));
    document ← parse_feed (payload envelope);
    if negb (feed_keys_version document =? keys_version (keys_document k)) then Err KeysVersionMismatch
    else
      let digest := sha256 (payload envelope) in
      let install :=
        _ ← feed_check_current document now;
        Ok (FeedAccepted {|
          keys := keys state;
          feed := Some {| feed_envelope := envelope_bytes; feed_digest := digest;
                          feed_document := document; verified := envelope |} |}) in
      match feed state with
      | Some applied =>
          match pair_compare (feed_version document) (feed_version (feed_document applied)) with
          | Eq => if String.eqb digest (feed_digest applied) then Ok FeedUnchanged else Err (Equivocation FeedDoc)
          | Lt => Err (Rollback FeedDoc)
          | Gt => install
          end
      | None => install
      end.

(** ** Startup *)

(* src: crates/dnet-core/src/feed/state.rs:225-233 Restored *)
Record Restored : Type := mkRestored {
  restored_state : FeedState;
  keys_discarded : option FeedError;
  feed_discarded : option FeedError;
}.

(* src: crates/dnet-core/src/feed/state.rs:279-296 restore_feed *)
Definition restore_feed (k : option AcceptedKeys) (bytes : string) : result FeedError AppliedFeed :=
  k ← ok_or k NoKeysDocument;
  envelope ← parse_envelope bytes FEED_PAYLOAD_TYPE FeedDoc;
  if negb (meets_threshold_ignoring_windows envelope (keys_document k)) then
    Err (ThresholdNotMet FeedDoc (count_all_signing_keys envelope (keys_document k))
           (signing_threshold (keys_document k)))
  else
    document ← parse_feed (payload envelope);
    Ok {| feed_envelope := bytes; feed_digest := sha256 (payload envelope);
          feed_document := document; verified := envelope |}.

(** [Option<Result<..>>] split into what is kept and what is reported. *)
Definition kept {A} (r : option (result FeedError A)) : option A :=
  match r with Some (Ok a) => Some a | _ => None end.
Definition discarded {A} (r : option (result FeedError A)) : option FeedError :=
  match r with Some (Err e) => Some e | _ => None end.

(* src: crates/dnet-core/src/feed/state.rs:235-277 restore *)
Definition restore (trust : FeedTrust) (keys_bytes feed_bytes : option string) : Restored :=
  let k := option_map (fun bytes =>
             k ← verify_keys trust bytes;
             if keys_version (keys_document k) <? min_keys_version trust then Err (Rollback KeysDoc) else Ok k)
             keys_bytes in
  let f := option_map (restore_feed (kept k)) feed_bytes in
  {| restored_state := {| keys := kept k; feed := kept f |};
     keys_discarded := discarded k;
     feed_discarded := discarded f |}.

(** ** Publishing *)

(** What ed25519-dalek and serde_json provide for signing. *)
Class FeedSigner : Type := {
  SigningKey : Type;
  verifying_key : SigningKey → VerifyingKey;
  sign : SigningKey → string → string;
  envelope_to_vec : EnvelopeJson → string;
}.
Context `{FeedSigner}.

(* src: crates/dnet-core/src/feed/sign.rs:32-48 seal *)
Definition seal (payload_type payload : string) (by_keys : list SigningKey) : string :=
  let message := pae payload_type payload in
  envelope_to_vec {|
    json_payload := base64_encode payload;
    json_payload_type := payload_type;
    json_signatures := map (fun k => {| keyid := ""; sig := base64_encode (sign k message) |}) by_keys |}.

(* src: crates/dnet-core/src/feed/sign.rs:50-56 payload_type *)
Definition type_of_document (document : Document) : string :=
  match document with KeysDoc => KEYS_PAYLOAD_TYPE | FeedDoc => FEED_PAYLOAD_TYPE end.

(* src: crates/dnet-core/src/feed/sign.rs:58-62 check_keys_payload *)
Definition check_keys_payload (text : string) (trust : FeedTrust) : result FeedError KeysDocument :=
  parse_keys text trust.

(* src: crates/dnet-core/src/feed/sign.rs:64-67 check_feed_payload *)
Definition check_feed_payload (text : string) : result FeedError FeedDocument := parse_feed text.

(* src: crates/dnet-core/src/feed/sign.rs:69-85 rehearse_keys *)
Definition rehearse_keys (trust : FeedTrust) (envelope : string) (now : Z) : option (result FeedError KeysDocument) :=
  match accept_keys_document trust state_default envelope now with
  | Err e => Some (Err e)
  | Ok (KeysAccepted state _) => k ← keys state; Some (Ok (keys_document k))
  | Ok KeysUnchanged => None
  end.

(* src: crates/dnet-core/src/feed/sign.rs:87-108 rehearse_feed *)
Definition rehearse_feed (trust : FeedTrust) (envelope_keys envelope_feed : string) (now : Z) :
    option (result FeedError FeedDocument) :=
  match accept_keys_document trust state_default envelope_keys now with
  | Err e => Some (Err e)
  | Ok KeysUnchanged => None
  | Ok (KeysAccepted state _) =>
      match accept_feed state envelope_feed now with
      | Err e => Some (Err e)
      | Ok (FeedAccepted next) => f ← feed next; Some (Ok (feed_document f))
      | Ok FeedUnchanged => None
      end
  end.

(* src: crates/dnet-core/src/feed/sign.rs:110-123 count_valid_signatures *)
Definition count_valid_signatures (envelope : string) (document : Document) (ks : list VerifyingKey) :
    result FeedError Z :=
  parsed ← parse_envelope envelope (type_of_document document) document;
  Ok (count_signers (signed_message parsed) (signatures parsed) ks).
End State.

(** ** Fetching *)

(* src: crates/dnet-core/src/feed/fetch.rs:12-13 FEED_REPOSITORY *)
Definition FEED_REPOSITORY : string := "nikhlgoel/dnet-engine".
(* src: crates/dnet-core/src/feed/fetch.rs:14-16 FEED_RELEASE_TAG *)
Definition FEED_RELEASE_TAG : string := "profile-feed".
(* src: crates/dnet-core/src/feed/fetch.rs:17-18 KEYS_ASSET *)
Definition KEYS_ASSET : string := "feed-keys.dsse.json".
(* src: crates/dnet-core/src/feed/fetch.rs:19-20 FEED_ASSET *)
Definition FEED_ASSET : string := "profile-feed.v1.dsse.json".
(* src: crates/dnet-core/src/feed/fetch.rs:22-25 ALLOWED_HOSTS *)
Definition ALLOWED_HOSTS : list string := ["github.com"; "release-assets.githubusercontent.com"].

(* src: crates/dnet-core/src/feed/fetch.rs:35-38 asset_url *)
Definition asset_url (asset : string) : string :=
  "https://github.com/" +:+ FEED_REPOSITORY +:+ "/releases/download/" +:+ FEED_RELEASE_TAG +:+ "/" +:+ asset.

(* src: crates/dnet-core/src/feed/fetch.rs:40-54 is_allowed_url *)
Definition is_allowed_url (url : string) : bool :=
  match strip_prefix "https://" url with
  | None => false
  | Some rest =>
      let authority := of_ascii (before_any (byte_in ["/"; "?"; "#"]%char) (bytes rest)) in
      if existsb (Ascii.eqb "@") (bytes authority) || existsb (Ascii.eqb ":") (bytes authority) then false
      else existsb (fun allowed => String.eqb (to_ascii_lowercase authority) (to_ascii_lowercase allowed)) ALLOWED_HOSTS
  end.

(* src: crates/dnet-core/src/feed/fetch.rs:56-63 FetchTrigger *)
Inductive FetchTrigger : Type := Scheduled | UserRequested.

(* src: crates/dnet-core/src/feed/fetch.rs:65-75 FetchRoute *)
Inductive FetchRoute : Type := ThroughTunnel | PhysicalNetwork | NotAllowed.

(* src: crates/dnet-core/src/feed/fetch.rs:77-85 fetch_route *)
Definition fetch_route (trigger : FetchTrigger) (posture : RoutingPosture) : FetchRoute :=
  match posture, trigger with
  | Tunnelled _, _ => ThroughTunnel
  | FailClosed, UserRequested => PhysicalNetwork
  | FailClosed, Scheduled => NotAllowed
  end.

(** * Lemmas *)

Section Lemmas.
Context `{FeedPrimitives, KeysWire, FeedWire}.

(** What a keys envelope that verifies holds. *)
Record keys_signed (trust : FeedTrust) (a : AcceptedKeys) (e : Envelope) : Prop := {
  keys_parsed : parse_envelope (keys_envelope a) KEYS_PAYLOAD_TYPE KeysDoc = Ok e;
  keys_threshold_met : 2 ≤ count_signers (pae KEYS_PAYLOAD_TYPE (payload e)) (signatures e) (roots trust);
  keys_payload : parse_keys (payload e) trust = Ok (keys_document a);
  keys_digested : keys_digest a = sha256 (payload e);
}.

Lemma verify_keys_ok trust bytes a :
  verify_keys trust bytes = Ok a ↔ keys_envelope a = bytes ∧ ∃ e, keys_signed trust a e.
Proof.
  unfold verify_keys. split.
  - intros E. apply bind_Ok in E as (e & He & E). apply bind_Ok in E as (u & Ht & E).
    apply bind_Ok in E as (d & Hd & [= <-]). split; [done|]. exists e.
    apply require_threshold_ok in Ht. unfold signed_message in Ht.
    destruct (parse_envelope_ok _ _ _ _ He) as [Et _]. rewrite Et in Ht. split; simpl; done.
  - intros [<- [e [He Ht Hp Hd]]]. rewrite He. cbn [mbind result_bind].
    destruct (parse_envelope_ok _ _ _ _ He) as [Et _]. unfold signed_message. rewrite Et.
    unfold require_threshold, ROOT_THRESHOLD.
    destruct (Z.leb_spec 2 (count_signers (pae KEYS_PAYLOAD_TYPE (payload e)) (signatures e) (roots trust))); [|lia].
    cbn [mbind result_bind]. rewrite Hp. cbn [mbind result_bind]. rewrite <-Hd. by destruct a.
Qed.

(** How an accepted keys document changes the state. *)
Lemma accept_keys_ok trust s bytes now s' evicted :
  accept_keys_document trust s bytes now = Ok (KeysAccepted s' evicted) →
  ∃ a, verify_keys trust bytes = Ok a ∧ keys s' = Some a ∧
    min_keys_version trust ≤ keys_version (keys_document a) ∧
    (∀ k, keys s = Some k → keys_version (keys_document k) < keys_version (keys_document a)) ∧
    keys_check_current (keys_document a) now = Ok () ∧
    feed s' = (applied ← feed s;
               if meets_threshold_ignoring_windows (verified applied) (keys_document a) then Some applied else None) ∧
    evicted = bool_decide (is_Some (feed s)) && bool_decide (feed s' = None).
Proof.
  unfold accept_keys_document. intros E. apply bind_Ok in E as (a & Ha & E). exists a. split; [done|].
  destruct (_ <? _) eqn:Ef; [done|]. apply Z.ltb_ge in Ef.
  destruct (keys s) as [k|] eqn:Ek.
  - destruct (_ =? _) eqn:Ev; [by destruct (String.eqb _ _)|]. apply Z.eqb_neq in Ev.
    apply bind_Ok in E as ([] & Hc & [= <- <-]).
    split_and!; [done|lia|intros k' [= <-]; lia|done|by destruct (feed s)|done].
  - apply bind_Ok in E as ([] & Hc & [= <- <-]).
    split_and!; [done|done|done|done|by destruct (feed s)|done].
Qed.

Definition version_lt (a b : FeedDocument) : Prop :=
  pair_compare (feed_version a) (feed_version b) = Lt.

Lemma pair_compare_flip a b : pair_compare b a = CompOpp (pair_compare a b).
Proof. unfold pair_compare. rewrite (Z.compare_antisym (fst a)), (Z.compare_antisym (snd a)). by destruct (fst a ?= fst b). Qed.

Lemma version_lt_iff a b :
  version_lt a b ↔ feed_keys_version a < feed_keys_version b ∨
    feed_keys_version a = feed_keys_version b ∧ sequence a < sequence b.
Proof.
  unfold version_lt, pair_compare, feed_version. simpl.
  destruct (Z.compare_spec (feed_keys_version a) (feed_keys_version b)); simpl; rewrite ?Z.compare_lt_iff; split; intros Hx; try done; lia.
Qed.

(** How an accepted feed changes the state. *)
Lemma accept_feed_ok s bytes now s' :
  accept_feed s bytes now = Ok (FeedAccepted s') →
  ∃ k e f, keys s = Some k ∧ parse_envelope bytes FEED_PAYLOAD_TYPE FeedDoc = Ok e ∧
    is_expired_at (keys_document k) now = false ∧
    signing_threshold (keys_document k) ≤
      count_signers (pae FEED_PAYLOAD_TYPE (payload e)) (signatures e)
        (map key (List.filter (fun d => is_valid_at d now) (signing_keys (keys_document k)))) ∧
    parse_feed (payload e) = Ok (feed_document f) ∧
    feed_keys_version (feed_document f) = keys_version (keys_document k) ∧
    (∀ old, feed s = Some old → version_lt (feed_document old) (feed_document f)) ∧
    feed_check_current (feed_document f) now = Ok () ∧
    feed_envelope f = bytes ∧ feed_digest f = sha256 (payload e) ∧ verified f = e ∧
    s' = {| keys := Some k; feed := Some f |}.
Proof.
  unfold accept_feed. intros E. apply bind_Ok in E as (e & He & E). apply bind_Ok in E as (k & Hk & E).
  apply ok_or_Ok in Hk. destruct (is_expired_at _ _) eqn:Ex; [done|].
  apply bind_Ok in E as (u & Ht & E). apply bind_Ok in E as (d & Hd & E).
  destruct (_ =? _) eqn:Ev; [|done]. apply Z.eqb_eq in Ev. cbn [negb] in E.
  apply require_threshold_ok in Ht. destruct (parse_envelope_ok _ _ _ _ He) as [Et _].
  unfold signed_message in Ht. rewrite Et in Ht.
  exists k, e, {| feed_envelope := bytes; feed_digest := sha256 (payload e); feed_document := d; verified := e |}.
  assert (feed_check_current d now = Ok () ∧
    (∀ old, feed s = Some old → version_lt (feed_document old) d) ∧
    s' = {| keys := Some k; feed := Some {| feed_envelope := bytes; feed_digest := sha256 (payload e);
                                            feed_document := d; verified := e |} |}) as (? & ? & ?).
  { destruct (feed s) as [old|].
    - destruct (pair_compare _ _) eqn:Ec; [by destruct (String.eqb _ _)|done|].
      apply bind_Ok in E as ([] & Hc & [= <-]). rewrite Hk. split_and!; [done| |done].
      intros old' [= <-]. unfold version_lt. by rewrite pair_compare_flip, Ec.
    - apply bind_Ok in E as ([] & Hc & [= <-]). rewrite Hk. done. }
  simpl. split_and!; done.
Qed.

Lemma restore_feed_ok k bytes f :
  restore_feed (Some k) bytes = Ok f ↔
    feed_envelope f = bytes ∧ parse_envelope bytes FEED_PAYLOAD_TYPE FeedDoc = Ok (verified f) ∧
    meets_threshold_ignoring_windows (verified f) (keys_document k) = true ∧
    parse_feed (payload (verified f)) = Ok (feed_document f) ∧ feed_digest f = sha256 (payload (verified f)).
Proof.
  unfold restore_feed. cbn [ok_or mbind result_bind]. split.
  - intros E. apply bind_Ok in E as (e & He & E). destruct (meets_threshold_ignoring_windows _ _) eqn:Em; [|done].
    cbn [negb] in E. apply bind_Ok in E as (d & Hd & [= <-]). done.
  - intros (<- & -> & Hm & Hd & Hg). cbn [mbind result_bind]. rewrite Hm. cbn [negb]. rewrite Hd.
    cbn [mbind result_bind]. rewrite <-Hg. by destruct f.
Qed.

(** ** The life of the stored feed *)

Context (trust : FeedTrust).

(** What the service does with it: it offers documents and commits what is accepted, and it starts again
    from the bytes it stored. *)
Inductive feed_step : FeedState → FeedState → Prop :=
  | offer_keys s bytes now s' evicted :
      accept_keys_document trust s bytes now = Ok (KeysAccepted s' evicted) → feed_step s s'
  | offer_feed s bytes now s' : accept_feed s bytes now = Ok (FeedAccepted s') → feed_step s s'
  | restart s :
      feed_step s (restored_state
        (restore trust (option_map keys_envelope (keys s)) (option_map feed_envelope (feed s)))).

Definition reachable (s : FeedState) : Prop := rtc feed_step state_default s.

Record state_ok (s : FeedState) : Prop := {
  ok_keys a : keys s = Some a →
    verify_keys trust (keys_envelope a) = Ok a ∧ min_keys_version trust ≤ keys_version (keys_document a);
  ok_feed f : feed s = Some f →
    ∃ a, keys s = Some a ∧ restore_feed (Some a) (feed_envelope f) = Ok f ∧
      feed_keys_version (feed_document f) ≤ keys_version (keys_document a);
}.

Lemma restore_stored s :
  state_ok s →
  restore trust (option_map keys_envelope (keys s)) (option_map feed_envelope (feed s)) =
    {| restored_state := s; keys_discarded := None; feed_discarded := None |}.
Proof.
  intros [Hk Hf]. destruct s as [[a|] [f|]]; simpl in *; unfold restore; simpl.
  - destruct (Hk a eq_refl) as [Hv Hm]. destruct (Hf f eq_refl) as (a' & [= <-] & Hr & _).
    rewrite Hv. cbn [mbind result_bind]. destruct (Z.ltb_spec (keys_version (keys_document a)) (min_keys_version trust)); [lia|].
    simpl. by rewrite Hr.
  - destruct (Hk a eq_refl) as [Hv Hm]. rewrite Hv. cbn [mbind result_bind].
    by destruct (Z.ltb_spec (keys_version (keys_document a)) (min_keys_version trust)); [lia|].
  - by destruct (Hf f eq_refl) as (a' & ? & _).
  - done.
Qed.

Lemma filter_sublist {A} (p : A → bool) l : sublist (List.filter p l) l.
Proof. induction l as [|x l IH]; [constructor|]. simpl. destruct (p x); by constructor. Qed.

Lemma map_sublist {A B} (g : A → B) l k : sublist l k → sublist (map g l) (map g k).
Proof. induction 1; simpl; by constructor. Qed.

Lemma feed_step_ok s s' : state_ok s → feed_step s s' → state_ok s'.
Proof.
  intros Hs Hstep. destruct Hstep as [s bytes now s' evicted E|s bytes now s' E|s].
  - apply accept_keys_ok in E as (a & Ha & Hk & Hmin & Hlt & _ & Hf & _).
    split.
    + intros a' Ea. rewrite Hk in Ea. injection Ea as <-. pose proof Ha as [<- _]%verify_keys_ok. done.
    + intros f Ef. rewrite Hf in Ef. destruct (feed s) as [f0|] eqn:E0; [|done]. simpl in Ef.
      destruct (meets_threshold_ignoring_windows _ _) eqn:Em; [|done]. injection Ef as ->.
      destruct (ok_feed _ Hs f E0) as (k & Ek & Hr & Hle). exists a. split; [done|].
      apply restore_feed_ok in Hr as (? & ? & _ & ? & ?). split; [by apply restore_feed_ok|].
      pose proof (Hlt k Ek). lia.
  - apply accept_feed_ok in E as (k & e & f & Ek & He & _ & Ht & Hd & Hv & _ & _ & Eb & Eg & Ee & ->).
    split; simpl.
    + intros a [= <-]. by apply (ok_keys _ Hs).
    + intros f' [= <-]. exists k. split; [done|]. split; [|lia]. apply restore_feed_ok. rewrite Ee, Eb.
      split_and!; [done|done| |done|done]. unfold meets_threshold_ignoring_windows, count_all_signing_keys, signed_message.
      destruct (parse_envelope_ok _ _ _ _ He) as [-> _]. apply Z.leb_le.
      etransitivity; [exact Ht|]. apply count_signers_sublist, map_sublist, filter_sublist.
  - by rewrite restore_stored.
Qed.

Lemma reachable_ok s : reachable s → state_ok s.
Proof.
  intros Hr. assert (state_ok state_default) as Hd by (split; done). revert Hd.
  induction Hr as [s|s s' s'' Hstep _ IH]; [done|]. intros Hs. by apply IH, (feed_step_ok s).
Qed.

(** ** Versions only go up *)

(** [f] or a newer feed is in effect, or one under newer keys is the only kind that can be accepted. *)
Definition not_rolled_back (f : AppliedFeed) (s : FeedState) : Prop :=
  match feed s with
  | Some f' => f' = f ∨ version_lt (feed_document f) (feed_document f')
  | None => ∃ a, keys s = Some a ∧ feed_keys_version (feed_document f) < keys_version (keys_document a)
  end.

Lemma version_lt_trans a b c : version_lt a b → version_lt b c → version_lt a c.
Proof. rewrite !version_lt_iff. lia. Qed.

Lemma not_rolled_back_step f s s' :
  state_ok s → feed_step s s' → not_rolled_back f s → not_rolled_back f s'.
Proof.
  intros Hs Hstep. unfold not_rolled_back. destruct Hstep as [s bytes now s' evicted E|s bytes now s' E|s].
  - apply accept_keys_ok in E as (a & _ & Hk & _ & Hlt & _ & Hf & _). rewrite Hf, Hk.
    destruct (feed s) as [f0|] eqn:E0; simpl.
    + destruct (ok_feed _ Hs f0 E0) as (k & Ek & _ & Hle). pose proof (Hlt k Ek).
      destruct (meets_threshold_ignoring_windows _ _); [done|]. intros Hor. exists a. split; [done|].
      destruct Hor as [->|Hor%version_lt_iff]; lia.
    + intros (k & Ek & Hle). pose proof (Hlt k Ek). exists a. split; [done|lia].
  - apply accept_feed_ok in E as (k & e & f' & Ek & _ & _ & _ & _ & Hv & Hnew & _ & _ & _ & _ & ->). simpl.
    destruct (feed s) as [f0|] eqn:E0.
    + specialize (Hnew f0 eq_refl). intros [->|Hor]; right; [done|by apply (version_lt_trans _ (feed_document f0))].
    + intros (k' & Ek' & Hle). rewrite Ek in Ek'. injection Ek' as <-. right. apply version_lt_iff. lia.
  - by rewrite restore_stored.
Qed.

Lemma not_rolled_back_star f s s' :
  state_ok s → rtc feed_step s s' → not_rolled_back f s → not_rolled_back f s'.
Proof.
  intros Hs Hr. revert Hs. induction Hr as [s|s s1 s2 Hstep _ IH]; [done|]. intros Hs Hf.
  apply IH; [by apply (feed_step_ok s)|by apply (not_rolled_back_step f s)].
Qed.

Lemma keys_step a s s' :
  state_ok s → feed_step s s' → keys s = Some a →
  ∃ a', keys s' = Some a' ∧ (a' = a ∨ keys_version (keys_document a) < keys_version (keys_document a')).
Proof.
  intros Hs Hstep. destruct Hstep as [s bytes now s' evicted E|s bytes now s' E|s]; intros Ea.
  - apply accept_keys_ok in E as (a' & _ & Hk & _ & Hlt & _). exists a'. auto.
  - apply accept_feed_ok in E as (k & e & f' & Ek & _ & _ & _ & _ & _ & _ & _ & _ & _ & _ & ->). simpl.
    exists k. split; [done|]. left. congruence.
  - rewrite restore_stored by done. eauto.
Qed.

Lemma keys_star a s s' :
  state_ok s → rtc feed_step s s' → keys s = Some a →
  ∃ a', keys s' = Some a' ∧ (a' = a ∨ keys_version (keys_document a) < keys_version (keys_document a')).
Proof.
  intros Hs Hr. revert a Hs. induction Hr as [s|s s1 s2 Hstep _ IH]; intros a Hs Ha; [eauto|].
  destruct (keys_step a s s1 Hs Hstep Ha) as (a1 & Ha1 & Hor).
  destruct (IH a1 (feed_step_ok _ _ Hs Hstep) Ha1) as (a2 & Ha2 & Hor2). exists a2. split; [done|].
  destruct Hor as [->|?], Hor2 as [->|?]; auto; right; lia.
Qed.
End Lemmas.

(** * Theorems *)

Section Theorems.
Context `{FeedPrimitives, KeysWire, FeedWire}.

(** C9. A keys document is accepted only when two different compiled-in root keys signed exactly its bytes
    as a keys document, it obeys the rules for keys documents, it is at least the version this build demands and
    newer than the one held, and it is in date (give or take a day); nothing else about the state changes
    except that an applied feed the new keys do not vouch for is dropped. *)
Theorem keys_accepted_only_when_authentic trust s bytes now s' evicted :
  trust_ok trust →
  accept_keys_document trust s bytes now = Ok (KeysAccepted s' evicted) →
  ∃ a e, keys s' = Some a ∧ parse_envelope bytes KEYS_PAYLOAD_TYPE KeysDoc = Ok e ∧
    (∃ ks, NoDup ks ∧ 2 ≤ Z.of_nat (length ks) ∧
       ∀ k, k ∈ ks → k ∈ roots trust ∧
         ∃ sg, sg ∈ signatures e ∧ verify_strict k (pae KEYS_PAYLOAD_TYPE (payload e)) sg = true) ∧
    parse_keys (payload e) trust = Ok (keys_document a) ∧ keys_ok trust (keys_document a) ∧
    min_keys_version trust ≤ keys_version (keys_document a) ∧
    (∀ old, keys s = Some old → keys_version (keys_document old) < keys_version (keys_document a)) ∧
    keys_issued_at (keys_document a) ≤ now + 86400 ∧ now < keys_expires_at (keys_document a) + 86400 ∧
    (feed s' = feed s ∧ evicted = false ∨
     ∃ f, feed s = Some f ∧ feed s' = None ∧ evicted = true ∧
       count_all_signing_keys (verified f) (keys_document a) < signing_threshold (keys_document a)).
Proof.
  intros Htrust E. apply accept_keys_ok in E as (a & Ha & Hk & Hmin & Hlt & Hcur & Hf & Hev).
  apply verify_keys_ok in Ha as [<- [e [Hp Ht Hd _]]].
  apply check_issued_and_expiry_ok in Hcur as [Hiss Hexp].
  exists a, e. split_and!; try done.
  - apply count_signers_distinct; [apply Htrust|done].
  - by apply parse_keys_ok in Hd.
  - rewrite Hev, Hf. destruct (feed s) as [f|] eqn:E0; simpl; [|by left].
    destruct (meets_threshold_ignoring_windows _ _) eqn:Em; [by left|]. right. exists f.
    split_and!; [done|done|done|]. by apply Z.leb_gt.
Qed.

(** C8. A feed is accepted only when as many different signing keys as the keys document demands, each
    delegated by it and valid at that time, signed exactly its bytes as a feed; it parses, belongs to
    those keys, is newer than the feed applied and is in date; and the keys held stay as they were. *)
Theorem feed_accepted_only_when_authentic trust s bytes now s' :
  reachable trust s →
  accept_feed s bytes now = Ok (FeedAccepted s') →
  ∃ a f, keys s = Some a ∧ keys s' = Some a ∧ feed s' = Some f ∧
    parse_envelope bytes FEED_PAYLOAD_TYPE FeedDoc = Ok (verified f) ∧
    signing_threshold (keys_document a) ≠ 0 ∧
    (∃ ks, NoDup ks ∧ signing_threshold (keys_document a) ≤ Z.of_nat (length ks) ∧
       ∀ k, k ∈ ks →
         (∃ d, d ∈ signing_keys (keys_document a) ∧ key d = k ∧ is_valid_at d now = true ∧ k ∉ roots trust) ∧
         ∃ sg, sg ∈ signatures (verified f) ∧
           verify_strict k (pae FEED_PAYLOAD_TYPE (payload (verified f))) sg = true) ∧
    parse_feed (payload (verified f)) = Ok (feed_document f) ∧
    feed_keys_version (feed_document f) = keys_version (keys_document a) ∧
    (∀ old, feed s = Some old → version_lt (feed_document old) (feed_document f)) ∧
    now < keys_expires_at (keys_document a) + 86400 ∧
    feed_issued_at (feed_document f) ≤ now + 86400 ∧ now < feed_expires_at (feed_document f) + 86400.
Proof.
  intros Hs%reachable_ok E.
  apply accept_feed_ok in E as (a & e & f & Ek & He & Hx & Ht & Hd & Hv & Hnew & Hcur & _ & _ & <- & ->).
  apply check_issued_and_expiry_ok in Hcur as [Hiss Hexp].
  destruct (ok_keys _ _ Hs a Ek) as [(_ & e' & [_ _ Hkp _])%verify_keys_ok _]. apply parse_keys_ok in Hkp as [_ _ _ Hn [Ht0 Ht1] Hdel].
  exists a, f. split_and!; try done.
  - destruct (count_signers_distinct (pae FEED_PAYLOAD_TYPE (payload (verified f))) (signatures (verified f))
      (map key (List.filter (fun d => is_valid_at d now) (signing_keys (keys_document a))))
      (signing_threshold (keys_document a))) as (ks & Hnd & Hlen & Hks).
    + eapply sublist_NoDup; [exact Hn|]. apply map_sublist, filter_sublist.
    + done.
    + exists ks. split_and!; [done|done|]. intros k Hk. destruct (Hks k Hk) as [Hin Hsig]. split; [|done].
      apply elem_of_map in Hin as (d & -> & [Hin Hval]%elem_of_filter_bool). exists d.
      split_and!; [done|done|done|]. by destruct (Hdel d Hin).
  - unfold is_expired_at, u64_saturating_add, CLOCK_SKEW_SECS in Hx. lia.
Qed.

(** C10. Whatever documents are offered, in whatever order, with whatever clock, and however often the service
    starts again from what it stored, nothing accepted is ever rolled back: the keys held are replaced only by a
    strictly higher version, and a feed only by one with a higher keys version or, under the same keys
    version, a higher sequence.  This holds across a time without a feed too, after new keys dropped it. *)
Theorem feed_never_rolls_back trust s s' :
  reachable trust s → rtc (feed_step trust) s s' →
  (∀ a, keys s = Some a → ∃ a', keys s' = Some a' ∧
     (a' = a ∨ keys_version (keys_document a) < keys_version (keys_document a'))) ∧
  (∀ f f', feed s = Some f → feed s' = Some f' →
     f' = f ∨ feed_keys_version (feed_document f) < feed_keys_version (feed_document f') ∨
     feed_keys_version (feed_document f) = feed_keys_version (feed_document f') ∧
     sequence (feed_document f) < sequence (feed_document f')).
Proof.
  intros Hs%reachable_ok Hr. split; [intros a Ha; by apply (keys_star trust a s s')|].
  intros f f' Ef Ef'. assert (not_rolled_back f s') as Hn.
  { apply (not_rolled_back_star trust f s s'); [done|done|]. unfold not_rolled_back. rewrite Ef. by left. }
  unfold not_rolled_back in Hn. rewrite Ef' in Hn. rewrite <-version_lt_iff. done.
Qed.

(** What the service stores is what it gets back: from the bytes of the documents it holds, a start
    rebuilds exactly the same state and discards nothing, at any time and however long after they expired.  In
    every such state the applied feed still carries the signatures that the keys held now demand. *)
Theorem restart_restores trust s :
  reachable trust s →
  restore trust (option_map keys_envelope (keys s)) (option_map feed_envelope (feed s)) =
    {| restored_state := s; keys_discarded := None; feed_discarded := None |} ∧
  ∀ f, feed s = Some f → ∃ a, keys s = Some a ∧
    signing_threshold (keys_document a) ≤ count_all_signing_keys (verified f) (keys_document a).
Proof.
  intros Hs%reachable_ok. split; [by apply restore_stored|]. intros f Ef.
  destruct (ok_feed _ _ Hs f Ef) as (a & Ea & (_ & _ & Hm & _)%restore_feed_ok & _). exists a. split; [done|].
  by apply Z.leb_le.
Qed.
End Theorems.

(** ** Publishing *)

Section Publishing.
Context `{FeedPrimitives, KeysWire, FeedWire, !FeedSigner}.

(** What base64, ed25519 and serde_json promise a publisher. *)
Class SignerLaws : Prop := {
  base64_round_trip b : base64_decode (base64_encode b) = Some b;
  envelope_round_trip j : envelope_json (envelope_to_vec j) = Some j;
  signature_size k m : String.length (sign k m) = 64%nat;
  signature_verifies k m : verify_strict (verifying_key k) m (signature_from_bytes (sign k m)) = true;
}.
Context `{!SignerLaws}.

Lemma decode_canonical_base64 b : decode_canonical (base64_encode b) = Some b.
Proof. unfold decode_canonical. rewrite base64_round_trip. simpl. by rewrite String.eqb_refl. Qed.

Lemma read_signatures_sealed message by_keys :
  read_signatures (map (fun k => {| keyid := ""; sig := base64_encode (sign k message) |}) by_keys) =
    Ok (map (fun k => signature_from_bytes (sign k message)) by_keys).
Proof.
  induction by_keys as [|k ks IH]; [done|]. simpl. rewrite decode_canonical_base64. simpl.
  unfold sized. rewrite signature_size. simpl. by rewrite IH.
Qed.

Lemma parse_sealed t text by_keys document :
  str_len (seal t text by_keys) ≤ ENVELOPE_MAX_BYTES → (1 ≤ length by_keys ≤ 8)%nat →
  parse_envelope (seal t text by_keys) t document = Ok {|
    payload := text;
    signatures := map (fun k => signature_from_bytes (sign k (pae t text))) by_keys;
    payload_type := t |}.
Proof.
  intros Hsize Hn. unfold parse_envelope.
  destruct (Z.ltb_spec ENVELOPE_MAX_BYTES (str_len (seal t text by_keys))); [lia|].
  unfold seal. rewrite envelope_round_trip. cbn [ok_or mbind result_bind json_payload_type json_signatures json_payload].
  rewrite String.eqb_refl. cbn [negb]. rewrite length_map.
  destruct by_keys as [|k ks]; [simpl in Hn; lia|]. rewrite bool_decide_eq_false_2 by done. cbn [orb].
  destruct (Z.ltb_spec MAX_SIGNATURES (Z.of_nat (length (k :: ks)))); [unfold MAX_SIGNATURES in *; lia|].
  rewrite decode_canonical_base64. cbn [ok_or mbind result_bind]. by rewrite read_signatures_sealed.
Qed.

(** What the publisher seals is what the client reads: an envelope within the size limit with one to
    eight signers is read back as exactly the payload and type that were sealed, and each of the signers'
    keys counts, by the client's own rule, when the signatures are counted. *)
Theorem sealed_envelope_reads_back document text by_keys ks :
  str_len (seal (type_of_document document) text by_keys) ≤ ENVELOPE_MAX_BYTES →
  (1 ≤ length by_keys ≤ 8)%nat →
  (∃ e, parse_envelope (seal (type_of_document document) text by_keys) (type_of_document document) document = Ok e ∧
     payload e = text ∧ payload_type e = type_of_document document ∧ length (signatures e) = length by_keys) ∧
  ∃ n, count_valid_signatures (seal (type_of_document document) text by_keys) document ks = Ok n ∧
    Z.of_nat (length (List.filter (fun k => bool_decide (k ∈ map verifying_key by_keys)) ks)) ≤ n.
Proof.
  intros Hsize Hn. pose proof (parse_sealed _ _ _ document Hsize Hn) as Hp. split.
  - eexists. split; [exact Hp|]. simpl. by rewrite length_map.
  - unfold count_valid_signatures. rewrite Hp. cbn [mbind result_bind]. eexists. split; [done|].
    unfold count_signers, signers, signed_message. simpl.
    induction ks as [|k ks IH]; [done|]. simpl. case_bool_decide as Hk.
    + assert (existsb (verify_strict k (pae (type_of_document document) text))
        (map (fun k => signature_from_bytes (sign k (pae (type_of_document document) text))) by_keys) = true) as ->.
      { apply elem_of_map in Hk as (s & -> & Hs). apply existsb_exists_elem.
        exists (signature_from_bytes (sign s (pae (type_of_document document) text))).
        split; [apply elem_of_map; eauto|apply signature_verifies]. }
      simpl. lia.
    + destruct (existsb _ _); simpl; lia.
Qed.
End Publishing.

(** The rehearsal before publishing says exactly what a fresh install would do with the documents: it gives
    the keys or the feed that install would hold, or the reason it would refuse them, and never stops
    short of an answer. *)
Theorem rehearsal_is_a_fresh_install `{FeedPrimitives, KeysWire, FeedWire} trust envelope_keys envelope_feed now :
  (∃ r, rehearse_keys trust envelope_keys now = Some r ∧
     match r with
     | Err e => accept_keys_document trust state_default envelope_keys now = Err e
     | Ok d => ∃ s a, accept_keys_document trust state_default envelope_keys now = Ok (KeysAccepted s false) ∧
                 keys s = Some a ∧ keys_document a = d
     end) ∧
  (∃ r, rehearse_feed trust envelope_keys envelope_feed now = Some r ∧
     ∀ d, r = Ok d → ∃ s s' f,
       accept_keys_document trust state_default envelope_keys now = Ok (KeysAccepted s false) ∧
       accept_feed s envelope_feed now = Ok (FeedAccepted s') ∧ feed s' = Some f ∧ feed_document f = d).
Proof.
  unfold rehearse_keys, rehearse_feed.
  destruct (accept_keys_document trust state_default envelope_keys now) as [[s evicted|]|e] eqn:Ek.
  - pose proof Ek as (a & _ & Ha & _ & _ & _ & Hf & ->)%accept_keys_ok. simpl in Hf.
    split; [rewrite Ha; simpl; eexists; split; [done|]; simpl; by exists s, a|].
    destruct (accept_feed s envelope_feed now) as [[s'|]|e] eqn:Ef.
    + pose proof Ef as (k & e & f & _ & _ & _ & _ & _ & _ & _ & _ & _ & _ & _ & ->)%accept_feed_ok. simpl.
      eexists. split; [done|]. intros d [= <-]. eauto 10.
    + exfalso. revert Ef. unfold accept_feed. rewrite Hf. intros Ef.
      apply bind_Ok in Ef as (? & _ & Ef). apply bind_Ok in Ef as (? & _ & Ef). destruct (is_expired_at _ _); [done|].
      apply bind_Ok in Ef as (? & _ & Ef). apply bind_Ok in Ef as (? & _ & Ef). destruct (negb _); [done|].
      by apply bind_Ok in Ef as (? & _ & Ef).
    + eexists. split; [done|]. done.
  - exfalso. revert Ek. unfold accept_keys_document. intros Ek. apply bind_Ok in Ek as (? & _ & Ek).
    destruct (_ <? _); [done|]. by apply bind_Ok in Ek as (? & _ & Ek).
  - split; eexists; (split; [done|done]).
Qed.

(** ** Fetching *)

Lemma before_any_split p l :
  ∃ rest, l = before_any p l ++ rest ∧ (rest = [] ∨ ∃ c r, rest = c :: r ∧ p c = true).
Proof.
  induction l as [|x l (rest & E & Hr)]; [exists []; auto|]. simpl.
  destruct (p x) eqn:Ep; [exists (x :: l); eauto 10|]. exists rest. split; [simpl; by f_equal|done].
Qed.

(** A fetch goes to one of the two hosts over HTTPS, whatever follows the host. *)
Lemma is_allowed_url_host url :
  is_allowed_url url = true →
  ∃ host rest, url = "https://" +:+ host +:+ of_ascii rest ∧ to_ascii_lowercase host ∈ ALLOWED_HOSTS ∧
    (rest = [] ∨ ∃ c r, rest = c :: r ∧ c ∈ ["/"; "?"; "#"]%char).
Proof.
  unfold is_allowed_url. destruct (strip_prefix "https://" url) as [rest|] eqn:E; [|done].
  apply strip_prefix_spec in E as ->. set (p := byte_in ["/"; "?"; "#"]%char).
  destruct (existsb _ _ || _); [done|].
  intros (allowed & Hin & Heq%String.eqb_eq)%existsb_exists_elem.
  destruct (before_any_split p (bytes rest)) as (r & Er & Hr).
  exists (of_ascii (before_any p (bytes rest))), r. split_and!.
  - f_equal. by rewrite <-of_ascii_app, <-Er, of_ascii_bytes.
  - rewrite Heq. assert (to_ascii_lowercase allowed = allowed) as ->; [|done].
    repeat (apply elem_of_cons in Hin as [->|Hin]; [vm_compute; reflexivity|]). by apply elem_of_nil in Hin.
  - destruct Hr as [?|(c & r' & -> & Hc)]; [by left|]. right. exists c, r'. split; [done|].
    unfold p, byte_in in Hc. apply existsb_exists_elem in Hc as (c' & Hc' & ->%Ascii.eqb_eq). done.
Qed.

Lemma assets_are_allowed : is_allowed_url (asset_url KEYS_ASSET) = true ∧ is_allowed_url (asset_url FEED_ASSET) = true.
Proof. vm_compute. done. Qed.

(** ** Witnesses

    A small instance of the libraries: a key is 32 equal letters, a signature is the key twice, base64
    and SHA-256 are the identity, and an envelope is written as the bits of its code. *)

Module Toy.

Fixpoint bits_of (p : positive) : string :=
  match p with xH => EmptyString | xO p => String "0" (bits_of p) | xI p => String "1" (bits_of p) end.
Fixpoint of_bits (s : string) : positive :=
  match s with EmptyString => xH | String c s => if Ascii.eqb c "0" then xO (of_bits s) else xI (of_bits s) end.

Lemma of_bits_of p : of_bits (bits_of p) = p.
Proof. induction p as [p IH|p IH|]; simpl; [by rewrite IH..|done]. Qed.

Definition fields (j : EnvelopeJson) : string * string * list (string * string) :=
  (json_payload j, json_payload_type j, map (fun s => (keyid s, sig s)) (json_signatures j)).
Definition of_fields (f : string * string * list (string * string)) : EnvelopeJson :=
  mkEnvelopeJson f.1.1 f.1.2 (map (fun s => mkSignatureJson s.1 s.2) f.2).

Lemma of_fields_fields j : of_fields (fields j) = j.
Proof.
  destruct j as [p t ss]. unfold of_fields, fields. simpl. f_equal. induction ss as [|[k s] ss IH]; [done|].
  simpl. by rewrite IH.
Qed.

Definition to_vec (j : EnvelopeJson) : string := bits_of (encode (fields j)).
Definition from_slice (s : string) : option EnvelopeJson := of_fields <$> decode (of_bits s).

Definition letters (n : nat) : string := of_ascii (repeat (Ascii.ascii_of_nat (65 + n mod 26)) 32).

#[export] Instance primitives : FeedPrimitives := {|
  VerifyingKey := string;
  key_from_bytes := Some;
  is_weak := fun _ => false;
  Signature := string;
  signature_from_bytes := fun b => b;
  verify_strict := fun k _ s => String.eqb s (k +:+ k);
  base64_encode := fun b => b;
  base64_decode := Some;
  sha256 := fun b => b;
  envelope_json := from_slice;
|}.

#[export] Instance signer : FeedSigner := {|
  SigningKey := nat;
  verifying_key := letters;
  sign := fun k _ => letters k +:+ letters k;
  envelope_to_vec := to_vec;
|}.

#[export] Instance laws : SignerLaws.
Proof.
  split.
  - done.
  - intros j. simpl. unfold from_slice, to_vec. rewrite of_bits_of, decode_encode. simpl. by rewrite of_fields_fields.
  - intros k m. change (String.length (letters k +:+ letters k) = 64%nat).
    rewrite <-length_bytes, bytes_app, length_app. unfold letters. by rewrite bytes_of_ascii, repeat_length.
  - intros k m. exact (String.eqb_refl (letters k +:+ letters k)).
Qed.

#[export] Instance keys_wire : KeysWire := fun _ => Ok {|
  json_keys_version := 3; json_issued_at := 1000000; json_expires_at := 3000000; json_signing_threshold := 1;
  json_signing_keys := [{| json_public_key := letters 9; json_not_before := 1000000; json_not_after := 2000000 |}] |}.
#[export] Instance feed_wire : FeedWire := example_feed_wire.

Definition trust : FeedTrust := {| roots := [letters 0; letters 1; letters 2]; min_keys_version := 2 |}.
Definition keys_bytes : string := seal KEYS_PAYLOAD_TYPE "keys" [0%nat; 2%nat].
Definition feed_bytes : string := seal FEED_PAYLOAD_TYPE "feed" [9%nat].
Definition accepted : AcceptedKeys := {|
  keys_envelope := keys_bytes; keys_digest := "keys";
  keys_document := {|
    keys_version := 3; keys_issued_at := 1000000; keys_expires_at := 3000000; signing_threshold := 1;
    signing_keys := [{| key := (letters 9 : @VerifyingKey primitives); not_before := 1000000; not_after := 2000000 |}] |} |}.
Definition applied : AppliedFeed := {|
  feed_envelope := feed_bytes; feed_digest := "feed"; feed_document := example_feed;
  verified := {| payload := "feed"; signatures := [letters 9 +:+ letters 9 : @Signature primitives];
                 payload_type := FEED_PAYLOAD_TYPE |} |}.
Definition with_keys : FeedState := {| keys := Some accepted; feed := None |}.
Definition with_feed : FeedState := {| keys := Some accepted; feed := Some applied |}.

Lemma trust_sound : trust_ok trust.
Proof. apply (trust_new_ok (letters 0) (letters 1) (letters 2) 2). vm_compute. reflexivity. Qed.

Lemma keys_offered : accept_keys_document trust state_default keys_bytes 1500000 = Ok (KeysAccepted with_keys false).
Proof. vm_compute. reflexivity. Qed.
Lemma feed_offered : accept_feed with_keys feed_bytes 1500000 = Ok (FeedAccepted with_feed).
Proof. vm_compute. reflexivity. Qed.

Lemma keys_reached : reachable trust with_keys.
Proof. eapply rtc_once, offer_keys, keys_offered. Qed.
Lemma feed_reached : rtc (feed_step trust) with_keys with_feed.
Proof. eapply rtc_once, offer_feed, feed_offered. Qed.
Lemma both_reached : reachable trust with_feed.
Proof. unfold reachable. etrans; [exact keys_reached|exact feed_reached]. Qed.
End Toy.

Import Toy.

Lemma keys_accepted_only_when_authentic_witness :
  ∃ a, keys Toy.with_keys = Some a ∧ 2 ≤ keys_version (keys_document a) ∧
    ∃ ks, NoDup ks ∧ 2 ≤ Z.of_nat (length ks) ∧ ∀ k, k ∈ ks → k ∈ roots Toy.trust.
Proof.
  destruct (keys_accepted_only_when_authentic Toy.trust state_default Toy.keys_bytes 1500000 Toy.with_keys false
              Toy.trust_sound Toy.keys_offered) as (a & e & Ha & _ & (ks & Hn & Hl & Hks) & _ & _ & Hmin & _).
  exists a. refine (conj Ha (conj Hmin _)). exists ks. exact (conj Hn (conj Hl (fun k Hk => proj1 (Hks k Hk)))).
Defined.

Lemma feed_accepted_only_when_authentic_witness :
  ∃ a f, keys Toy.with_keys = Some a ∧ keys Toy.with_feed = Some a ∧ feed Toy.with_feed = Some f ∧
    feed_keys_version (feed_document f) = keys_version (keys_document a).
Proof.
  destruct (feed_accepted_only_when_authentic Toy.trust Toy.with_keys Toy.feed_bytes 1500000 Toy.with_feed
              Toy.keys_reached Toy.feed_offered) as (a & f & Ha & Ha' & Hf & _ & _ & _ & _ & Hv & _).
  exists a, f. exact (conj Ha (conj Ha' (conj Hf Hv))).
Defined.

Lemma feed_never_rolls_back_witness :
  ∃ a', keys Toy.with_feed = Some a' ∧ (a' = Toy.accepted ∨ 3 < keys_version (keys_document a')).
Proof.
  exact (proj1 (feed_never_rolls_back Toy.trust Toy.with_keys Toy.with_feed Toy.keys_reached Toy.feed_reached)
           Toy.accepted eq_refl).
Defined.

Lemma restart_restores_witness :
  restore Toy.trust (Some Toy.keys_bytes) (Some Toy.feed_bytes) =
    {| restored_state := Toy.with_feed; keys_discarded := None; feed_discarded := None |}.
Proof. exact (proj1 (restart_restores Toy.trust Toy.with_feed Toy.both_reached)). Defined.

Lemma sealed_envelope_reads_back_witness :
  ∃ n, count_valid_signatures Toy.keys_bytes KeysDoc (roots Toy.trust) = Ok n ∧ 2 ≤ n.
Proof.
  refine (proj2 (sealed_envelope_reads_back (H2 := Toy.signer) KeysDoc "keys" [0%nat; 2%nat] (roots Toy.trust) _ _)).
  - apply Z.leb_le. vm_compute. reflexivity.
  - simpl. lia.
Defined.
