(* ===== verification/Json.v ===== *)
(** JSON values as serde_json gives them to the code, and the text they are read from and written to. *)

From Stdlib Require Import SpecFloat.
From S2P Require Import Prelude Float Text.

(** * Definitions

    [serde_json::Value].  A number is an integer, or a double; an object is a map from keys to values. *)

Inductive Number : Type := Int (n : Z) | Float (x : f64).

Inductive Value : Type :=
  | Null
  | Bool (b : bool)
  | Num (n : Number)
  | Str (s : string)
  | Array (items : list Value)
  | Object (fields : gmap string Value).

(** Reading and writing the text is serde_json's. *)
Class JsonText : Type := {
  from_str : string → result string Value;
  json_to_string : Value → string;
}.

Definition as_object (v : Value) : option (gmap string Value) :=
  match v with Object fields => Some fields | _ => None end.
Definition as_array (v : Value) : option (list Value) :=
  match v with Array items => Some items | _ => None end.
Definition as_str (v : Value) : option string :=
  match v with Str s => Some s | _ => None end.
Definition as_bool (v : Value) : option bool :=
  match v with Bool b => Some b | _ => None end.
(** [as_u64]: an integer that a [u64] holds. *)
Definition as_u64 (v : Value) : option Z :=
  match v with Num (Int n) => if (0 <=? n) && (n <=? U64_MAX) then Some n else None | _ => None end.
(** [as_f64]: any number, an integer rounded to a double. *)
Definition as_f64 (v : Value) : option f64 :=
  match v with Num (Int n) => Some (f64_of_Z n) | Num (Float x) => Some x | _ => None end.
(** [u32::try_from] and [u16::try_from]. *)
Definition try_u32 (n : Z) : option Z := if n <=? U32_MAX then Some n else None.
Definition try_u16 (n : Z) : option Z := if n <=? U16_MAX then Some n else None.

(** [value.get(key)]: [None] for anything but an object that has the key. *)
Definition get (v : Value) (key : string) : option Value := fields ← as_object v; fields !! key.

(** [Option::filter]. *)
Definition filter_opt {A} (p : A → bool) (o : option A) : option A :=
  a ← o; if p a then Some a else None.

(** [json!({..})] and a [Map] built by [insert]. *)
Definition object (fields : list (string * Value)) : Value := Object (list_to_map fields).

(** * Lemmas *)

(** The first of the fields written under a key. *)
Fixpoint assoc (key : string) (fields : list (string * Value)) : option Value :=
  match fields with
  | [] => None
  | (k, v) :: fields => if String.eqb k key then Some v else assoc key fields
  end.

Lemma get_object fields key : get (object fields) key = assoc key fields.
Proof.
  unfold get, object. simpl. induction fields as [|[k v] fields IH]; [done|]. simpl.
  destruct (String.eqb_spec k key) as [->|Hk]; [by rewrite lookup_insert_eq|by rewrite lookup_insert_ne].
Qed.

Lemma get_insert fields k v key :
  get (Object (<[k := v]> fields)) key = if String.eqb k key then Some v else get (Object fields) key.
Proof.
  unfold get. simpl.
  destruct (String.eqb_spec k key) as [->|Hk]; [by rewrite lookup_insert_eq|by rewrite lookup_insert_ne].
Qed.

Lemma filter_opt_Some {A} (p : A → bool) o a : filter_opt p o = Some a ↔ o = Some a ∧ p a = true.
Proof.
  destruct o as [b|]; simpl; [|split; [done|by intros [? _]]].
  destruct (p b) eqn:E; split; try done; [by intros [= <-]|by intros [[= <-] _]|].
  intros [[= <-] E']. congruence.
Qed.

Lemma as_str_Some v s : as_str v = Some s ↔ v = Str s.
Proof. destruct v; simpl; split; intros H; try done; by injection H as ->. Qed.

Lemma as_u64_range v n : as_u64 v = Some n → 0 ≤ n ≤ U64_MAX.
Proof.
  destruct v as [| |[m|]| | |]; simpl; try done. destruct (_ && _) eqn:E; [|done]. intros [= <-]. lia.
Qed.

Example get_after_parse :
  (get (object [("a", Str "x"); ("b", Num (Int 3))]) "b" ≫= as_u64) = Some 3.
Proof. vm_compute. reflexivity. Qed.
