(* ===== verification/Frame.v ===== *)
(** The frames of the control pipe and the loop that takes them off the stream
    (crates/dnet-ipc/src/frame.rs and the framing loop of server.rs). *)

From Stdlib Require Import Ascii.
From S2P Require Import Prelude Text.

(** * Definitions *)

Abbreviation Bytes := (list Ascii.ascii) (only parsing).

(* src: crates/dnet-ipc/src/frame.rs:6-7 HEADER_LEN *)
Definition HEADER_LEN : nat := 4.
(* src: crates/dnet-ipc/src/frame.rs:9-15 MAX_FRAME_LEN *)
Definition MAX_FRAME_LEN : Z := 1024 * 1024.

(* src: crates/dnet-ipc/src/frame.rs:17-31 FrameError *)
Inductive FrameError : Type :=
  | Oversized (declared max : Z)
  | Malformed.

(* src: crates/dnet-ipc/src/frame.rs:33-40 Frame *)
Record Frame : Type := mkFrame { frame_payload : string; consumed : nat }.

(** ** The standard library *)

(** [u32::from_le_bytes] and [u32::to_le_bytes]. *)
Definition from_le_bytes (l : Bytes) : Z := fold_right (fun b acc => byte_value b + 256 * acc) 0 l.
Fixpoint to_le_bytes (n : nat) (v : Z) : Bytes :=
  match n with O => [] | S n => byte_of (v mod 256) :: to_le_bytes n (v / 256) end.

(** [std::str::from_utf8]: the well-formed byte sequences of the Unicode standard. *)
Fixpoint is_utf8 (l : Bytes) : bool :=
  let follow lo hi b := in_range lo hi b in
  match l with
  | [] => true
  | b :: l =>
      if in_range 0 127 b then is_utf8 l
      else
        match l with
        | [] => false
        | b1 :: l1 =>
            if in_range 194 223 b then follow 128 191 b1 && is_utf8 l1
            else
              match l1 with
              | [] => false
              | b2 :: l2 =>
                  let first3 := if in_range 224 224 b then Some (160, 191)
                                else if in_range 237 237 b then Some (128, 159)
                                else if in_range 225 239 b then Some (128, 191) else None in
                  match first3 with
                  | Some (lo, hi) => follow lo hi b1 && follow 128 191 b2 && is_utf8 l2
                  | None =>
                      match l2 with
                      | [] => false
                      | b3 :: l3 =>
                          let first4 := if in_range 240 240 b then Some (144, 191)
                                        else if in_range 241 243 b then Some (128, 191)
                                        else if in_range 244 244 b then Some (128, 143) else None in
                          match first4 with
                          | Some (lo, hi) => follow lo hi b1 && follow 128 191 b2 && follow 128 191 b3 && is_utf8 l3
                          | None => false
                          end
                      end
                  end
              end
        end
  end.

(** ** Frames *)

(** The slices are within the buffer, by the two length tests before them. *)
(* src: crates/dnet-ipc/src/frame.rs:42-78 decode *)
Definition decode (buf : Bytes) : result FrameError (option Frame) :=
  if bool_decide (length buf < HEADER_LEN)%nat then Ok None
  else
    let declared := from_le_bytes (take HEADER_LEN buf) in
    if MAX_FRAME_LEN <? declared then Err (Oversized declared MAX_FRAME_LEN)
    else
      let end_ := (HEADER_LEN + Z.to_nat declared)%nat in
      if bool_decide (length buf < end_)%nat then Ok None
      else
        let payload := drop HEADER_LEN (take end_ buf) in
        if is_utf8 payload then Ok (Some {| frame_payload := of_ascii payload; consumed := end_ |})
        else Err Malformed.

(* src: crates/dnet-ipc/src/frame.rs:80-94 encode *)
Definition encode (payload : string) : result FrameError Bytes :=
  let len := str_len payload in
  if MAX_FRAME_LEN <? len then Err (Oversized len MAX_FRAME_LEN)
  else Ok (to_le_bytes 4 (len mod 2 ^ 32) ++ bytes payload).

(** ** The loop *)

(** What one read gives: bytes, the end of the stream, an error, or nothing for longer than a client may stay
    silent. *)
Inductive ReadResult : Type :=
  | Chunk (chunk : Bytes)
  | ReadFailed
  | IdleTooLong.

(** What the handler answers: nothing, a response, or a subscription [V] that takes the connection over. *)
(* src: crates/dnet-ipc/src/server.rs:160-166 Reply *)
Inductive Reply (V : Type) : Type :=
  | Response (text : string)
  | Stream (subscription : V).
Arguments Response {V} text.
Arguments Stream {V} subscription.

(** How a connection's loop ends. *)
Inductive LoopEnd (V : Type) : Type :=
  | PeerClosed
  | Silent
  | Undecodable
  | Streaming (subscription : V) (leftover : Bytes)
  | ReadError
  | ResponseTooLong.
Arguments PeerClosed {V}.
Arguments Silent {V}.
Arguments Undecodable {V}.
Arguments Streaming {V} subscription leftover.
Arguments ReadError {V}.
Arguments ResponseTooLong {V}.

Section Loop.
Context {S V : Type} (on_frame : S → string → S * option (Reply V)).

(** What is left when the buffered frames are handled: an end, or a buffer that holds no whole frame. *)
Inductive Drained : Type :=
  | Ended (s : S) (written : list Bytes) (e : LoopEnd V)
  | NeedsMore (s : S) (written : list Bytes) (buf : Bytes).

(** Each frame takes at least its header off the buffer, so its length bounds the turns. *)
(* src: crates/dnet-ipc/src/server.rs:319-336 frame_loop *)
Fixpoint drain (fuel : nat) (s : S) (written : list Bytes) (buf : Bytes) : option Drained :=
  match fuel with
  | O => None
  | Datatypes.S fuel =>
      match decode buf with
      | Err _ => Some (Ended s written Undecodable)
      | Ok None => Some (NeedsMore s written buf)
      | Ok (Some frame) =>
          let buf := drop (consumed frame) buf in
          match on_frame s (frame_payload frame) with
          | (s, None) => drain fuel s written buf
          | (s, Some (Response response)) =>
              match encode response with
              | Err _ => Some (Ended s written ResponseTooLong)
              | Ok bytes => drain fuel s (written ++ [bytes]) buf
              end
          | (s, Some (Stream subscription)) => Some (Ended s written (Streaming subscription buf))
          end
      end
  end.

Definition enough (buf : Bytes) : nat := Datatypes.S (length buf).

(** The loop over what the stream's reads give; a stream that gives nothing more has been closed.  The
    write of a response is taken to succeed. *)
(* src: crates/dnet-ipc/src/server.rs:300-358 frame_loop *)
Fixpoint frame_loop (s : S) (written : list Bytes) (buf : Bytes) (reads : list ReadResult) :
    option (S * list Bytes * LoopEnd V) :=
  drained ← drain (enough buf) s written buf;
  match drained with
  | Ended s written e => Some (s, written, e)
  | NeedsMore s written buf =>
      match reads with
      | [] => Some (s, written, PeerClosed)
      | Chunk [] :: _ => Some (s, written, PeerClosed)
      | Chunk chunk :: reads => frame_loop s written (buf ++ chunk) reads
      | ReadFailed :: _ => Some (s, written, ReadError)
      | IdleTooLong :: _ => Some (s, written, Silent)
      end
  end.
End Loop.
Arguments Ended {S V} s written e.
Arguments NeedsMore {S V} s written buf.

(** * Lemmas *)

(** ** Bytes *)

Lemma from_le_bytes_bound l : 0 ≤ from_le_bytes l.
Proof. induction l as [|b l IH]; simpl; [lia|]. pose proof (byte_value_range b). lia. Qed.

Lemma from_to_le_bytes n v : 0 ≤ v < 256 ^ Z.of_nat n → from_le_bytes (to_le_bytes n v) = v.
Proof.
  revert v. induction n as [|n IH]; intros v Hv; [simpl in *; lia|].
  rewrite Nat2Z.inj_succ, Z.pow_succ_r in Hv by lia. simpl.
  rewrite byte_value_of by (apply Z.mod_pos_bound; lia).
  rewrite IH; [pose proof (Z.div_mod v 256); lia|].
  split; [apply Z.div_pos; lia|]. apply Z.div_lt_upper_bound; lia.
Qed.

Lemma length_to_le_bytes n v : length (to_le_bytes n v) = n.
Proof. revert v. induction n as [|n IH]; intros v; simpl; [done|by rewrite IH]. Qed.

(** ** Frames *)

(** When a buffer begins with a whole frame. *)
Definition whole (buf : Bytes) (p : Bytes) : Prop :=
  ∃ rest, buf = to_le_bytes 4 (Z.of_nat (length p)) ++ p ++ rest ∧ Z.of_nat (length p) ≤ MAX_FRAME_LEN.

Lemma to_from_le_bytes l : to_le_bytes (length l) (from_le_bytes l) = l.
Proof.
  induction l as [|b l IH]; [done|]. simpl. pose proof (byte_value_range b).
  rewrite (Z.mul_comm 256), Z.mod_add, Z.div_add by lia.
  rewrite Z.mod_small, Z.div_small by lia. rewrite Z.add_0_l, IH. f_equal.
  apply byte_of_value.
Qed.

Lemma decode_whole p rest :
  Z.of_nat (length p) ≤ MAX_FRAME_LEN →
  decode (to_le_bytes 4 (Z.of_nat (length p)) ++ p ++ rest) =
    if is_utf8 p then Ok (Some {| frame_payload := of_ascii p; consumed := 4 + length p |}) else Err Malformed.
Proof.
  intros Hp. unfold decode, HEADER_LEN. rewrite !length_app, length_to_le_bytes.
  rewrite bool_decide_eq_false_2 by lia. rewrite take_app_length' by (by rewrite length_to_le_bytes).
  rewrite from_to_le_bytes by (unfold MAX_FRAME_LEN in Hp; lia).
  destruct (Z.ltb_spec MAX_FRAME_LEN (Z.of_nat (length p))); [lia|]. rewrite Nat2Z.id.
  rewrite bool_decide_eq_false_2 by lia.
  rewrite app_assoc, take_app_length' by (by rewrite length_app, length_to_le_bytes).
  rewrite drop_app_length' by (by rewrite length_to_le_bytes). done.
Qed.

(** The three things [decode] can find. *)
Lemma decode_cases buf :
  (decode buf = Ok None ∧ Z.of_nat (length buf) < 4 + MAX_FRAME_LEN) ∨
  (∃ n, decode buf = Err (Oversized n MAX_FRAME_LEN) ∧ MAX_FRAME_LEN < n ∧
     ∃ h rest, buf = h ++ rest ∧ length h = 4%nat ∧ from_le_bytes h = n) ∨
  (∃ p rest, buf = to_le_bytes 4 (Z.of_nat (length p)) ++ p ++ rest ∧ Z.of_nat (length p) ≤ MAX_FRAME_LEN).
Proof.
  destruct (decide (length buf < 4)%nat) as [Hs|Hs].
  { left. unfold decode, HEADER_LEN. rewrite bool_decide_eq_true_2 by done. split; [done|].
    unfold MAX_FRAME_LEN. lia. }
  pose proof (from_le_bytes_bound (take 4 buf)) as Hb.
  assert (length (take 4 buf) = 4%nat) as Hl by (rewrite length_take; lia).
  destruct (Z.ltb_spec MAX_FRAME_LEN (from_le_bytes (take 4 buf))) as [Ho|Ho].
  { right. left. exists (from_le_bytes (take 4 buf)). unfold decode, HEADER_LEN.
    rewrite bool_decide_eq_false_2 by done. destruct (Z.ltb_spec MAX_FRAME_LEN (from_le_bytes (take 4 buf))); [|lia].
    split_and!; [done|done|]. exists (take 4 buf), (drop 4 buf). by rewrite take_drop. }
  set (n := Z.to_nat (from_le_bytes (take 4 buf))).
  destruct (decide (length buf < 4 + n)%nat) as [Hm|Hm].
  { left. unfold decode, HEADER_LEN. rewrite bool_decide_eq_false_2 by done.
    destruct (Z.ltb_spec MAX_FRAME_LEN (from_le_bytes (take 4 buf))); [lia|].
    rewrite bool_decide_eq_true_2 by done. split; [done|]. lia. }
  right. right. exists (take n (drop 4 buf)), (drop n (drop 4 buf)).
  rewrite length_take, length_drop, Nat.min_l by lia.
  assert (Z.of_nat n = from_le_bytes (take 4 buf)) as En by lia. split; [|lia].
  rewrite take_drop, En. rewrite <-Hl at 1. rewrite to_from_le_bytes. by rewrite take_drop.
Qed.

(** More bytes do not change what was found. *)
Lemma decode_more buf r x : decode buf = r → r ≠ Ok None → decode (buf ++ x) = r.
Proof.
  intros <- Hr. destruct (decode_cases buf) as [[? _]|[(n & E & Hn & h & rest & -> & Hl & Hh)|(p & rest & -> & Hp)]].
  - done.
  - rewrite E. rewrite <-app_assoc. unfold decode, HEADER_LEN.
    rewrite bool_decide_eq_false_2 by (rewrite length_app; lia). rewrite take_app_length' by done. rewrite Hh.
    by destruct (Z.ltb_spec MAX_FRAME_LEN n); [|lia].
  - rewrite <-!app_assoc. by rewrite !decode_whole.
Qed.

Lemma decode_consumed buf f :
  decode buf = Ok (Some f) →
  ∃ p rest, buf = to_le_bytes 4 (Z.of_nat (length p)) ++ p ++ rest ∧ Z.of_nat (length p) ≤ MAX_FRAME_LEN ∧
    is_utf8 p = true ∧ f = {| frame_payload := of_ascii p; consumed := 4 + length p |} ∧
    drop (consumed f) buf = rest.
Proof.
  intros E. destruct (decode_cases buf) as [[? _]|[(n & ? & _)|(p & rest & -> & Hp)]]; [congruence..|].
  rewrite decode_whole in E by done. destruct (is_utf8 p) eqn:Eu; [|done]. injection E as <-.
  exists p, rest. split_and!; [done..|]. simpl consumed.
  by rewrite app_assoc, drop_app_length' by (by rewrite length_app, length_to_le_bytes).
Qed.

Lemma encode_ok payload b :
  encode payload = Ok b →
  b = to_le_bytes 4 (Z.of_nat (length (bytes payload))) ++ bytes payload ∧
  Z.of_nat (length (bytes payload)) ≤ MAX_FRAME_LEN.
Proof.
  unfold encode. rewrite str_len_bytes. destruct (Z.ltb_spec MAX_FRAME_LEN (Z.of_nat (length (bytes payload)))); [done|].
  rewrite Z.mod_small by (unfold MAX_FRAME_LEN in *; lia). intros E. split; [congruence|done].
Qed.

Lemma encode_decode payload b rest :
  encode payload = Ok b → is_utf8 (bytes payload) = true →
  decode (b ++ rest) = Ok (Some {| frame_payload := payload; consumed := length b |}).
Proof.
  intros (-> & Hp)%encode_ok Hu. rewrite <-app_assoc, decode_whole, Hu by done.
  rewrite length_app, length_to_le_bytes. by rewrite of_ascii_bytes.
Qed.

(** ** The loop *)

Section LoopLemmas.
Context {S V : Type} (on_frame : S → string → S * option (Reply V)).

Lemma consumed_shortens buf f :
  decode buf = Ok (Some f) → (length (drop (consumed f) buf) < length buf)%nat.
Proof.
  intros (p & rest & -> & _ & _ & -> & _)%decode_consumed. simpl consumed.
  rewrite length_drop, !length_app, length_to_le_bytes. lia.
Qed.

Lemma drain_total fuel s w buf : (length buf < fuel)%nat → is_Some (drain on_frame fuel s w buf).
Proof.
  revert s w buf. induction fuel as [|fuel IH]; intros s w buf Hf; [lia|]. simpl.
  destruct (decode buf) as [[f|]|e] eqn:E; [|eauto..].
  pose proof (consumed_shortens _ _ E). destruct (on_frame s (frame_payload f)) as [s' [[response|v]|]]; [|eauto|].
  - destruct (encode response); [|eauto]. apply IH. lia.
  - apply IH. lia.
Qed.

Lemma drain_fuel_mono fuel fuel' s w buf d :
  drain on_frame fuel s w buf = Some d → (fuel ≤ fuel')%nat → drain on_frame fuel' s w buf = Some d.
Proof.
  revert fuel' s w buf. induction fuel as [|fuel IH]; intros fuel' s w buf Hd Hle; [done|].
  destruct fuel' as [|fuel']; [lia|]. simpl in *.
  destruct (decode buf) as [[f|]|e]; [|done..].
  destruct (on_frame s (frame_payload f)) as [s' [[response|v]|]]; [|done|].
  - destruct (encode response); [|done]. apply IH; [done|lia].
  - apply IH; [done|lia].
Qed.

(** Any two fuels above the buffer's length agree. *)
Lemma drain_fuel fuel s w buf :
  (length buf < fuel)%nat → drain on_frame fuel s w buf = drain on_frame (enough buf) s w buf.
Proof.
  intros Hf. destruct (drain_total (enough buf) s w buf) as [d Hd]; [unfold enough; lia|]. rewrite Hd.
  eapply drain_fuel_mono; [done|]. unfold enough. lia.
Qed.

(** One turn of the loop. *)
Lemma drain_step s w buf :
  drain on_frame (enough buf) s w buf =
  match decode buf with
  | Err _ => Some (Ended s w Undecodable)
  | Ok None => Some (NeedsMore s w buf)
  | Ok (Some frame) =>
      let rest := drop (consumed frame) buf in
      match on_frame s (frame_payload frame) with
      | (s, None) => drain on_frame (enough rest) s w rest
      | (s, Some (Response response)) =>
          match encode response with
          | Err _ => Some (Ended s w ResponseTooLong)
          | Ok bytes => drain on_frame (enough rest) s (w ++ [bytes]) rest
          end
      | (s, Some (Stream subscription)) => Some (Ended s w (Streaming subscription rest))
      end
  end.
Proof.
  unfold enough at 1. simpl drain. destruct (decode buf) as [[f|]|e] eqn:E; [|done..].
  pose proof (consumed_shortens _ _ E).
  destruct (on_frame s (frame_payload f)) as [s' [[response|v]|]]; [|done|].
  - destruct (encode response); [|done]. by apply drain_fuel.
  - by apply drain_fuel.
Qed.

(** [P] of the loop's result, by the frames of the buffer. *)
Lemma drain_ind (P : S → list Bytes → Bytes → Prop) :
  (∀ s w buf, decode buf = Ok None → P s w buf) →
  (∀ s w buf e, decode buf = Err e → P s w buf) →
  (∀ s w buf f, decode buf = Ok (Some f) →
     (∀ s' w', P s' w' (drop (consumed f) buf)) → P s w buf) →
  ∀ s w buf, P s w buf.
Proof.
  intros HN HE HS s w buf. remember (length buf) as n eqn:Hn. revert s w buf Hn.
  induction (lt_wf n) as [n _ IH]. intros s w buf ->.
  destruct (decode buf) as [[f|]|e] eqn:E; [|by apply HN|by eapply HE].
  eapply HS; [done|]. intros s' w'. eapply IH; [|done]. by apply consumed_shortens.
Qed.

(** The leftover of a stream that starts is what of the buffer is not yet handled. *)
Definition with_more (x : Bytes) (e : LoopEnd V) : LoopEnd V :=
  match e with Streaming v rest => Streaming v (rest ++ x) | e => e end.

Lemma consumed_le buf f : decode buf = Ok (Some f) → (consumed f ≤ length buf)%nat.
Proof.
  intros (p & rest & -> & _ & _ & -> & _)%decode_consumed. simpl consumed.
  rewrite !length_app, length_to_le_bytes. lia.
Qed.


(** What arrives later continues what was begun. *)
Lemma drain_append s w buf x :
  drain on_frame (enough (buf ++ x)) s w (buf ++ x) =
  match drain on_frame (enough buf) s w buf with
  | Some (NeedsMore s' w' buf') => drain on_frame (enough (buf' ++ x)) s' w' (buf' ++ x)
  | Some (Ended s' w' e) => Some (Ended s' w' (with_more x e))
  | None => None
  end.
Proof.
  revert s w buf. apply drain_ind; intros s w buf.
  - intros E. rewrite (drain_step s w buf), E. done.
  - intros e E. rewrite (drain_step s w buf), E, drain_step, (decode_more buf (Err e)) by done. done.
  - intros f E IH. rewrite (drain_step s w buf), E, drain_step, (decode_more buf (Ok (Some f))) by done. simpl.
    rewrite drop_app_le by by apply consumed_le.
    destruct (on_frame s (frame_payload f)) as [s' [[response|v]|]]; [|done|apply IH].
    destruct (encode response); [apply IH|done].
Qed.

(** What waits for more is shorter than one frame may be. *)
Lemma drained_buffer_bounded fuel s w buf s' w' buf' :
  drain on_frame fuel s w buf = Some (NeedsMore s' w' buf') →
  Z.of_nat (length buf') < Z.of_nat HEADER_LEN + MAX_FRAME_LEN.
Proof.
  revert s w buf. induction fuel as [|fuel IH]; intros s w buf; [done|]. simpl.
  destruct (decode buf) as [[f|]|e] eqn:E; [| |done].
  - destruct (on_frame s (frame_payload f)) as [s1 [[response|v]|]]; [|done|apply IH].
    destruct (encode response); [apply IH|done].
  - intros [= <- <- <-]. destruct (decode_cases buf) as [[_ Hb]|[(n & ? & _)|(p & rest & -> & Hp)]].
    + unfold HEADER_LEN. lia.
    + congruence.
    + rewrite decode_whole in E by done. by destruct (is_utf8 p).
Qed.

#[local] Arguments drain : simpl never.

(** How a loop over chunks ends when what they hold together is drained to [d]. *)
Definition ends_as (d : Drained) (r : S * list Bytes * LoopEnd V) : Prop :=
  match d, r with
  | NeedsMore s w _, (s', w', e) => s' = s ∧ w' = w ∧ e = PeerClosed
  | Ended s w e, (s', w', e') => s' = s ∧ w' = w ∧ ∃ x, e = with_more x e'
  end.

Lemma frame_loop_chunks s w buf chunks :
  Forall (λ c, c ≠ []) chunks →
  ∃ d r, drain on_frame (enough (buf ++ concat chunks)) s w (buf ++ concat chunks) = Some d ∧
    frame_loop on_frame s w buf (map Chunk chunks) = Some r ∧ ends_as d r.
Proof.
  revert s w buf. induction chunks as [|c chunks IH]; intros s w buf Hc; simpl.
  { rewrite app_nil_r.
    destruct (drain_total (enough buf) s w buf) as [[s' w' e|s' w' buf'] E]; [unfold enough; lia| |];
      rewrite E; eexists _, _; split_and!; try done; try (split_and!; [done..|]).
    exists []. by destruct e; simpl; rewrite ?app_nil_r. }
  destruct (drain_total (enough buf) s w buf) as [[s' w' e|s' w' buf'] E]; [unfold enough; lia| |];
    rewrite drain_append, E; cbn [mbind option_bind].
  - eexists _, _. split_and!; [done..|]. simpl. eauto.
  - apply Forall_cons in Hc as [Hn Hc]. destruct c as [|b c]; [done|].
    destruct (IH s' w' (buf' ++ b :: c) Hc) as (d & r & Hd & Hr & Hdr).
    exists d, r. split_and!; [|done..]. by rewrite app_assoc.
Qed.

(** What a connection does with its requests, one at a time and without regard to how they arrive. *)
Fixpoint serve (s : S) (w : list Bytes) (requests : list string) : S * list Bytes * option (LoopEnd V) :=
  match requests with
  | [] => (s, w, None)
  | payload :: requests =>
      match on_frame s payload with
      | (s, None) => serve s w requests
      | (s, Some (Response response)) =>
          match encode response with
          | Ok bytes => serve s (w ++ [bytes]) requests
          | Err _ => (s, w, Some ResponseTooLong)
          end
      | (s, Some (Stream subscription)) => (s, w, Some (Streaming subscription []))
      end
  end.

Lemma drain_serve s w requests frames :
  Forall2 (λ p f, encode p = Ok f ∧ is_utf8 (bytes p) = true) requests frames →
  let all := concat frames in
  match serve s w requests with
  | (s', w', None) => drain on_frame (enough all) s w all = Some (NeedsMore s' w' [])
  | (s', w', Some e) => ∃ x, drain on_frame (enough all) s w all = Some (Ended s' w' (with_more x e))
  end.
Proof.
  intros H. revert s w. induction H as [|p f requests frames [Hf Hu] _ IH]; intros s w; [done|].
  pose proof (encode_decode _ _ (concat frames) Hf Hu) as E. simpl.
  rewrite drain_step, E. simpl. rewrite drop_app_length.
  destruct (on_frame s p) as [s' [[response|v]|]]; [| |apply IH].
  - destruct (encode response); [apply IH|]. by exists [].
  - by exists (concat frames).
Qed.

(** A loop's result, less the bytes a stream that starts finds in the buffer. *)
Definition no_leftover (e : LoopEnd V) : LoopEnd V :=
  match e with Streaming v _ => Streaming v [] | e => e end.
Definition served (r : S * list Bytes * LoopEnd V) : S * list Bytes * LoopEnd V :=
  let '(s, w, e) := r in (s, w, no_leftover e).

Lemma no_leftover_with_more x e : no_leftover (with_more x e) = no_leftover e.
Proof. by destruct e. Qed.

Lemma serve_end s w requests s' w' e : serve s w requests = (s', w', Some e) → no_leftover e = e.
Proof.
  revert s w. induction requests as [|p requests IH]; intros s w; simpl; [done|].
  destruct (on_frame s p) as [s1 [[response|v]|]]; [| |apply IH].
  - destruct (encode response); [apply IH|]. by intros [= <- <- <-].
  - by intros [= <- <- <-].
Qed.

(** What every frame preserves, the whole connection does. *)
Lemma frame_loop_invariant (I : S → Prop) (Q : V → Prop) s w buf reads s' w' e :
  (∀ s p, I s → I (on_frame s p).1) → (∀ s p v, (on_frame s p).2 = Some (Stream v) → Q v) →
  I s → frame_loop on_frame s w buf reads = Some (s', w', e) →
  I s' ∧ ∀ v rest, e = Streaming v rest → Q v.
Proof.
  intros HI HQ Hs.
  assert (∀ fuel s w buf d, I s → drain on_frame fuel s w buf = Some d →
    match d with
    | Ended s' _ e => I s' ∧ ∀ v rest, e = Streaming v rest → Q v
    | NeedsMore s' _ _ => I s'
    end) as Hdrain.
  { intros fuel. induction fuel as [|fuel IH]; intros s1 w1 buf1 d Hs1; [done|]. unfold drain; fold (drain on_frame).
    destruct (decode buf1) as [[f|]|err]; [| by intros [= <-]|by intros [= <-]].
    specialize (HI s1 (frame_payload f) Hs1). specialize (HQ s1 (frame_payload f)).
    destruct (on_frame s1 (frame_payload f)) as [s2 [[response|v]|]]; simpl in HI, HQ.
    - destruct (encode response); [by apply IH|by intros [= <-]].
    - intros [= <-]. split; [done|]. intros v' rest [= <- _]. by apply HQ.
    - by apply IH. }
  revert s w buf Hs. induction reads as [|r reads IH]; intros s w buf Hs; simpl.
  all: destruct (drain on_frame (enough buf) s w buf) as [[s1 w1 e1|s1 w1 buf1]|] eqn:E; simpl; [|idtac|done].
  all: pose proof (Hdrain _ _ _ _ _ Hs E) as Hd; simpl in Hd.
  - by intros [= <- <- <-].
  - by intros [= <- <- <-].
  - by intros [= <- <- <-].
  - destruct r as [[|b c]| |]; try by intros [= <- <- <-]. by apply IH.
Qed.

End LoopLemmas.
Arguments drain {S V} on_frame fuel s written buf : simpl never.

(** * Properties *)

(** C17. However the stream cuts the frames of a client's requests into reads, the connection does what serving the
    requests one after the other does: the same service state, the same responses in the same order, and the
    same end, which is the close of the stream unless a request asked for a subscription or had too long a
    response. *)
Theorem requests_served_in_order {S V} (on_frame : S → string → S * option (Reply V)) s requests frames chunks :
  Forall2 (λ p f, encode p = Ok f ∧ is_utf8 (bytes p) = true) requests frames →
  Forall (λ c, c ≠ []) chunks → concat chunks = concat frames →
  served <$> frame_loop on_frame s [] [] (map Chunk chunks) =
    Some (let '(s', w, e) := serve on_frame s [] requests in (s', w, default PeerClosed e)).
Proof.
  intros Hf Hc Ec. destruct (frame_loop_chunks on_frame s [] [] chunks Hc) as (d & [[s1 w1] e1] & Hd & -> & Hr).
  rewrite app_nil_l, Ec in Hd. pose proof (drain_serve on_frame s [] requests frames Hf) as Hs.
  destruct (serve on_frame s [] requests) as [[s' w'] [e|]] eqn:E; cbv zeta in Hs.
  - destruct Hs as [x Hs]. rewrite Hs in Hd. injection Hd as <-. destruct Hr as (-> & -> & y & Hy). simpl.
    apply (f_equal no_leftover) in Hy. rewrite !no_leftover_with_more in Hy.
    by rewrite <-Hy, (serve_end _ _ _ _ _ _ _ E).
  - rewrite Hs in Hd. injection Hd as <-. by destruct Hr as (-> & -> & ->).
Qed.

(** C18. Whatever bytes a client sends and however they are cut, the connection's loop ends, having never held back
    more than one whole frame's worth of bytes. *)
Theorem loop_always_ends {S V} (on_frame : S → string → S * option (Reply V)) s w buf reads :
  is_Some (frame_loop on_frame s w buf reads) ∧
  ∀ s' w' rest, drain on_frame (enough buf) s w buf = Some (NeedsMore s' w' rest) →
    Z.of_nat (length rest) < Z.of_nat HEADER_LEN + MAX_FRAME_LEN.
Proof.
  split; [|intros s' w' rest; apply drained_buffer_bounded].
  revert s w buf. induction reads as [|r reads IH]; intros s w buf; simpl.
  all: destruct (drain_total on_frame (enough buf) s w buf) as [[s' w' e|s' w' buf'] E]; [unfold enough; lia| |];
    rewrite E; simpl; [eauto|].
  - eauto.
  - destruct r as [[|b c]| |]; [eauto| |eauto..]. apply IH.
Qed.

(** * Witnesses *)

(** Two requests that arrive split inside the first frame's header and joined across the second's. *)
Lemma requests_served_in_order_witness :
  served <$> frame_loop (V := string) (λ (n : nat) p, (Datatypes.S n, Some (Response p))) 0%nat [] []
    (map Chunk [map byte_of [2; 0]; map byte_of [0; 0; 104; 105; 1; 0; 0]; map byte_of [0; 33]]) =
  Some (2%nat, [map byte_of [2; 0; 0; 0; 104; 105]; map byte_of [1; 0; 0; 0; 33]], PeerClosed).
Proof.
  etrans; [apply (requests_served_in_order (λ (n : nat) p, (Datatypes.S n, Some (Response p))) 0%nat ["hi"; "!"]
    [map byte_of [2; 0; 0; 0; 104; 105]; map byte_of [1; 0; 0; 0; 33]])|].
  - repeat constructor; vm_compute; done.
  - repeat constructor; done.
  - vm_compute. reflexivity.
  - vm_compute. reflexivity.
Defined.
