(* ===== verification/Protocol.v ===== *)
(** The control protocol: requests, errors and the state snapshot, how each is written and read, and what a
    reader refuses (crates/dnet-ipc/src/protocol.rs, with the characters of netview.rs and the server kinds of
    server_setup.rs). *)

From Stdlib Require Import Ascii.
From S2P Require Import Prelude Text IpText Profile Endpoint Session Selection Rule RuleEval Names FeedEnvelope Json Persist.

(** * Definitions

    ** What the module uses of others

    The secrets of an endpoint are [crate::credentials]' to read and to write: this is what the
    protocol asks of them, with an error as its text. *)

Class CredentialForm (C : Type) : Type := {
  creds_is_empty : C → bool;
  from_plaintext_json : string → result string C;
  to_plaintext_json : C → result string string;
}.

(* src: crates/dnet-ipc/src/server_setup.rs:13-20 ServerKind *)
Inductive ServerKind : Type := Amd64 | Arm64.

(* src: crates/dnet-ipc/src/server_setup.rs:23-28 ServerKind::as_str *)
Definition server_kind_as_str (k : ServerKind) : string := match k with Amd64 => "amd64" | Arm64 => "arm64" end.

(* src: crates/dnet-ipc/src/server_setup.rs:30-36 ServerKind::parse *)
Definition server_kind_parse (text : string) : option ServerKind :=
  if String.eqb text "amd64" then Some Amd64 else if String.eqb text "arm64" then Some Arm64 else None.

(* src: crates/dnet-ipc/src/server_setup.rs:39-40 MAX_REPORT_CHARS *)
Definition MAX_REPORT_CHARS : Z := 32 * 1024.
(* src: crates/dnet-ipc/src/netview.rs:39-52 is_hostile *)
Definition is_hostile (c : string) : bool :=
  is_control c || within_points 0x202a 0x202e c || within_points 0x2066 0x2069 c ||
  existsb (fun p => code_point c =? p) [0x200e; 0x200f; 0x061c; 0xfeff; 0x2028; 0x2029; 0x00ad] ||
  within_points 0x200b 0x200d c || within_points 0x2060 0x2064 c || within_points 0xe0000 0xe007f c.

(** [IpAddr::is_unspecified] and [is_multicast]. *)
Definition is_unspecified (ip : IpAddr) : bool := match ip with V4 b | V6 b => b =? 0 end.
Definition is_multicast (ip : IpAddr) : bool :=
  match ip with V4 b => Z.shiftr b 28 =? 14 | V6 b => Z.shiftr b 120 =? 255 end.

(** ** Errors *)

(* src: crates/dnet-ipc/src/protocol.rs:328-362 IpcError *)
Inductive IpcError : Type :=
  | Unauthorized (reason : string)
  | InvalidRequest (detail : string)
  | TierDowngradeRequiresConsent (tier : FailoverTier)
  | CapacityUnavailable
  | NotConnected
  | ServiceBusy
  | ApprovalRequired (id what : string)
  | InternalError (detail : string).

(* src: crates/dnet-ipc/src/protocol.rs:364-368 invalid *)
Definition invalid (detail : string) : IpcError := InvalidRequest detail.

(* src: crates/dnet-ipc/src/protocol.rs:536-541 tier_str *)
Definition tier_str (tier : FailoverTier) : string := match tier with Tier1 => "Tier1" | Tier2 => "Tier2" end.

(** [IpcError::to_string]; the derived [Debug] of a tier is its name. *)
(* src: crates/dnet-ipc/src/protocol.rs:330-361 IpcError *)
Definition ipc_error_to_string (e : IpcError) : string :=
  match e with
  | Unauthorized reason => "unauthorized: " +:+ reason
  | InvalidRequest detail => "invalid request: " +:+ detail
  | TierDowngradeRequiresConsent tier => "a " +:+ tier_str tier +:+ " profile requires explicit consent"
  | CapacityUnavailable => "capacity unavailable"
  | NotConnected => "not connected"
  | ServiceBusy => "service busy"
  | ApprovalRequired id what =>
      what +:+ " waits for approval (change " +:+ id +:+ "). Approve it with `dnetctl approve " +:+ id +:+
      "` and answer the Windows prompt; it is dropped after ten minutes"
  | InternalError detail => "internal error: " +:+ detail
  end.

(* src: crates/dnet-ipc/src/protocol.rs:1335-1347 error_code *)
Definition error_code (e : IpcError) : string :=
  match e with
  | Unauthorized _ => "Unauthorized"
  | InvalidRequest _ => "InvalidRequest"
  | TierDowngradeRequiresConsent _ => "TierDowngradeRequiresConsent"
  | CapacityUnavailable => "CapacityUnavailable"
  | NotConnected => "NotConnected"
  | ServiceBusy => "ServiceBusy"
  | ApprovalRequired _ _ => "ApprovalRequired"
  | InternalError _ => "InternalError"
  end.

(* src: crates/dnet-ipc/src/protocol.rs:1349-1360 encode_ipc_error *)
Definition encode_ipc_error `{JsonText} (error : IpcError) : string :=
  let retryable := match error with CapacityUnavailable | ServiceBusy => true | _ => false end in
  json_to_string (object [
    ("error", Str (error_code error)); ("detail", Str (ipc_error_to_string error)); ("retryable", Bool retryable)]).

(** ** Requests *)

(* src: crates/dnet-ipc/src/protocol.rs:27-39 RequestClass *)
Inductive RequestClass : Type := ReadOnly | Mutating | Stream | Approval.

(* src: crates/dnet-ipc/src/protocol.rs:155-161 FeedImport *)
Record FeedImport : Type := mkFeedImport { import_keys : option string; import_feed : option string }.

(* src: crates/dnet-ipc/src/protocol.rs:163-183 FeedImport::new *)
Definition feed_import_new (keys feed : option string) : result IpcError FeedImport :=
  if bool_decide (keys = None) && bool_decide (feed = None) then Err (invalid "give `keys`, `feed`, or both")
  else
    match List.find (fun nt => match nt.2 with Some t => ENVELOPE_MAX_BYTES <? str_len t | None => false end)
            [("keys", keys); ("feed", feed)] with
    | Some (name, _) =>
        Err (invalid ("`" +:+ name +:+ "` is larger than " +:+ pretty ENVELOPE_MAX_BYTES +:+
          " bytes, which no signed document is"))
    | None => Ok {| import_keys := keys; import_feed := feed |}
    end.

Section Requests.
Context {C : Type} `{CredentialForm C}.

(* src: crates/dnet-ipc/src/protocol.rs:194-202 NewEndpoint *)
Record NewEndpoint : Type := mkNewEndpoint { ne_label : string; ne_host : string; ne_credentials : C }.

(* src: crates/dnet-ipc/src/protocol.rs:41-153 Request *)
Inductive Request : Type :=
  | GetVersion | GetState | GetSession | GetPaths | GetStats | GetComponents
  | ListEndpoints | ListProfiles | ListRules | GetDiagnostics | ListPending
  | Connect (acknowledge_tier2 : bool) (profile : option ProfileId) (endpoint : option EndpointId)
  | Disconnect
  | AddEndpoint (new : NewEndpoint)
  | RemoveEndpoint (endpoint : EndpointId)
  | SetEndpointEnabled (endpoint : EndpointId) (enabled : bool)
  | AddRule (matcher : RuleMatcher) (action : RuleAction)
  | RemoveRule (rule : RuleId)
  | SetProfileParams
  | EnableBrutal (profile : ProfileId) (up_mbps down_mbps warning_revision : Z)
  | DisableBrutal (profile : ProfileId)
  | SetEncryptedDnsHandling (block : bool)
  | ImportFeed (import : FeedImport)
  | FetchFeed
  | PrepareServer (arch : ServerKind)
  | FinishServer (label host report : string)
  | StartProvisioning
  | CancelProvisioning
  | ApproveChange (id : string)
  | RejectChange (id : string)
  | Subscribe.

(* src: crates/dnet-ipc/src/protocol.rs:296-325 Request::class *)
Definition class (r : Request) : RequestClass :=
  match r with
  | GetVersion | GetState | GetSession | GetPaths | GetStats | GetComponents
  | ListEndpoints | ListProfiles | ListRules | GetDiagnostics | ListPending => ReadOnly
  | Subscribe => Stream
  | Connect _ _ _ | Disconnect | AddEndpoint _ | RemoveEndpoint _ | SetEndpointEnabled _ _ | AddRule _ _
  | RemoveRule _ | SetProfileParams | EnableBrutal _ _ _ _ | DisableBrutal _ | SetEncryptedDnsHandling _
  | ImportFeed _ | FetchFeed | PrepareServer _ | FinishServer _ _ _ | StartProvisioning
  | CancelProvisioning | RejectChange _ => Mutating
  | ApproveChange _ => Approval
  end.

(** *** The rules for text from a client *)

(* src: crates/dnet-ipc/src/protocol.rs:204-205 MAX_LABEL_CHARS *)
Definition MAX_LABEL_CHARS : Z := Endpoint.MAX_LABEL_LEN.
(* src: crates/dnet-ipc/src/protocol.rs:206-207 MAX_HOST_CHARS *)
Definition MAX_HOST_CHARS : Z := 253.

(* src: crates/dnet-ipc/src/protocol.rs:209-221 check_label *)
Definition check_label (label : string) : result IpcError string :=
  let label := trim label in
  if str_is_empty label || (MAX_LABEL_CHARS <? char_count label) || negb (forallb (in_range 0x20 0x7E) (bytes label))
  then Err (invalid ("`label` must be 1 to " +:+ pretty MAX_LABEL_CHARS +:+ " printable ASCII characters"))
  else Ok label.

(* src: crates/dnet-ipc/src/protocol.rs:223-237 check_host *)
Definition check_host (host : string) : result IpcError string :=
  let host := trim host in
  if (MAX_HOST_CHARS <? str_len host) || negb (host_is_acceptable host) then
    Err (invalid "`host` must be an IP address or a host name, with no scheme, port or path")
  else
    match parse_ip host with
    | Some ip =>
        if is_unspecified ip || is_multicast ip then Err (invalid "`host` is not an address a server can have")
        else Ok host
    | None => Ok host
    end.

(* src: crates/dnet-ipc/src/protocol.rs:239-252 check_report *)
Definition check_report (report : string) : result IpcError unit :=
  let bad c := is_hostile c && negb (existsb (fun p => code_point c =? p) [10; 13; 9]) in
  if str_is_empty (trim report) || (MAX_REPORT_CHARS <? char_count report) || existsb bad (chars report) then
    Err (invalid ("`report` must be the text the server printed, up to " +:+ pretty MAX_REPORT_CHARS +:+
      " characters, with no control characters"))
  else Ok ().

(* src: crates/dnet-ipc/src/protocol.rs:254-275 NewEndpoint::new *)
Definition new_endpoint (label host : string) (credentials : C) : result IpcError NewEndpoint :=
  label ← check_label label;
  host ← check_host host;
  if creds_is_empty credentials then Err (invalid "`credentials` holds no connection method")
  else
    match to_plaintext_json credentials with
    | Err e => Err (invalid ("`credentials` " +:+ e))
    | Ok _ => Ok {| ne_label := label; ne_host := host; ne_credentials := credentials |}
    end.

(* src: crates/dnet-ipc/src/protocol.rs:807-809 MAX_PROFILE_ID_LEN *)
Definition MAX_PROFILE_ID_LEN : Z := 64.

(* src: crates/dnet-ipc/src/protocol.rs:811-831 parse_profile_id *)
Definition parse_profile_id (raw : string) : result IpcError ProfileId :=
  let ok_chars := forallb (fun b => is_ascii_lowercase b || is_ascii_digit b || Ascii.eqb b "-") (bytes raw) in
  let ok := negb (str_is_empty raw) && (str_len raw <=? MAX_PROFILE_ID_LEN) && ok_chars &&
            negb (starts_with "-" raw) && negb (ends_with "-" raw) in
  if ok then Ok raw
  else Err (invalid "`profile` must be 1 to 64 lowercase letters, digits or hyphens, not starting or ending with a hyphen").

(* src: crates/dnet-ipc/src/protocol.rs:835-836 MAX_PROGRAM_PATH *)
Definition MAX_PROGRAM_PATH : Z := 260.

(* src: crates/dnet-ipc/src/protocol.rs:846-869 personal_rule *)
Definition personal_matcher (kind value : string) : result IpcError RuleMatcher :=
  if String.eqb kind "domain" then Ok (Domain value)
  else if String.eqb kind "domain_suffix" then Ok (DomainSuffix value)
  else if String.eqb kind "ip_cidr" then
    match cidr_parse value with
    | Ok c => Ok (Cidr c)
    | Err _ => Err (invalid "`value` must be an address range such as 198.51.100.0/24")
    end
  else if String.eqb kind "application" then
    let printable :=
      forallb (fun c => negb (is_control c) && negb (within_points 0x202a 0x202e c || within_points 0x2066 0x2069 c))
        (chars value) in
    if str_is_empty (trim value) || (MAX_PROGRAM_PATH <? char_count value) || negb printable then
      Err (invalid ("`value` must be a program path of 1 to " +:+ pretty MAX_PROGRAM_PATH +:+ " printable characters"))
    else Ok (Application value)
  else Err (invalid "`kind` must be domain, domain_suffix, ip_cidr or application").

(* src: crates/dnet-ipc/src/protocol.rs:870-874 personal_rule *)
Definition personal_action (action : string) : result IpcError RuleAction :=
  if String.eqb action "tunnel" then Ok Tunnel
  else if String.eqb action "bypass" then Ok Bypass
  else Err (invalid "`action` must be tunnel or bypass").

(** [None] is a panic of the checks' own constants (Rule.pools). *)
(* src: crates/dnet-ipc/src/protocol.rs:838-883 personal_rule *)
Definition personal_rule (kind value action : string) : option (result IpcError (RuleMatcher * RuleAction)) :=
  match (m ← personal_matcher kind value; a ← personal_action action; Ok (m, a)) with
  | Err e => Some (Err e)
  | Ok (matcher, action) =>
      made ← user 0 matcher action USER_RULES_START;
      Some (match made with
            | Ok _ => Ok (matcher, action)
            | Err _ => Err (invalid "`value` is not a pattern this kind of rule can match")
            end)
  end.

(* src: crates/dnet-ipc/src/protocol.rs:885-898 rule_wire *)
Definition rule_wire (matcher : RuleMatcher) : string * string :=
  match matcher with
  | Domain d => ("domain", d)
  | DomainSuffix d => ("domain_suffix", d)
  | Cidr c => ("ip_cidr", cidr_to_string c)
  | Application p => ("application", p)
  | DnsPort => ("dns_port", "53")
  | EncryptedDnsPort => ("encrypted_dns_port", pretty ENCRYPTED_DNS_PORT)
  end.

(** A UUID in its hyphenated form: the id of a rule, and of an endpoint. *)
(* src: crates/dnet-ipc/src/protocol.rs:900-907 parse_rule_id *)
Definition parse_rule_id `{UuidText} (raw : string) : result IpcError RuleId :=
  let wrong := Err (invalid "`rule` must be a UUID in its hyphenated form") in
  if str_len raw =? 36 then match uuid_parse_str raw with Some uuid => Ok uuid | None => wrong end else wrong.

(* src: crates/dnet-ipc/src/protocol.rs:909-916 parse_endpoint_id *)
Definition parse_endpoint_id `{UuidText} (raw : string) : result IpcError EndpointId :=
  let wrong := Err (invalid "`endpoint` must be a UUID in its hyphenated form") in
  if str_len raw =? 36 then match uuid_parse_str raw with Some uuid => Ok uuid | None => wrong end else wrong.

(* src: crates/dnet-ipc/src/protocol.rs:993-994 CHANGE_ID_MAX *)
Definition CHANGE_ID_MAX : Z := 32.

(* src: crates/dnet-ipc/src/protocol.rs:996-1011 parse_change_id *)
Definition parse_change_id (text : string) : result IpcError string :=
  if negb (str_is_empty text) && (str_len text <=? CHANGE_ID_MAX) &&
     forallb (fun b => is_ascii_lowercase b || is_ascii_digit b) (bytes text)
  then Ok text
  else Err (invalid "`id` must be 1 to 32 lower-case letters and digits, as shown with the change").

(** *** Fields *)

Section Wire.
Context `{UuidText, DebugText, JsonText}.

(* src: crates/dnet-ipc/src/protocol.rs:660-666 optional *)
Definition optional (value : Value) (key : string) : option Value :=
  match get value key with None | Some Null => None | Some present => Some present end.

(* src: crates/dnet-ipc/src/protocol.rs:668-673 required_str *)
Definition required_str (value : Value) (key what : string) : result IpcError string :=
  ok_or (get value key ≫= as_str) (invalid (what +:+ " missing `" +:+ key +:+ "`")).

(* src: crates/dnet-ipc/src/protocol.rs:918-925 optional_string *)
Definition optional_string (value : Value) (key : string) : result IpcError (option string) :=
  match optional value key with
  | None => Ok None
  | Some (Str s) => Ok (Some s)
  | Some _ => Err (invalid ("`" +:+ key +:+ "` must be a string"))
  end.

(* src: crates/dnet-ipc/src/protocol.rs:927-935 optional_flag *)
Definition optional_flag (value : Value) (key : string) : result IpcError bool :=
  match optional value key with
  | None => Ok false
  | Some (Bool b) => Ok b
  | Some _ => Err (invalid ("`" +:+ key +:+ "` must be true or false"))
  end.

(* src: crates/dnet-ipc/src/protocol.rs:937-943 field *)
Definition field (value : Value) (key : string) : result IpcError Value :=
  match get value key with
  | None | Some Null => Err (invalid ("`" +:+ key +:+ "` is required"))
  | Some v => Ok v
  end.

(* src: crates/dnet-ipc/src/protocol.rs:945-949 field_str *)
Definition field_str (value : Value) (key : string) : result IpcError string :=
  v ← field value key; ok_or (as_str v) (invalid ("`" +:+ key +:+ "` must be a string")).

(* src: crates/dnet-ipc/src/protocol.rs:951-963 field_mbps *)
Definition field_mbps (value : Value) (key : string) : result IpcError Z :=
  v ← field value key;
  ok_or (filter_opt (fun n => (1 <=? n) && (n <=? MAX_BRUTAL_MBPS)) (as_u64 v) ≫= try_u32)
    (invalid ("`" +:+ key +:+ "` must be a whole number of Mbit/s from 1 to " +:+ pretty MAX_BRUTAL_MBPS)).

(* src: crates/dnet-ipc/src/protocol.rs:965-969 field_bool *)
Definition field_bool (value : Value) (key : string) : result IpcError bool :=
  v ← field value key; ok_or (as_bool v) (invalid ("`" +:+ key +:+ "` must be true or false")).

(* src: crates/dnet-ipc/src/protocol.rs:971-991 only_fields *)
Definition only_fields (value : Value) (allowed : list string) : result IpcError unit :=
  match as_object value with
  | Some object =>
      if existsb (fun k => negb (existsb (String.eqb k) allowed)) (map fst (map_to_list object)) then
        let takes := List.filter (fun k => negb (String.eqb k "request")) allowed in
        Err (invalid ("unknown field; this request takes only: " +:+ join ", " takes))
      else Ok ()
  | None => Ok ()
  end.

(** *** Requests, read and written *)

(** [Option::map(f).transpose()]. *)
Definition transpose {E A B} (f : A → result E B) (o : option A) : result E (option B) :=
  match o with Some a => b ← f a; Ok (Some b) | None => Ok None end.

(** The requests that carry fields, each with the reader of its own; the rest are their names. *)
(* src: crates/dnet-ipc/src/protocol.rs:1036-1044 decode_request *)
Definition decode_connect (value : Value) : result IpcError Request :=
  acknowledge ← optional_flag value "acknowledge_tier2";
  profile ← (o ← optional_string value "profile"; transpose parse_profile_id o);
  endpoint ← (o ← optional_string value "endpoint"; transpose parse_endpoint_id o);
  Ok (Connect acknowledge profile endpoint).

(* src: crates/dnet-ipc/src/protocol.rs:1046-1065 decode_request *)
Definition decode_add_endpoint (value : Value) : result IpcError Request :=
  _ ← only_fields value ["request"; "label"; "host"; "credentials"];
  credentials_value ← field value "credentials";
  if bool_decide (as_object credentials_value = None) then Err (invalid "`credentials` must be an object")
  else
    credentials ←
      match from_plaintext_json (json_to_string credentials_value) with
      | Ok c => Ok c
      | Err e => Err (invalid ("`credentials`: " +:+ e))
      end;
    label ← field_str value "label";
    host ← field_str value "host";
    new ← new_endpoint label host credentials;
    Ok (AddEndpoint new).

(* src: crates/dnet-ipc/src/protocol.rs:1079-1087 decode_request *)
Definition decode_add_rule (value : Value) : option (result IpcError Request) :=
  let fields :=
    _ ← only_fields value ["request"; "kind"; "value"; "action"];
    kind ← field_str value "kind";
    text ← field_str value "value";
    action ← field_str value "action";
    Ok (kind, text, action) in
  match fields with
  | Err e => Some (Err e)
  | Ok (kind, text, action) =>
      rule ← personal_rule kind text action;
      Some ('(matcher, action) ← rule; Ok (AddRule matcher action))
  end.

(* src: crates/dnet-ipc/src/protocol.rs:1095-1125 decode_request *)
Definition decode_enable_brutal (value : Value) : result IpcError Request :=
  _ ← only_fields value ["request"; "profile"; "up_mbps"; "down_mbps"; "warning_revision"];
  profile ← (s ← field_str value "profile"; parse_profile_id s);
  up_mbps ← field_mbps value "up_mbps";
  down_mbps ← field_mbps value "down_mbps";
  warning_revision ←
    (v ← field value "warning_revision";
     ok_or (filter_opt (fun r => r =? BRUTAL_WARNING_REVISION) (as_u64 v ≫= try_u32))
       (invalid "`warning_revision` is not the warning in force; show the current warning and send the revision that was shown"));
  Ok (EnableBrutal profile up_mbps down_mbps warning_revision).

(* src: crates/dnet-ipc/src/protocol.rs:1138-1144 decode_request *)
Definition decode_import_feed (value : Value) : result IpcError Request :=
  _ ← only_fields value ["request"; "keys"; "feed"];
  keys ← optional_string value "keys";
  feed ← optional_string value "feed";
  import ← feed_import_new keys feed;
  Ok (ImportFeed import).

(* src: crates/dnet-ipc/src/protocol.rs:1157-1168 decode_request *)
Definition decode_finish_server (value : Value) : result IpcError Request :=
  _ ← only_fields value ["request"; "label"; "host"; "report"];
  label ← (s ← field_str value "label"; check_label s);
  host ← (s ← field_str value "host"; check_host s);
  report ← field_str value "report";
  _ ← check_report report;
  Ok (FinishServer label host report).

(* src: crates/dnet-ipc/src/protocol.rs:1024-1187 decode_request *)
Definition decode_named (name : string) (value : Value) : option (result IpcError Request) :=
  let named n := String.eqb name n in
  let one (key : string) {A} (parse : string → result IpcError A) (make : A → Request) :=
    _ ← only_fields value ["request"; key]; s ← field_str value key; a ← parse s; Ok (make a) in
  if named "GetVersion" then Some (Ok GetVersion)
  else if named "GetState" then Some (Ok GetState)
  else if named "GetSession" then Some (Ok GetSession)
  else if named "GetPaths" then Some (Ok GetPaths)
  else if named "GetStats" then Some (Ok GetStats)
  else if named "GetComponents" then Some (Ok GetComponents)
  else if named "ListEndpoints" then Some (Ok ListEndpoints)
  else if named "ListProfiles" then Some (Ok ListProfiles)
  else if named "ListRules" then Some (Ok ListRules)
  else if named "GetDiagnostics" then Some (Ok GetDiagnostics)
  else if named "ListPending" then Some (Ok ListPending)
  else if named "Connect" then Some (decode_connect value)
  else if named "Disconnect" then Some (Ok Disconnect)
  else if named "AddEndpoint" then Some (decode_add_endpoint value)
  else if named "RemoveEndpoint" then Some (one "endpoint" parse_endpoint_id RemoveEndpoint)
  else if named "SetEndpointEnabled" then
    Some (_ ← only_fields value ["request"; "endpoint"; "enabled"];
          endpoint ← (s ← field_str value "endpoint"; parse_endpoint_id s);
          enabled ← field_bool value "enabled";
          Ok (SetEndpointEnabled endpoint enabled))
  else if named "AddRule" then decode_add_rule value
  else if named "RemoveRule" then Some (one "rule" parse_rule_id RemoveRule)
  else if named "SetProfileParams" then Some (Ok SetProfileParams)
  else if named "EnableBrutal" then Some (decode_enable_brutal value)
  else if named "DisableBrutal" then Some (one "profile" parse_profile_id DisableBrutal)
  else if named "SetEncryptedDnsHandling" then
    Some (_ ← only_fields value ["request"; "block"];
          block ← field_bool value "block";
          Ok (SetEncryptedDnsHandling block))
  else if named "ImportFeed" then Some (decode_import_feed value)
  else if named "FetchFeed" then Some (_ ← only_fields value ["request"]; Ok FetchFeed)
  else if named "PrepareServer" then
    Some (one "arch" (fun arch => ok_or (server_kind_parse arch) (invalid "`arch` must be `amd64` or `arm64`"))
            PrepareServer)
  else if named "FinishServer" then Some (decode_finish_server value)
  else if named "StartProvisioning" then Some (Ok StartProvisioning)
  else if named "CancelProvisioning" then Some (Ok CancelProvisioning)
  else if named "ApproveChange" then Some (one "id" parse_change_id ApproveChange)
  else if named "RejectChange" then Some (one "id" parse_change_id RejectChange)
  else if named "Subscribe" then Some (Ok Subscribe)
  else Some (Err (invalid ("unknown request " +:+ debug name))).

(* src: crates/dnet-ipc/src/protocol.rs:1013-1023 decode_request *)
Definition decode_request (wire : string) : option (result IpcError Request) :=
  match from_str wire with
  | Err e => Some (Err (invalid e))
  | Ok value =>
      match get value "request" ≫= as_str with
      | None => Some (Err (invalid "missing `request`"))
      | Some name => decode_named name value
      end
  end.

(* src: crates/dnet-ipc/src/protocol.rs:1191-1224 encode_request *)
Definition request_name (request : Request) : string :=
  match request with
  | GetVersion => "GetVersion"
  | GetState => "GetState"
  | GetSession => "GetSession"
  | GetPaths => "GetPaths"
  | GetStats => "GetStats"
  | GetComponents => "GetComponents"
  | ListEndpoints => "ListEndpoints"
  | ListProfiles => "ListProfiles"
  | ListRules => "ListRules"
  | GetDiagnostics => "GetDiagnostics"
  | ListPending => "ListPending"
  | Connect _ _ _ => "Connect"
  | Disconnect => "Disconnect"
  | AddEndpoint _ => "AddEndpoint"
  | RemoveEndpoint _ => "RemoveEndpoint"
  | SetEndpointEnabled _ _ => "SetEndpointEnabled"
  | AddRule _ _ => "AddRule"
  | RemoveRule _ => "RemoveRule"
  | SetProfileParams => "SetProfileParams"
  | EnableBrutal _ _ _ _ => "EnableBrutal"
  | DisableBrutal _ => "DisableBrutal"
  | SetEncryptedDnsHandling _ => "SetEncryptedDnsHandling"
  | ImportFeed _ => "ImportFeed"
  | FetchFeed => "FetchFeed"
  | PrepareServer _ => "PrepareServer"
  | FinishServer _ _ _ => "FinishServer"
  | StartProvisioning => "StartProvisioning"
  | CancelProvisioning => "CancelProvisioning"
  | ApproveChange _ => "ApproveChange"
  | RejectChange _ => "RejectChange"
  | Subscribe => "Subscribe"
  end.

(* src: crates/dnet-ipc/src/protocol.rs:1300-1310 encode_request *)
Definition action_wire (action : RuleAction) : string :=
  match action with Tunnel => "tunnel" | Bypass => "bypass" | Capture => "capture" | Reject => "reject" end.

(** The fields beside the name; [None] is a panic of an [expect]. *)
(* src: crates/dnet-ipc/src/protocol.rs:1227-1331 encode_request *)
Definition request_fields (request : Request) : option (list (string * Value)) :=
  match request with
  | Connect acknowledge profile endpoint => Some [
      ("acknowledge_tier2", Bool acknowledge);
      ("profile", match profile with Some p => Str p | None => Null end);
      ("endpoint", match endpoint with Some e => Str (uuid_to_string e) | None => Null end)]
  | AddEndpoint new =>
      text ← expect (to_plaintext_json (ne_credentials new));
      credentials ← expect (from_str text);
      Some [("label", Str (ne_label new)); ("host", Str (ne_host new)); ("credentials", credentials)]
  | RemoveEndpoint endpoint => Some [("endpoint", Str (uuid_to_string endpoint))]
  | SetEndpointEnabled endpoint enabled =>
      Some [("endpoint", Str (uuid_to_string endpoint)); ("enabled", Bool enabled)]
  | SetEncryptedDnsHandling block => Some [("block", Bool block)]
  | PrepareServer arch => Some [("arch", Str (server_kind_as_str arch))]
  | FinishServer label host report => Some [("label", Str label); ("host", Str host); ("report", Str report)]
  | EnableBrutal profile up_mbps down_mbps revision => Some [
      ("profile", Str profile); ("up_mbps", Num (Int up_mbps)); ("down_mbps", Num (Int down_mbps));
      ("warning_revision", Num (Int revision))]
  | AddRule matcher action =>
      let '(kind, value) := rule_wire matcher in
      Some [("kind", Str kind); ("value", Str value); ("action", Str (action_wire action))]
  | RemoveRule rule => Some [("rule", Str (uuid_to_string rule))]
  | ApproveChange id | RejectChange id => Some [("id", Str id)]
  | DisableBrutal profile => Some [("profile", Str profile)]
  | ImportFeed import => Some (
      match import_keys import with Some keys => [("keys", Str keys)] | None => [] end ++
      match import_feed import with Some feed => [("feed", Str feed)] | None => [] end)
  | _ => Some []
  end.

(* src: crates/dnet-ipc/src/protocol.rs:1225-1226 encode_request *)
Definition request_value (request : Request) : option Value :=
  fields ← request_fields request; Some (object (("request", Str (request_name request)) :: fields)).

(* src: crates/dnet-ipc/src/protocol.rs:1332-1333 encode_request *)
Definition encode_request (request : Request) : option string := json_to_string <$> request_value request.

End Wire.
End Requests.

(** ** Failure causes *)

(* src: crates/dnet-ipc/src/protocol.rs:426-431 core_binding_str *)
Definition core_binding_str (core : CoreBinding) : string :=
  match core with PrimaryCore => "PrimaryCore" | AmneziaWgCore => "AmneziaWgCore" end.

(* src: crates/dnet-ipc/src/protocol.rs:441-455 failure_cause_value *)
Definition failure_cause_value (cause : FailureCause) : Value :=
  match cause with
  | NoEndpointReachable => object [("cause", Str "NoEndpointReachable")]
  | AllProfilesBlocked => object [("cause", Str "AllProfilesBlocked")]
  | CaptivePortalUnsatisfied => object [("cause", Str "CaptivePortalUnsatisfied")]
  | InsufficientPrivilege => object [("cause", Str "InsufficientPrivilege")]
  | CoreFailedPersistently core =>
      object [("cause", Str "CoreFailedPersistently"); ("core", Str (core_binding_str core))]
  | NoUsablePath => object [("cause", Str "NoUsablePath")]
  | ConfigurationInvalid detail => object [("cause", Str "ConfigurationInvalid"); ("detail", Str detail)]
  end.

(** [as_object_mut] and [insert]. *)
Definition insert_field (value : Value) (key : string) (v : Value) : Value :=
  match value with Object fields => Object (<[key := v]> fields) | v => v end.

(* src: crates/dnet-ipc/src/protocol.rs:457-468 failure_value_with_words *)
Definition failure_value_with_words (cause : FailureCause) : Value :=
  let words := explain cause in
  insert_field (insert_field (insert_field (failure_cause_value cause) "title" (Str (ex_title words)))
    "detail" (Str (ex_detail words))) "action" (Str (ex_action words)).

Section Snapshot.
Context `{DebugText, JsonText}.

(* src: crates/dnet-ipc/src/protocol.rs:433-439 core_binding_from_str *)
Definition core_binding_from_str (s : string) : result IpcError CoreBinding :=
  if String.eqb s "PrimaryCore" then Ok PrimaryCore
  else if String.eqb s "AmneziaWgCore" then Ok AmneziaWgCore
  else Err (invalid ("unknown core binding " +:+ debug s)).

(* src: crates/dnet-ipc/src/protocol.rs:470-473 encode_failure_cause *)
Definition encode_failure_cause (cause : FailureCause) : string := json_to_string (failure_cause_value cause).

(* src: crates/dnet-ipc/src/protocol.rs:475-507 failure_cause_from_value *)
Definition failure_cause_from_value (value : Value) : result IpcError FailureCause :=
  cause ← ok_or (get value "cause" ≫= as_str) (invalid "missing `cause`");
  if String.eqb cause "NoEndpointReachable" then Ok NoEndpointReachable
  else if String.eqb cause "AllProfilesBlocked" then Ok AllProfilesBlocked
  else if String.eqb cause "CaptivePortalUnsatisfied" then Ok CaptivePortalUnsatisfied
  else if String.eqb cause "InsufficientPrivilege" then Ok InsufficientPrivilege
  else if String.eqb cause "NoUsablePath" then Ok NoUsablePath
  else if String.eqb cause "CoreFailedPersistently" then
    core ← ok_or (get value "core" ≫= as_str) (invalid "CoreFailedPersistently requires `core`");
    core ← core_binding_from_str core;
    Ok (CoreFailedPersistently core)
  else if String.eqb cause "ConfigurationInvalid" then
    Ok (ConfigurationInvalid (default "" (get value "detail" ≫= as_str)))
  else Err (invalid ("unknown failure cause " +:+ debug cause)).

(* src: crates/dnet-ipc/src/protocol.rs:509-513 decode_failure_cause *)
Definition decode_failure_cause (wire : string) : result IpcError FailureCause :=
  match from_str wire with Err e => Err (invalid e) | Ok value => failure_cause_from_value value end.

(** ** The state snapshot *)

(* src: crates/dnet-ipc/src/protocol.rs:370-378 ConnectionStatus *)
Inductive ConnectionStatus : Type := Disconnected | Probing | Connected | Failed.

(* src: crates/dnet-ipc/src/protocol.rs:380-389 ActiveProfile *)
Record ActiveProfile : Type := mkActiveProfile { ap_id : string; ap_kind : string; ap_tier : FailoverTier }.

(* src: crates/dnet-ipc/src/protocol.rs:391-396 ActiveEndpoint *)
Record ActiveEndpoint : Type := mkActiveEndpoint { ae_id : string; ae_label : string }.

(* src: crates/dnet-ipc/src/protocol.rs:398-404 Warning *)
Inductive Warning : Type := Tier2ProfileActive | BrutalEnabled | EncryptedDnsOverridden.

(* src: crates/dnet-ipc/src/protocol.rs:406-422 StateSnapshot *)
Record StateSnapshot : Type := mkSnapshot {
  status : ConnectionStatus;
  active_profile : option ActiveProfile;
  active_endpoint : option ActiveEndpoint;
  failure : option FailureCause;
  warnings : list Warning;
  posture : RoutingPosture;
}.

(* src: crates/dnet-ipc/src/protocol.rs:517-524 status_str *)
Definition status_str (s : ConnectionStatus) : string :=
  match s with
  | Disconnected => "Disconnected" | Probing => "Probing" | Connected => "Connected" | Failed => "Failed"
  end.

(* src: crates/dnet-ipc/src/protocol.rs:526-534 status_from_str *)
Definition status_from_str (s : string) : result IpcError ConnectionStatus :=
  if String.eqb s "Disconnected" then Ok Disconnected
  else if String.eqb s "Probing" then Ok Probing
  else if String.eqb s "Connected" then Ok Connected
  else if String.eqb s "Failed" then Ok Failed
  else Err (invalid ("unknown status " +:+ debug s)).

(* src: crates/dnet-ipc/src/protocol.rs:543-549 tier_from_str *)
Definition tier_from_str (s : string) : result IpcError FailoverTier :=
  if String.eqb s "Tier1" then Ok Tier1
  else if String.eqb s "Tier2" then Ok Tier2
  else Err (invalid ("unknown tier " +:+ debug s)).

(* src: crates/dnet-ipc/src/protocol.rs:551-557 warning_str *)
Definition warning_str (w : Warning) : string :=
  match w with
  | Tier2ProfileActive => "Tier2ProfileActive"
  | BrutalEnabled => "BrutalEnabled"
  | EncryptedDnsOverridden => "EncryptedDnsOverridden"
  end.

(* src: crates/dnet-ipc/src/protocol.rs:559-566 warning_from_str *)
Definition warning_from_str (s : string) : result IpcError Warning :=
  if String.eqb s "Tier2ProfileActive" then Ok Tier2ProfileActive
  else if String.eqb s "BrutalEnabled" then Ok BrutalEnabled
  else if String.eqb s "EncryptedDnsOverridden" then Ok EncryptedDnsOverridden
  else Err (invalid ("unknown warning " +:+ debug s)).

(* src: crates/dnet-ipc/src/protocol.rs:616-621 fail_closed_only *)
Definition fail_closed_only (s : StateSnapshot) : result string unit :=
  match posture s with
  | FailClosed => Ok ()
  | Tunnelled _ => Err "only a connected snapshot can be tunnelled"
  end.

(* src: crates/dnet-ipc/src/protocol.rs:568-614 check_consistency *)
Definition check_consistency (s : StateSnapshot) : result string unit :=
  let has_active := bool_decide (is_Some (active_profile s)) || bool_decide (is_Some (active_endpoint s)) in
  match status s with
  | Connected =>
      profile ← ok_or (active_profile s) "a connected snapshot needs an active profile";
      if bool_decide (active_endpoint s = None) then Err "a connected snapshot needs an active endpoint"
      else if bool_decide (is_Some (failure s)) then Err "a connected snapshot cannot carry a failure"
      else
        match posture s with
        | Tunnelled tier =>
            if bool_decide (tier = ap_tier profile) then Ok ()
            else Err "the posture tier differs from the active profile's tier"
        | FailClosed => Err "a connected snapshot cannot be fail-closed"
        end
  | Failed =>
      if bool_decide (failure s = None) then Err "a failed snapshot needs a cause"
      else if has_active then Err "a failed snapshot cannot name an active profile or endpoint"
      else fail_closed_only s
  | Disconnected | Probing =>
      if bool_decide (is_Some (failure s)) then Err "only a failed snapshot carries a failure"
      else if has_active then Err "nothing is carrying traffic, so no profile or endpoint is active"
      else fail_closed_only s
  end.

(** [json!] of an [Option]. *)
Definition option_value (o : option Value) : Value := default Null o.

(* src: crates/dnet-ipc/src/protocol.rs:632-656 encode_state_snapshot *)
Definition snapshot_value (s : StateSnapshot) : Value :=
  object [
    ("status", Str (status_str (status s)));
    ("active_profile", option_value ((fun p => object [
       ("id", Str (ap_id p)); ("kind", Str (ap_kind p)); ("tier", Str (tier_str (ap_tier p)))]) <$> active_profile s));
    ("active_endpoint", option_value ((fun e => object [
       ("id", Str (ae_id e)); ("label", Str (ae_label e))]) <$> active_endpoint s));
    ("failure", option_value (failure_value_with_words <$> failure s));
    ("warnings", Array (map (fun w => Str (warning_str w)) (warnings s)));
    ("routing_posture", match posture s with
       | Tunnelled tier => object [("posture", Str "Tunnelled"); ("tier", Str (tier_str tier))]
       | FailClosed => object [("posture", Str "FailClosed")]
       end)].

(* src: crates/dnet-ipc/src/protocol.rs:623-658 encode_state_snapshot *)
Definition encode_state_snapshot (s : StateSnapshot) : result IpcError string :=
  match check_consistency s with
  | Err why => Err (InternalError ("refusing to send an inconsistent state snapshot: " +:+ why))
  | Ok _ => Ok (json_to_string (snapshot_value s))
  end.

(** [collect] of results. *)
Fixpoint collect {E A B} (f : A → result E B) (l : list A) : result E (list B) :=
  match l with [] => Ok [] | a :: l => b ← f a; bs ← collect f l; Ok (b :: bs) end.

(* src: crates/dnet-ipc/src/protocol.rs:683-738 decode_state_snapshot *)
Definition snapshot_from_value (value : Value) : result IpcError StateSnapshot :=
  status ← (s ← required_str value "status" "snapshot"; status_from_str s);
  active_profile ←
    transpose (fun profile =>
      id ← required_str profile "id" "active profile";
      kind ← required_str profile "kind" "active profile";
      tier ← (s ← required_str profile "tier" "active profile"; tier_from_str s);
      Ok {| ap_id := id; ap_kind := kind; ap_tier := tier |}) (optional value "active_profile");
  active_endpoint ←
    transpose (fun endpoint =>
      id ← required_str endpoint "id" "active endpoint";
      label ← required_str endpoint "label" "active endpoint";
      Ok {| ae_id := id; ae_label := label |}) (optional value "active_endpoint");
  failure ← transpose failure_cause_from_value (optional value "failure");
  warnings ←
    match get value "warnings" with
    | Some (Array items) =>
        collect (fun item => s ← ok_or (as_str item) (invalid "a warning must be a string"); warning_from_str s) items
    | _ => Err (invalid "snapshot missing `warnings`")
    end;
  posture_value ← ok_or (get value "routing_posture") (invalid "snapshot missing `routing_posture`");
  posture ←
    (s ← required_str posture_value "posture" "routing posture";
     if String.eqb s "Tunnelled" then
       tier ← (s ← required_str posture_value "tier" "tunnelled posture"; tier_from_str s); Ok (Tunnelled tier)
     else if String.eqb s "FailClosed" then Ok FailClosed
     else Err (invalid ("unknown routing posture " +:+ debug s)));
  Ok {| status := status; active_profile := active_profile; active_endpoint := active_endpoint;
        failure := failure; warnings := warnings; posture := posture |}.

(* src: crates/dnet-ipc/src/protocol.rs:675-741 decode_state_snapshot *)
Definition decode_state_snapshot (json : string) : result IpcError StateSnapshot :=
  match from_str json with
  | Err e => Err (invalid e)
  | Ok value =>
      snapshot ← snapshot_from_value value;
      match check_consistency snapshot with
      | Err why => Err (invalid ("inconsistent snapshot: " +:+ why))
      | Ok _ => Ok snapshot
      end
  end.

End Snapshot.

(** ** Validators *)

(* src: crates/dnet-ipc/src/protocol.rs:745-758 check_tier_consent *)
Definition check_tier_consent (selected : FailoverTier) (tier1_viable acknowledged : bool) : result IpcError unit :=
  if bool_decide (selected = Tier2) && tier1_viable && negb acknowledged then
    Err (TierDowngradeRequiresConsent Tier2)
  else Ok ().

(* src: crates/dnet-ipc/src/protocol.rs:760-773 validate_because *)
Definition validate_because (event_name because : string) : result IpcError unit :=
  let trimmed := trim because in
  if str_is_empty trimmed then Err (invalid "ConnectionEvent `because` must not be empty")
  else if eq_ignore_ascii_case trimmed (trim event_name) then
    Err (invalid "`because` must explain the event, not restate its name")
  else Ok ().

(* src: crates/dnet-ipc/src/protocol.rs:775-784 DiagnosticInput *)
Record DiagnosticInput : Type := mkDiagnosticInput {
  events : list string;
  destinations : list string;
  destination_logging_enabled : bool;
}.

Definition newline : string := of_bytes [10].
Definition lines (l : list string) : string := concat_str (map (fun s => s +:+ newline) l).

(* src: crates/dnet-ipc/src/protocol.rs:786-803 build_diagnostic_bundle *)
Definition build_diagnostic_bundle (input : DiagnosticInput) : string :=
  "# DNet Engine diagnostics" +:+ newline +:+ newline +:+ "## Session events" +:+ newline +:+
  lines (events input) +:+
  (if destination_logging_enabled input then
     newline +:+ "## Destinations (logging explicitly enabled)" +:+ newline +:+ lines (destinations input)
   else "").

(** * Lemmas *)

(** ** Objects *)

Lemma only_fields_object fields allowed :
  forallb (fun kv => existsb (String.eqb kv.1) allowed) fields = true → only_fields (object fields) allowed = Ok ().
Proof.
  intros H. unfold only_fields, object. simpl. rewrite (proj2 (existsb_false_elem _ _)); [done|].
  intros k ([k' v] & -> & Hk)%elem_of_map. apply elem_of_map_to_list, elem_of_list_to_map_2 in Hk.
  rewrite forallb_forall_elem in H. rewrite (H _ Hk). done.
Qed.

Lemma required_str_object fields key what s :
  assoc key fields = Some (Str s) → required_str (object fields) key what = Ok s.
Proof. intros E. unfold required_str. by rewrite get_object, E. Qed.

Lemma field_object fields key v :
  assoc key fields = Some v → v ≠ Null → field (object fields) key = Ok v.
Proof. intros E Hv. unfold field. rewrite get_object, E. by destruct v. Qed.

Lemma field_str_object fields key s : assoc key fields = Some (Str s) → field_str (object fields) key = Ok s.
Proof. intros E. unfold field_str. by rewrite (field_object _ _ _ E). Qed.

Lemma field_bool_object fields key b : assoc key fields = Some (Bool b) → field_bool (object fields) key = Ok b.
Proof. intros E. unfold field_bool. by rewrite (field_object _ _ _ E). Qed.

Lemma field_mbps_object fields key n :
  assoc key fields = Some (Num (Int n)) → 1 ≤ n ≤ MAX_BRUTAL_MBPS → field_mbps (object fields) key = Ok n.
Proof.
  intros E Hn. unfold field_mbps. rewrite (field_object _ _ _ E) by done. unfold MAX_BRUTAL_MBPS in *. simpl.
  unfold U64_MAX. destruct (Z.leb_spec 0 n); [|lia]. destruct (Z.leb_spec n (2 ^ 64 - 1)); [|lia]. simpl.
  destruct (Z.leb_spec 1 n); [|lia]. destruct (Z.leb_spec n 1000000); [|lia]. simpl.
  unfold try_u32, U32_MAX. by destruct (Z.leb_spec n (2 ^ 32 - 1)); [|lia].
Qed.

Lemma optional_object fields key : optional (object fields) key =
  match assoc key fields with None | Some Null => None | Some v => Some v end.
Proof. unfold optional. rewrite get_object. done. Qed.

(** ** Names that read back *)

Section Names.
Context `{DebugText, JsonText}.

Lemma status_reads_back s : status_from_str (status_str s) = Ok s.
Proof. by destruct s. Qed.
Lemma tier_reads_back t : tier_from_str (tier_str t) = Ok t.
Proof. by destruct t. Qed.
Lemma warning_reads_back w : warning_from_str (warning_str w) = Ok w.
Proof. by destruct w. Qed.
Lemma core_binding_reads_back c : core_binding_from_str (core_binding_str c) = Ok c.
Proof. by destruct c. Qed.

Lemma warnings_read_back l :
  collect (fun item => s ← ok_or (as_str item) (invalid "a warning must be a string"); warning_from_str s)
    (map (fun w => Str (warning_str w)) l) = Ok l.
Proof. induction l as [|w l IH]; [done|]. cbn [map collect as_str ok_or]. simpl. rewrite warning_reads_back. simpl. by rewrite IH. Qed.

(** The words shown with a cause do not change what is read: the one field they overwrite, [detail], is the
    cause's own where it has one. *)
Lemma cause_with_words_reads_back cause : failure_cause_from_value (failure_value_with_words cause) = Ok cause.
Proof. by destruct cause as [| | | |[]| |detail]. Qed.

(** An optional field that was written from [o] by [g] and is read by its inverse. *)
Lemma optional_reads_back {A} (f : Value → result IpcError A) (g : A → Value) fields key o :
  assoc key fields = Some (option_value (g <$> o)) → (∀ a, g a ≠ Null) → (∀ a, f (g a) = Ok a) →
  transpose f (optional (object fields) key) = Ok o.
Proof.
  intros E Hg Hf. rewrite optional_object, E. destruct o as [a|]; [|done]. simpl.
  specialize (Hg a). specialize (Hf a). destruct (g a); simpl; by rewrite ?Hf.
Qed.

Lemma failure_value_not_null cause : failure_value_with_words cause ≠ Null.
Proof. by destruct cause. Qed.

Lemma snapshot_value_reads_back s : snapshot_from_value (snapshot_value s) = Ok s.
Proof.
  destruct s as [st ap ae f w po]. unfold snapshot_from_value, snapshot_value.
  cbn [status active_profile active_endpoint failure warnings posture].
  eapply bind_Ok_2; [eapply bind_Ok_2; [by apply required_str_object|apply status_reads_back]|].
  eapply bind_Ok_2; [eapply optional_reads_back; [done|done|]|].
  { intros [i k t]. do 2 (eapply bind_Ok_2; [by apply required_str_object|]).
    eapply bind_Ok_2; [|done]. eapply bind_Ok_2; [by apply required_str_object|apply tier_reads_back]. }
  eapply bind_Ok_2; [eapply optional_reads_back; [done|done|]|].
  { intros [i l]. by do 2 (eapply bind_Ok_2; [by apply required_str_object|]). }
  eapply bind_Ok_2.
  { eapply optional_reads_back; [done|apply failure_value_not_null|apply cause_with_words_reads_back]. }
  eapply bind_Ok_2; [rewrite get_object; apply warnings_read_back|].
  eapply bind_Ok_2; [rewrite get_object; done|]. eapply bind_Ok_2; [|done].
  destruct po as [t|]; (eapply bind_Ok_2; [by apply required_str_object|]); [|done].
  simpl. eapply bind_Ok_2; [|done]. eapply bind_Ok_2; [by apply required_str_object|apply tier_reads_back].
Qed.
End Names.

(** ** Snapshots *)

(** What a snapshot that says one thing says. *)
Definition coherent (s : StateSnapshot) : Prop :=
  match status s with
  | Connected => ∃ p e, active_profile s = Some p ∧ active_endpoint s = Some e ∧ failure s = None ∧
      posture s = Tunnelled (ap_tier p)
  | Failed => is_Some (failure s) ∧ active_profile s = None ∧ active_endpoint s = None ∧ posture s = FailClosed
  | _ => failure s = None ∧ active_profile s = None ∧ active_endpoint s = None ∧ posture s = FailClosed
  end.

Lemma check_consistency_coherent s : is_ok (check_consistency s) = true ↔ coherent s.
Proof.
  destruct s as [st ap ae f w po]. unfold check_consistency, coherent, fail_closed_only. simpl.
  destruct st, ap as [p|], ae as [e|], f as [c|], po as [t|]; simpl; try case_bool_decide; naive_solver.
Qed.

(** ** Requests *)

Section RequestLemmas.
Context {C : Type} `{CredentialForm C, UuidText, DebugText, JsonText, !UuidLaws}.

(** What a reader makes of the stored form of a set of credentials, written as a part of a request. *)
Definition carried (c : C) (answer : result string C) : Prop :=
  ∃ text v, to_plaintext_json c = Ok text ∧ from_str text = Ok v ∧ is_Some (as_object v) ∧
    from_plaintext_json (json_to_string v) = answer.

(** An id a request may name: one with a hyphenated form. *)
Definition hyphenated (u : Uuid) : Prop := ∃ s, str_len s = 36 ∧ uuid_parse_str s = Some u.

Definition endpoint_ok (n : NewEndpoint (C := C)) : Prop :=
  check_label (ne_label n) = Ok (ne_label n) ∧ check_host (ne_host n) = Ok (ne_host n) ∧
  creds_is_empty (ne_credentials n) = false ∧ is_ok (to_plaintext_json (ne_credentials n)) = true.

Definition rule_ok (m : RuleMatcher) (a : RuleAction) : Prop :=
  personal_rule (rule_wire m).1 (rule_wire m).2 (action_wire a) = Some (Ok (m, a)).

(** The requests a reader lets through: each value is one its check leaves as it is. *)
Definition request_ok (r : Request (C := C)) : Prop :=
  match r with
  | Connect _ p e => (∀ id, p = Some id → parse_profile_id id = Ok id) ∧ (∀ id, e = Some id → hyphenated id)
  | AddEndpoint n => endpoint_ok n
  | RemoveEndpoint e | SetEndpointEnabled e _ | RemoveRule e => hyphenated e
  | AddRule m a => rule_ok m a
  | EnableBrutal p up down revision =>
      parse_profile_id p = Ok p ∧ 1 ≤ up ≤ MAX_BRUTAL_MBPS ∧ 1 ≤ down ≤ MAX_BRUTAL_MBPS ∧
      revision = BRUTAL_WARNING_REVISION
  | DisableBrutal p => parse_profile_id p = Ok p
  | ImportFeed i => feed_import_new (import_keys i) (import_feed i) = Ok i
  | FinishServer label host report =>
      check_label label = Ok label ∧ check_host host = Ok host ∧ check_report report = Ok ()
  | ApproveChange id | RejectChange id => parse_change_id id = Ok id
  | _ => True
  end.

Lemma check_label_idem raw label : check_label raw = Ok label → check_label label = Ok label ∧ trim label = label.
Proof.
  unfold check_label. destruct (_ || _ || _) eqn:E; [done|]. intros [= <-]. rewrite trim_trim. by rewrite E.
Qed.

Lemma check_host_idem raw host : check_host raw = Ok host → check_host host = Ok host.
Proof.
  unfold check_host. destruct (_ || _) eqn:E; [done|]. intros Hh.
  assert (host = trim raw) as -> by (repeat case_match; congruence).
  rewrite trim_trim, E. done.
Qed.

Lemma parse_profile_id_ok raw id : parse_profile_id raw = Ok id → parse_profile_id id = Ok id.
Proof. unfold parse_profile_id. destruct (_ && _) eqn:E; [|done]. intros [= <-]. by rewrite E. Qed.

Lemma parse_change_id_ok raw id : parse_change_id raw = Ok id → parse_change_id id = Ok id.
Proof. unfold parse_change_id. destruct (_ && _) eqn:E; [|done]. intros [= <-]. by rewrite E. Qed.

Lemma parse_endpoint_id_ok raw u : parse_endpoint_id raw = Ok u → hyphenated u.
Proof. unfold parse_endpoint_id. destruct (Z.eqb_spec (str_len raw) 36); [|done]. destruct (uuid_parse_str raw) eqn:E; [|done]. intros [= <-]. by eexists. Qed.

Lemma parse_rule_id_ok raw u : parse_rule_id raw = Ok u → hyphenated u.
Proof. unfold parse_rule_id. destruct (Z.eqb_spec (str_len raw) 36); [|done]. destruct (uuid_parse_str raw) eqn:E; [|done]. intros [= <-]. by eexists. Qed.

Lemma hyphenated_reads_back u :
  hyphenated u → parse_endpoint_id (uuid_to_string u) = Ok u ∧ parse_rule_id (uuid_to_string u) = Ok u.
Proof.
  intros (s & _ & [Hp Hl]%uuid_reads_back). unfold parse_endpoint_id, parse_rule_id. by rewrite Hl, Hp.
Qed.

Lemma new_endpoint_ok label host c n : new_endpoint label host c = Ok n → endpoint_ok n.
Proof.
  unfold new_endpoint. intros E. unbind E. destruct (creds_is_empty c) eqn:Ec; [done|].
  destruct (to_plaintext_json c) eqn:Et; [|done]. injection E as <-. repeat split; simpl.
  - by eapply check_label_idem.
  - by eapply check_host_idem.
  - done.
  - by rewrite Et.
Qed.

Lemma endpoint_ok_new n : endpoint_ok n → new_endpoint (ne_label n) (ne_host n) (ne_credentials n) = Ok n.
Proof.
  destruct n as [l h c]. intros (Hl & Hh & Hc & Ht). simpl in *. unfold new_endpoint. rewrite Hl. simpl. rewrite Hh. simpl.
  rewrite Hc. by destruct (to_plaintext_json c).
Qed.

Lemma feed_import_new_ok k f i : feed_import_new k f = Ok i → feed_import_new (import_keys i) (import_feed i) = Ok i.
Proof.
  unfold feed_import_new. destruct (_ && _) eqn:E1; [done|]. destruct (List.find _ _) as [[]|] eqn:E2; [done|].
  intros [= <-]. simpl. rewrite E1. simpl in E2. by rewrite E2.
Qed.

Lemma personal_matcher_wire kind value m :
  personal_matcher kind value = Ok m → personal_matcher (rule_wire m).1 (rule_wire m).2 = Ok m.
Proof.
  unfold personal_matcher at 1.
  destruct (String.eqb kind "domain"); [by intros [= <-]|].
  destruct (String.eqb kind "domain_suffix"); [by intros [= <-]|].
  destruct (String.eqb kind "ip_cidr").
  { destruct (cidr_parse value) as [c|] eqn:E; [|done]. intros [= <-]. simpl. unfold personal_matcher. simpl.
    by rewrite cidr_text_reads_back by by eapply cidr_parse_ok. }
  destruct (String.eqb kind "application"); [|done].
  destruct (_ || _ || _) eqn:E; [done|]. intros [= <-]. unfold personal_matcher. simpl. by rewrite E.
Qed.

Lemma personal_action_wire text a : personal_action text = Ok a → personal_action (action_wire a) = Ok a.
Proof. unfold personal_action. repeat case_match; try done; by intros [= <-]. Qed.

(** A person's rule, written out and read again, is the same rule. *)
Lemma personal_rule_reads_back kind value action m a :
  personal_rule kind value action = Some (Ok (m, a)) → rule_ok m a.
Proof.
  unfold rule_ok, personal_rule. destruct (mbind _ (personal_matcher kind value)) as [[m' a']|] eqn:E; [|done].
  unbind E. injection E as -> ->. intros Hmade.
  assert (m' = m ∧ a' = a) as [-> ->].
  { destruct (user 0 m' a' USER_RULES_START) as [[]|]; simpl in Hmade; by simplify_eq. }
  by rewrite (personal_matcher_wire _ _ _ Hu), (personal_action_wire _ _ Hu0).
Qed.
Lemma transpose_Ok {A B} (f : A → result IpcError B) o b : transpose f o = Ok (Some b) → ∃ a, f a = Ok b.
Proof. destruct o as [a|]; [|done]. simpl. intros E. unbind E. injection E as <-. eauto. Qed.

Lemma field_mbps_range v key n : field_mbps v key = Ok n → 1 ≤ n ≤ MAX_BRUTAL_MBPS.
Proof.
  unfold field_mbps. intros E. unbind E. unfold ok_or in E.
  destruct (filter_opt _ _ ≫= try_u32) as [m|] eqn:Ef; [|done]. injection E as <-.
  apply bind_Some in Ef as (k & Hk & Ht). apply filter_opt_Some in Hk as [_ Hk].
  unfold try_u32 in Ht. destruct (k <=? U32_MAX); [|done]. injection Ht as <-. lia.
Qed.

Ltac next_arm H := match type of H with (if ?b then _ else _) = _ => destruct b; [|try next_arm H] end.

(** What is decoded has passed its checks. *)
Lemma decode_named_ok name v r : decode_named name v = Some (Ok r) → request_ok r.
Proof.
  unfold decode_named. intros E. next_arm E.
  all: try (injection E as <-; exact I).
  all: try (unfold decode_add_rule in E; destruct (mbind _ (only_fields _ _)) as [[[k t] a]|] eqn:Ef in E; [|done];
    apply bind_Some in E as (rule & Hr & E); injection E as E; unbind E; destruct rule as [[m' a']|]; [|done];
    injection Hu as <-; injection E as <-; by eapply personal_rule_reads_back).
  all: injection E as E; try (unfold decode_connect, decode_add_endpoint, decode_enable_brutal, decode_import_feed,
    decode_finish_server in E); unbind E; try done.
  all: try (injection E as <-).
  all: try exact I.
  - unbind Hu0. unbind Hu1. split.
    + intros id ->. destruct (transpose_Ok _ _ _ Hu0) as [raw Hraw]. by eapply parse_profile_id_ok.
    + intros id ->. destruct (transpose_Ok _ _ _ Hu1) as [raw Hraw]. by eapply parse_endpoint_id_ok.
  - case_bool_decide; [done|]. unbind E. injection E as <-. by eapply new_endpoint_ok.
  - by eapply parse_endpoint_id_ok.
  - unbind Hu0. by eapply parse_endpoint_id_ok.
  - by eapply parse_rule_id_ok.
  - unbind Hu0. unbind Hu3. split_and!; [by eapply parse_profile_id_ok|by eapply field_mbps_range..|].
    unfold ok_or in Hu3. destruct (filter_opt _ _) eqn:Ef; [|done]. injection Hu3 as <-.
    apply filter_opt_Some in Ef as [_ Ef]. lia.
  - by eapply parse_profile_id_ok.
  - by eapply feed_import_new_ok.
  - unbind Hu0. unbind Hu1. split_and!; [by eapply check_label_idem|by eapply check_host_idem|by destruct u3].
  - by eapply parse_change_id_ok.
  - by eapply parse_change_id_ok.
Qed.

Ltac the_arm := eexists; split_and!; [done|by rewrite get_object|];
  lazy beta iota zeta delta [decode_named request_name String.eqb Ascii.eqb Bool.eqb]; f_equal.
Ltac read_field := first
  [ apply only_fields_object; reflexivity
  | apply field_str_object; reflexivity
  | apply field_bool_object; reflexivity
  | apply field_mbps_object; [reflexivity|done]
  | eassumption ].
Ltac read_step := eapply bind_Ok_2; [first [read_field|eapply bind_Ok_2; [read_field|read_field]]|].

(** A new endpoint's request is written when its credentials have a stored form, and the reader answers to it as it does
    to that form. *)
Lemma add_endpoint_reads_back n answer : endpoint_ok n → carried (ne_credentials n) answer →
  ∃ v, request_value (AddEndpoint n) = Some v ∧ get v "request" ≫= as_str = Some "AddEndpoint" ∧
    match answer with
    | Ok c => c = ne_credentials n → decode_named "AddEndpoint" v = Some (Ok (AddEndpoint n))
    | Err e => decode_named "AddEndpoint" v = Some (Err (invalid ("`credentials`: " +:+ e)))
    end.
Proof.
  intros Hok (text & v & Et & Hv & [m Hm] & Hback). unfold request_value.
  simpl request_fields. rewrite Et. simpl. rewrite Hv. simpl. eexists. split_and!; [done|by rewrite get_object|].
  set (w := object _).
  assert (decode_add_endpoint w =
    (credentials ← match answer with Ok c => Ok c | Err e => Err (invalid ("`credentials`: " +:+ e)) end;
     new ← new_endpoint (ne_label n) (ne_host n) credentials; Ok (AddEndpoint new))) as Hdec.
  { unfold decode_add_endpoint.
    assert (only_fields w ["request"; "label"; "host"; "credentials"] = Ok ()) as -> by (apply only_fields_object; reflexivity).
    assert (field w "credentials" = Ok v) as -> by (apply field_object; [reflexivity|by destruct v]).
    assert (field_str w "label" = Ok (ne_label n)) as -> by (apply field_str_object; reflexivity).
    assert (field_str w "host" = Ok (ne_host n)) as -> by (apply field_str_object; reflexivity).
    cbn [mbind result_bind]. rewrite bool_decide_eq_false_2 by congruence. by rewrite Hback. }
  assert (decode_named "AddEndpoint" w = Some (decode_add_endpoint w)) as -> by done. rewrite Hdec.
  destruct answer as [c|e]; [|done]. intros ->. simpl. by rewrite (endpoint_ok_new n Hok).
Qed.

Lemma new_endpoint_credentials label host c n : new_endpoint label host c = Ok n → ne_credentials n = c.
Proof.
  unfold new_endpoint. intros E. unbind E. destruct (creds_is_empty c); [done|].
  destruct (to_plaintext_json c); [|done]. by injection E as <-.
Qed.

(** The credentials in a request that was read are ones that were read. *)
Lemma decoded_credentials name v n : decode_named name v = Some (Ok (AddEndpoint n)) →
  ∃ text, from_plaintext_json text = Ok (ne_credentials n).
Proof.
  unfold decode_named. intros E. next_arm E. all: try done.
  all: try (unfold decode_add_rule in E; destruct (mbind _ (only_fields _ _)) as [[[k t] a]|] eqn:Ef in E; [|done];
    apply bind_Some in E as (rule & Hr & E); injection E as E; unbind E; by destruct u).
  all: injection E as E; try (unfold decode_connect, decode_add_endpoint, decode_enable_brutal, decode_import_feed,
    decode_finish_server in E); unbind E; try done.
  case_bool_decide; [done|]. unbind E. injection E as <-.
  rewrite (new_endpoint_credentials _ _ _ _ Hu4). exists (json_to_string u0).
  destruct (from_plaintext_json _) as [c|]; [|done]. by injection Hu1 as ->.
Qed.

(** A request that passes the checks is written, and what is written reads back. *)
Lemma request_reads_back r : request_ok r → (∀ n, r = AddEndpoint n → carried (ne_credentials n) (Ok (ne_credentials n))) → ∃ v, request_value r = Some v ∧
  get v "request" ≫= as_str = Some (request_name r) ∧ decode_named (request_name r) v = Some (Ok r).
Proof.
  intros Hr Hcarried. unfold request_value. destruct r; simpl request_fields; cbn [mbind option_bind];
    try (eexists; split_and!; [done|by rewrite get_object|done]); simpl in Hr.
  - destruct Hr as [Hp He]. the_arm. unfold decode_connect.
    eapply bind_Ok_2; [unfold optional_flag; rewrite optional_object; reflexivity|].
    eapply bind_Ok_2.
    { eapply bind_Ok_2; [unfold optional_string; rewrite optional_object; simpl; by destruct profile|].
      instantiate (1 := profile). destruct profile as [p|]; [|done]. simpl. by rewrite (Hp p). }
    eapply bind_Ok_2; [|done].
    eapply (bind_Ok_2 _ _ (uuid_to_string <$> endpoint)).
    { unfold optional_string. rewrite optional_object. simpl. by destruct endpoint. }
    destruct endpoint as [e|]; [|done]. simpl. by rewrite (proj1 (hyphenated_reads_back e (He e eq_refl))).
  - destruct (add_endpoint_reads_back new _ Hr (Hcarried new eq_refl)) as (v & Hv & Hname & Hback). exists v.
    unfold request_value in Hv. simpl request_fields in Hv. specialize (Hback eq_refl). done.
  - destruct (hyphenated_reads_back _ Hr). the_arm. by do 3 read_step.
  - destruct (hyphenated_reads_back _ Hr). the_arm. by do 3 read_step.
  - unfold rule_ok in Hr. destruct (rule_wire matcher) as [kind value]. simpl in *. the_arm.
    unfold decode_add_rule.
    erewrite (bind_Ok_2 _ _ _ (kind, value, action_wire action)); [|read_field|by do 3 read_step].
    by rewrite Hr.
  - destruct (hyphenated_reads_back _ Hr). the_arm. by do 3 read_step.
  - destruct Hr as (Hp & Hu & Hd & ->). the_arm. unfold decode_enable_brutal. do 4 read_step.
    eapply bind_Ok_2; [|done]. eapply bind_Ok_2; [by apply field_object|]. done.
  - the_arm. by do 3 read_step.
  - destruct import as [k f]. simpl in *. the_arm. unfold decode_import_feed.
    eapply bind_Ok_2; [apply only_fields_object; by destruct k, f|].
    eapply bind_Ok_2; [unfold optional_string; rewrite optional_object; by destruct k, f|].
    eapply bind_Ok_2; [unfold optional_string; rewrite optional_object; by destruct k, f|].
    eapply bind_Ok_2; [|done]. by destruct k, f.
  - the_arm. do 2 read_step. by destruct arch.
  - destruct Hr as (Hl & Hh & Hrep). the_arm. unfold decode_finish_server. by do 5 read_step.
  - the_arm. by do 3 read_step.
  - the_arm. by do 3 read_step.
Qed.
End RequestLemmas.

(** * Properties *)

(** Text a request may carry: bytes within bounds, and at most so many of them. *)
Definition plain_text (lo hi max : Z) (s : string) : Prop :=
  1 ≤ str_len s ≤ max ∧ Forall (fun b => lo ≤ byte_value b ≤ hi) (bytes s).

Lemma in_range_all lo hi s : forallb (in_range lo hi) (bytes s) = true → Forall (fun b => lo ≤ byte_value b ≤ hi) (bytes s).
Proof. intros H. apply Forall_forall. intros b Hb. rewrite forallb_forall_elem in H. apply H in Hb. unfold in_range in Hb. lia. Qed.

Lemma chars_ascii s : forallb is_ascii (bytes s) = true → chars s = map (fun b => String b EmptyString) (bytes s).
Proof.
  induction s as [|b s IH]; [done|]. simpl. intros [Hb Hs]%andb_true_iff. rewrite IH by done.
  destruct s as [|b' s]; [done|]. simpl in *. apply andb_true_iff in Hs as [Hb' _].
  assert (is_continuation b' = false) as ->; [|done]. clear -Hb'. unfold is_ascii, is_continuation in *.
  destruct b' as [[] [] [] [] [] [] [] []]; vm_compute in *; congruence.
Qed.

Lemma char_count_ascii s : forallb is_ascii (bytes s) = true → char_count s = str_len s.
Proof.
  intros Hs. unfold char_count, str_len. rewrite chars_ascii by done. rewrite length_map. f_equal.
  clear. induction s as [|b s IH]; [done|]. simpl. by rewrite IH.
Qed.

Lemma str_len_pos s : str_is_empty s = false → 1 ≤ str_len s.
Proof. destruct s; [done|]. intros _. unfold str_len. simpl. lia. Qed.

Lemma check_label_plain raw label : check_label raw = Ok label → plain_text 0x20 0x7E 64 label.
Proof.
  unfold check_label. set (l := trim raw). clearbody l. intros E.
  destruct (_ || _ || _) eqn:Eb in E; [done|]. injection E as <-.
  apply orb_false_iff in Eb as [[He Hl]%orb_false_iff Hb]. apply negb_false_iff in Hb.
  pose proof (in_range_all _ _ _ Hb) as Hall. split; [|done]. split; [by apply str_len_pos|].
  rewrite <-char_count_ascii; [unfold MAX_LABEL_CHARS, Endpoint.MAX_LABEL_LEN in Hl; lia|].
  apply forallb_forall_elem. intros b Hb'. rewrite Forall_forall in Hall. apply Hall in Hb'. unfold is_ascii. lia.
Qed.

(** One label of a name: letters, digits, hyphens and what else is allowed, with no hyphen at either end. *)
Definition label_text (others : list Ascii.ascii) (label : string) : Prop :=
  1 ≤ str_len label ≤ 63 ∧ starts_with "-" label = false ∧ ends_with "-" label = false ∧
  Forall (fun b => 97 ≤ byte_value b ≤ 122 ∨ 65 ≤ byte_value b ≤ 90 ∨ 48 ≤ byte_value b ≤ 57 ∨ b ∈ others) (bytes label).

(** A host a connection can be made to: an address of one machine, or a name of two labels or more. *)
Definition host_text (h : string) : Prop :=
  str_len h ≤ 253 ∧
  ((∃ ip, parse_ip h = Some ip ∧ is_unspecified ip = false ∧ is_multicast ip = false) ∨
   (2 ≤ length (split "." h))%nat ∧ Forall (label_text ["-"%char]) (split "." h)).

Lemma rule_label_text l : Rule.is_label l = true → label_text ["-"; "_"]%char l.
Proof.
  unfold Rule.is_label. rewrite !andb_true_iff, !negb_true_iff, !Z.leb_le. intros [[[[? ?] ?] ?] Hb].
  split_and!; try done. apply Forall_forall. intros b Hin. rewrite forallb_forall_elem in Hb. specialize (Hb b Hin).
  unfold is_ascii_alphanumeric, is_ascii_digit, in_range in Hb.
  destruct (Ascii.eqb_spec b "-"); [subst; right; right; right; by left|].
  destruct (Ascii.eqb_spec b "_"); [subst; right; right; right; right; by left|]. lia.
Qed.

Lemma name_label_text l : Names.is_label l = true → label_text ["-"%char] l.
Proof.
  unfold Names.is_label, MAX_LABEL_LEN. rewrite !andb_true_iff, !negb_true_iff, !Z.leb_le. intros [[[[? ?] Hb] ?] ?].
  split_and!; try done. apply Forall_forall. intros b Hin. rewrite forallb_forall_elem in Hb. specialize (Hb b Hin).
  unfold is_ascii_alphanumeric, is_ascii_digit, in_range in Hb.
  destruct (Ascii.eqb_spec b "-"); [subst; right; right; right; by left|]. lia.
Qed.

Lemma dns_hostname_labels h :
  is_dns_hostname h = true → (2 ≤ length (split "." h))%nat ∧ Forall (label_text ["-"%char]) (split "." h).
Proof.
  unfold is_dns_hostname. destruct (_ || _); [done|]. cbv zeta. destruct (bool_decide _ || _) eqn:E; [done|]. intros _.
  apply orb_false_iff in E as [Hn%bool_decide_eq_false Hl%negb_false_iff]. split; [lia|].
  apply Forall_forall. intros l Hin. rewrite forallb_forall_elem in Hl. by apply name_label_text, Hl.
Qed.

Lemma check_host_plain raw host : check_host raw = Ok host → host_text host.
Proof.
  intros Hh. pose proof Hh as Hi%check_host_idem. unfold check_host in Hi.
  destruct ((_ <? _) || _) eqn:E in Hi; [done|]. apply orb_false_iff in E as [Hl Ha].
  assert (trim host = host) as Et by (repeat case_match; congruence). rewrite Et in *.
  unfold MAX_HOST_CHARS in Hl. split; [lia|]. apply negb_false_iff in Ha. unfold host_is_acceptable in Ha.
  destruct (parse_ip host) as [ip|] eqn:Ep; [|right; by apply dns_hostname_labels].
  destruct (_ || _) eqn:Eu in Hi; [done|]. apply orb_false_iff in Eu as []. left. by exists ip.
Qed.

Lemma parse_profile_id_plain raw id :
  parse_profile_id raw = Ok id →
  id = raw ∧ 1 ≤ str_len id ≤ 64 ∧
  Forall (fun b => 97 ≤ byte_value b ≤ 122 ∨ 48 ≤ byte_value b ≤ 57 ∨ b = "-"%char) (bytes id).
Proof.
  unfold parse_profile_id. destruct (_ && _) eqn:E; [|done]. intros [= <-].
  rewrite !andb_true_iff, !negb_true_iff in E. destruct E as [[[[He Hl] Hc] _] _].
  split; [done|]. unfold MAX_PROFILE_ID_LEN in Hl. split; [split; [by apply str_len_pos|lia]|].
  apply Forall_forall. intros b Hb. rewrite forallb_forall_elem in Hc. apply Hc in Hb.
  unfold is_ascii_lowercase, is_ascii_digit, in_range in Hb.
  destruct (Ascii.eqb_spec b "-"); [auto|]. lia.
Qed.

Lemma check_report_plain report :
  check_report report = Ok () →
  str_is_empty (trim report) = false ∧ char_count report ≤ MAX_REPORT_CHARS ∧
  ∀ c, c ∈ chars report → is_hostile c = true → code_point c ∈ [10; 13; 9].
Proof.
  unfold check_report. destruct (_ || _ || _) eqn:E; [done|]. intros _.
  apply orb_false_iff in E as [[He Hl]%orb_false_iff Hb]. split_and!; [done|lia|].
  intros c Hc Hh. rewrite existsb_false_elem in Hb. specialize (Hb c Hc). rewrite Hh in Hb.
  apply negb_false_iff, existsb_exists_elem in Hb as (p & Hp & Heq). apply Z.eqb_eq in Heq. by rewrite Heq.
Qed.

Lemma parse_change_id_plain raw id :
  parse_change_id raw = Ok id →
  1 ≤ str_len id ≤ 32 ∧ Forall (fun b => 97 ≤ byte_value b ≤ 122 ∨ 48 ≤ byte_value b ≤ 57) (bytes id).
Proof.
  unfold parse_change_id. destruct (_ && _) eqn:E; [|done]. intros [= <-].
  rewrite !andb_true_iff, negb_true_iff in E. destruct E as [[He Hl] Hc]. unfold CHANGE_ID_MAX in Hl.
  split; [split; [by apply str_len_pos|lia]|]. apply Forall_forall. intros b Hb.
  rewrite forallb_forall_elem in Hc. apply Hc in Hb. unfold is_ascii_lowercase, is_ascii_digit, in_range in Hb. lia.
Qed.

(** What a person's rule may match on. *)
Definition rule_pattern (m : RuleMatcher) : Prop :=
  match m with
  | Domain p | DomainSuffix p =>
      let name := default p (strip_suffix "." p) in
      1 ≤ str_len name ≤ 253 ∧ str_is_ascii name = true ∧
      Forall (label_text ["-"; "_"]%char) (split "." (to_ascii_lowercase name))
  | Cidr c => cidr_ok c
  | Application path =>
      str_is_empty (trim path) = false ∧ char_count path ≤ 260 ∧
      ∀ c, c ∈ chars path → is_control c = false ∧
        ¬ (0x202a ≤ code_point c ≤ 0x202e) ∧ ¬ (0x2066 ≤ code_point c ≤ 0x2069)
  | DnsPort | EncryptedDnsPort => False
  end.

(** A request the service will act on, whatever the bytes it came from: everything in it is within the bounds of
    its kind. *)
Definition within_bounds {C} `{CredentialForm C, UuidText} (r : Request (C := C)) : Prop :=
  let profile p := 1 ≤ str_len p ≤ 64 ∧
    Forall (fun b => 97 ≤ byte_value b ≤ 122 ∨ 48 ≤ byte_value b ≤ 57 ∨ b = "-"%char) (bytes p) in
  let label := plain_text 0x20 0x7E 64 in
  let id u := ∃ text, str_len text = 36 ∧ uuid_parse_str text = Some u in
  match r with
  | Connect _ p e => (∀ q, p = Some q → profile q) ∧ (∀ u, e = Some u → id u)
  | DisableBrutal p => profile p
  | RemoveEndpoint u | SetEndpointEnabled u _ | RemoveRule u => id u
  | AddEndpoint n =>
      label (ne_label n) ∧ host_text (ne_host n) ∧
      creds_is_empty (ne_credentials n) = false ∧ is_ok (to_plaintext_json (ne_credentials n)) = true
  | FinishServer l h report =>
      label l ∧ host_text h ∧ str_is_empty (trim report) = false ∧ char_count report ≤ 32768 ∧
      ∀ c, c ∈ chars report → is_hostile c = true → code_point c ∈ [10; 13; 9]
  | AddRule m a =>
      rule_pattern m ∧ (a = Tunnel ∨ a = Bypass) ∧ ∃ rule, user 0 m a USER_RULES_START = Some (Ok rule)
  | EnableBrutal p up down revision =>
      profile p ∧ 1 ≤ up ≤ 1000000 ∧ 1 ≤ down ≤ 1000000 ∧ revision = 1
  | ImportFeed i =>
      (is_Some (import_keys i) ∨ is_Some (import_feed i)) ∧
      ∀ t, import_keys i = Some t ∨ import_feed i = Some t → str_len t ≤ 262144
  | ApproveChange id | RejectChange id =>
      1 ≤ str_len id ≤ 32 ∧ Forall (fun b => 97 ≤ byte_value b ≤ 122 ∨ 48 ≤ byte_value b ≤ 57) (bytes id)
  | _ => True
  end.

Lemma normalized_bounds p : is_Some (normalize_domain p) → rule_pattern (Domain p).
Proof.
  unfold normalize_domain, rule_pattern. cbv zeta. set (name := default p _). intros [n E].
  destruct (_ || _ || _) eqn:Eb in E; [done|]. apply orb_false_iff in Eb as [[He Hl]%orb_false_iff Ha].
  apply negb_false_iff in Ha. pose proof (str_len_pos _ He). split; [lia|]. split; [done|].
  destruct (forallb Rule.is_label _) eqn:Ef; [|done]. apply Forall_forall. intros l Hin.
  rewrite forallb_forall_elem in Ef. by apply rule_label_text, Ef.
Qed.

(** The checks of the reader and of the rule leave a pattern within its bounds. *)
Lemma personal_pattern kind value m a rule :
  personal_matcher kind value = Ok m → user 0 m a USER_RULES_START = Some (Ok rule) → rule_pattern m.
Proof.
  unfold personal_matcher, user, build. intros Hm Hu.
  assert (∀ p, m = Domain p ∨ m = DomainSuffix p → is_Some (normalize_domain p)) as Hname.
  { intros p Hp. assert (is_ok (check_domain_pattern p) = true) as Hok.
    { destruct Hp as [-> | ->]; destruct (pattern_empty _) in Hu; try done; simpl in Hu; by destruct (check_domain_pattern p). }
    unfold check_domain_pattern in Hok. by destruct (normalize_domain p). }
  destruct (String.eqb kind "domain"); [injection Hm as <-; by apply normalized_bounds, Hname; left|].
  destruct (String.eqb kind "domain_suffix"); [injection Hm as <-; apply (normalized_bounds value), Hname; by right|].
  destruct (String.eqb kind "ip_cidr").
  { destruct (cidr_parse value) as [c|] eqn:E; [|done]. injection Hm as <-. by eapply cidr_parse_ok. }
  destruct (String.eqb kind "application"); [|done]. destruct (_ || _ || _) eqn:E in Hm; [done|]. injection Hm as <-.
  apply orb_false_iff in E as [[He Hl]%orb_false_iff Hp]. unfold MAX_PROGRAM_PATH in Hl. split; [done|]. split; [lia|].
  intros c Hc. apply negb_false_iff in Hp. rewrite forallb_forall_elem in Hp. specialize (Hp c Hc).
  apply andb_true_iff in Hp as [Hcontrol Hpoints]. apply negb_true_iff in Hcontrol, Hpoints.
  apply orb_false_iff in Hpoints as [H1 H2]. unfold within_points in H1, H2. split; [done|]. lia.
Qed.

Lemma rule_ok_personal m a :
  rule_ok m a → rule_pattern m ∧ (a = Tunnel ∨ a = Bypass) ∧ ∃ rule, user 0 m a USER_RULES_START = Some (Ok rule).
Proof.
  unfold rule_ok, personal_rule. destruct (mbind _ (personal_matcher _ _)) as [[m' a']|] eqn:E; [|done].
  unbind E. injection E as -> ->. intros Hm.
  destruct (user 0 m' a' USER_RULES_START) as [[rule|]|] eqn:Er; simpl in Hm; simplify_eq.
  split_and!; [by eapply personal_pattern| |by exists rule].
  unfold personal_action in Hu0. destruct (String.eqb _ "tunnel"); [by left; congruence|].
  destruct (String.eqb _ "bypass"); [by right; congruence|done].
Qed.

Lemma request_ok_within_bounds {C} `{CredentialForm C, UuidText} (r : Request (C := C)) : request_ok r → within_bounds r.
Proof.
  destruct r; try done; simpl.
  - intros [Hp He]. split; [|done]. intros q ->. by destruct (parse_profile_id_plain q q (Hp q eq_refl)) as [_ ?].
  - intros (Hl & Hh & Hc & Ht). split_and!; [by eapply check_label_plain|by eapply check_host_plain|done|done].
  - apply rule_ok_personal.
  - intros (Hp & Hu & Hd & Hr). unfold MAX_BRUTAL_MBPS in *. by destruct (parse_profile_id_plain _ _ Hp) as [_ ?].
  - intros Hp. by destruct (parse_profile_id_plain _ _ Hp) as [_ ?].
  - destruct import as [k f]. unfold feed_import_new. simpl. intros E.
    destruct (bool_decide (k = None) && bool_decide (f = None)) eqn:Eb; [done|].
    split.
    { destruct k; [by left; eexists|]. destruct f; [by right; eexists|done]. }
    intros t Ht.
    destruct (match k with Some t => ENVELOPE_MAX_BYTES <? str_len t | None => false end) eqn:Ek; [done|].
    destruct (match f with Some t => ENVELOPE_MAX_BYTES <? str_len t | None => false end) eqn:Ef; [done|].
    destruct Ht as [-> | ->]; unfold ENVELOPE_MAX_BYTES in *; lia.
  - intros (Hl & Hh & Hr). destruct (check_report_plain _ Hr) as (He & Hn & Hc).
    split_and!; [by eapply check_label_plain|by eapply check_host_plain|done..].
  - by intros ?%parse_change_id_plain.
  - by intros ?%parse_change_id_plain.
Qed.

(** A request that was read is one the checks leave as it is. *)
Lemma decode_request_ok {C} `{CredentialForm C, UuidText, DebugText, JsonText} wire (r : Request (C := C)) :
  decode_request wire = Some (Ok r) →
  request_ok r ∧ ∀ n, r = AddEndpoint n → ∃ text, from_plaintext_json text = Ok (ne_credentials n).
Proof.
  unfold decode_request. destruct (from_str wire) as [v|]; [|done].
  destruct (get v "request" ≫= as_str) as [name|]; [|done]. intros E. split; [by eapply decode_named_ok|].
  intros n ->. by eapply decoded_credentials.
Qed.


(** A state snapshot says one thing.  Only a snapshot that is connected through its profile's tier, or failed
    with a cause and nothing active, or idle with neither, and fail-closed unless connected, is sent; only such a
    snapshot is taken from the text of another; and what is sent reads back as it was. *)
Theorem snapshots_say_one_thing `{DebugText, JsonText} s :
  (is_ok (encode_state_snapshot s) = true ↔ coherent s) ∧
  (∀ text, decode_state_snapshot text = Ok s → coherent s) ∧
  (∀ text, encode_state_snapshot s = Ok text → from_str text = Ok (snapshot_value s) →
     decode_state_snapshot text = Ok s).
Proof.
  pose proof (check_consistency_coherent s) as Hc. split_and!.
  - rewrite <-Hc. unfold encode_state_snapshot. by destruct (check_consistency s).
  - intros text. unfold decode_state_snapshot. destruct (from_str text) as [v|]; [|done]. intros E. unbind E.
    destruct (check_consistency u) eqn:Eu; [|done]. injection E as ->. apply Hc. by rewrite Eu.
  - intros text E Hread. unfold encode_state_snapshot in E. destruct (check_consistency s) eqn:Es; [|done].
    unfold decode_state_snapshot. rewrite Hread, snapshot_value_reads_back. simpl. by rewrite Es.
Qed.

(** * Witnesses *)

Import ToyText.

Module Demo.
Definition rule_text : Value := object [("request", Str "AddRule"); ("kind", Str "ip_cidr");
  ("value", Str "198.51.100.0/24"); ("action", Str "bypass")].

(** One text for each of two values: enough to read and write the request of the witnesses. *)
#[export] Instance text : JsonText := {|
  from_str s := if String.eqb s "{}" then Ok (Object ∅) else Ok rule_text;
  json_to_string v := match v with Object m => if decide (m = ∅) then "{}" else "rule" | _ => "null" end;
|}.
#[export] Instance form : CredentialForm unit := {|
  creds_is_empty _ := false;
  from_plaintext_json _ := Ok tt;
  to_plaintext_json _ := Ok "{}";
|}.

Definition block : IpCidr := mkIpCidr (V4 3325256704) 24.

End Demo.
Import Demo.


Example refusals :
  check_label (of_bytes [9; 32]) = Err (invalid "`label` must be 1 to 64 printable ASCII characters") ∧
  is_ok (check_host "203.0.113.7") = true ∧ is_ok (check_host "0.0.0.0") = false ∧ is_ok (check_host "239.1.1.1") = false ∧
  is_ok (check_host "vpn.example.org") = true ∧ is_ok (check_host "https://vpn.example.org") = false ∧
  is_ok (parse_profile_id "hy2-gecko") = true ∧ is_ok (parse_profile_id "-hy2") = false ∧
  is_ok (parse_change_id "ab12") = true ∧ is_ok (parse_change_id "AB12") = false ∧
  is_ok (validate_because "PathChanged" " pathchanged ") = false.
Proof. vm_compute. repeat split. Qed.

(** A connected snapshot, sent; the client that has no such text refuses to make one up. *)
Lemma snapshots_say_one_thing_witness :
  let s := mkSnapshot Connected (Some (mkActiveProfile "hy2" "Hysteria2" Tier1)) (Some (mkActiveEndpoint "1" "home"))
    None [BrutalEnabled] (Tunnelled Tier1) in
  is_ok (encode_state_snapshot s) = true ∧ coherent s ∧ is_ok (decode_state_snapshot "rule") = false.
Proof.
  intros s. destruct (snapshots_say_one_thing s) as (H1 & _).
  assert (is_ok (encode_state_snapshot s) = true) as Hs by (vm_compute; reflexivity).
  split_and!; [exact Hs|by apply H1|vm_compute; reflexivity].
Defined.
