(* ===== verification/EventBus.v ===== *)
(** The event stream: the wire form of every event, the bus that numbers them, remembers the session's and fans
    them out, and the subscriptions it gives (crates/dnet-ipc/src/wire.rs and the streams of server.rs). *)

From Stdlib Require Import Ascii.
From S2P Require Import Prelude Text Profile Quality Degraded Session Json Protocol.

(** * Definitions

    ** Events on the wire *)

(* src: crates/dnet-ipc/src/wire.rs:27-29 SESSION_BACKLOG *)
Definition SESSION_BACKLOG : nat := 256.
(* src: crates/dnet-ipc/src/wire.rs:31-33 MAX_SUBSCRIBERS *)
Definition MAX_SUBSCRIBERS : Z := 16.

(* src: crates/dnet-ipc/src/wire.rs:43-65 degraded_because *)
Definition degraded_because (band : QualityBand) (staying : NoMove) : result IpcError string :=
  how ←
    match band with
    | Poor => Ok "the network carrying your connection is slow or dropping packets"
    | Unusable => Ok "the network carrying your connection is dropping most packets"
    | Good => Err (invalid "a degradation cannot be of a good network")
    end;
  let why :=
    match staying with
    | OnlyPath => "it is the only network available, so there is nothing to switch to"
    | NoBetterPath => "the other networks are no better, so the connection stays where it is"
    | Proving => "a better network exists but has not yet proven stable, so the connection has not moved"
    | Dwell => "the connection was moved a moment ago and waits before moving again"
    | Budget => "the limit on moves in ten minutes has been reached, so the connection stays where it is"
    end in
  Ok (how +:+ ", and " +:+ why).

(* src: crates/dnet-ipc/src/wire.rs:67-73 band_str *)
Definition band_str (band : QualityBand) : string :=
  match band with Good => "Good" | Poor => "Poor" | Unusable => "Unusable" end.

(* src: crates/dnet-ipc/src/wire.rs:75-84 staying_name *)
Definition staying_name (staying : NoMove) : string :=
  match staying with
  | OnlyPath => "OnlyPath"
  | NoBetterPath => "NoBetterPath"
  | Proving => "Proving"
  | Dwell => "Dwell"
  | Budget => "Budget"
  end.

(* src: crates/dnet-ipc/src/wire.rs:86-97 path_change_because *)
Definition path_change_because (tier : FailoverTier) : string :=
  match tier with
  | Tier1 => "the network connection carrying your traffic changed; this profile is Tier 1, so established connections should survive the move"
  | Tier2 => "the network connection carrying your traffic changed; this profile is Tier 2, so established connections will not survive the move"
  end.

(* src: crates/dnet-ipc/src/wire.rs:99-102 interface_str *)
Definition interface_str (id : InterfaceId) : string := pretty id.

(* src: crates/dnet-ipc/src/wire.rs:192-214 definitions_fields *)
Definition definitions_fields (change : DefinitionsChange) : list (string * Value) :=
  match change with
  | Updated sequence endpoint_updates => [
      ("change", Str "Updated"); ("sequence", Str (pretty sequence)); ("endpoint_updates", Num (Int endpoint_updates))]
  | Evicted => [("change", Str "Evicted")]
  | OutOfDate => [("change", Str "OutOfDate")]
  | Discarded => [("change", Str "Discarded")]
  | CheckFailed reason => [
      ("change", Str "CheckFailed");
      ("reason", Str match reason with CheckUnreachable => "Unreachable" | CheckRefused => "Refused" end)]
  end.

(** The runs of spaces are the source's. *)
(* src: crates/dnet-ipc/src/wire.rs:216-243 definitions_because *)
Definition definitions_because (change : DefinitionsChange) : string :=
  match change with
  | Updated sequence 0 => "connection method definitions updated (sequence " +:+ pretty sequence +:+ ")"
  | Updated sequence endpoint_updates =>
      "connection method definitions updated (sequence " +:+ pretty sequence +:+ "); " +:+ pretty endpoint_updates +:+
      " of              them also propose a change to your server, which waits for your approval"
  | Evicted => "a newer set of signing keys no longer includes the key              that signed the last update, so the built-in definitions are back in use"
  | OutOfDate => "the connection method definitions have not been              refreshed lately and may be out of date; the last ones are still in use"
  | Discarded => "the saved update could not be checked again and was              set aside, so the built-in definitions are in use"
  | CheckFailed CheckUnreachable => "the place connection method updates are published could not be reached, so the              definitions in use are unchanged"
  | CheckFailed CheckRefused => "an update was found but did not pass verification, so it was not used and the              definitions in use are unchanged"
  end.

Section Events.
Context `{UuidDisplay, JsonText}.

(** The name, the fields of its own and the [because] of an event. *)
(* src: crates/dnet-ipc/src/wire.rs:109-181 event_value *)
Definition event_parts (event : ConnectionEvent) : result IpcError (string * list (string * Value) * string) :=
  match event with
  | ProbeStarted => Ok ("ProbeStarted", [],
      "a connection was requested, so each configured profile is being tested for usable throughput")
  | ProfileSelected profile because => Ok ("ProfileSelected", [("profile", Str profile)], because)
  | ProfileBlocked profile reason => Ok ("ProfileBlocked", [("profile", Str profile)], reason)
  | EndpointMigrated from to because => Ok ("EndpointMigrated",
      [("from", Str (uuid_to_string from)); ("to", Str (uuid_to_string to))], because)
  | PathChanged from to tier_at_time => Ok ("PathChanged",
      [("from", option_value ((fun i => Str (interface_str i)) <$> from)); ("to", Str (interface_str to));
       ("tier_at_time", Str (tier_str tier_at_time))], path_change_because tier_at_time)
  | DegradedEvent path band staying =>
      because ← degraded_because band staying;
      Ok ("Degraded", [("path", Str (interface_str path)); ("quality", Str (band_str band));
        ("staying", Str (staying_name staying))], because)
  | RecoveredEvent path => Ok ("Recovered", [("path", Str (interface_str path))],
      "the network carrying your connection is working normally again")
  | CoreRestarted core attempt => Ok ("CoreRestarted",
      [("core", Str (core_binding_str core)); ("attempt", Num (Int attempt))],
      core_description core +:+ " stopped unexpectedly and was restarted (attempt " +:+ pretty attempt +:+ ")")
  | DefinitionsChanged change => Ok ("DefinitionsChanged", definitions_fields change, definitions_because change)
  | FailedEvent cause => Ok ("Failed", [("failure", failure_value_with_words cause)], ex_detail (explain cause))
  end.

(* src: crates/dnet-ipc/src/wire.rs:104-190 event_value *)
Definition event_value (event : ConnectionEvent) : result IpcError Value :=
  '(name, fields, because) ← event_parts event;
  _ ← validate_because name because;
  Ok (insert_field (insert_field (object fields) "event" (Str name)) "because" (Str because)).

(* src: crates/dnet-ipc/src/wire.rs:245-248 encode_event *)
Definition encode_event (event : ConnectionEvent) : result IpcError string :=
  v ← event_value event; Ok (json_to_string v).

(* src: crates/dnet-ipc/src/wire.rs:250-262 events_lost *)
Definition events_lost (missed : Z) : string :=
  json_to_string (object [
    ("event", Str "EventsLost"); ("missed", Num (Int missed));
    ("because", Str ("this client read events too slowly, so " +:+ pretty missed +:+
      " were dropped; request the session for the full history"))]).

(* src: crates/dnet-ipc/src/wire.rs:264-273 EventView *)
Record EventView : Type := mkEventView { ev_event : string; ev_because : string; ev_value : Value }.

(* src: crates/dnet-ipc/src/wire.rs:275-295 decode_event_view *)
Definition decode_event_view (wire : string) : result IpcError EventView :=
  match from_str wire with
  | Err e => Err (invalid e)
  | Ok value =>
      event ← ok_or (filter_opt (fun s => negb (str_is_empty s)) (get value "event" ≫= as_str))
        (invalid "an event needs a name");
      because ← ok_or (get value "because" ≫= as_str) (invalid "an event needs a `because`");
      _ ← validate_because event because;
      Ok {| ev_event := event; ev_because := because; ev_value := value |}
  end.
End Events.

(** ** The bus

    The channel the bus sends on is [tokio::sync::broadcast]'s: what a receiver is given, in order, are the
    messages sent since it was made (or the number of those the channel could not hold for it, below). *)

Class Broadcast : Type := {
  Sender : Type;
  Receiver : Type;
  channel : nat → Sender;
  send : Sender → string → Sender;
  receiver : Sender → Receiver;
  sent_since : Sender → Receiver → list string;
}.

Class BroadcastLaws `{Broadcast} : Prop :=
  sent_after_subscription s frames : sent_since (fold_left send frames s) (receiver s) = frames.

Section Bus.
Context `{UuidDisplay, JsonText, Broadcast}.

(** The bus and, under its lock, its state. *)
(* src: crates/dnet-ipc/src/wire.rs:299-308 BusState *)
Record Bus : Type := mkBus {
  next_seq : Z;
  backlog : list string;
  live : Sender;
  subscribers : Z;
}.

(* src: crates/dnet-ipc/src/wire.rs:319-328 Subscription *)
Record Subscription : Type := mkSubscription { sub_backlog : list string; sub_live : Receiver }.

(* src: crates/dnet-ipc/src/wire.rs:351-363 EventBus::new *)
Definition bus_new : Bus := {| next_seq := 1; backlog := []; live := channel SESSION_BACKLOG; subscribers := 0 |}.

(* src: crates/dnet-ipc/src/wire.rs:373-377 EventBus::begin_session *)
Definition begin_session (b : Bus) : Bus :=
  {| next_seq := next_seq b; backlog := []; live := live b; subscribers := subscribers b |}.

Definition numbered (seq : Z) (v : Value) : string := json_to_string (insert_field v "seq" (Num (Int seq))).

(* src: crates/dnet-ipc/src/wire.rs:379-400 EventBus::publish *)
Definition publish (event : ConnectionEvent) (b : Bus) : Bus * result IpcError unit :=
  match event_value event with
  | Err e => (b, Err e)
  | Ok value =>
      let frame := numbered (next_seq b) value in
      let kept := if bool_decide (length (backlog b) = SESSION_BACKLOG) then drop 1 (backlog b) else backlog b in
      ({| next_seq := (next_seq b + 1) mod 2 ^ 64;
          backlog := kept ++ [frame];
          live := send (live b) frame;
          subscribers := subscribers b |}, Ok ())
  end.

(** [subscribe] takes a slot with one atomic instruction, and gives it back in another if it was one too many;
    what other threads do falls between. *)
(* src: crates/dnet-ipc/src/wire.rs:404 EventBus::subscribe *)
Definition fetch_add (b : Bus) : Z * Bus :=
  (subscribers b, {| next_seq := next_seq b; backlog := backlog b; live := live b; subscribers := subscribers b + 1 |}).

(* src: crates/dnet-ipc/src/wire.rs:313-317 Slot::drop *)
Definition drop_slot (b : Bus) : Bus :=
  {| next_seq := next_seq b; backlog := backlog b; live := live b; subscribers := subscribers b - 1 |}.

(* src: crates/dnet-ipc/src/wire.rs:406-418 EventBus::subscribe *)
Definition settle (held : Z) (b : Bus) : Bus * result IpcError Subscription :=
  if MAX_SUBSCRIBERS <=? held then (drop_slot b, Err ServiceBusy)
  else (b, Ok {| sub_backlog := backlog b; sub_live := receiver (live b) |}).

(** With no other thread in between. *)
(* src: crates/dnet-ipc/src/wire.rs:402-419 EventBus::subscribe *)
Definition subscribe (b : Bus) : Bus * result IpcError Subscription :=
  let '(held, b) := fetch_add b in settle held b.

(** What the daemon and its clients do to a bus, one atomic step after another. *)
Inductive BusOp : Type :=
  | BeginSession
  | Publish (event : ConnectionEvent)
  | Reserve
  | Settle (held : Z)
  | Release.

Definition bus_op (b : Bus) (o : BusOp) : Bus :=
  match o with
  | BeginSession => begin_session b
  | Publish event => (publish event b).1
  | Reserve => (fetch_add b).2
  | Settle held => (settle held b).1
  | Release => drop_slot b
  end.

Definition run (ops : list BusOp) (b : Bus) : Bus := fold_left bus_op ops b.

(** ** A subscriber's connection *)

(** What wakes the stream's loop: the client, or the channel. *)
Inductive StreamInput : Type :=
  | ClientSpoke
  | ClientGone
  | Event (frame : string)
  | Lagged (missed : Z)
  | ChannelClosed.

Definition one_way : string :=
  encode_ipc_error (InvalidRequest "an event subscription is one-way; open another connection to send requests").

(* src: crates/dnet-ipc/src/server.rs:277-297 stream_events_with *)
Fixpoint stream_loop (written : list string) (inputs : list StreamInput) : list string :=
  match inputs with
  | [] => written
  | ClientSpoke :: _ => written ++ [one_way]
  | ClientGone :: _ | ChannelClosed :: _ => written
  | Event frame :: inputs => stream_loop (written ++ [frame]) inputs
  | Lagged missed :: inputs => stream_loop (written ++ [events_lost missed]) inputs
  end.

(** The payloads written to a client that reads them; an error of a write ends the stream. *)
(* src: crates/dnet-ipc/src/server.rs:255-297 stream_events_with *)
Definition stream_events (leftover : list Ascii.ascii) (s : Subscription) (inputs : list StreamInput) : list string :=
  let ack := json_to_string (object [("subscribed", Bool true); ("backlog", Num (Int (Z.of_nat (length (sub_backlog s)))))]) in
  if bool_decide (leftover ≠ []) then [ack; one_way]
  else stream_loop (ack :: sub_backlog s) inputs.

End Bus.
Arguments mkSubscription {_} sub_backlog sub_live.

(** * Lemmas *)

(** ** What a text begins with *)

Lemma chars_head b s : ∃ r cs, chars (String b s) = String b r :: cs.
Proof. simpl. destruct (chars s) as [|[|b' c'] cs]; [by eexists _, _..|]. case_match; by eexists _, _. Qed.

Lemma leading_letter b r : in_range 65 122 b = true → is_whitespace (String b r) = false.
Proof.
  intros Hb. unfold is_whitespace. apply existsb_false_elem. intros w Hw.
  apply String.eqb_neq. intros <-. revert Hw. unfold WHITE_SPACE. intros Hw.
  assert (Forall (fun w => match w with String c _ => in_range 65 122 c = false | EmptyString => True end) WHITE_SPACE)
    as Hall by (vm_compute; repeat constructor).
  rewrite Forall_forall in Hall. specialize (Hall _ Hw). simpl in Hall. congruence.
Qed.

(** A text that starts with a letter is not blank, and still starts with it when trimmed. *)
Lemma trim_head b s : in_range 65 122 b = true → ∃ t, trim (String b s) = String b t.
Proof.
  intros Hb. destruct (chars_head b s) as (r & cs & E). pose proof (leading_letter b r Hb) as Hw.
  unfold trim. rewrite E. simpl skip_while. rewrite Hw. simpl rev. rewrite skip_while_keeps by done.
  rewrite rev_app_distr. simpl. by eexists.
Qed.

(** Such a text explains an event of another first letter. *)
Lemma validate_because_head name n b s :
  in_range 65 122 b = true → trim name = n →
  match n with String c _ => Ascii.eqb (lower_byte b) (lower_byte c) = false | EmptyString => True end →
  validate_because name (String b s) = Ok ().
Proof.
  intros Hb <- Hn. unfold validate_because. destruct (trim_head b s Hb) as [t ->]. simpl str_is_empty.
  unfold eq_ignore_ascii_case. destruct (trim name) as [|c n]; [done|].
  unfold to_ascii_lowercase. simpl. unfold of_ascii. simpl. by rewrite Hn.
Qed.

Section EventLemmas.
Context `{UuidDisplay, JsonText}.

(** The events whose text is the producer's own must have one; a degradation must be of a degraded path. *)
Definition publishable (e : ConnectionEvent) : bool :=
  let tells name because := is_ok (validate_because name because) in
  match e with
  | ProfileSelected _ because => tells "ProfileSelected" because
  | ProfileBlocked _ reason => tells "ProfileBlocked" reason
  | EndpointMigrated _ _ because => tells "EndpointMigrated" because
  | DegradedEvent _ Good _ => false
  | FailedEvent (ConfigurationInvalid detail) => tells "Failed" detail
  | _ => true
  end.

Lemma event_value_publishable e : is_ok (event_value e) = publishable e.
Proof.
  assert (∀ name fields because, is_ok (_ ← validate_because name because;
    Ok (insert_field (insert_field (object fields) "event" (Str name)) "because" (Str because))) =
    is_ok (validate_because name because)) as Hv by (intros; by destruct (validate_because _ _)).
  unfold event_value. destruct e as [|p b|p b|f t b|f t [] |p [] []|p|c a|ch|[]]; simpl event_parts; try done;
    cbn [mbind result_bind]; try (rewrite Hv; done); try (rewrite Hv; vm_compute; reflexivity).
  - rewrite Hv.
    destruct c; exact (f_equal is_ok (validate_because_head "CoreRestarted" _ "t"%char _ eq_refl eq_refl eq_refl)).
  - rewrite Hv. destruct ch as [sq n| | | |[]]; try (vm_compute; reflexivity).
    unfold definitions_because.
    destruct n; exact (f_equal is_ok (validate_because_head "DefinitionsChanged" _ "c"%char _ eq_refl eq_refl eq_refl)).
  - rewrite Hv. destruct core; vm_compute; reflexivity.
Qed.

Lemma event_value_fields e v :
  event_value e = Ok v → ∃ name because,
    (∃ fields, event_parts e = Ok (name, fields, because)) ∧ validate_because name because = Ok () ∧
    get v "event" = Some (Str name) ∧ get v "because" = Some (Str because) ∧ is_Some (as_object v).
Proof.
  unfold event_value. intros E. apply bind_Ok in E as ([[name fields] because] & Hp & E). unbind E.
  injection E as <-. destruct u. exists name, because. split_and!; [by eexists|done| | |].
  - unfold object, insert_field. by rewrite !get_insert.
  - unfold object, insert_field. by rewrite !get_insert.
  - simpl. by eexists.
Qed.

End EventLemmas.

#[local] Arguments Nat.min : simpl never.

(** ** The numbered stream *)

Section BusLemmas.
Context `{UuidDisplay, JsonText, Broadcast, !BroadcastLaws}.

(** The events a bus took, in the order it took them. *)
Fixpoint accepted (ops : list BusOp) : list Value :=
  match ops with
  | [] => []
  | Publish e :: ops => match event_value e with Ok v => v :: accepted ops | Err _ => accepted ops end
  | _ :: ops => accepted ops
  end.

(** How many of them the session in course has, given how many it had. *)
Fixpoint session_events (n : nat) (ops : list BusOp) : nat :=
  match ops with
  | [] => n
  | BeginSession :: ops => session_events 0 ops
  | Publish e :: ops => session_events (if is_ok (event_value e) then S n else n) ops
  | _ :: ops => session_events n ops
  end.

(** Their frames, numbered one after another; the counter has 64 bits. *)
Fixpoint number_from (seq : Z) (vs : list Value) : list string :=
  match vs with [] => [] | v :: vs => numbered seq v :: number_from ((seq + 1) mod 2 ^ 64) vs end.

Definition last_n {A} (n : nat) (l : list A) : list A := drop (length l - n) l.

Lemma accepted_app a b : accepted (a ++ b) = accepted a ++ accepted b.
Proof. induction a as [|[] a IH]; simpl; [done|done| |done..]. destruct (event_value event); simpl; by rewrite IH. Qed.

Lemma session_events_app n a b : session_events n (a ++ b) = session_events (session_events n a) b.
Proof. revert n. induction a as [|[] a IH]; intros n; simpl; auto. Qed.

Lemma session_events_le n a : (session_events n a ≤ n + length (accepted a))%nat.
Proof.
  revert n. induction a as [|[] a IH]; intros n; simpl; [lia| | |try apply IH..].
  - specialize (IH 0%nat). lia.
  - destruct (event_value event); simpl; [specialize (IH (S n))|specialize (IH n)]; lia.
Qed.

Lemma length_number_from seq vs : length (number_from seq vs) = length vs.
Proof. revert seq. induction vs as [|v vs IH]; intros seq; simpl; [done|by rewrite IH]. Qed.

Lemma number_from_app seq a b :
  0 ≤ seq < 2 ^ 64 →
  number_from seq (a ++ b) = number_from seq a ++ number_from ((seq + Z.of_nat (length a)) mod 2 ^ 64) b.
Proof.
  revert seq. induction a as [|v a IH]; intros seq Hseq; simpl.
  - by rewrite Z.add_0_r, Z.mod_small.
  - f_equal. rewrite IH by (apply Z.mod_pos_bound; lia). do 2 f_equal.
    rewrite Zplus_mod_idemp_l. f_equal. lia.
Qed.

(** What a run leaves of the counter and sends on the channel. *)
Lemma run_counts ops b :
  0 ≤ next_seq b < 2 ^ 64 →
  next_seq (run ops b) = (next_seq b + Z.of_nat (length (accepted ops))) mod 2 ^ 64 ∧
  live (run ops b) = fold_left send (number_from (next_seq b) (accepted ops)) (live b).
Proof.
  revert b. induction ops as [|o ops IH]; intros b Hb; simpl.
  { by rewrite Z.add_0_r, Z.mod_small. }
  destruct o as [|e| |held|]; simpl.
  - exact (IH (begin_session b) Hb).
  - unfold publish. destruct (event_value e) as [v|]; simpl; [|by apply IH].
    match goal with |- next_seq (run ops ?b') = _ ∧ _ => destruct (IH b') as [IH1 IH2] end.
    { simpl. apply Z.mod_pos_bound. lia. }
    split; [|exact IH2]. rewrite IH1. simpl next_seq. rewrite Zplus_mod_idemp_l. f_equal. lia.
  - exact (IH (fetch_add b).2 Hb).
  - unfold settle. destruct (_ <=? held); [exact (IH (drop_slot b) Hb)|exact (IH b Hb)].
  - exact (IH (drop_slot b) Hb).
Qed.

Lemma last_n_snoc_within {A} k (l : list A) x : (k ≤ length l)%nat → last_n (S k) (l ++ [x]) = last_n k l ++ [x].
Proof.
  intros Hk. unfold last_n. rewrite length_app. simpl.
  replace (length l + 1 - S k)%nat with (length l - k)%nat by lia. rewrite drop_app_le by lia. done.
Qed.

(** The backlog is the end of the stream, as far back as the session goes and the bound allows. *)
Lemma backlog_is_stream_end ops :
  backlog (run ops bus_new) =
    last_n (Nat.min SESSION_BACKLOG (session_events 0 ops)) (number_from 1 (accepted ops)).
Proof.
  induction ops as [|o ops IH] using rev_ind; [done|].
  unfold run. rewrite fold_left_app. fold (run ops bus_new). rewrite accepted_app, session_events_app.
  pose proof (session_events_le 0 ops) as Hle. pose proof (length_number_from 1 (accepted ops)) as Hlen.
  destruct (run_counts ops bus_new ltac:(simpl; lia)) as [Hseq _]. simpl next_seq in Hseq.
  destruct o as [|e| |held|]; simpl.
  - rewrite app_nil_r. unfold last_n. by rewrite Nat.sub_0_r, drop_ge.
  - unfold publish. destruct (event_value e) as [v|]; simpl; [|by rewrite app_nil_r].
    rewrite number_from_app by lia. simpl number_from. rewrite <-Hseq.
    set (f := numbered _ v). set (h := number_from 1 (accepted ops)) in *. set (n := session_events 0 ops) in *.
    assert (length (backlog (run ops bus_new)) = Nat.min SESSION_BACKLOG n) as Hb.
    { rewrite IH. unfold last_n. rewrite length_drop. lia. }
    case_bool_decide as Hfull; rewrite Hb in Hfull; rewrite IH.
    + replace (Nat.min SESSION_BACKLOG (S n)) with SESSION_BACKLOG by lia. rewrite Hfull.
      unfold last_n. rewrite drop_drop, length_app. simpl length.
      assert (SESSION_BACKLOG = 256%nat) as HS by done. rewrite drop_app_le by lia. do 2 f_equal. lia.
    + replace (Nat.min SESSION_BACKLOG (S n)) with (S (Nat.min SESSION_BACKLOG n)) by lia.
      rewrite last_n_snoc_within; [done|lia].
  - by rewrite app_nil_r.
  - rewrite app_nil_r. unfold settle. by destruct (_ <=? held).
  - by rewrite app_nil_r.
Qed.

Lemma last_n_app {A} k (l l' : list A) :
  (k ≤ length l)%nat → last_n (k + length l') (l ++ l') = last_n k l ++ l'.
Proof. intros Hk. unfold last_n. rewrite length_app. rewrite drop_app_le by lia. do 2 f_equal. lia. Qed.

End BusLemmas.

(** ** Slots *)

(** The bus, the counts its subscribers have taken and not yet acted on, and how many subscriptions are held. *)
Inductive slot_step `{UuidDisplay, JsonText, Broadcast} : Bus * list Z * nat → Bus * list Z * nat → Prop :=
  | slot_reserve b flight n : slot_step (b, flight, n) ((fetch_add b).2, (fetch_add b).1 :: flight, n)
  | slot_granted b before held after n s :
      (settle held b).2 = Ok s → slot_step (b, before ++ held :: after, n) ((settle held b).1, before ++ after, S n)
  | slot_refused b before held after n e :
      (settle held b).2 = Err e → slot_step (b, before ++ held :: after, n) ((settle held b).1, before ++ after, n)
  | slot_ended b flight n : slot_step (b, flight, S n) (drop_slot b, flight, n)
  | slot_session b flight n : slot_step (b, flight, n) (begin_session b, flight, n)
  | slot_published b flight n e : slot_step (b, flight, n) ((publish e b).1, flight, n).

Definition winners (flight : list Z) : nat := length (List.filter (fun held => held <? MAX_SUBSCRIBERS) flight).

Definition slots_ok `{UuidDisplay, JsonText, Broadcast} (c : Bus * list Z * nat) : Prop :=
  let '(b, flight, n) := c in
  subscribers b = Z.of_nat (length flight + n) ∧ Z.of_nat (winners flight + n) ≤ MAX_SUBSCRIBERS.

Lemma slots_ok_step `{UuidDisplay, JsonText, Broadcast} c c' : slots_ok c → slot_step c c' → slots_ok c'.
Proof.
  assert (∀ a h l, winners (a ++ h :: l) = (winners (a ++ l) + if (h <? MAX_SUBSCRIBERS)%Z then 1 else 0)%nat) as Hw.
  { intros a h l. unfold winners. rewrite !List.filter_app. simpl. destruct (h <? MAX_SUBSCRIBERS);
      rewrite !length_app; simpl; lia. }
  assert (∀ l, (winners l ≤ length l)%nat) as Hl by (intros; apply List.filter_length_le).
  intros Hok Hstep. destruct Hstep as [b fl n|b be held af n s Hs|b be held af n e He|b fl n|b fl n|b fl n e];
    destruct Hok as [Hs1 Hs2]; unfold slots_ok in *.
  - simpl. split; [lia|]. specialize (Hw [] (subscribers b) fl). simpl app in Hw. rewrite Hw. specialize (Hl fl).
    destruct (Z.ltb_spec (subscribers b) MAX_SUBSCRIBERS); lia.
  - unfold settle in *. rewrite Hw in Hs2. rewrite length_app in Hs1. simpl in Hs1. rewrite length_app.
    destruct (Z.leb_spec MAX_SUBSCRIBERS held); [done|]. simpl. destruct (Z.ltb_spec held MAX_SUBSCRIBERS); [|lia]. lia.
  - unfold settle in *. rewrite Hw in Hs2. rewrite length_app in Hs1. simpl in Hs1. rewrite length_app.
    destruct (Z.leb_spec MAX_SUBSCRIBERS held); [|done]. simpl. destruct (Z.ltb_spec held MAX_SUBSCRIBERS); [lia|]. lia.
  - simpl. lia.
  - done.
  - unfold publish. destruct (event_value e); done.
Qed.

(** * Properties *)

(** A subscriber sees every event exactly once and in order.  Whenever it subscribes, what it is first given and
    what it is sent afterwards are, together, one unbroken end of the stream the daemon numbered from 1: it begins
    at the session's first event, or as far back as the backlog reaches, and ends at the last event published. *)
Theorem subscribers_see_each_event_once `{UuidDisplay, JsonText, Broadcast, !BroadcastLaws} before after s :
  (subscribe (run before bus_new)).2 = Ok s →
  sub_backlog s ++ sent_since (live (run after (subscribe (run before bus_new)).1)) (sub_live s) =
    last_n (Nat.min SESSION_BACKLOG (session_events 0 before) + length (accepted after))
      (number_from 1 (accepted (before ++ after))).
Proof.
  destruct (run_counts before bus_new ltac:(simpl; lia)) as [Hseq _]. simpl next_seq in Hseq.
  pose proof (backlog_is_stream_end before) as Hb. set (b := run before bus_new) in *.
  unfold subscribe, settle, fetch_add. destruct (_ <=? _); [done|]. simpl. intros [= <-]. simpl.
  match goal with |- context [run after ?b'] => destruct (run_counts after b') as [_ ->] end.
  { simpl. rewrite Hseq. apply Z.mod_pos_bound. lia. }
  simpl live. simpl next_seq. rewrite sent_after_subscription, Hb, Hseq, accepted_app, number_from_app by lia.
  set (fresh := number_from ((1 + _) mod _) (accepted after)).
  replace (length (accepted after)) with (length fresh) by apply length_number_from.
  rewrite last_n_app; [done|]. rewrite length_number_from. pose proof (session_events_le 0 before). lia.
Qed.

(** However subscribers' steps fall between one another's and the daemon's, no more than the sixteen
    subscriptions are ever held at once, and when none is being taken the count of them is exact. *)
Theorem subscriptions_are_limited `{UuidDisplay, JsonText, Broadcast} b flight n :
  rtc slot_step (bus_new, [], 0%nat) (b, flight, n) →
  Z.of_nat n ≤ MAX_SUBSCRIBERS ∧ (flight = [] → subscribers b = Z.of_nat n).
Proof.
  intros Hr. assert (slots_ok (b, flight, n)) as [Hs Hn].
  { revert Hr. generalize (b, flight, n). apply rtc_ind_r; [by split|]. intros c c' _ Hstep Hc. by eapply slots_ok_step. }
  split; [lia|]. intros ->. simpl in Hs. lia.
Qed.

(** Every event says why.  An event is refused only when its producer gave it no text of its own, or called a
    good path degraded; and a client reads from the frame of any other the event's name, and a [because] that is
    neither blank nor the name again. *)
Theorem events_say_why `{UuidDisplay, JsonText, DebugText} e :
  is_ok (event_value e) = publishable e ∧
  ∀ v seq, event_value e = Ok v → from_str (numbered seq v) = Ok (insert_field v "seq" (Num (Int seq))) →
    ∃ view, decode_event_view (numbered seq v) = Ok view ∧
      (∃ fields, event_parts e = Ok (ev_event view, fields, ev_because view)) ∧
      is_ok (validate_because (ev_event view) (ev_because view)) = true.
Proof.
  split; [apply event_value_publishable|]. intros v seq Hv Hread.
  destruct (event_value_fields e v Hv) as (name & because & Hparts & Hval & Hn & Hb & [m Hm]).
  assert (str_is_empty name = false) as Hne.
  { destruct Hparts as [fields Hparts]. destruct e; simpl in Hparts; try (injection Hparts as <- _ _; done).
    unbind Hparts. by injection Hparts as <- _ _. }
  destruct v as [| | | | |fields]; try done. simpl insert_field in Hread.
  unfold decode_event_view. rewrite Hread, !get_insert. simpl. rewrite Hn, Hb. simpl. rewrite Hne. simpl.
  rewrite Hval. simpl. eexists. split_and!; [done|done|]. simpl. by rewrite Hval.
Qed.

(** * Witnesses *)

Module Demo.
#[export] Instance display : UuidDisplay := fun u => pretty u.
(** One text, of the one event of the witnesses under its first number. *)
Definition told : ConnectionEvent := RecoveredEvent 4.
#[export] Instance text : JsonText := {|
  from_str s := Ok (object [("path", Str "4"); ("event", Str "Recovered"); ("seq", Num (Int 1));
    ("because", Str "the network carrying your connection is working normally again")]);
  json_to_string v := match get v "seq" with Some (Num (Int n)) => pretty n | _ => "?" end;
|}.
#[export] Instance debug_text : DebugText := fun s => s.
#[export] Instance log : Broadcast := {|
  Sender := list string;
  Receiver := nat;
  channel _ := [];
  send s f := s ++ [f];
  receiver s := length s;
  sent_since s r := drop r s;
|}.
#[export] Instance log_laws : BroadcastLaws.
Proof.
  intros s frames. change (drop (length s) (fold_left (fun s f => s ++ [f]) frames s) = frames).
  assert (fold_left (fun s f => s ++ [f]) frames s = s ++ frames) as ->; [|by rewrite drop_app_length].
  revert s. induction frames as [|f frames IH]; intros s; simpl; [by rewrite app_nil_r|].
  by rewrite IH, <-app_assoc.
Qed.
End Demo.
Import Demo.

(** Two events, a new session, one more event, a subscriber, and another event. *)
Lemma subscribers_see_each_event_once_witness :
  let before := [Publish told; Publish told; BeginSession; Publish told] in
  ∃ s, (subscribe (run before bus_new)).2 = Ok s ∧
    sub_backlog s ++ sent_since (live (run [Publish told] (subscribe (run before bus_new)).1)) (sub_live s) = ["3"; "4"].
Proof.
  intros before. eexists. split; [vm_compute; reflexivity|].
  etrans; [apply (subscribers_see_each_event_once before [Publish told]); vm_compute; reflexivity|].
  vm_compute. reflexivity.
Defined.

Lemma subscriptions_are_limited_witness :
  ∃ b, rtc slot_step (bus_new, [], 0%nat) (b, [], 1%nat) ∧ subscribers b = 1.
Proof.
  assert (rtc slot_step (bus_new, [], 0%nat) ((fetch_add bus_new).2, [], 1%nat)) as Hr.
  { eapply rtc_l; [apply slot_reserve|]. eapply rtc_l; [|apply rtc_refl].
    exact (slot_granted (fetch_add bus_new).2 [] 0 [] 0 _ eq_refl). }
  eexists. split; [exact Hr|]. by apply (subscriptions_are_limited _ _ _ Hr).
Defined.

Lemma events_say_why_witness :
  ∃ view, decode_event_view (numbered 1 (object [("path", Str "4"); ("event", Str "Recovered");
    ("because", Str "the network carrying your connection is working normally again")])) = Ok view ∧
    is_ok (validate_because (ev_event view) (ev_because view)) = true.
Proof.
  destruct (events_say_why told) as [_ Hv].
  destruct (Hv _ 1 eq_refl ltac:(vm_compute; reflexivity)) as (view & Hd & _ & Hb).
  exists view. split; [exact Hd|exact Hb].
Defined.
