(* ===== verification/IpcServer.v ===== *)
(** The control pipe's side of the privilege boundary: who may ask for what, the version two ends must share, and the
    connection that asks the service only for what its client may have (crates/dnet-ipc/src/authz.rs, version.rs,
    service.rs and server.rs). *)

From Stdlib Require Import Ascii.
From S2P Require Import Prelude Text Profile Rule Json Frame Protocol.

(** * Definitions

    ** Who may ask *)

(* src: crates/dnet-ipc/src/authz.rs:10-20 ClientIdentity *)
Record ClientIdentity : Type := mkClient {
  sid : string;
  session_id : Z;
  authenticated : bool;
  elevated : bool;
}.

(* src: crates/dnet-ipc/src/authz.rs:22-27 ConsoleSession *)
Record ConsoleSession : Type := mkConsole { console_id : Z; user_sid : string }.

(* src: crates/dnet-ipc/src/authz.rs:29-33 unauthorized *)
Definition unauthorized (reason : string) : IpcError := Unauthorized reason.

(* src: crates/dnet-ipc/src/authz.rs:35-90 authorize *)
Definition authorize (class : RequestClass) (client : ClientIdentity) (console : option ConsoleSession) :
    result IpcError unit :=
  if negb (authenticated client) then Err (unauthorized "caller is not authenticated")
  else
    match class with
    | ReadOnly | Protocol.Stream => Ok ()
    | Mutating =>
        console ← ok_or console (unauthorized "no interactive console session is active");
        let same_session := session_id client =? console_id console in
        let same_user := String.eqb (sid client) (user_sid console) in
        if same_session && same_user then Ok ()
        else Err (unauthorized "mutating requests require the interactive console user")
    | Approval =>
        if negb (elevated client) then
          Err (unauthorized "approving a change needs an elevated client: run `dnetctl approve` and answer the Windows prompt")
        else
          console ← ok_or console (unauthorized "no interactive console session is active");
          if session_id client =? console_id console then Ok ()
          else Err (unauthorized "approving a change is done from the interactive console session")
    end.

(** ** Versions *)

(* src: crates/dnet-ipc/src/version.rs:24-25 PROTOCOL_VERSION *)
Definition PROTOCOL_VERSION : Z := 1.
(* src: crates/dnet-ipc/src/version.rs:27-28 MIN_PROTOCOL_VERSION *)
Definition MIN_PROTOCOL_VERSION : Z := 1.
(** [CARGO_PKG_VERSION], the workspace's. *)
Definition CARGO_PKG_VERSION : string := "0.1.0".
(* src: crates/dnet-ipc/src/version.rs:33-34 MAX_SERVICE_VERSION_LEN *)
Definition MAX_SERVICE_VERSION_LEN : Z := 64.

(* src: crates/dnet-ipc/src/version.rs:36-45 ServiceVersion *)
Record ServiceVersion : Type := mkVersion { protocol : Z; min_protocol : Z; service_build : string }.

Definition reply_value : Value := object [
  ("protocol_version", Num (Int PROTOCOL_VERSION)); ("min_protocol_version", Num (Int MIN_PROTOCOL_VERSION));
  ("service_version", Str CARGO_PKG_VERSION)].

(* src: crates/dnet-ipc/src/version.rs:47-55 reply *)
Definition version_reply `{JsonText} : string := json_to_string reply_value.

(* src: crates/dnet-ipc/src/version.rs:78-83 decode *)
Definition plain_version (s : string) : bool :=
  negb (str_is_empty s) && (str_len s <=? MAX_SERVICE_VERSION_LEN) &&
  forallb (fun b => is_ascii_alphanumeric b || existsb (Ascii.eqb b) ["."%char; "-"%char; "+"%char; "_"%char]) (bytes s).

(* src: crates/dnet-ipc/src/version.rs:57-91 decode *)
Definition version_decode (reply : Value) : result string ServiceVersion :=
  match as_object reply with
  | None => Err "the version is not a JSON object"
  | Some _ =>
      let number key : result string Z :=
        ok_or (filter_opt (fun n => 1 <=? n) ((get reply key ≫= as_u64) ≫= try_u32))
          ("`" +:+ key +:+ "` is not a version number") in
      protocol ← number "protocol_version";
      min_protocol ← number "min_protocol_version";
      if protocol <? min_protocol then Err "the oldest version it serves is newer than the newest it speaks"
      else
        service ← ok_or (filter_opt plain_version (get reply "service_version" ≫= as_str))
          "`service_version` is not a plain version string";
        Ok {| protocol := protocol; min_protocol := min_protocol; service_build := service |}
  end.

(* src: crates/dnet-ipc/src/version.rs:93-108 Incompatible *)
Inductive Incompatible : Type :=
  | ClientTooOld (client min newest : Z)
  | ServiceTooOld (client min newest : Z).

(* src: crates/dnet-ipc/src/version.rs:110-128 check *)
Definition version_check (client : Z) (service : ServiceVersion) : result Incompatible unit :=
  let min := min_protocol service in
  let newest := protocol service in
  if client <? min then Err (ClientTooOld client min newest)
  else if newest <? client then Err (ServiceTooOld client min newest)
  else Ok ().

(** ** The service, as the pipe sees it

    The state is the whole of what a request can reach; a subscription is a [V]. *)
(* src: crates/dnet-ipc/src/service.rs:11-36 Service *)
Class Service (S C V : Type) : Type := {
  console_session : S → option ConsoleSession;
  dispatch : Request (C := C) → S → S * result IpcError string;
  service_subscribe : S → S * result IpcError V;
}.

Section Server.
Context {S C V : Type} `{CredentialForm C, UuidText, DebugText, JsonText, !Service S C V}.

(* src: crates/dnet-ipc/src/server.rs:151-158 answered_here *)
Definition answered_here (request : Request (C := C)) : option string :=
  match request with GetVersion => Some version_reply | _ => None end.

(** [None] is a panic of the request reader. *)
(* src: crates/dnet-ipc/src/server.rs:126-149 dispatch_frame *)
Definition dispatch_frame (payload : string) (identity : ClientIdentity) (console : option ConsoleSession) (s : S) :
    option (S * string) :=
  decoded ← decode_request (C := C) payload;
  Some (
    match decoded with
    | Ok request =>
        match authorize (class request) identity console with
        | Ok _ =>
            match answered_here request with
            | Some answer => (s, answer)
            | None =>
                let '(s, answer) := dispatch (V := V) request s in
                (s, match answer with Ok text => text | Err e => encode_ipc_error e end)
            end
        | Err e => (s, encode_ipc_error e)
        end
    | Err e => (s, encode_ipc_error e)
    end).

(* src: crates/dnet-ipc/src/server.rs:168-200 dispatch_request *)
Definition dispatch_request (payload : string) (identity : ClientIdentity) (console : option ConsoleSession) (s : S) :
    option (S * Reply V) :=
  decoded ← decode_request (C := C) payload;
  Some (
    match decoded with
    | Err e => (s, Response (encode_ipc_error e))
    | Ok request =>
        match authorize (class request) identity console with
        | Err e => (s, Response (encode_ipc_error e))
        | Ok _ =>
            match request with
            | Subscribe =>
                match service_subscribe (C := C) s with
                | (s, Ok subscription) => (s, Frame.Stream subscription)
                | (s, Err e) => (s, Response (encode_ipc_error e))
                end
            | request =>
                match answered_here request with
                | Some answer => (s, Response answer)
                | None =>
                    let '(s, answer) := dispatch (V := V) request s in
                    (s, Response (match answer with Ok text => text | Err e => encode_ipc_error e end))
                end
            end
        end
    end).

(** One frame of a connection; a panic would end it with nothing said. *)
(* src: crates/dnet-ipc/src/server.rs:441-450 serve_pipe_connection *)
Definition on_frame (identity : ClientIdentity) (s : S) (payload : string) : S * option (Reply V) :=
  let console := console_session (C := C) (V := V) s in
  match dispatch_request payload identity console s with
  | Some (s, reply) => (s, Some reply)
  | None => (s, None)
  end.

(** The first read gives the client's identity; the rest of the stream is served under it. *)
(* src: crates/dnet-ipc/src/server.rs:413-452 serve_pipe_connection *)
Definition serve_pipe_connection (identity : ClientIdentity) (s : S) (reads : list ReadResult) :
    option (S * list Bytes * LoopEnd V) :=
  match reads with
  | [] => frame_loop (on_frame identity) s [] [] []
  | Chunk initial :: reads => frame_loop (on_frame identity) s [] initial reads
  | ReadFailed :: _ => Some (s, [], ReadError)
  | IdleTooLong :: _ => Some (s, [], Silent)
  end.

End Server.

(** ** The listener *)

(* src: crates/dnet-ipc/src/server.rs:41-54 Limits *)
Record Limits : Type := mkLimits {
  max_connections : Z;
  first_request_within : Duration;
  idle_for : Duration;
}.

(* src: crates/dnet-ipc/src/server.rs:56-64 Limits::default *)
Definition default_limits : Limits :=
  {| max_connections := 32; first_request_within := from_secs 10; idle_for := from_secs 120 |}.

(** [saturating_sub] of a [u32], then a [u64] shifted by at most six. *)
(* src: crates/dnet-ipc/src/server.rs:66-72 backoff *)
Definition backoff (failures : Z) : Duration :=
  let doublings := Z.min (Z.max 0 (failures - 1)) 6 in
  Z.min (from_millis (Z.shiftl 100 doublings)) (from_secs 5).

(** The listener between two attempts to accept: how many clients are being served, and the failures in a
    row.  An attempt needs a free slot; a client that is done gives its slot back. *)
Record Listener : Type := mkListener { serving : Z; failures : Z }.

(* src: crates/dnet-ipc/src/server.rs:95-117 accept_forever *)
Inductive accept_step (limits : Limits) : Listener → option Duration → Listener → Prop :=
  | accept_ok l :
      serving l < Z.max (max_connections limits) 1 →
      accept_step limits l None {| serving := serving l + 1; failures := 0 |}
  | accept_failed l :
      serving l < Z.max (max_connections limits) 1 →
      let n := u32_saturating_add (failures l) 1 in
      accept_step limits l (Some (backoff n)) {| serving := serving l; failures := n |}
  | client_done l :
      0 < serving l → accept_step limits l None {| serving := serving l - 1; failures := failures l |}.

(** * Lemmas *)

Lemma authorize_spec class client console :
  is_ok (authorize class client console) = true ↔
  authenticated client = true ∧
  match class with
  | ReadOnly | Protocol.Stream => True
  | Mutating => ∃ c, console = Some c ∧ session_id client = console_id c ∧ sid client = user_sid c
  | Approval => elevated client = true ∧ ∃ c, console = Some c ∧ session_id client = console_id c
  end.
Proof.
  unfold authorize. destruct (authenticated client); [|naive_solver]. simpl.
  destruct class; simpl; [naive_solver| |naive_solver|].
  - destruct console as [c|]; simpl; [|naive_solver].
    destruct (Z.eqb_spec (session_id client) (console_id c)), (String.eqb_spec (sid client) (user_sid c)); naive_solver.
  - destruct (elevated client); simpl; [|naive_solver]. destruct console as [c|]; simpl; [|naive_solver].
    destruct (Z.eqb_spec (session_id client) (console_id c)); naive_solver.
Qed.

(** The reader's own constants are what it expects of them. *)
Lemma decode_request_total {C} `{CredentialForm C, UuidText, DebugText, JsonText} wire :
  is_Some (decode_request (C := C) wire).
Proof.
  unfold decode_request. destruct (from_str wire) as [v|]; [|eauto].
  destruct (get v "request" ≫= as_str) as [name|]; [|eauto]. unfold decode_named.
  repeat match goal with |- is_Some (if ?b then _ else _) => destruct b; [try (eexists; reflexivity)|] end; [|eauto].
  unfold decode_add_rule. destruct (mbind _ (only_fields _ _)) as [[[k t] a]|]; [|eauto].
  assert (is_Some (personal_rule k t a)) as [r ->]; [|simpl; eauto].
  unfold personal_rule. destruct (mbind _ (personal_matcher k t)) as [[m act]|]; [|eauto].
  assert (∀ i p, is_Some (user i m act p)) as Hu; [|destruct (Hu 0 USER_RULES_START) as [x ->]; simpl; eauto].
  intros i p. unfold user, build. destruct (pattern_empty m); [eauto|].
  assert (is_Some pools) as [ps Hps] by (vm_compute; eauto).
  destruct m; simpl; unfold check_user_range; rewrite ?Hps; simpl; eauto.
Qed.

Section ServerLemmas.
Context {S C V : Type} `{CredentialForm C, UuidText, DebugText, JsonText, !Service S C V}.

(** What one frame can do, and what it needed for it. *)
Lemma on_frame_cases identity (s : S) payload :
  (∃ text, on_frame (C := C) identity s payload = (s, Some (Response (V := V) text))) ∨
  (∃ r, is_ok (authorize (class r) identity (console_session (C := C) (V := V) s)) = true ∧ ∃ text,
     on_frame (C := C) identity s payload = ((dispatch (V := V) r s).1, Some (Response text))) ∨
  (authenticated identity = true ∧ ∃ reply,
     on_frame (C := C) identity s payload = ((service_subscribe (C := C) (V := V) s).1, Some reply)).
Proof.
  unfold on_frame, dispatch_request. destruct (decode_request_total (C := C) payload) as [[r|e] Hr];
    rewrite Hr; simpl; [|by left; eexists].
  destruct (authorize (class r) identity _) eqn:Ea; [|by left; eexists].
  assert (authenticated identity = true) as Hauth.
  { apply (f_equal is_ok) in Ea. by apply authorize_spec in Ea as [? _]. }
  assert (∀ r, authorize (class r) identity (console_session (C := C) (V := V) s) = Ok t →
    (∃ text, (let '(s1, answer) := dispatch (V := V) r s in
      (s1, Some (Response (V := V) (match answer with Ok text => text | Err e => encode_ipc_error e end)))) =
      ((dispatch (V := V) r s).1, Some (Response text)))) as Hd.
  { intros r' _. destruct (dispatch r' s) as [s1 answer]. by eexists. }
  destruct r; try (by left; eexists).
  all: try (right; left; eexists; split; [by rewrite Ea|];
    match goal with |- context [dispatch ?r ?s'] => destruct (Hd r Ea) as [text Ht]; exists text;
      by destruct (dispatch r s') end).
  right. right. split; [done|]. destruct (service_subscribe s) as [s1 [v|e]]; by eexists.
Qed.

End ServerLemmas.

(** * Properties *)

(** C15. An unauthorized request never reaches the service.  Whatever bytes a client sends, however they are cut, and
    for any property of the service's state: if the requests this client may make preserve it, and so does
    subscribing when the client is authenticated, then so does the whole connection; a client that is not
    authenticated is never subscribed, and leaves the service exactly as it was. *)
Theorem only_authorized_requests_reach_the_service {S C V} `{CredentialForm C, UuidText, DebugText, JsonText, !Service S C V}
    (I : S → Prop) identity (s : S) reads s' w e
    (Hdispatch : ∀ s r, I s → is_ok (authorize (class r) identity (console_session (C := C) (V := V) s)) = true →
       I (dispatch (C := C) (V := V) r s).1)
    (Hsubscribe : ∀ s, I s → authenticated identity = true → I (service_subscribe (C := C) (V := V) s).1)
    (Hs : I s) (Hrun : serve_pipe_connection (C := C) identity s reads = Some (s', w, e)) :
  I s' ∧
  (authenticated identity = false → s' = s ∧ ∀ (v : V) rest, e ≠ Streaming v rest).
Proof.
  assert (∀ I : S → Prop, (∀ s payload, I s → I (on_frame (C := C) (V := V) identity s payload).1) →
    I s → I s' ∧ ∀ (v : V) rest, e = Streaming v rest → authenticated identity = true) as Hrun_preserves.
  { intros I' HI' Hs'.
    assert (∀ s p v, (on_frame (C := C) (V := V) identity s p).2 = Some (Frame.Stream v) → authenticated identity = true) as HQ.
    { intros s1 p v. destruct (on_frame_cases (C := C) (V := V) identity s1 p) as [[t ->]|[(r & _ & t & ->)|(? & _)]]; done. }
    unfold serve_pipe_connection in Hrun. destruct reads as [|[] reads].
    - by eapply (frame_loop_invariant _ I' (λ _, authenticated identity = true)); [apply HI'|apply HQ| |].
    - by eapply (frame_loop_invariant _ I' (λ _, authenticated identity = true)); [apply HI'|apply HQ| |].
    - by injection Hrun as <- <- <-.
    - by injection Hrun as <- <- <-. }
  split.
  - apply Hrun_preserves; [|done]. intros s1 p Hs1.
    destruct (on_frame_cases (C := C) (V := V) identity s1 p) as [[t ->]|[(r & Hr & t & ->)|(Ha & t & ->)]]; simpl; auto.
  - intros Hno. destruct (Hrun_preserves (λ s1, s1 = s)) as [Heq Hstream]; [|done|].
    + intros s1 p ->.
      destruct (on_frame_cases (C := C) (V := V) identity s p) as [[t ->]|[(r & Hr & t & ->)|(Ha & t & ->)]]; simpl; [done| |].
      * apply authorize_spec in Hr as [Hr _]. congruence.
      * congruence.
    + split; [done|]. intros v rest ->. specialize (Hstream v rest eq_refl). congruence.
Qed.

(** The listener keeps serving, and no more clients than it may: however accepting fails and succeeds and clients
    come and go, it serves between none and its limit, and it waits between a tenth of a second and five seconds
    before it tries again, twice as long after each failure in a row until then. *)
Theorem listener_is_bounded limits l p l' :
  rtc (λ l l', ∃ p, accept_step limits l p l') {| serving := 0; failures := 0 |} l → accept_step limits l p l' →
  0 ≤ serving l' ≤ Z.max (max_connections limits) 1 ∧
  ∀ d, p = Some d → from_millis 100 ≤ d ≤ from_secs 5 ∧
    (failures l = 0 → d = from_millis 100) ∧
    ∀ n, 1 ≤ n → backoff (n + 1) = Z.min (2 * backoff n) (from_secs 5).
Proof.
  intros Hr Hstep.
  assert (0 ≤ serving l ≤ Z.max (max_connections limits) 1 ∧ 0 ≤ failures l) as [Hl Hf].
  { revert Hr. revert l Hstep. intros l _. revert l. apply rtc_ind_r; [simpl; lia|].
    intros x y _ [q Hq] Hx. destruct Hq; simpl; unfold u32_saturating_add, U32_MAX in *; lia. }
  split; [destruct Hstep; simpl; lia|]. intros d ->. inversion Hstep as [|? ? n|]; subst. split_and!.
  - unfold backoff, from_millis, from_secs, NANOS_PER_SEC. rewrite Z.shiftl_mul_pow2 by lia.
    pose proof (Z.pow_le_mono_r 2 0 (Z.min (Z.max 0 (n - 1)) 6)). lia.
  - unfold backoff, from_millis, from_secs, NANOS_PER_SEC. lia.
  - intros Hz. unfold n. rewrite Hz. vm_compute. done.
  - intros k Hk. unfold backoff, from_millis, from_secs, NANOS_PER_SEC. rewrite !Z.shiftl_mul_pow2 by lia.
    destruct (Z.le_gt_cases k 6).
    + assert (k = 1 ∨ k = 2 ∨ k = 3 ∨ k = 4 ∨ k = 5 ∨ k = 6) as Hc by lia.
      destruct Hc as [->|[->|[->|[->|[->| ->]]]]]; vm_compute; done.
    + replace (Z.min (Z.max 0 (k + 1 - 1)) 6) with 6 by lia. replace (Z.min (Z.max 0 (k - 1)) 6) with 6 by lia. done.
Qed.

(** Two ends that can talk do, and one that cannot is told which of them to update: a client passes exactly when
    its version is one the service serves, what a service says of itself is read only when it makes sense, and what
    this service says is read as what it is. *)
Theorem versions_agree client service reply :
  (is_ok (version_check client service) = true ↔ min_protocol service ≤ client ≤ protocol service) ∧
  (∀ a b c, version_check client service = Err (ClientTooOld a b c) → client < min_protocol service) ∧
  (∀ a b c, version_check client service = Err (ServiceTooOld a b c) → protocol service < client) ∧
  (∀ v, version_decode reply = Ok v → 1 ≤ min_protocol v ≤ protocol v ∧ protocol v ≤ U32_MAX ∧ 1 ≤ str_len (service_build v) ≤ 64) ∧
  version_decode reply_value = Ok (mkVersion PROTOCOL_VERSION MIN_PROTOCOL_VERSION CARGO_PKG_VERSION) ∧
  version_check PROTOCOL_VERSION (mkVersion PROTOCOL_VERSION MIN_PROTOCOL_VERSION CARGO_PKG_VERSION) = Ok ().
Proof.
  split_and!; [| | | |vm_compute; done|vm_compute; done].
  - unfold version_check. destruct (Z.ltb_spec client (min_protocol service)); simpl; [split; [done|lia]|].
    destruct (Z.ltb_spec (protocol service) client); simpl; split; (done || lia).
  - intros a b c. unfold version_check. destruct (Z.ltb_spec client (min_protocol service)); [done|].
    by destruct (_ <? _).
  - intros a b c. unfold version_check. destruct (_ <? _); [done|]. by destruct (Z.ltb_spec (protocol service) client).
  - intros v. unfold version_decode. destruct (as_object reply); [|done].
    assert (∀ key n, ok_or (filter_opt (fun n => 1 <=? n) ((get reply key ≫= as_u64) ≫= try_u32))
      ("`" +:+ key +:+ "` is not a version number") = Ok n → 1 ≤ n ≤ U32_MAX) as Hn.
    { intros key n. destruct (filter_opt _ _) as [m|] eqn:E; [|done]. intros [= <-]. apply filter_opt_Some in E as [E Hm].
      apply bind_Some in E as (k & _ & E). unfold try_u32 in E. destruct (Z.leb_spec k U32_MAX); [|done].
      injection E as <-. lia. }
    intros E. cbv zeta in E. apply bind_Ok in E as (p & Hp & E). apply bind_Ok in E as (m & Hm & E).
    apply Hn in Hp, Hm. destruct (Z.ltb_spec p m); [done|]. apply bind_Ok in E as (b & Hb & E). injection E as <-. simpl.
    destruct (filter_opt plain_version _) as [b'|] eqn:Eb; [|done]. injection Hb as ->.
    apply filter_opt_Some in Eb as [_ Eb]. unfold plain_version in Eb. rewrite !andb_true_iff, negb_true_iff in Eb.
    destruct Eb as [[Hne Hle] _]. apply str_len_pos in Hne. unfold MAX_SERVICE_VERSION_LEN in Hle. lia.
Qed.

(** * Witnesses *)

Module Demo.
Import ToyText.
Import Protocol.Demo.
(** A service that counts the changes it was asked for. *)
#[export] Instance counter : Service nat unit string := {|
  console_session _ := Some (mkConsole 1 "S-1-5-21-7");
  dispatch r n := (match class r with Mutating | Approval => S n | _ => n end, Ok "done");
  service_subscribe n := (n, Ok "events");
|}.
(** Another user of the computer, who asks for a rule. *)
Definition stranger : ClientIdentity := mkClient "S-1-5-21-8" 1 true false.
Definition console_user : ClientIdentity := mkClient "S-1-5-21-7" 1 true false.
Definition rule_frame : Bytes := to_le_bytes 4 4 ++ bytes "rule".

Example console_user_is_served :
  (fun r => r.1.1) <$> serve_pipe_connection (C := unit) (V := string) console_user 0%nat [Chunk rule_frame] = Some 1%nat.
Proof. vm_compute. reflexivity. Qed.
End Demo.
Import ToyText Protocol.Demo Demo.

Lemma only_authorized_requests_reach_the_service_witness :
  ∃ s' w e, serve_pipe_connection (C := unit) (V := string) stranger 0%nat [Chunk rule_frame] = Some (s', w, e) ∧ s' = 0%nat.
Proof.
  destruct (serve_pipe_connection (C := unit) (V := string) stranger 0%nat [Chunk rule_frame]) as [[[s' w] e]|] eqn:E.
  - exists s', w, e. split; [reflexivity|].
    refine (proj1 (only_authorized_requests_reach_the_service (C := unit) (V := string)
      (λ n, n = 0%nat) stranger 0%nat [Chunk rule_frame] s' w e _ _ eq_refl E)).
    + intros s r -> Ha. destruct r; first [reflexivity|discriminate Ha].
    + intros s -> _. reflexivity.
  - vm_compute in E. discriminate E.
Defined.

Lemma listener_is_bounded_witness :
  let l := {| serving := 0; failures := 1 |} in
  rtc (λ l l', ∃ p, accept_step default_limits l p l') {| serving := 0; failures := 0 |} l ∧
  0 ≤ serving {| serving := serving l; failures := u32_saturating_add (failures l) 1 |} ≤ 32 ∧ from_millis 100 ≤ backoff 2.
Proof.
  intros l.
  assert (rtc (λ l l', ∃ p, accept_step default_limits l p l') {| serving := 0; failures := 0 |} l) as Hr.
  { apply rtc_once. eexists. exact (accept_failed default_limits {| serving := 0; failures := 0 |} eq_refl). }
  destruct (listener_is_bounded default_limits l (Some (backoff 2)) _ Hr (accept_failed default_limits l eq_refl)) as [H1 H2].
  split; [exact Hr|]. split; [exact H1|]. exact (proj1 (proj1 (H2 _ eq_refl))).
Defined.

Lemma versions_agree_witness :
  is_ok (version_check 1 (mkVersion 3 2 "0.3.0")) = false ∧ is_ok (version_check 2 (mkVersion 3 2 "0.3.0")) = true.
Proof.
  destruct (versions_agree 2 (mkVersion 3 2 "0.3.0") Null) as [H _].
  split; [reflexivity|]. apply H. simpl. lia.
Defined.
