(* ===== verification/Domain.v ===== *)
(** The service's store: the endpoints, profiles and rules it knows, the changes to them, and what of them is saved
    and listed (crates/dnetd/src/domain.rs). *)

From S2P Require Import Prelude Text IpText Profile Health Endpoint Selection Rule RuleEval Origin Builtin Names Json Persist Protocol.

(** * Definitions *)

(** [?] where the checks themselves may panic. *)
Definition and_then {E A B} (o : option (result E A)) (k : A → option (result E B)) : option (result E B) :=
  match o with None => None | Some (Err e) => Some (Err e) | Some (Ok a) => k a end.
#[local] Notation "'let?' x ':=' o 'in' k" := (and_then o (fun x => k)) (at level 200, x pattern, k at level 200).

(** [map_err]. *)
Definition map_err {E F A} (f : E → F) (r : result E A) : result F A :=
  match r with Ok a => Ok a | Err e => Err (f e) end.

(** A loop whose body leaves with [?]. *)
Fixpoint try_fold {E A B} (f : B → A → result E B) (b : B) (l : list A) : result E B :=
  match l with [] => Ok b | a :: l => b' ← f b a; try_fold f b' l end.

(* src: crates/dnetd/src/domain.rs:42-54 DomainState *)
Record DomainState : Type := mkDomainState {
  ds_endpoints : list Endpoint;
  ds_profiles : list ConnectionProfile;
  ds_rules : list RoutingRule;
  ds_consent : ConsentState;
}.

(* src: crates/dnetd/src/domain.rs:32-40 StartupConfig *)
Record StartupConfig : Type := mkStartupConfig {
  sc_state : DomainState;
  sc_refusal : option string;
  sc_notes : list string;
}.

Definition with_endpoints (es : list Endpoint) (s : DomainState) : DomainState :=
  mkDomainState es (ds_profiles s) (ds_rules s) (ds_consent s).
Definition with_profiles (ps : list ConnectionProfile) (s : DomainState) : DomainState :=
  mkDomainState (ds_endpoints s) ps (ds_rules s) (ds_consent s).
Definition with_rules (rs : list RoutingRule) (s : DomainState) : DomainState :=
  mkDomainState (ds_endpoints s) (ds_profiles s) rs (ds_consent s).

(** ** Endpoints *)

(* src: crates/dnetd/src/domain.rs:295-303 DomainState::add_endpoint *)
Definition add_endpoint (e : Endpoint) (s : DomainState) : DomainState * result DomainError unit :=
  if existsb (fun e' => String.eqb (endpoint_label e') (endpoint_label e)) (ds_endpoints s) then
    (s, Err (InvalidLabel (char_count (endpoint_label e))))
  else (with_endpoints (ds_endpoints s ++ [e]) s, Ok ()).

(* src: crates/dnetd/src/domain.rs:305-309 DomainState::remove_endpoint *)
Definition remove_endpoint (id : EndpointId) (s : DomainState) : DomainState * bool :=
  let kept := List.filter (fun e => negb (endpoint_id e =? id)) (ds_endpoints s) in
  (with_endpoints kept s, negb (length kept =? length (ds_endpoints s))%nat).

(* src: crates/dnetd/src/domain.rs:311-314 DomainState::endpoint *)
Definition endpoint (id : EndpointId) (s : DomainState) : option Endpoint :=
  List.find (fun e => endpoint_id e =? id) (ds_endpoints s).

(* src: crates/dnetd/src/domain.rs:316-325 DomainState::set_endpoint_enabled *)
Definition set_endpoint_enabled (id : EndpointId) (enabled : bool) (s : DomainState) : DomainState * bool :=
  match endpoint id s with
  | Some _ => (with_endpoints (update_first (fun e => endpoint_id e =? id) (set_enabled enabled) (ds_endpoints s)) s, true)
  | None => (s, false)
  end.

(** ** Profiles *)

(* src: crates/dnetd/src/domain.rs:330-356 DomainState::set_brutal *)
Definition set_brutal (id : ProfileId) (setting : option (BandwidthPair * BrutalAcknowledgement)) (s : DomainState) :
    DomainState * result string unit :=
  match List.find (fun p => String.eqb (profile_id p) id) (ds_profiles s) with
  | None => (s, Err "there is no connection method with that id")
  | Some profile =>
      let put p := with_profiles (update_first (fun p => String.eqb (profile_id p) id) (fun _ => p) (ds_profiles s)) s in
      match setting with
      | None => (put (disable_brutal profile), Ok ())
      | Some (bandwidth, acknowledgement) =>
          match enable_brutal bandwidth acknowledgement profile with
          | Ok p => (put p, Ok ())
          | Err BrutalRequiresHysteria2 =>
              (s, Err "Brutal congestion control applies only to the Hysteria 2 connection method")
          | Err _ => (s, Err "the warning about Brutal congestion control has not been accepted")
          end
      end
  end.

(** ** Rules

    The ids are those that [RuleId::new] mints while the operation runs. *)

Section Rules.
Context (new_ids : nat → RuleId).

(* src: crates/dnetd/src/domain.rs:400-412 DomainState::check_rules *)
Definition check_rules (candidate : list RoutingRule) (consent : ConsentState) : option (result DomainError unit) :=
  let? _ := validate_builtin_rules_present new_ids candidate None in
  let? _ := validate_block_matches_policy new_ids candidate (policy consent) in
  Some (
    _ ← validate_rule_set candidate;
    _ ← validate_dns_leak_protection candidate;
    _ ← validate_block_outranks_user_rules candidate;
    validate_user_rules_follow_builtins candidate).

(* src: crates/dnetd/src/domain.rs:393-398 DomainState::replace_rules *)
Definition replace_rules (candidate : list RoutingRule) (s : DomainState) : option (DomainState * result DomainError unit) :=
  checked ← check_rules candidate (ds_consent s);
  Some (match checked with Ok _ => (with_rules candidate s, Ok ()) | Err e => (s, Err e) end).

(* src: crates/dnetd/src/domain.rs:372-376 DomainState::add_rule *)
Definition add_rule (rule : RoutingRule) (s : DomainState) : option (DomainState * result DomainError unit) :=
  replace_rules (ds_rules s ++ [rule]) s.

(* src: crates/dnetd/src/domain.rs:358-370 DomainState::add_user_rule *)
Definition add_user_rule (new_id : RuleId) (m : RuleMatcher) (a : RuleAction) (s : DomainState) :
    option (DomainState * result DomainError RuleId) :=
  match next_user_precedence (ds_rules s) with
  | None => Some (s, Err (PrecedenceCollision U32_MAX))
  | Some p =>
      built ← user new_id m a p;
      match built with
      | Err e => Some (s, Err e)
      | Ok rule => '(s, added) ← add_rule rule s; Some (s, _ ← added; Ok (rule_id rule))
      end
  end.

(* src: crates/dnetd/src/domain.rs:378-391 DomainState::remove_rule *)
Definition remove_rule (id : RuleId) (s : DomainState) : option (DomainState * result DomainError bool) :=
  let candidate := List.filter (fun r => negb (rule_id r =? id)) (ds_rules s) in
  if (length candidate =? length (ds_rules s))%nat then Some (s, Ok false)
  else '(s, replaced) ← replace_rules candidate s; Some (s, _ ← replaced; Ok true).

(** ** The encrypted-DNS choice *)

(* src: crates/dnetd/src/domain.rs:449-462 DomainState::apply_consent *)
Definition apply_consent (next : ConsentState) (s : DomainState) : option (DomainState * result DomainError unit) :=
  block ← blocking_rules new_ids (policy next);
  let candidate := List.filter (fun r => negb (bool_decide (action r = Reject))) (ds_rules s) ++ block in
  checked ← check_rules candidate next;
  Some (match checked with
    | Ok _ => (mkDomainState (ds_endpoints s) (ds_profiles s) candidate next, Ok ())
    | Err e => (s, Err e)
    end).

(* src: crates/dnetd/src/domain.rs:418-421 DomainState::acknowledge_encrypted_dns_disclosure *)
Definition acknowledge_encrypted_dns_disclosure (s : DomainState) : DomainState :=
  mkDomainState (ds_endpoints s) (ds_profiles s) (ds_rules s) (acknowledge_disclosure (ds_consent s)).

(* src: crates/dnetd/src/domain.rs:423-430 DomainState::opt_out_of_encrypted_dns_block *)
Definition opt_out_of_encrypted_dns_block (s : DomainState) : option (DomainState * result DomainError string) :=
  let '(next, consequence) := opt_out (ds_consent s) in
  '(s, applied) ← apply_consent next s; Some (s, _ ← applied; Ok consequence).

(* src: crates/dnetd/src/domain.rs:432-437 DomainState::restore_encrypted_dns_block *)
Definition restore_encrypted_dns_block (s : DomainState) : option (DomainState * result DomainError unit) :=
  apply_consent (restore (ds_consent s)) s.

(* src: crates/dnetd/src/domain.rs:439-447 DomainState::choose_encrypted_dns_block *)
Definition choose_encrypted_dns_block (s : DomainState) : option (DomainState * result DomainError unit) :=
  apply_consent (acknowledge_disclosure (restore (ds_consent s))) s.

(** ** Start-up *)

(* src: crates/dnetd/src/domain.rs:57-75 DomainState::seeded *)
Definition seeded : option DomainState :=
  rules ← builtin_rules_for new_ids None (policy consent_new);
  Some {|
    ds_endpoints := [];
    ds_profiles := map (fun entry => profile_new (entry_id entry) (entry_kind entry) ∅) BUNDLED_PROFILES;
    ds_rules := rules;
    ds_consent := consent_new;
  |}.
End Rules.

(* src: crates/dnetd/src/domain.rs:85-99 DomainState::from_loaded *)
Definition load_profile `{DebugText} (profiles : list ConnectionProfile) (saved : ProfileSettings) :
    result PersistError (list ConnectionProfile) :=
  match List.find (fun p => String.eqb (profile_id p) (ps_id saved)) profiles with
  | None => Err (Invalid "a saved profile is not in the catalogue")
  | Some slot =>
      let profile := profile_new (ps_id saved) (profile_kind slot) (ps_params saved) in
      profile ←
        match ps_brutal saved with
        | Some (bandwidth, acknowledgement) =>
            map_err (fun e => Invalid (domain_error_to_string e)) (enable_brutal bandwidth acknowledgement profile)
        | None => Ok profile
        end;
      Ok (update_first (fun p => String.eqb (profile_id p) (ps_id saved)) (fun _ => profile) profiles)
  end.

(** A step of start-up that changes the store, its error as the file's. *)
Definition loading `{DebugText} (step : DomainState * result DomainError unit) : result PersistError DomainState :=
  match step with (s, Ok _) => Ok s | (_, Err e) => Err (Invalid (domain_error_to_string e)) end.

(** The ids minted by the four things that mint some: the seed, the block of the choice, and the two checks. *)
(* src: crates/dnetd/src/domain.rs:79-122 DomainState::from_loaded *)
Definition from_loaded `{DebugText} (new_ids : nat → nat → RuleId) (loaded : LoadedConfig) :
    option (result PersistError DomainState) :=
  s ← seeded (new_ids 0%nat);
  let? ps := Some (try_fold load_profile (ds_profiles s) (lc_profiles loaded)) in
  let? s := Some (try_fold (fun s e => loading (add_endpoint e s)) (with_profiles ps s) (lc_endpoints loaded)) in
  let? s :=
    match lc_encrypted_dns loaded with
    | Some saved => step ← apply_consent (new_ids 1%nat) saved s; Some (loading step)
    | None => Some (Ok s)
    end in
  match lc_rules loaded with
  | [] => Some (Ok s)
  | rules => step ← replace_rules (new_ids 2%nat) (ds_rules s ++ rules) s; Some (loading step)
  end.

(* src: crates/dnetd/src/domain.rs:124-156 DomainState::from_load_result *)
Definition from_load_result `{DebugText} (new_ids : nat → nat → RuleId)
    (read : result PersistError (option LoadedConfig)) : option StartupConfig :=
  let refused e := s ← seeded (new_ids 3%nat); Some (mkStartupConfig s (Some (persist_error_to_string e)) []) in
  match read with
  | Ok None => s ← seeded (new_ids 3%nat); Some (mkStartupConfig s None [])
  | Ok (Some loaded) =>
      state ← from_loaded new_ids loaded;
      match state with
      | Ok s => Some (mkStartupConfig s None (lc_notes loaded))
      | Err e => refused e
      end
  | Err e => refused e
  end.

(* src: crates/dnetd/src/domain.rs:158-170 DomainState::to_config_bytes *)
Definition to_config_bytes `{UuidText, DebugText, ConfigText} (s : DomainState) : option (result PersistError string) :=
  let chosen := if bool_decide (ds_consent s = consent_new) then None else Some (ds_consent s) in
  encode_with_rules (ds_endpoints s) (ds_profiles s) chosen (ds_rules s).

(** ** What is listed *)

(* src: crates/dnetd/src/domain.rs:182-192 DomainState::idle_snapshot *)
Definition idle_snapshot (s : DomainState) : StateSnapshot := {|
  status := Disconnected;
  active_profile := None;
  active_endpoint := None;
  failure := None;
  warnings := [];
  posture := FailClosed;
|}.

(* src: crates/dnetd/src/domain.rs:465-472 health_name *)
Definition health_name (s : HealthState) : string :=
  match s with
  | Unknown => "Unknown" | Healthy => "Healthy" | Health.Degraded => "Degraded" | Unreachable => "Unreachable"
  end.

(* src: crates/dnetd/src/domain.rs:474-480 profile_kind_name *)
Definition profile_kind_name (k : ProfileKind) : string :=
  match k with AmneziaWg => "AmneziaWg" | Hysteria2 => "Hysteria2" | VlessReality => "VlessReality" end.

(* src: crates/dnetd/src/domain.rs:482-487 tier_name *)
Definition tier_name (t : FailoverTier) : string := match t with Tier1 => "Tier1" | Tier2 => "Tier2" end.

(* src: crates/dnetd/src/domain.rs:489-494 carrier_name *)
Definition carrier_name (c : Carrier) : string := match c with Udp => "Udp" | Tcp => "Tcp" end.

(* src: crates/dnetd/src/domain.rs:496-503 rule_action_name *)
Definition rule_action_name (a : RuleAction) : string :=
  match a with Tunnel => "Tunnel" | Bypass => "Bypass" | Capture => "Capture" | Reject => "Reject" end.

(* src: crates/dnetd/src/domain.rs:505-510 reliability_name *)
Definition reliability_name (r : Reliability) : string :=
  match r with Deterministic => "Deterministic" | BestEffort => "BestEffort" end.

Section Listings.
Context `{JsonText}.

(** [None] is the failed [expect]. *)
(* src: crates/dnetd/src/domain.rs:174-180 DomainState::state_snapshot_json *)
Definition state_snapshot_json (s : DomainState) : option string :=
  match encode_state_snapshot (idle_snapshot s) with Ok text => Some text | Err _ => None end.

(* src: crates/dnetd/src/domain.rs:194-209 DomainState::endpoints_json *)
Definition endpoints_json `{UuidText} (s : DomainState) : string :=
  json_to_string (object [("endpoints", Array (map (fun e => object [
    ("id", Str (uuid_to_string (endpoint_id e)));
    ("label", Str (endpoint_label e));
    ("address", Str (address_to_string (endpoint_address e)));
    ("enabled", Bool (endpoint_enabled e));
    ("health", Str (health_name (state (endpoint_health e))))]) (ds_endpoints s)))]).

(* src: crates/dnetd/src/domain.rs:211-226 DomainState::profiles_json *)
Definition profiles_json (s : DomainState) : string :=
  json_to_string (object [("profiles", Array (map (fun p => object [
    ("id", Str (profile_id p));
    ("kind", Str (profile_kind_name (profile_kind p)));
    ("tier", Str (tier_name (profile_tier p)));
    ("carrier", Str (carrier_name (profile_carrier p)));
    ("brutal", Bool (bool_decide (is_Some (profile_brutal p))))]) (ds_profiles s)))]).

(* src: crates/dnetd/src/domain.rs:228-256 DomainState::rules_json *)
Definition rules_json `{UuidText} (s : DomainState) : string :=
  json_to_string (object [
    ("rules", Array (map (fun r => let '(kind, value) := Protocol.rule_wire (matcher r) in object [
      ("id", Str (uuid_to_string (rule_id r)));
      ("kind", Str kind);
      ("value", Str value);
      ("precedence", Num (Int (precedence r)));
      ("action", Str (rule_action_name (action r)));
      ("reliability", Str (reliability_name (reliability r)));
      ("builtin", Bool (is_builtin r))]) (ds_rules s)));
    ("encrypted_dns", object [
      ("block", Bool (bool_decide (policy (ds_consent s) = Block)));
      ("needs_disclosure", Bool (needs_disclosure (ds_consent s)))])]).

(* src: crates/dnetd/src/domain.rs:258-261 DomainState::session_json *)
Definition session_json : string := json_to_string (object [("session", Null)]).
End Listings.

Example seeded_counts :
  (fun s => (length (ds_profiles s), length (ds_rules s))) <$> seeded Z.of_nat = Some (3%nat, 27%nat).
Proof. vm_compute. reflexivity. Qed.

(** * Lemmas

    ** The shape of a rule set *)

(** A rule of the product without the id it was given: ids are minted afresh at each start. *)
Definition unnamed (r : RoutingRule) : RuleMatcher * RuleAction * Z := (matcher r, action r, precedence r).

(** The product's rules under a choice. *)
Definition product_rules (p : Policy) : list (RuleMatcher * RuleAction * Z) :=
  map unnamed (default [] (builtin_rules_for (fun _ => 0) None p)).

Definition by_person (r : RoutingRule) : bool := negb (is_builtin r).

(** A rule a person may make through a client. *)
Record personal (r : RoutingRule) : Prop := {
  personal_kind : is_builtin r = false;
  personal_action : action r = Tunnel ∨ action r = Bypass;
  personal_matcher : matcher r ≠ DnsPort ∧ matcher r ≠ EncryptedDnsPort;
  personal_number : USER_RULES_START ≤ precedence r;
  personal_range c : matcher r = Cidr c → cidr_ok c;
}.

(** The product's rules, each once, and a person's after them. *)
Record rules_shaped (p : Policy) (rules : list RoutingRule) : Prop := {
  rsh_product : map unnamed (List.filter is_builtin rules) ≡ₚ product_rules p;
  rsh_personal r : r ∈ rules → is_builtin r = false → personal r;
  rsh_numbers : NoDup (map precedence (List.filter by_person rules));
}.

Lemma filter_perm {A} (p : A → bool) l k : l ≡ₚ k → List.filter p l ≡ₚ List.filter p k.
Proof.
  induction 1; simpl; repeat case_match; try done; [by constructor|by constructor|]. by etrans.
Qed.

Lemma filter_filter {A} (p q : A → bool) l : List.filter p (List.filter q l) = List.filter (fun x => p x && q x) l.
Proof.
  induction l as [|x l IH]; [done|]. simpl. destruct (q x); simpl; [rewrite andb_true_r; by destruct (p x); rewrite IH|].
  by rewrite andb_false_r.
Qed.

Lemma filter_all {A} (p : A → bool) l : (∀ x, x ∈ l → p x = true) → List.filter p l = l.
Proof.
  induction l as [|x l IH]; [done|]. intros Hp. simpl. rewrite (Hp x ltac:(set_solver)), IH; [done|]. set_solver.
Qed.

(** Two tests that agree on the elements there are. *)
Lemma filter_ext_elem {A} (p q : A → bool) l : (∀ x, x ∈ l → p x = q x) → List.filter p l = List.filter q l.
Proof.
  induction l as [|x l IH]; [done|]. intros Hp. simpl. rewrite (Hp x ltac:(set_solver)), IH; [done|]. set_solver.
Qed.

Lemma split_perm rules : rules ≡ₚ List.filter is_builtin rules ++ List.filter by_person rules.
Proof.
  induction rules as [|r rules IH]; [done|]. simpl. unfold by_person at 1. destruct (is_builtin r); simpl.
  - by constructor.
  - rewrite <-Permutation_middle. by constructor.
Qed.

Lemma elem_of_unnamed x rules :
  x ∈ map unnamed (List.filter is_builtin rules) ↔ ∃ r, r ∈ rules ∧ is_builtin r = true ∧ unnamed r = x.
Proof. rewrite elem_of_map. setoid_rewrite elem_of_filter_bool. naive_solver. Qed.

Section Ids.
Context (new_ids : nat → RuleId).

Lemma block_made p : ∃ block, blocking_rules new_ids p = Some block ∧
  (∀ r, r ∈ block → is_builtin r = true ∧ action r = Reject) ∧
  product_rules p = product_rules Allow ++ map unnamed block.
Proof.
  destruct p; (eexists; split; [vm_compute; reflexivity|]; split; [|vm_compute; reflexivity]);
    apply Forall_forall; repeat (constructor; [done|]); constructor.
Qed.

Lemma builtins_made p : ∃ rules, builtin_rules_for new_ids None p = Some rules ∧
  (∀ r, r ∈ rules → is_builtin r = true) ∧ map unnamed rules = product_rules p.
Proof.
  destruct p; (eexists; split; [vm_compute; reflexivity|]; split; [|vm_compute; reflexivity]);
    apply Forall_forall; repeat (constructor; [done|]); constructor.
Qed.

Lemma bypasses_made : ∃ rules, builtin_rules new_ids None = Some rules ∧
  (∀ r, r ∈ rules → is_builtin r = true) ∧ map unnamed rules = product_rules Allow.
Proof.
  eexists. split; [vm_compute; reflexivity|]. split; [|vm_compute; reflexivity].
  apply Forall_forall. repeat (constructor; [done|]). constructor.
Qed.
End Ids.

(** A fact of constants. *)
Ltac decided := refine (proj1 (bool_decide_eq_true _) _); vm_compute; reflexivity.

(** The product's own rules have numbers of their own below a person's, one for each thing they match; one captures
    DNS, before all others; and traffic is refused only while encrypted DNS is blocked. *)
Lemma product_facts p :
  NoDup (map snd (product_rules p)) ∧ NoDup (map fst (product_rules p)) ∧
  (DnsPort, Capture, 0) ∈ product_rules p ∧
  ∀ m a n, (m, a, n) ∈ product_rules p →
    0 ≤ n < USER_RULES_START ∧ (m = DnsPort → n = 0) ∧ (a = Reject ↔ (m, a, n) ∉ product_rules Allow) ∧
    (p = Allow → a ≠ Reject).
Proof.
  split_and!.
  - destruct p; decided.
  - destruct p; decided.
  - destruct p; decided.
  - intros m a n Hx. split; [|split; [|split]].
    + revert m a n Hx.
      enough (Forall (fun x => 0 ≤ x.2 < USER_RULES_START) (product_rules p)) as H.
      { intros m a n Hx. rewrite Forall_forall in H. apply (H _ Hx). }
      destruct p; decided.
    + enough (Forall (fun x => x.1.1 = DnsPort → x.2 = 0) (product_rules p)) as H.
      { rewrite Forall_forall in H. apply (H _ Hx). }
      destruct p; decided.
    + enough (Forall (fun x => bool_decide (x.1.2 = Reject) = bool_decide (x ∉ product_rules Allow)) (product_rules p)) as H.
      { rewrite Forall_forall in H. specialize (H _ Hx). simpl in H. by rewrite <-(bool_decide_eq_true (a = Reject)), H, bool_decide_eq_true. }
      destruct p; decided.
    + intros ->. enough (Forall (fun x => x.1.2 ≠ Reject) (product_rules Allow)) as H.
      { rewrite Forall_forall in H. apply (H _ Hx). }
      decided.
Qed.

Lemma product_ranges p c a n : (Cidr c, a, n) ∈ product_rules p → cidr_ok c.
Proof.
  intros Hx. enough (Forall (fun x => match x.1.1 with Cidr c => cidr_ok c | _ => True end) (product_rules p)) as H.
  { rewrite Forall_forall in H. apply (H _ Hx). }
  destruct p; vm_compute product_rules; repeat (constructor; [first [done|vm_compute; repeat split; discriminate]|]); constructor.
Qed.

#[local] Opaque product_rules.

Section Shaped.
Context (p : Policy) (rules : list RoutingRule) (Hshape : rules_shaped p rules).

Lemma shaped_builtin r : r ∈ rules → is_builtin r = true → unnamed r ∈ product_rules p.
Proof. intros Hr Hb. rewrite <-(rsh_product _ _ Hshape). apply elem_of_unnamed. eauto. Qed.

Lemma shaped_has x : x ∈ product_rules p → ∃ r, r ∈ rules ∧ is_builtin r = true ∧ unnamed r = x.
Proof. rewrite <-(rsh_product _ _ Hshape). apply elem_of_unnamed. Qed.

Lemma shaped_builtin_low r : r ∈ rules → is_builtin r = true → 0 ≤ precedence r < USER_RULES_START.
Proof.
  intros Hr Hb. pose proof (shaped_builtin r Hr Hb) as Hx. destruct (product_facts p) as (_ & _ & _ & H).
  by apply H in Hx as [? _].
Qed.

Lemma shaped_builtin_numbers : map precedence (List.filter is_builtin rules) ≡ₚ map snd (product_rules p).
Proof. rewrite <-(rsh_product _ _ Hshape), map_map. done. Qed.

Lemma shaped_numbers : NoDup (map precedence rules).
Proof.
  rewrite (Permutation_map precedence (split_perm rules)), map_app. apply NoDup_app. split_and!.
  - rewrite shaped_builtin_numbers. apply product_facts.
  - intros n (r & -> & [Hr Hb]%elem_of_filter_bool)%elem_of_map (u & E & [Hu Hp]%elem_of_filter_bool)%elem_of_map.
    pose proof (shaped_builtin_low r Hr Hb). unfold by_person in Hp. apply negb_true_iff in Hp.
    pose proof (personal_number u (rsh_personal _ _ Hshape u Hu Hp)). lia.
  - apply (rsh_numbers _ _ Hshape).
Qed.

Lemma shaped_dns : validate_dns_leak_protection rules = Ok ().
Proof.
  destruct (product_facts p) as (_ & _ & Hdns & Hfacts).
  destruct (shaped_has _ Hdns) as (c & Hc & Hb & [= Hm Ha Hn]).
  assert (∀ r, r ∈ rules → 0 ≤ precedence r) as Hpos.
  { intros r Hr. destruct (is_builtin r) eqn:E; [by apply shaped_builtin_low|].
    pose proof (personal_number r (rsh_personal _ _ Hshape r Hr E)). unfold USER_RULES_START in *. lia. }
  assert (∀ r, r ∈ rules → is_dns_capture r = true → precedence r = 0) as Honly.
  { intros r Hr Hd. unfold is_dns_capture in Hd. bool_simpl. destruct (is_builtin r) eqn:E.
    - pose proof (shaped_builtin r Hr E) as Hx. apply Hfacts in Hx as (_ & Hx & _). by apply Hx.
    - by destruct (personal_matcher r (rsh_personal _ _ Hshape r Hr E)). }
  unfold validate_dns_leak_protection. destruct (List.find is_dns_capture rules) as [d|] eqn:Ed.
  - apply find_Some_elem in Ed as [Hd Hdc]. simpl.
    assert (list_min (map precedence rules) = Some 0) as ->; [|by rewrite (Honly d Hd Hdc)].
    destruct (list_min (map precedence rules)) as [low|] eqn:El.
    + apply list_min_spec in El as [(r & -> & Hr)%elem_of_map Hle]. f_equal. apply Z.le_antisymm; [|by apply Hpos].
      apply Hle, elem_of_map. exists c. by rewrite Hn.
    + by destruct rules; [apply elem_of_nil in Hc|].
  - pose proof (find_None_elem _ _ Ed c Hc) as Hno. unfold is_dns_capture in Hno.
    by rewrite !bool_decide_eq_true_2 in Hno.
Qed.

Lemma shaped_present expected :
  (∀ w, w ∈ map unnamed expected → w ∈ product_rules p) →
  List.find (fun w => negb (is_present rules w)) expected = None.
Proof.
  intros Hsub. apply find_all_false. intros w Hw. apply negb_false_iff.
  destruct (shaped_has (unnamed w)) as (r & Hr & Hb & [= Hm Ha _]); [apply Hsub, elem_of_map; eauto|].
  unfold is_present. apply existsb_exists_elem. exists r. split; [done|]. by rewrite Hb, Hm, Ha, !bool_decide_eq_true_2.
Qed.

Lemma shaped_follow : validate_user_rules_follow_builtins rules = Ok ().
Proof.
  unfold validate_user_rules_follow_builtins. cbv zeta. set (highest := default 0 _).
  rewrite find_all_false; [done|]. intros n (u & -> & [Hu Hp]%elem_of_filter_bool)%elem_of_map.
  apply negb_true_iff in Hp. pose proof (personal_number u (rsh_personal _ _ Hshape u Hu Hp)).
  apply orb_false_iff. split; [by apply Z.ltb_ge|]. apply Z.leb_gt. enough (highest < USER_RULES_START) by lia.
  unfold highest. destruct (list_max_spec (map precedence (List.filter is_builtin rules))) as [[_ ->]|(m & -> & Hm & _)]; [done|].
  apply elem_of_map in Hm as (r & -> & [Hr Hb]%elem_of_filter_bool). simpl. by apply shaped_builtin_low.
Qed.

Lemma shaped_outranks : validate_block_outranks_user_rules rules = Ok ().
Proof.
  unfold validate_block_outranks_user_rules. rewrite (filter_none _ rules); [by destruct (negb _)|].
  intros u Hu. destruct (is_builtin u) eqn:E; [done|]. simpl. apply Z.ltb_ge.
  by apply personal_number, (rsh_personal _ _ Hshape).
Qed.

End Shaped.

(** Such a set passes every check. *)
Lemma shaped_valid new_ids p rules : rules_shaped p rules → valid new_ids p rules.
Proof.
  intros Hshape. split_and!;
    [by eapply validate_rule_set_ok, shaped_numbers|by eapply shaped_dns|by eapply shaped_follow|by eapply shaped_outranks| |].
  - unfold validate_builtin_rules_present. destruct (bypasses_made new_ids) as (expected & -> & _ & E). simpl.
    rewrite (shaped_present p); [done|done|]. rewrite E. intros w Hw.
    destruct (block_made new_ids p) as (block & _ & _ & ->). apply elem_of_app. by left.
  - unfold validate_block_matches_policy. destruct (block_made new_ids p) as (block & Hblock & _ & E). destruct p.
    + rewrite Hblock. cbn [mbind option_bind]. rewrite (shaped_present Block); [done|done|]. rewrite E. intros w Hw. apply elem_of_app. by right.
    + rewrite find_all_false; [done|]. intros r Hr. apply bool_decide_eq_false. intros Ha. destruct (is_builtin r) eqn:Eb.
      * pose proof (shaped_builtin _ _ Hshape r Hr Eb) as Hx. destruct (product_facts Allow) as (_ & _ & _ & Hf).
        apply Hf in Hx as (_ & _ & _ & Hx). by apply Hx.
      * pose proof (personal_action r (rsh_personal _ _ Hshape r Hr Eb)). naive_solver congruence.
Qed.

Lemma check_rules_valid new_ids rules consent :
  check_rules new_ids rules consent = Some (Ok ()) ↔ valid new_ids (policy consent) rules.
Proof.
  unfold check_rules, valid. split.
  - destruct (validate_builtin_rules_present _ _ _) as [[[]|]|]; [|done..].
    destruct (validate_block_matches_policy _ _ _) as [[[]|]|]; [|done..]. cbn [and_then].
    intros [= E]. unbind E. destruct u, u0, u1. by split_and!.
  - intros (H1 & H2 & H3 & H4 & -> & ->). cbn [and_then]. by rewrite H1, H2, H4, H3.
Qed.

(** The checks themselves never panic. *)
Lemma check_rules_total new_ids rules consent : is_Some (check_rules new_ids rules consent).
Proof.
  unfold check_rules, validate_builtin_rules_present, validate_block_matches_policy.
  destruct (bypasses_made new_ids) as (expected & -> & _). cbn [mbind option_bind].
  destruct (List.find _ expected); [by eexists|]. cbn [and_then].
  destruct (policy consent).
  - destruct (block_made new_ids Block) as (block & -> & _). cbn [mbind option_bind].
    destruct (List.find _ block); by eexists.
  - destruct (List.find _ rules); by eexists.
Qed.

(** ** The changes keep the shape *)

Lemma add_shaped p rules users :
  rules_shaped p rules → (∀ u, u ∈ users → personal u) →
  NoDup (map precedence (List.filter by_person rules ++ users)) → rules_shaped p (rules ++ users).
Proof.
  intros Hs Hu Hnd. constructor.
  - rewrite List.filter_app, (filter_none is_builtin users), app_nil_r by (intros u Hin; by apply personal_kind, Hu).
    apply (rsh_product _ _ Hs).
  - intros r [Hr|Hr]%elem_of_app Hb; [by apply (rsh_personal _ _ Hs)|by apply Hu].
  - rewrite List.filter_app, (filter_all by_person users); [done|].
    intros u Hin. apply negb_true_iff. by apply personal_kind, Hu.
Qed.

(** A check that passed found each of the product's rules. *)
Lemma valid_has new_ids p rules m a n :
  valid new_ids p rules → (m, a, n) ∈ product_rules p →
  ∃ r, r ∈ rules ∧ is_builtin r = true ∧ matcher r = m ∧ action r = a.
Proof.
  intros (_ & _ & _ & _ & Hpresent & Hblock) Hx.
  assert (∀ expected, List.find (λ w, negb (is_present rules w)) expected = None → (m, a, n) ∈ map unnamed expected →
    ∃ r, r ∈ rules ∧ is_builtin r = true ∧ matcher r = m ∧ action r = a) as Hfind.
  { intros expected E ([id m' a' n' b] & [= <- <- <-] & Hw)%elem_of_map. pose proof (find_None_elem _ _ E _ Hw) as Hp.
    apply negb_false_iff in Hp. unfold is_present in Hp. apply existsb_exists_elem in Hp as (r & Hr & Hrest).
    bool_simpl. eauto. }
  destruct (block_made new_ids p) as (block & Hmade & _ & Hproduct). rewrite Hproduct in Hx.
  apply elem_of_app in Hx as [Hx|Hx].
  - destruct (bypasses_made new_ids) as (expected & He & _ & E). unfold validate_builtin_rules_present in Hpresent.
    rewrite He in Hpresent. simpl in Hpresent. destruct (List.find _ _) eqn:Ef; [done|].
    apply (Hfind expected Ef). by rewrite E.
  - unfold validate_block_matches_policy in Hblock. destruct p.
    + rewrite Hmade in Hblock. cbn [mbind option_bind] in Hblock. destruct (List.find _ _) eqn:Ef; [done|]. by apply (Hfind block).
    + injection Hmade as <-. by apply elem_of_nil in Hx.
Qed.

Lemma bool_filter_NoDup {A B} (g : A → B) p l : NoDup (map g l) → NoDup (map g (List.filter p l)).
Proof.
  induction l as [|x l IH]; [done|]. simpl. intros [Hx Hl]%NoDup_cons. destruct (p x); [|by apply IH].
  simpl. apply NoDup_cons. split; [|by apply IH]. intros (y & E & [Hy _]%elem_of_filter_bool)%elem_of_map.
  apply Hx, elem_of_map. eauto.
Qed.

(** Taking rules out leaves a set the checks accept only when no rule of the product is among them. *)
Lemma removal_keeps_product new_ids p rules keep r :
  rules_shaped p rules → valid new_ids p (List.filter keep rules) → r ∈ rules → is_builtin r = true → keep r = true.
Proof.
  intros Hs Hv Hr Hb. destruct (product_facts p) as (_ & Hthings & _).
  pose proof (shaped_builtin _ _ Hs r Hr Hb) as Hx.
  destruct (valid_has _ _ _ _ _ _ Hv Hx) as (r' & [Hr' Hk]%elem_of_filter_bool & Hb' & Hm & Ha).
  pose proof (shaped_builtin _ _ Hs r' Hr' Hb') as Hx'.
  assert (unnamed r' = unnamed r) as Hu.
  { apply (NoDup_map_inj fst (product_rules p)); [done..|]. unfold unnamed. simpl. by rewrite Hm, Ha. }
  assert (r' = r) as ->; [|done]. apply (NoDup_map_inj precedence rules); [by eapply shaped_numbers|done..|].
  by injection Hu.
Qed.

Lemma removal_shaped p rules keep :
  rules_shaped p rules → (∀ r, r ∈ rules → is_builtin r = true → keep r = true) →
  rules_shaped p (List.filter keep rules).
Proof.
  intros Hs Hall. constructor.
  - rewrite filter_filter, (filter_ext_elem _ is_builtin); [apply (rsh_product _ _ Hs)|].
    intros r Hr. destruct (is_builtin r) eqn:Hb; [|done]. by rewrite (Hall r Hr Hb).
  - intros r [Hr _]%elem_of_filter_bool. by apply (rsh_personal _ _ Hs).
  - rewrite filter_filter. replace (List.filter _ rules) with (List.filter keep (List.filter by_person rules)).
    + apply bool_filter_NoDup, (rsh_numbers _ _ Hs).
    + rewrite filter_filter. apply filter_ext_elem. intros r _. apply andb_comm.
Qed.

(** The rules that stay when the choice changes, and those that the new one brings. *)
Lemma choice_shaped new_ids p q rules block :
  rules_shaped p rules → blocking_rules new_ids q = Some block →
  rules_shaped q (List.filter (fun r => negb (bool_decide (action r = Reject))) rules ++ block).
Proof.
  intros Hs Hb. destruct (block_made new_ids q) as (block' & Hb' & Hblock & Hq). rewrite Hb in Hb'. injection Hb' as <-.
  set (stays := fun r => negb (bool_decide (action r = Reject))).
  assert (List.filter by_person block = []) as Hnone.
  { apply filter_none. intros r Hr. apply negb_false_iff, (proj1 (Hblock r Hr)). }
  constructor.
  - rewrite List.filter_app, (filter_all is_builtin block) by (intros r Hr; apply (Hblock r Hr)). rewrite map_app, Hq.
    apply Permutation_app_tail. rewrite filter_filter.
    replace (List.filter _ rules) with (List.filter stays (List.filter is_builtin rules))
      by (rewrite filter_filter; apply filter_ext_elem; intros r _; apply andb_comm).
    transitivity (List.filter (fun x => negb (bool_decide (x.1.2 = Reject))) (product_rules p)).
    + rewrite <-(filter_perm _ _ _ (rsh_product _ _ Hs)). by rewrite List.filter_map_swap.
    + destruct p; by vm_compute.
  - intros r [[Hr _]%elem_of_filter_bool|Hr]%elem_of_app Hk; [by apply (rsh_personal _ _ Hs)|].
    destruct (Hblock r Hr) as [? _]. congruence.
  - rewrite List.filter_app, Hnone, app_nil_r, filter_filter.
    replace (List.filter _ rules) with (List.filter by_person rules); [apply (rsh_numbers _ _ Hs)|].
    apply filter_ext_elem. intros r Hr. unfold by_person, stays. destruct (is_builtin r) eqn:Ek; [done|]. simpl.
    destruct (personal_action r (rsh_personal _ _ Hs r Hr Ek)) as [-> | ->]; done.
Qed.

(** ** The store *)

Definition catalogued (p : ConnectionProfile) : string * ProfileKind := (profile_id p, profile_kind p).

(** What every store is like: the bundled profiles, each as it was made but for its settings; endpoints with names of
    their own; and a rule set that fits the choice about encrypted DNS. *)
Record store_ok (s : DomainState) : Prop := {
  so_rules : rules_shaped (policy (ds_consent s)) (ds_rules s);
  so_labels : NoDup (map endpoint_label (ds_endpoints s));
  so_profiles : map catalogued (ds_profiles s) = map (fun e => (entry_id e, entry_kind e)) BUNDLED_PROFILES;
  so_settings p : p ∈ ds_profiles s → brutal_ok p ∧
    p = with_brutal (profile_brutal p) (profile_new (profile_id p) (profile_kind p) (profile_params p));
  so_disclosed : disclosed (ds_consent s) ≠ Some 0;
}.

(** What a client may ask of the store: [AddUserRule] with a rule that a client may make. *)
Inductive StoreOp : Type :=
  | StoreAddEndpoint (e : Endpoint)
  | StoreRemoveEndpoint (id : EndpointId)
  | StoreSetEnabled (id : EndpointId) (enabled : bool)
  | StoreSetBrutal (id : ProfileId) (setting : option (BandwidthPair * BrutalAcknowledgement))
  | StoreAddRule (new_id : RuleId) (m : RuleMatcher) (a : RuleAction)
  | StoreRemoveRule (id : RuleId)
  | StoreAcknowledge
  | StoreOptOut
  | StoreRestoreBlock
  | StoreChooseBlock.

Definition store_step (new_ids : nat → RuleId) (op : StoreOp) (s : DomainState) : option DomainState :=
  match op with
  | StoreAddEndpoint e => Some (add_endpoint e s).1
  | StoreRemoveEndpoint id => Some (remove_endpoint id s).1
  | StoreSetEnabled id enabled => Some (set_endpoint_enabled id enabled s).1
  | StoreSetBrutal id setting => Some (set_brutal id setting s).1
  | StoreAddRule new_id m a => fst <$> add_user_rule new_ids new_id m a s
  | StoreRemoveRule id => fst <$> remove_rule new_ids id s
  | StoreAcknowledge => Some (acknowledge_encrypted_dns_disclosure s)
  | StoreOptOut => fst <$> opt_out_of_encrypted_dns_block new_ids s
  | StoreRestoreBlock => fst <$> restore_encrypted_dns_block new_ids s
  | StoreChooseBlock => fst <$> choose_encrypted_dns_block new_ids s
  end.

(** A matcher and an action that a client's request can carry. *)
Definition askable (m : RuleMatcher) (a : RuleAction) : Prop :=
  (a = Tunnel ∨ a = Bypass) ∧ m ≠ DnsPort ∧ m ≠ EncryptedDnsPort ∧ ∀ c, m = Cidr c → cidr_ok c.

Definition op_ok (op : StoreOp) : Prop :=
  match op with StoreAddRule _ m a => askable m a | _ => True end.

(** The stores there can be while the service runs, from the one it started with. *)
Inductive store_reachable (start : DomainState) : DomainState → Prop :=
  | store_started : store_reachable start start
  | store_changed s s' new_ids op :
      store_reachable start s → op_ok op → store_step new_ids op s = Some s' → store_reachable start s'.

Lemma update_first_map_in {A B} (g : A → B) (p : A → bool) f l :
  (∀ x, x ∈ l → p x = true → g (f x) = g x) → map g (update_first p f l) = map g l.
Proof.
  induction l as [|x l IH]; [done|]. intros H. simpl. destruct (p x) eqn:E; simpl.
  - rewrite (H x); [done|set_solver|done].
  - rewrite IH; [done|]. set_solver.
Qed.

Lemma with_rules_ok rules s :
  store_ok s → rules_shaped (policy (ds_consent s)) rules → store_ok (with_rules rules s).
Proof. intros [] Hr. by constructor. Qed.

(** A profile put in the place of the one with its id. *)
Lemma replace_profile_ok s slot p :
  store_ok s → List.find (fun x => String.eqb (profile_id x) (profile_id p)) (ds_profiles s) = Some slot →
  profile_kind p = profile_kind slot → brutal_ok p →
  p = with_brutal (profile_brutal p) (profile_new (profile_id p) (profile_kind p) (profile_params p)) →
  store_ok (with_profiles (update_first (fun x => String.eqb (profile_id x) (profile_id p)) (fun _ => p) (ds_profiles s)) s).
Proof.
  intros Hs Hslot Hk Hb Hp. apply find_Some_elem in Hslot as [Hin Hid%String.eqb_eq].
  destruct Hs as [H1 H2 H3 H4 H5]. constructor; try done; simpl.
  - rewrite update_first_map_in; [done|]. intros x Hx Hxid%String.eqb_eq. unfold catalogued.
    assert (x = slot) as ->; [|congruence]. apply (NoDup_map_inj profile_id (ds_profiles s)); [|done..|congruence].
    replace (map profile_id (ds_profiles s)) with (map fst (map catalogued (ds_profiles s))) by by rewrite map_map.
    rewrite H3. decided.
  - intros x [Hx|(x' & _ & _ & ->)]%elem_of_update_first; [by apply H4|done].
Qed.

Lemma replace_rules_cases new_ids candidate s :
  ∃ s' r, replace_rules new_ids candidate s = Some (s', r) ∧
    ((r = Ok () ∧ s' = with_rules candidate s ∧ valid new_ids (policy (ds_consent s)) candidate) ∨
     (s' = s ∧ is_ok r = false ∧ ¬ valid new_ids (policy (ds_consent s)) candidate)).
Proof.
  unfold replace_rules. destruct (check_rules_total new_ids candidate (ds_consent s)) as [checked Hc]. rewrite Hc. simpl.
  destruct checked as [[]|e]; eexists _, _; (split; [done|]).
  - left. split_and!; try done; by apply check_rules_valid in Hc.
  - right. split_and!; try done. rewrite <-check_rules_valid, Hc. done.
Qed.

(** The choice about encrypted DNS is never refused. *)
Lemma apply_consent_ok new_ids next s :
  store_ok s → disclosed next ≠ Some 0 →
  ∃ rules, apply_consent new_ids next s = Some (mkDomainState (ds_endpoints s) (ds_profiles s) rules next, Ok ()) ∧
    store_ok (mkDomainState (ds_endpoints s) (ds_profiles s) rules next) ∧
    List.filter by_person rules = List.filter by_person (ds_rules s).
Proof.
  intros Hs Hd. unfold apply_consent. destruct (block_made new_ids (policy next)) as (block & Hb & Hblock & _).
  rewrite Hb. cbn [mbind option_bind]. cbv zeta.
  pose proof (choice_shaped new_ids _ (policy next) (ds_rules s) block (so_rules _ Hs) Hb) as Hshape.
  rewrite (proj2 (check_rules_valid _ _ _) (shaped_valid new_ids _ _ Hshape)). cbn [mbind option_bind].
  eexists. split; [done|]. split.
  - destruct Hs. by constructor.
  - rewrite List.filter_app, (filter_none _ block), app_nil_r by (intros r Hr; apply negb_false_iff, (proj1 (Hblock r Hr))).
    rewrite filter_filter. apply filter_ext_elem. intros r Hr. unfold by_person. destruct (is_builtin r) eqn:Ek; [done|].
    simpl. by destruct (personal_action r (rsh_personal _ _ (so_rules _ Hs) r Hr Ek)) as [-> | ->].
Qed.

(** A rule that a client may make is refused only for its pattern or when no number is left. *)
Lemma add_user_rule_ok new_ids new_id m a s n :
  store_ok s → askable m a → next_user_precedence (ds_rules s) = Some n →
  match user new_id m a n with
  | None => add_user_rule new_ids new_id m a s = None
  | Some (Err e) => add_user_rule new_ids new_id m a s = Some (s, Err e)
  | Some (Ok rule) =>
      rule = mkRoutingRule new_id m a n false ∧
      add_user_rule new_ids new_id m a s = Some (with_rules (ds_rules s ++ [rule]) s, Ok new_id) ∧
      store_ok (with_rules (ds_rules s ++ [rule]) s)
  end.
Proof.
  intros Hs (Ha & Hm & Hm' & Hc) Hn. unfold add_user_rule. rewrite Hn. destruct (user _ _ _ _) as [[rule|e]|] eqn:Hu; [|done..].
  destruct (build_ok _ _ _ _ _ _ Hu) as [-> _]. simpl. apply next_user_precedence_spec in Hn as [Hlow Hlt].
  set (rule := mkRoutingRule new_id m a n false).
  assert (rules_shaped (policy (ds_consent s)) (ds_rules s ++ [rule])) as Hshape.
  { apply add_shaped; [by apply so_rules| |].
    - intros u ->%list_elem_of_singleton. by constructor.
    - rewrite map_app. apply NoDup_app. split_and!; [apply (rsh_numbers _ _ (so_rules _ Hs))| |apply NoDup_singleton].
      intros x (u & -> & [Hin _]%elem_of_filter_bool)%elem_of_map E%list_elem_of_singleton.
      specialize (Hlt u Hin). simpl in E. lia. }
  unfold add_rule, replace_rules. rewrite (proj2 (check_rules_valid _ _ _) (shaped_valid new_ids _ _ Hshape)).
  split_and!; [done..|]. by apply with_rules_ok.
Qed.

(** Counting what a filter left tells whether it took anything out. *)
Lemma filter_length_cases {A} (p : A → bool) l :
  ((length (List.filter p l) =? length l)%nat = true ∧ ∀ x, x ∈ l → p x = true) ∨
  ((length (List.filter p l) =? length l)%nat = false ∧ ∃ x, x ∈ l ∧ p x = false).
Proof.
  assert (length (List.filter p l) ≤ length l)%nat as Hle by apply List.filter_length_le.
  destruct (forallb p l) eqn:E.
  - left. rewrite forallb_forall_elem in E. split; [|done]. by rewrite filter_all, Nat.eqb_refl.
  - right. split.
    + apply Nat.eqb_neq. revert E. clear Hle. induction l as [|x l IH]; [done|]. simpl.
      pose proof (List.filter_length_le p l). destruct (p x); simpl; [|lia]. intros E. specialize (IH E). lia.
    + revert E. clear Hle. induction l as [|x l IH]; [done|]. simpl. destruct (p x) eqn:Ex; [|by exists x; set_solver].
      intros (y & ? & ?)%IH. exists y. set_solver.
Qed.

(** Taking a rule out works for a person's rules and for no other. *)
Lemma remove_rule_ok new_ids id s :
  store_ok s → ∃ s' r, remove_rule new_ids id s = Some (s', r) ∧ store_ok s' ∧
    match r with
    | Ok found => s' = with_rules (List.filter (fun r => negb (rule_id r =? id)) (ds_rules s)) s ∧
        found = existsb (fun r => rule_id r =? id) (ds_rules s) ∧
        (∀ r, r ∈ ds_rules s → is_builtin r = true → rule_id r ≠ id)
    | Err _ => s' = s ∧ ∃ r, r ∈ ds_rules s ∧ is_builtin r = true ∧ rule_id r = id
    end.
Proof.
  intros Hs. unfold remove_rule. cbv zeta. set (keep := fun r => negb (rule_id r =? id)).
  set (candidate := List.filter keep (ds_rules s)).
  assert (¬ valid new_ids (policy (ds_consent s)) candidate →
    ∃ r, r ∈ ds_rules s ∧ is_builtin r = true ∧ rule_id r = id) as Hrefused.
  { intros Hv. destruct (existsb (fun r => is_builtin r && (rule_id r =? id)) (ds_rules s)) eqn:E.
    - apply existsb_exists_elem in E as (r & Hr & Hk). bool_simpl. eauto.
    - destruct Hv. apply shaped_valid, removal_shaped; [by apply so_rules|]. intros r Hr Hb. unfold keep.
      apply not_true_iff_false in E. destruct (rule_id r =? id) eqn:Ei; [|done].
      destruct E. apply existsb_exists_elem. exists r. by rewrite Hb, Ei. }
  assert (valid new_ids (policy (ds_consent s)) candidate → store_ok (with_rules candidate s) ∧
    ∀ r, r ∈ ds_rules s → is_builtin r = true → rule_id r ≠ id) as Haccepted.
  { intros Hv. assert (∀ r, r ∈ ds_rules s → is_builtin r = true → keep r = true) as Hk.
    { intros r Hr Hb. eapply removal_keeps_product; [by apply so_rules|done..]. }
    split; [by apply with_rules_ok, removal_shaped; [|apply so_rules|]|].
    intros r Hr Hb. specialize (Hk r Hr Hb). unfold keep in Hk. by apply negb_true_iff, Z.eqb_neq in Hk. }
  destruct (filter_length_cases keep (ds_rules s)) as [[El Ek]|[El Ek]]; fold candidate in El; rewrite El.
  - exists s, (Ok false). split; [done|]. split; [done|]. split_and!.
    + fold keep candidate. unfold candidate. rewrite filter_all by done. by destruct s.
    + symmetry. apply not_true_iff_false. intros (r & Hr & E)%existsb_exists_elem.
      specialize (Ek r Hr). unfold keep in Ek. by rewrite E in Ek.
    + intros r Hr _. specialize (Ek r Hr). unfold keep in Ek. by apply negb_true_iff, Z.eqb_neq in Ek.
  - destruct (replace_rules_cases new_ids candidate s) as (s' & r & -> & [(-> & -> & Hv)|(-> & Hr & Hv)]); simpl.
    + apply Haccepted in Hv as [Hok Hn]. eexists _, _. split; [done|]. split; [done|]. split_and!; [done| |done].
      symmetry. apply existsb_exists_elem. destruct Ek as (r & Hr & Hk). exists r. split; [done|].
      unfold keep in Hk. by apply negb_false_iff in Hk.
    + destruct r as [|e]; [done|]. eexists _, _. split; [done|]. split; [done|]. simpl. split; [done|]. by apply Hrefused.
Qed.

(** ** Start-up *)

Lemma seeded_ok new_ids : ∃ s, seeded new_ids = Some s ∧ store_ok s ∧
  ds_endpoints s = [] ∧ ds_consent s = consent_new ∧ List.filter by_person (ds_rules s) = [].
Proof.
  unfold seeded. destruct (builtins_made new_ids (policy consent_new)) as (rules & -> & Hb & E). simpl.
  assert (List.filter by_person rules = []) as Hnone.
  { apply filter_none. intros r Hr. apply negb_false_iff. by apply Hb. }
  eexists. split; [done|]. split_and!; try done. constructor; simpl; try done.
  - constructor; [by rewrite filter_all, E|..].
    + intros r Hr Hk. by rewrite (Hb r Hr) in Hk.
    + rewrite Hnone. constructor.
  - constructor.
  - intros p Hp. apply list_elem_of_In in Hp. destruct Hp as [<- |[<- |[<- |[]]]]; by split.
Qed.

Lemma step_ok new_ids op s : store_ok s → op_ok op → ∃ s', store_step new_ids op s = Some s' ∧ store_ok s'.
Proof.
  intros Hs Hop. destruct op as [e|id|id en|id setting|new_id m a|id| | | |]; cbn [store_step].
  - eexists. split; [done|]. unfold add_endpoint. destruct (existsb _ _) eqn:E; [done|]. simpl.
    destruct Hs as [H1 H2 H3 H4 H5]. constructor; try done. simpl. rewrite map_app. apply NoDup_app.
    split_and!; [done| |apply NoDup_singleton]. intros l (e' & -> & He')%elem_of_map El%list_elem_of_singleton.
    apply not_true_iff_false in E. apply E, existsb_exists_elem. exists e'. split; [done|]. by apply String.eqb_eq.
  - eexists. split; [done|]. destruct Hs as [H1 H2 H3 H4 H5]. constructor; try done. by apply bool_filter_NoDup.
  - eexists. split; [done|]. unfold set_endpoint_enabled. destruct (endpoint id s); [|done].
    destruct Hs as [H1 H2 H3 H4 H5]. constructor; try done. simpl. by rewrite update_first_map_in.
  - eexists. split; [done|]. unfold set_brutal. destruct (List.find _ (ds_profiles s)) as [p|] eqn:E; [|done].
    pose proof (find_Some_elem _ _ _ E) as [Hp Hid%String.eqb_eq]. subst id.
    destruct (so_settings _ Hs p Hp) as [Hb Hp'].
    destruct setting as [[bw ack]|]; [destruct (enable_brutal bw ack p) as [p'|[]] eqn:Eb; try done|].
    + pose proof (enable_brutal_ok _ _ _ _ Eb) as Hb'. unfold enable_brutal in Eb.
      destruct (negb _); [done|]. destruct (negb _); [done|]. injection Eb as <-.
      by apply (replace_profile_ok s p (with_brutal _ p)); [..|rewrite Hp' at 1].
    + by apply (replace_profile_ok s p (disable_brutal p)); [..|rewrite Hp' at 1].
  - destruct (next_user_precedence (ds_rules s)) as [n|] eqn:En.
    + pose proof (add_user_rule_ok new_ids new_id m a s n Hs Hop En) as H.
      destruct (build_total new_id m a n false) as [[rule|e] Hu]; unfold user in H; rewrite Hu in H.
      * destruct H as (_ & -> & Hok). by eexists.
      * rewrite H. by eexists.
    + unfold add_user_rule. rewrite En. by eexists.
  - destruct (remove_rule_ok new_ids id s Hs) as (s' & r & -> & Hok & _). by eexists.
  - eexists. split; [done|]. destruct Hs. by constructor.
  - unfold opt_out_of_encrypted_dns_block. simpl.
    destruct (apply_consent_ok new_ids (mkConsentState Allow (Some DISCLOSURE_VERSION)) s Hs) as (rules & -> & Hok & _); [done|].
    by eexists.
  - unfold restore_encrypted_dns_block.
    destruct (apply_consent_ok new_ids (restore (ds_consent s)) s Hs) as (rules & -> & Hok & _); [apply (so_disclosed _ Hs)|].
    by eexists.
  - unfold choose_encrypted_dns_block.
    destruct (apply_consent_ok new_ids (acknowledge_disclosure (restore (ds_consent s))) s Hs) as (rules & -> & Hok & _); [done|].
    by eexists.
Qed.

Lemma store_reachable_ok start s : store_ok start → store_reachable start s → store_ok s.
Proof.
  intros Hstart. induction 1 as [|s s' ids op _ IH Hop Hstep]; [done|].
  destruct (step_ok ids op s IH Hop) as (s'' & E & Hok). rewrite E in Hstep. by injection Hstep as <-.
Qed.

(** A saved setting in the place of the profile it is for. *)
Definition restored_profile (saved : list ProfileSettings) (p : ConnectionProfile) : ConnectionProfile :=
  match List.find (fun x => String.eqb (ps_id x) (profile_id p)) saved with
  | Some x =>
      with_brutal ((fun b => mkBrutalOptIn b.1 b.2) <$> ps_brutal x)
        (profile_new (profile_id p) (profile_kind p) (ps_params x))
  | None => p
  end.

Lemma update_first_unique {A B} `{EqDecision B} (g : A → B) (p : A → bool) b f l :
  NoDup (map g l) → (∀ x, p x = true ↔ g x = b) → update_first p f l = map (fun x => if p x then f x else x) l.
Proof.
  intros Hnd Hp. revert Hnd. induction l as [|x l IH]; [done|]. simpl. intros [Hx Hnd]%NoDup_cons.
  destruct (p x) eqn:E; [|by rewrite IH]. f_equal. rewrite <-(map_id l) at 1. apply map_ext_in.
  intros y Hy%list_elem_of_In. destruct (p y) eqn:Ey; [|done]. apply Hp in E, Ey. destruct Hx.
  apply elem_of_map. exists y. split; [congruence|done].
Qed.

Lemma store_profile_ids s : store_ok s → NoDup (map profile_id (ds_profiles s)).
Proof.
  intros Hs. replace (map profile_id (ds_profiles s)) with (map fst (map catalogued (ds_profiles s))) by by rewrite map_map.
  rewrite (so_profiles _ Hs). decided.
Qed.

(** One saved setting. *)
Lemma load_profile_ok `{DebugText} x kind s :
  store_ok s → bundled_kind (ps_id x) = Some kind →
  (∀ b, ps_brutal x = Some b → kind = Hysteria2 ∧ is_current b.2 = true) →
  let ps := map (fun p => if String.eqb (profile_id p) (ps_id x) then restored_profile [x] p else p) (ds_profiles s) in
  load_profile (ds_profiles s) x = Ok ps ∧ store_ok (with_profiles ps s).
Proof.
  intros Hs Hk Hb. cbv zeta.
  assert (∃ slot, List.find (fun p => String.eqb (profile_id p) (ps_id x)) (ds_profiles s) = Some slot ∧
    profile_kind slot = kind ∧ profile_id slot = ps_id x) as (slot & Hfind & Hkind & Hid).
  { unfold bundled_kind in Hk. destruct (List.find _ BUNDLED_PROFILES) as [entry|] eqn:Ee; [|done].
    apply find_Some_elem in Ee as [Hin Hid%String.eqb_eq]. injection Hk as <-.
    assert ((entry_id entry, entry_kind entry) ∈ map catalogued (ds_profiles s)) as (p & [= Ep Ek] & Hp)%elem_of_map.
    { rewrite (so_profiles _ Hs). apply elem_of_map. eauto. }
    destruct (List.find _ (ds_profiles s)) as [slot|] eqn:Es.
    - apply find_Some_elem in Es as [Hslot Hsid%String.eqb_eq]. exists slot. split_and!; [done| |done].
      rewrite Ek. f_equal. apply (NoDup_map_inj profile_id (ds_profiles s)); [by apply store_profile_ids|done..|congruence].
    - pose proof (find_None_elem _ _ Es p Hp) as E. apply String.eqb_neq in E. congruence. }
  set (p := with_brutal ((fun b => mkBrutalOptIn b.1 b.2) <$> ps_brutal x) (profile_new (ps_id x) kind (ps_params x))).
  assert (load_profile (ds_profiles s) x =
    Ok (update_first (fun p => String.eqb (profile_id p) (ps_id x)) (fun _ => p) (ds_profiles s))) as Hload.
  { unfold load_profile. rewrite Hfind, Hkind. destruct (ps_brutal x) as [[bw ack]|] eqn:E; [|done].
    destruct (Hb _ eq_refl) as [-> Hack]. unfold enable_brutal. simpl in Hack |- *. by rewrite Hack. }
  assert (update_first (fun p => String.eqb (profile_id p) (ps_id x)) (fun _ => p) (ds_profiles s) =
    map (fun p => if String.eqb (profile_id p) (ps_id x) then restored_profile [x] p else p) (ds_profiles s)) as E.
  { rewrite (update_first_unique profile_id _ (ps_id x)); [|by apply store_profile_ids|intros y; apply String.eqb_eq].
    apply map_ext_in. intros y Hy%list_elem_of_In. destruct (String.eqb (profile_id y) (ps_id x)) eqn:Ey; [|done].
    unfold restored_profile. simpl. rewrite String.eqb_sym, Ey. apply String.eqb_eq in Ey. unfold p. f_equal.
    assert (y = slot) as ->; [|congruence]. apply find_Some_elem in Hfind as [Hin _].
    apply (NoDup_map_inj profile_id (ds_profiles s)); [by apply store_profile_ids|done..|congruence]. }
  rewrite <-E. split; [done|]. apply (replace_profile_ok s slot p); [done|done|done| |done].
  intros b Hbr. simpl in Hbr. destruct (ps_brutal x) as [b'|]; [|done]. injection Hbr as <-. by apply Hb.
Qed.

Lemma load_profiles_ok `{DebugText} saved s :
  store_ok s → NoDup (map ps_id saved) →
  (∀ x, x ∈ saved → ∃ kind, bundled_kind (ps_id x) = Some kind ∧
    ∀ b, ps_brutal x = Some b → kind = Hysteria2 ∧ is_current b.2 = true) →
  try_fold load_profile (ds_profiles s) saved = Ok (map (restored_profile saved) (ds_profiles s)) ∧
  store_ok (with_profiles (map (restored_profile saved) (ds_profiles s)) s).
Proof.
  revert s. induction saved as [|x saved IH]; intros s Hs Hnd Hsaved.
  { simpl. rewrite map_id. split; [done|]. by destruct s. }
  simpl in Hnd. apply NoDup_cons in Hnd as [Hx Hnd]. destruct (Hsaved x ltac:(set_solver)) as (kind & Hk & Hb).
  pose proof (load_profile_ok x kind s Hs Hk Hb) as [Hload Hok]. set (ps := map _ (ds_profiles s)) in Hload, Hok.
  destruct (IH (with_profiles ps s) Hok Hnd) as [Hrest Hok']; [intros y Hy; apply Hsaved; set_solver|].
  assert (map (restored_profile saved) ps = map (restored_profile (x :: saved)) (ds_profiles s)) as E.
  { unfold ps. rewrite map_map. apply map_ext. intros p. unfold restored_profile at 2 3. simpl.
    rewrite (String.eqb_sym (profile_id p)). destruct (String.eqb (ps_id x) (profile_id p)) eqn:Ex; [|done].
    unfold restored_profile. simpl. rewrite find_all_false; [done|]. intros y Hy. apply not_true_iff_false.
    intros Ey%String.eqb_eq. apply String.eqb_eq in Ex. destruct Hx. apply elem_of_map. exists y. split; [congruence|done]. }
  rewrite <-E. split; [|done]. cbn [try_fold]. rewrite Hload. apply Hrest.
Qed.

Lemma add_endpoint_fresh e s :
  endpoint_label e ∉ map endpoint_label (ds_endpoints s) →
  add_endpoint e s = (with_endpoints (ds_endpoints s ++ [e]) s, Ok ()).
Proof.
  intros Hl. unfold add_endpoint. destruct (existsb _ _) eqn:E; [|done].
  apply existsb_exists_elem in E as (e' & He' & El%String.eqb_eq). destruct Hl. apply elem_of_map. eauto.
Qed.

Lemma load_endpoints_ok `{DebugText} es s :
  store_ok s → ds_endpoints s = [] → NoDup (map endpoint_label es) →
  try_fold (fun s e => loading (add_endpoint e s)) s es = Ok (with_endpoints es s) ∧ store_ok (with_endpoints es s).
Proof.
  intros Hs Hnil Hnd. split.
  - assert (∀ done todo s, es = done ++ todo → ds_endpoints s = done →
      try_fold (fun s e => loading (add_endpoint e s)) s todo = Ok (with_endpoints es s)) as Hloop.
    { intros done todo. revert done. induction todo as [|e todo IH]; intros done s' -> Hd; simpl.
      - rewrite app_nil_r, <-Hd. by destruct s'.
      - rewrite add_endpoint_fresh.
        + simpl. rewrite (IH (done ++ [e]) (with_endpoints (ds_endpoints s' ++ [e]) s')); [done|by rewrite <-app_assoc|].
          simpl. by rewrite Hd.
        + rewrite Hd. rewrite map_app in Hnd. apply NoDup_app in Hnd as (_ & Hnd & _). intros Hl. apply (Hnd _ Hl).
          simpl. set_solver. }
    by apply (Hloop []).
  - destruct Hs as [H1 H2 H3 H4 H5]. by constructor.
Qed.

(** ** What a rule set decides is its shape *)

Lemma unnamed_matches `{ToLowercase} r r' flow : unnamed r = unnamed r' →
  matches r flow = matches r' flow ∧ action r = action r' ∧ reliability r = reliability r' ∧ precedence r = precedence r'.
Proof. intros [= Hm Ha Hp]. unfold matches, reliability. by rewrite Hm, Ha, Hp. Qed.

(** Each rule of one set is in the other, under some id. *)
Lemma shaped_counterpart p rules rules' r :
  rules_shaped p rules → rules_shaped p rules' →
  List.filter by_person rules = List.filter by_person rules' →
  r ∈ rules → ∃ r', r' ∈ rules' ∧ unnamed r' = unnamed r.
Proof.
  intros Hs Hs' Hsame Hr. destruct (is_builtin r) eqn:Eb.
  - pose proof (shaped_builtin _ _ Hs r Hr Eb) as (r' & ? & _ & ?)%(shaped_has _ _ Hs'). eauto.
  - exists r. split; [|done]. assert (r ∈ List.filter by_person rules') as [? _]%elem_of_filter_bool; [|done].
    rewrite <-Hsame. apply elem_of_filter_bool. split; [done|]. unfold by_person. by rewrite Eb.
Qed.

Lemma shaped_decides `{ToLowercase} p rules rules' flow :
  rules_shaped p rules → rules_shaped p rules' →
  List.filter by_person rules = List.filter by_person rules' →
  decided_action (evaluate rules flow) = decided_action (evaluate rules' flow) ∧
  decided_reliability (evaluate rules flow) = decided_reliability (evaluate rules' flow).
Proof.
  intros Hs Hs' Hsame. destruct (rule_decision_cases rules flow) as [(r & Hr & Hm & -> & Hle)|[-> Hn]].
  - destruct (shaped_counterpart _ _ _ r Hs Hs' Hsame Hr) as (r' & Hr' & Hu).
    destruct (unnamed_matches r' r flow Hu) as (Hm' & Ha & Hrel & Hp). rewrite (evaluate_least rules' flow r').
    + simpl. by rewrite Ha, Hrel.
    + done.
    + by rewrite Hm'.
    + intros x Hx Hmx. destruct (shaped_counterpart _ _ _ x Hs' Hs (eq_sym Hsame) Hx) as (x' & Hx' & Hux).
      destruct (unnamed_matches x' x flow Hux) as (Hmx' & _ & _ & Hpx). rewrite <-Hmx' in Hmx.
      specialize (Hle x' Hx' Hmx). destruct (decide (precedence x = precedence r')) as [E|E]; [left|right; lia].
      apply (NoDup_map_inj precedence rules'); [by eapply shaped_numbers|done..].
  - destruct (rule_decision_cases rules' flow) as [(r' & Hr' & Hm' & _)|[-> _]]; [|done].
    destruct (shaped_counterpart _ _ _ r' Hs' Hs (eq_sym Hsame) Hr') as (r & Hr & Hu).
    destruct (unnamed_matches r r' flow Hu) as (Hm & _). rewrite <-Hm, Hn in Hm'; done.
Qed.

(** DNS is captured by any such set. *)
Lemma shaped_captures_dns `{ToLowercase} p rules flow :
  rules_shaped p rules → flow_port flow = 53 → decided_action (evaluate rules flow) = Capture.
Proof.
  intros Hs Hport. destruct (dns_capture_least _ (shaped_dns _ _ Hs)) as (c & Hc & Hm & Ha & Hle).
  rewrite (evaluate_least rules flow c); [done|done|unfold matches; by rewrite Hm, Hport|].
  intros r Hr _. specialize (Hle r Hr). destruct (decide (precedence r = precedence c)) as [E|E]; [left|right; lia].
  apply (NoDup_map_inj precedence rules); [by eapply shaped_numbers|done..].
Qed.

(** ** What a saved configuration becomes *)

Section Loaded.
Context `{UuidText, DebugText, ConfigText, !UuidLaws}.

(** A configuration that was read is never refused by the store. *)
Lemma from_loaded_ok new_ids cfg :
  config_valid cfg → ∃ s, from_loaded new_ids cfg = Some (Ok s) ∧ store_ok s ∧
    ds_endpoints s = lc_endpoints cfg ∧
    (∃ s0, seeded (new_ids 0%nat) = Some s0 ∧ ds_profiles s = map (restored_profile (lc_profiles cfg)) (ds_profiles s0)) ∧
    ds_consent s = default consent_new (lc_encrypted_dns cfg) ∧
    List.filter by_person (ds_rules s) = lc_rules cfg.
Proof.
  intros Hcfg. unfold from_loaded. destruct (seeded_ok (new_ids 0%nat)) as (s0 & E & Hs0 & He & Hc & Hr). rewrite E. cbn [mbind option_bind].
  destruct (load_profiles_ok (lc_profiles cfg) s0 Hs0 (cv_profiles _ Hcfg)) as [-> Hs1].
  { intros x Hx. destruct (cv_settings _ Hcfg x Hx) as (kind & Hk & Hb). exists kind. split; [done|].
    intros b Hbr. by destruct (Hb b Hbr) as (? & ? & _). }
  cbn [and_then]. set (s1 := with_profiles _ s0) in *.
  destruct (load_endpoints_ok (lc_endpoints cfg) s1 Hs1 He (cv_labels _ Hcfg)) as [-> Hs2].
  cbn [and_then]. set (s2 := with_endpoints _ s1) in *.
  assert (∃ rules, match lc_encrypted_dns cfg with
      | Some saved => step ← apply_consent (new_ids 1%nat) saved s2; Some (loading step)
      | None => Some (Ok s2) end = Some (Ok (mkDomainState (ds_endpoints s2) (ds_profiles s2) rules
        (default consent_new (lc_encrypted_dns cfg)))) ∧
      store_ok (mkDomainState (ds_endpoints s2) (ds_profiles s2) rules (default consent_new (lc_encrypted_dns cfg))) ∧
      List.filter by_person rules = []) as (rules & -> & Hs3 & Hnone).
  { destruct (lc_encrypted_dns cfg) as [saved|] eqn:Ed.
    - destruct (apply_consent_ok (new_ids 1%nat) saved s2 Hs2) as (rules & -> & Hok & Hp); [by apply (cv_consent _ Hcfg)|].
      exists rules. split_and!; [done|done|]. by rewrite Hp.
    - exists (ds_rules s0). simpl. rewrite <-Hc. by destruct s0. }
  cbn [and_then]. set (s3 := mkDomainState _ _ rules _) in *.
  destruct (lc_rules cfg) as [|r rs] eqn:Er.
  { exists s3. split_and!; try done. by exists s0. }
  assert (rules_shaped (policy (ds_consent s3)) (ds_rules s3 ++ r :: rs)) as Hshape.
  { apply add_shaped; [by apply so_rules| |].
    - intros u Hu. rewrite <-Er in Hu. destruct (cv_rules _ Hcfg u Hu) as (? & ? & ? & ? & ? & ? & _). by constructor.
    - change (ds_rules s3) with rules. rewrite Hnone, <-Er. apply (cv_precedences _ Hcfg). }
  unfold replace_rules. rewrite (proj2 (check_rules_valid _ _ _) (shaped_valid (new_ids 2%nat) _ _ Hshape)).
  eexists. split; [done|]. split; [by apply with_rules_ok|]. split_and!; [done|by exists s0|done|].
  cbn [with_rules ds_rules s3]. rewrite List.filter_app, Hnone, <-Er. apply filter_all.
  intros u Hu. apply negb_true_iff. by destruct (cv_rules _ Hcfg u Hu) as (_ & ? & _).
Qed.

(** A profile that has only had its settings changed is the one its saved settings restore. *)
Lemma restored_profiles s s0 :
  store_ok s → store_ok s0 → map (restored_profile (map settings_of (ds_profiles s))) (ds_profiles s0) = ds_profiles s.
Proof.
  intros Hs Hs0. pose proof (store_profile_ids _ Hs) as Hnd. pose proof (so_settings _ Hs) as Hset.
  assert (map catalogued (ds_profiles s0) = map catalogued (ds_profiles s)) as E by by rewrite (so_profiles _ Hs), (so_profiles _ Hs0).
  revert E Hnd Hset. generalize (ds_profiles s). intros ps E Hnd Hset.
  assert (∀ pre todo todo0, ps = pre ++ todo → map catalogued todo0 = map catalogued todo →
    map (restored_profile (map settings_of ps)) todo0 = todo) as H3; [|by apply (H3 [])].
  intros pre todo. revert pre. induction todo as [|p todo IH]; intros pre [|p0 todo0] Eps; [done..|].
  intros [= Eid Ekind Erest]. simpl. rewrite (IH (pre ++ [p]) todo0); [|by rewrite <-app_assoc|done]. f_equal.
  unfold restored_profile. destruct (List.find _ _) as [x|] eqn:Ex.
  - apply find_Some_elem in Ex as [(p' & -> & Hp')%elem_of_map Hid%String.eqb_eq]. simpl in *.
    assert (p' = p) as ->.
    { apply (NoDup_map_inj profile_id ps); [done|done|rewrite Eps; set_solver|congruence]. }
    rewrite Eid, Ekind. destruct (Hset p Hp') as [_ Hp]. etrans; [|symmetry; exact Hp]. f_equal.
    by destruct (profile_brutal p) as [[bw ack]|].
  - exfalso. assert (settings_of p ∈ map settings_of ps) as Hin by (apply elem_of_map; exists p; rewrite Eps; set_solver).
    pose proof (find_None_elem _ _ Ex _ Hin) as Hne. apply String.eqb_neq in Hne. by simpl in Hne.
Qed.

(** The rules that are saved are a person's. *)
Lemma saved_rules s : store_ok s →
  List.filter (fun r => bool_decide (is_Some (Persist.rule_wire r))) (ds_rules s) = List.filter by_person (ds_rules s).
Proof.
  intros Hs. apply filter_ext_elem. intros r Hr. unfold by_person, Persist.rule_wire. destruct (is_builtin r) eqn:Eb; [done|]. simpl.
  destruct (rsh_personal _ _ (so_rules _ Hs) r Hr Eb) as [_ Ha [Hm Hm'] _ _].
  destruct (matcher r), Ha as [-> | ->]; done.
Qed.

(** What the writer makes of a store. *)
Lemma saved_store_reads_back s bytes :
  let chosen := if bool_decide (ds_consent s = consent_new) then None else Some (ds_consent s) in
  let w := to_wire (ds_endpoints s) chosen (profile_wires (ds_profiles s)) (ds_rules s) in
  store_ok s → wire_from_slice (to_vec_pretty w) = Ok w → to_config_bytes s = Some (Ok bytes) →
  decode bytes = Some (Ok {|
    lc_endpoints := map unmeasured (ds_endpoints s);
    lc_profiles := map settings_of (ds_profiles s);
    lc_encrypted_dns := chosen;
    lc_rules := List.filter by_person (ds_rules s);
    lc_notes := [] |}).
Proof.
  intros chosen w Hs Htext Hsaved. rewrite <-saved_rules by done. apply encoded_reads_back.
  - intros p b Hp Hb. destruct (so_settings _ Hs p Hp) as [Hok _]. by apply Hok in Hb as [_ ?].
  - intros c Hc. unfold chosen in Hc. case_bool_decide; [done|]. injection Hc as <-. apply (so_disclosed _ Hs).
  - intros r c Hr Hm. destruct (is_builtin r) eqn:Eb; [|by apply (rsh_personal _ _ (so_rules _ Hs) r Hr Eb)].
    pose proof (shaped_builtin _ _ (so_rules _ Hs) r Hr Eb) as Hx.
    unfold unnamed in Hx. rewrite Hm in Hx. by apply product_ranges in Hx.
  - done.
  - done.
Qed.

(** A restart from a saved store. *)
Lemma restarted s bytes new_ids :
  let chosen := if bool_decide (ds_consent s = consent_new) then None else Some (ds_consent s) in
  let w := to_wire (ds_endpoints s) chosen (profile_wires (ds_profiles s)) (ds_rules s) in
  store_ok s → wire_from_slice (to_vec_pretty w) = Ok w → to_config_bytes s = Some (Ok bytes) →
  ∃ cfg s', decode bytes = Some (Ok cfg) ∧ lc_notes cfg = [] ∧ from_loaded new_ids cfg = Some (Ok s') ∧ store_ok s' ∧
    ds_endpoints s' = map unmeasured (ds_endpoints s) ∧ ds_profiles s' = ds_profiles s ∧
    ds_consent s' = ds_consent s ∧ List.filter by_person (ds_rules s') = List.filter by_person (ds_rules s).
Proof.
  intros chosen w Hs Htext Hsaved. pose proof (saved_store_reads_back s bytes Hs Htext Hsaved) as Hread.
  destruct (decode_valid _ _ Hread) as [Hvalid _]. eexists.
  destruct (from_loaded_ok new_ids _ Hvalid) as (s' & Hload & Hok & He & (s0 & Hs0 & Hp) & Hc & Hr).
  exists s'. split_and!; [done|done|done|done|done| | |done].
  - destruct (seeded_ok (new_ids 0%nat)) as (s0' & Hs0' & Hok0 & _). rewrite Hs0 in Hs0'. injection Hs0' as <-.
    rewrite Hp. by apply restored_profiles.
  - rewrite Hc. simpl. unfold chosen. by case_bool_decide.
Qed.
End Loaded.

(** * Properties *)

(** Whatever the saved configuration holds, the service starts: with what it says when it can be read (a
    configuration the reader accepts is never refused by the store), with nothing but the product's own when there is
    none, and with that and the reason when it is refused; and in each case the store is sound. *)
Theorem start_up_is_sound `{UuidText, DebugText, ConfigText, !UuidLaws, StateFile F} (file : F) new_ids :
  ∃ read sc, load file = Some read ∧ from_load_result new_ids read = Some sc ∧ store_ok (sc_state sc) ∧
    match read with
    | Err e => sc_refusal sc = Some (persist_error_to_string e) ∧ seeded (new_ids 3%nat) = Some (sc_state sc)
    | Ok None => sc_refusal sc = None ∧ seeded (new_ids 3%nat) = Some (sc_state sc)
    | Ok (Some cfg) =>
        sc_refusal sc = None ∧ sc_notes sc = lc_notes cfg ∧ ds_endpoints (sc_state sc) = lc_endpoints cfg ∧
        ds_consent (sc_state sc) = default consent_new (lc_encrypted_dns cfg) ∧
        List.filter by_person (ds_rules (sc_state sc)) = lc_rules cfg
    end.
Proof.
  destruct (seeded_ok (new_ids 3%nat)) as (s & Hs & Hok & _).
  assert (∃ read, load file = Some read ∧ ∀ cfg, read = Ok (Some cfg) → config_valid cfg) as (read & Hread & Hvalid).
  { unfold load. destruct (file_read file) as [[bytes|]|e]; [|by eexists..].
    destruct (decode_total bytes) as [r E]. rewrite E. simpl. eexists. split; [done|].
    destruct r as [cfg|]; [|done]. intros cfg' [= <-]. by apply decode_valid in E as [? _]. }
  exists read. unfold from_load_result. destruct read as [[cfg|]|e]; cbv zeta.
  - destruct (from_loaded_ok new_ids cfg (Hvalid cfg eq_refl)) as (s' & -> & Hok' & He & _ & Hc & Hr).
    eexists. split_and!; done.
  - rewrite Hs. eexists. split_and!; done.
  - rewrite Hs. eexists. split_and!; done.
Qed.

(** C14. The store never leaves its invariants: from a sound start, through any changes a client can ask for, every
    operation returns, and in every store there is on the way each check of the rule set passes, DNS is captured,
    no two endpoints share a name, and the profiles are the catalogue's with Brutal only where it may be. *)
Theorem store_stays_sound `{ToLowercase} start s flow
    (Hstart : store_ok start) (Hreach : store_reachable start s) (Hport : flow_port flow = 53) :
  (∀ new_ids, valid new_ids (policy (ds_consent s)) (ds_rules s)) ∧
  decided_action (evaluate (ds_rules s) flow) = Capture ∧
  NoDup (map endpoint_label (ds_endpoints s)) ∧
  map profile_id (ds_profiles s) = map entry_id BUNDLED_PROFILES ∧
  (∀ p b, p ∈ ds_profiles s → profile_brutal p = Some b → profile_kind p = Hysteria2) ∧
  (∀ new_ids op, op_ok op → is_Some (store_step new_ids op s)).
Proof.
  pose proof (store_reachable_ok _ _ Hstart Hreach) as Hs. split_and!.
  - intros new_ids. by apply shaped_valid, so_rules.
  - by eapply shaped_captures_dns; [apply so_rules|].
  - by apply so_labels.
  - pose proof (f_equal (map fst) (so_profiles _ Hs)) as E. by rewrite !map_map in E.
  - intros p b Hp Hb. destruct (so_settings _ Hs p Hp) as [Hok _]. by apply Hok in Hb as [? _].
  - intros new_ids op Hop. destruct (step_ok new_ids op s Hs Hop) as (s' & -> & _). by eexists.
Qed.

(** What editing the rules does. A rule a client may make is added at the first free number from 200, after all
    others, and is refused only for its own pattern; removing takes out just the rule with the id, never one of the
    product's; choosing about encrypted DNS always works and changes nothing of a person's rules; and after a refusal
    the store is as it was. *)
Theorem rules_are_edited_safely new_ids s (Hs : store_ok s) :
  (∀ new_id m a n rule, askable m a → next_user_precedence (ds_rules s) = Some n →
     user new_id m a n = Some (Ok rule) →
     add_user_rule new_ids new_id m a s = Some (with_rules (ds_rules s ++ [rule]) s, Ok new_id) ∧
     USER_RULES_START ≤ precedence rule ∧ ∀ r, r ∈ ds_rules s → precedence r < precedence rule) ∧
  (∀ id s' found, remove_rule new_ids id s = Some (s', Ok found) →
     s' = with_rules (List.filter (fun r => negb (rule_id r =? id)) (ds_rules s)) s ∧
     List.filter is_builtin (ds_rules s') = List.filter is_builtin (ds_rules s)) ∧
  (∀ id, (∃ r, r ∈ ds_rules s ∧ is_builtin r = true ∧ rule_id r = id) →
     ∃ e, remove_rule new_ids id s = Some (s, Err e)) ∧
  (∀ new_id m a s' e, add_user_rule new_ids new_id m a s = Some (s', Err e) → s' = s) ∧
  (∃ s' why, opt_out_of_encrypted_dns_block new_ids s = Some (s', Ok why) ∧ policy (ds_consent s') = Allow ∧
     List.filter by_person (ds_rules s') = List.filter by_person (ds_rules s)) ∧
  (∃ s', choose_encrypted_dns_block new_ids s = Some (s', Ok ()) ∧ policy (ds_consent s') = Block ∧
     List.filter by_person (ds_rules s') = List.filter by_person (ds_rules s)).
Proof.
  split_and!.
  - intros new_id m a n rule Ha Hn Hu. pose proof (add_user_rule_ok new_ids new_id m a s n Hs Ha Hn) as H.
    rewrite Hu in H. destruct H as (-> & -> & _). apply next_user_precedence_spec in Hn as [? ?]. by split_and!.
  - intros id s' found E. destruct (remove_rule_ok new_ids id s Hs) as (s'' & r & E' & _ & Hr).
    rewrite E in E'. injection E' as <- <-. destruct Hr as (-> & _ & Hb).
    split; [done|]. cbn [with_rules ds_rules]. rewrite filter_filter. apply filter_ext_elem. intros r Hr.
    destruct (is_builtin r) eqn:Eb; [|done]. simpl. by apply negb_true_iff, Z.eqb_neq, Hb.
  - intros id (r & Hr & Hb & Hid). destruct (remove_rule_ok new_ids id s Hs) as (s' & [found|e] & E & _ & Hcase).
    + destruct Hcase as (_ & _ & Hno). by destruct (Hno r Hr Hb).
    + destruct Hcase as [-> _]. by exists e.
  - intros new_id m a s' e. unfold add_user_rule. destruct (next_user_precedence _) as [n|]; [|by intros [= <- _]].
    destruct (user _ _ _ _) as [[rule|e']|]; [|by intros [= <- _]|done]. unfold add_rule. cbn [mbind option_bind].
    destruct (replace_rules_cases new_ids (ds_rules s ++ [rule]) s) as (s1 & r & -> & [(-> & -> & _)|(-> & Hr & _)]); [done|].
    by destruct r; intros [= <- _].
  - unfold opt_out_of_encrypted_dns_block, opt_out. cbv zeta.
    destruct (apply_consent_ok new_ids (mkConsentState Allow (Some DISCLOSURE_VERSION)) s Hs) as (rules & -> & _ & Hp); [done|].
    eexists _, _. split_and!; done.
  - unfold choose_encrypted_dns_block.
    destruct (apply_consent_ok new_ids (acknowledge_disclosure (restore (ds_consent s))) s Hs) as (rules & -> & _ & Hp); [done|].
    eexists. split_and!; done.
Qed.

(** C16. A restart gives the store back: what was saved is read, and made into a store with the same endpoints less
    what was measured of them, the same profiles, the same choice and the same rules of a person; and under it every
    connection is decided as before. *)
Theorem restart_restores_store `{UuidText, DebugText, ConfigText, !UuidLaws, ToLowercase} s bytes new_ids
    (Hs : store_ok s)
    (Htext : let chosen := if bool_decide (ds_consent s = consent_new) then None else Some (ds_consent s) in
       let w := to_wire (ds_endpoints s) chosen (profile_wires (ds_profiles s)) (ds_rules s) in
       wire_from_slice (to_vec_pretty w) = Ok w)
    (Hsaved : to_config_bytes s = Some (Ok bytes)) :
  ∃ read s', load (Some bytes) = Some (Ok read) ∧
    from_load_result new_ids (Ok read) = Some (mkStartupConfig s' None []) ∧
    ds_endpoints s' = map unmeasured (ds_endpoints s) ∧ ds_profiles s' = ds_profiles s ∧
    ds_consent s' = ds_consent s ∧ List.filter by_person (ds_rules s') = List.filter by_person (ds_rules s) ∧
    ∀ flow, decided_action (evaluate (ds_rules s') flow) = decided_action (evaluate (ds_rules s) flow).
Proof.
  destruct (restarted s bytes new_ids Hs Htext Hsaved) as (cfg & s' & Hread & Hnotes & Hload & Hok & He & Hp & Hc & Hr).
  exists (Some cfg), s'. unfold load, file_read, MemoryStateFile. rewrite Hread. split; [done|].
  unfold from_load_result. rewrite Hload. cbn [mbind option_bind]. rewrite Hnotes. split_and!; [done..|].
  intros flow. eapply shaped_decides; [by apply so_rules| |done]. rewrite Hc. by apply so_rules.
Qed.

(** * Witnesses *)

Import ToyText.

Module StoreDemo.
Import SavedDemo.
Definition ids (_ n : nat) : RuleId := 100 + Z.of_nat n.
Definition empty : DomainState := mkDomainState [] [] [] consent_new.

(** The store that the saved configuration of the reader's example makes. *)
Definition store : DomainState :=
  match decode "saved" with
  | Some (Ok cfg) => match from_loaded ids cfg with Some (Ok s) => s | _ => empty end
  | _ => empty
  end.

Lemma store_fits : store_ok store.
Proof.
  unfold store. destruct (decode "saved") as [[cfg|]|] eqn:E; [|vm_compute in E; discriminate E..].
  destruct (decode_valid _ _ E) as [Hcfg _]. destruct (from_loaded_ok ids cfg Hcfg) as (s & -> & Hs & _). exact Hs.
Qed.

Definition saved_wire : Wire :=
  to_wire (ds_endpoints store) (Some (ds_consent store)) (profile_wires (ds_profiles store)) (ds_rules store).
#[export] Instance store_text : ConfigText := {|
  to_vec_pretty _ := "store";
  wire_from_slice s := if String.eqb s "store" then Ok saved_wire else Err "eof";
  version_from_slice s := if String.eqb s "store" then Ok 1 else Err "eof";
|}.
#[export] Instance lower : ToLowercase := fun s => s.
End StoreDemo.
Import StoreDemo.

Lemma start_up_is_sound_witness :
  ∃ sc, load (Some "store") ≫= from_load_result ids = Some sc ∧ store_ok (sc_state sc) ∧ sc_refusal sc = None.
Proof.
  destruct (start_up_is_sound (Some "store") ids) as (read & sc & E & Hsc & Hok & Hcase).
  exists sc. rewrite E. split; [exact Hsc|]. split; [exact Hok|]. vm_compute in E. injection E as <-. exact (proj1 Hcase).
Defined.

Lemma store_stays_sound_witness :
  let dns := mkFlow (Address (V4 134744072)) 53 TransportUdp None in
  let rule := StoreAddRule 9 (DomainSuffix "example.com") Bypass in
  ∃ s, store_step (ids 4%nat) rule store = Some s ∧ length (ds_rules s) = S (length (ds_rules store)) ∧
    decided_action (evaluate (ds_rules s) dns) = Capture.
Proof.
  intros dns rule. destruct (store_step (ids 4%nat) rule store) as [s|] eqn:E; [|vm_compute in E; discriminate E].
  exists s. split; [reflexivity|]. split; [vm_compute in E; injection E as <-; reflexivity|].
  assert (store_reachable store s) as Hr.
  { refine (store_changed _ _ _ _ _ (store_started _) _ E). split; [right; reflexivity|].
    split; [discriminate|]. split; discriminate. }
  exact (proj1 (proj2 (store_stays_sound store s dns store_fits Hr eq_refl))).
Defined.

Lemma rules_are_edited_safely_witness :
  ∃ s', choose_encrypted_dns_block (ids 5%nat) store = Some (s', Ok ()) ∧ policy (ds_consent s') = Block.
Proof.
  destruct (rules_are_edited_safely (ids 5%nat) store store_fits) as (_ & _ & _ & _ & _ & s' & E & Hp & _).
  exists s'. split; [exact E|exact Hp].
Defined.

Lemma restart_restores_store_witness :
  ∃ s', ds_endpoints s' = ds_endpoints store ∧ ds_profiles s' = ds_profiles store ∧ length (ds_endpoints s') = 1%nat.
Proof.
  destruct (restart_restores_store store "store" ids store_fits) as (read & s' & _ & _ & He & Hp & _).
  - vm_compute. reflexivity.
  - vm_compute. reflexivity.
  - exists s'. rewrite He. split; [reflexivity|]. split; [exact Hp|reflexivity].
Defined.
