(* ===== verification/Decimal.v ===== *)
(** Decimal numbers in text: [i64::from_str] beside the unsigned readers of [Rule], the text [{}] gives a number
    ([pretty]), and that they agree; the lines of a text. *)

From Stdlib Require Import Ascii.
From S2P Require Import Prelude Text IpText Profile Rule.

(** [i64::from_str]: a sign perhaps, then digits. *)
Definition parse_i64 (s : string) : option Z :=
  match strip_prefix "-" s with
  | Some digits =>
      match bytes digits with [] => None | l => n ← parse_digits (2 ^ 63) 0 l; Some (- n) end
  | None => parse_uint (2 ^ 63 - 1) s
  end.

Definition newline : string := of_bytes [10].

(** [str::lines]: the text between line feeds, each without the carriage return before its line feed; what follows
    the last line feed is a line when it is not empty. *)
Fixpoint text_lines (parts : list string) : list string :=
  match parts with
  | [] => []
  | [last] => if str_is_empty last then [] else [last]
  | p :: parts => default p (strip_suffix (of_bytes [13]) p) :: text_lines parts
  end.
Definition str_lines (s : string) : list string := text_lines (split (byte_of 10) s).

(** ** What a number's text is made of *)

Lemma pretty_char_digit d : (d < 10)%N → to_digit 10 (pretty_N_char d) = Some (Z.of_N d).
Proof.
  intros Hd. assert (0 ≤ Z.of_N d < 10) as Hz by lia.
  rewrite <-(N2Z.id d). rewrite !N2Z.id at 2.
  apply (below_cases (fun z => to_digit 10 (pretty_N_char (Z.to_N z)) = Some z) 10); [vm_compute; done|done].
Qed.

Lemma pretty_N_eq n : (n ≠ 0)%N → pretty n = pretty_N_go n "".
Proof. intros Hn. unfold pretty, pretty_N. by destruct (decide _). Qed.

Lemma parse_digits_go limit n s :
  Z.of_N n ≤ limit → parse_digits limit 0 (bytes (pretty_N_go n s)) = parse_digits limit (Z.of_N n) (bytes s).
Proof.
  revert s. induction (N.lt_wf_0 n) as [n _ IH]; intros s Hn.
  destruct (decide (n = 0)%N) as [->|Hz]; [by rewrite pretty_N_go_0|].
  rewrite pretty_N_go_step by (by apply N.neq_0_lt_0).
  assert (Z.of_N n = Z.of_N (n / 10) * 10 + Z.of_N (n mod 10)) as E by (pose proof (N.div_mod n 10 ltac:(lia)); lia).
  assert (n mod 10 < 10)%N as Hm by (apply N.mod_lt; lia).
  rewrite IH; [|apply N.div_lt; [by apply N.neq_0_lt_0|done]|clear -E Hn; revert E; generalize (n / 10)%N (n mod 10)%N; lia].
  change (bytes (String (pretty_N_char (n mod 10)) s)) with (pretty_N_char (n mod 10) :: bytes s).
  cbn [parse_digits]. rewrite pretty_char_digit by done. cbn [mbind option_bind]. rewrite <-E.
  by rewrite (proj2 (Z.ltb_ge _ _)) by lia.
Qed.

Lemma digits_go (P : Ascii.ascii → Prop) n s :
  (∀ d, P (pretty_N_char d)) → Forall P (bytes s) → Forall P (bytes (pretty_N_go n s)).
Proof.
  intros HP. revert s. induction (N.lt_wf_0 n) as [n _ IH]; intros s Hs.
  destruct (decide (n = 0)%N) as [->|Hz]; [by rewrite pretty_N_go_0|].
  rewrite pretty_N_go_step by (by apply N.neq_0_lt_0). apply IH; [apply N.div_lt; [by apply N.neq_0_lt_0|done]|]. by constructor.
Qed.

Lemma bytes_nil s : bytes s = [] → s = EmptyString.
Proof. by destruct s. Qed.

(** The text of a number holds digits only, after a minus sign perhaps, and at least one. *)
Definition decimal_byte (b : Ascii.ascii) : Prop := is_Some (to_digit 10 b).

Lemma pretty_char_decimal d : decimal_byte (pretty_N_char d).
Proof. unfold pretty_N_char, decimal_byte. repeat case_match; vm_compute; eauto. Qed.

Lemma pretty_nonneg_decimal (n : Z) : 0 ≤ n → Forall decimal_byte (bytes (pretty n)) ∧ pretty n ≠ EmptyString.
Proof.
  intros Hn. destruct n as [|p|p]; [|change (pretty (Z.pos p)) with (pretty (N.pos p))|lia].
  - split; [|done]. change (bytes (pretty 0)) with ["0"%char]. repeat constructor. vm_compute. eauto.
  - rewrite pretty_N_eq by done. split.
    + apply digits_go; [apply pretty_char_decimal|constructor].
    + intros E. pose proof (parse_digits_go (Z.pos p) (N.pos p) "" ltac:(done)) as H. rewrite E in H.
      simpl in H. injection H. done.
Qed.

(** ** Numbers read back *)

Lemma parse_uint_digits limit s :
  Forall decimal_byte (bytes s) → s ≠ EmptyString → parse_uint limit s = parse_digits limit 0 (bytes s).
Proof.
  intros Hs Hne. unfold parse_uint. destruct (bytes s) as [|c l] eqn:E; [by apply bytes_nil in E|].
  destruct (Ascii.eqb_spec c "+"%char) as [->|]; [|done].
  apply Forall_cons_1 in Hs as [[d Hd] _]. vm_compute in Hd. done.
Qed.

Lemma parse_uint_pretty limit n : 0 ≤ n ≤ limit → parse_uint limit (pretty n) = Some n.
Proof.
  intros Hn. destruct (pretty_nonneg_decimal n) as [Hd Hne]; [lia|].
  rewrite parse_uint_digits by done. destruct n as [|p|p]; [|change (pretty (Z.pos p)) with (pretty (N.pos p))|lia].
  - change (bytes (pretty 0)) with ["0"%char]. cbn [parse_digits]. change (to_digit 10 "0") with (Some 0).
    cbn [mbind option_bind]. by rewrite (proj2 (Z.ltb_ge _ _)) by lia.
  - rewrite pretty_N_eq by done. by rewrite parse_digits_go by lia.
Qed.

Lemma parse_i64_pretty n : - 2 ^ 63 ≤ n < 2 ^ 63 → parse_i64 (pretty n) = Some n.
Proof.
  intros Hn. unfold parse_i64. destruct (decide (0 ≤ n)) as [Hz|Hz].
  - destruct (strip_prefix "-" (pretty n)) as [t|] eqn:E; [|apply parse_uint_pretty; lia].
    apply strip_prefix_spec in E. destruct (pretty_nonneg_decimal n) as [Hd _]; [lia|]. rewrite E in Hd.
    apply Forall_cons_1 in Hd as [[d Hd] _]. vm_compute in Hd. done.
  - destruct n as [|p|p]; [lia..|]. change (pretty (Z.neg p)) with ("-" +:+ pretty (Z.pos p)).
    rewrite strip_prefix_app. destruct (pretty_nonneg_decimal (Z.pos p)) as [Hd Hne]; [lia|].
    pose proof (parse_uint_pretty (2 ^ 63) (Z.pos p) ltac:(lia)) as Hp. rewrite parse_uint_digits in Hp by done.
    destruct (bytes (pretty (Z.pos p))) as [|c l] eqn:E; [by apply bytes_nil in E|]. by rewrite Hp.
Qed.

(** ** Lines *)

Definition one_line (s : string) : Prop := byte_of 10 ∉ bytes s.

Lemma one_line_app a b : one_line (a +:+ b) ↔ one_line a ∧ one_line b.
Proof. unfold one_line. rewrite bytes_app. set_solver. Qed.

Lemma one_line_nil : one_line EmptyString.
Proof. unfold one_line. simpl. set_solver. Qed.

Lemma one_line_decimal s : Forall decimal_byte (bytes s) → one_line s.
Proof. intros Hs Hin. rewrite Forall_forall in Hs. destruct (Hs _ Hin) as [d Hd]. vm_compute in Hd. done. Qed.

Lemma one_line_pretty (n : Z) : 0 ≤ n → one_line (pretty n).
Proof. intros Hn. by apply one_line_decimal, pretty_nonneg_decimal. Qed.

Lemma split_bytes_app c a b : c ∉ a → split_bytes c (a ++ c :: b) = a :: split_bytes c b.
Proof.
  induction a as [|x a IH]; intros Ha; simpl; [by rewrite Ascii.eqb_refl|].
  apply not_elem_of_cons in Ha as [Hx Ha]. destruct (Ascii.eqb_spec x c); [by subst|]. by rewrite (IH Ha).
Qed.

Lemma split_line a b : one_line a → split (byte_of 10) (a +:+ newline +:+ b) = a :: split (byte_of 10) b.
Proof.
  intros Ha. unfold split. rewrite !bytes_app. change (bytes newline) with [byte_of 10]. simpl app.
  rewrite (split_bytes_app _ _ _ Ha). simpl. by rewrite of_ascii_bytes.
Qed.

Lemma split_nonempty c s : split c s ≠ [].
Proof.
  unfold split. destruct (bytes s) as [|x l]; [done|]. simpl. destruct (Ascii.eqb x c); [done|].
  by destruct (split_bytes c l).
Qed.

Lemma str_lines_cons a b :
  one_line a → strip_suffix (of_bytes [13]) a = None → str_lines (a +:+ newline +:+ b) = a :: str_lines b.
Proof.
  intros Ha Hr. unfold str_lines. rewrite (split_line _ _ Ha).
  destruct (split (byte_of 10) b) as [|p ps] eqn:E; [by apply split_nonempty in E|]. cbn [text_lines]. by rewrite Hr.
Qed.

(** ** Visible text is left alone by [trim] *)

Definition visible (s : string) : Prop := Forall (fun b => in_range 33 126 b = true) (bytes s).

Lemma ascii_not_continuation b : in_range 33 126 b = true → is_continuation b = false.
Proof. destruct b as [[] [] [] [] [] [] [] []]; vm_compute; congruence. Qed.

Lemma visible_not_whitespace b : in_range 33 126 b = true → is_whitespace (String b "") = false.
Proof. destruct b as [[] [] [] [] [] [] [] []]; vm_compute; congruence. Qed.

Lemma chars_visible s : visible s → chars s = map (fun b => String b EmptyString) (bytes s).
Proof.
  unfold visible. induction s as [|b s IH]; [done|].
  change (bytes (String b s)) with (b :: bytes s). intros [Hb Hs]%Forall_cons_1. cbn [chars]. rewrite (IH Hs).
  destruct (bytes s) as [|b' l]; [done|]. simpl. apply Forall_cons_1 in Hs as [Hb' _].
  by rewrite ascii_not_continuation.
Qed.

Lemma skip_while_none {A} (p : A → bool) l : (∀ x, x ∈ l → p x = false) → skip_while p l = l.
Proof. destruct l as [|x l]; [done|]. intros H. simpl. by rewrite (H x ltac:(set_solver)). Qed.

Lemma trim_visible s : visible s → trim s = s.
Proof.
  intros Hs. unfold trim. rewrite chars_visible by done.
  assert (∀ c, c ∈ map (fun b => String b EmptyString) (bytes s) → is_whitespace c = false) as Hw.
  { intros c (b & -> & Hb)%elem_of_map. apply visible_not_whitespace. unfold visible in Hs.
    rewrite Forall_forall in Hs. by apply Hs. }
  rewrite (skip_while_none _ _ Hw), skip_while_none.
  - rewrite rev_involutive, <-(chars_visible s Hs). apply concat_chars.
  - intros c Hc. apply Hw. by rewrite list_elem_of_In, <-in_rev, <-list_elem_of_In in Hc.
Qed.

Lemma visible_one_line s : visible s → one_line s.
Proof. unfold visible, one_line. rewrite Forall_forall. intros Hs Hin. specialize (Hs _ Hin). vm_compute in Hs. done. Qed.

Lemma pretty_visible (n : Z) : visible (pretty n).
Proof.
  assert (∀ n : Z, 0 ≤ n → visible (pretty n)) as Hpos.
  { intros m Hm. destruct (pretty_nonneg_decimal m Hm) as [Hd _]. eapply Forall_impl; [exact Hd|].
    intros b [d Hb]. destruct b as [[] [] [] [] [] [] [] []]; vm_compute in Hb |- *; congruence. }
  destruct n as [|p|p]; [apply Hpos; lia..|]. change (pretty (Z.neg p)) with ("-" +:+ pretty (Z.pos p)).
  constructor; [done|]. apply Hpos. lia.
Qed.

Lemma visible_app a b : visible (a +:+ b) ↔ visible a ∧ visible b.
Proof. unfold visible. rewrite bytes_app. apply Forall_app. Qed.

Lemma digit_visible radix c d : to_digit radix c = Some d → in_range 33 126 c = true.
Proof.
  unfold to_digit, in_range. change (char_code c) with (byte_value c). intros H.
  destruct ((48 <=? byte_value c) && (byte_value c <=? 57)) eqn:E1; [apply andb_true_iff; lia|].
  destruct ((97 <=? byte_value c) && (byte_value c <=? 122)) eqn:E2; [apply andb_true_iff; lia|].
  destruct ((65 <=? byte_value c) && (byte_value c <=? 90)) eqn:E3; [apply andb_true_iff; lia|].
  by rewrite Z.ltb_irrefl in H.
Qed.
