(* ===== verification/Transports.v ===== *)
(** What the cores dial with: the secrets, the trust of a server and the outbounds of the primary core
    (crates/dnet-config/src/secret.rs, error.rs, endpoint_bypass.rs, bind.rs, brutal.rs, tls.rs, hysteria2.rs and
    reality.rs). *)

From Stdlib Require Import Ascii.
From S2P Require Import Prelude Text IpText Profile Endpoint Names.

(** * Definitions

    base64's two alphabets are the base64 crate's: encoding bytes in the standard one, and decoding both. *)
Class Base64 : Type := {
  standard_encode : string → string;
  standard_decode : string → option string;
  url_safe_no_pad_decode : string → option string;
}.

(** ** Secrets *)

(** The wrapper decides only what is printed. *)
(* src: crates/dnet-config/src/secret.rs:15-20 Secret *)
Record Secret : Type := mkSecret { expose : string }.

#[export] Instance Secret_eq_dec : EqDecision Secret.
Proof. solve_decision. Defined.

(* src: crates/dnet-config/src/secret.rs:35-45 Secret *)
Definition secret_to_string (s : Secret) : string := "<redacted>".
Definition secret_debug (s : Secret) : string := "Secret(<redacted>)".

(* src: crates/dnet-config/src/secret.rs:47-52 Secret::serialize *)
Definition secret_serialize (s : Secret) : string := expose s.

(* src: crates/dnet-config/src/error.rs:3-80 ConfigError *)
Inductive ConfigError : Type :=
  | PartialBrutalBandwidth
  | MissingAmneziaWgAdapter
  | IncompletePeer
  | InvalidPeerEndpoint
  | OverlappingHeaders
  | ConfigBrutalNotAcknowledged
  | MissingTransport (kind : string)
  | InvalidGeckoPacketSize
  | InvalidServerName
  | InvalidTargetDomain (why : string)
  | InvalidRealityPublicKey
  | InvalidCredential (which : string)
  | InvalidSession (why : string)
  | InvalidProbePort
  | ProbeNeedsOwnAdapter.

(* src: crates/dnet-config/src/error.rs:9-79 ConfigError *)
Definition config_error_to_string (e : ConfigError) : string :=
  match e with
  | PartialBrutalBandwidth => "Brutal congestion control requires both up and down bandwidth"
  | MissingAmneziaWgAdapter => "Profile A requires the AmneziaWG adapter name to bind its outbound"
  | IncompletePeer => "AmneziaWG peer requires a non-empty public key and endpoint"
  | InvalidPeerEndpoint => "AmneziaWG peer endpoint must be an IP:port literal, resolved before bring-up"
  | OverlappingHeaders => "AmneziaWG h1..h4 header values must not overlap"
  | ConfigBrutalNotAcknowledged =>
      "Brutal congestion control requires acknowledgement of the current shared-capacity warning"
  | MissingTransport kind => "the " +:+ kind +:+ " profile requires its transport settings and credentials"
  | InvalidGeckoPacketSize => "Gecko packet sizes must satisfy 256 <= min <= max <= 1400"
  | InvalidServerName => "TLS server name must be a DNS hostname"
  | InvalidTargetDomain why => "REALITY target domain refused: " +:+ why
  | InvalidRealityPublicKey => "REALITY public key must be 32 bytes of unpadded URL-safe base64"
  | InvalidCredential which => "credential is missing or malformed: " +:+ which
  | InvalidSession why => "the session configuration was refused: " +:+ why
  | InvalidProbePort => "the probe's SOCKS port must be non-zero"
  | ProbeNeedsOwnAdapter => "an AmneziaWG profile cannot be probed through a proxy; it needs its own adapter"
  end.

(** ** The endpoint, the bandwidth and the adapter *)

(* src: crates/dnet-config/src/endpoint_bypass.rs:11-19 ActiveEndpointBypass *)
Record ActiveEndpointBypass : Type := mkBypass { bypass_host : string; bypass_port : Z }.

(* src: crates/dnet-config/src/endpoint_bypass.rs:22-28 ActiveEndpointBypass::new *)
Definition bypass_new (addr : EndpointAddress) : ActiveEndpointBypass := mkBypass (host addr) (port addr).

(* src: crates/dnet-config/src/brutal.rs:17-22 BrutalBandwidth *)
Record BrutalBandwidth : Type := mkBrutalBandwidth { emit_up : Z; emit_down : Z }.

(* src: crates/dnet-config/src/brutal.rs:31-49 resolve *)
Definition brutal_resolve (opt_in : option BrutalOptIn) (current_revision : Z) :
    result ConfigError (option BrutalBandwidth) :=
  match opt_in with
  | None => Ok None
  | Some o =>
      if negb (warning_revision (acknowledgement o) =? current_revision) then Err ConfigBrutalNotAcknowledged
      else if (up_mbps (bandwidth o) =? 0) || (down_mbps (bandwidth o) =? 0) then Err PartialBrutalBandwidth
      else Ok (Some (mkBrutalBandwidth (up_mbps (bandwidth o)) (down_mbps (bandwidth o))))
  end.

(* src: crates/dnet-config/src/brutal.rs:24-29 brutal_bandwidth *)
Definition brutal_bandwidth (opt_in : option BrutalOptIn) : result ConfigError (option BrutalBandwidth) :=
  brutal_resolve opt_in BRUTAL_WARNING_REVISION.

(* src: crates/dnet-config/src/bind.rs:11-28 DirectBoundOutbound *)
Record DirectBoundOutbound : Type := mkDirectBound {
  bound_kind : string;
  bound_tag : string;
  bind_interface : string;
  domain_resolver : string;
}.

(* src: crates/dnet-config/src/bind.rs:31-43 DirectBoundOutbound::to_amneziawg_adapter *)
Definition to_amneziawg_adapter (tag adapter resolver : string) : DirectBoundOutbound :=
  mkDirectBound "direct" tag adapter resolver.

(** ** TLS *)

(* src: crates/dnet-config/src/tls.rs:20-31 ServerTrust *)
Inductive ServerTrust : Type :=
  | PublicCa (server_name : string)
  | PinnedPublicKey (server_name : string) (spki_sha256 : string).

(* src: crates/dnet-config/src/tls.rs:33-40 ServerTrust::server_name *)
Definition trust_server_name (t : ServerTrust) : string :=
  match t with PublicCa n | PinnedPublicKey n _ => n end.

(* src: crates/dnet-config/src/reality.rs:130-135 UtlsSection *)
Record UtlsSection : Type := mkUtls { utls_enabled : bool; utls_fingerprint : string }.

(* src: crates/dnet-config/src/reality.rs:137-143 RealitySection *)
Record RealitySection : Type := mkRealitySection {
  reality_enabled : bool; section_public_key : string; section_short_id : Secret;
}.

(* src: crates/dnet-config/src/tls.rs:42-54 OutboundTls *)
Record OutboundTls : Type := mkTls {
  tls_enabled : bool;
  tls_server_name : string;
  certificate_public_key_sha256 : list string;
  tls_utls : option UtlsSection;
  tls_reality : option RealitySection;
}.

(* src: crates/dnet-config/src/tls.rs:57-73 OutboundTls::verified_by *)
Definition verified_by `{Base64} (trust : ServerTrust) : result ConfigError OutboundTls :=
  if negb (is_dns_hostname (trust_server_name trust)) then Err InvalidServerName
  else Ok {|
    tls_enabled := true;
    tls_server_name := trust_server_name trust;
    certificate_public_key_sha256 :=
      match trust with PublicCa _ => [] | PinnedPublicKey _ pin => [standard_encode pin] end;
    tls_utls := None;
    tls_reality := None;
  |}.

(** ** Hysteria 2 *)

(* src: crates/dnet-config/src/hysteria2.rs:35-41 Hysteria2ClientParams *)
Record Hysteria2ClientParams : Type := mkHy2Client { bbr_profile : BbrProfile; chrome_parrot : bool }.

(* src: crates/dnet-config/src/hysteria2.rs:43-50 Hysteria2ClientParams::default *)
Definition hysteria2_client_default : Hysteria2ClientParams := mkHy2Client Standard true.

(* src: crates/dnet-config/src/hysteria2.rs:52-61 Hysteria2Obfs *)
Inductive Hysteria2Obfs : Type := Salamander | Gecko (min_packet_size max_packet_size : Z).

(* src: crates/dnet-config/src/hysteria2.rs:63-68 Hysteria2EndpointParams *)
Record Hysteria2EndpointParams : Type := mkHy2Endpoint { obfs : Hysteria2Obfs; trust : ServerTrust }.

(* src: crates/dnet-config/src/hysteria2.rs:70-74 Hysteria2Settings *)
Record Hysteria2Settings : Type := mkHy2Settings {
  hy2_client : Hysteria2ClientParams; hy2_endpoint : Hysteria2EndpointParams;
}.

(* src: crates/dnet-config/src/hysteria2.rs:76-83 Hysteria2Credentials *)
Record Hysteria2Credentials : Type := mkHy2Credentials { auth_password : Secret; obfs_password : Secret }.

(* src: crates/dnet-config/src/hysteria2.rs:85-90 Hysteria2Transport *)
Record Hysteria2Transport : Type := mkHy2Transport {
  hy2_settings : Hysteria2Settings; hy2_credentials : Hysteria2Credentials;
}.

(* src: crates/dnet-config/src/hysteria2.rs:116-126 ObfsSection *)
Record ObfsSection : Type := mkObfs {
  obfs_kind : string; obfs_secret : Secret; obfs_min : option Z; obfs_max : option Z;
}.

(* src: crates/dnet-config/src/hysteria2.rs:92-114 Hysteria2Outbound *)
Record Hysteria2Outbound : Type := mkHy2Outbound {
  hy2_kind : string;
  hy2_tag : string;
  hy2_server : string;
  hy2_server_port : Z;
  hy2_up_mbps : option Z;
  hy2_down_mbps : option Z;
  hy2_obfs : ObfsSection;
  hy2_password : Secret;
  hy2_tls : OutboundTls;
  hy2_bbr_profile : option string;
  disable_chrome_parrot : bool;
}.

(* src: crates/dnet-config/src/hysteria2.rs:161-178 validate_credentials *)
Definition validate_credentials (c : Hysteria2Credentials) : result ConfigError unit :=
  if str_is_empty (expose (auth_password c)) then Err (InvalidCredential "Hysteria 2 auth password")
  else if str_is_empty (expose (obfs_password c)) then Err (InvalidCredential "Hysteria 2 obfuscation password")
  else if bool_decide (auth_password c = obfs_password c) then
    Err (InvalidCredential "Hysteria 2 obfuscation password (must differ from the auth password)")
  else Ok ().

(* src: crates/dnet-config/src/hysteria2.rs:180-199 obfs_section *)
Definition obfs_section (o : Hysteria2Obfs) (password : Secret) : result ConfigError ObfsSection :=
  '(kind, min_packet_size, max_packet_size) ←
    match o with
    | Salamander => Ok ("salamander", None, None)
    | Gecko lo hi =>
        if negb (gecko_packet_sizes_valid lo hi) then Err InvalidGeckoPacketSize else Ok ("gecko", Some lo, Some hi)
    end;
  Ok (mkObfs kind password min_packet_size max_packet_size).

(* src: crates/dnet-config/src/hysteria2.rs:128-159 hysteria2_outbound *)
Definition hysteria2_outbound `{Base64} (tag : string) (endpoint : ActiveEndpointBypass) (transport : Hysteria2Transport)
    (brutal : option BrutalOptIn) : result ConfigError Hysteria2Outbound :=
  let settings := hy2_settings transport in
  let credentials := hy2_credentials transport in
  _ ← validate_credentials credentials;
  section ← obfs_section (obfs (hy2_endpoint settings)) (obfs_password credentials);
  tls ← verified_by (trust (hy2_endpoint settings));
  bandwidth ← brutal_bandwidth brutal;
  Ok {|
    hy2_kind := "hysteria2";
    hy2_tag := tag;
    hy2_server := bypass_host endpoint;
    hy2_server_port := bypass_port endpoint;
    hy2_up_mbps := emit_up <$> bandwidth;
    hy2_down_mbps := emit_down <$> bandwidth;
    hy2_obfs := section;
    hy2_password := auth_password credentials;
    hy2_tls := tls;
    hy2_bbr_profile := match bandwidth with None => Some (bbr_as_str (bbr_profile (hy2_client settings))) | Some _ => None end;
    disable_chrome_parrot := negb (chrome_parrot (hy2_client settings));
  |}.

(** ** VLESS and REALITY *)

(* src: crates/dnet-config/src/reality.rs:35-36 SHORT_ID_MAX_BYTES *)
Definition SHORT_ID_MAX_BYTES : Z := 8.
(* src: crates/dnet-config/src/reality.rs:37-38 UUID_TEXT_LEN *)
Definition UUID_TEXT_LEN : Z := 36.

(* src: crates/dnet-config/src/reality.rs:40-47 VlessFlow *)
Inductive VlessFlow : Type := NoFlow | Vision.

(* src: crates/dnet-config/src/reality.rs:49-56 VlessFlow::as_str *)
Definition flow_as_str (f : VlessFlow) : option string :=
  match f with NoFlow => None | Vision => Some "xtls-rprx-vision" end.

(* src: crates/dnet-config/src/reality.rs:58-60 TargetDomain *)
Record TargetDomain : Type := mkTarget { target_as_str : string }.

(* src: crates/dnet-config/src/reality.rs:63-69 TargetDomain::parse *)
Definition target_parse (name : string) : result ConfigError TargetDomain :=
  match validate_target_domain name with Ok n => Ok (mkTarget n) | Err why => Err (InvalidTargetDomain why) end.

(* src: crates/dnet-config/src/reality.rs:76-78 RealityPublicKey *)
Record RealityPublicKey : Type := mkRealityKey { reality_key_as_str : string }.

(* src: crates/dnet-config/src/reality.rs:81-87 RealityPublicKey::parse *)
Definition reality_key_parse `{Base64} (encoded : string) : result ConfigError RealityPublicKey :=
  match url_safe_no_pad_decode encoded with
  | Some decoded => if str_len decoded =? 32 then Ok (mkRealityKey encoded) else Err InvalidRealityPublicKey
  | None => Err InvalidRealityPublicKey
  end.

(* src: crates/dnet-config/src/reality.rs:94-98 RealityClientParams *)
Record RealityClientParams : Type := mkRealityClient { client_fingerprint : UtlsFingerprint }.

(* src: crates/dnet-config/src/reality.rs:100-106 RealityEndpointParams *)
Record RealityEndpointParams : Type := mkRealityEndpoint {
  re_target_domain : TargetDomain; re_public_key : RealityPublicKey; re_flow : VlessFlow;
}.

(* src: crates/dnet-config/src/reality.rs:108-112 RealitySettings *)
Record RealitySettings : Type := mkRealitySettings { rs_client : RealityClientParams; rs_endpoint : RealityEndpointParams }.

(* src: crates/dnet-config/src/reality.rs:114-121 RealityCredentials *)
Record RealityCredentials : Type := mkRealityCredentials { rc_uuid : Secret; rc_short_id : Secret }.

(* src: crates/dnet-config/src/reality.rs:123-128 RealityTransport *)
Record RealityTransport : Type := mkRealityTransport { rt_settings : RealitySettings; rt_credentials : RealityCredentials }.

(* src: crates/dnet-config/src/reality.rs:145-157 VlessOutbound *)
Record VlessOutbound : Type := mkVless {
  vless_kind : string;
  vless_tag : string;
  vless_server : string;
  vless_server_port : Z;
  vless_uuid : Secret;
  vless_flow : option string;
  vless_tls : OutboundTls;
}.

(* src: crates/dnet-config/src/reality.rs:196-204 validate_uuid *)
Definition validate_uuid `{UuidText} (uuid : Secret) : result ConfigError unit :=
  if (str_len (expose uuid) =? UUID_TEXT_LEN) && bool_decide (is_Some (uuid_parse_str (expose uuid))) then Ok ()
  else Err (InvalidCredential "VLESS user id").

Definition is_ascii_hexdigit (b : Ascii.ascii) : bool := is_ascii_digit b || in_range 97 102 b || in_range 65 70 b.

(* src: crates/dnet-config/src/reality.rs:206-217 validate_short_id *)
Definition validate_short_id (short_id : Secret) : result ConfigError unit :=
  let text := expose short_id in
  if negb (str_is_empty text) && (str_len text mod 2 =? 0) && (str_len text <=? SHORT_ID_MAX_BYTES * 2) &&
     forallb is_ascii_hexdigit (bytes text)
  then Ok () else Err (InvalidCredential "REALITY short id").

(* src: crates/dnet-config/src/reality.rs:159-194 reality_outbound *)
Definition reality_outbound `{UuidText} (tag : string) (endpoint : ActiveEndpointBypass) (transport : RealityTransport) :
    result ConfigError VlessOutbound :=
  let settings := rt_settings transport in
  let credentials := rt_credentials transport in
  _ ← validate_uuid (rc_uuid credentials);
  _ ← validate_short_id (rc_short_id credentials);
  Ok {|
    vless_kind := "vless";
    vless_tag := tag;
    vless_server := bypass_host endpoint;
    vless_server_port := bypass_port endpoint;
    vless_uuid := rc_uuid credentials;
    vless_flow := flow_as_str (re_flow (rs_endpoint settings));
    vless_tls := {|
      tls_enabled := true;
      tls_server_name := target_as_str (re_target_domain (rs_endpoint settings));
      certificate_public_key_sha256 := [];
      tls_utls := Some (mkUtls true (utls_as_str (client_fingerprint (rs_client settings))));
      tls_reality := Some (mkRealitySection true (reality_key_as_str (re_public_key (rs_endpoint settings)))
        (rc_short_id credentials));
    |};
  |}.
