(* ===== verification/CoreConfig.v ===== *)
(** The configurations the primary core is started with: one profile carrying traffic, a session over its carriers,
    and a probe of either (crates/dnet-config/src/primary.rs, session.rs, probe.rs), with the reading of the generated
    route rules that dnet-config's tests/rule_agreement.rs takes of the core. *)

From Stdlib Require Import Ascii.
From S2P Require Import Prelude Text IpText Profile Endpoint Rule RuleEval Names Transports.

(** * Definitions *)

(** ** The two halves of the placeholder pools *)

(* src: crates/dnet-config/src/primary.rs:40-44 FakeIpHalf *)
Inductive FakeIpHalf : Type := Low | High.

#[export] Instance FakeIpHalf_eq_dec : EqDecision FakeIpHalf.
Proof. solve_decision. Defined.

(* src: crates/dnet-config/src/primary.rs:47-53 FakeIpHalf::inet4 *)
Definition inet4 (h : FakeIpHalf) : string := match h with Low => "198.18.0.0/16" | High => "198.19.0.0/16" end.

(* src: crates/dnet-config/src/primary.rs:55-61 FakeIpHalf::inet6 *)
Definition inet6 (h : FakeIpHalf) : string := match h with Low => "fc00::/19" | High => "fc00:2000::/19" end.

(* src: crates/dnet-config/src/primary.rs:63-68 FakeIpHalf::other *)
Definition other (h : FakeIpHalf) : FakeIpHalf := match h with Low => High | High => Low end.

(** The atomic flag: the value it holds. *)
(* src: crates/dnet-config/src/primary.rs:71-73 FakeIpRotation *)
Record FakeIpRotation : Type := mkRotation { rotation_flag : bool }.

(* src: crates/dnet-config/src/primary.rs:76-80 FakeIpRotation::new *)
Definition rotation_new (first : FakeIpHalf) : FakeIpRotation := mkRotation (bool_decide (first = High)).

(* src: crates/dnet-config/src/primary.rs:82-90 FakeIpRotation::take *)
Definition rotation_take (r : FakeIpRotation) : FakeIpRotation * FakeIpHalf :=
  (mkRotation (xorb (rotation_flag r) true), if rotation_flag r then High else Low).

(* src: crates/dnet-config/src/primary.rs:93-93 TUN_TAG *)
Definition TUN_TAG : string := "tun-in".
(* src: crates/dnet-config/src/primary.rs:94-95 TUN_INTERFACE *)
Definition TUN_INTERFACE : string := "dnet-tun0".
(* src: crates/dnet-config/src/primary.rs:96-98 TUN_ADDRESS *)
Definition TUN_ADDRESS : string := "172.19.0.1/30".
(* src: crates/dnet-config/src/primary.rs:100-100 PROXY_TAG *)
Definition PROXY_TAG : string := "proxy".
(* src: crates/dnet-config/src/primary.rs:101-101 DIRECT_TAG *)
Definition DIRECT_TAG : string := "direct".
(* src: crates/dnet-config/src/primary.rs:103-103 FAKEIP_DNS *)
Definition FAKEIP_DNS : string := "fakeip".
(* src: crates/dnet-config/src/primary.rs:104-104 LOCAL_DNS *)
Definition LOCAL_DNS : string := "local".
(* src: crates/dnet-config/src/primary.rs:105-105 TUNNEL_DNS *)
Definition TUNNEL_DNS : string := "tunnel-dns".
(* src: crates/dnet-config/src/primary.rs:106-108 DEFAULT_TUNNEL_DNS_SERVER *)
Definition DEFAULT_TUNNEL_DNS_SERVER : string := "1.1.1.1".

(** ** The data of a configuration *)

(* src: crates/dnet-config/src/primary.rs:130-135 PrimaryTransport *)
Inductive PrimaryTransport : Type :=
  | CarriedByHysteria2 (transport : Hysteria2Transport)
  | CarriedByReality (transport : RealityTransport).

(* src: crates/dnet-config/src/primary.rs:110-128 PrimaryCoreInput *)
Record PrimaryCoreInput : Type := mkPrimaryInput {
  active_profile : ConnectionProfile;
  endpoint_bypass : ActiveEndpointBypass;
  pi_rules : list RoutingRule;
  amneziawg_adapter : option string;
  primary_transport : option PrimaryTransport;
  pi_fakeip : FakeIpHalf;
}.

(* src: crates/dnet-config/src/primary.rs:154-158 Log *)
Record Log : Type := mkLog { log_level : string; log_timestamp : bool }.

(* src: crates/dnet-config/src/primary.rs:168-188 DnsServer *)
Inductive DnsServer : Type :=
  | FakeIp (tag inet4_range inet6_range : string)
  | Local (tag : string)
  | Udp (tag server : string) (server_port : Z) (interface : string).

(* src: crates/dnet-config/src/primary.rs:190-205 DnsRule *)
Record DnsRule : Type := mkDnsRule {
  dr_domain : list string;
  dr_domain_suffix : list string;
  dr_query_type : list string;
  dr_invert : bool;
  dr_action : string;
  dr_server : option string;
}.

(* src: crates/dnet-config/src/primary.rs:160-166 Dns *)
Record Dns : Type := mkDns { servers : list DnsServer; dns_chain : list DnsRule; final_server : string }.

(* src: crates/dnet-config/src/primary.rs:207-219 TunInbound *)
Record TunInbound : Type := mkTun {
  tun_kind : string;
  tun_tag : string;
  tun_interface_name : string;
  tun_address : list string;
  auto_route : bool;
  strict_route : bool;
  dns_mode : string;
}.

(* src: crates/dnet-config/src/primary.rs:236-241 DirectOutbound *)
Record DirectOutbound : Type := mkDirect { direct_kind : string; direct_tag : string }.

(* src: crates/dnet-config/src/session.rs:155-166 SelectorOutbound *)
Record SelectorOutbound : Type := mkSelector {
  selector_kind : string;
  selector_tag : string;
  selector_outbounds : list string;
  selector_default : string;
  interrupt_exist_connections : bool;
}.

(* src: crates/dnet-config/src/primary.rs:221-234 Outbound *)
Inductive Outbound : Type :=
  | DirectBound (o : DirectBoundOutbound)
  | OutHysteria2 (o : Hysteria2Outbound)
  | Vless (o : VlessOutbound)
  | Direct (o : DirectOutbound)
  | Selector (o : SelectorOutbound).

(* src: crates/dnet-config/src/primary.rs:254-272 RouteRule *)
Record RouteRule : Type := mkRouteRule {
  rr_domain : list string;
  rr_domain_suffix : list string;
  rr_ip_cidr : list string;
  rr_process_path : list string;
  rr_port : list Z;
  rr_action : string;
  rr_outbound : option string;
}.

(* src: crates/dnet-config/src/primary.rs:243-252 Route *)
Record Route : Type := mkRoute {
  route_chain : list RouteRule;
  final_outbound : string;
  auto_detect_interface : bool;
  default_domain_resolver : string;
}.

(* src: crates/dnet-config/src/session.rs:184-191 SessionPeer *)
Record SessionPeer : Type := mkPeer {
  peer_address : string;
  peer_port : Z;
  peer_public_key : string;
  peer_allowed_ips : list string;
  persistent_keepalive_interval : Z;
}.

(* src: crates/dnet-config/src/session.rs:168-182 SessionEndpoint *)
Record SessionEndpoint : Type := mkSessionEndpoint {
  se_kind : string;
  se_tag : string;
  se_system : bool;
  se_address : list string;
  se_private_key : Secret;
  se_detour : string;
  se_peers : list SessionPeer;
}.

(* src: crates/dnet-config/src/session.rs:198-203 ControlApiSection *)
Record ControlApiSection : Type := mkControlSection {
  external_controller : string;
  section_secret : Secret;
  access_control_allow_origin : list string;
}.

(* src: crates/dnet-config/src/session.rs:193-196 Experimental *)
Record Experimental : Type := mkExperimental { clash_api : ControlApiSection }.

(* src: crates/dnet-config/src/primary.rs:137-152 PrimaryCoreConfig *)
Record PrimaryCoreConfig : Type := mkPrimaryConfig {
  log : Log;
  dns : Dns;
  inbounds : list TunInbound;
  outbounds : list Outbound;
  endpoints : list SessionEndpoint;
  route : Route;
  experimental : option Experimental;
}.

(** ** Rules as the core writes them *)

(* src: crates/dnet-config/src/primary.rs:378-386 written *)
Definition written (pattern : string) : string := default pattern (normalize_domain pattern).

(* src: crates/dnet-config/src/primary.rs:388-393 by_precedence *)
Definition by_precedence (rules : list RoutingRule) : list RoutingRule := sort_by precedence_cmp rules.

(* src: crates/dnet-config/src/primary.rs:401-422 route_rules *)
Definition route_entry (rule : RoutingRule) : RouteRule :=
  let '(act, out) :=
    match action rule with
    | Capture => ("hijack-dns", None)
    | Reject => ("reject", None)
    | Bypass => ("route", Some DIRECT_TAG)
    | Tunnel => ("route", Some PROXY_TAG)
    end in
  match matcher rule with
  | Domain d => mkRouteRule [written d] [] [] [] [] act out
  | DomainSuffix d => mkRouteRule [] [written d] [] [] [] act out
  | Cidr c => mkRouteRule [] [] [cidr_to_string c] [] [] act out
  | Application p => mkRouteRule [] [] [] [p] [] act out
  | DnsPort => mkRouteRule [] [] [] [] [53] act out
  | EncryptedDnsPort => mkRouteRule [] [] [] [] [ENCRYPTED_DNS_PORT] act out
  end.

(* src: crates/dnet-config/src/primary.rs:395-425 route_rules *)
Definition route_rules (rules : list RoutingRule) : list RouteRule := map route_entry (by_precedence rules).

(* src: crates/dnet-config/src/primary.rs:441-461 dns_rules *)
Definition dns_entry (r : RoutingRule) : option DnsRule :=
  '(names, suffixes) ←
    match matcher r with
    | Domain d => Some ([written d], [])
    | DomainSuffix d => Some ([], [written d])
    | _ => None
    end;
  let '(act, server) := if bool_decide (action r = Reject) then ("reject", None) else ("route", Some LOCAL_DNS) in
  Some (mkDnsRule names suffixes [] false act server).

(* src: crates/dnet-config/src/primary.rs:437-486 dns_rules *)
Definition dns_rules (rules : list RoutingRule) (tunnel_resolver : option string) : list DnsRule :=
  omap dns_entry (List.filter (fun r => match action r with Bypass | Reject => true | _ => false end) (by_precedence rules)) ++
  [mkDnsRule [] [] ["A"; "AAAA"] false "route" (Some FAKEIP_DNS);
   match tunnel_resolver with
   | Some server => mkDnsRule [] [] ["A"; "AAAA"] true "route" (Some server)
   | None => mkDnsRule [] [] ["A"; "AAAA"] true "reject" None
   end].

(* src: crates/dnet-config/src/primary.rs:357-368 tun_inbound *)
Definition tun_inbound : TunInbound := {|
  tun_kind := "tun";
  tun_tag := TUN_TAG;
  tun_interface_name := TUN_INTERFACE;
  tun_address := [TUN_ADDRESS];
  auto_route := true;
  strict_route := true;
  dns_mode := "hijack";
|}.

(* src: crates/dnet-config/src/primary.rs:370-376 direct_outbound *)
Definition direct_outbound : Outbound := Direct (mkDirect "direct" DIRECT_TAG).

(** ** One profile carrying traffic *)

Section Generate.
Context `{Base64, UuidText}.

(* src: crates/dnet-config/src/primary.rs:274-355 generate_primary_core_config *)
Definition generate_primary_core_config (input : PrimaryCoreInput) : result ConfigError PrimaryCoreConfig :=
  let profile := active_profile input in
  let servers := [FakeIp FAKEIP_DNS (inet4 (pi_fakeip input)) (inet6 (pi_fakeip input)); Local LOCAL_DNS] in
  '(proxy, servers) ←
    match profile_kind profile with
    | AmneziaWg =>
        adapter ← ok_or (amneziawg_adapter input) MissingAmneziaWgAdapter;
        Ok (DirectBound (to_amneziawg_adapter PROXY_TAG adapter TUNNEL_DNS),
            servers ++ [Udp TUNNEL_DNS (default DEFAULT_TUNNEL_DNS_SERVER (params_get (profile_params profile) "dns")) 53
                          adapter])
    | Hysteria2 =>
        match primary_transport input with
        | Some (CarriedByHysteria2 transport) =>
            o ← hysteria2_outbound PROXY_TAG (endpoint_bypass input) transport (profile_brutal profile);
            Ok (OutHysteria2 o, servers)
        | _ => Err (MissingTransport "Hysteria 2")
        end
    | VlessReality =>
        match primary_transport input with
        | Some (CarriedByReality transport) =>
            o ← reality_outbound PROXY_TAG (endpoint_bypass input) transport;
            Ok (Vless o, servers)
        | _ => Err (MissingTransport "VLESS+REALITY")
        end
    end;
  Ok {|
    log := mkLog "info" true;
    dns := {|
      servers := servers;
      dns_chain := dns_rules (pi_rules input)
        (if bool_decide (profile_kind profile = AmneziaWg) then Some TUNNEL_DNS else None);
      final_server := LOCAL_DNS;
    |};
    inbounds := [tun_inbound];
    outbounds := [proxy; direct_outbound];
    endpoints := [];
    route := {|
      route_chain := route_rules (pi_rules input);
      final_outbound := PROXY_TAG;
      auto_detect_interface := true;
      default_domain_resolver := LOCAL_DNS;
    |};
    experimental := None;
  |}.

(** ** A session over its carriers *)

(* src: crates/dnet-config/src/session.rs:44-47 SESSION_TAG *)
Definition SESSION_TAG : string := PROXY_TAG.
(* src: crates/dnet-config/src/session.rs:48-49 CARRIER_TAG *)
Definition CARRIER_TAG : string := "carrier".
(* src: crates/dnet-config/src/session.rs:50-52 CONTROL_ORIGIN *)
Definition CONTROL_ORIGIN : string := "https://dnet.invalid".
(* src: crates/dnet-config/src/session.rs:53-54 KEEPALIVE_SECONDS *)
Definition KEEPALIVE_SECONDS : Z := 25.
(* src: crates/dnet-config/src/session.rs:55-56 MIN_CONTROL_SECRET_LEN *)
Definition MIN_CONTROL_SECRET_LEN : Z := 32.
(* src: crates/dnet-config/src/session.rs:58-62 SESSION_ENDPOINT_TYPE *)
Definition SESSION_ENDPOINT_TYPE : string := "wire" +:+ "guard".
(* src: crates/dnet-config/src/session.rs:64-64 LOOPBACK *)
Definition LOOPBACK : string := "127.0.0.1".
(* src: crates/dnet-config/src/session.rs:66-71 SESSION_SERVER *)
Definition SESSION_SERVER : Z := of_octets [10; 9; 0; 1].
(* src: crates/dnet-config/src/session.rs:72-72 SESSION_ORIGIN *)
Definition SESSION_ORIGIN : Z := of_octets [10; 9; 0; 254].
(* src: crates/dnet-config/src/session.rs:73-73 SESSION_PREFIX *)
Definition SESSION_PREFIX : Z := 32.
(* src: crates/dnet-config/src/session.rs:74-76 SESSION_PORT *)
Definition SESSION_PORT : Z := 25182.
(* src: crates/dnet-config/src/session.rs:77-78 MAX_DEVICES *)
Definition MAX_DEVICES : nat := 8.

(** A host number past the octet wraps around. *)
(* src: crates/dnet-config/src/session.rs:80-84 session_device_address *)
Definition session_device_address (index : Z) : Z :=
  let host := (2 + (if index <=? U8_MAX then index else U8_MAX - 2)) mod 2 ^ 8 in
  of_octets [10; 9; 0; host].

(* src: crates/dnet-config/src/session.rs:86-89 is_device_address *)
Definition is_device_address (address : Z) : bool :=
  existsb (fun i => session_device_address (Z.of_nat i) =? address) (seq 0 MAX_DEVICES).

(* src: crates/dnet-config/src/session.rs:91-97 CarrierKind *)
Inductive CarrierKind : Type := CarrierHysteria2 | CarrierReality.

#[export] Instance CarrierKind_eq_dec : EqDecision CarrierKind.
Proof. solve_decision. Defined.

(* src: crates/dnet-config/src/session.rs:100-105 CarrierKind::tag *)
Definition carrier_tag (k : CarrierKind) : string :=
  match k with CarrierHysteria2 => "hy2" | CarrierReality => "reality" end.

(* src: crates/dnet-config/src/session.rs:108-116 Carrier *)
Record Carrier : Type := mkCarrier {
  carrier_transport : PrimaryTransport;
  carrier_endpoint : ActiveEndpointBypass;
  carrier_brutal : option BrutalOptIn;
}.

(* src: crates/dnet-config/src/session.rs:119-124 Carrier::kind *)
Definition carrier_kind (c : Carrier) : CarrierKind :=
  match carrier_transport c with CarriedByHysteria2 _ => CarrierHysteria2 | CarriedByReality _ => CarrierReality end.

(* src: crates/dnet-config/src/session.rs:127-134 ControlApi *)
Record ControlApi : Type := mkControlApi { control_port : Z; control_secret : Secret }.

(* src: crates/dnet-config/src/session.rs:136-153 SessionInput *)
Record SessionInput : Type := mkSessionInput {
  carriers : list Carrier;
  active_carrier : CarrierKind;
  si_rules : list RoutingRule;
  si_fakeip : FakeIpHalf;
  device_private_key : Secret;
  server_public_key : string;
  device_address : string;
  session_port : Z;
  control : ControlApi;
}.

(* src: crates/dnet-config/src/session.rs:445-450 is_key *)
Definition is_key (text : string) : bool :=
  match standard_decode text with Some b => str_len b =? 32 | None => false end.

(* src: crates/dnet-config/src/session.rs:452-464 is_cidr *)
Definition is_cidr (text : string) : bool :=
  match split_once "/" text with
  | None => false
  | Some (address, prefix) =>
      match parse_u8 prefix with
      | None => false
      | Some prefix =>
          match parse_ip address with
          | Some (V4 _) => prefix <=? 32
          | Some (V6 _) => prefix <=? 128
          | None => false
          end
      end
  end.

(* src: crates/dnet-config/src/session.rs:390-411 check_session_parts *)
Definition check_session_parts (device_private_key : Secret) (server_public_key device_address : string)
    (session_port : Z) : result ConfigError unit :=
  let refuse why := Err (InvalidSession why) in
  if negb (is_key (expose device_private_key)) then refuse "the device key is not 32 bytes of base64"
  else if negb (is_key server_public_key) then refuse "the server key is not 32 bytes of base64"
  else if negb (is_cidr device_address) then refuse "the device address is not a CIDR"
  else if session_port =? 0 then refuse "the session port is zero"
  else Ok ().

(* src: crates/dnet-config/src/session.rs:418-425 validate *)
Fixpoint kind_twice (earlier : list Carrier) (carriers : list Carrier) : bool :=
  match carriers with
  | [] => false
  | c :: rest =>
      existsb (fun e => bool_decide (carrier_kind e = carrier_kind c)) earlier || kind_twice (earlier ++ [c]) rest
  end.

(* src: crates/dnet-config/src/session.rs:413-442 validate *)
Definition validate (input : SessionInput) : result ConfigError unit :=
  let refuse why := Err (InvalidSession why) in
  if bool_decide (carriers input = []) then refuse "no carrier"
  else if kind_twice [] (carriers input) then refuse "a carrier kind appears twice"
  else if negb (existsb (fun c => bool_decide (carrier_kind c = active_carrier input)) (carriers input)) then
    refuse "the starting carrier is not among the carriers"
  else
    _ ← check_session_parts (device_private_key input) (server_public_key input) (device_address input)
          (session_port input);
    if control_port (control input) =? 0 then refuse "the control port is zero"
    else if str_len (expose (control_secret (control input))) <? MIN_CONTROL_SECRET_LEN then
      refuse "the control secret is too short"
    else Ok ().

(* src: crates/dnet-config/src/session.rs:281-304 session_endpoint *)
Definition session_endpoint (detour : string) (device_private_key : Secret) (server_public_key device_address : string)
    (session_port : Z) : SessionEndpoint := {|
  se_kind := SESSION_ENDPOINT_TYPE;
  se_tag := SESSION_TAG;
  se_system := false;
  se_address := [device_address];
  se_private_key := device_private_key;
  se_detour := detour;
  se_peers := [{|
    peer_address := LOOPBACK;
    peer_port := session_port;
    peer_public_key := server_public_key;
    peer_allowed_ips := ["0.0.0.0/0"];
    persistent_keepalive_interval := KEEPALIVE_SECONDS;
  |}];
|}.

(** The outbound of one carrier, written the same in the session and in its probe. *)
(* src: crates/dnet-config/src/session.rs:211-223 generate_session_config *)
Definition carrier_leaf (c : Carrier) : result ConfigError Outbound :=
  let tag := carrier_tag (carrier_kind c) in
  match carrier_transport c with
  | CarriedByHysteria2 transport =>
      o ← hysteria2_outbound tag (carrier_endpoint c) transport (carrier_brutal c); Ok (OutHysteria2 o)
  | CarriedByReality transport => o ← reality_outbound tag (carrier_endpoint c) transport; Ok (Vless o)
  end.

(* src: crates/dnet-config/src/session.rs:209-225 generate_session_config *)
Fixpoint leaves (cs : list Carrier) : result ConfigError (list Outbound) :=
  match cs with
  | [] => Ok []
  | c :: cs => o ← carrier_leaf c; rest ← leaves cs; Ok (o :: rest)
  end.

(* src: crates/dnet-config/src/session.rs:206-279 generate_session_config *)
Definition generate_session_config (input : SessionInput) : result ConfigError PrimaryCoreConfig :=
  _ ← validate input;
  outs ← leaves (carriers input);
  Ok {|
    log := mkLog "warn" true;
    dns := {|
      servers := [FakeIp FAKEIP_DNS (inet4 (si_fakeip input)) (inet6 (si_fakeip input)); Local LOCAL_DNS];
      dns_chain := dns_rules (si_rules input) None;
      final_server := LOCAL_DNS;
    |};
    inbounds := [tun_inbound];
    outbounds := outs ++
      [Selector (mkSelector "selector" CARRIER_TAG (map (fun c => carrier_tag (carrier_kind c)) (carriers input))
                   (carrier_tag (active_carrier input)) false);
       direct_outbound];
    endpoints :=
      [session_endpoint CARRIER_TAG (device_private_key input) (server_public_key input) (device_address input)
         (session_port input)];
    route := {|
      route_chain := route_rules (si_rules input);
      final_outbound := SESSION_TAG;
      auto_detect_interface := true;
      default_domain_resolver := LOCAL_DNS;
    |};
    experimental := Some (mkExperimental {|
      external_controller := LOOPBACK +:+ ":" +:+ pretty (control_port (control input));
      section_secret := control_secret (control input);
      access_control_allow_origin := [CONTROL_ORIGIN];
    |});
  |}.

(** ** Probes *)

(* src: crates/dnet-config/src/probe.rs:35-35 INBOUND_TAG *)
Definition INBOUND_TAG : string := "probe-in".
(* src: crates/dnet-config/src/probe.rs:37-38 PROBE_LISTEN *)
Definition PROBE_LISTEN : string := "127.0.0.1".

(* src: crates/dnet-config/src/probe.rs:40-48 SocksAuth *)
Record SocksAuth : Type := mkSocksAuth { auth_username : string; socks_password : Secret }.

(* src: crates/dnet-config/src/probe.rs:50-63 ProbeInput *)
Record ProbeInput : Type := mkProbeInput {
  socks_auth : SocksAuth;
  probe_profile : ConnectionProfile;
  probe_endpoint : ActiveEndpointBypass;
  probe_transport : option PrimaryTransport;
  socks_port : Z;
}.

(* src: crates/dnet-config/src/probe.rs:85-90 ProbeDnsServer *)
Record ProbeDnsServer : Type := mkProbeDnsServer { pd_kind : string; pd_tag : string }.

(* src: crates/dnet-config/src/probe.rs:80-83 ProbeDns *)
Record ProbeDns : Type := mkProbeDns { pd_servers : list ProbeDnsServer }.

(* src: crates/dnet-config/src/probe.rs:103-107 SocksUser *)
Record SocksUser : Type := mkSocksUser { user_name : string; user_password : Secret }.

(* src: crates/dnet-config/src/probe.rs:92-101 SocksInbound *)
Record SocksInbound : Type := mkSocksInbound {
  socks_kind : string;
  socks_tag : string;
  socks_listen : string;
  socks_listen_port : Z;
  socks_users : list SocksUser;
}.

(* src: crates/dnet-config/src/probe.rs:109-116 ProbeRoute *)
Record ProbeRoute : Type := mkProbeRoute {
  pr_final : string;
  pr_auto_detect : bool;
  pr_resolver : string;
}.

(* src: crates/dnet-config/src/probe.rs:65-77 ProbeConfig *)
Record ProbeConfig : Type := mkProbeConfig {
  pc_log : Log;
  pc_dns : ProbeDns;
  pc_inbounds : list SocksInbound;
  pc_outbounds : list Outbound;
  pc_endpoints : list SessionEndpoint;
  pc_route : ProbeRoute;
}.

(* src: crates/dnet-config/src/probe.rs:120-128 generate_probe_config *)
Definition check_proxy (auth : SocksAuth) (port : Z) : result ConfigError unit :=
  if port =? 0 then Err InvalidProbePort
  else if str_is_empty (auth_username auth) then Err (InvalidCredential "probe proxy username")
  else if str_is_empty (expose (socks_password auth)) then Err (InvalidCredential "probe proxy password")
  else Ok ().

(* src: crates/dnet-config/src/probe.rs:158-167 generate_probe_config *)
Definition socks_inbound (auth : SocksAuth) (port : Z) : SocksInbound :=
  mkSocksInbound "socks" INBOUND_TAG PROBE_LISTEN port [mkSocksUser (auth_username auth) (socks_password auth)].

(* src: crates/dnet-config/src/probe.rs:118-176 generate_probe_config *)
Definition generate_probe_config (input : ProbeInput) : result ConfigError ProbeConfig :=
  _ ← check_proxy (socks_auth input) (socks_port input);
  proxy ←
    match profile_kind (probe_profile input), probe_transport input with
    | AmneziaWg, _ => Err ProbeNeedsOwnAdapter
    | Hysteria2, Some (CarriedByHysteria2 transport) =>
        o ← hysteria2_outbound PROXY_TAG (probe_endpoint input) transport (profile_brutal (probe_profile input));
        Ok (OutHysteria2 o)
    | VlessReality, Some (CarriedByReality transport) =>
        o ← reality_outbound PROXY_TAG (probe_endpoint input) transport; Ok (Vless o)
    | Hysteria2, _ => Err (MissingTransport "Hysteria 2")
    | VlessReality, _ => Err (MissingTransport "VLESS+REALITY")
    end;
  Ok {|
    pc_log := mkLog "info" true;
    pc_dns := mkProbeDns [mkProbeDnsServer "local" LOCAL_DNS];
    pc_inbounds := [socks_inbound (socks_auth input) (socks_port input)];
    pc_outbounds := [proxy];
    pc_endpoints := [];
    pc_route := mkProbeRoute PROXY_TAG true LOCAL_DNS;
  |}.

(* src: crates/dnet-config/src/session.rs:306-317 SessionProbeInput *)
Record SessionProbeInput : Type := mkSessionProbe {
  sp_auth : SocksAuth;
  sp_carrier : Carrier;
  sp_device_private_key : Secret;
  sp_server_public_key : string;
  sp_device_address : string;
  sp_session_port : Z;
  sp_socks_port : Z;
}.

(* src: crates/dnet-config/src/session.rs:319-388 generate_session_probe_config *)
Definition generate_session_probe_config (input : SessionProbeInput) : result ConfigError ProbeConfig :=
  _ ← check_proxy (sp_auth input) (sp_socks_port input);
  _ ← check_session_parts (sp_device_private_key input) (sp_server_public_key input) (sp_device_address input)
        (sp_session_port input);
  leaf ← carrier_leaf (sp_carrier input);
  Ok {|
    pc_log := mkLog "warn" true;
    pc_dns := mkProbeDns [mkProbeDnsServer "local" LOCAL_DNS];
    pc_inbounds := [socks_inbound (sp_auth input) (sp_socks_port input)];
    pc_outbounds := [leaf];
    pc_endpoints :=
      [session_endpoint (carrier_tag (carrier_kind (sp_carrier input))) (sp_device_private_key input)
         (sp_server_public_key input) (sp_device_address input) (sp_session_port input)];
    pc_route := mkProbeRoute SESSION_TAG true LOCAL_DNS;
  |}.

End Generate.

(** ** The route rules as the core reads them

    The reading the repository's agreement test takes of the core: the first rule whose every condition holds decides;
    a name is compared exactly, a suffix with everything beneath it, an address block with a destination given as an
    address, a program as it is written. *)

(* src: crates/dnet-config/tests/rule_agreement.rs:27-62 rule_holds *)
Definition rule_holds (rule : RouteRule) (flow : Flow) : bool :=
  let name := match destination flow with Named n => Some (to_ascii_lowercase n) | Address _ => None end in
  let any_of (wanted : list string) (test : string → bool) := bool_decide (wanted = []) || existsb test wanted in
  any_of (rr_domain rule) (fun d => bool_decide (name = Some (to_ascii_lowercase d))) &&
  any_of (rr_domain_suffix rule) (fun s =>
    let s := to_ascii_lowercase s in
    match name with Some n => String.eqb n s || ends_with ("." +:+ s) n | None => false end) &&
  any_of (rr_ip_cidr rule) (fun c =>
    match destination flow, cidr_parse c with
    | Address ip, Ok cidr =>
        match cidr_parse (ip_to_string ip +:+ "/" +:+ pretty (if is_ipv4 ip then 32 else 128)) with
        | Ok host => overlaps cidr host
        | Err _ => false
        end
    | _, _ => false
    end) &&
  (bool_decide (rr_process_path rule = []) ||
   existsb (fun p => bool_decide (application flow = Some p)) (rr_process_path rule)) &&
  (bool_decide (rr_port rule = []) || existsb (Z.eqb (flow_port flow)) (rr_port rule)).

(* src: crates/dnet-config/tests/rule_agreement.rs:64-77 core_decision *)
Definition core_decision (rules : list RouteRule) (flow : Flow) : RuleAction :=
  match List.find (fun rule => rule_holds rule flow) rules with
  | Some rule =>
      if String.eqb (rr_action rule) "hijack-dns" then Capture
      else if String.eqb (rr_action rule) "reject" then Reject
      else if bool_decide (rr_outbound rule = Some "direct") then Bypass
      else Tunnel
  | None => Tunnel
  end.

(** * Lemmas: the core and the evaluator *)

(** What a name or a block in a rule must be for the core to be given it as it was meant; the constructors of rules
    see to it. *)
Definition writable (r : RoutingRule) : Prop :=
  match matcher r with
  | Domain p | DomainSuffix p => is_Some (normalize_domain p)
  | Cidr c => cidr_ok c
  | _ => True
  end.

Lemma build_writable id m a p b r :
  build id m a p b = Some (Ok r) → match m with Cidr c => cidr_ok c | _ => True end → writable r.
Proof.
  unfold build. destruct (pattern_empty m); [done|].
  intros (range & _ & [= E])%bind_Some Hm. unbind E.
  destruct (bool_decide (m = DnsPort) && _); [done|]. destruct (bool_decide (m = EncryptedDnsPort) && _); [done|].
  destruct (bool_decide (a = Reject) && _); [done|]. injection E as <-. unfold writable. simpl.
  destruct m as [p'|p'|c|p'| |]; try done; unfold check_domain_pattern in Hu;
    (destruct (normalize_domain p'); [by eexists|done]).
Qed.

(** What the core is given of a destination: a name without a trailing dot, or an address in its own form. *)
Definition core_gives (f : Flow) : Prop :=
  match destination f with
  | Named n => normalize_domain n = Some (to_ascii_lowercase n)
  | Address ip => ip_ok ip ∧ canonical ip = ip
  end.

(** The core compares a program's path as it is written; the evaluator, in one form. *)
Definition same_programs `{ToLowercase} (r : RoutingRule) (f : Flow) : Prop :=
  ∀ p app, matcher r = Application p → application f = Some app →
    normalize_application app = normalize_application p → app = p.

Lemma normalize_lower p d : normalize_domain p = Some d → to_ascii_lowercase d = d.
Proof.
  unfold normalize_domain. cbv zeta. case_match; [done|]. case_match; [|done]. intros [= <-].
  apply to_ascii_lowercase_idem.
Qed.

Lemma written_lower p d : normalize_domain p = Some d → to_ascii_lowercase (written p) = d.
Proof. intros E. unfold written. rewrite E. simpl. by eapply normalize_lower. Qed.

Lemma under_ends d s : under d s = String.eqb d s || ends_with ("." +:+ s) d.
Proof.
  apply eq_true_iff_eq. rewrite under_spec, orb_true_iff, String.eqb_eq, ends_with_spec. done.
Qed.

Lemma contains_host c ip :
  cidr_ok c → ip_ok ip → canonical ip = ip → contains c ip = overlaps c (host_block ip).
Proof.
  intros Hc Hip Hcan. apply eq_true_iff_eq. rewrite contains_spec by done. rewrite Hcan.
  rewrite <-overlaps_host by done. rewrite andb_true_iff. split; [by intros [? _]|]. intros Ho. split; [done|].
  apply overlaps_spec in Ho as [Hf _]; [|done|by apply host_block_ok].
  apply Z.leb_le. destruct Hc as [_ Hc]. simpl in Hf. rewrite <-(same_width _ _ Hf). lia.
Qed.

Lemma route_entry_action r :
  rr_action (route_entry r) = match action r with Capture => "hijack-dns" | Reject => "reject" | _ => "route" end ∧
  rr_outbound (route_entry r) =
    match action r with Bypass => Some DIRECT_TAG | Tunnel => Some PROXY_TAG | _ => None end.
Proof. unfold route_entry. by destruct (action r), (matcher r). Qed.

(** The core takes a generated entry to hold exactly when the evaluator takes its rule to match. *)
Lemma entry_holds `{ToLowercase} r f :
  writable r → core_gives f → same_programs r f → rule_holds (route_entry r) f = matches r f.
Proof.
  intros Hr Hf Hp. unfold core_gives in Hf. unfold writable in Hr. unfold rule_holds, matches, route_entry.
  assert (∃ act out, match action r with
     | Capture => ("hijack-dns", None) | Reject => ("reject", None)
     | Bypass => ("route", Some DIRECT_TAG) | Tunnel => ("route", Some PROXY_TAG) end = (act, out))
    as (act & out & ->) by (destruct (action r); eauto).
  destruct (matcher r) as [p|p|c|p| |] eqn:Em; cbn [rr_domain rr_domain_suffix rr_ip_cidr rr_process_path rr_port existsb];
    rewrite ?(bool_decide_eq_true_2 ([] = [])), ?(bool_decide_eq_false_2 (_ = [])) by done; cbn [orb andb];
    rewrite ?andb_true_r, ?orb_false_r; try apply Z.eqb_sym; try done.
  - destruct Hr as [d Ed]. rewrite Ed, (written_lower _ _ Ed). destruct (destination f) as [n|ip]; [|done].
    rewrite Hf. apply eq_true_iff_eq. rewrite bool_decide_eq_true, String.eqb_eq. naive_solver.
  - destruct Hr as [d Ed]. rewrite Ed, (written_lower _ _ Ed). destruct (destination f) as [n|ip]; [|done].
    by rewrite Hf, under_ends.
  - destruct (destination f) as [n|ip]; [done|]. destruct Hf as [Hip Hcan]. rewrite cidr_text_reads_back by done.
    assert ((if is_ipv4 ip then 32 else 128) = ip_width ip) as -> by by destruct ip.
    rewrite cidr_parse_host by done. by rewrite contains_host.
  - destruct (application f) as [app|] eqn:Ea; [|done]. apply eq_true_iff_eq.
    rewrite bool_decide_eq_true, String.eqb_eq. split; [by intros [= ->]|]. intros E. f_equal. by eapply Hp.
Qed.

Lemma find_map {A B} (g : A → B) (p : B → bool) l : List.find p (map g l) = g <$> List.find (λ x, p (g x)) l.
Proof. induction l as [|x l IH]; [done|]. simpl. by destruct (p (g x)). Qed.

Lemma entry_decision r :
  (if String.eqb (rr_action (route_entry r)) "hijack-dns" then Capture
   else if String.eqb (rr_action (route_entry r)) "reject" then Reject
   else if bool_decide (rr_outbound (route_entry r) = Some "direct") then Bypass else Tunnel) = action r.
Proof. destruct (route_entry_action r) as [-> ->]. by destruct (action r). Qed.

Lemma core_decides `{ToLowercase} rules f :
  (∀ r, r ∈ rules → rule_holds (route_entry r) f = matches r f) →
  core_decision (route_rules rules) f = decided_action (evaluate rules f).
Proof.
  intros Hm. unfold core_decision, evaluate, route_rules, by_precedence, in_order. rewrite find_map.
  rewrite (find_ext _ (λ r, matches r f)); [|intros r Hr; apply Hm; by apply elem_of_sort_by in Hr].
  destruct (List.find _ _) as [r|]; [|done]. simpl fmap. apply entry_decision.
Qed.

(** * Lemmas: what a generated configuration refers to *)

Definition outbound_tag (o : Outbound) : string :=
  match o with
  | DirectBound o => bound_tag o
  | OutHysteria2 o => hy2_tag o
  | Vless o => vless_tag o
  | Direct o => direct_tag o
  | Selector o => selector_tag o
  end.

Definition dns_tag (d : DnsServer) : string := match d with FakeIp t _ _ | Local t | Udp t _ _ _ => t end.

(** Where traffic can be sent, and who can be asked for a name. *)
Definition places (c : PrimaryCoreConfig) : list string := map outbound_tag (outbounds c) ++ map se_tag (endpoints c).
Definition resolvers (c : PrimaryCoreConfig) : list string := map dns_tag (servers (dns c)).

(** Everything a configuration refers to is there, once. *)
Record closed (c : PrimaryCoreConfig) : Prop := {
  closed_places : NoDup (places c);
  closed_resolvers : NoDup (resolvers c);
  closed_final : final_outbound (route c) ∈ places c;
  closed_rules r o : r ∈ route_chain (route c) → rr_outbound r = Some o → o ∈ places c;
  closed_dns r s : r ∈ dns_chain (dns c) → dr_server r = Some s → s ∈ resolvers c;
  closed_dns_final : final_server (dns c) ∈ resolvers c ∧ default_domain_resolver (route c) ∈ resolvers c;
  closed_selector o : Selector o ∈ outbounds c →
    selector_default o ∈ selector_outbounds o ∧ ∀ t, t ∈ selector_outbounds o → t ∈ map outbound_tag (outbounds c);
  closed_bound o : DirectBound o ∈ outbounds c → domain_resolver o ∈ resolvers c;
  closed_detour e : e ∈ endpoints c → se_detour e ∈ map outbound_tag (outbounds c);
}.

Lemma route_rules_go r rules o :
  r ∈ route_rules rules → rr_outbound r = Some o → o = DIRECT_TAG ∨ o = PROXY_TAG.
Proof.
  unfold route_rules. rewrite elem_of_map. intros (x & -> & _). destruct (route_entry_action x) as [_ ->].
  destruct (action x); intros [= <-]; auto.
Qed.

Lemma dns_entry_server r d : dns_entry r = Some d → dr_server d = None ∨ dr_server d = Some LOCAL_DNS.
Proof.
  unfold dns_entry. intros ([ns ss] & _ & E)%bind_Some. simpl in E.
  destruct (bool_decide _) in E; injection E as <-; auto.
Qed.

Lemma dns_rules_ask r rules tunnel s :
  r ∈ dns_rules rules tunnel → dr_server r = Some s → s = LOCAL_DNS ∨ s = FAKEIP_DNS ∨ tunnel = Some s.
Proof.
  unfold dns_rules. rewrite elem_of_app, list_elem_of_omap. intros [(x & _ & Hx)|Hr] Hs.
  - apply dns_entry_server in Hx as [E|E]; rewrite E in Hs; [done|]. injection Hs as <-. auto.
  - rewrite !elem_of_cons in Hr. destruct Hr as [->|[->|[]%elem_of_nil]]; [injection Hs as <-; auto|].
    destruct tunnel; [|done]. injection Hs as <-. auto.
Qed.

(** What [check_proxy] and the transports demand. *)
Definition leaf_tag (c : Carrier) : string := carrier_tag (carrier_kind c).

Section Generated.
Context `{Base64, UuidText}.

Lemma hysteria2_outbound_tag tag e t b o : hysteria2_outbound tag e t b = Ok o → hy2_tag o = tag.
Proof. unfold hysteria2_outbound. intros E. unbind E. by injection E as <-. Qed.

Lemma reality_outbound_tag tag e t o : reality_outbound tag e t = Ok o → vless_tag o = tag.
Proof. unfold reality_outbound. intros E. unbind E. by injection E as <-. Qed.

Lemma carrier_leaf_tag c o : carrier_leaf c = Ok o → outbound_tag o = leaf_tag c.
Proof.
  unfold carrier_leaf, leaf_tag. destruct (carrier_transport c); intros E; unbind E; injection E as <-; simpl.
  - by eapply hysteria2_outbound_tag.
  - by eapply reality_outbound_tag.
Qed.

Lemma leaves_tags cs os : leaves cs = Ok os → map outbound_tag os = map leaf_tag cs.
Proof.
  revert os. induction cs as [|c cs IH]; intros os E; simpl in E; [by injection E as <-|].
  unbind E. injection E as <-. simpl. by rewrite (carrier_leaf_tag _ _ Hu), (IH _ Hu0).
Qed.

Lemma kind_twice_spec earlier cs :
  kind_twice earlier cs = false ↔
    NoDup (map carrier_kind cs) ∧ ∀ c e, c ∈ cs → e ∈ earlier → carrier_kind e ≠ carrier_kind c.
Proof.
  revert earlier. induction cs as [|c cs IH]; intros earlier; simpl.
  { split; [|done]. intros _. split; [constructor|]. intros ?? []%elem_of_nil. }
  rewrite orb_false_iff, existsb_false_elem, IH, NoDup_cons. setoid_rewrite bool_decide_eq_false.
  setoid_rewrite elem_of_cons. setoid_rewrite elem_of_app. setoid_rewrite list_elem_of_singleton.
  rewrite elem_of_map. naive_solver.
Qed.

#[export] Instance carrier_tag_inj : Inj (=) (=) carrier_tag.
Proof. by intros [] []. Qed.

Lemma leaf_tags_distinct cs : kind_twice [] cs = false → NoDup (map leaf_tag cs).
Proof.
  intros [Hd _]%kind_twice_spec. unfold leaf_tag. rewrite <-(map_map carrier_kind carrier_tag).
  by apply (NoDup_fmap_2 carrier_tag).
Qed.

(** What a session's parts must be. *)
Definition session_ok (i : SessionInput) : Prop :=
  carriers i ≠ [] ∧ NoDup (map carrier_kind (carriers i)) ∧ active_carrier i ∈ map carrier_kind (carriers i) ∧
  is_key (expose (device_private_key i)) = true ∧ is_key (server_public_key i) = true ∧
  is_cidr (device_address i) = true ∧ session_port i ≠ 0 ∧ control_port (control i) ≠ 0 ∧
  MIN_CONTROL_SECRET_LEN ≤ str_len (expose (control_secret (control i))).

Lemma check_session_parts_ok k s a p u :
  check_session_parts k s a p = Ok u ↔ is_key (expose k) = true ∧ is_key s = true ∧ is_cidr a = true ∧ p ≠ 0.
Proof.
  destruct u. unfold check_session_parts. destruct (is_key (expose k)), (is_key s), (is_cidr a); simpl; try naive_solver.
  destruct (Z.eqb_spec p 0); naive_solver.
Qed.

Lemma active_among i :
  existsb (fun c => bool_decide (carrier_kind c = active_carrier i)) (carriers i) = true ↔
    active_carrier i ∈ map carrier_kind (carriers i).
Proof.
  rewrite existsb_exists_elem, elem_of_map. setoid_rewrite bool_decide_eq_true. naive_solver.
Qed.

Lemma validate_session_ok i : validate i = Ok () ↔ session_ok i.
Proof.
  unfold validate, session_ok. rewrite <-active_among.
  assert (NoDup (map carrier_kind (carriers i)) ↔ kind_twice [] (carriers i) = false) as ->.
  { rewrite kind_twice_spec. split; [|tauto]. intros ?. split; [done|]. intros ?? _ []%elem_of_nil. }
  case_bool_decide as Ec; [naive_solver|]. destruct (kind_twice [] (carriers i)); [naive_solver|].
  destruct (existsb _ (carriers i)); [|naive_solver]. cbn [negb]. rewrite bind_Ok. 
  setoid_rewrite check_session_parts_ok.
  destruct (Z.eqb_spec (control_port (control i)) 0); [naive_solver|].
  destruct (Z.ltb_spec (str_len (expose (control_secret (control i)))) MIN_CONTROL_SECRET_LEN); naive_solver lia.
Qed.

(** ** One profile *)

Lemma primary_parts i c :
  generate_primary_core_config i = Ok c →
  ∃ proxy tunnel, outbounds c = [proxy; direct_outbound] ∧ outbound_tag proxy = PROXY_TAG ∧ endpoints c = [] ∧
    dns_chain (dns c) = dns_rules (pi_rules i) tunnel ∧ final_server (dns c) = LOCAL_DNS ∧
    route_chain (route c) = route_rules (pi_rules i) ∧ final_outbound (route c) = PROXY_TAG ∧
    default_domain_resolver (route c) = LOCAL_DNS ∧
    ((∃ o, proxy = DirectBound o ∧ domain_resolver o = TUNNEL_DNS) ∧ tunnel = Some TUNNEL_DNS ∧
       resolvers c = [FAKEIP_DNS; LOCAL_DNS; TUNNEL_DNS] ∨
     (∀ o, proxy ≠ DirectBound o) ∧ (∀ o, proxy ≠ Selector o) ∧ tunnel = None ∧ resolvers c = [FAKEIP_DNS; LOCAL_DNS]).
Proof.
  unfold generate_primary_core_config. intros ([proxy srv] & Hp & E)%bind_Ok. injection E as <-.
  exists proxy, (if bool_decide (profile_kind (active_profile i) = AmneziaWg) then Some TUNNEL_DNS else None).
  unfold resolvers. cbn [servers dns]. destruct (profile_kind (active_profile i)).
  - unbind Hp. injection Hp as <- <-. split_and!; try done. left. split; [by eexists|]. done.
  - destruct (primary_transport i) as [[t|t]|]; [|done..]. unbind Hp. injection Hp as <- <-.
    split_and!; try done; [by eapply hysteria2_outbound_tag|by right].
  - destruct (primary_transport i) as [[t|t]|]; [done| |done]. unbind Hp. injection Hp as <- <-.
    split_and!; try done; [by eapply reality_outbound_tag|by right].
Qed.

Ltac evaluated := refine (bool_decide_unpack _ _); vm_compute; exact I.

Ltac listed := rewrite ?elem_of_app, ?elem_of_cons; cbv; tauto.

Lemma primary_closed i c : generate_primary_core_config i = Ok c → closed c.
Proof.
  intros (proxy & tunnel & Ho & Htag & He & Hd & Hdf & Hr & Hf & Hdr & Hcase)%primary_parts.
  assert (places c = [PROXY_TAG; DIRECT_TAG]) as Hplaces.
  { unfold places. rewrite Ho, He. simpl. by rewrite Htag. }
  assert (NoDup (resolvers c) ∧ LOCAL_DNS ∈ resolvers c ∧ FAKEIP_DNS ∈ resolvers c ∧
    (∀ s, tunnel = Some s → s ∈ resolvers c)) as (Hnd & Hl & Hfk & Ht).
  { destruct Hcase as [(_ & -> & ->)|(_ & _ & -> & ->)].
    - split_and!; [evaluated|listed..|]. intros s [= <-]. listed.
    - split_and!; [evaluated|listed..|done]. }
  constructor; rewrite ?Hplaces, ?Hr, ?Hf, ?Hd, ?Hdf, ?Hdr, ?Ho, ?He; try done.
  - evaluated.
  - listed.
  - intros r o Hin Hout. destruct (route_rules_go _ _ _ Hin Hout) as [-> | ->]; listed.
  - intros r s Hin Hs. destruct (dns_rules_ask _ _ _ _ Hin Hs) as [->|[->|E]]; [done..|by apply Ht].
  - intros o [E|[E|[]%elem_of_nil]%elem_of_cons]%elem_of_cons; [|done].
    destruct Hcase as [((x & -> & _) & _)|(_ & Hn & _)]; [done|]. by destruct (Hn o).
  - intros o [E|[E|[]%elem_of_nil]%elem_of_cons]%elem_of_cons; [|done].
    destruct Hcase as [((x & -> & Hx) & _ & Hres)|(Hn & _)]; [|by destruct (Hn o)].
    injection E as ->. rewrite Hx, Hres. listed.
  - by intros e []%elem_of_nil.
Qed.

(** ** A session *)

Lemma leaves_plain cs os o : leaves cs = Ok os → o ∈ os → (∀ x, o ≠ Selector x) ∧ (∀ x, o ≠ DirectBound x).
Proof.
  revert os. induction cs as [|c cs IH]; intros os E; simpl in E; [injection E as <-; by intros []%elem_of_nil|].
  unbind E. injection E as <-. intros [->|Ho]%elem_of_cons; [|by eapply IH].
  unfold carrier_leaf in Hu. destruct (carrier_transport c); unbind Hu; by injection Hu as <-.
Qed.

Lemma leaf_tag_cases c : leaf_tag c = "hy2" ∨ leaf_tag c = "reality".
Proof. unfold leaf_tag. destruct (carrier_kind c); auto. Qed.

Lemma session_closed i c : generate_session_config i = Ok c → closed c.
Proof.
  unfold generate_session_config. intros E. unbind E. destruct u. rename u0 into os, Hu0 into Hos.
  assert (NoDup (map leaf_tag (carriers i)) ∧ active_carrier i ∈ map carrier_kind (carriers i)) as [Hnd Hact].
  { apply validate_session_ok in Hu as (_ & Hd & Ha & _). split; [|done].
    unfold leaf_tag. rewrite <-(map_map carrier_kind carrier_tag). by apply (NoDup_fmap_2 carrier_tag). }
  injection E as <-. pose proof (leaves_tags _ _ Hos) as Htags.
  assert (∀ t, t ∈ map leaf_tag (carriers i) → t = "hy2" ∨ t = "reality") as Hcase.
  { intros t (x & -> & _)%elem_of_map. apply leaf_tag_cases. }
  constructor; cbn [outbounds endpoints route dns servers dns_chain final_server route_chain final_outbound
    default_domain_resolver resolvers places map]; unfold places, resolvers;
    cbn [outbounds endpoints dns servers map dns_tag]; rewrite ?map_app, ?Htags; cbn [map outbound_tag selector_tag
      direct_outbound direct_tag se_tag session_endpoint].
  - rewrite <-app_assoc. apply NoDup_app. split_and!; [done| |evaluated].
    intros t Ht. destruct (Hcase t Ht) as [-> | ->]; evaluated.
  - evaluated.
  - listed.
  - intros r o Hin Ho. destruct (route_rules_go _ _ _ Hin Ho) as [-> | ->]; listed.
  - intros r s Hin Hs. destruct (dns_rules_ask _ _ _ _ Hin Hs) as [->|[->|E]]; [listed..|done].
  - split; listed.
  - intros o [Ho|Ho]%elem_of_app; [by destruct (proj1 (leaves_plain _ _ _ Hos Ho) o)|].
    apply elem_of_cons in Ho as [[= ->]|[Ho|[]%elem_of_nil]%elem_of_cons]; [|done].
    cbn [selector_default selector_outbounds]. split.
    + apply elem_of_map in Hact as (x & -> & Hx). apply elem_of_map. by exists x.
    + intros t Ht. apply elem_of_app. by left.
  - intros o [Ho|Ho]%elem_of_app; [by destruct (proj2 (leaves_plain _ _ _ Hos Ho) o)|].
    apply elem_of_cons in Ho as [Ho|[Ho|[]%elem_of_nil]%elem_of_cons]; done.
  - intros e [->|[]%elem_of_nil]%elem_of_cons. cbn [se_detour session_endpoint]. listed.
Qed.

(** ** What is sent, and where a probe can be reached

    What an outbound must be, written beside the generators: whom it reaches, with which secrets, behind which
    obfuscation, verified by what, claiming which bandwidth. *)

(** The server is verified under its own name: by the public authorities, or by the one key that was pinned. *)
Definition verifies (tr : ServerTrust) (tls : OutboundTls) : Prop :=
  tls_enabled tls = true ∧ tls_utls tls = None ∧ tls_reality tls = None ∧
  match tr with
  | PublicCa name =>
      is_dns_hostname name = true ∧ tls_server_name tls = name ∧ certificate_public_key_sha256 tls = []
  | PinnedPublicKey name pin =>
      is_dns_hostname name = true ∧ tls_server_name tls = name ∧
      certificate_public_key_sha256 tls = [standard_encode pin]
  end.

(** The obfuscation the endpoint asked for, under the password that is for nothing else. *)
Definition obfuscates (asked : Hysteria2Obfs) (credentials : Hysteria2Credentials) (s : ObfsSection) : Prop :=
  expose (obfs_secret s) ≠ "" ∧ obfs_secret s = obfs_password credentials ∧
  obfs_secret s ≠ auth_password credentials ∧
  match asked with
  | Salamander => obfs_kind s = "salamander" ∧ obfs_min s = None ∧ obfs_max s = None
  | Gecko lo hi => obfs_kind s = "gecko" ∧ obfs_min s = Some lo ∧ obfs_max s = Some hi ∧ 256 ≤ lo ≤ hi ∧ hi ≤ 1400
  end.

(** Bandwidth is claimed for a person who acknowledged the warning in force, as much as they said; otherwise the
    sender paces itself. *)
Definition paced_by (client : Hysteria2ClientParams) (brutal : option BrutalOptIn) (o : Hysteria2Outbound) : Prop :=
  match brutal with
  | None => hy2_up_mbps o = None ∧ hy2_down_mbps o = None ∧ hy2_bbr_profile o = Some (bbr_as_str (bbr_profile client))
  | Some b =>
      is_current (acknowledgement b) = true ∧ hy2_bbr_profile o = None ∧
      up_mbps (bandwidth b) ≠ 0 ∧ hy2_up_mbps o = Some (up_mbps (bandwidth b)) ∧
      down_mbps (bandwidth b) ≠ 0 ∧ hy2_down_mbps o = Some (down_mbps (bandwidth b))
  end.

(** An outbound that carries traffic to an endpoint by a transport. *)
Definition carries (tag : string) (e : ActiveEndpointBypass) (t : PrimaryTransport) (brutal : option BrutalOptIn)
    (o : Outbound) : Prop :=
  match t, o with
  | CarriedByHysteria2 t, OutHysteria2 o =>
      hy2_kind o = "hysteria2" ∧ hy2_tag o = tag ∧ hy2_server o = bypass_host e ∧ hy2_server_port o = bypass_port e ∧
      expose (hy2_password o) ≠ "" ∧ hy2_password o = auth_password (hy2_credentials t) ∧
      obfuscates (obfs (hy2_endpoint (hy2_settings t))) (hy2_credentials t) (hy2_obfs o) ∧
      verifies (trust (hy2_endpoint (hy2_settings t))) (hy2_tls o) ∧
      paced_by (hy2_client (hy2_settings t)) brutal o ∧
      disable_chrome_parrot o = negb (chrome_parrot (hy2_client (hy2_settings t)))
  | CarriedByReality t, Vless o =>
      let parts := rs_endpoint (rt_settings t) in
      vless_kind o = "vless" ∧ vless_tag o = tag ∧ vless_server o = bypass_host e ∧ vless_server_port o = bypass_port e ∧
      vless_uuid o = rc_uuid (rt_credentials t) ∧ str_len (expose (vless_uuid o)) = 36 ∧
      is_Some (uuid_parse_str (expose (vless_uuid o))) ∧
      vless_flow o = match re_flow parts with NoFlow => None | Vision => Some "xtls-rprx-vision" end ∧
      tls_enabled (vless_tls o) = true ∧ tls_server_name (vless_tls o) = target_as_str (re_target_domain parts) ∧
      tls_utls (vless_tls o) =
        Some (mkUtls true (utls_as_str (client_fingerprint (rs_client (rt_settings t))))) ∧
      tls_reality (vless_tls o) =
        Some (mkRealitySection true (reality_key_as_str (re_public_key parts)) (rc_short_id (rt_credentials t))) ∧
      1 ≤ str_len (expose (rc_short_id (rt_credentials t))) ≤ 16
  | _, _ => False
  end.

Lemma str_not_empty s : str_is_empty s = false → s ≠ "".
Proof. by intros E ->. Qed.

Lemma verified_verifies tr tls : verified_by tr = Ok tls → verifies tr tls.
Proof.
  unfold verified_by. destruct (is_dns_hostname _) eqn:E; [|done]. intros [= <-]. destruct tr; by split_and!.
Qed.

Lemma gecko_sizes lo hi : gecko_packet_sizes_valid lo hi = true → 256 ≤ lo ≤ hi ∧ hi ≤ 1400.
Proof. unfold gecko_packet_sizes_valid, GECKO_PACKET_SIZE_MIN, GECKO_PACKET_SIZE_MAX. lia. Qed.

Lemma section_obfuscates asked c s u :
  validate_credentials c = Ok u → obfs_section asked (obfs_password c) = Ok s →
  obfuscates asked c s ∧ expose (auth_password c) ≠ "".
Proof.
  unfold validate_credentials, obfs_section. intros Hc Hs.
  destruct (str_is_empty (expose (auth_password c))) eqn:E1; [done|].
  destruct (str_is_empty (expose (obfs_password c))) eqn:E2; [done|]. case_bool_decide as E3; [done|].
  split; [|by apply str_not_empty]. unfold obfuscates.
  destruct asked as [|lo hi]; [|destruct (gecko_packet_sizes_valid lo hi) eqn:Eg; [|done]]; injection Hs as <-; simpl.
  - split_and!; [by apply str_not_empty|done|congruence|done..].
  - destruct (gecko_sizes _ _ Eg) as [? ?]. split_and!; [by apply str_not_empty|done|congruence|try done; lia..].
Qed.

Lemma hysteria2_carries tag e t b o :
  hysteria2_outbound tag e t b = Ok o → carries tag e (CarriedByHysteria2 t) b (OutHysteria2 o).
Proof.
  unfold hysteria2_outbound. intros E. unbind E. injection E as <-.
  destruct (section_obfuscates _ _ _ _ Hu Hu0) as [Hobfs Hauth]. apply verified_verifies in Hu1.
  unfold carries, paced_by. cbn [hy2_kind hy2_tag hy2_server hy2_server_port hy2_password hy2_obfs hy2_tls hy2_up_mbps
    hy2_down_mbps hy2_bbr_profile disable_chrome_parrot].
  split_and!; try done. unfold brutal_bandwidth, brutal_resolve in Hu2. destruct b as [b|]; [|by injection Hu2 as <-].
  destruct (warning_revision _ =? _) eqn:Ew; [|done]. simpl in Hu2.
  destruct (Z.eqb_spec (up_mbps (bandwidth b)) 0); [done|]. destruct (Z.eqb_spec (down_mbps (bandwidth b)) 0); [done|].
  by injection Hu2 as <-.
Qed.

Lemma reality_carries tag e t b o :
  reality_outbound tag e t = Ok o → carries tag e (CarriedByReality t) b (Vless o).
Proof.
  unfold reality_outbound. intros E. unbind E. injection E as <-.
  unfold validate_uuid, UUID_TEXT_LEN in Hu. destruct ((_ =? _) && _) eqn:E1 in Hu; [|done].
  apply andb_true_iff in E1 as [E0%Z.eqb_eq E1%bool_decide_eq_true].
  unfold validate_short_id, SHORT_ID_MAX_BYTES in Hu0. destruct (_ && forallb _ _) eqn:E2 in Hu0; [|done].
  apply andb_true_iff in E2 as [[[E2 _]%andb_true_iff E3%Z.leb_le]%andb_true_iff _].
  apply negb_true_iff, str_not_empty in E2.
  assert (1 ≤ str_len (expose (rc_short_id (rt_credentials t)))).
  { unfold str_len. destruct (expose (rc_short_id (rt_credentials t))); [done|]. simpl String.length. lia. }
  unfold carries. by split_and!.
Qed.

Lemma leaf_carries c o :
  carrier_leaf c = Ok o →
  carries (match carrier_transport c with CarriedByHysteria2 _ => "hy2" | CarriedByReality _ => "reality" end)
    (carrier_endpoint c) (carrier_transport c) (carrier_brutal c) o.
Proof.
  unfold carrier_leaf, carrier_kind. destruct (carrier_transport c); intros E; unbind E; injection E as <-.
  - by apply hysteria2_carries.
  - by apply reality_carries.
Qed.

(** The outbounds of a session, one for each of its carriers. *)
Definition carries_all : list Carrier → list Outbound → Prop :=
  Forall2 (fun c => carries
    (match carrier_transport c with CarriedByHysteria2 _ => "hy2" | CarriedByReality _ => "reality" end)
    (carrier_endpoint c) (carrier_transport c) (carrier_brutal c)).

Lemma leaves_carry cs os : leaves cs = Ok os → carries_all cs os.
Proof.
  revert os. induction cs as [|c cs IH]; intros os E; simpl in E; [injection E as <-; constructor|].
  unbind E. injection E as <-. constructor; [by apply leaf_carries|by apply IH].
Qed.

(** The profile's way out: by the adapter of its tunnel and no other, or carried to its endpoint. *)
Definition primary_way (i : PrimaryCoreInput) (c : PrimaryCoreConfig) (o : Outbound) : Prop :=
  match profile_kind (active_profile i) with
  | AmneziaWg =>
      ∃ adapter, amneziawg_adapter i = Some adapter ∧
        o = DirectBound {| bound_kind := "direct"; bound_tag := "proxy"; bind_interface := adapter;
                           domain_resolver := "tunnel-dns" |} ∧
        (∃ server, Udp "tunnel-dns" server 53 adapter ∈ servers (dns c)) ∧
        ∀ tag server p out, Udp tag server p out ∈ servers (dns c) → out = adapter
  | Hysteria2 =>
      ∃ t, primary_transport i = Some (CarriedByHysteria2 t) ∧
        carries "proxy" (endpoint_bypass i) (CarriedByHysteria2 t) (profile_brutal (active_profile i)) o
  | VlessReality =>
      ∃ t, primary_transport i = Some (CarriedByReality t) ∧
        carries "proxy" (endpoint_bypass i) (CarriedByReality t) (profile_brutal (active_profile i)) o
  end.

Lemma primary_protected i c :
  generate_primary_core_config i = Ok c →
  ∃ o, outbounds c = [o; Direct (mkDirect "direct" "direct")] ∧ endpoints c = [] ∧ primary_way i c o.
Proof.
  unfold generate_primary_core_config, primary_way. intros ([proxy srv] & Hp & E)%bind_Ok. injection E as <-.
  cbn [outbounds endpoints dns servers]. exists proxy. split; [done|]. split; [done|].
  destruct (profile_kind (active_profile i)).
  - apply bind_Ok in Hp as (adapter & Ha & Hp). injection Hp as <- <-.
    exists adapter. split; [by destruct (amneziawg_adapter i); [injection Ha as ->|]|]. split; [done|]. split.
    + eexists. do 2 right. by left.
    + by intros tag server p out [Hs|[Hs|[[= _ _ _ ->]|[]%elem_of_nil]%elem_of_cons]%elem_of_cons]%elem_of_cons.
  - destruct (primary_transport i) as [[t|t]|]; [|done..]. unbind Hp. injection Hp as <- <-.
    exists t. split; [done|]. by apply hysteria2_carries.
  - destruct (primary_transport i) as [[t|t]|]; [done| |done]. unbind Hp. injection Hp as <- <-.
    exists t. split; [done|]. by apply reality_carries.
Qed.

(** The tunnel inside a session: between the device's key and the server's, through what the session is given. *)
Definition tunnels_between (device : Secret) (server address : string) (port : Z) (through : string)
    (e : SessionEndpoint) : Prop :=
  se_kind e = "wireguard" ∧ se_system e = false ∧ se_private_key e = device ∧ se_address e = [address] ∧
  se_detour e = through ∧
  ∃ p, se_peers e = [p] ∧ peer_public_key p = server ∧ peer_address p = "127.0.0.1" ∧ peer_port p = port ∧ port ≠ 0.

Lemma checked_tunnels device server address port through u :
  check_session_parts device server address port = Ok u →
  tunnels_between device server address port through (session_endpoint through device server address port).
Proof.
  unfold check_session_parts. destruct (negb _); [done|]. destruct (negb _); [done|]. destruct (negb _); [done|].
  destruct (Z.eqb_spec port 0); [done|]. intros _. unfold tunnels_between. split_and!; [done..|]. eexists. by split_and!.
Qed.

Lemma validate_parts i u :
  validate i = Ok u →
  ∃ v, check_session_parts (device_private_key i) (server_public_key i) (device_address i) (session_port i) = Ok v.
Proof.
  unfold validate. case_bool_decide; [done|]. destruct (kind_twice _ _); [done|]. destruct (negb _); [done|].
  intros (v & Hv & _)%bind_Ok. by exists v.
Qed.

Lemma session_protected i c :
  generate_session_config i = Ok c →
  ∃ os s e, outbounds c = os ++ [Selector s; Direct (mkDirect "direct" "direct")] ∧ endpoints c = [e] ∧
    carries_all (carriers i) os ∧ selector_tag s = "carrier" ∧ selector_outbounds s = map outbound_tag os ∧
    selector_default s = carrier_tag (active_carrier i) ∧ selector_default s ∈ selector_outbounds s ∧
    tunnels_between (device_private_key i) (server_public_key i) (device_address i) (session_port i) "carrier" e.
Proof.
  unfold generate_session_config. intros Hc. unbind Hc. rename u0 into os, Hu0 into Hos. destruct (validate_parts _ _ Hu) as [v Hv]. destruct u.
  injection Hc as <-. cbn [outbounds endpoints].
  eexists os, _, _. split; [done|]. split; [done|]. cbn [selector_tag selector_outbounds selector_default].
  pose proof (leaves_tags _ _ Hos) as Htags. split_and!; [by apply leaves_carry|done|by rewrite Htags|done| |].
  - apply validate_session_ok in Hu as (_ & _ & Hact & _). apply elem_of_map in Hact as (x & -> & Hx).
    apply elem_of_map. by exists x.
  - by eapply checked_tunnels.
Qed.

(** A probe listens where only this machine reaches it and only for who knows the name and the password it was given,
    and routes what it is given to one place. *)
Definition probe_private (auth : SocksAuth) (port : Z) (final : string) (c : ProbeConfig) : Prop :=
  (∃ s u, pc_inbounds c = [s] ∧ socks_listen s = "127.0.0.1" ∧ socks_listen_port s = port ∧ port ≠ 0 ∧
     socks_users s = [u] ∧ user_name u = auth_username auth ∧ user_name u ≠ "" ∧
     user_password u = socks_password auth ∧ expose (user_password u) ≠ "") ∧
  pr_final (pc_route c) = final ∧ pr_resolver (pc_route c) ∈ map pd_tag (pd_servers (pc_dns c)).

Lemma check_proxy_ok a p u :
  check_proxy a p = Ok u → p ≠ 0 ∧ auth_username a ≠ "" ∧ expose (socks_password a) ≠ "".
Proof.
  unfold check_proxy. destruct (Z.eqb_spec p 0); [done|]. destruct (str_is_empty (auth_username a)) eqn:E1; [done|].
  destruct (str_is_empty (expose (socks_password a))) eqn:E2; [done|]. intros _.
  split_and!; [done|by apply str_not_empty..].
Qed.

Lemma probe_ok i c :
  generate_probe_config i = Ok c →
  probe_private (socks_auth i) (socks_port i) "proxy" c ∧
  ∃ o t, pc_outbounds c = [o] ∧ pc_endpoints c = [] ∧ probe_transport i = Some t ∧
    profile_kind (probe_profile i) = match t with CarriedByHysteria2 _ => Hysteria2 | CarriedByReality _ => VlessReality end ∧
    carries "proxy" (probe_endpoint i) t (profile_brutal (probe_profile i)) o.
Proof.
  unfold generate_probe_config. intros (u & (Hp & Hn & Hw)%check_proxy_ok & (proxy & Hx & E)%bind_Ok)%bind_Ok.
  injection E as <-. unfold probe_private. cbn [pc_inbounds pc_outbounds pc_endpoints pc_route pc_dns]. split.
  - split_and!; [|done|simpl; listed]. eexists _, _. by split_and!.
  - destruct (profile_kind (probe_profile i)), (probe_transport i) as [[t|t]|]; try done; unbind Hx; injection Hx as <-;
      eexists _, _; split_and!; try done.
    + by apply hysteria2_carries.
    + by apply reality_carries.
Qed.

Lemma session_probe_ok i c :
  generate_session_probe_config i = Ok c →
  probe_private (sp_auth i) (sp_socks_port i) "proxy" c ∧
  ∃ o e, pc_outbounds c = [o] ∧ pc_endpoints c = [e] ∧ carries_all [sp_carrier i] [o] ∧
    se_tag e = "proxy" ∧ outbound_tag o ≠ se_tag e ∧
    tunnels_between (sp_device_private_key i) (sp_server_public_key i) (sp_device_address i) (sp_session_port i)
      (outbound_tag o) e.
Proof.
  unfold generate_session_probe_config. intros (u & (Hp & Hn & Hw)%check_proxy_ok & E)%bind_Ok. unbind E.
  rename u1 into leaf, Hu0 into Hleaf. injection E as <-.
  unfold probe_private. cbn [pc_inbounds pc_outbounds pc_endpoints pc_route pc_dns].
  pose proof (carrier_leaf_tag _ _ Hleaf) as Ht. split.
  - split_and!; [|done|simpl; listed]. eexists _, _. by split_and!.
  - eexists _, _. split_and!; [done..| | | |].
    + constructor; [by apply leaf_carries|constructor].
    + done.
    + rewrite Ht. cbn [se_tag session_endpoint]. by destruct (leaf_tag_cases (sp_carrier i)) as [-> | ->].
    + rewrite Ht. by eapply checked_tunnels.
Qed.
End Generated.

(** ** Names

    How the core takes one of the generated DNS rules to hold of a query: its documented behaviour, for the shapes of
    rule that are generated. The first rule that holds answers. *)

Class CoreDns : Type := dns_holds : DnsRule → string → string → bool.

Class CoreDnsLaws `{CoreDns} : Prop := {
  holds_name d act srv n q :
    dns_holds (mkDnsRule [d] [] [] false act srv) n q = String.eqb (to_ascii_lowercase n) (to_ascii_lowercase d);
  holds_suffix s act srv n q :
    dns_holds (mkDnsRule [] [s] [] false act srv) n q = under (to_ascii_lowercase n) (to_ascii_lowercase s);
  holds_type types inv act srv n q :
    types ≠ [] → dns_holds (mkDnsRule [] [] types inv act srv) n q = xorb inv (bool_decide (q ∈ types));
}.

Definition dns_answer `{CoreDns} (chain : list DnsRule) (name type : string) : option DnsRule :=
  List.find (fun d => dns_holds d name type) chain.

(** A connection to a name, to no port a rule asks about. *)
Definition to_name (n : string) : Flow := mkFlow (Named n) 443 TransportTcp None.

Lemma dns_entry_holds `{CoreDnsLaws, ToLowercase} r d n q :
  dns_entry r = Some d → writable r → normalize_domain n = Some (to_ascii_lowercase n) →
  dns_holds d n q = matches r (to_name n) ∧
  (dr_action d, dr_server d) = if bool_decide (action r = Reject) then ("reject", None) else ("route", Some LOCAL_DNS).
Proof.
  unfold dns_entry, writable, matches. intros ([ns ss] & Hm & Hd)%bind_Some Hr Hn. simpl in Hd.
  assert (∃ act srv, (if bool_decide (action r = Reject) then ("reject", None) else ("route", Some LOCAL_DNS)) = (act, srv) ∧
    d = mkDnsRule ns ss [] false act srv) as (act & srv & -> & ->).
  { destruct (bool_decide _); injection Hd as <-; eauto. }
  split; [|done]. cbn [destination to_name].
  destruct (matcher r) as [p|p| | | |]; try done; injection Hm as <- <-; destruct Hr as [w Ew]; rewrite Ew, Hn.
  - by rewrite holds_name, (written_lower _ _ Ew).
  - by rewrite holds_suffix, (written_lower _ _ Ew).
Qed.

Lemma no_dns_entry `{ToLowercase} r n : dns_entry r = None → matches r (to_name n) = false.
Proof.
  unfold dns_entry, matches. destruct (matcher r); simpl; try done; by destruct (bool_decide _).
Qed.

Lemma find_omap {A B} (g : A → option B) (p : B → bool) l x :
  List.find p (omap g l) = Some x →
  ∃ y, g y = Some x ∧ List.find (λ y, match g y with Some z => p z | None => false end) l = Some y.
Proof.
  induction l as [|y l IH]; [done|]. simpl. destruct (g y) as [z|] eqn:E; [|exact IH].
  simpl. destruct (p z); [|exact IH]. intros [= ->]. by exists y.
Qed.

Lemma find_filter_all {A} (p q : A → bool) l :
  (∀ x, x ∈ l → p x = true → q x = true) → List.find p (List.filter q l) = List.find p l.
Proof.
  induction l as [|x l IH]; [done|]. intros H. simpl. destruct (q x) eqn:Eq; simpl.
  - destruct (p x); [done|]. apply IH. set_solver.
  - destruct (p x) eqn:Ep; [|apply IH; set_solver]. by rewrite (H x) in Eq by (try done; by left).
Qed.

Lemma find_omap_none {A B} (g : A → option B) (p : B → bool) l :
  List.find p (omap g l) = None →
  List.find (λ y, match g y with Some z => p z | None => false end) l = None.
Proof.
  induction l as [|y l IH]; [done|]. simpl. destruct (g y) as [z|]; [|exact IH].
  simpl. destruct (p z); [done|exact IH].
Qed.

(** The rule that answers a query, found among the rules themselves. *)
Definition named_answer `{ToLowercase} (rules : list RoutingRule) (n : string) : option RoutingRule :=
  List.find (λ r, matches r (to_name n))
    (List.filter (λ r, match action r with Bypass | Reject => true | _ => false end) (by_precedence rules)).

Lemma dns_answer_cases `{CoreDnsLaws, ToLowercase} rules tunnel n q :
  (∀ r, r ∈ rules → writable r) → normalize_domain n = Some (to_ascii_lowercase n) →
  ∃ d, dns_answer (dns_rules rules tunnel) n q = Some d ∧
  match named_answer rules n with
  | Some r => (dr_action d, dr_server d) = if bool_decide (action r = Reject) then ("reject", None) else ("route", Some LOCAL_DNS)
  | None =>
      if bool_decide (q ∈ ["A"; "AAAA"]) then dr_action d = "route" ∧ dr_server d = Some FAKEIP_DNS
      else (dr_action d, dr_server d) = match tunnel with Some s => ("route", Some s) | None => ("reject", None) end
  end.
Proof.
  intros Hr Hn. unfold dns_answer, dns_rules. rewrite find_app.
  assert (∀ l, (∀ r, r ∈ l → writable r) →
    List.find (λ y, match dns_entry y with Some z => dns_holds z n q | None => false end) l =
    List.find (λ r, matches r (to_name n)) l) as Hext.
  { intros l Hl. apply find_ext. intros r Hin. destruct (dns_entry r) as [d|] eqn:E.
    - by destruct (dns_entry_holds r d n q E (Hl r Hin) Hn).
    - by rewrite (no_dns_entry r n E). }
  set (l := List.filter _ (by_precedence rules)).
  assert (∀ r, r ∈ l → writable r) as Hl.
  { intros r Hin%elem_of_filter_bool. destruct Hin as [Hin _]. apply Hr. by apply elem_of_sort_by in Hin. }
  specialize (Hext l Hl). unfold named_answer. fold l. destruct (List.find _ (omap dns_entry l)) as [d|] eqn:E.
  - exists d. split; [done|]. apply find_omap in E as (r & Hd & Hf). rewrite Hext in Hf. rewrite Hf.
    apply find_Some_elem in Hf as [Hin _]. by destruct (dns_entry_holds r d n q Hd (Hl r Hin) Hn).
  - apply find_omap_none in E. rewrite Hext in E. rewrite E. cbn [List.find].
    rewrite holds_type by done. cbn [xorb]. destruct (bool_decide (q ∈ _)) eqn:Eq.
    + eexists. split; [done|]. done.
    + destruct tunnel as [s|]; rewrite holds_type by done; rewrite Eq; eexists; by split.
Qed.

(** A rule set that passes its checks captures every query for a name that leaves the tunnel inbound, whatever else
    the set says and whatever the query's destination. *)
Lemma routes_capture_dns rules f :
  validate_rule_set rules = Ok () → validate_dns_leak_protection rules = Ok () → flow_port f = 53 →
  core_decision (route_rules rules) f = Capture.
Proof.
  intros Hset%validate_rule_set_ok (c & Hc & Hm & Ha & Hleast)%dns_capture_least Hp.
  assert (rule_holds (route_entry c) f = true) as Hh.
  { unfold route_entry, rule_holds. rewrite Hm, Ha. simpl. by rewrite Hp. }
  unfold core_decision, route_rules. rewrite find_map.
  destruct (List.find _ (by_precedence rules)) as [r|] eqn:E.
  - simpl. rewrite entry_decision. pose proof (find_Some_elem _ _ _ E) as [Hin _].
    unfold by_precedence in *. rewrite elem_of_sort_by in Hin.
    assert (precedence r ≤ precedence c) as Hle.
    { eapply (find_sorted _ _ _ (sort_by_sorted precedence_cmp rules) E); [by apply elem_of_sort_by|exact Hh]. }
    specialize (Hleast r Hin). by rewrite (NoDup_map_inj precedence rules r c Hset Hin Hc) by lia.
  - exfalso. pose proof (find_None_elem _ _ E c) as Hn. simpl in Hn. rewrite Hn in Hh; [done|].
    by apply elem_of_sort_by.
Qed.

(** Taking a half and then another gives both, and the ranges of the two share no address and lie in the pools that
    no rule of a person may touch. *)
Lemma halves_alternate r :
  let '(r1, h1) := rotation_take r in let '(r2, h2) := rotation_take r1 in
  h2 = other h1 ∧ r2 = r ∧
  ∀ a b, cidr_parse (inet4 h1) = Ok a ∧ cidr_parse (inet4 h2) = Ok b ∨
         cidr_parse (inet6 h1) = Ok a ∧ cidr_parse (inet6 h2) = Ok b →
    overlaps a b = false ∧ ∃ ps, pools = Some ps ∧ existsb (λ p, overlaps p a && (prefix_len p <=? prefix_len a)) ps = true.
Proof.
  destruct r as [[]]; simpl; (split; [done|]); (split; [done|]);
    (intros a b [[Ha Hb]|[Ha Hb]]; vm_compute in Ha, Hb; injection Ha as <-; injection Hb as <-;
     (split; [by vm_compute|]); eexists; (split; [vm_compute; reflexivity|by vm_compute])).
Qed.

(** * Properties *)


(** C23. A generated configuration holds together, for one profile as for a session: its outbounds and endpoints have
    tags of their own, every tag that a rule, the switch over the carriers, a detour or a resolver names is there, and
    when the rules passed their checks every query for a name is captured, wherever it was going. *)
Theorem generated_configurations_hold_together `{Base64, UuidText} c rules
    (Hgen : (∃ i, pi_rules i = rules ∧ generate_primary_core_config i = Ok c) ∨
            (∃ i, si_rules i = rules ∧ generate_session_config i = Ok c)) :
  closed c ∧
  (validate_rule_set rules = Ok () → validate_dns_leak_protection rules = Ok () →
     ∀ f, flow_port f = 53 → core_decision (route_chain (route c)) f = Capture).
Proof.
  assert (closed c ∧ route_chain (route c) = route_rules rules) as [Hc Hr].
  { destruct Hgen as [(i & <- & E)|(i & <- & E)].
    - split; [by eapply primary_closed|]. by apply primary_parts in E as (? & ? & ? & ? & ? & ? & ? & ? & _).
    - split; [by eapply session_closed|]. unfold generate_session_config in E. unbind E. by injection E as <-. }
  split; [done|]. rewrite Hr. intros Hset Hleak f. by apply routes_capture_dns.
Qed.


(** Names stay off the local network. Every query is answered by a rule of the chain, so the final resolver is
    never asked; the local resolver is asked only for a name that a bypass rule matches; an address query is otherwise
    answered with a placeholder, and any other goes through the tunnel's resolver or is refused; and where no rule
    that matches the name tunnels it, the local resolver is asked exactly when the evaluator bypasses the name, and the
    query is refused exactly when it refuses it. *)
Theorem names_stay_off_the_local_network `{CoreDnsLaws, ToLowercase} rules tunnel name
    (Hrules : ∀ r, r ∈ rules → writable r) (Hname : normalize_domain name = Some (to_ascii_lowercase name))
    (Htunnel : tunnel ≠ Some LOCAL_DNS) :
  (∀ type, ∃ d, dns_answer (dns_rules rules tunnel) name type = Some d ∧
    (dr_server d = Some LOCAL_DNS → ∃ r, r ∈ rules ∧ action r = Bypass ∧ matches r (to_name name) = true) ∧
    (dr_server d = None ∨ dr_server d = Some LOCAL_DNS ∨ dr_server d = Some FAKEIP_DNS ∨ dr_server d = tunnel)) ∧
  ((∀ r, r ∈ rules → matches r (to_name name) = true → action r = Bypass ∨ action r = Reject) →
   ∃ d, dns_answer (dns_rules rules tunnel) name "A" = Some d ∧
    (dr_server d = Some LOCAL_DNS ↔ decided_action (evaluate rules (to_name name)) = Bypass) ∧
    (dr_action d = "reject" ↔ decided_action (evaluate rules (to_name name)) = Reject)).
Proof.
  split.
  - intros type. destruct (dns_answer_cases rules tunnel name type Hrules Hname) as (d & Hd & Hcase).
    exists d. split; [done|]. destruct (named_answer rules name) as [r|] eqn:E.
    + unfold named_answer in E. apply find_Some_elem in E as [[Hin Hact]%elem_of_filter_bool Hm].
      apply elem_of_sort_by in Hin. destruct (action r) eqn:Ea; try done; simpl in Hcase; injection Hcase as _ ->.
      * split; [|by auto]. intros _. by exists r.
      * split; [done|by auto].
    + destruct (bool_decide _); [destruct Hcase as [_ ->]; split; [done|by auto]|].
      destruct tunnel as [s|]; injection Hcase as _ ->; (split; [by intros [= ->]|by auto]).
  - intros Hall. destruct (dns_answer_cases rules tunnel name "A" Hrules Hname) as (d & Hd & Hcase).
    exists d. split; [done|]. unfold named_answer in Hcase. rewrite find_filter_all in Hcase.
    2:{ intros r Hin%elem_of_sort_by Hm. by destruct (Hall r Hin Hm) as [-> | ->]. }
    unfold evaluate, in_order. unfold by_precedence in Hcase. destruct (List.find _ _) as [r|] eqn:E.
    + apply find_Some_elem in E as [Hin%elem_of_sort_by Hm]. simpl.
      destruct (Hall r Hin Hm) as [Ea|Ea]; rewrite Ea in Hcase |- *; simpl in Hcase; injection Hcase as -> ->; by split.
    + destruct Hcase as [-> ->]. by split.
Qed.

(** A name that a person tunnels inside a suffix they bypass is asked of the local resolver all the same: the chain
    keeps the rules that bypass and refuse, and leaves out the rule that made the exception. *)
Theorem tunnelled_name_is_asked_locally `{CoreDnsLaws, ToLowercase} :
  let rules := [mkRoutingRule 1 (Domain "bank.example.com") Tunnel 200 false;
                mkRoutingRule 2 (DomainSuffix "example.com") Bypass 201 false] in
  decided_action (evaluate rules (to_name "bank.example.com")) = Tunnel ∧
  ∃ d, dns_answer (dns_rules rules None) "bank.example.com" "A" = Some d ∧ dr_server d = Some LOCAL_DNS.
Proof.
  split; [vm_compute; reflexivity|].
  destruct (dns_answer_cases [mkRoutingRule 1 (Domain "bank.example.com") Tunnel 200 false;
    mkRoutingRule 2 (DomainSuffix "example.com") Bypass 201 false] None "bank.example.com" "A") as (d & Hd & Hcase).
  - intros r [->|[->|[]%elem_of_nil]%elem_of_cons]%elem_of_cons; unfold writable; simpl; by eexists.
  - by vm_compute.
  - exists d. split; [exact Hd|]. destruct d as [? ? ? ? act srv]. vm_compute in Hcase.
    by injection Hcase as _ ->.
Qed.

(** * Witnesses *)

Module CoreDemo.
#[export] Instance lowercase : ToLowercase := to_ascii_lowercase.
#[export] Instance base64 : Base64 :=
  {| standard_encode s := s; standard_decode := Some; url_safe_no_pad_decode := Some |}.

(** The core's documented reading of a DNS rule, over all its conditions. *)
#[export] Instance reads_dns : CoreDns := fun r name type =>
  xorb (dr_invert r)
    (match dr_domain r, dr_domain_suffix r with
     | [], [] => true
     | ds, ss =>
         existsb (fun d => String.eqb (to_ascii_lowercase name) (to_ascii_lowercase d)) ds ||
         existsb (fun s => under (to_ascii_lowercase name) (to_ascii_lowercase s)) ss
     end && (bool_decide (dr_query_type r = []) || bool_decide (type ∈ dr_query_type r))).

#[export] Instance reads_dns_laws : CoreDnsLaws.
Proof.
  split; intros; unfold dns_holds, reads_dns;
    cbn [dr_invert dr_domain dr_domain_suffix dr_query_type existsb xorb orb].
  - by rewrite !orb_false_r, andb_true_r.
  - by rewrite !orb_false_r, andb_true_r.
  - by rewrite (bool_decide_eq_false_2 (types = [])).
Qed.

Definition rules : list RoutingRule := [
  mkRoutingRule 1 DnsPort Capture 0 true;
  mkRoutingRule 2 (Cidr demo_block) Bypass 3 true;
  mkRoutingRule 3 (DomainSuffix "Example.COM.") Bypass 200 false;
  mkRoutingRule 4 (Application "C:\Games\game.exe") Tunnel 201 false ].

Definition flow : Flow := mkFlow (Named "WWW.example.com") 443 TransportTcp (Some "C:\Games\game.exe").

Lemma rules_writable r : r ∈ rules → writable r.
Proof.
  revert r. apply Forall_forall. repeat constructor; try (by eexists); vm_compute; congruence.
Qed.

Definition profile : ConnectionProfile := mkConnectionProfile "profile-a" AmneziaWg Tier1 params_new Untested None.
Definition primary : PrimaryCoreInput := {|
  active_profile := profile;
  endpoint_bypass := mkBypass "203.0.113.9" 51820;
  pi_rules := rules;
  amneziawg_adapter := Some "dnet-awg0";
  primary_transport := None;
  pi_fakeip := Low;
|}.

Definition acknowledged : BrutalOptIn := mkBrutalOptIn (mkBandwidthPair 50 200) (mkBrutalAcknowledgement 1 1700000000).
Definition pinned : Hysteria2Transport :=
  mkHy2Transport
    (mkHy2Settings hysteria2_client_default (mkHy2Endpoint (Gecko 300 1200) (PinnedPublicKey "vpn.example.net" "key")))
    (mkHy2Credentials (mkSecret "one") (mkSecret "another")).
Definition session_of_one : SessionInput := {|
  carriers := [mkCarrier (CarriedByHysteria2 pinned) (mkBypass "203.0.113.9" 443) (Some acknowledged)];
  active_carrier := CarrierHysteria2;
  si_rules := rules;
  si_fakeip := High;
  device_private_key := mkSecret "0123456789abcdef0123456789abcdef";
  server_public_key := "fedcba9876543210fedcba9876543210";
  device_address := "10.9.0.2/32";
  session_port := 25182;
  control := mkControlApi 9090 (mkSecret "0123456789abcdef0123456789abcdef");
|}.
End CoreDemo.


Lemma generated_configurations_hold_together_witness :
  ∃ c, @generate_primary_core_config CoreDemo.base64 ToyText.uuid CoreDemo.primary = Ok c ∧ closed c ∧
    core_decision (route_chain (route c)) (mkFlow (Address (V4 0)) 53 TransportUdp None) = Capture.
Proof.
  eexists. split; [vm_compute; reflexivity|].
  match goal with |- closed ?c ∧ _ =>
    destruct (@generated_configurations_hold_together CoreDemo.base64 ToyText.uuid c CoreDemo.rules) as [H1 H2] end.
  - left. exists CoreDemo.primary. split; vm_compute; reflexivity.
  - split; [exact H1|]. apply H2; vm_compute; reflexivity.
Defined.


Lemma names_stay_off_the_local_network_witness :
  ∃ d, @dns_answer CoreDemo.reads_dns (dns_rules CoreDemo.rules None) "www.example.com" "A" = Some d ∧
    dr_server d = Some LOCAL_DNS.
Proof.
  destruct (@names_stay_off_the_local_network CoreDemo.reads_dns CoreDemo.reads_dns_laws CoreDemo.lowercase CoreDemo.rules None
    "www.example.com") as [_ H].
  - exact CoreDemo.rules_writable.
  - vm_compute. reflexivity.
  - discriminate.
  - destruct H as (d & Hd & Hb & _).
    + intros r Hr Hm. revert Hm. revert r Hr.
      apply (Forall_forall (fun r => matches r (to_name "www.example.com") = true → action r = Bypass ∨ action r = Reject)).
      repeat (apply Forall_cons; split; [intros Hm; vm_compute in Hm; try discriminate Hm; left; reflexivity|]).
      apply Forall_nil. exact I.
    + exists d. split; [exact Hd|]. apply Hb. vm_compute. reflexivity.
Defined.
