(* ===== verification/Uapi.v ===== *)
(** How the AmneziaWG core is told about its device: the request and its texts, the response, and the requests this
    program makes (crates/dnet-config/src/uapi.rs and amneziawg.rs). *)

From Stdlib Require Import Ascii.
From S2P Require Import Prelude Text IpText Profile Rule Decimal Transports.

(** * Definitions

    ** The text of a socket address

    [<SocketAddr as FromStr>::from_str]: an IPv4 address and a port, or an IPv6 address in brackets, with a scope
    perhaps, and a port; the whole text must be read. A number without a limit on its digits is read with room for
    as many digits as there is text. *)

Inductive SocketAddr : Type :=
  | SocketV4 (bits port : Z)
  | SocketV6 (bits scope port : Z).

Definition read_unbounded (max_value : Z) (s : string) : option (Z * string) :=
  read_number 10 max_value (String.length s) true s.

Definition read_port (s : string) : option (Z * string) :=
  s ← read_given_char ":" s; read_unbounded U16_MAX s.

Definition read_scope (s : string) : option (Z * string) :=
  s ← read_given_char "%" s; read_unbounded U32_MAX s.

Definition read_socket_v4 (s : string) : option (SocketAddr * string) :=
  '(bits, s) ← read_ipv4_addr s;
  '(port, s) ← read_port s;
  Some (SocketV4 bits port, s).

Definition read_socket_v6 (s : string) : option (SocketAddr * string) :=
  s ← read_given_char "[" s;
  '(bits, s) ← read_ipv6_addr s;
  let '(scope, s) := default (0, s) (read_scope s) in
  s ← read_given_char "]" s;
  '(port, s) ← read_port s;
  Some (SocketV6 bits scope port, s).

Definition parse_socket_addr (s : string) : option SocketAddr :=
  '(a, rest) ← (match read_socket_v4 s with Some r => Some r | None => read_socket_v6 s end);
  if String.eqb rest EmptyString then Some a else None.

(** ** Requests *)

(* src: crates/dnet-config/src/uapi.rs:15-21 UapiLine *)
Record UapiLine : Type := mkLine { line_key : string; line_value : string; line_secret : bool }.

(* src: crates/dnet-config/src/uapi.rs:23-27 UapiRequest *)
Definition UapiRequest : Type := list UapiLine.

(* src: crates/dnet-config/src/uapi.rs:30-32 UapiRequest::new *)
Definition request_new : UapiRequest := [].

(* src: crates/dnet-config/src/uapi.rs:34-42 UapiRequest::push *)
Definition push (key value : string) (r : UapiRequest) : UapiRequest := r ++ [mkLine key value false].

(* src: crates/dnet-config/src/uapi.rs:44-53 UapiRequest::push_secret *)
Definition push_secret (key value : string) (r : UapiRequest) : UapiRequest := r ++ [mkLine key value true].

(* src: crates/dnet-config/src/uapi.rs:55-58 UapiRequest::has_key *)
Definition has_key (key : string) (r : UapiRequest) : bool := existsb (fun l => String.eqb (line_key l) key) r.

(* src: crates/dnet-config/src/uapi.rs:60-72 UapiRequest::to_wire *)
Definition to_wire (r : UapiRequest) : string :=
  concat_str (map (fun l => line_key l +:+ "=" +:+ line_value l +:+ newline) r) +:+ newline.

(* src: crates/dnet-config/src/uapi.rs:74-88 UapiRequest::redacted *)
Definition redacted (r : UapiRequest) : string :=
  concat_str (map (fun l =>
    line_key l +:+ "=" +:+ (if line_secret l then "<redacted>" else line_value l) +:+ newline) r).

(* src: crates/dnet-config/src/uapi.rs:92-96 UapiRequest::to_set_operation *)
Definition to_set_operation (r : UapiRequest) : string := "set=1" +:+ newline +:+ to_wire r.

(* src: crates/dnet-config/src/uapi.rs:136-140 UapiRequest::fmt *)
Definition request_debug (r : UapiRequest) : string := "UapiRequest(" +:+ newline +:+ redacted r +:+ ")".

(** ** The response *)

(* src: crates/dnet-config/src/uapi.rs:99-117 UapiError *)
Inductive UapiError : Type :=
  | PipeUnavailable
  | PipeIo (what : string)
  | Rejected (errno : Z)
  | MalformedResponse
  | TimedOut.

(* src: crates/dnet-config/src/uapi.rs:103-115 UapiError *)
Definition uapi_error_to_string (e : UapiError) : string :=
  match e with
  | PipeUnavailable => "UAPI pipe did not become available within the timeout"
  | PipeIo what => "UAPI pipe I/O failed: " +:+ what
  | Rejected errno => "UAPI operation rejected by the core (errno=" +:+ pretty errno +:+ ")"
  | MalformedResponse => "malformed UAPI response"
  | TimedOut => "UAPI response timed out"
  end.

(* src: crates/dnet-config/src/uapi.rs:119-133 parse_set_response *)
Definition parse_set_response (response : string) : result UapiError unit :=
  found ← ok_or (head (omap (strip_prefix "errno=") (str_lines response))) MalformedResponse;
  errno ← ok_or (parse_i64 (trim found)) MalformedResponse;
  if errno =? 0 then Ok () else Err (Rejected errno).

(** ** The device and its peer *)

(* src: crates/dnet-config/src/amneziawg.rs:18-23 PrivateKey *)
Record PrivateKey : Type := mkPrivateKey { expose_wire : string }.

(* src: crates/dnet-config/src/amneziawg.rs:38-42 PrivateKey::fmt *)
Definition private_key_debug (k : PrivateKey) : string := "PrivateKey(<redacted>)".
(* src: crates/dnet-config/src/amneziawg.rs:44-48 PrivateKey::fmt *)
Definition private_key_to_string (k : PrivateKey) : string := "<redacted>".

(* src: crates/dnet-config/src/amneziawg.rs:50-57 PeerConfig *)
Record PeerConfig : Type := mkPeer {
  peer_key : string;
  peer_endpoint : string;
  peer_allowed : list string;
  peer_keepalive : option Z;
}.

(* src: crates/dnet-config/src/amneziawg.rs:59-72 ObfuscationParams *)
Record ObfuscationParams : Type := mkObfuscation {
  jc : Z; jmin : Z; jmax : Z; s1 : Z; s2 : Z; h1 : Z; h2 : Z; h3 : Z; h4 : Z;
}.

#[export] Instance PrivateKey_eq_dec : EqDecision PrivateKey.
Proof. solve_decision. Defined.
#[export] Instance ObfuscationParams_eq_dec : EqDecision ObfuscationParams.
Proof. solve_decision. Defined.

(** Whether a header is among those after it. *)
(* src: crates/dnet-config/src/amneziawg.rs:79-85 ObfuscationParams::validate *)
Fixpoint overlap (headers : list Z) : bool :=
  match headers with
  | [] => false
  | h :: rest => existsb (Z.eqb h) rest || overlap rest
  end.

(* src: crates/dnet-config/src/amneziawg.rs:75-87 ObfuscationParams::validate *)
Definition validate_obfuscation (o : ObfuscationParams) : result ConfigError unit :=
  if overlap [h1 o; h2 o; h3 o; h4 o] then Err OverlappingHeaders else Ok ().

(* src: crates/dnet-config/src/amneziawg.rs:93-131 build_set_device *)
Definition build_set_device (private_key : PrivateKey) (o : ObfuscationParams) (peer : PeerConfig) :
    result ConfigError UapiRequest :=
  if str_is_empty (trim (peer_key peer)) || str_is_empty (trim (peer_endpoint peer)) then Err IncompletePeer
  else if negb (bool_decide (is_Some (parse_socket_addr (peer_endpoint peer)))) then Err InvalidPeerEndpoint
  else
    _ ← validate_obfuscation o;
    let req := push_secret "private_key" (expose_wire private_key) request_new in
    let req := push "jc" (pretty (jc o)) req in
    let req := push "jmin" (pretty (jmin o)) req in
    let req := push "jmax" (pretty (jmax o)) req in
    let req := push "s1" (pretty (s1 o)) req in
    let req := push "s2" (pretty (s2 o)) req in
    let req := push "h1" (pretty (h1 o)) req in
    let req := push "h2" (pretty (h2 o)) req in
    let req := push "h3" (pretty (h3 o)) req in
    let req := push "h4" (pretty (h4 o)) req in
    let req := push "public_key" (peer_key peer) req in
    let req := push "endpoint" (peer_endpoint peer) req in
    let req := fold_left (fun req allowed => push "allowed_ip" allowed req) (peer_allowed peer) req in
    Ok (match peer_keepalive peer with
        | Some keepalive => push "persistent_keepalive_interval" (pretty keepalive) req
        | None => req
        end).

(* src: crates/dnet-config/src/amneziawg.rs:139-151 build_rebind *)
Definition build_rebind (peer_public_key endpoint : string) : result ConfigError UapiRequest :=
  if str_is_empty (trim peer_public_key) then Err IncompletePeer
  else if negb (bool_decide (is_Some (parse_socket_addr endpoint))) then Err InvalidPeerEndpoint
  else
    let req := push "public_key" peer_public_key request_new in
    let req := push "update_only" "true" req in
    Ok (push "endpoint" endpoint req).

(* src: crates/dnet-config/src/amneziawg.rs:153-158 build_remove_peers *)
Definition build_remove_peers : UapiRequest := push "replace_peers" "true" request_new.

Example responses :
  map parse_set_response [
    "errno=0" +:+ newline +:+ newline; "errno=-5" +:+ of_bytes [13] +:+ newline; "nothing"; "errno=zero"; "errno= 7";
    "errno=9223372036854775808"; "x" +:+ newline +:+ "errno=+0"] =
  [Ok (); Err (Rejected (-5)); Err MalformedResponse; Err MalformedResponse; Err (Rejected 7); Err MalformedResponse;
   Ok ()].
Proof. vm_compute. reflexivity. Qed.

Example socket_addresses :
  map parse_socket_addr ["10.0.0.1:51820"; "[::1]:80"; "[fe80::1%3]:443"; "10.0.0.1"; "example.com:80"; "10.0.0.1:65536";
    "10.0.0.1:000080"; "10.0.0.1:80" +:+ newline] =
  [Some (SocketV4 167772161 51820); Some (SocketV6 1 0 80); Some (SocketV6 (65152 * 2 ^ 112 + 1) 3 443); None; None; None;
   Some (SocketV4 167772161 80); None].
Proof. vm_compute. reflexivity. Qed.

(** * Lemmas

    ** An accepted endpoint is visible text *)

(** What was read of a text is visible. *)
Definition reads (s rest : string) : Prop := ∃ p, s = p +:+ rest ∧ visible p.

Lemma reads_refl s : reads s s.
Proof. exists EmptyString. split; [done|constructor]. Qed.

Lemma reads_trans a b c : reads a b → reads b c → reads a c.
Proof.
  intros (p & -> & Hp) (q & -> & Hq). exists (p +:+ q). rewrite str_app_assoc. split; [done|]. by apply visible_app.
Qed.

Lemma reads_char b s : in_range 33 126 b = true → reads (String b s) s.
Proof. intros Hb. exists (String b EmptyString). split; [done|]. by constructor. Qed.

Lemma reads_given c s t : in_range 33 126 c = true → read_given_char c s = Some t → reads s t.
Proof.
  intros Hc. destruct s as [|d s]; cbn [read_given_char]; [intros [=]|].
  destruct (Ascii.eqb_spec c d) as [<-|]; intros [= <-]. by apply reads_char.
Qed.

Lemma reads_digits radix max_value max_digits acc count s v k t :
  read_digits radix max_value max_digits acc count s = Some (v, k, t) → reads s t.
Proof.
  revert acc count. induction s as [|c s IH]; intros acc count; cbn [read_digits].
  { intros [= _ _ <-]. apply reads_refl. }
  destruct (to_digit radix c) as [d|] eqn:Ed; [|intros [= _ _ <-]; apply reads_refl].
  destruct (_ <? _); [done|]. case_bool_decide; [done|]. intros E%IH. eapply reads_trans; [|exact E].
  apply reads_char. by eapply digit_visible.
Qed.

Lemma reads_number radix max_value max_digits zero s v t :
  read_number radix max_value max_digits zero s = Some (v, t) → reads s t.
Proof.
  unfold read_number. destruct (read_digits _ _ _ _ _ _) as [[[r k] rest]|] eqn:E; [|done]. simpl.
  case_bool_decide; [done|]. destruct (_ && _ && _); [done|]. intros [= _ <-]. by eapply reads_digits.
Qed.

Lemma reads_separator {A} sep i (inner : string → option (A * string)) s v t :
  in_range 33 126 sep = true → (∀ s v t, inner s = Some (v, t) → reads s t) →
  read_separator sep i inner s = Some (v, t) → reads s t.
Proof.
  intros Hsep Hin. destruct i as [|i]; [apply Hin|]. unfold read_separator.
  destruct (read_given_char sep s) as [s'|] eqn:E; [|done]. intros H%Hin.
  eapply reads_trans; [by eapply reads_given|done].
Qed.

Lemma reads_ipv4 s v t : read_ipv4_addr s = Some (v, t) → reads s t.
Proof.
  unfold read_ipv4_addr. intros H.
  assert (∀ i s v t, read_separator "." i read_octet s = Some (v, t) → reads s t) as Hd.
  { intros i s' v' t'. apply reads_separator; [done|]. intros ???. apply reads_number. }
  repeat (apply bind_Some in H as ([? ?] & ?%Hd & H)).
  injection H as _ <-. eauto using reads_trans.
Qed.

Lemma reads_groups i left s gs v4 t : read_groups i left s = (gs, v4, t) → reads s t.
Proof.
  revert i s gs v4 t. induction left as [|left IH]; intros i s gs v4 t; cbn [read_groups].
  { intros [= _ _ <-]. apply reads_refl. }
  destruct (match left with O => None | S _ => read_separator ":" i read_ipv4_addr s end) as [[w s']|] eqn:E4.
  - intros [= _ _ <-]. destruct left; [done|]. by eapply (reads_separator ":"), E4; [done|apply reads_ipv4].
  - destruct (read_separator ":" i read_group s) as [[g s']|] eqn:Eg; [|intros [= _ _ <-]; apply reads_refl].
    destruct (read_groups (S i) left s') as [[gs' v4'] s''] eqn:Er. intros [= _ _ <-].
    eapply reads_trans; [eapply (reads_separator ":"), Eg; [done|]|by eapply IH].
    intros ???. apply reads_number.
Qed.

Lemma reads_ipv6 s v t : read_ipv6_addr s = Some (v, t) → reads s t.
Proof.
  unfold read_ipv6_addr. destruct (read_groups 0 8 s) as [[gs v4] s1] eqn:E1. apply reads_groups in E1.
  case_bool_decide; [by intros [= _ <-]|]. destruct v4; [done|].
  intros Hb. apply bind_Some in Hb as (s2 & E2%reads_given & Hb); [|done].
  apply bind_Some in Hb as (s3 & E3%reads_given & Hb); [|done].
  destruct (read_groups _ _ s3) as [[gs' v4'] s4] eqn:E4. apply reads_groups in E4. injection Hb as _ <-.
  eauto using reads_trans.
Qed.

Lemma reads_port s v t : read_port s = Some (v, t) → reads s t.
Proof.
  unfold read_port. intros Hb. apply bind_Some in Hb as (s' & E%reads_given & H); [|done]. apply reads_number in H. eauto using reads_trans.
Qed.

Lemma reads_scope s v t : read_scope s = Some (v, t) → reads s t.
Proof.
  unfold read_scope. intros Hb. apply bind_Some in Hb as (s' & E%reads_given & H); [|done]. apply reads_number in H. eauto using reads_trans.
Qed.

Lemma socket_addr_visible s : is_Some (parse_socket_addr s) → visible s.
Proof.
  unfold parse_socket_addr. intros [a H]. apply bind_Some in H as ([a' rest] & H & Hr).
  destruct (String.eqb_spec rest EmptyString) as [->|]; [|done]. clear Hr.
  enough (reads s EmptyString) as (p & -> & Hp) by (by rewrite str_app_nil).
  destruct (read_socket_v4 s) as [[a4 r4]|] eqn:E4.
  - injection H as -> ->. unfold read_socket_v4 in E4.
    apply bind_Some in E4 as ([? ?] & ?%reads_ipv4 & ([? ?] & ?%reads_port & [= _ <-])%bind_Some). eauto using reads_trans.
  - unfold read_socket_v6 in H. apply bind_Some in H as (s1 & E1%reads_given & H); [|done].
    apply bind_Some in H as ([? s2] & E2%reads_ipv6 & H).
    destruct (default (0, s2) (read_scope s2)) as [scope s3] eqn:E3.
    assert (reads s2 s3) as Hs.
    { destruct (read_scope s2) as [[sc s3']|] eqn:Es; simpl in E3; injection E3 as _ <-;
        [by eapply reads_scope|apply reads_refl]. }
    apply bind_Some in H as (s4 & E4'%reads_given & H); [|done].
    apply bind_Some in H as ([? s5] & E5%reads_port & [= _ <-]). eauto 10 using reads_trans.
Qed.

Lemma socket_addr_not_blank s : is_Some (parse_socket_addr s) → str_is_empty (trim s) = false.
Proof.
  intros Hs. rewrite trim_visible by (by apply socket_addr_visible). unfold str_is_empty.
  destruct (String.eqb_spec s EmptyString) as [->|]; [|done]. vm_compute in Hs. by destruct Hs.
Qed.

(** ** What the core is sent, read line by line

    An operation is a sequence of lines, a key and a value each, up to a blank line. *)

Fixpoint read_lines (ls : list string) : option (list (string * string)) :=
  match ls with
  | [] => None
  | l :: ls => if str_is_empty l then Some [] else kv ← split_once "=" l; rest ← read_lines ls; Some (kv :: rest)
  end.
Definition read_operation (text : string) : option (list (string * string)) := read_lines (split (byte_of 10) text).

Definition line_pair (l : UapiLine) : string * string := (line_key l, line_value l).

(** A line that can be told from its neighbours. *)
Definition clean (l : string * string) : Prop := "="%char ∉ bytes l.1 ∧ one_line l.1 ∧ one_line l.2.

Lemma read_line kv text :
  clean kv → read_operation (kv.1 +:+ "=" +:+ kv.2 +:+ newline +:+ text) = rest ← read_operation text; Some (kv :: rest).
Proof.
  intros (Hk & Hk1 & Hv1). unfold read_operation.
  replace (kv.1 +:+ "=" +:+ kv.2 +:+ newline +:+ text) with ((kv.1 +:+ "=" +:+ kv.2) +:+ newline +:+ text)
    by (by rewrite !str_app_assoc).
  rewrite split_line; [|by rewrite !one_line_app; split_and!; [..|unfold one_line; vm_compute; set_solver|]].
  cbn [read_lines]. assert (split_once "=" (kv.1 +:+ "=" +:+ kv.2) = Some kv) as ->.
  { destruct kv as [k v]. exact (split_once_spec "=" k v Hk). }
  unfold str_is_empty. destruct (String.eqb_spec (kv.1 +:+ "=" +:+ kv.2) EmptyString) as [E|_]; [|done].
  apply (f_equal bytes) in E. rewrite !bytes_app in E. by destruct (bytes kv.1).
Qed.

Lemma read_pairs r :
  Forall (fun l => clean (line_pair l)) r → read_operation (to_wire r) = Some (map line_pair r).
Proof.
  induction 1 as [|l r Hl Hr IH]; [done|]. unfold to_wire in *. cbn [map concat_str].
  rewrite !str_app_assoc. rewrite (read_line (line_pair l)) by done. by rewrite IH.
Qed.

Lemma read_set_operation r :
  Forall (fun l => clean (line_pair l)) r → read_operation (to_set_operation r) = Some (("set", "1") :: map line_pair r).
Proof.
  intros Hr. unfold to_set_operation. change ("set=1" +:+ newline +:+ to_wire r) with ("set" +:+ "=" +:+ "1" +:+ newline +:+ to_wire r).
  rewrite (read_line ("set", "1")); [by rewrite read_pairs|].
  split_and!; unfold one_line; vm_compute; set_solver.
Qed.

(** ** The requests as lists *)

Definition obfuscation_pairs (o : ObfuscationParams) : list (string * string) :=
  [("jc", pretty (jc o)); ("jmin", pretty (jmin o)); ("jmax", pretty (jmax o)); ("s1", pretty (s1 o));
   ("s2", pretty (s2 o)); ("h1", pretty (h1 o)); ("h2", pretty (h2 o)); ("h3", pretty (h3 o)); ("h4", pretty (h4 o))].

Definition peer_pairs (p : PeerConfig) : list (string * string) :=
  ("public_key", peer_key p) :: ("endpoint", peer_endpoint p) :: map (pair "allowed_ip") (peer_allowed p) ++
  match peer_keepalive p with Some k => [("persistent_keepalive_interval", pretty k)] | None => [] end.

Definition shown (kv : string * string) : UapiLine := mkLine kv.1 kv.2 false.

Lemma push_allowed allowed r :
  fold_left (fun req a => push "allowed_ip" a req) allowed r = r ++ map shown (map (pair "allowed_ip") allowed).
Proof.
  revert r. induction allowed as [|a l IH]; intros r; simpl; [by rewrite app_nil_r|].
  rewrite IH. unfold push. by rewrite <-app_assoc.
Qed.

(** What [build_set_device] checks. *)
Definition device_ok (o : ObfuscationParams) (p : PeerConfig) : Prop :=
  str_is_empty (trim (peer_key p)) = false ∧ str_is_empty (trim (peer_endpoint p)) = false ∧
  is_Some (parse_socket_addr (peer_endpoint p)) ∧ NoDup [h1 o; h2 o; h3 o; h4 o].

Lemma overlap_spec hs : overlap hs = false ↔ NoDup hs.
Proof.
  induction hs as [|h hs IH]; simpl; [by split; [constructor|]|].
  rewrite orb_false_iff, NoDup_cons, IH, existsb_false_elem. setoid_rewrite Z.eqb_neq. naive_solver.
Qed.

Lemma build_set_device_spec k o p r :
  build_set_device k o p = Ok r ↔
  device_ok o p ∧
  r = mkLine "private_key" (expose_wire k) true :: map shown (obfuscation_pairs o ++ peer_pairs p).
Proof.
  unfold build_set_device, device_ok, validate_obfuscation. rewrite <-overlap_spec.
  destruct (str_is_empty (trim (peer_key p))), (str_is_empty (trim (peer_endpoint p))); simpl orb;
    try (split; [done|by intros [(? & ? & _) _]]).
  case_bool_decide as Hep; simpl negb; [|by split; [|intros [(_ & _ & ? & _) _]]].
  destruct (overlap _); [by split; [|intros [(_ & _ & _ & ?) _]]|]. cbn [mbind result_bind].
  rewrite push_allowed. unfold peer_pairs.
  destruct (peer_keepalive p); cbn -[pretty]; rewrite ?map_app; cbn -[pretty]; rewrite ?app_nil_r;
    (split; [intros [= <-]|intros [_ ->]]; done).
Qed.

Lemma build_rebind_spec key ep r :
  build_rebind key ep = Ok r ↔
  str_is_empty (trim key) = false ∧ is_Some (parse_socket_addr ep) ∧
  r = map shown [("public_key", key); ("update_only", "true"); ("endpoint", ep)].
Proof.
  unfold build_rebind. destruct (str_is_empty (trim key)); [by split; [|intros (? & _)]|].
  case_bool_decide as Hep; simpl negb; [|by split; [|intros (_ & ? & _)]].
  split; [by intros [= <-]|by intros (_ & _ & ->)].
Qed.

Lemma clean_shown l : Forall clean l → Forall (fun x => clean (line_pair x)) (map shown l).
Proof. intros Hl. apply Forall_map. eapply Forall_impl; [exact Hl|]. by intros []. Qed.

Lemma pair_shown l : map line_pair (map shown l) = l.
Proof. rewrite map_map. rewrite <-(map_id l) at 2. apply map_ext. by intros []. Qed.

Ltac clean_key := split_and!; [vm_compute; set_solver|unfold one_line; vm_compute; set_solver|].

Lemma clean_device o p :
  one_line (peer_key p) → one_line (peer_endpoint p) → Forall one_line (peer_allowed p) →
  Forall clean (obfuscation_pairs o ++ peer_pairs p).
Proof.
  intros Hk He Ha. apply Forall_app. split.
  - unfold obfuscation_pairs. repeat (apply Forall_cons; split; [clean_key; apply visible_one_line, pretty_visible|]). done.
  - unfold peer_pairs. rewrite !Forall_cons, Forall_app, Forall_map. split; [by clean_key|]. split; [by clean_key|]. split.
    + eapply Forall_impl; [exact Ha|]. intros a ?. by clean_key.
    + destruct (peer_keepalive p); [|done]. constructor; [|done]. clean_key. apply visible_one_line, pretty_visible.
Qed.

Lemma response_reads n rest :
  - 2 ^ 63 ≤ n < 2 ^ 63 →
  parse_set_response ("errno=" +:+ pretty n +:+ newline +:+ rest) = if n =? 0 then Ok () else Err (Rejected n).
Proof.
  intros Hn. pose proof (pretty_visible n) as Hv. unfold parse_set_response.
  rewrite <-str_app_assoc, str_lines_cons.
  - cbn [omap list_omap]. rewrite strip_prefix_app. cbn [head ok_or mbind result_bind].
    by rewrite trim_visible, parse_i64_pretty.
  - apply one_line_app. split; [unfold one_line; vm_compute; set_solver|by apply visible_one_line].
  - destruct (strip_suffix _ _) as [h|] eqn:E; [|done]. apply strip_suffix_spec in E.
    apply (f_equal bytes) in E. rewrite !bytes_app in E.
    assert (byte_of 13 ∈ bytes "errno=" ++ bytes (pretty n)) as Hin by (rewrite E; set_solver).
    apply elem_of_app in Hin as [Hin|Hin]; [vm_compute in Hin; set_solver|].
    unfold visible in Hv. rewrite Forall_forall in Hv. specialize (Hv _ Hin). vm_compute in Hv. done.
Qed.

Lemma device_reads k o p r :
  one_line (expose_wire k) → one_line (peer_key p) → Forall one_line (peer_allowed p) → build_set_device k o p = Ok r →
  read_operation (to_set_operation r) =
    Some (("set", "1") :: ("private_key", expose_wire k) :: obfuscation_pairs o ++ peer_pairs p).
Proof.
  intros Hkey Hpeer Hallowed [(_ & _ & Hep & _) ->]%build_set_device_spec.
  rewrite read_set_operation; [cbn [map]; by rewrite pair_shown|].
  constructor; [by clean_key|]. apply clean_shown, clean_device; [done|by apply visible_one_line, socket_addr_visible|done].
Qed.

(** * Properties *)

(** A peer is never configured without its obfuscation. A device is configured exactly when its peer is complete,
    its endpoint an address and a port, and its headers distinct; what the core is sent then reads back, line by line,
    as the key, every obfuscation parameter and only then the peer, in one operation, and the endpoint's text cannot
    smuggle a line in; the one other request that names a peer can only update one; and the core's answer, any error
    number included, is understood. *)
Theorem device_is_configured_at_once k o p
    (Hkey : one_line (expose_wire k)) (Hpeer : one_line (peer_key p)) (Hallowed : Forall one_line (peer_allowed p)) :
  (is_ok (build_set_device k o p) = true ↔ device_ok o p) ∧
  (∀ r, build_set_device k o p = Ok r → read_operation (to_set_operation r) =
    Some (("set", "1") :: ("private_key", expose_wire k) :: obfuscation_pairs o ++ peer_pairs p)) ∧
  (∀ endpoint r, build_rebind (peer_key p) endpoint = Ok r → read_operation (to_set_operation r) =
    Some [("set", "1"); ("public_key", peer_key p); ("update_only", "true"); ("endpoint", endpoint)]) ∧
  read_operation (to_set_operation build_remove_peers) = Some [("set", "1"); ("replace_peers", "true")] ∧
  (∀ n rest, - 2 ^ 63 ≤ n < 2 ^ 63 → parse_set_response ("errno=" +:+ pretty n +:+ newline +:+ rest) =
    if n =? 0 then Ok () else Err (Rejected n)).
Proof.
  refine (conj _ (conj _ (conj _ (conj _ _)))); [| | |by vm_compute|by intros; apply response_reads].
  - destruct (build_set_device k o p) as [r|e] eqn:E.
    + split; [|done]. intros _. by apply build_set_device_spec in E as [Hok _].
    + split; [intros [=]|]. intros Hok. exfalso.
      by rewrite (proj2 (build_set_device_spec k o p _) (conj Hok eq_refl)) in E.
  - intros r. by apply device_reads.
  - intros endpoint r (_ & Hep & ->)%build_rebind_spec. apply socket_addr_visible, visible_one_line in Hep.
    rewrite read_set_operation; [by rewrite pair_shown|]. apply clean_shown.
    repeat (apply Forall_cons; split; [clean_key; first [done|unfold one_line; vm_compute; set_solver]|]). done.
Qed.

(** What may be shown of a request: all of it but the secret values. *)
Definition shown_of (r : UapiRequest) : list (string * option string) :=
  map (fun l => (line_key l, if line_secret l then None else Some (line_value l))) r.

(** The private key is never shown. Two requests that differ in their secret values only have the same text for a
    log, and the same debug form; whether and how a device is refused does not depend on its key, and requests for
    two keys look the same; yet the core is told which it is. *)
Theorem private_key_is_never_shown k k' o p
    (Hone : one_line (expose_wire k) ∧ one_line (expose_wire k'))
    (Hpeer : one_line (peer_key p)) (Hallowed : Forall one_line (peer_allowed p)) :
  (∀ r r', shown_of r = shown_of r' → redacted r = redacted r' ∧ request_debug r = request_debug r') ∧
  match build_set_device k o p, build_set_device k' o p with
  | Ok r, Ok r' => redacted r = redacted r' ∧ (to_set_operation r = to_set_operation r' → k = k')
  | Err e, Err e' => e = e'
  | _, _ => False
  end.
Proof.
  assert (∀ r r', shown_of r = shown_of r' → redacted r = redacted r') as Hred.
  { induction r as [|l r IH]; intros [|l' r'] E; try done. injection E as Hk Hv E.
    unfold redacted in *. cbn [map concat_str]. rewrite (IH r' E), Hk.
    by destruct (line_secret l), (line_secret l'); simplify_eq; rewrite ?Hv. }
  split; [by intros r r' E; unfold request_debug; rewrite (Hred r r' E)|]. destruct Hone as [H1 H2].
  destruct (build_set_device k o p) as [r|e] eqn:E, (build_set_device k' o p) as [r'|e'] eqn:E'.
  - split.
    + apply Hred. apply build_set_device_spec in E as [_ ->], E' as [_ ->]. done.
    + intros Heq. apply device_reads in E, E'; try done. rewrite Heq, E' in E. injection E as E.
      destruct k, k'. simpl in *. congruence.
  - apply build_set_device_spec in E as [Hok _].
    by rewrite (proj2 (build_set_device_spec k' o p _) (conj Hok eq_refl)) in E'.
  - apply build_set_device_spec in E' as [Hok _].
    by rewrite (proj2 (build_set_device_spec k o p _) (conj Hok eq_refl)) in E.
  - revert E E'. unfold build_set_device. destruct (_ || _); [congruence|]. destruct (negb _); [congruence|].
    destruct (validate_obfuscation o); [|cbn; congruence]. intros [=].
Qed.

(** ** Witnesses *)

Definition sample_key : PrivateKey := mkPrivateKey "a0".
Definition sample_obfuscation : ObfuscationParams := mkObfuscation 4 40 70 15 25 1 2 3 4.
Definition sample_peer : PeerConfig := mkPeer "b1" "203.0.113.7:51820" ["0.0.0.0/0"] (Some 25).

Lemma device_is_configured_at_once_witness :
  is_ok (build_set_device sample_key sample_obfuscation sample_peer) = true.
Proof.
  apply (device_is_configured_at_once sample_key sample_obfuscation sample_peer);
    [unfold one_line; vm_compute; set_solver..|repeat constructor; unfold one_line; vm_compute; set_solver|].
  split_and!; [done|done|vm_compute; by eexists|]. apply overlap_spec. done.
Defined.

Lemma private_key_is_never_shown_witness :
  match build_set_device sample_key sample_obfuscation sample_peer,
        build_set_device (mkPrivateKey "c2") sample_obfuscation sample_peer with
  | Ok r, Ok r' => redacted r = redacted r' ∧ to_set_operation r ≠ to_set_operation r'
  | _, _ => False
  end.
Proof.
  pose proof (private_key_is_never_shown sample_key (mkPrivateKey "c2") sample_obfuscation sample_peer) as H.
  destruct H as [_ H]; [split; unfold one_line; vm_compute; set_solver|unfold one_line; vm_compute; set_solver| |].
  - repeat constructor; unfold one_line; vm_compute; set_solver.
  - destruct (build_set_device sample_key _ _) eqn:E; [|by vm_compute in E].
    destruct (build_set_device (mkPrivateKey "c2") _ _) eqn:E'; [|by vm_compute in E'].
    destruct H as [H1 H2]. split; [done|]. intros Heq. discriminate (H2 Heq).
Defined.
