(* ===== verification/Credentials.v ===== *)
(** The secret material of one endpoint and the form it is stored in (crates/dnet-config/src/credentials.rs). *)

From Stdlib Require Import Ascii.
From S2P Require Import Prelude Text IpText Profile Endpoint Rule RuleEval Names Origin Decimal Transports CoreConfig Uapi Json Protocol.

(** * Definitions

    ** The bundle *)

(* src: crates/dnet-config/src/credentials.rs:45-49 FORMAT_VERSION *)
Definition FORMAT_VERSION : Z := 2.
(* src: crates/dnet-config/src/credentials.rs:50-51 OLDEST_VERSION *)
Definition OLDEST_VERSION : Z := 1.
(* src: crates/dnet-config/src/credentials.rs:53-55 MAX_STORED_LEN *)
Definition MAX_STORED_LEN : Z := 16 * 1024.

(* src: crates/dnet-config/src/credentials.rs:57-68 CredentialsError *)
Inductive CredentialsError : Type :=
  | Malformed (what : string)
  | UnsupportedVersion (found : Z)
  | TooLarge
  | Invalid (field : string).

(* src: crates/dnet-config/src/credentials.rs:60-67 CredentialsError *)
Definition credentials_error_to_string (e : CredentialsError) : string :=
  match e with
  | Malformed what => "the stored credentials are not in a form this version understands: " +:+ what
  | UnsupportedVersion found =>
      "the stored credentials use format version " +:+ pretty found +:+ "; this version reads version " +:+
      pretty FORMAT_VERSION
  | TooLarge => "the stored credentials are larger than " +:+ pretty MAX_STORED_LEN +:+ " bytes"
  | Invalid field => "the stored credentials have an invalid " +:+ field
  end.

(* src: crates/dnet-config/src/credentials.rs:70-82 AmneziaWgCredentials *)
Record AmneziaWgCredentials : Type := mkAwg {
  client_private_key : PrivateKey;
  awg_server_public_key : string;
  client_address : Z;
  tunnel_prefix_len : Z;
  obfuscation : ObfuscationParams;
  awg_server_port : Z;
}.

(* src: crates/dnet-config/src/credentials.rs:84-91 Hysteria2Bundle *)
Record Hysteria2Bundle : Type := mkHy2Bundle {
  hb_server_port : Z;
  hb_credentials : Hysteria2Credentials;
  hb_endpoint : Hysteria2EndpointParams;
}.

(* src: crates/dnet-config/src/credentials.rs:93-100 RealityBundle *)
Record RealityBundle : Type := mkRealityBundle {
  rb_server_port : Z;
  rb_credentials : RealityCredentials;
  rb_endpoint : RealityEndpointParams;
}.

(* src: crates/dnet-config/src/credentials.rs:102-116 SessionBundle *)
Record SessionBundle : Type := mkSessionBundle {
  sb_device_private_key : Secret;
  sb_server_public_key : string;
  sb_device_address : Z;
  sb_session_port : Z;
}.

(* src: crates/dnet-config/src/credentials.rs:118-129 EndpointCredentials *)
Record EndpointCredentials : Type := mkCredentials {
  amneziawg : option AmneziaWgCredentials;
  hysteria2 : option Hysteria2Bundle;
  reality : option RealityBundle;
  session : option SessionBundle;
  measure_origin : option Origin;
}.

(* src: crates/dnet-config/src/credentials.rs:132-136 EndpointCredentials::is_empty *)
Definition is_empty (c : EndpointCredentials) : bool :=
  match amneziawg c, hysteria2 c, reality c with None, None, None => true | _, _, _ => false end.

(** ** What is checked in both directions *)

(* src: crates/dnet-config/src/credentials.rs:551-553 is_lower_hex *)
Definition is_lower_hex (text : string) (len : Z) : bool :=
  (str_len text =? len) && forallb (fun b => in_range 48 57 b || in_range 97 102 b) (bytes text).

Definition invalid {A} (field : string) : result CredentialsError A := Err (Invalid field).

(** [Option::None] is nothing to check. *)
Definition if_present {A} (o : option A) (check : A → result CredentialsError unit) : result CredentialsError unit :=
  match o with Some a => check a | None => Ok () end.

Definition or_invalid {E A} (r : result E A) (field : string) : result CredentialsError A :=
  match r with Ok a => Ok a | Err _ => invalid field end.

(* src: crates/dnet-config/src/credentials.rs:340-356 EndpointCredentials::validate *)
Definition validate_amneziawg (a : AmneziaWgCredentials) : result CredentialsError unit :=
  if negb (is_lower_hex (expose_wire (client_private_key a)) 64) then invalid "AmneziaWG client key"
  else if negb (is_lower_hex (awg_server_public_key a) 64) then invalid "AmneziaWG server key"
  else if awg_server_port a =? 0 then invalid "AmneziaWG server port"
  else if negb ((1 <=? tunnel_prefix_len a) && (tunnel_prefix_len a <=? 32)) then
    invalid "AmneziaWG tunnel prefix length"
  else or_invalid (validate_obfuscation (obfuscation a)) "AmneziaWG obfuscation".

(* src: crates/dnet-config/src/credentials.rs:357-385 EndpointCredentials::validate *)
Definition validate_hysteria2 (h : Hysteria2Bundle) : result CredentialsError unit :=
  if hb_server_port h =? 0 then invalid "Hysteria 2 server port"
  else
    let auth := expose (auth_password (hb_credentials h)) in
    let key := expose (obfs_password (hb_credentials h)) in
    if str_is_empty auth then invalid "Hysteria 2 password"
    else if str_is_empty key || String.eqb key auth then invalid "Hysteria 2 obfuscation password"
    else
      _ ← match obfs (hb_endpoint h) with
          | Gecko lo hi => if negb (gecko_packet_sizes_valid lo hi) then invalid "Hysteria 2 packet sizes" else Ok ()
          | Salamander => Ok ()
          end;
      if negb (is_dns_hostname (trust_server_name (trust (hb_endpoint h)))) then invalid "Hysteria 2 server name"
      else Ok ().

Section Stored.
Context `{Base64, UuidText}.

(* src: crates/dnet-config/src/credentials.rs:386-394 EndpointCredentials::validate *)
Definition validate_reality (r : RealityBundle) : result CredentialsError unit :=
  if rb_server_port r =? 0 then invalid "REALITY server port"
  else
    _ ← or_invalid (validate_uuid (rc_uuid (rb_credentials r))) "VLESS user id";
    or_invalid (validate_short_id (rc_short_id (rb_credentials r))) "REALITY short id".

(* src: crates/dnet-config/src/credentials.rs:395-412 EndpointCredentials::validate *)
Definition validate_session (c : EndpointCredentials) (s : SessionBundle) : result CredentialsError unit :=
  match hysteria2 c, reality c with
  | None, None => invalid "session (it has no carrier)"
  | _, _ =>
      if negb (is_key (expose (sb_device_private_key s))) then invalid "session device key"
      else if negb (is_key (sb_server_public_key s)) then invalid "session server key"
      else if negb (is_device_address (sb_device_address s)) then invalid "session device address"
      else if sb_session_port s =? 0 then invalid "session port"
      else Ok ()
  end.

(* src: crates/dnet-config/src/credentials.rs:337-414 EndpointCredentials::validate *)
Definition validate_bundle (c : EndpointCredentials) : result CredentialsError unit :=
  _ ← if_present (amneziawg c) validate_amneziawg;
  _ ← if_present (hysteria2 c) validate_hysteria2;
  _ ← if_present (reality c) validate_reality;
  if_present (session c) (validate_session c).
End Stored.

(** ** The stored form *)

(* src: crates/dnet-config/src/credentials.rs:461-473 ObfuscationWire *)
Definition ObfuscationWire : Type := ObfuscationParams.

(* src: crates/dnet-config/src/credentials.rs:450-459 AwgWire *)
Record AwgWire : Type := mkAwgWire {
  aw_client_private_key : string;
  aw_server_public_key : string;
  aw_client_address : Z;
  aw_prefix_len : Z;
  aw_obfuscation : ObfuscationWire;
  aw_server_port : Z;
}.

(* src: crates/dnet-config/src/credentials.rs:519-527 ObfsWire *)
Record ObfsWire : Type := mkObfsWire { ow_kind : string; ow_min : option Z; ow_max : option Z }.

(* src: crates/dnet-config/src/credentials.rs:529-536 TrustWire *)
Record TrustWire : Type := mkTrustWire { tw_kind : string; tw_server_name : string; tw_spki_sha256 : option string }.

(* src: crates/dnet-config/src/credentials.rs:507-515 Hy2Wire *)
Record Hy2Wire : Type := mkHy2Wire {
  hw_server_port : Z;
  hw_auth_password : string;
  hw_obfs_password : string;
  hw_obfs : ObfsWire;
  hw_trust : TrustWire;
}.

(* src: crates/dnet-config/src/credentials.rs:538-547 RealityWire *)
Record RealityWire : Type := mkRealityWire {
  rw_server_port : Z;
  rw_uuid : string;
  rw_short_id : string;
  rw_target_domain : string;
  rw_public_key : string;
  rw_flow : string;
}.

(* src: crates/dnet-config/src/credentials.rs:435-442 SessionWire *)
Record SessionWire : Type := mkSessionWire {
  sw_device_private_key : string;
  sw_server_public_key : string;
  sw_device_address : Z;
  sw_session_port : Z;
}.

(* src: crates/dnet-config/src/credentials.rs:419-433 Wire *)
Record Wire : Type := mkWire {
  w_version : Z;
  w_measure_origin : option string;
  w_amneziawg : option AwgWire;
  w_hysteria2 : option Hy2Wire;
  w_reality : option RealityWire;
  w_session : option SessionWire;
}.

(* src: crates/dnet-config/src/credentials.rs:584-590 serde_error_summary *)
Inductive Category : Type := CategoryIo | CategorySyntax | CategoryData | CategoryEof.

(** serde_json's text of the form and its readers, and what its errors say of themselves. *)
Record SerdeError : Type := mkSerdeError { classify : Category; err_line : Z; err_column : Z; err_text : string }.
Class WireText : Type := {
  wire_to_vec : Wire → result SerdeError string;
  wire_from_slice : string → result SerdeError Wire;
  version_from_slice : string → result SerdeError Z;
}.

(* src: crates/dnet-config/src/credentials.rs:583-592 serde_error_summary *)
Definition serde_error_summary (e : SerdeError) : string :=
  let kind :=
    match classify e with
    | CategoryIo => "unreadable"
    | CategorySyntax => "not valid JSON"
    | CategoryData => "a field is missing, unknown or of the wrong type"
    | CategoryEof => "ends unexpectedly"
    end in
  kind +:+ " (line " +:+ pretty (err_line e) +:+ ", column " +:+ pretty (err_column e) +:+ ")".

(* src: crates/dnet-config/src/credentials.rs:555-563 hex_encode *)
Definition hex_encode (data : string) : string :=
  of_ascii (flat_map (fun b => [hex_digit (byte_value b / 16); hex_digit (byte_value b mod 16)]) (bytes data)).

(** [u8::from_str_radix] of two digits. *)
Fixpoint hex_pairs (l : list Ascii.ascii) : option (list Ascii.ascii) :=
  match l with
  | [] => Some []
  | [_] => None
  | a :: b :: l =>
      hi ← to_digit 16 a; lo ← to_digit 16 b;
      rest ← hex_pairs l;
      Some (byte_of (16 * hi + lo) :: rest)
  end.

(* src: crates/dnet-config/src/credentials.rs:570-579 hex_decode_32 *)
Definition hex_decode_32 (text : string) : option string :=
  if negb (is_lower_hex text 64) then None else of_ascii <$> hex_pairs (bytes text).

(* src: crates/dnet-config/src/credentials.rs:565-568 parse_spki_sha256_hex *)
Definition parse_spki_sha256_hex (text : string) : option string := hex_decode_32 text.

(* src: crates/dnet-config/src/credentials.rs:475-489 ObfuscationWire::from *)
Definition obfuscation_to_wire (o : ObfuscationParams) : ObfuscationWire :=
  mkObfuscation (jc o) (jmin o) (jmax o) (s1 o) (s2 o) (h1 o) (h2 o) (h3 o) (h4 o).
(* src: crates/dnet-config/src/credentials.rs:491-505 ObfuscationParams::from *)
Definition obfuscation_of_wire (o : ObfuscationWire) : ObfuscationParams :=
  mkObfuscation (jc o) (jmin o) (jmax o) (s1 o) (s2 o) (h1 o) (h2 o) (h3 o) (h4 o).

(* src: crates/dnet-config/src/credentials.rs:150-153 EndpointCredentials::to_plaintext_json *)
Definition origin_text (o : Origin) : string := "http://" +:+ origin_host o +:+ ":" +:+ pretty (origin_port o).

(* src: crates/dnet-config/src/credentials.rs:154-161 EndpointCredentials::to_plaintext_json *)
Definition awg_to_wire (a : AmneziaWgCredentials) : AwgWire :=
  mkAwgWire (expose_wire (client_private_key a)) (awg_server_public_key a) (client_address a) (tunnel_prefix_len a)
    (obfuscation_to_wire (obfuscation a)) (awg_server_port a).

(* src: crates/dnet-config/src/credentials.rs:162-196 EndpointCredentials::to_plaintext_json *)
Definition hysteria2_to_wire (h : Hysteria2Bundle) : Hy2Wire :=
  mkHy2Wire (hb_server_port h) (expose (auth_password (hb_credentials h))) (expose (obfs_password (hb_credentials h)))
    (match obfs (hb_endpoint h) with
     | Salamander => mkObfsWire "salamander" None None
     | Gecko lo hi => mkObfsWire "gecko" (Some lo) (Some hi)
     end)
    (match trust (hb_endpoint h) with
     | PublicCa name => mkTrustWire "public_ca" name None
     | PinnedPublicKey name pin => mkTrustWire "pinned_public_key" name (Some (hex_encode pin))
     end).

(* src: crates/dnet-config/src/credentials.rs:197-207 EndpointCredentials::to_plaintext_json *)
Definition reality_to_wire (r : RealityBundle) : RealityWire :=
  mkRealityWire (rb_server_port r) (expose (rc_uuid (rb_credentials r))) (expose (rc_short_id (rb_credentials r)))
    (target_as_str (re_target_domain (rb_endpoint r))) (reality_key_as_str (re_public_key (rb_endpoint r)))
    (match re_flow (rb_endpoint r) with NoFlow => "none" | Vision => "xtls-rprx-vision" end).

(* src: crates/dnet-config/src/credentials.rs:208-213 EndpointCredentials::to_plaintext_json *)
Definition session_to_wire (s : SessionBundle) : SessionWire :=
  mkSessionWire (expose (sb_device_private_key s)) (sb_server_public_key s) (sb_device_address s) (sb_session_port s).

(* src: crates/dnet-config/src/credentials.rs:143-214 EndpointCredentials::to_plaintext_json *)
Definition bundle_to_wire (c : EndpointCredentials) : Wire := {|
  w_version := match session c with Some _ => FORMAT_VERSION | None => OLDEST_VERSION end;
  w_measure_origin := origin_text <$> measure_origin c;
  w_amneziawg := awg_to_wire <$> amneziawg c;
  w_hysteria2 := hysteria2_to_wire <$> hysteria2 c;
  w_reality := reality_to_wire <$> reality c;
  w_session := session_to_wire <$> session c;
|}.

(* src: crates/dnet-config/src/credentials.rs:240-247 EndpointCredentials::from_plaintext_json *)
Definition awg_of_wire (a : AwgWire) : AmneziaWgCredentials :=
  mkAwg (mkPrivateKey (aw_client_private_key a)) (aw_server_public_key a) (aw_client_address a) (aw_prefix_len a)
    (obfuscation_of_wire (aw_obfuscation a)) (aw_server_port a).

(* src: crates/dnet-config/src/credentials.rs:249-286 EndpointCredentials::from_plaintext_json *)
Definition hysteria2_of_wire (h : Hy2Wire) : result CredentialsError Hysteria2Bundle :=
  o ← match ow_min (hw_obfs h), ow_max (hw_obfs h) with
      | None, None => if String.eqb (ow_kind (hw_obfs h)) "salamander" then Ok Salamander else invalid "Hysteria 2 obfuscation"
      | Some lo, Some hi =>
          if String.eqb (ow_kind (hw_obfs h)) "gecko" then Ok (Gecko lo hi) else invalid "Hysteria 2 obfuscation"
      | _, _ => invalid "Hysteria 2 obfuscation"
      end;
  t ← match tw_spki_sha256 (hw_trust h) with
      | None =>
          if String.eqb (tw_kind (hw_trust h)) "public_ca" then Ok (PublicCa (tw_server_name (hw_trust h)))
          else invalid "Hysteria 2 certificate trust"
      | Some pin =>
          if String.eqb (tw_kind (hw_trust h)) "pinned_public_key" then
            spki ← ok_or (hex_decode_32 pin) (Invalid "Hysteria 2 certificate pin");
            Ok (PinnedPublicKey (tw_server_name (hw_trust h)) spki)
          else invalid "Hysteria 2 certificate trust"
      end;
  Ok (mkHy2Bundle (hw_server_port h) (mkHy2Credentials (mkSecret (hw_auth_password h)) (mkSecret (hw_obfs_password h)))
        (mkHy2Endpoint o t)).

Section Read.
Context `{Base64, UuidText, WireText}.

(* src: crates/dnet-config/src/credentials.rs:288-311 EndpointCredentials::from_plaintext_json *)
Definition reality_of_wire (r : RealityWire) : result CredentialsError RealityBundle :=
  flow ← (if String.eqb (rw_flow r) "none" then Ok NoFlow
          else if String.eqb (rw_flow r) "xtls-rprx-vision" then Ok Vision else invalid "REALITY flow");
  target ← or_invalid (target_parse (rw_target_domain r)) "REALITY target domain";
  key ← or_invalid (reality_key_parse (rw_public_key r)) "REALITY public key";
  Ok (mkRealityBundle (rw_server_port r) (mkRealityCredentials (mkSecret (rw_uuid r)) (mkSecret (rw_short_id r)))
        (mkRealityEndpoint target key flow)).

(* src: crates/dnet-config/src/credentials.rs:313-318 EndpointCredentials::from_plaintext_json *)
Definition session_of_wire (s : SessionWire) : SessionBundle :=
  mkSessionBundle (mkSecret (sw_device_private_key s)) (sw_server_public_key s) (sw_device_address s) (sw_session_port s).

(** [Option::map] and [transpose]. *)
Definition traverse {E A B} (f : A → result E B) (o : option A) : result E (option B) :=
  match o with None => Ok None | Some a => b ← f a; Ok (Some b) end.

(* src: crates/dnet-config/src/credentials.rs:219-335 EndpointCredentials::from_plaintext_json *)
Definition credentials_of_text (text : string) : result CredentialsError EndpointCredentials :=
  if MAX_STORED_LEN <? str_len text then Err TooLarge
  else
    let summary {A} (r : result SerdeError A) : result CredentialsError A :=
      match r with Ok a => Ok a | Err e => Err (Malformed (serde_error_summary e)) end in
    version ← summary (version_from_slice text);
    if negb ((OLDEST_VERSION <=? version) && (version <=? FORMAT_VERSION)) then Err (UnsupportedVersion version)
    else
      wire ← summary (wire_from_slice text);
      if (w_version wire <? 2) && bool_decide (is_Some (w_session wire)) then
        Err (Malformed "a version 1 form holds a session")
      else
        let amneziawg := awg_of_wire <$> w_amneziawg wire in
        hysteria2 ← traverse hysteria2_of_wire (w_hysteria2 wire);
        reality ← traverse reality_of_wire (w_reality wire);
        let session := session_of_wire <$> w_session wire in
        measure_origin ← or_invalid (traverse origin_parse (w_measure_origin wire)) "measurement origin";
        let bundle := mkCredentials amneziawg hysteria2 reality session measure_origin in
        _ ← validate_bundle bundle;
        Ok bundle.

(* src: crates/dnet-config/src/credentials.rs:138-216 EndpointCredentials::to_plaintext_json *)
Definition credentials_to_text (c : EndpointCredentials) : result CredentialsError string :=
  _ ← validate_bundle c;
  match wire_to_vec (bundle_to_wire c) with Ok text => Ok text | Err e => Err (Malformed (err_text e)) end.

(** What the protocol and the secret stores ask of credentials. *)
#[export] Instance endpoint_credentials_form : CredentialForm EndpointCredentials := {|
  creds_is_empty := is_empty;
  from_plaintext_json text :=
    match credentials_of_text text with Ok c => Ok c | Err e => Err (credentials_error_to_string e) end;
  to_plaintext_json c :=
    match credentials_to_text c with Ok text => Ok text | Err e => Err (credentials_error_to_string e) end;
|}.

End Read.

(** * Lemmas

    ** Texts that read back *)

Lemma hex_digit_lower d : 0 ≤ d < 16 → in_range 48 57 (hex_digit d) || in_range 97 102 (hex_digit d) = true.
Proof. intros Hd. apply (below_cases (fun d => in_range 48 57 (hex_digit d) || in_range 97 102 (hex_digit d) = true) 16); [vm_compute; done|done]. Qed.

Lemma hex_halves b : 0 ≤ byte_value b / 16 < 16 ∧ 0 ≤ byte_value b mod 16 < 16.
Proof.
  pose proof (byte_value_range b). split; [|apply Z.mod_pos_bound; lia].
  split; [apply Z.div_pos; lia|apply Z.div_lt_upper_bound; lia].
Qed.

Lemma hex_pairs_encode l :
  hex_pairs (flat_map (fun b => [hex_digit (byte_value b / 16); hex_digit (byte_value b mod 16)]) l) = Some l.
Proof.
  induction l as [|b l IH]; [done|]. cbn [flat_map app hex_pairs]. destruct (hex_halves b) as [Hh Hl].
  rewrite !hex_digit_value by done. cbn [mbind option_bind]. rewrite IH. cbn [mbind option_bind].
  by rewrite <-Z.div_mod, byte_of_value by done.
Qed.

Lemma hex_encode_lower s : str_len s = 32 → is_lower_hex (hex_encode s) 64 = true.
Proof.
  intros Hs. unfold is_lower_hex, hex_encode. rewrite bytes_of_ascii. apply andb_true_iff. split.
  - apply Z.eqb_eq. rewrite str_len_bytes in *. rewrite bytes_of_ascii.
    rewrite (flat_map_constant_length (c := 2)); [lia|done].
  - apply forallb_forall_elem. intros x Hx. apply list_elem_of_In, in_flat_map in Hx as (b & _ & Hb).
    destruct (hex_halves b). destruct Hb as [<-|[<-|[]]]; by apply hex_digit_lower.
Qed.

Lemma hex_reads_back s : str_len s = 32 → hex_decode_32 (hex_encode s) = Some s.
Proof.
  intros Hs. unfold hex_decode_32. rewrite hex_encode_lower by done. cbn [negb]. unfold hex_encode.
  rewrite bytes_of_ascii, hex_pairs_encode. simpl. by rewrite of_ascii_bytes.
Qed.

Lemma hex_pairs_length l m : hex_pairs l = Some m → length l = (2 * length m)%nat.
Proof.
  revert m. induction l as [l IH] using (induction_ltof1 _ (@length Ascii.ascii)); intros m. unfold ltof in IH.
  destruct l as [|a [|b l]]; cbn [hex_pairs]; [by intros [= <-]|done|].
  destruct (to_digit 16 a); [|done]. destruct (to_digit 16 b); [|done]. cbn [mbind option_bind].
  destruct (hex_pairs l) as [k|] eqn:E; [|done]. intros [= <-]. apply IH in E; [|simpl; lia]. simpl in *. lia.
Qed.

Lemma hex_decode_length text s : hex_decode_32 text = Some s → str_len s = 32.
Proof.
  unfold hex_decode_32. destruct (is_lower_hex text 64) eqn:E; [|done]. cbn [negb].
  apply andb_true_iff in E as [E _]. apply Z.eqb_eq in E.
  destruct (hex_pairs (bytes text)) as [m|] eqn:Em; [|done]. intros [= <-]. apply hex_pairs_length in Em.
  rewrite str_len_bytes in *. rewrite bytes_of_ascii. lia.
Qed.

Lemma rsplit_once_spec c a b : c ∉ bytes b → rsplit_once c (a +:+ String c b) = Some (a, b).
Proof.
  intros Hc. unfold rsplit_once. rewrite bytes_app. change (bytes (String c b)) with (c :: bytes b).
  rewrite rev_app_distr. simpl rev. rewrite <-app_assoc. simpl app.
  assert (∀ l r, c ∉ l → split_once_bytes c (l ++ c :: r) = Some (l, r)) as Hs.
  { induction l as [|x l IH]; intros r Hl; simpl; [by rewrite Ascii.eqb_refl|].
    apply not_elem_of_cons in Hl as [Hx Hl]. destruct (Ascii.eqb_spec x c); [done|]. by rewrite IH. }
  rewrite Hs; [|by rewrite list_elem_of_In, <-in_rev, <-list_elem_of_In].
  simpl. by rewrite !rev_involutive, !of_ascii_bytes.
Qed.

(** An origin that was accepted. *)
Definition origin_ok (o : Origin) : Prop :=
  origin_host o ≠ EmptyString ∧ forallb host_byte (bytes (origin_host o)) = true ∧ 1 ≤ origin_port o ≤ U16_MAX.

Lemma parse_digits_limit limit acc l v : acc ≤ limit → parse_digits limit acc l = Some v → v ≤ limit.
Proof.
  revert acc. induction l as [|c l IH]; intros acc Hacc; simpl; [by intros [= <-]|].
  intros (d & Hd & H)%bind_Some. destruct (Z.ltb_spec limit (acc * 10 + d)); [done|]. by eapply IH.
Qed.

Lemma parse_u16_range s v : parse_u16 s = Some v → 0 ≤ v ≤ U16_MAX.
Proof.
  unfold parse_u16, parse_uint. unfold U16_MAX.
  destruct (bytes s) as [|c l]; [done|]. destruct (Ascii.eqb c "+"); [destruct l; [done|]|]; intros E;
    (split; [by eapply parse_digits_nonneg; [|exact E]|by eapply parse_digits_limit; [|exact E]]).
Qed.

Lemma origin_parse_sound url o : origin_parse url = Ok o → origin_ok o.
Proof.
  intros E. pose proof (origin_parse_ok _ _ E) as (Hne & Hb & Hp). split_and!; try done; revert Hp E;
    unfold origin_parse; (destruct (strip_prefix _ url) as [rest|]; [|done]); cbn [ok_or mbind result_bind]; cbv zeta;
    destruct (existsb _ _); try done; (destruct (rsplit_once _ _) as [[h p]|];
      [destruct (parse_u16 p) as [n|] eqn:En; [|done]; apply parse_u16_range in En; cbn [mbind option_bind];
       destruct (Z.eqb_spec n 0); [done|]|]); cbn [negb ok_or mbind result_bind];
    destruct (str_is_empty _); try done; destruct (negb _); try done; intros Hp [= <-]; simpl in *; unfold U16_MAX in *; lia.
Qed.

Definition origin_byte (b : Ascii.ascii) : bool := host_byte b || Ascii.eqb b ":" || is_ascii_digit b.

Lemma origin_byte_plain b :
  origin_byte b = true → Ascii.eqb b "/" || Ascii.eqb b "?" || Ascii.eqb b "#" || Ascii.eqb b "@" = false.
Proof. destruct b as [[] [] [] [] [] [] [] []]; vm_compute; congruence. Qed.

Lemma decimal_origin_byte b : decimal_byte b → origin_byte b = true ∧ b ≠ ":"%char.
Proof. intros [d Hd]. destruct b as [[] [] [] [] [] [] [] []]; vm_compute in Hd |- *; split; congruence. Qed.

Lemma origin_reads_back o : origin_ok o → origin_parse (origin_text o) = Ok o.
Proof.
  destruct o as [host port]. intros (Hne & Hb & Hp). simpl in *. unfold origin_parse, origin_text. cbn [origin_host origin_port].
  rewrite strip_prefix_app. cbn [ok_or mbind result_bind]. cbv zeta.
  destruct (pretty_nonneg_decimal port) as [Hd _]; [lia|].
  assert (∀ b, b ∈ bytes (host +:+ ":" +:+ pretty port) → origin_byte b = true) as Hall.
  { intros b. rewrite !bytes_app, !elem_of_app. rewrite forallb_forall_elem in Hb. rewrite Forall_forall in Hd.
    unfold origin_byte. intros [Hin|[Hin|Hin]].
    - by rewrite (Hb b Hin).
    - apply list_elem_of_singleton in Hin as ->. done.
    - by apply decimal_origin_byte, Hd. }
  assert (strip_suffix "/" (host +:+ ":" +:+ pretty port) = None) as ->.
  { destruct (strip_suffix _ _) as [h|] eqn:E; [|done]. apply strip_suffix_spec in E.
    assert (origin_byte "/" = true) as Hc; [|by vm_compute in Hc]. apply Hall. rewrite E, bytes_app. set_solver. }
  cbn [default]. rewrite (proj2 (existsb_false_elem _ _)); [|intros b Hin; by apply origin_byte_plain, Hall].
  change (":" +:+ pretty port) with (String ":" (pretty port)). rewrite rsplit_once_spec.
  - unfold parse_u16. rewrite parse_uint_pretty by lia. cbn [mbind option_bind].
    destruct (Z.eqb_spec port 0); [lia|]. cbn [negb ok_or mbind result_bind]. unfold str_is_empty.
    destruct (String.eqb_spec host EmptyString); [done|]. by rewrite Hb.
  - intros Hin. rewrite Forall_forall in Hd. by apply Hd, decimal_origin_byte in Hin as [_ ?].
Qed.

(** ** What a bundle is made of

    The types of the source keep a parsed name, key or origin what its parser accepted, and a pin 32 bytes long. *)

Definition trust_ok (t : ServerTrust) : Prop :=
  match t with PublicCa _ => True | PinnedPublicKey _ pin => str_len pin = 32 end.

Record bundle_ok `{Base64} (c : EndpointCredentials) : Prop := {
  pin_ok h : hysteria2 c = Some h → trust_ok (trust (hb_endpoint h));
  target_ok r : reality c = Some r → target_domain (target_as_str (re_target_domain (rb_endpoint r)));
  key_ok r : reality c = Some r →
    reality_key_parse (reality_key_as_str (re_public_key (rb_endpoint r))) = Ok (re_public_key (rb_endpoint r));
  measured_ok o : measure_origin c = Some o → origin_ok o;
}.

Lemma target_parse_ok name t : target_parse name = Ok t → target_domain (target_as_str t).
Proof.
  unfold target_parse. destruct (validate_target_domain name) as [n|] eqn:E; [|done]. intros [= <-].
  by apply validate_target_domain_spec in E as [_ ?].
Qed.

Lemma target_reads_back t : target_domain (target_as_str t) → target_parse (target_as_str t) = Ok t.
Proof. intros Ht. unfold target_parse. rewrite validate_target_domain_idem by done. by destruct t. Qed.

Lemma reality_key_parse_ok `{Base64} text k : reality_key_parse text = Ok k → reality_key_parse (reality_key_as_str k) = Ok k.
Proof.
  intros E. pose proof E as E'. unfold reality_key_parse in E. destruct (url_safe_no_pad_decode text) as [d|]; [|done].
  destruct (_ =? _); [|done]. injection E as <-. exact E'.
Qed.

Lemma awg_reads_back a : awg_of_wire (awg_to_wire a) = a.
Proof. by destruct a as [[] ? ? ? [] ?]. Qed.

Lemma session_reads_back s : session_of_wire (session_to_wire s) = s.
Proof. by destruct s as [[] ? ? ?]. Qed.

Lemma hysteria2_reads_back h : trust_ok (trust (hb_endpoint h)) → hysteria2_of_wire (hysteria2_to_wire h) = Ok h.
Proof.
  destruct h as [p [[a] [o]] [ob tr]]. intros Ht. simpl in Ht. unfold hysteria2_of_wire, hysteria2_to_wire. simpl.
  destruct ob; simpl; (destruct tr as [n|n pin]; simpl; [done|]); by rewrite hex_reads_back.
Qed.

Lemma hysteria2_of_wire_ok w h : hysteria2_of_wire w = Ok h → trust_ok (trust (hb_endpoint h)).
Proof.
  unfold hysteria2_of_wire, invalid. intros E. unbind E. injection E as <-. simpl.
  destruct (tw_spki_sha256 (hw_trust w)) as [pin|].
  - destruct (String.eqb (tw_kind _) _); [|done]. destruct (hex_decode_32 pin) as [s|] eqn:Eh; [|done].
    apply hex_decode_length in Eh. simpl in Hu0. by injection Hu0 as <-.
  - destruct (String.eqb (tw_kind _) _); [|done]. by injection Hu0 as <-.
Qed.

Section Forms.
Context `{Base64, UuidText, WireText}.

Lemma reality_reads_back r :
  target_domain (target_as_str (re_target_domain (rb_endpoint r))) →
  reality_key_parse (reality_key_as_str (re_public_key (rb_endpoint r))) = Ok (re_public_key (rb_endpoint r)) →
  reality_of_wire (reality_to_wire r) = Ok r.
Proof.
  destruct r as [p [[u] [i]] [t k fl]]. simpl. intros Ht Hk. unfold reality_of_wire, reality_to_wire. simpl.
  destruct fl; simpl; by rewrite target_reads_back, Hk.
Qed.

Lemma reality_of_wire_ok w r : reality_of_wire w = Ok r →
  target_domain (target_as_str (re_target_domain (rb_endpoint r))) ∧
  reality_key_parse (reality_key_as_str (re_public_key (rb_endpoint r))) = Ok (re_public_key (rb_endpoint r)).
Proof.
  unfold reality_of_wire, or_invalid, invalid. intros E. unbind E. injection E as <-. simpl.
  destruct (target_parse (rw_target_domain w)) as [t|] eqn:Et; [|done].
  destruct (reality_key_parse (rw_public_key w)) as [k|] eqn:Ek; [|done]. simplify_eq.
  split; [by eapply target_parse_ok|by eapply reality_key_parse_ok].
Qed.

Lemma traverse_ok {E A B} (f : A → result E B) o v : traverse f o = Ok v →
  ∀ b, v = Some b → ∃ a, o = Some a ∧ f a = Ok b.
Proof. destruct o as [a|]; simpl; [|by intros [= <-]]. intros Hv. unbind Hv. injection Hv as <-. intros b [= <-]. eauto. Qed.

(** What is read is a bundle that was checked. *)
Lemma credentials_of_text_ok text c :
  credentials_of_text text = Ok c → bundle_ok c ∧ validate_bundle c = Ok () ∧ str_len text ≤ MAX_STORED_LEN ∧
  ∃ version w, version_from_slice text = Ok version ∧ (version = 1 ∨ version = 2) ∧ wire_from_slice text = Ok w ∧
    (w_version w < 2 → session c = None).
Proof.
  unfold credentials_of_text. destruct (Z.ltb_spec MAX_STORED_LEN (str_len text)); [done|]. cbv zeta. intros E.
  unbind E. destruct (negb _) eqn:Eversion; [done|]. unbind E. destruct (_ && _) eqn:Esession in E; [done|]. unbind E. injection E as <-.
  destruct u4. split; [|split; [exact Hu4|split; [done|]]].
  2: { exists u, u0. destruct (version_from_slice text) as [ver|] in Hu |- *; [|done]. destruct (wire_from_slice text) as [wire|] in Hu0 |- *; [|done].
       injection Hu as ->. injection Hu0 as ->.
       apply negb_false_iff, andb_true_iff in Eversion as [?%Z.leb_le ?%Z.leb_le]. unfold OLDEST_VERSION, FORMAT_VERSION in *.
       split_and!; [done|lia|done|]. intros Hw. simpl. destruct (w_session u0); [|done].
       rewrite bool_decide_eq_true_2, andb_true_r in Esession by done. lia. }
  unfold or_invalid, invalid in *.
  destruct (traverse origin_parse (w_measure_origin u0)) as [o|] eqn:Eo; [|done]. simplify_eq.
  split; simpl.
  - intros h ->. eapply traverse_ok in Hu1 as (w & _ & Hw); [|done]. by eapply hysteria2_of_wire_ok.
  - intros r ->. eapply traverse_ok in Hu2 as (w & _ & Hw); [|done]. by apply reality_of_wire_ok in Hw as [? _].
  - intros r ->. eapply traverse_ok in Hu2 as (w & _ & Hw); [|done]. by apply reality_of_wire_ok in Hw as [_ ?].
  - intros o' ->. eapply traverse_ok in Eo as (w & _ & Hw); [|done]. by eapply origin_parse_sound.
Qed.

(** What is written reads back, whatever the length of it. *)
Lemma bundle_reads_back c (Hok : bundle_ok c) :
  let w := bundle_to_wire c in
  traverse hysteria2_of_wire (w_hysteria2 w) = Ok (hysteria2 c) ∧ traverse reality_of_wire (w_reality w) = Ok (reality c) ∧
  traverse origin_parse (w_measure_origin w) = Ok (measure_origin c) ∧
  awg_of_wire <$> w_amneziawg w = amneziawg c ∧ session_of_wire <$> w_session w = session c ∧
  (w_version w <? 2) && bool_decide (is_Some (w_session w)) = false ∧
  negb ((OLDEST_VERSION <=? w_version w) && (w_version w <=? FORMAT_VERSION)) = false.
Proof.
  destruct Hok as [Hpin Ht Hk Ho]. destruct c as [a h r s o]. simpl in *. split_and!.
  - destruct h as [h|]; [|done]. simpl. by rewrite (hysteria2_reads_back h (Hpin h eq_refl)).
  - destruct r as [r|]; [|done]. simpl. by rewrite (reality_reads_back r (Ht r eq_refl) (Hk r eq_refl)).
  - destruct o as [o|]; [|done]. simpl. by rewrite (origin_reads_back o (Ho o eq_refl)).
  - destruct a as [a|]; [|done]. simpl. by rewrite awg_reads_back.
  - destruct s as [s|]; [|done]. simpl. by rewrite session_reads_back.
  - by destruct s.
  - by destruct s.
Qed.
End Forms.

(** ** What is written is read *)

Section Kept.
Context `{Base64, UuidText, WireText}.

(** serde_json reads the form of this bundle from what it wrote. *)
Definition text_kept (c : EndpointCredentials) : Prop := ∀ t, wire_to_vec (bundle_to_wire c) = Ok t →
  wire_from_slice t = Ok (bundle_to_wire c) ∧ version_from_slice t = Ok (w_version (bundle_to_wire c)).

(** It reads that as an object too, and the form of the bundle from the text of the object. *)
Definition json_kept `{JsonText} (c : EndpointCredentials) : Prop := ∀ t, wire_to_vec (bundle_to_wire c) = Ok t →
  ∃ v, from_str t = Ok v ∧ is_Some (as_object v) ∧ wire_from_slice (json_to_string v) = Ok (bundle_to_wire c) ∧
    version_from_slice (json_to_string v) = Ok (w_version (bundle_to_wire c)).

(** Any text that has the form of a bundle is read as the bundle, if it is not too long. *)
Lemma form_reads c text : bundle_ok c → validate_bundle c = Ok () →
  wire_from_slice text = Ok (bundle_to_wire c) → version_from_slice text = Ok (w_version (bundle_to_wire c)) →
  credentials_of_text text = if MAX_STORED_LEN <? str_len text then Err TooLarge else Ok c.
Proof.
  intros Hok Hvalid Hw Hv. unfold credentials_of_text. destruct (MAX_STORED_LEN <? str_len text); [done|].
  cbv zeta. rewrite Hv, Hw. cbn [mbind result_bind].
  destruct (bundle_reads_back c Hok) as (Eh & Er & Eo & Ea & Es & Evs & Ev). rewrite Ev, Evs. cbn iota.
  rewrite Eh. cbn [mbind result_bind]. rewrite Er. cbn [mbind result_bind]. rewrite Eo. cbn [or_invalid mbind result_bind].
  rewrite Ea, Es. destruct c; simpl in *. by rewrite Hvalid.
Qed.

Lemma credentials_to_text_ok c text : credentials_to_text c = Ok text →
  validate_bundle c = Ok () ∧ wire_to_vec (bundle_to_wire c) = Ok text.
Proof.
  unfold credentials_to_text. intros E. unbind E. destruct u. split; [done|].
  destruct (wire_to_vec (bundle_to_wire c)) as [t|]; [|done]. by injection E as ->.
Qed.

Lemma written_reads c text : bundle_ok c → text_kept c → credentials_to_text c = Ok text →
  credentials_of_text text = if MAX_STORED_LEN <? str_len text then Err TooLarge else Ok c.
Proof. intros Hok Ht (Hv & Hw)%credentials_to_text_ok. destruct (Ht _ Hw). by apply form_reads. Qed.
End Kept.

(** ** What was checked is what the generators check *)

Lemma lower_hex_visible s n : is_lower_hex s n = true → visible s.
Proof.
  unfold is_lower_hex, visible. intros [_ Hs]%andb_true_iff. rewrite forallb_forall_elem in Hs. apply Forall_forall.
  intros b Hb. specialize (Hs b Hb). unfold in_range in *. apply orb_true_iff in Hs.
  rewrite !andb_true_iff, !Z.leb_le in *. lia.
Qed.

Lemma lower_hex_not_blank s : is_lower_hex s 64 = true → str_is_empty (trim s) = false.
Proof.
  intros Hs. rewrite trim_visible by (by eapply lower_hex_visible). by destruct s.
Qed.

Lemma valid_awg a : validate_amneziawg a = Ok () →
  is_lower_hex (expose_wire (client_private_key a)) 64 = true ∧ is_lower_hex (awg_server_public_key a) 64 = true ∧
  awg_server_port a ≠ 0 ∧ 1 ≤ tunnel_prefix_len a ≤ 32 ∧ NoDup [h1 (obfuscation a); h2 (obfuscation a); h3 (obfuscation a); h4 (obfuscation a)].
Proof.
  unfold validate_amneziawg, invalid. destruct (is_lower_hex (expose_wire _) 64); [|done].
  destruct (is_lower_hex (awg_server_public_key a) 64); [|done]. simpl.
  destruct (Z.eqb_spec (awg_server_port a) 0); [done|].
  destruct ((1 <=? tunnel_prefix_len a) && (tunnel_prefix_len a <=? 32)) eqn:Ep; [|done]. simpl.
  apply andb_true_iff in Ep as [?%Z.leb_le ?%Z.leb_le].
  unfold or_invalid, validate_obfuscation. rewrite <-overlap_spec. destruct (overlap _); [done|]. done.
Qed.

Lemma valid_hysteria2 `{Base64} h tag ep client : validate_hysteria2 h = Ok () →
  hb_server_port h ≠ 0 ∧
  is_ok (hysteria2_outbound tag ep (mkHy2Transport (mkHy2Settings client (hb_endpoint h)) (hb_credentials h)) None) = true.
Proof.
  unfold validate_hysteria2, invalid, hysteria2_outbound, validate_credentials, obfs_section, verified_by. cbv zeta.
  destruct h as [p [[a] [o]] [ob tr]]. simpl. destruct (Z.eqb_spec p 0); [done|].
  destruct (str_is_empty a); [done|]. destruct (str_is_empty o); [done|]. simpl.
  destruct (String.eqb_spec o a); [done|]. rewrite bool_decide_eq_false_2 by congruence.
  destruct ob as [|lo hi]; simpl.
  - destruct (is_dns_hostname _); [|done]. done.
  - destruct (gecko_packet_sizes_valid lo hi); [|done]. simpl. destruct (is_dns_hostname _); [|done]. done.
Qed.

Lemma valid_reality `{Base64, UuidText} r tag ep client : validate_reality r = Ok () →
  rb_server_port r ≠ 0 ∧
  is_ok (reality_outbound tag ep (mkRealityTransport (mkRealitySettings client (rb_endpoint r)) (rb_credentials r))) = true.
Proof.
  unfold validate_reality, or_invalid, invalid, reality_outbound. destruct (Z.eqb_spec (rb_server_port r) 0); [done|].
  simpl. destruct (validate_uuid _); [|done]. simpl. destruct (validate_short_id _); [|done]. done.
Qed.

(* src: crates/dnetd/src/plan.rs:512 probe_job *)
Definition session_cidr (s : SessionBundle) : string := ipv4_to_string (sb_device_address s) +:+ "/" +:+ pretty SESSION_PREFIX.

Lemma device_cidr `{Base64} a : is_device_address a = true → is_cidr (ipv4_to_string a +:+ "/" +:+ pretty SESSION_PREFIX) = true.
Proof.
  unfold is_device_address. intros (i & Hi & Ha)%existsb_exists_elem. apply Z.eqb_eq in Ha as <-.
  apply elem_of_seq in Hi as [_ Hi]. unfold MAX_DEVICES in Hi.
  do 8 (destruct i as [|i]; [by vm_compute|]). lia.
Qed.

Lemma valid_session `{Base64, UuidText} c s : validate_session c s = Ok () →
  (hysteria2 c ≠ None ∨ reality c ≠ None) ∧
  check_session_parts (sb_device_private_key s) (sb_server_public_key s) (session_cidr s) (sb_session_port s) = Ok ().
Proof.
  unfold validate_session, invalid, check_session_parts, session_cidr. intros E.
  assert (hysteria2 c ≠ None ∨ reality c ≠ None) as Hc by (destruct (hysteria2 c), (reality c); [by left..|by right|done]).
  split; [done|]. assert (∃ r, r = Ok () ∧ r =
    if negb (is_key (expose (sb_device_private_key s))) then invalid "session device key"
    else if negb (is_key (sb_server_public_key s)) then invalid "session server key"
    else if negb (is_device_address (sb_device_address s)) then invalid "session device address"
    else if sb_session_port s =? 0 then invalid "session port" else Ok ()) as (r & -> & Er).
  { eexists. split; [|done]. destruct (hysteria2 c), (reality c); done. }
  clear E. revert Er. destruct (is_key (expose _)); [|done]. destruct (is_key (sb_server_public_key s)); [|done].
  destruct (is_device_address _) eqn:Ed; [|done]. destruct (_ =? _); [done|]. intros _. simpl.
  rewrite (device_cidr _ Ed). done.
Qed.

Lemma bundle_parts `{Base64, UuidText} c : validate_bundle c = Ok () →
  (∀ a, amneziawg c = Some a → validate_amneziawg a = Ok ()) ∧
  (∀ h, hysteria2 c = Some h → validate_hysteria2 h = Ok ()) ∧
  (∀ r, reality c = Some r → validate_reality r = Ok ()) ∧
  (∀ s, session c = Some s → validate_session c s = Ok ()).
Proof.
  unfold validate_bundle. intros E. unbind E.
  split_and!; intros x Hx; rewrite Hx in *; simpl in *; by try (destruct u); try (destruct u0); try (destruct u1).
Qed.

(** * Properties *)

(** C30. Stored secrets read back as they were. What the writer wrote of a bundle the reader takes for the same bundle,
    unless the text is longer than the reader ever reads, which it then refuses as too large; the version written is
    the lowest that can hold the bundle; and whatever text is read as a bundle is of version 1 or 2, its form holds a
    session only from version 2 on, the bundle was checked, and it is one the writer takes. *)
Theorem stored_secrets_read_back `{Base64, UuidText, WireText} c text (Hok : bundle_ok c) (Htext : text_kept c)
    (Hwrite : credentials_to_text c = Ok text) :
  credentials_of_text text = (if MAX_STORED_LEN <? str_len text then Err TooLarge else Ok c) ∧
  (w_version (bundle_to_wire c) = OLDEST_VERSION ↔ session c = None) ∧
  (∀ t c', credentials_of_text t = Ok c' →
     bundle_ok c' ∧ str_len t ≤ MAX_STORED_LEN ∧
     (∃ version w, version_from_slice t = Ok version ∧ (version = 1 ∨ version = 2) ∧ wire_from_slice t = Ok w ∧
        (w_version w < 2 → session c' = None)) ∧
     credentials_to_text c' =
       match wire_to_vec (bundle_to_wire c') with Ok t' => Ok t' | Err e => Err (Malformed (err_text e)) end).
Proof.
  split_and!.
  - by apply written_reads.
  - unfold bundle_to_wire. simpl. by destruct (session c).
  - intros t c' (Hb & Hv & Hlen & Hversion)%credentials_of_text_ok. split_and!; try done. unfold credentials_to_text. by rewrite Hv.
Qed.

(** C20. A request that is accepted can be written, and what is written is read as the same request; but when it adds an
    endpoint whose credentials, in the form they are written in, are longer than 16 KiB, it is refused for that. *)
Theorem accepted_requests_read_back `{Base64, UuidText, WireText, DebugText, JsonText, !UuidLaws} wire
    (r : Request (C := EndpointCredentials)) (Hr : decode_request wire = Some (Ok r))
    (Hjson : ∀ n, r = AddEndpoint n → json_kept (ne_credentials n)) :
  ∃ v, encode_request r = Some (json_to_string v) ∧
    (from_str (json_to_string v) = Ok v →
     decode_request (json_to_string v) = Some (Ok r) ∨
     ∃ n text w, r = AddEndpoint n ∧ credentials_to_text (ne_credentials n) = Ok text ∧ from_str text = Ok w ∧
       16384 < str_len (json_to_string w) ∧
       decode_request (json_to_string v) =
         Some (Err (Protocol.invalid ("`credentials`: " +:+ credentials_error_to_string TooLarge)))).
Proof.
  apply decode_request_ok in Hr as [Hok Hread].
  assert (∀ n, r = AddEndpoint n → ∃ text w, credentials_to_text (ne_credentials n) = Ok text ∧ from_str text = Ok w ∧
    carried (ne_credentials n) (if MAX_STORED_LEN <? str_len (json_to_string w)
      then Err (credentials_error_to_string TooLarge) else Ok (ne_credentials n))) as Hcarried.
  { intros n ->. destruct (Hread n eq_refl) as [t Et]. destruct Hok as (_ & _ & _ & Hwrite). simpl in Et, Hwrite.
    destruct (credentials_of_text t) as [c|] eqn:Ec; [|done]. injection Et as ->. apply credentials_of_text_ok in Ec as (Hb & _).
    destruct (credentials_to_text (ne_credentials n)) as [text|] eqn:Ew; [|done].
    pose proof (credentials_to_text_ok _ _ Ew) as [Hv Hw]. destruct (Hjson n eq_refl _ Hw) as (w & Hfrom & Hobj & Hform & Hversion).
    exists text, w. split_and!; [done|done|]. exists text, w. simpl. rewrite Ew, (form_reads _ _ Hb Hv Hform Hversion).
    by destruct (_ <? _). }
  assert ((∃ n text w, r = AddEndpoint n ∧ credentials_to_text (ne_credentials n) = Ok text ∧ from_str text = Ok w ∧
      MAX_STORED_LEN < str_len (json_to_string w) ∧ carried (ne_credentials n) (Err (credentials_error_to_string TooLarge))) ∨
    ∀ n, r = AddEndpoint n → carried (ne_credentials n) (Ok (ne_credentials n))) as [(n & text & w & -> & Ew & Hw & Hlen & Hc)|Hc].
  { destruct r; try (by right). rename new into n.
    destruct (Hcarried n eq_refl) as (text & w & Ew & Hw & Hc). destruct (Z.ltb_spec MAX_STORED_LEN (str_len (json_to_string w))).
    - left. by exists n, text, w.
    - right. by intros ? [= <-]. }
  - destruct (add_endpoint_reads_back _ _ Hok Hc) as (v & Hv & Hname & Hback). exists v. unfold encode_request. rewrite Hv.
    split; [done|]. intros Hfrom. right. exists n, text, w. split_and!; [done..|]. unfold decode_request. by rewrite Hfrom, Hname.
  - destruct (request_reads_back _ Hok Hc) as (v & Hv & Hname & Hback). exists v. unfold encode_request. rewrite Hv.
    split; [done|]. intros Hfrom. left. unfold decode_request. by rewrite Hfrom, Hname.
Qed.

(** A bundle that is stored is one the generators accept. Of every text that is read as a bundle: the AmneziaWG part
    configures a device at any endpoint that is an address and a port, and its keys add no line to what the core is
    sent; the Hysteria 2 and REALITY parts give an outbound under any name and endpoint; a session has a carrier, and
    its parts are those a session's core and its probe ask for; every server port is one that can be dialled; and a
    measurement origin has a host and a port. *)
Theorem stored_secrets_are_usable `{Base64, UuidText, WireText} text c (Hread : credentials_of_text text = Ok c) :
  (∀ a endpoint allowed keepalive, amneziawg c = Some a → is_Some (parse_socket_addr endpoint) →
     let peer := mkPeer (awg_server_public_key a) endpoint allowed keepalive in
     is_ok (build_set_device (client_private_key a) (obfuscation a) peer) = true ∧
     one_line (expose_wire (client_private_key a)) ∧ one_line (peer_key peer) ∧ awg_server_port a ≠ 0) ∧
  (∀ h tag endpoint client, hysteria2 c = Some h → hb_server_port h ≠ 0 ∧
     is_ok (hysteria2_outbound tag endpoint (mkHy2Transport (mkHy2Settings client (hb_endpoint h)) (hb_credentials h)) None)
       = true) ∧
  (∀ r tag endpoint client, reality c = Some r → rb_server_port r ≠ 0 ∧
     is_ok (reality_outbound tag endpoint
       (mkRealityTransport (mkRealitySettings client (rb_endpoint r)) (rb_credentials r))) = true) ∧
  (∀ s, session c = Some s → (hysteria2 c ≠ None ∨ reality c ≠ None) ∧
     check_session_parts (sb_device_private_key s) (sb_server_public_key s) (session_cidr s) (sb_session_port s) = Ok ()) ∧
  (∀ o, measure_origin c = Some o → origin_host o ≠ EmptyString ∧ 1 ≤ origin_port o ≤ U16_MAX).
Proof.
  apply credentials_of_text_ok in Hread as (Hb & Hv & _ & _). apply bundle_parts in Hv as (Ha & Hh & Hr & Hs). split_and!.
  - intros a endpoint allowed keepalive Ea Hep. cbv zeta. destruct (valid_awg a (Ha _ Ea)) as (Hk & Hp & Hport & _ & Hn).
    pose proof (lower_hex_visible _ _ Hk). pose proof (lower_hex_visible _ _ Hp).
    split_and!; [|by apply visible_one_line..|done].
    erewrite (proj2 (build_set_device_spec _ _ _ _)); [done|]. split; [|reflexivity]. split_and!; try done.
    + by apply lower_hex_not_blank.
    + by apply socket_addr_not_blank.
  - intros. by apply valid_hysteria2, Hh.
  - intros. by apply valid_reality, Hr.
  - intros s Es. by apply valid_session, Hs.
  - intros o Eo. by destruct (measured_ok c Hb o Eo) as (? & _ & ?).
Qed.

(** ** Witnesses *)

Module CredentialsDemo.
Import ToyText CoreDemo.

Definition bundle : EndpointCredentials := {|
  amneziawg := Some (mkAwg (mkPrivateKey (hex_encode "0123456789abcdef0123456789abcdef"))
    (hex_encode "fedcba9876543210fedcba9876543210") 167772162 24 sample_obfuscation 51820);
  hysteria2 := Some (mkHy2Bundle 443 (mkHy2Credentials (mkSecret "let me in") (mkSecret "do not look"))
    (mkHy2Endpoint (Gecko 300 1200) (PinnedPublicKey "example.com" "0123456789abcdef0123456789abcdef")));
  reality := Some (mkRealityBundle 8443
    (mkRealityCredentials (mkSecret "67e55044-10b1-426f-9247-bb680e5fe0c8") (mkSecret "0a1b"))
    (mkRealityEndpoint (mkTarget "www.example.org") (mkRealityKey "0123456789abcdef0123456789abcdef") Vision));
  session := Some (mkSessionBundle (mkSecret "0123456789abcdef0123456789abcdef") "fedcba9876543210fedcba9876543210"
    (session_device_address 0) 51821);
  measure_origin := Some (mkOrigin "10.9.0.254" 8080);
|}.

(** One bundle has a text. *)
#[export] Instance wire_text : WireText := {|
  wire_to_vec _ := Ok "bundle";
  wire_from_slice t := if String.eqb t "bundle" then Ok (bundle_to_wire bundle)
                       else Err (mkSerdeError CategorySyntax 1 1 "expected value");
  version_from_slice t := if String.eqb t "bundle" then Ok FORMAT_VERSION
                          else Err (mkSerdeError CategorySyntax 1 1 "expected value");
|}.

(** The bundle as an object, and a request that adds an endpoint with it. *)
Definition bundle_value : Value := object [("form", Str "bundle")].
Definition request_text : Value := object [("request", Str "AddEndpoint"); ("label", Str "home"); ("host", Str "198.51.100.7");
  ("credentials", bundle_value)].
#[export] Instance two_texts : JsonText := {|
  from_str s := if String.eqb s "bundle" then Ok bundle_value else if String.eqb s "request" then Ok request_text else Err "not JSON";
  json_to_string v := match Json.get v "form" with Some _ => "bundle" | None => "request" end;
|}.
#[export] Instance quoted : DebugText := fun s => s.

Lemma bundle_is_ok : bundle_ok bundle.
Proof.
  split; simpl; intros x [= <-]; try done.
  - apply target_parse_ok with "www.example.org". vm_compute. done.
Qed.
End CredentialsDemo.

Import ToyText CoreDemo CredentialsDemo.

Lemma stored_secrets_read_back_witness : credentials_of_text "bundle" = Ok CredentialsDemo.bundle.
Proof.
  destruct (stored_secrets_read_back CredentialsDemo.bundle "bundle" bundle_is_ok) as [E _].
  - intros t [= <-]. split; reflexivity.
  - vm_compute. reflexivity.
  - exact E.
Defined.

Lemma accepted_requests_read_back_witness :
  ∃ v, encode_request (AddEndpoint (mkNewEndpoint "home" "198.51.100.7" CredentialsDemo.bundle)) = Some (json_to_string v) ∧
    (from_str (json_to_string v) = Ok v → is_Some (decode_request (C := EndpointCredentials) (json_to_string v))).
Proof.
  destruct (accepted_requests_read_back "request" (AddEndpoint (mkNewEndpoint "home" "198.51.100.7" CredentialsDemo.bundle)))
    as (v & Hv & Hread).
  - vm_compute. reflexivity.
  - intros n [= <-] t [= <-]. exists bundle_value. split_and!; [reflexivity|eexists; reflexivity|reflexivity|reflexivity].
  - exists v. split; [exact Hv|]. intros Hfrom. destruct (Hread Hfrom) as [->|(n & text & w & _ & _ & _ & _ & ->)]; eexists; reflexivity.
Defined.

Lemma stored_secrets_are_usable_witness :
  check_session_parts (mkSecret "0123456789abcdef0123456789abcdef") "fedcba9876543210fedcba9876543210" "10.9.0.2/32" 51821
    = Ok ().
Proof.
  assert (credentials_of_text "bundle" = Ok CredentialsDemo.bundle) as Hread by (vm_compute; reflexivity).
  destruct (stored_secrets_are_usable "bundle" _ Hread) as (_ & _ & _ & Hs & _).
  destruct (Hs _ eq_refl) as [_ E]. exact E.
Defined.
