(* ===== verification/Secrets.v ===== *)
(** The secret store: the names secrets are kept under, the sealing of each to its name, and what the store promises
    to those who use it (crates/dnet-config/src/secret_store.rs). *)

From Stdlib Require Import Ascii.
From S2P Require Import Prelude Text Profile Endpoint Names Transports CoreConfig Persist Json Protocol Credentials.

(** * Definitions

    A [SecretKey] is the string inside it; [Persist.secret_key_parse] is how one is made of a reference. *)

Definition SecretKey : Type := string.

(* src: crates/dnet-config/src/secret_store.rs:66-68 SecretKey::for_endpoint *)
Definition for_endpoint `{UuidText} (id : EndpointId) : SecretKey := "endpoint-" +:+ uuid_to_string id.

(* src: crates/dnet-config/src/secret_store.rs:98-101 SecretKey::credential_ref *)
Definition credential_ref (key : SecretKey) : CredentialRef := {| store_key := key |}.

(* src: crates/dnet-config/src/secret_store.rs:103-107 SecretKey::blob_name *)
Definition blob_name (key : SecretKey) : string := "secret-" +:+ key +:+ ".bin".

(* src: crates/dnet-config/src/secret_store.rs:109-112 SecretKey::seal_context *)
Definition seal_context (key : SecretKey) : string := "dnet-engine/secret/v1/" +:+ key.

(** Errors of others are their text. *)
(* src: crates/dnet-config/src/secret_store.rs:36-55 SecretStoreError *)
Inductive SecretStoreError : Type :=
  | InvalidKey (why : string)
  | Empty
  | Credentials (e : string)
  | Seal (key reason : string)
  | BlobStorageFailed (key reason : string).

(* src: crates/dnet-config/src/secret_store.rs:38-54 SecretStoreError *)
Definition secret_store_error_to_string (e : SecretStoreError) : string :=
  match e with
  | InvalidKey why => "the credential reference is not a valid secret-store key: " +:+ why
  | Empty => "refusing to store an empty credential set"
  | Credentials e => e
  | Seal key reason => "the credentials for '" +:+ key +:+ "' could not be unsealed: " +:+ reason
  | BlobStorageFailed key reason => "the credentials for '" +:+ key +:+ "' could not be stored: " +:+ reason
  end.

(** What a store is to those who use it. *)
(* src: crates/dnet-config/src/secret_store.rs:115-127 SecretStore *)
Class SecretStore (S C : Type) : Type := {
  secret_put : SecretKey → C → S → S * result SecretStoreError unit;
  secret_get : SecretKey → S → result SecretStoreError (option C);
  secret_delete : SecretKey → S → S * result SecretStoreError bool;
}.

(** A set of credentials whose stored form is read as itself; the reader refuses a form that is too long. *)
Definition readable {C} `{CredentialForm C} (c : C) : Prop :=
  ∀ text, to_plaintext_json c = Ok text → from_plaintext_json text = Ok c.

(** What it promises them: a readable set that was stored is the one that is read, one that was deleted is gone, and an
    operation on one key, whatever comes of it, is nothing to the others. *)
Class SecretStoreLaws (S C : Type) `{SecretStore S C, CredentialForm C} : Prop := {
  put_get k c (s s' : S) : secret_put k c s = (s', Ok ()) → readable c → secret_get k s' = Ok (Some c);
  put_frame k c (s s' : S) r k' : secret_put k c s = (s', r) → k' ≠ k → secret_get k' s' = secret_get k' s;
  delete_get k (s s' : S) b : secret_delete k s = (s', Ok b) → secret_get k s' = Ok None;
  delete_frame k (s s' : S) r k' : secret_delete k s = (s', r) → k' ≠ k → secret_get k' s' = secret_get k' s;
}.

(* src: crates/dnet-config/src/secret_store.rs:129-134 Sealer *)
Class Sealer : Type := {
  seal : string → string → result string string;
  unseal : string → string → result string string;
}.

(* src: crates/dnet-config/src/secret_store.rs:136-141 BlobStorage *)
Class BlobStorage (B : Type) : Type := {
  blob_read : string → B → result string (option string);
  blob_write : string → string → B → B * result string unit;
  blob_remove : string → B → B * result string bool;
}.

(** What is sealed for one context does not open under another ([Sealer]'s documentation), and opens under its own. *)
Class SealerLaws `{Sealer} : Prop := {
  seal_opens p c x : seal p c = Ok x → unseal x c = Ok p;
  seal_bound p c x c' : seal p c = Ok x → c' ≠ c → is_ok (unseal x c') = false;
}.

(** Blobs are kept by name. *)
Class BlobLaws (B : Type) `{BlobStorage B} : Prop := {
  write_read n x (b b' : B) : blob_write n x b = (b', Ok ()) → blob_read n b' = Ok (Some x);
  write_frame n x (b b' : B) r n' : blob_write n x b = (b', r) → n' ≠ n → blob_read n' b' = blob_read n' b;
  remove_read n (b b' : B) r : blob_remove n b = (b', Ok r) → blob_read n b' = Ok None;
  remove_frame n (b b' : B) r n' : blob_remove n b = (b', r) → n' ≠ n → blob_read n' b' = blob_read n' b;
}.

(** ** The store that seals *)

Section Sealed.
Context {B C : Type} `{Sealer, BlobStorage B, CredentialForm C}.

(* src: crates/dnet-config/src/secret_store.rs:153-157 SealedSecretStore *)
Record SealedSecretStore : Type := mkSealed { blobs : B }.

(* src: crates/dnet-config/src/secret_store.rs:173-191 SealedSecretStore::put *)
Definition sealed_put (key : SecretKey) (credentials : C) (s : SealedSecretStore) :
    SealedSecretStore * result SecretStoreError unit :=
  if creds_is_empty credentials then (s, Err Empty)
  else
    match to_plaintext_json credentials with
    | Err e => (s, Err (Credentials e))
    | Ok plaintext =>
        match seal plaintext (seal_context key) with
        | Err reason => (s, Err (Seal key reason))
        | Ok sealed =>
            let '(b, written) := blob_write (blob_name key) sealed (blobs s) in
            (mkSealed b, match written with Ok _ => Ok () | Err reason => Err (BlobStorageFailed key reason) end)
        end
    end.

(* src: crates/dnet-config/src/secret_store.rs:193-211 SealedSecretStore::get *)
Definition sealed_get (key : SecretKey) (s : SealedSecretStore) : result SecretStoreError (option C) :=
  match blob_read (blob_name key) (blobs s) with
  | Err reason => Err (BlobStorageFailed key reason)
  | Ok None => Ok None
  | Ok (Some sealed) =>
      match unseal sealed (seal_context key) with
      | Err reason => Err (Seal key reason)
      | Ok plaintext =>
          match from_plaintext_json plaintext with Ok c => Ok (Some c) | Err e => Err (Credentials e) end
      end
  end.

(* src: crates/dnet-config/src/secret_store.rs:213-217 SealedSecretStore::delete *)
Definition sealed_delete (key : SecretKey) (s : SealedSecretStore) : SealedSecretStore * result SecretStoreError bool :=
  let '(b, removed) := blob_remove (blob_name key) (blobs s) in
  (mkSealed b, match removed with Ok r => Ok r | Err reason => Err (BlobStorageFailed key reason) end).

(** SealedSecretStore of crates/dnet-config/src/secret_store.rs:172-218. *)
#[export] Instance sealed_store : SecretStore SealedSecretStore C := {|
  secret_put := sealed_put; secret_get := sealed_get; secret_delete := sealed_delete;
|}.
End Sealed.
Arguments SealedSecretStore B : clear implicits.

(** ** The store in memory *)

Section Memory.
Context {C : Type} `{CredentialForm C}.

(* src: crates/dnet-config/src/secret_store.rs:220-225 MemorySecretStore *)
Definition MemorySecretStore : Type := gmap string C.

(* src: crates/dnet-config/src/secret_store.rs:247-262 MemorySecretStore::put *)
Definition memory_put (key : SecretKey) (credentials : C) (s : gmap string C) :
    gmap string C * result SecretStoreError unit :=
  if creds_is_empty credentials then (s, Err Empty)
  else
    match to_plaintext_json credentials with
    | Err e => (s, Err (Credentials e))
    | Ok _ => (<[key := credentials]> s, Ok ())
    end.

(** MemorySecretStore of crates/dnet-config/src/secret_store.rs:246-281. *)
#[export] Instance memory_store : SecretStore (gmap string C) C := {|
  secret_put := memory_put;
  secret_get key s := Ok (s !! key);
  secret_delete key s := (delete key s, Ok (bool_decide (is_Some (s !! key))));
|}.
End Memory.

(** MemoryBlobs of crates/dnet-config/src/secret_store.rs:304-328. *)
#[export] Instance memory_blobs : BlobStorage (gmap string string) := {|
  blob_read name b := Ok (b !! name);
  blob_write name x b := (<[name := x]> b, Ok ());
  blob_remove name b := (delete name b, Ok (bool_decide (is_Some (b !! name))));
|}.

(** [str::contains] of a pattern. *)
Fixpoint str_contains (p s : string) : bool :=
  starts_with p s || match s with EmptyString => false | String _ s => str_contains p s end.

(** Whether a name may be a file in the directory of secrets. *)
(* src: crates/dnet-config/src/secret_store.rs:449-460 TrustedDirBlobs::file *)
Definition blob_file_ok (name : string) : bool :=
  starts_with "secret-" name && ends_with ".bin" name &&
  forallb (fun b => is_ascii_lowercase b || is_ascii_digit b || Ascii.eqb b "-" || Ascii.eqb b ".") (bytes name) &&
  negb (str_contains ".." name).

(** * Lemmas *)

Lemma app_inj_l p a b : p +:+ a = p +:+ b → a = b.
Proof. induction p as [|x p IH]; [done|]. intros [= E]. by apply IH. Qed.

Lemma app_inj_r a b s : a +:+ s = b +:+ s → a = b.
Proof.
  intros E. apply bytes_inj. apply (f_equal bytes) in E. rewrite !bytes_app in E. by apply app_inv_tail in E.
Qed.

Lemma length_append a b : String.length (a +:+ b) = (String.length a + String.length b)%nat.
Proof. induction a as [|x a IH]; [done|]. simpl. by rewrite IH. Qed.

(** Each key has a blob and a context of its own. *)
Lemma blob_name_inj k k' : blob_name k = blob_name k' → k = k'.
Proof. intros E%app_inj_l. by apply app_inj_r in E. Qed.

Lemma seal_context_inj k k' : seal_context k = seal_context k' → k = k'.
Proof. apply app_inj_l. Qed.

Section SealedLaws.
Context {B C : Type} `{Sealer, !SealerLaws, BlobStorage B, !BlobLaws B, CredentialForm C}.

Lemma sealed_get_ext k (s s' : SealedSecretStore B) :
  blob_read (blob_name k) (blobs s') = blob_read (blob_name k) (blobs s) → sealed_get (C := C) k s' = sealed_get k s.
Proof. unfold sealed_get. by intros ->. Qed.

(** What a change of one blob does to the keys of others. *)
Lemma sealed_put_frame k (c : C) s s' r k' : sealed_put k c s = (s', r) → k' ≠ k →
  blob_read (blob_name k') (blobs s') = blob_read (blob_name k') (blobs s).
Proof.
  unfold sealed_put. destruct (creds_is_empty c); [by intros [= <- <-]|].
  destruct (to_plaintext_json c) as [plain|]; [|by intros [= <- <-]].
  destruct (seal plain _) as [x|]; [|by intros [= <- <-]].
  destruct (blob_write _ _ _) as [b w] eqn:Eb. intros [= <- <-] Hne. simpl. eapply write_frame; [done|].
  by intros ?%blob_name_inj.
Qed.

(** What is read after a set was stored is what its stored form reads as. *)
Lemma sealed_put_get k (c : C) s s' : sealed_put k c s = (s', Ok ()) →
  creds_is_empty c = false ∧ ∃ plain, to_plaintext_json c = Ok plain ∧
    sealed_get (C := C) k s' = match from_plaintext_json plain with Ok c' => Ok (Some c') | Err e => Err (Credentials e) end.
Proof.
  unfold sealed_put. destruct (creds_is_empty c); [done|].
  destruct (to_plaintext_json c) as [plain|] eqn:Ep; [|done]. destruct (seal plain _) as [x|] eqn:Ex; [|done].
  destruct (blob_write _ _ _) as [b [[]|e]] eqn:Eb; [|done]. intros [= <-]. split; [done|]. exists plain. split; [done|].
  unfold sealed_get. simpl. by rewrite (write_read _ _ _ _ Eb), (seal_opens _ _ _ Ex).
Qed.

#[export] Instance sealed_laws : SecretStoreLaws (SealedSecretStore B) C.
Proof.
  split.
  - intros k c s s' (_ & plain & Ep & E)%sealed_put_get Hread. simpl. by rewrite E, (Hread _ Ep).
  - intros k c s s' r k' E Hne. apply sealed_get_ext. exact (sealed_put_frame _ _ _ _ _ _ E Hne).
  - intros k s s' b. simpl. unfold sealed_delete. destruct (blob_remove _ _) as [b' [r|e]] eqn:Eb; [|done].
    intros [= <- <-]. unfold sealed_get. simpl. by rewrite (remove_read _ _ _ _ Eb).
  - intros k s s' r k' E Hne. apply sealed_get_ext. simpl in E. unfold sealed_delete in E.
    destruct (blob_remove _ _) as [b' r'] eqn:Eb. injection E as <- <-. simpl. eapply remove_frame; [done|].
    by intros ?%blob_name_inj.
Qed.
End SealedLaws.

#[export] Instance memory_laws {C} `{CredentialForm C} : SecretStoreLaws (gmap string C) C.
Proof.
  split; simpl.
  - intros k c s s'. unfold memory_put. destruct (creds_is_empty c); [done|]. destruct (to_plaintext_json c); [|done].
    intros [= <-] _. by rewrite lookup_insert_eq.
  - intros k c s s' r k'. unfold memory_put. destruct (creds_is_empty c); [by intros [= <- <-]|].
    destruct (to_plaintext_json c); intros [= <- <-] Hne; [by rewrite lookup_insert_ne by congruence|done].
  - intros k s s' b [= <- <-]. by rewrite lookup_delete_eq.
  - intros k s s' r k' [= <- <-] Hne. by rewrite lookup_delete_ne by congruence.
Qed.

#[export] Instance memory_blob_laws : BlobLaws (gmap string string).
Proof.
  split; simpl.
  - intros n x b b' [= <-]. by rewrite lookup_insert_eq.
  - intros n x b b' r n' [= <- <-] Hne. by rewrite lookup_insert_ne by congruence.
  - intros n b b' r [= <- <-]. by rewrite lookup_delete_eq.
  - intros n b b' r n' [= <- <-] Hne. by rewrite lookup_delete_ne by congruence.
Qed.

(** What a key that was accepted is made of. *)
Definition key_byte (b : Ascii.ascii) : bool := in_range 97 122 b || is_ascii_digit b || Ascii.eqb b "-".

Lemma secret_key_parse_ok ref key : secret_key_parse ref = Ok key →
  key = store_key ref ∧ 1 ≤ str_len key ≤ 80 ∧ forallb key_byte (bytes key) = true ∧
  starts_with "-" key = false ∧ ends_with "-" key = false.
Proof.
  unfold secret_key_parse. cbv zeta. destruct (str_is_empty _) eqn:Ee; [done|].
  destruct (Z.ltb_spec MAX_KEY_LEN (str_len (store_key ref))); [done|]. destruct (forallb _ _) eqn:Ef; [|done]. simpl.
  destruct (starts_with _ _) eqn:Es; [done|]. destruct (ends_with _ _) eqn:Eend; [done|]. intros [= <-].
  unfold MAX_KEY_LEN in *. split_and!; try done.
  destruct (store_key ref); [done|]. unfold str_len. simpl. lia.
Qed.

Lemma no_dots s t : forallb key_byte (bytes s) = true → str_contains ".." t = false → starts_with "." t = true →
  str_contains ".." (s +:+ t) = false.
Proof.
  intros Hs Ht Hdot. induction s as [|b s IH]; [done|]. simpl in Hs. apply andb_true_iff in Hs as [Hb Hs].
  change (String b s +:+ t) with (String b (s +:+ t)). cbn [str_contains]. rewrite (IH Hs), orb_false_r.
  apply bool_decide_eq_false. intros Hn. apply Hn. unfold strip_prefix. rewrite bool_decide_eq_false_2; [done|].
  simpl. intros [= -> _]. by vm_compute in Hb.
Qed.

(** * Properties *)

(** C21. The store that seals keeps what it promises its users: an endpoint's credentials that were stored are read
    back as they were, or, when their stored form is longer than 16 KiB, refused as too large; only credentials with
    something in them are stored; those that were deleted are gone; no operation on one key is seen under another; and
    a sealed blob that is put under another key's name does not open there. *)
Theorem sealed_store_keeps_its_promises {B} `{Sealer, !SealerLaws, BlobStorage B, !BlobLaws B, Base64, UuidText, WireText}
    k (c : EndpointCredentials) (s s' : SealedSecretStore B) (Hok : bundle_ok c) (Htext : text_kept c)
    (Hput : secret_put k c s = (s', Ok ())) :
  (∃ text, credentials_to_text c = Ok text ∧
     secret_get k s' = if 16384 <? str_len text then Err (Credentials (credentials_error_to_string TooLarge)) else Ok (Some c)) ∧
  is_empty c = false ∧
  (∀ k', k' ≠ k → secret_get (C := EndpointCredentials) k' s' = secret_get k' s) ∧
  (∀ s'' b, secret_delete (C := EndpointCredentials) k s' = (s'', Ok b) →
     secret_get (C := EndpointCredentials) k s'' = Ok None ∧
     ∀ k', k' ≠ k → secret_get (C := EndpointCredentials) k' s'' = secret_get k' s') ∧
  (∀ k' x b, k' ≠ k → blob_read (blob_name k) (blobs s') = Ok (Some x) →
     blob_write (blob_name k') x (blobs s') = (b, Ok ()) →
     ∃ why, secret_get (C := EndpointCredentials) k' (mkSealed b) = Err (Seal k' why)).
Proof.
  pose proof (sealed_put_get _ _ _ _ Hput) as (Hsome & plain & Ep & Hget).
  split_and!.
  - simpl in Ep. destruct (credentials_to_text c) as [text|] eqn:Et; [|done]. injection Ep as ->. exists plain.
    split; [done|]. simpl in Hget |- *. rewrite Hget, (written_reads _ _ Hok Htext Et). by destruct (_ <? _).
  - done.
  - intros k' Hne. by eapply put_frame.
  - intros s'' b Hd. split; [by eapply delete_get|]. intros k' Hne. by eapply delete_frame.
  - intros k' x b Hne Hx Hw. simpl in Hput. unfold sealed_put in Hput. rewrite Hsome, Ep in Hput. destruct (seal plain _) as [y|] eqn:Ey; [|done].
    destruct (blob_write (blob_name k) y (blobs s)) as [b' [[]|e]] eqn:Eb; [|done]. injection Hput as <-. simpl in Hx, Hw.
    rewrite (write_read _ _ _ _ Eb) in Hx. injection Hx as <-.
    simpl. unfold sealed_get. simpl. rewrite (write_read _ _ _ _ Hw).
    assert (is_ok (unseal y (seal_context k')) = false) as Hno.
    { eapply seal_bound; [done|]. by intros ?%seal_context_inj. }
    destruct (unseal y (seal_context k')) as [|why]; [done|]. by exists why.
Qed.

(** A key never carries anything into a file name: a key that was accepted names a file the directory of secrets
    takes, and no other key names the same. *)
Theorem keys_name_safe_files ref key (Hkey : secret_key_parse ref = Ok key) :
  blob_file_ok (blob_name key) = true ∧ str_len (blob_name key) ≤ 91 ∧
  (∀ key', blob_name key' = blob_name key → key' = key).
Proof.
  apply secret_key_parse_ok in Hkey as (_ & Hlen & Hbytes & _ & _). split_and!.
  - unfold blob_file_ok, blob_name. rewrite !andb_true_iff. split; [split; [split|]|].
    + reflexivity.
    + apply ends_with_spec. by exists ("secret-" +:+ key).
    + rewrite !bytes_app, !forallb_app. rewrite andb_true_iff. split; [by vm_compute|]. rewrite andb_true_iff.
      split; [|by vm_compute]. rewrite forallb_forall_elem in Hbytes |- *. intros b Hb. specialize (Hbytes b Hb).
      unfold key_byte in Hbytes. unfold is_ascii_lowercase. by rewrite Hbytes.
    + apply negb_true_iff. change ("secret-" +:+ key +:+ ".bin") with (("secret-" +:+ key) +:+ ".bin").
      apply no_dots; [|by vm_compute|by vm_compute]. rewrite bytes_app, forallb_app, Hbytes. by vm_compute.
  - unfold blob_name, str_len in *. rewrite !length_append. simpl. lia.
  - intros key'. apply blob_name_inj.
Qed.

(** * Witnesses *)

(** Sealing that writes the context, byte by byte, before what is sealed. *)
Module SealDemo.
Fixpoint mark (c : string) : string :=
  match c with EmptyString => "0" | String b c => String "1" (String b (mark c)) end.
Fixpoint unmark (c x : string) : option string :=
  match c, x with
  | EmptyString, String "0" p => Some p
  | String b c, String "1" (String b' x) => if Ascii.eqb b b' then unmark c x else None
  | _, _ => None
  end.
#[export] Instance marks : Sealer := {|
  seal p c := Ok (mark c +:+ p);
  unseal x c := match unmark c x with Some p => Ok p | None => Err "it was sealed for another key" end;
|}.
Lemma unmark_mark c p : unmark c (mark c +:+ p) = Some p.
Proof. induction c as [|b c IH]; [done|]. simpl. by rewrite Ascii.eqb_refl. Qed.

Lemma unmark_other c c' p q : unmark c' (mark c +:+ p) = Some q → c' = c.
Proof.
  revert c'. induction c as [|b c IH]; intros [|b' c']; [done..|]. simpl.
  destruct (Ascii.eqb_spec b' b) as [->|]; [|done]. by intros ->%IH.
Qed.

#[export] Instance marks_laws : SealerLaws.
Proof.
  split; unfold seal, unseal, marks.
  - intros p c x [= <-]. by rewrite unmark_mark.
  - intros p c x c' [= <-] Hne. destruct (unmark c' _) as [q|] eqn:E; [|done]. by apply unmark_other in E.
Qed.

Definition stored : SealedSecretStore (gmap string string) :=
  mkSealed {[ "secret-endpoint-7.bin" := mark "dnet-engine/secret/v1/endpoint-7" +:+ "bundle" ]}.
End SealDemo.
Import SealDemo ToyText CoreDemo CredentialsDemo.

Lemma sealed_store_keeps_its_promises_witness :
  secret_get "endpoint-7" stored = Ok (Some CredentialsDemo.bundle) ∧
  ∃ why, secret_get (C := EndpointCredentials) "endpoint-8"
    (mkSealed (<["secret-endpoint-8.bin" := mark "dnet-engine/secret/v1/endpoint-7" +:+ "bundle"]> (blobs stored))) =
    Err (Seal "endpoint-8" why).
Proof.
  assert (secret_put "endpoint-7" CredentialsDemo.bundle (mkSealed ∅) = (stored, Ok ())) as Hput by (vm_compute; reflexivity).
  destruct (sealed_store_keeps_its_promises "endpoint-7" CredentialsDemo.bundle (mkSealed ∅) stored bundle_is_ok)
    as ((text & Et & Hget) & _ & _ & _ & Hmoved); [intros t [= <-]; split; reflexivity|exact Hput|]. split.
  - rewrite Hget. assert (credentials_to_text CredentialsDemo.bundle = Ok "bundle") as E by (vm_compute; reflexivity).
    rewrite E in Et. injection Et as <-. reflexivity.
  - eapply (Hmoved "endpoint-8"); [discriminate|vm_compute; reflexivity|reflexivity].
Defined.

Lemma keys_name_safe_files_witness : blob_file_ok "secret-endpoint-7.bin" = true.
Proof.
  assert (secret_key_parse {| store_key := "endpoint-7" |} = Ok "endpoint-7") as H by (vm_compute; reflexivity).
  exact (proj1 (keys_name_safe_files _ "endpoint-7" H)).
Defined.
