(* ===== verification/Configure.v ===== *)
(** The changes a client asks of the configuration, each a transaction over the store, the sealed secrets and the
    saved file (crates/dnetd/src/configure.rs). *)

From Stdlib Require Import Ascii.
From S2P Require Import Transports CoreConfig Credentials.
From S2P Require Import Prelude Text IpText Profile Health Endpoint Rule RuleEval Origin Builtin Names Json Persist.
From S2P Require Import TrustedFile Protocol Domain Secrets.

(** * Definitions *)

(* src: crates/dnetd/src/configure.rs:34-35 APPLIED *)
Definition APPLIED : string := "{" +:+ quote +:+ "applied" +:+ quote +:+ ":true}".

(* src: crates/dnetd/src/configure.rs:37-45 ConfigureError *)
Inductive ConfigureError : Type := Refused (detail : string) | Unsaved (detail : string).

(* src: crates/dnetd/src/configure.rs:47-54 IpcError::from *)
Definition ipc_error_of (e : ConfigureError) : IpcError :=
  match e with Refused detail => InvalidRequest detail | Unsaved detail => InternalError detail end.

(** The ports that the profiles of an endpoint's secrets have. *)
Class BundlePorts (C : Type) : Type := {
  amneziawg_port : C → option Z;
  hysteria2_port : C → option Z;
  reality_port : C → option Z;
}.

#[export] Instance bundle_ports : BundlePorts EndpointCredentials := {|
  amneziawg_port c := awg_server_port <$> amneziawg c;
  hysteria2_port c := hb_server_port <$> hysteria2 c;
  reality_port c := rb_server_port <$> reality c;
|}.

(* src: crates/dnetd/src/configure.rs:341-354 display_port *)
Definition display_port {C} `{BundlePorts C} (new : NewEndpoint (C := C)) : Z :=
  let c := ne_credentials new in
  match amneziawg_port c with
  | Some p => p
  | None =>
      match hysteria2_port c with
      | Some p => p
      | None => default 0 (reality_port c)
      end
  end.

(** The saved file and the secrets, as a change leaves them. *)
(* src: crates/dnetd/src/configure.rs:64-68 Configurator *)
Record Configurator (F S : Type) : Type := mkConfigurator { config : F; secrets : S }.
Arguments mkConfigurator {F S}.
Arguments config {F S}.
Arguments secrets {F S}.

Section Configure.
Context {F S C : Type} `{StateFile F, SecretStore S C, BundlePorts C, UuidText, DebugText, ConfigText}.
Implicit Types (k : Configurator F S) (s : DomainState).

Definition with_config (file : F) k : Configurator F S := mkConfigurator file (secrets k).

(* src: crates/dnetd/src/configure.rs:316-319 Configurator::save *)
Definition save k s : option (Configurator F S * result ConfigureError unit) :=
  encoded ← to_config_bytes s;
  Some (match encoded with
    | Err e => (k, Err (Unsaved (persist_error_to_string e)))
    | Ok bytes =>
        match save_bytes bytes (config k) with
        | (file, Ok _) => (with_config file k, Ok ())
        | (file, Err e) => (with_config file k, Err (Unsaved (persist_error_to_string e)))
        end
    end).

(** Save what a change made, and put back the store of before when that fails. *)
(* src: crates/dnetd/src/configure.rs:301-314 Configurator::transact *)
Definition transact k s (change : DomainState → DomainState) :
    option (Configurator F S * DomainState * result ConfigureError unit) :=
  '(k, saved) ← save k (change s);
  Some (k, if is_ok saved then change s else s, saved).

(** ** Endpoints *)

(* src: crates/dnetd/src/configure.rs:107-130 Configurator::apply_add *)
Definition apply_add k s (e : Endpoint) (key : SecretKey) (new : NewEndpoint (C := C)) :
    option (Configurator F S * DomainState * result ConfigureError unit) :=
  match Domain.add_endpoint e s with
  | (s, Err _) => Some (k, s, Err (Refused "an endpoint with that label already exists"))
  | (s, Ok _) =>
      encoded ← to_config_bytes s;
      Some (match encoded with
        | Err e => (k, s, Err (Unsaved (persist_error_to_string e)))
        | Ok bytes =>
            match secret_put key (ne_credentials new) (secrets k) with
            | (kept, Err e) => (mkConfigurator (config k) kept, s, Err (Unsaved (secret_store_error_to_string e)))
            | (kept, Ok _) =>
                match save_bytes bytes (config k) with
                | (file, Ok _) => (mkConfigurator file kept, s, Ok ())
                | (file, Err e) =>
                    let '(kept, _) := secret_delete (C := C) key kept in
                    (mkConfigurator file kept, s, Err (Unsaved (persist_error_to_string e)))
                end
            end
        end)
  end.

(** The id is the one [EndpointId::new] mints. *)
(* src: crates/dnetd/src/configure.rs:75-105 Configurator::add_endpoint *)
Definition add_endpoint k s (id : EndpointId) (new : NewEndpoint (C := C)) :
    option (Configurator F S * DomainState * result ConfigureError EndpointId) :=
  if MAX_ENDPOINTS <=? Z.of_nat (length (ds_endpoints s)) then
    Some (k, s, Err (Refused ("there are already " +:+ pretty MAX_ENDPOINTS +:+ " endpoints, the most that can be kept")))
  else
    let key := for_endpoint id in
    let endpoint :=
      address ← map_err (fun _ => Refused "`host` is not a usable address") (address_new (ne_host new) (display_port new));
      map_err (fun _ => Refused "`label` is not a usable label")
        (endpoint_new id (ne_label new) address Manual (credential_ref key)) in
    match endpoint with
    | Err e => Some (k, s, Err e)
    | Ok endpoint =>
        '(k, changed, added) ← apply_add k s endpoint key new;
        Some (k, if is_ok added then changed else s, _ ← added; Ok id)
    end.

(* src: crates/dnetd/src/configure.rs:132-163 Configurator::remove_endpoint *)
Definition remove_endpoint k s (id : EndpointId) :
    option (Configurator F S * DomainState * result ConfigureError unit) :=
  match endpoint id s with
  | None => Some (k, s, Err (Refused "there is no endpoint with that id"))
  | Some e =>
      if has_cloud_resources e then
        Some (k, s, Err (Refused (
          "this endpoint holds cloud resources; removing it here would leave them running " +:+
          "and billed. Remove it through the provisioning flow, which cleans them up")))
      else
        match secret_key_parse (endpoint_credentials e) with
        | Err why => Some (k, s, Err (Unsaved why))
        | Ok key =>
            '(k, s, saved) ← transact k s (fun s => (Domain.remove_endpoint id s).1);
            Some (match saved with
              | Err e => (k, s, Err e)
              | Ok _ =>
                  let '(kept, _) := secret_delete (C := C) key (secrets k) in
                  (mkConfigurator (config k) kept, s, Ok ())
              end)
        end
  end.

(* src: crates/dnetd/src/configure.rs:165-178 Configurator::set_endpoint_enabled *)
Definition set_endpoint_enabled k s (id : EndpointId) (enabled : bool) :
    option (Configurator F S * DomainState * result ConfigureError unit) :=
  match endpoint id s with
  | None => Some (k, s, Err (Refused "there is no endpoint with that id"))
  | Some _ => transact k s (fun s => (Domain.set_endpoint_enabled id enabled s).1)
  end.

(** ** Everything else *)

(** Save a store that was changed, and keep the one of before when saving fails. *)
Definition keep {T} k (before changed : DomainState) (value : T) :
    option (Configurator F S * DomainState * result ConfigureError T) :=
  '(k, saved) ← save k changed;
  Some (match saved with Ok _ => (k, changed, Ok value) | Err e => (k, before, Err e) end).

(* src: crates/dnetd/src/configure.rs:180-207 Configurator::set_encrypted_dns *)
Definition set_encrypted_dns (new_ids : nat → RuleId) k s (block : bool) :
    option (Configurator F S * DomainState * result ConfigureError (option string)) :=
  '(changed, outcome) ←
    (if block then '(s, r) ← choose_encrypted_dns_block new_ids s; Some (s, _ ← r; Ok None)
     else '(s, r) ← opt_out_of_encrypted_dns_block new_ids s; Some (s, o ← r; Ok (Some o)));
  match outcome with
  | Err e => Some (k, s, Err (Unsaved (domain_error_to_string e)))
  | Ok consequence => keep k s changed consequence
  end.

(* src: crates/dnetd/src/configure.rs:209-241 Configurator::set_brutal *)
Definition set_brutal k s (profile : ProfileId) (bandwidth : option BandwidthPair) (now_unix : Z) :
    option (Configurator F S * DomainState * result ConfigureError unit) :=
  let setting := (fun pair => (pair, mkBrutalAcknowledgement BRUTAL_WARNING_REVISION now_unix)) <$> bandwidth in
  match Domain.set_brutal profile setting s with
  | (_, Err detail) => Some (k, s, Err (Refused detail))
  | (changed, Ok _) => keep k s changed ()
  end.

(* src: crates/dnetd/src/configure.rs:243-277 Configurator::add_rule *)
Definition add_rule (new_ids : nat → RuleId) k s (new_id : RuleId) (m : RuleMatcher) (a : RuleAction) :
    option (Configurator F S * DomainState * result ConfigureError RuleId) :=
  let mine := Z.of_nat (length (List.filter by_person (ds_rules s))) in
  match m with
  | Application _ => Some (k, s, Err (Refused (
      "rules by program are not applied in this build: the service does not yet see which " +:+
      "program opened a connection. Use a rule for the site or the address instead")))
  | _ =>
      if MAX_USER_RULES <=? mine then
        Some (k, s, Err (Refused ("a person may add at most " +:+ pretty MAX_USER_RULES +:+ " rules; remove one first")))
      else
        '(changed, added) ← add_user_rule new_ids new_id m a s;
        match added with
        | Err e => Some (k, s, Err (Refused (domain_error_to_string e)))
        | Ok id => keep k s changed id
        end
  end.

(* src: crates/dnetd/src/configure.rs:279-299 Configurator::remove_rule *)
Definition remove_rule (new_ids : nat → RuleId) k s (id : RuleId) :
    option (Configurator F S * DomainState * result ConfigureError unit) :=
  match List.find (fun r => rule_id r =? id) (ds_rules s) with
  | None => Some (k, s, Err (Refused "there is no rule with that id"))
  | Some rule =>
      if is_builtin rule then
        Some (k, s, Err (Refused (
          "a built-in rule cannot be removed: it keeps name lookups, the endpoint and local " +:+ "devices working")))
      else
        '(changed, removed) ← Domain.remove_rule new_ids id s;
        match removed with
        | Err e => Some (k, s, Err (Refused (domain_error_to_string e)))
        | Ok _ => keep k s changed ()
        end
  end.
End Configure.

(** ** Replies *)

(* src: crates/dnetd/src/configure.rs:322-325 added_reply *)
Definition added_reply `{UuidText, JsonText} (id : EndpointId) : string :=
  json_to_string (object [("endpoint", Str (uuid_to_string id))]).

(* src: crates/dnetd/src/configure.rs:327-330 rule_added_reply *)
Definition rule_added_reply `{UuidText, JsonText} (id : RuleId) : string :=
  json_to_string (object [("rule", Str (uuid_to_string id))]).

(* src: crates/dnetd/src/configure.rs:332-339 dns_reply *)
Definition dns_reply `{JsonText} (block : bool) (consequence : option string) : string :=
  match consequence with
  | Some text => json_to_string (object [("block", Bool block); ("consequence", Str text)])
  | None => json_to_string (object [("block", Bool block)])
  end.

(** * Lemmas *)

(** serde_json reads back what it writes. *)
Class ConfigTextLaws `{ConfigText} : Prop := wire_reads_back w : wire_from_slice (to_vec_pretty w) = Ok w.

(** Two stores that only differ in what was measured and in the ids of the product's rules. *)
Record same_store (s s' : DomainState) : Prop := {
  same_endpoints : ds_endpoints s' = map unmeasured (ds_endpoints s);
  same_profiles : ds_profiles s' = ds_profiles s;
  same_consent : ds_consent s' = ds_consent s;
  same_rules : List.filter by_person (ds_rules s') = List.filter by_person (ds_rules s);
}.

Section Transactions.
Context {F S C : Type} `{StateFile F, !StateFileLaws F, SecretStore S C, CredentialForm C, !SecretStoreLaws S C, BundlePorts C}.
Context `{UuidText, DebugText, ConfigText, !UuidLaws, !ConfigTextLaws}.
Implicit Types (k : Configurator F S) (s : DomainState).

(** A restart now would give the store back. *)
Definition restorable (file : F) s : Prop := ∀ new_ids, ∃ read s' notes,
  load file = Some (Ok read) ∧ from_load_result new_ids (Ok read) = Some (mkStartupConfig s' None notes) ∧ same_store s s'.

Definition key_of (e : Endpoint) : SecretKey := store_key (endpoint_credentials e).

Definition has_secret (kept : S) (e : Endpoint) : Prop :=
  secret_key_parse (endpoint_credentials e) = Ok (key_of e) ∧ ∃ c : C, secret_get (key_of e) kept = Ok (Some c).

(** The store is sound, and every endpoint has secrets of its own. *)
Record kept_ok k s : Prop := {
  ko_store : store_ok s;
  ko_secrets e : e ∈ ds_endpoints s → has_secret (secrets k) e;
  ko_keys : NoDup (map key_of (ds_endpoints s));
}.

Lemma load_ext (f f' : F) : file_read f' = file_read f → load f' = load f.
Proof. unfold load. by intros ->. Qed.

Lemma restorable_ext (f f' : F) s : file_read f' = file_read f → restorable f s → restorable f' s.
Proof. intros E Hr new_ids. rewrite (load_ext _ _ E). apply Hr. Qed.

Lemma to_config_bytes_total s : is_Some (to_config_bytes s).
Proof.
  unfold to_config_bytes, encode_with_rules, finish. cbv zeta.
  destruct (decode_total (to_vec_pretty (to_wire (ds_endpoints s)
    (if bool_decide (ds_consent s = consent_new) then None else Some (ds_consent s)) (profile_wires (ds_profiles s)) (ds_rules s)))) as [x ->].
  by eexists.
Qed.

(** A file that holds a sound store's bytes restores it. *)
Lemma written_restores s bytes (f : F) :
  store_ok s → to_config_bytes s = Some (Ok bytes) → file_read f = Ok (Some bytes) → restorable f s.
Proof.
  intros Hs Hbytes Hread new_ids.
  destruct (restarted s bytes new_ids Hs (wire_reads_back _) Hbytes) as (cfg & s' & Hd & Hn & Hl & _ & He & Hp & Hc & Hr).
  exists (Some cfg), s', []. unfold load. rewrite Hread, Hd. split; [done|]. split; [|by constructor].
  unfold from_load_result. rewrite Hl. cbn [mbind option_bind]. by rewrite Hn.
Qed.

(** What a save that failed leaves of the file: it reads as it did, or a restart would find the store that was to be
    saved, or the file is refused. *)
Definition left_by_failure (unsaved : DomainState) (before after : F) : Prop :=
  file_read after = file_read before ∨ restorable after unsaved ∨ is_ok (file_read after) = false.

Lemma save_bytes_cases s bytes (f : F) : store_ok s → to_config_bytes s = Some (Ok bytes) →
  match save_bytes bytes f with
  | (f', Ok _) => restorable f' s
  | (f', Err _) => left_by_failure s f f'
  end.
Proof.
  intros Hs Hb. unfold save_bytes. destruct (file_write bytes f) as [f' [[]|e]] eqn:E.
  - apply write_is_read in E. by eapply written_restores.
  - apply failed_write_leaves in E as [E|[E|E]]; [by left|right; left|by right; right]. by eapply written_restores.
Qed.

Lemma save_ok k s : store_ok s →
  ∃ file r, save k s = Some (with_config file k, r) ∧
    match r with Ok _ => restorable file s | Err _ => left_by_failure s (config k) file end.
Proof.
  intros Hs. unfold save. destruct (to_config_bytes_total s) as [[bytes|e] Hb]; rewrite Hb; cbn [mbind option_bind].
  - pose proof (save_bytes_cases s bytes (config k) Hs Hb) as Hc.
    destruct (save_bytes bytes (config k)) as [file [u|e]]; by eexists _, _.
  - exists (config k), (Err (Unsaved (persist_error_to_string e))). split; [by destruct k|by left].
Qed.

(** What a change to [asked] that failed leaves. *)
Definition untouched asked k s k' s' : Prop :=
  s' = s ∧ left_by_failure asked (config k) (config k') ∧
  ∀ e, e ∈ ds_endpoints s → secret_get (C := C) (key_of e) (secrets k') = secret_get (key_of e) (secrets k).

(** What every change to [asked] ends with: a sound whole, which is what was asked and what a restart would give back when
    it was made, and nothing touched in memory when it failed. *)
Definition transacted {T} asked k s (o : option (Configurator F S * DomainState * result ConfigureError T)) : Prop :=
  ∃ k' s' r, o = Some (k', s', r) ∧ kept_ok k' s' ∧
    match r with Ok _ => s' = asked ∧ restorable (config k') s' | Err _ => untouched asked k s k' s' end.

Lemma untouched_refl asked k s : untouched asked k s k s.
Proof. split_and!; [done|by left|done]. Qed.

Lemma refused_transacted {T} asked k s e : kept_ok k s → transacted (T := T) asked k s (Some (k, s, Err e)).
Proof. intros Hk. exists k, s, (Err e). split; [done|]. split; [done|]. apply untouched_refl. Qed.

(** Saving a sound change of the store whose endpoints have kept their keys. *)
Lemma saved_transacted {T} k s changed (value : T) :
  kept_ok k s → store_ok changed → (∀ e, e ∈ ds_endpoints changed → has_secret (secrets k) e) →
  NoDup (map key_of (ds_endpoints changed)) → transacted changed k s (keep k s changed value).
Proof.
  intros Hk Hc Hsec Hnd. unfold keep. destruct (save_ok k changed Hc) as (file & r & -> & Hr). cbn [mbind option_bind].
  destruct r as [u|e]; eexists _, _, _; (split; [done|]).
  - split; [by constructor|done].
  - destruct Hk as [Hk1 Hk2 Hk3]. split; [by constructor|done].
Qed.

Lemma transact_keep k s change : transact k s change = keep k s (change s) ().
Proof.
  unfold transact, keep. destruct (save k (change s)) as [[k' [[]|e]]|]; done.
Qed.

(** The same endpoints, in other settings. *)
Lemma same_keys k s changed :
  kept_ok k s → map key_of (ds_endpoints changed) = map key_of (ds_endpoints s) →
  (∀ e, e ∈ ds_endpoints changed → has_secret (secrets k) e) ∧ NoDup (map key_of (ds_endpoints changed)).
Proof.
  intros Hk E. split; [|rewrite E; apply (ko_keys _ _ Hk)]. intros e He.
  assert (key_of e ∈ map key_of (ds_endpoints s)) as (e' & Ek & He')%elem_of_map.
  { rewrite <-E. apply elem_of_map. eauto. }
  destruct (ko_secrets _ _ Hk e' He') as [Hp Hc]. unfold has_secret, key_of in *.
  destruct (endpoint_credentials e), (endpoint_credentials e'). simpl in *. by subst.
Qed.

Lemma settings_transacted {T} k s changed (value : T) :
  kept_ok k s → store_ok changed → ds_endpoints changed = ds_endpoints s → transacted changed k s (keep k s changed value).
Proof.
  intros Hk Hc He. destruct (same_keys k s changed Hk) as [Hsec Hnd]; [by rewrite He|]. by apply saved_transacted.
Qed.

(** ** Each change

    What a new endpoint makes of the store. *)
Definition endpoint_added id (new : NewEndpoint (C := C)) s : DomainState :=
  match address_new (ne_host new) (display_port new) with
  | Ok address =>
      match endpoint_new id (ne_label new) address Manual (credential_ref (for_endpoint id)) with
      | Ok e => (Domain.add_endpoint e s).1
      | Err _ => s
      end
  | Err _ => s
  end.

(** What the choice about encrypted DNS makes of it. *)
Definition dns_chosen new_ids (block : bool) s : DomainState :=
  if block then from_option fst s (choose_encrypted_dns_block new_ids s)
  else from_option fst s (opt_out_of_encrypted_dns_block new_ids s).

Lemma written_keys s bytes e :
  store_ok s → to_config_bytes s = Some (Ok bytes) → e ∈ ds_endpoints s →
  secret_key_parse (endpoint_credentials e) = Ok (key_of e).
Proof.
  intros Hs Hb He. pose proof (saved_store_reads_back s bytes Hs (wire_reads_back _) Hb) as Hd.
  destruct (decode_valid _ _ Hd) as [Hv _].
  assert (unmeasured e ∈ map unmeasured (ds_endpoints s)) as Hin by (apply elem_of_map; eauto).
  destruct (cv_endpoints _ Hv _ Hin) as (_ & _ & _ & _ & _ & _ & Hk & _). simpl in Hk.
  destruct (secret_key_parse (endpoint_credentials e)) as [key|] eqn:E; [|done].
  by apply secret_key_parse_ok in E as [-> _].
Qed.

Lemma has_secret_frame (kept kept' : S) e :
  secret_get (C := C) (key_of e) kept' = secret_get (key_of e) kept → has_secret kept e → has_secret kept' e.
Proof. unfold has_secret. by intros ->. Qed.

Lemma secrets_transacted k s kept' :
  kept_ok k s → (∀ e, e ∈ ds_endpoints s → secret_get (C := C) (key_of e) kept' = secret_get (key_of e) (secrets k)) →
  ∀ asked file, left_by_failure asked (config k) file →
  kept_ok (mkConfigurator file kept') s ∧ untouched asked k s (mkConfigurator file kept') s.
Proof.
  intros [Hk1 Hk2 Hk3] Hsame asked file Hfile. split; [|done]. constructor; try done.
  intros e He. eapply has_secret_frame; [by apply Hsame|by apply Hk2].
Qed.

Lemma added_store_ok e s : store_ok s → store_ok (Domain.add_endpoint e s).1.
Proof.
  intros Hs. destruct (step_ok (fun _ => 0) (StoreAddEndpoint e) s Hs I) as (s' & E & Hok). by injection E as ->.
Qed.

Lemma add_endpoint_transacted k s id new :
  kept_ok k s → (∀ e, e ∈ ds_endpoints s → key_of e ≠ for_endpoint id) → readable (ne_credentials new) →
  transacted (endpoint_added id new s) k s (add_endpoint k s id new).
Proof.
  intros Hk Hfresh Hreads. unfold add_endpoint. destruct (_ <=? _); [by apply refused_transacted|]. cbv zeta.
  destruct (mbind _ _) as [e|why] eqn:Ee; [|by apply refused_transacted]. unfold apply_add.
  assert (endpoint_credentials e = credential_ref (for_endpoint id) ∧ endpoint_added id new s = (Domain.add_endpoint e s).1)
    as [Hkey ->].
  { apply bind_Ok in Ee as (a & Ea & Ee). unfold endpoint_added. destruct (address_new _ _) as [a'|]; [|done].
    injection Ea as ->. destruct (endpoint_new _ _ _ _ _) as [e'|] eqn:Een; [|done]. injection Ee as ->. split; [|done].
    unfold endpoint_new in Een. destruct (_ || _); [done|]. by injection Een as <-. }
  pose proof (added_store_ok e s (ko_store _ _ Hk)) as Hs'. unfold Domain.add_endpoint in *.
  destruct (existsb _ _) eqn:El; [by apply refused_transacted|]. simpl in Hs'. set (s' := with_endpoints _ s) in *.
  destruct (to_config_bytes_total s') as [[bytes|why] Hb]; rewrite Hb; cbn [mbind option_bind]; [|by apply refused_transacted].
  assert (∀ kept r, secret_put (for_endpoint id) (ne_credentials new) (secrets k) = (kept, r) →
    ∀ x, x ∈ ds_endpoints s → secret_get (C := C) (key_of x) kept = secret_get (key_of x) (secrets k)) as Hput.
  { intros kept r E x Hx. eapply put_frame; [done|]. by apply Hfresh. }
  destruct (secret_put _ _ _) as [kept [[]|why]] eqn:Ep.
  2: { destruct (secrets_transacted k s kept Hk (Hput _ _ eq_refl) s' (config k)) as [Hok Hun]; [by left|].
       by eexists _, _, _. }
  pose proof (save_bytes_cases s' bytes (config k) Hs' Hb) as Hc. destruct (save_bytes bytes (config k)) as [file [[]|why]].
  - eexists _, _, _. split; [done|]. split; [|done]. simpl. constructor; try done.
    + intros x Hx. apply elem_of_app in Hx as [Hx|Hx].
      * eapply has_secret_frame; [by eapply Hput|by apply (ko_secrets _ _ Hk)].
      * apply list_elem_of_singleton in Hx as ->. split; [apply (written_keys s' bytes); [done|done|apply elem_of_app; right; by apply list_elem_of_singleton]|].
        exists (ne_credentials new). unfold key_of. rewrite Hkey. by eapply put_get.
    + simpl. rewrite map_app. apply NoDup_app. split_and!; [apply (ko_keys _ _ Hk)| |apply NoDup_singleton].
      intros key (x & -> & Hx)%elem_of_map E%list_elem_of_singleton. apply (Hfresh x Hx). rewrite E. unfold key_of. by rewrite Hkey.
  - destruct (secret_delete (for_endpoint id) kept) as [kept' r] eqn:Ed.
    destruct (secrets_transacted k s kept' Hk) with (asked := s') (file := file) as [Hok Hun]; [|done|].
    + intros x Hx. rewrite (delete_frame _ _ _ _ (key_of x) Ed) by (by apply Hfresh). by eapply Hput.
    + by eexists _, _, _.
Qed.

Lemma remove_endpoint_transacted k s id : kept_ok k s → transacted (Domain.remove_endpoint id s).1 k s (remove_endpoint (C := C) k s id).
Proof.
  intros Hk. unfold remove_endpoint. destruct (endpoint id s) as [e|] eqn:Ee; [|by apply refused_transacted].
  destruct (has_cloud_resources e); [by apply refused_transacted|].
  destruct (secret_key_parse _) as [key|] eqn:Ekey; [|by apply refused_transacted].
  apply secret_key_parse_ok in Ekey as (-> & _). apply find_Some_elem in Ee as [He Hid%Z.eqb_eq].
  rewrite transact_keep. set (changed := (Domain.remove_endpoint id s).1).
  assert (ds_endpoints changed = List.filter (fun e => negb (endpoint_id e =? id)) (ds_endpoints s)) as Hes by done.
  assert (transacted changed k s (keep k s changed ())) as (k' & s' & r & Hkeep & Hok & Hun).
  { apply saved_transacted; [done| | |].
    - destruct (step_ok (fun _ => 0) (StoreRemoveEndpoint id) s (ko_store _ _ Hk) I) as (x & E & Hx). by injection E as <-.
    - intros x. rewrite Hes. intros [Hx _]%elem_of_filter_bool. by apply (ko_secrets _ _ Hk).
    - rewrite Hes. apply bool_filter_NoDup, (ko_keys _ _ Hk). }
  rewrite Hkeep. cbn [mbind option_bind]. destruct r as [[]|why]; [|by exists k', s', (Err why)].
  unfold keep in Hkeep. destruct (save k changed) as [[k'' [|]]|]; try done. injection Hkeep as <- <-.
  destruct (secret_delete (store_key (endpoint_credentials e)) (secrets k'')) as [kept r] eqn:Ed.
  eexists _, _, _. split; [done|]. split; [|done]. destruct Hok as [Ho1 Ho2 Ho3]. constructor; try done.
  intros x Hx. apply (has_secret_frame (secrets k'')); [|by apply Ho2]. eapply delete_frame; [done|].
  intros E. rewrite Hes in Hx. apply elem_of_filter_bool in Hx as [Hx Hne].
  assert (x = e) as ->; [|by rewrite Hid, Z.eqb_refl in Hne].
  by apply (NoDup_map_inj key_of (ds_endpoints s)); [apply (ko_keys _ _ Hk)|..].
Qed.

Lemma set_endpoint_enabled_transacted k s id enabled :
  kept_ok k s → transacted (Domain.set_endpoint_enabled id enabled s).1 k s (set_endpoint_enabled k s id enabled).
Proof.
  intros Hk. unfold set_endpoint_enabled. destruct (endpoint id s) eqn:E; [|by apply refused_transacted].
  rewrite transact_keep. set (changed := (Domain.set_endpoint_enabled id enabled s).1).
  destruct (same_keys k s changed Hk) as [Hsec Hnd].
  { unfold changed, Domain.set_endpoint_enabled. rewrite E. simpl. by rewrite update_first_map. }
  apply saved_transacted; [done| |done|done].
  destruct (step_ok (fun _ => 0) (StoreSetEnabled id enabled) s (ko_store _ _ Hk) I) as (x & Ex & Hx). by injection Ex as <-.
Qed.

Lemma set_encrypted_dns_transacted new_ids k s block :
  kept_ok k s → transacted (dns_chosen new_ids block s) k s (set_encrypted_dns new_ids k s block).
Proof.
  intros Hk. pose proof (ko_store _ _ Hk) as Hs. unfold set_encrypted_dns, dns_chosen. destruct block.
  - unfold choose_encrypted_dns_block.
    destruct (apply_consent_ok new_ids (acknowledge_disclosure (restore (ds_consent s))) s Hs) as (rules & -> & Hok & _); [done|].
    by apply settings_transacted.
  - unfold opt_out_of_encrypted_dns_block, opt_out. cbv zeta.
    destruct (apply_consent_ok new_ids (mkConsentState Allow (Some DISCLOSURE_VERSION)) s Hs) as (rules & -> & Hok & _); [done|].
    by apply settings_transacted.
Qed.

Lemma set_brutal_transacted k s profile bandwidth now :
  kept_ok k s →
  transacted (Domain.set_brutal profile ((fun pair => (pair, mkBrutalAcknowledgement BRUTAL_WARNING_REVISION now)) <$> bandwidth) s).1
    k s (set_brutal k s profile bandwidth now).
Proof.
  intros Hk. unfold set_brutal. cbv zeta. set (setting := _ <$> bandwidth).
  destruct (step_ok (fun _ => 0) (StoreSetBrutal profile setting) s (ko_store _ _ Hk) I) as (x & Ex & Hx).
  injection Ex as <-. assert (ds_endpoints (Domain.set_brutal profile setting s).1 = ds_endpoints s) as He.
  { unfold Domain.set_brutal. by repeat case_match. }
  destruct (Domain.set_brutal profile setting s) as [changed [[]|why]]; [by apply settings_transacted|by apply refused_transacted].
Qed.

Lemma add_rule_transacted new_ids k s new_id m a :
  kept_ok k s → askable m a →
  transacted (from_option fst s (add_user_rule new_ids new_id m a s)) k s (add_rule new_ids k s new_id m a).
Proof.
  intros Hk Ha. pose proof (ko_store _ _ Hk) as Hs. unfold add_rule. cbv zeta.
  assert (transacted (from_option fst s (add_user_rule new_ids new_id m a s)) k s (
    '(changed, added) ← add_user_rule new_ids new_id m a s;
    match added with
    | Err e => Some (k, s, Err (Refused (domain_error_to_string e)))
    | Ok id => keep k s changed id
    end)) as Hadd.
  { destruct (next_user_precedence (ds_rules s)) as [n|] eqn:En.
    - pose proof (add_user_rule_ok new_ids new_id m a s n Hs Ha En) as Hu.
      destruct (build_total new_id m a n false) as [[rule|e] Hb]; unfold user in Hu; rewrite Hb in Hu.
      + destruct Hu as (-> & -> & Hok). by apply settings_transacted.
      + rewrite Hu. by apply refused_transacted.
    - unfold add_user_rule. rewrite En. by apply refused_transacted. }
  destruct m; try (destruct (_ <=? _); [by apply refused_transacted|exact Hadd]). by apply refused_transacted.
Qed.

Lemma remove_rule_transacted new_ids k s id :
  kept_ok k s → transacted (from_option fst s (Domain.remove_rule new_ids id s)) k s (remove_rule new_ids k s id).
Proof.
  intros Hk. unfold remove_rule. destruct (List.find _ _) as [r|]; [|by apply refused_transacted].
  destruct (is_builtin r); [by apply refused_transacted|].
  destruct (remove_rule_ok new_ids id s (ko_store _ _ Hk)) as (s' & res & -> & Hok & Hres). cbn [mbind option_bind].
  destruct res as [found|e]; [|by apply refused_transacted]. destruct Hres as [-> _]. by apply settings_transacted.
Qed.
End Transactions.

(** ** Any changes, one after another *)

Inductive Change (C : Type) : Type :=
  | ChangeAddEndpoint (id : EndpointId) (new : NewEndpoint (C := C))
  | ChangeRemoveEndpoint (id : EndpointId)
  | ChangeSetEnabled (id : EndpointId) (enabled : bool)
  | ChangeEncryptedDns (block : bool)
  | ChangeBrutal (profile : ProfileId) (bandwidth : option BandwidthPair) (now_unix : Z)
  | ChangeAddRule (new_id : RuleId) (m : RuleMatcher) (a : RuleAction)
  | ChangeRemoveRule (id : RuleId).
Arguments ChangeAddEndpoint {C}.
Arguments ChangeRemoveEndpoint {C}.
Arguments ChangeSetEnabled {C}.
Arguments ChangeEncryptedDns {C}.
Arguments ChangeBrutal {C}.
Arguments ChangeAddRule {C}.
Arguments ChangeRemoveRule {C}.

Section Changes.
Context {F S C : Type} `{StateFile F, SecretStore S C, BundlePorts C, UuidText, DebugText, ConfigText}.
Implicit Types (k : Configurator F S) (s : DomainState).

(** What a change replies with, less its value. *)
Definition outcome {T} (o : option (Configurator F S * DomainState * result ConfigureError T)) :
    option (Configurator F S * DomainState * result ConfigureError unit) :=
  '(k, s, r) ← o; Some (k, s, _ ← r; Ok ()).

Definition change (new_ids : nat → RuleId) (c : Change C) k s :
    option (Configurator F S * DomainState * result ConfigureError unit) :=
  match c with
  | ChangeAddEndpoint id new => outcome (add_endpoint k s id new)
  | ChangeRemoveEndpoint id => outcome (remove_endpoint (C := C) k s id)
  | ChangeSetEnabled id enabled => outcome (set_endpoint_enabled k s id enabled)
  | ChangeEncryptedDns block => outcome (set_encrypted_dns new_ids k s block)
  | ChangeBrutal profile bandwidth now => outcome (set_brutal k s profile bandwidth now)
  | ChangeAddRule new_id m a => outcome (add_rule new_ids k s new_id m a)
  | ChangeRemoveRule id => outcome (remove_rule new_ids k s id)
  end.

(** What a change makes of the store when it is made. *)
Definition asked (new_ids : nat → RuleId) (c : Change C) s : DomainState :=
  match c with
  | ChangeAddEndpoint id new => endpoint_added id new s
  | ChangeRemoveEndpoint id => (Domain.remove_endpoint id s).1
  | ChangeSetEnabled id enabled => (Domain.set_endpoint_enabled id enabled s).1
  | ChangeEncryptedDns block => dns_chosen new_ids block s
  | ChangeBrutal profile bandwidth now =>
      (Domain.set_brutal profile ((fun pair => (pair, mkBrutalAcknowledgement BRUTAL_WARNING_REVISION now)) <$> bandwidth) s).1
  | ChangeAddRule new_id m a => from_option fst s (add_user_rule new_ids new_id m a s)
  | ChangeRemoveRule id => from_option fst s (Domain.remove_rule new_ids id s)
  end.

(** A new endpoint's id is new and its credentials can be read once they are stored, and a rule is one a request can
    carry. *)
Definition change_ok `{CredentialForm C} (c : Change C) s : Prop :=
  match c with
  | ChangeAddEndpoint id new => (∀ e, e ∈ ds_endpoints s → key_of e ≠ for_endpoint id) ∧ readable (ne_credentials new)
  | ChangeAddRule _ m a => askable m a
  | _ => True
  end.

Context `{CredentialForm C}.

(** The configurations there can be, from the one the service started with; and whether every change that failed since
    the last one that was made left the file reading as it did. *)
Inductive configured (k : Configurator F S) (s : DomainState) : Configurator F S → DomainState → bool → Prop :=
  | configured_start : configured k s k s true
  | configured_made k1 s1 settled k2 s2 new_ids c :
      configured k s k1 s1 settled → change_ok c s1 → change new_ids c k1 s1 = Some (k2, s2, Ok ()) →
      configured k s k2 s2 true
  | configured_failed k1 s1 settled k2 s2 new_ids c e :
      configured k s k1 s1 settled → change_ok c s1 → change new_ids c k1 s1 = Some (k2, s2, Err e) →
      configured k s k2 s2 (settled && bool_decide (file_read (config k2) = file_read (config k1))).

Context `{!StateFileLaws F, !SecretStoreLaws S C, !UuidLaws, !ConfigTextLaws}.

Lemma outcome_transacted {T} wanted k s (o : option (Configurator F S * DomainState * result ConfigureError T)) :
  transacted (C := C) wanted k s o → transacted (C := C) wanted k s (outcome o).
Proof. intros (k' & s' & r & -> & Hok & Hr). exists k', s', (_ ← r; Ok ()). split; [done|]. split; [done|]. by destruct r. Qed.

Lemma change_transacted new_ids c k s :
  kept_ok (C := C) k s → change_ok c s → transacted (C := C) (asked new_ids c s) k s (change new_ids c k s).
Proof.
  intros Hk Hc. destruct c; cbn [change asked]; apply outcome_transacted.
  - destruct Hc. by apply add_endpoint_transacted.
  - by apply remove_endpoint_transacted.
  - by apply set_endpoint_enabled_transacted.
  - by apply set_encrypted_dns_transacted.
  - by apply set_brutal_transacted.
  - by apply add_rule_transacted.
  - by apply remove_rule_transacted.
Qed.

Lemma configured_ok k s k' s' settled :
  kept_ok (C := C) k s → restorable (config k) s → configured k s k' s' settled →
  kept_ok (C := C) k' s' ∧ (settled = true → restorable (config k') s').
Proof.
  intros Hk Hsaved. induction 1 as [|k1 s1 settled k2 s2 new_ids c _ [IH _] Hc E|k1 s1 settled k2 s2 new_ids c e _ [IH IHr] Hc E];
    [done|..]; destruct (change_transacted new_ids c k1 s1 IH Hc) as (k3 & s3 & r3 & E3 & Hok & Hr);
    rewrite E in E3; injection E3 as <- <- <-; (split; [done|]); [by intros _; destruct Hr|].
  destruct Hr as (-> & _ & _). intros [Hs Hsame%bool_decide_eq_true]%andb_true_iff. eapply restorable_ext; [done|by apply IHr].
Qed.
End Changes.

(** * Properties *)


(** * Witnesses *)

Import ToyText CoreDemo CredentialsDemo SealDemo.

(** Every stored form as a text of its own: the digits of its number. *)
Module ConfigureDemo.
Fixpoint digits (p : positive) : string :=
  match p with xH => "" | xO p => String "0"%char (digits p) | xI p => String "1"%char (digits p) end.
Fixpoint undigits (s : string) : positive :=
  match s with
  | EmptyString => xH
  | String b s => if Ascii.eqb b "0"%char then xO (undigits s) else xI (undigits s)
  end.
Lemma undigits_digits p : undigits (digits p) = p.
Proof. induction p as [p IH|p IH|]; simpl; by rewrite ?IH. Qed.

(** Numbers packed one after another, and lists of packed things. *)
Definition pack_list {A} (f : A → positive) (l : list A) : positive := positives_flatten (map f l).
Definition unpack_list {A} (g : positive → option A) (p : positive) : option (list A) := positives_unflatten p ≫= mapM g.

Lemma unpack_pack {A} (f : A → positive) g (l : list A) : (∀ x, g (f x) = Some x) → unpack_list g (pack_list f l) = Some l.
Proof.
  intros Hg. unfold unpack_list, pack_list. rewrite positives_unflatten_flatten. cbn [mbind option_bind].
  apply mapM_Some. induction l as [|x l IH]; [constructor|]. by constructor.
Qed.

Definition pack_endpoint (w : EndpointWire) : positive := positives_flatten
  [countable.encode (ew_id w); countable.encode (ew_label w); countable.encode (ew_host w); countable.encode (ew_port w);
   countable.encode (ow_kind (ew_origin w)); countable.encode (ow_provider (ew_origin w));
   countable.encode (ow_region (ew_origin w)); countable.encode (ow_resource_ids (ew_origin w));
   countable.encode (ew_credential w); countable.encode (ew_enabled w)].
Definition unpack_endpoint (p : positive) : option EndpointWire :=
  parts ← positives_unflatten p;
  match parts with
  | [i; l; h; po; k; pr; r; ids; c; e] =>
      i ← countable.decode i; l ← countable.decode l; h ← countable.decode h; po ← countable.decode po; k ← countable.decode k;
      pr ← countable.decode pr; r ← countable.decode r; ids ← countable.decode ids; c ← countable.decode c; e ← countable.decode e;
      Some (mkEndpointWire i l h po (mkOriginWire k pr r ids) c e)
  | _ => None
  end.
Lemma unpack_endpoint_pack w : unpack_endpoint (pack_endpoint w) = Some w.
Proof.
  unfold unpack_endpoint, pack_endpoint. rewrite positives_unflatten_flatten. cbn [mbind option_bind].
  rewrite !countable.decode_encode. cbn [mbind option_bind]. by destruct w as [? ? ? ? [? ? ? ?] ? ?].
Qed.

Definition brutal_tuple (b : BrutalWire) := (bw_up b, bw_down b, bw_warning b, bw_at_unix b).
Definition pack_profile (w : ProfileWire) : positive :=
  positives_flatten [countable.encode (pw_id w); countable.encode (pw_params w); countable.encode (brutal_tuple <$> pw_brutal w)].
Definition unpack_profile (p : positive) : option ProfileWire :=
  parts ← positives_unflatten p;
  match parts with
  | [i; ps; b] =>
      i ← countable.decode i; ps ← countable.decode ps; b ← countable.decode b;
      Some (mkProfileWire i ps ((fun '(u, d, w, a) => mkBrutalWire u d w a) <$> b))
  | _ => None
  end.
Lemma unpack_profile_pack w : unpack_profile (pack_profile w) = Some w.
Proof.
  unfold unpack_profile, pack_profile. rewrite positives_unflatten_flatten. cbn [mbind option_bind].
  rewrite !countable.decode_encode. cbn [mbind option_bind]. by destruct w as [? ? [[? ? ? ?]|]].
Qed.

Definition pack_rule (w : RuleWire) : positive := positives_flatten
  [countable.encode (rw_id w); countable.encode (rw_kind w); countable.encode (rw_value w); countable.encode (rw_action w);
   countable.encode (rw_precedence w)].
Definition unpack_rule (p : positive) : option RuleWire :=
  parts ← positives_unflatten p;
  match parts with
  | [i; k; v; a; n] =>
      i ← countable.decode i; k ← countable.decode k; v ← countable.decode v; a ← countable.decode a; n ← countable.decode n;
      Some (mkRuleWire i k v a n)
  | _ => None
  end.
Lemma unpack_rule_pack w : unpack_rule (pack_rule w) = Some w.
Proof.
  unfold unpack_rule, pack_rule. rewrite positives_unflatten_flatten. cbn [mbind option_bind].
  rewrite !countable.decode_encode. cbn [mbind option_bind]. by destruct w.
Qed.

Definition pack_wire (w : Wire) : positive := positives_flatten
  [countable.encode (w_version w); pack_list pack_endpoint (w_endpoints w); pack_list pack_profile (w_profiles w);
   countable.encode ((fun c => (cw_policy c, cw_disclosed_version c)) <$> w_encrypted_dns w); pack_list pack_rule (w_rules w)].
Definition unpack_wire (p : positive) : option Wire :=
  parts ← positives_unflatten p;
  match parts with
  | [v; es; ps; c; rs] =>
      v ← countable.decode v; es ← unpack_list unpack_endpoint es; ps ← unpack_list unpack_profile ps;
      c ← countable.decode c; rs ← unpack_list unpack_rule rs;
      Some (mkWire v es ps ((fun '(p, d) => mkConsentWire p d) <$> c) rs)
  | _ => None
  end.
Lemma unpack_wire_pack w : unpack_wire (pack_wire w) = Some w.
Proof.
  unfold unpack_wire, pack_wire. rewrite positives_unflatten_flatten. cbn [mbind option_bind].
  rewrite !countable.decode_encode. cbn [mbind option_bind].
  rewrite !unpack_pack by (apply unpack_endpoint_pack || apply unpack_profile_pack || apply unpack_rule_pack).
  cbn [mbind option_bind]. by destruct w as [? ? ? [[? ?]|] ?].
Qed.

#[export] Instance digits_text : ConfigText := {|
  to_vec_pretty w := digits (pack_wire w);
  wire_from_slice s := match unpack_wire (undigits s) with Some w => Ok w | None => Err "not a form" end;
  version_from_slice s := Ok 1;
|}.
#[export] Instance digits_laws : ConfigTextLaws.
Proof. intros w. simpl. by rewrite undigits_digits, unpack_wire_pack. Qed.

(** A first run: no file, no secrets, the product's own store. *)
Definition ids (n : nat) : RuleId := 100 + Z.of_nat n.
Definition first : DomainState := default (mkDomainState [] [] [] consent_new) (seeded ids).
(** The file and the secrets as the service keeps them; the call that restricts a file once it is in place is to fail. *)
Definition empty_file : TrustedFile :=
  mkTrusted "config.json" "SY" None None None false (repeat None 7 ++ [Some "access is denied"]).
Definition fresh : Configurator TrustedStateFile (SealedSecretStore (gmap string string)) :=
  mkConfigurator (exist _ empty_file eq_refl) (mkSealed ∅).

Lemma first_run_ok : kept_ok (C := EndpointCredentials) fresh first ∧ restorable (config fresh) first.
Proof.
  unfold first. destruct (seeded_ok ids) as (s & Es & Hs & He & Hc & Hr). rewrite Es. simpl. split; [constructor|].
  - exact Hs.
  - rewrite He. by intros e ?%elem_of_nil.
  - rewrite He. constructor.
  - intros new_ids. destruct (seeded_ok (new_ids 3%nat)) as (s' & E & Hs' & He' & Hc' & Hr').
    exists None, s', []. split; [done|]. split; [unfold from_load_result; by rewrite E|]. constructor; [by rewrite He, He'| |by rewrite Hc, Hc'|by rewrite Hr, Hr'].
    unfold seeded in E, Es. destruct (builtin_rules_for ids _ _); [|done]. destruct (builtin_rules_for (new_ids _) _ _); [|done].
    injection E as <-. injection Es as <-. done.
Qed.

Definition home : NewEndpoint (C := EndpointCredentials) := mkNewEndpoint "home" "198.51.100.7" CredentialsDemo.bundle.

Lemma home_ok : change_ok (ChangeAddEndpoint 7 home) first.
Proof.
  split.
  - intros e He. vm_compute in He. by apply elem_of_nil in He.
  - intros text E. assert (to_plaintext_json (ne_credentials home) = Ok "bundle") as E' by (vm_compute; reflexivity).
    rewrite E' in E. injection E as <-. vm_compute. reflexivity.
Qed.
End ConfigureDemo.
Import ConfigureDemo.

