(* ===== verification/Approval.v ===== *)
(** Changes that wait for an elevated client's approval (crates/dnetd/src/approval.rs). *)

From S2P Require Import Prelude Text Endpoint Rule Json Protocol.

(** * Definitions *)

(* src: crates/dnetd/src/approval.rs:16-17 HOLD_FOR_MS *)
Definition HOLD_FOR_MS : Z := 10 * 60 * 1000.
(* src: crates/dnetd/src/approval.rs:19-21 MAX_HELD *)
Definition MAX_HELD : Z := 8.

(* src: crates/dnetd/src/approval.rs:34-39 HoldError *)
Inductive HoldError : Type := Full.
(* src: crates/dnetd/src/approval.rs:41-48 FindError *)
Inductive FindError : Type := NotHeld | Expired.

#[export] Instance NewEndpoint_eq_dec {C} `{EqDecision C} : EqDecision (NewEndpoint (C := C)).
Proof. solve_decision. Defined.
#[export] Instance FeedImport_eq_dec : EqDecision FeedImport.
Proof. solve_decision. Defined.
#[export] Instance ServerKind_eq_dec : EqDecision ServerKind.
Proof. solve_decision. Defined.
#[export] Instance Request_eq_dec {C} `{EqDecision C} : EqDecision (Request (C := C)).
Proof. solve_decision. Defined.

Section Approval.
Context {C : Type} `{!EqDecision C}.

(* src: crates/dnetd/src/approval.rs:23-32 Held *)
Record Held : Type := mkHeld {
  held_id : string;
  held_what : string;
  held_request : Request (C := C);
  proposed_unix_ms : Z;
  expires_unix_ms : Z;
}.

(** The changes that are waiting, oldest first. *)
(* src: crates/dnetd/src/approval.rs:50-54 PendingChanges *)
Record PendingChanges : Type := mkPending { held : list Held }.

(* src: crates/dnetd/src/approval.rs:61-64 PendingChanges::expire *)
Definition expire (now_ms : Z) (p : PendingChanges) : PendingChanges :=
  mkPending (List.filter (fun h => now_ms <? expires_unix_ms h) (held p)).

(** The loop that looks for an id no change waits under; [None] is fuel that ran out. *)
(* src: crates/dnetd/src/approval.rs:83-87 PendingChanges::hold *)
Fixpoint unused_id (fuel : nat) (waiting : list Held) (id : string) : option string :=
  if existsb (fun h => String.eqb (held_id h) id) waiting then
    match fuel with O => None | S fuel => unused_id fuel waiting (id +:+ "x") end
  else Some id.

(* src: crates/dnetd/src/approval.rs:66-96 PendingChanges::hold *)
Definition hold (request : Request (C := C)) (what : string) (now_ms : Z) (new_id : string) (p : PendingChanges) :
    option (PendingChanges * result HoldError string) :=
  let p := expire now_ms p in
  match List.find (fun h => bool_decide (held_request h = request)) (held p) with
  | Some same => Some (p, Ok (held_id same))
  | None =>
      if MAX_HELD <=? Z.of_nat (length (held p)) then Some (p, Err Full)
      else
        id ← unused_id (length (held p)) (held p) new_id;
        Some (mkPending (held p ++ [{|
          held_id := id; held_what := what; held_request := request;
          proposed_unix_ms := now_ms; expires_unix_ms := u64_saturating_add now_ms HOLD_FOR_MS |}]), Ok id)
  end.

(* src: crates/dnetd/src/approval.rs:98-110 PendingChanges::find *)
Definition find (id : string) (now_ms : Z) (p : PendingChanges) : PendingChanges * result FindError Held :=
  let expired := existsb (fun h => String.eqb (held_id h) id && (expires_unix_ms h <=? now_ms)) (held p) in
  let p := expire now_ms p in
  (p, match List.find (fun h => String.eqb (held_id h) id) (held p) with
      | Some h => Ok h
      | None => if expired then Err Expired else Err NotHeld
      end).

(* src: crates/dnetd/src/approval.rs:112-117 PendingChanges::remove *)
Definition remove (id : string) (p : PendingChanges) : PendingChanges * bool :=
  let kept := List.filter (fun h => negb (String.eqb (held_id h) id)) (held p) in
  (mkPending kept, negb (length kept =? length (held p))%nat).

(* src: crates/dnetd/src/approval.rs:119-131 PendingChanges::list_json *)
Definition list_json `{JsonText} (now_ms : Z) (p : PendingChanges) : PendingChanges * string :=
  let p := expire now_ms p in
  (p, json_to_string (object [("pending", Array (map (fun h => object [
    ("id", Str (held_id h));
    ("what", Str (held_what h));
    ("proposed_unix_ms", Num (Int (proposed_unix_ms h)));
    ("expires_unix_ms", Num (Int (expires_unix_ms h)))]) (held p)))])).

(** * Lemmas *)

(** The texts the loop tries are all different, so one of as many as there are changes, and one more, is free. *)
Fixpoint tried (n : nat) (id : string) : list string :=
  match n with O => [id] | S n => id :: tried n (id +:+ "x") end.

Lemma append_length (a b : string) : String.length (a +:+ b) = (String.length a + String.length b)%nat.
Proof. induction a as [|x a IH]; [done|]. simpl. by rewrite IH. Qed.

Lemma tried_longer n id s : s ∈ tried n id → (String.length id ≤ String.length s)%nat.
Proof.
  revert id. induction n as [|n IH]; intros id; simpl.
  - by intros ->%list_elem_of_singleton.
  - intros [->|Hs]%elem_of_cons; [done|]. apply IH in Hs. rewrite append_length in Hs. simpl in Hs. lia.
Qed.

Lemma tried_NoDup n id : NoDup (tried n id) ∧ length (tried n id) = S n.
Proof.
  revert id. induction n as [|n IH]; intros id; simpl; [split; [apply NoDup_singleton|done]|].
  destruct (IH (id +:+ "x")) as [Hnd Hlen]. split; [|by rewrite Hlen]. apply NoDup_cons. split; [|done].
  intros Hin%tried_longer. rewrite append_length in Hin. simpl in Hin. lia.
Qed.

Lemma unused_id_None fuel waiting id : unused_id fuel waiting id = None → ∀ s, s ∈ tried fuel id → s ∈ map held_id waiting.
Proof.
  revert id. induction fuel as [|fuel IH]; intros id; simpl; destruct (existsb _ _) eqn:E; try done;
    apply existsb_exists_elem in E as (h & Hh & Hid%String.eqb_eq); intros Hn s.
  - intros ->%list_elem_of_singleton. apply elem_of_map. eauto.
  - intros [->|Hs]%elem_of_cons; [apply elem_of_map; eauto|]. by eapply IH.
Qed.

(** The loop ends within as many steps as changes are waiting. *)
Lemma unused_id_total waiting id : is_Some (unused_id (length waiting) waiting id).
Proof.
  destruct (unused_id _ _ _) eqn:E; [by eexists|]. exfalso. pose proof (unused_id_None _ _ _ E) as Hsub.
  destruct (tried_NoDup (length waiting) id) as [Hnd Hlen].
  pose proof (NoDup_submseteq _ _ Hnd Hsub) as Hs%submseteq_length. rewrite length_map, Hlen in Hs. lia.
Qed.

Lemma unused_id_fresh fuel waiting id id' : unused_id fuel waiting id = Some id' → id' ∉ map held_id waiting.
Proof.
  revert id. induction fuel as [|fuel IH]; intros id; simpl; destruct (existsb _ _) eqn:E; try done; [|by apply IH|];
    intros [= <-] (h & -> & Hh)%elem_of_map; apply not_true_iff_false in E; apply E, existsb_exists_elem; exists h;
    (split; [done|apply String.eqb_refl]).
Qed.

(** What every list of waiting changes is like. *)
Record pending_ok (p : PendingChanges) : Prop := {
  po_ids : NoDup (map held_id (held p));
  po_requests : NoDup (map held_request (held p));
  po_bound : Z.of_nat (length (held p)) ≤ MAX_HELD;
  po_times h : h ∈ held p → expires_unix_ms h = u64_saturating_add (proposed_unix_ms h) HOLD_FOR_MS;
}.

Lemma map_filter_NoDup {A B} (g : A → B) q l : NoDup (map g l) → NoDup (map g (List.filter q l)).
Proof.
  induction l as [|x l IH]; [done|]. simpl. intros [Hx Hl]%NoDup_cons. destruct (q x); [|by apply IH].
  simpl. apply NoDup_cons. split; [|by apply IH]. intros (y & E & [Hy _]%elem_of_filter_bool)%elem_of_map.
  apply Hx, elem_of_map. eauto.
Qed.

Lemma filtered_ok q p : pending_ok p → pending_ok (mkPending (List.filter q (held p))).
Proof.
  intros [H1 H2 H3 H4]. constructor; simpl.
  - by apply map_filter_NoDup.
  - by apply map_filter_NoDup.
  - pose proof (List.filter_length_le q (held p)). lia.
  - intros h [Hh _]%elem_of_filter_bool. by apply H4.
Qed.

(** What holding does. *)
Lemma hold_cases request what now new_id p :
  ∃ r p', hold request what now new_id p = Some (p', r) ∧
  ((∃ h, h ∈ held (expire now p) ∧ held_request h = request ∧ p' = expire now p ∧ r = Ok (held_id h)) ∨
   (p' = expire now p ∧ r = Err Full ∧ MAX_HELD ≤ Z.of_nat (length (held p')) ∧ request ∉ map held_request (held p')) ∨
   (∃ h, p' = mkPending (held (expire now p) ++ [h]) ∧ r = Ok (held_id h) ∧ held_request h = request ∧
      held_what h = what ∧ proposed_unix_ms h = now ∧ expires_unix_ms h = u64_saturating_add now HOLD_FOR_MS ∧
      held_id h ∉ map held_id (held (expire now p)) ∧ request ∉ map held_request (held (expire now p)) ∧
      Z.of_nat (length (held (expire now p))) < MAX_HELD)).
Proof.
  unfold hold. cbv zeta. set (q := expire now p).
  destruct (List.find _ _) as [same|] eqn:E.
  - apply find_Some_elem in E as [Hin Hr%bool_decide_eq_true]. eexists _, _. split; [done|]. left. by exists same.
  - assert (request ∉ map held_request (held q)) as Hnew.
    { intros (h & -> & Hh)%elem_of_map. pose proof (find_None_elem _ _ E h Hh) as Hn. simpl in Hn. by rewrite bool_decide_eq_true_2 in Hn. }
    destruct (Z.leb_spec MAX_HELD (Z.of_nat (length (held q)))).
    + eexists _, _. split; [done|]. right. by left.
    + destruct (unused_id_total (held q) new_id) as [id Hid]. rewrite Hid. cbn [mbind option_bind].
      eexists _, _. split; [done|]. right. right. eexists. split; [done|]. simpl. split_and!; try done.
      by eapply unused_id_fresh.
Qed.

Lemma hold_ok request what now new_id p p' r :
  pending_ok p → hold request what now new_id p = Some (p', r) → pending_ok p'.
Proof.
  intros Hp E. destruct (hold_cases request what now new_id p) as (r' & p'' & E' & Hcase).
  rewrite E in E'. injection E' as <- <-. pose proof (filtered_ok (fun h => now <? expires_unix_ms h) p Hp) as Hq.
  destruct Hcase as [(h & _ & _ & -> & _)|[(-> & _)|(h & -> & _ & Hr & _ & Hnow & Hexp & Hid & Hnew & Hlen)]]; [done..|].
  destruct Hq as [H1 H2 H3 H4]. constructor; simpl.
  - rewrite map_app. apply NoDup_app. split_and!; [done| |apply NoDup_singleton].
    by intros i Hi ->%list_elem_of_singleton.
  - rewrite map_app. apply NoDup_app. split_and!; [done| |apply NoDup_singleton].
    intros i Hi ->%list_elem_of_singleton. by rewrite Hr in Hi.
  - rewrite length_app. simpl in *. lia.
  - intros x [Hx|Hx]%elem_of_app; [by apply H4|]. apply list_elem_of_singleton in Hx as ->. by rewrite Hexp, Hnow.
Qed.

(** The lists there can be. *)
Inductive pending_step (p : PendingChanges) : PendingChanges → Prop :=
  | step_hold request what now new_id p' r : hold request what now new_id p = Some (p', r) → pending_step p p'
  | step_find id now : pending_step p (find id now p).1
  | step_remove id : pending_step p (remove id p).1
  | step_list now : pending_step p (expire now p).

Lemma pending_reachable p : rtc pending_step (mkPending []) p → pending_ok p.
Proof.
  intros Hr. assert (pending_ok (mkPending [])) as H0 by (constructor; simpl; [constructor|constructor|done|by intros h ?%elem_of_nil]).
  revert H0. induction Hr as [|p q p' Hs _ IH]; [done|]. intros Hp. apply IH.
  destruct Hs; [by eapply hold_ok|by apply filtered_ok..].
Qed.

Lemma found_until p h t : pending_ok p → h ∈ held p →
  (find (held_id h) t p).2 = if t <? expires_unix_ms h then Ok h else Err Expired.
Proof.
  intros Hp Hh. unfold find. cbv zeta. simpl.
  assert (∀ x, x ∈ held p → String.eqb (held_id x) (held_id h) = true → x = h) as Hone.
  { intros x Hx E%String.eqb_eq. by apply (NoDup_map_inj held_id (held p)); [apply (po_ids _ Hp)|..]. }
  destruct (List.find _ _) as [x|] eqn:E.
  - apply find_Some_elem in E as [[Hx Ht]%elem_of_filter_bool Hid]. by rewrite <-(Hone x Hx Hid), Ht.
  - destruct (t <? expires_unix_ms h) eqn:Et.
    + assert (h ∈ List.filter (fun h => t <? expires_unix_ms h) (held p)) as Hin by by apply elem_of_filter_bool.
      pose proof (find_None_elem _ _ E h Hin) as Hn. simpl in Hn. by rewrite String.eqb_refl in Hn.
    + assert (existsb (fun x => String.eqb (held_id x) (held_id h) && (expires_unix_ms x <=? t)) (held p) = true) as ->; [|done].
      apply existsb_exists_elem. exists h. split; [done|]. rewrite String.eqb_refl. simpl. apply Z.leb_le. apply Z.ltb_ge in Et. lia.
Qed.

Lemma not_found_again id t p : (find id t (remove id p).1).2 = Err NotHeld.
Proof.
  unfold find, remove. cbv zeta. simpl.
  assert (∀ x, x ∈ List.filter (fun h => negb (String.eqb (held_id h) id)) (held p) → String.eqb (held_id x) id = false) as Hno.
  { intros x [_ Hx]%elem_of_filter_bool. by apply negb_true_iff. }
  destruct (List.find _ _) as [x|] eqn:E.
  - apply find_Some_elem in E as [[Hx _]%elem_of_filter_bool Hid]. by rewrite (Hno x Hx) in Hid.
  - destruct (existsb _ _) eqn:Ex; [|done]. apply existsb_exists_elem in Ex as (x & Hx & E'). apply andb_true_iff in E' as [E' _].
    by rewrite (Hno x Hx) in E'.
Qed.

(** * Properties *)

(** What an approval finds is what was asked. However changes were held, found, withdrawn and listed before: a
    request is held under an id of its own, and found under it, as it was held, for ten minutes from when it was
    first asked and no longer, even when it is asked again; at most eight wait, and one more is refused without
    pushing any of them out; and one that was removed is not found again. *)
Theorem approval_finds_what_was_held p request what now new_id
    (Hreach : rtc pending_step (mkPending []) p) :
  ∃ p' r, hold request what now new_id p = Some (p', r) ∧ Z.of_nat (length (held p')) ≤ 8 ∧
    (∀ h, h ∈ held p → now < expires_unix_ms h → h ∈ held p') ∧
    match r with
    | Err Full => length (held p') = 8%nat ∧ (∀ h, h ∈ held p' → h ∈ held p)
    | Ok id =>
        ∃ h, h ∈ held p' ∧ held_id h = id ∧ held_request h = request ∧
          (∀ t, (find id t p').2 = if t <? expires_unix_ms h then Ok h else Err Expired) ∧
          expires_unix_ms h = u64_saturating_add (proposed_unix_ms h) 600000 ∧
          (h ∉ held p → proposed_unix_ms h = now ∧ held_what h = what) ∧
          (∀ h', h' ∈ held p → now < expires_unix_ms h' → held_request h' = request → h' = h) ∧
          ∀ t, (find id t (remove id p').1).2 = Err NotHeld
    end.
Proof.
  pose proof (pending_reachable p Hreach) as Hp.
  destruct (hold_cases request what now new_id p) as (r & p' & E & Hcase). pose proof (hold_ok _ _ _ _ _ _ _ Hp E) as Hp'.
  assert (∀ h, h ∈ held p → now < expires_unix_ms h → h ∈ held (expire now p)) as Hstay.
  { intros h Hh Ht. apply elem_of_filter_bool. split; [done|]. by apply Z.ltb_lt. }
  assert (∀ h, h ∈ held (expire now p) → h ∈ held p) as Hback by (by intros h [? _]%elem_of_filter_bool).
  exists p', r. split; [done|]. split; [apply (po_bound _ Hp')|].
  destruct Hcase as [(h & Hh & Hr & -> & ->)|[(-> & -> & Hfull & _)|(h & -> & -> & Hr & Hw & Hn & Hexp & Hid & Hnew & _)]].
  - split; [done|]. exists h. split_and!; try done.
    + intros t. by apply found_until.
    + by apply (po_times _ Hp'), Hh.
    + intros Hno. by destruct (Hno (Hback h Hh)).
    + intros h' Hh' Ht Hr'. apply (NoDup_map_inj held_request (held (expire now p))); [apply (po_requests _ Hp')|by apply Hstay|done|congruence].
    + intros t. apply not_found_again.
  - split; [done|]. split; [|done]. pose proof (po_bound _ Hp') as Hb. unfold MAX_HELD in *. lia.
  - assert (h ∈ held (expire now p) ++ [h]) as Hin by (apply elem_of_app; right; by apply list_elem_of_singleton).
    split; [intros x Hx Ht; apply elem_of_app; left; by apply Hstay|]. exists h. split_and!; try done.
    + intros t. by apply found_until.
    + by rewrite Hn, Hexp.
    + intros h' Hh' Ht Hr'. destruct Hnew. apply elem_of_map. exists h'. split; [done|]. by apply Hstay.
    + intros t. apply not_found_again.
Qed.
End Approval.

Lemma approval_finds_what_was_held_witness :
  ∃ p' h, hold (C := unit) (RemoveRule 7) "remove the rule" 1000 "a" (mkPending []) = Some (p', Ok "a") ∧
    (find "a" 600999 p').2 = Ok h ∧ (find "a" 601000 p').2 = Err Expired.
Proof.
  destruct (approval_finds_what_was_held (C := unit) (mkPending []) (RemoveRule 7) "remove the rule" 1000 "a" (rtc_refl _ _))
    as (p' & r & E & _ & _ & Hr).
  vm_compute in E. injection E as <- <-. destruct Hr as (h & Hh & _ & _ & Hf & _).
  apply list_elem_of_singleton in Hh as ->. eexists _, _. split; [reflexivity|]. split; [exact (Hf 600999)|exact (Hf 601000)].
Defined.
