(* ===== verification/Orchestrator.v ===== *)
(** The connect orchestrator: the one loop that runs the engine, the executor that carries out what it asks for, and
    the handle through which clients ask (crates/dnetd/src/orchestrator.rs, telemetry.rs).

    The three run at the same time, so the whole is a relation on a state that holds each of them and the channels
    between them; a step is one thing one of them does that another can see. *)

From S2P Require Import Prelude Float Text Profile Health Endpoint IpText Quality Degraded Session.
From S2P Require Import Reprobe Migrate Probe Selection Engine EngineSafety Telemetry Json Protocol EventBus.

(** * Definitions *)

(** ** Telemetry *)

(* src: crates/dnetd/src/telemetry.rs:21-27 Inner *)
Record Telemetry : Type := mkTelemetry {
  tel_attempt : Z;
  tel_paths : option PathsSnapshot;
  tel_stats : SessionStats;
}.

(* src: crates/dnetd/src/telemetry.rs:36-38 Telemetry::new *)
Definition telemetry_new : Telemetry := mkTelemetry 0 None stats_new.

(* src: crates/dnetd/src/telemetry.rs:44-52 Telemetry::publish_paths *)
Definition publish_paths (attempt : Z) (snapshot : PathsSnapshot) (t : Telemetry) : Telemetry :=
  if attempt <? tel_attempt t then t else mkTelemetry attempt (Some snapshot) (tel_stats t).

(* src: crates/dnetd/src/telemetry.rs:54-62 Telemetry::clear_paths *)
Definition clear_paths (attempt : Z) (t : Telemetry) : Telemetry :=
  if tel_attempt t <=? attempt then mkTelemetry attempt None (tel_stats t) else t.

(* src: crates/dnetd/src/telemetry.rs:69-72 Telemetry::begin_session *)
Definition telemetry_begin (now : Instant) (t : Telemetry) : Telemetry :=
  mkTelemetry (tel_attempt t) (tel_paths t) (stats_begin (tel_stats t) now).

(* src: crates/dnetd/src/telemetry.rs:74-77 Telemetry::end_session *)
Definition telemetry_end (t : Telemetry) : Telemetry := mkTelemetry (tel_attempt t) (tel_paths t) (stats_end (tel_stats t)).

(* src: crates/dnetd/src/telemetry.rs:79-82 Telemetry::record *)
Definition telemetry_record (event : ConnectionEvent) (now : Instant) (t : Telemetry) : Telemetry :=
  mkTelemetry (tel_attempt t) (tel_paths t) (stats_record (tel_stats t) event now).

(* src: crates/dnetd/src/telemetry.rs:84-87 Telemetry::stats *)
Definition telemetry_stats (now : Instant) (t : Telemetry) : option StatsSummary := stats_summary (tel_stats t) now.

(** ** Messages and work *)

(* src: crates/dnetd/src/orchestrator.rs:127-136 Timing *)
Record Timing : Type := mkTiming { live_check_every : Z; endpoint_probe_every : Z; reach_timeout : Z }.

(* src: crates/dnetd/src/orchestrator.rs:138-146 Timing::default *)
Definition timing_default : Timing := mkTiming (from_secs 5) (from_secs 15) (from_secs 3).

(** The senders that a shutdown and a barrier answer to are the waits of their callers, not data. *)
(* src: crates/dnetd/src/orchestrator.rs:150-164 Msg *)
Inductive Msg : Type :=
  | MConnect (profile : option ProfileId)
  | MDisconnect
  | MShutdown
  | MReport (attempt : Z) (input : Input).

(* src: crates/dnetd/src/orchestrator.rs:171-191 WorkKind *)
Inductive WorkKind : Type :=
  | WReach (endpoints : list Endpoint)
  | WStartRace (profiles : list ProfileId) (endpoint : EndpointId)
  | WCancelRace
  | WStartTunnel (profile : ProfileId) (endpoint : EndpointId)
  | WStopTunnel
  | WMoveTunnel (profile : ProfileId) (endpoint : EndpointId)
  | WBarrier.

(* src: crates/dnetd/src/orchestrator.rs:166-169 Work *)
Record Work : Type := mkWork { w_attempt : Z; w_kind : WorkKind }.

(* src: crates/dnetd/src/orchestrator.rs:193-211 fold_moves *)
Fixpoint fold_moves (work : list WorkKind) : list WorkKind :=
  match work with
  | [] => []
  | WStopTunnel :: WStartTunnel profile endpoint :: items => WMoveTunnel profile endpoint :: fold_moves items
  | item :: items => item :: fold_moves items
  end.

(** ** What clients see *)

(* src: crates/dnetd/src/orchestrator.rs:708-715 kind_name *)
Definition kind_name (k : ProfileKind) : string :=
  match k with AmneziaWg => "AmneziaWg" | Hysteria2 => "Hysteria2" | VlessReality => "VlessReality" end.

Section Snapshot.
Context `{UuidDisplay}.

(* src: crates/dnetd/src/orchestrator.rs:717-782 snapshot_of *)
Definition snapshot_of (e : Engine) : StateSnapshot :=
  let carrying :=
    match e_phase e with
    | Engine.Connected profile endpoint =>
        p ← List.find (has_id profile) (e_profiles e);
        ep ← List.find (fun ep => bool_decide (endpoint_id ep = endpoint)) (e_endpoints e);
        Some (p, ep)
    | _ => None
    end in
  let status :=
    match e_phase e with
    | Idle => Disconnected
    | Engine.Probing | Starting _ _ | Recovering => Protocol.Probing
    | Engine.Connected _ _ => Connected
    | PhaseFailed _ => Failed
    end in
  let failure := match e_phase e with PhaseFailed cause => Some cause | _ => None end in
  let '(active_profile, active_endpoint, warnings, posture) :=
    match status, carrying with
    | Connected, Some (p, ep) =>
        (Some (mkActiveProfile (profile_id p) (kind_name (profile_kind p)) (profile_tier p)),
         Some (mkActiveEndpoint (uuid_to_string (endpoint_id ep)) (endpoint_label ep)),
         (if bool_decide (profile_tier p = Tier2) then [Tier2ProfileActive] else []) ++
         (if bool_decide (profile_brutal p = None) then [] else [BrutalEnabled]),
         Tunnelled (profile_tier p))
    | _, _ => (None, None, [], FailClosed)
    end in
  let status :=
    match status, active_profile with Connected, None => Protocol.Probing | _, _ => status end in
  mkSnapshot status active_profile active_endpoint failure warnings posture.
End Snapshot.

(** ** The parts at run time *)

(** What the effects have done to the machine: nothing is up, a tunnel is, or a start that failed left something. *)
Inductive Machine : Type := Down | Up (profile : ProfileId) (endpoint : EndpointId) | Leftover.

#[export] Instance Machine_eq_dec : EqDecision Machine.
Proof. solve_decision. Defined.

(** The loop between two messages: waiting, or about to publish the state the last one led to, or about to say that
    the connect it was is no longer pending, or ended. *)
Inductive Loop : Type := Waiting | Publishing (was_connect : bool) | Clearing | Leaving | Ended.

(** The executor: waiting for work, doing a piece of it, or sending what it found. *)
Inductive Executor : Type := Ready | Doing (w : Work) | Sending (reports : list Msg).

(** A race in the background, and whether its token was cancelled; the executor holds the last one's token. *)
Record Race : Type := mkRace { race_id : nat; race_attempt : Z; cancelled : bool }.

(** What watches a connection that is up: the monitor and the path watch of one attempt. *)
Record Monitor : Type := mkMonitor { mon_attempt : Z; mon_profile : ProfileId; mon_endpoint : EndpointId }.

(** A client's call to connect, between claiming the right to, finding the state free, and sending. *)
Inductive Caller : Type := Claimed (profile : option ProfileId) | Passed (profile : option ProfileId).

(* src: crates/dnetd/src/orchestrator.rs:393-408 Actor *)
Record Actor : Type := mkActor {
  engine : Engine;
  attempt : Z;
  bus : list BusOp;
  telemetry : Telemetry;
  sent : list Work;
  monitors : list Monitor;
}.

(** [current], the number background tasks compare theirs with, is stored in the same step as [attempt]. *)
(* src: crates/dnetd/src/orchestrator.rs:213-226 Handle *)
Record System : Type := mkSystem {
  actor : Actor;
  loop : Loop;
  messages : list Msg;
  stored : StateSnapshot;
  connecting : bool;
  callers : list Caller;
  executor : Executor;
  races : list Race;
  race_token : option nat;
  machine : Machine;
  done : bool;
}.

(* src: crates/dnetd/src/orchestrator.rs:353-353 spawn *)
Definition CAPACITY : nat := 64.

Section Orchestrate.
Context `{UuidDisplay}.

(** ** The actor *)

(** The work an action asks for; the others are events, and a warning shown through the snapshot. *)
(* src: crates/dnetd/src/orchestrator.rs:462-482 Actor::step *)
Definition work_of (a : Action) : option WorkKind :=
  match a with
  | StartRace profiles endpoint => Some (WStartRace profiles endpoint)
  | CancelRace => Some WCancelRace
  | StartTunnel profile endpoint => Some (WStartTunnel profile endpoint)
  | StopTunnel => Some WStopTunnel
  | Emit _ | WarnTier2 _ => None
  end.

Definition event_of (a : Action) : option ConnectionEvent := match a with Emit event => Some event | _ => None end.

Definition is_connected (e : Engine) : bool := match e_phase e with Engine.Connected _ _ => true | _ => false end.

(* src: crates/dnetd/src/orchestrator.rs:564-573 Actor::start_monitor *)
Definition start_monitor (a : Actor) (profile : ProfileId) (endpoint : EndpointId) : Actor :=
  mkActor (engine a) (attempt a) (bus a) (telemetry a) (sent a) (monitors a ++ [mkMonitor (attempt a) profile endpoint]).

(** A number of attempts is a [u64], and wraps. *)
(* src: crates/dnetd/src/orchestrator.rs:457-512 Actor::step *)
Definition actor_step (input : Input) (check_reach : bool) (now : Instant) (a : Actor) : option Actor :=
  let was_connected := is_connected (engine a) in
  '(e, actions) ← step (engine a) input now;
  let events := omap event_of actions in
  let telemetry := fold_left (fun t event => telemetry_record event now t) events (telemetry a) in
  let bus := bus a ++ map Publish events in
  let work := fold_moves (omap work_of actions) in
  let '(attempt, sends) :=
    match work with
    | [] => (attempt a, [])
    | _ =>
        let attempt := (attempt a + 1) mod 2 ^ 64 in
        let work := if check_reach then WReach (e_endpoints e) :: work else work in
        (attempt, map (mkWork attempt) work)
    end in
  let connected := is_connected e in
  let telemetry := if was_connected && negb connected then telemetry_end telemetry else telemetry in
  let a := mkActor e attempt bus telemetry (sent a ++ sends) (monitors a) in
  Some (
    if was_connected then a
    else
      match e_phase e with
      | Engine.Connected profile endpoint =>
          start_monitor (mkActor e attempt bus (telemetry_begin now telemetry) (sent a) (monitors a)) profile endpoint
      | _ => a
      end).

(** The engine's step on the environment asks for nothing. *)
(* src: crates/dnetd/src/orchestrator.rs:447-453 Actor::connect *)
Definition actor_connect (profile : option ProfileId) (environment : Environment) (now : Instant) (a : Actor) :
    option Actor :=
  '(e, _) ← step (engine a) (InputEnvironment environment) now;
  actor_step (Engine.Connect profile) true now
    (mkActor e (attempt a) (bus a ++ [BeginSession]) (telemetry a) (sent a) (monitors a)).

(* src: crates/dnetd/src/orchestrator.rs:411-437 Actor::run *)
Definition take_message (m : Msg) (environment : Environment) (now : Instant) (a : Actor) : option (Actor * Loop) :=
  match m with
  | MConnect profile => a ← actor_connect profile environment now a; Some (a, Publishing true)
  | MDisconnect => a ← actor_step Engine.Disconnect false now a; Some (a, Publishing false)
  | MShutdown =>
      a ← actor_step Engine.Disconnect false now a;
      Some (mkActor (engine a) (attempt a) (bus a) (telemetry a) (sent a ++ [mkWork (attempt a) WBarrier]) (monitors a),
            Leaving)
  | MReport number input =>
      if number =? attempt a then a ← actor_step input false now a; Some (a, Publishing false)
      else Some (a, Publishing false)
  end.

(** ** The handle *)

Definition is_free (s : ConnectionStatus) : bool := match s with Disconnected | Failed => true | _ => false end.

(** What an accepted connect shows until the actor has published what it led to. *)
Definition pending_snapshot : StateSnapshot := mkSnapshot Protocol.Probing None None None [] FailClosed.

(* src: crates/dnetd/src/orchestrator.rs:321-346 Handle::snapshot *)
Definition handle_snapshot (s : System) : StateSnapshot :=
  if connecting s && is_free (status (stored s)) then pending_snapshot else stored s.

(* src: crates/dnetd/src/orchestrator.rs:239-247 Handle::is_idle *)
Definition is_idle (s : System) : bool := negb (connecting s) && is_free (status (stored s)).

(** [try_send]: refused when the loop has ended, or the channel is full. *)
Definition has_room (s : System) : bool :=
  match loop s with Ended => false | _ => (length (messages s) <? CAPACITY)%nat end.

(** The assignments to one field, and the changes of one list. *)
Definition set_actor v s := mkSystem v (loop s) (messages s) (stored s) (connecting s) (callers s) (executor s) (races s) (race_token s) (machine s) (done s).
Definition set_loop v s := mkSystem (actor s) v (messages s) (stored s) (connecting s) (callers s) (executor s) (races s) (race_token s) (machine s) (done s).
Definition set_messages v s := mkSystem (actor s) (loop s) v (stored s) (connecting s) (callers s) (executor s) (races s) (race_token s) (machine s) (done s).
Definition set_stored v s := mkSystem (actor s) (loop s) (messages s) v (connecting s) (callers s) (executor s) (races s) (race_token s) (machine s) (done s).
Definition set_connecting v s := mkSystem (actor s) (loop s) (messages s) (stored s) v (callers s) (executor s) (races s) (race_token s) (machine s) (done s).
Definition set_callers v s := mkSystem (actor s) (loop s) (messages s) (stored s) (connecting s) v (executor s) (races s) (race_token s) (machine s) (done s).
Definition set_executor v s := mkSystem (actor s) (loop s) (messages s) (stored s) (connecting s) (callers s) v (races s) (race_token s) (machine s) (done s).
Definition set_races v s := mkSystem (actor s) (loop s) (messages s) (stored s) (connecting s) (callers s) (executor s) v (race_token s) (machine s) (done s).
Definition set_token v s := mkSystem (actor s) (loop s) (messages s) (stored s) (connecting s) (callers s) (executor s) (races s) v (machine s) (done s).
Definition set_machine v s := mkSystem (actor s) (loop s) (messages s) (stored s) (connecting s) (callers s) (executor s) (races s) (race_token s) v (done s).
Definition set_done v s := mkSystem (actor s) (loop s) (messages s) (stored s) (connecting s) (callers s) (executor s) (races s) (race_token s) (machine s) v.
Definition send (m : Msg) (s : System) : System := set_messages (messages s ++ [m]) s.
Definition set_sent (w : list Work) (s : System) : System :=
  let a := actor s in set_actor (mkActor (engine a) (attempt a) (bus a) (telemetry a) w (monitors a)) s.

(** [connect] in its three atomic parts: the claim, the look at the state, and the sending. *)
(* src: crates/dnetd/src/orchestrator.rs:261-270 Handle::connect *)
Definition connect_claim (profile : option ProfileId) (s : System) : System * result IpcError unit :=
  if connecting s then (s, Err ServiceBusy)
  else (set_callers (callers s ++ [Claimed profile]) (set_connecting true s), Ok ()).

(* src: crates/dnetd/src/orchestrator.rs:271-279 Handle::connect *)
Definition connect_look (before after : list Caller) (profile : option ProfileId) (s : System) :
    System * result IpcError unit :=
  if is_free (status (stored s)) then (set_callers (before ++ Passed profile :: after) s, Ok ())
  else (set_callers (before ++ after) (set_connecting false s), Err ServiceBusy).

(* src: crates/dnetd/src/orchestrator.rs:280-285 Handle::connect *)
Definition connect_send (before after : list Caller) (profile : option ProfileId) (s : System) :
    System * result IpcError unit :=
  let s := set_callers (before ++ after) s in
  if has_room s then (send (MConnect profile) s, Ok ()) else (set_connecting false s, Err ServiceBusy).

(* src: crates/dnetd/src/orchestrator.rs:288-297 Handle::disconnect *)
Definition handle_disconnect (s : System) : System * result IpcError unit :=
  match status (handle_snapshot s) with
  | Disconnected => (s, Err NotConnected)
  | _ => if has_room s then (send MDisconnect s, Ok ()) else (s, Err ServiceBusy)
  end.

(** [shutdown] and [retire] send the same message; the first waits for room and then for the barrier. *)
(* src: crates/dnetd/src/orchestrator.rs:249-254 Handle::retire *)
Definition retire (s : System) : System := if has_room s then send MShutdown s else s.

(** ** The executor *)

(** What the effects answer, each piece of work at a time. *)
Inductive Answer : Type :=
  | Reached (environment : Environment) (reach : list Reach)
  | Started (outcome : result FailureCause unit)
  | Moved (outcome : result FailureCause unit) (live : bool)
  | Acted.

Definition after_start (profile : ProfileId) (endpoint : EndpointId) (outcome : result FailureCause unit) : Machine :=
  match outcome with Ok _ => Up profile endpoint | Err _ => Leftover end.

Definition start_report (outcome : result FailureCause unit) : Input :=
  match outcome with Ok _ => TunnelUp | Err cause => StartFailed cause end.

Definition cancel_token (s : System) : System :=
  match race_token s with
  | Some id =>
      set_token None (set_races (map (fun r =>
        if bool_decide (race_id r = id) then mkRace (race_id r) (race_attempt r) true else r) (races s)) s)
  | None => s
  end.

(** What is done before a piece of work is: the last race is cancelled. *)
(* src: crates/dnetd/src/orchestrator.rs:646-649 execute *)
Definition begin_work (w : Work) (s : System) : System :=
  match w_kind w with
  | WStartRace _ _ | WCancelRace | WStartTunnel _ _ | WMoveTunnel _ _ => cancel_token s
  | WReach _ | WStopTunnel | WBarrier => s
  end.

(** A piece of work done, with what the effects answered: what it did, and the reports to send. A race is started in
    the background under a token of its own. *)
(* src: crates/dnetd/src/orchestrator.rs:623-704 execute *)
Definition finish_work (w : Work) (answer : Answer) (fresh : nat) (s : System) : option (System * list Msg) :=
  let report input := MReport (w_attempt w) input in
  match w_kind w, answer with
  | WReach _, Reached environment reach => Some (s, [report (InputEnvironment environment); report (InputReach reach)])
  | WStartRace _ _, Acted =>
      Some (set_token (Some fresh) (set_races (races s ++ [mkRace fresh (w_attempt w) false]) s), [])
  | WCancelRace, Acted => Some (s, [])
  | WStartTunnel profile endpoint, Started outcome =>
      Some (set_machine (after_start profile endpoint outcome) s, [report (start_report outcome)])
  | WMoveTunnel profile endpoint, Moved outcome live =>
      if live then Some (set_machine (Up profile endpoint) s, [report TunnelUp])
      else Some (set_machine (after_start profile endpoint outcome) s, [report (start_report outcome)])
  | WStopTunnel, Acted => Some (set_machine Down s, [])
  | WBarrier, Acted => Some (set_done true s, [])
  | _, _ => None
  end.

(** What a monitor and a path watch may report. *)
Definition monitored (m : Monitor) (i : Input) : bool :=
  match i with
  | InputEnvironment _ | InputLiveCheck _ | InputPathChanged _ _ | Connectivity _ => true
  | InputEndpointProbe endpoint _ => bool_decide (endpoint = mon_endpoint m)
  | _ => false
  end.

(** ** Everything at once *)

(* src: crates/dnetd/src/orchestrator.rs:352-389 spawn *)
Definition spawn (e : Engine) : System :=
  mkSystem (mkActor e 0 [] telemetry_new [] []) Waiting [] (snapshot_of e) false [] Ready [] None Down false.

(** A step of the executor. What it has to report is sent when there is room, and dropped once the loop has ended. *)
Inductive executor_step : System → System → Prop :=
  | executor_takes s w ws :
      executor s = Ready → sent (actor s) = w :: ws → executor_step s (begin_work w (set_executor (Doing w) (set_sent ws s)))
  | executor_finishes s w answer fresh s' reports :
      executor s = Doing w → (∀ r, r ∈ races s → race_id r ≠ fresh) → finish_work w answer fresh s = Some (s', reports) →
      executor_step s (set_executor (Sending reports) s')
  | executor_sends s m ms :
      executor s = Sending (m :: ms) → has_room s = true → executor_step s (set_executor (Sending ms) (send m s))
  | executor_drops s m ms :
      executor s = Sending (m :: ms) → loop s = Ended → executor_step s (set_executor (Sending ms) s)
  | executor_returns s : executor s = Sending [] → executor_step s (set_executor Ready s).

(** One step of one of the parts. A step of the engine that panics ends the loop's task without an answer, and is
    not a step. Background tasks may also end without reporting, and a report that was checked against the current
    attempt may be sent after it is replaced. *)
Inductive sys_step : System → System → Prop :=
  | ask_connect p s : sys_step s (connect_claim p s).1
  | look_connect before after p s :
      callers s = before ++ Claimed p :: after → sys_step s (connect_look before after p s).1
  | send_connect before after p s :
      callers s = before ++ Passed p :: after → sys_step s (connect_send before after p s).1
  | ask_disconnect s : sys_step s (handle_disconnect s).1
  | ask_shutdown s : sys_step s (retire s)
  | loop_takes s m ms environment now a l :
      loop s = Waiting → messages s = m :: ms → take_message m environment now (actor s) = Some (a, l) →
      sys_step s (set_loop l (set_messages ms (set_actor a s)))
  | loop_publishes s c :
      loop s = Publishing c →
      sys_step s (set_loop (if c then Clearing else Waiting) (set_stored (snapshot_of (engine (actor s))) s))
  | loop_clears s : loop s = Clearing → sys_step s (set_loop Waiting (set_connecting false s))
  | loop_leaves s :
      loop s = Leaving → sys_step s (set_loop Ended (set_stored (snapshot_of (engine (actor s))) s))
  | executor_moves s s' : executor_step s s' → sys_step s s'
  | race_reports s before r after decision results :
      races s = before ++ r :: after → cancelled r = false → has_room s = true →
      sys_step s (set_races (before ++ after) (send (MReport (race_attempt r) (RaceFinished decision results)) s))
  | race_ends s before r after : races s = before ++ r :: after → sys_step s (set_races (before ++ after) s)
  | monitor_reports s m i :
      m ∈ monitors (actor s) → monitored m i = true → has_room s = true → sys_step s (send (MReport (mon_attempt m) i) s)
  | paths_written s n snapshot :
      sys_step s (set_actor (mkActor (engine (actor s)) (attempt (actor s)) (bus (actor s))
        (match snapshot with Some p => publish_paths n p (telemetry (actor s)) | None => clear_paths n (telemetry (actor s)) end)
        (sent (actor s)) (monitors (actor s))) s).

End Orchestrate.

(** * Lemmas: the work a step of the engine asks for *)

Definition is_tunnel (k : WorkKind) : bool :=
  match k with WStartTunnel _ _ | WStopTunnel | WMoveTunnel _ _ => true | _ => false end.

(** A piece of work that leaves a tunnel up, if it can. *)
Definition starts (k : WorkKind) : bool := match k with WStartTunnel _ _ | WMoveTunnel _ _ => true | _ => false end.

Definition tunnels (l : list Work) : list Work := List.filter (fun w => is_tunnel (w_kind w)) l.

(** Whether the engine has a tunnel, up or starting. *)
Definition has_tunnel (e : Engine) : bool :=
  match e_phase e with Starting _ _ | Engine.Connected _ _ => true | _ => false end.

Definition free_phase (e : Engine) : bool := match e_phase e with Idle | PhaseFailed _ => true | _ => false end.

Section Invariant.
Context `{UuidDisplay}.

Lemma reports_ask_nothing acts : reports acts → omap work_of acts = [].
Proof.
  unfold reports. induction 1 as [|a acts Ha _ IH]; [done|]. cbn [omap list_omap]. rewrite IH. by destruct a.
Qed.

Lemma closing_work e i :
  (has_tunnel e = true ∧ omap work_of (closing e i) = [WStopTunnel]) ∨
  (has_tunnel e = false ∧ (omap work_of (closing e i) = [] ∨ omap work_of (closing e i) = [WCancelRace])).
Proof. unfold closing, has_tunnel. destruct (e_phase e), i; auto. Qed.

Lemma opening_work e i pre e' opening :
  opens e i pre e' opening →
  (omap work_of opening = [] ∨ ∃ ps ep, omap work_of opening = [WStartRace ps ep]) ∧ has_tunnel e' = false ∨
  ∃ p ep, omap work_of opening = [WStartTunnel p ep] ∧ e_phase e' = Starting p ep.
Proof.
  unfold has_tunnel.
  intros [_ Hp|c Hp|p ep b Hp _ _ _ _ _ _ _|p from to b _ Hp _ _|ps ep Hp _ _ _ _ _ _|old ps ep _ Hp _ _ _ _ _ _|from to b Hph _ Hp _ _ _ _ _];
    simpl; rewrite Hp.
  - auto.
  - auto.
  - right. exists p, ep. split; [|done]. by destruct (tier2 e p).
  - right. by exists p, to.
  - left. split; [right; by eexists _, _|done].
  - left. split; [right; by eexists _, _|done].
  - left. split; [right; by eexists _, _|]. by destruct Hph as [-> | ->].
Qed.

(** What a step asks the executor for, by what it does to the phase. *)
Inductive asks (e : Engine) (i : Input) (e' : Engine) (work : list WorkKind) : Prop :=
  | asks_nothing :
      work = [] → e_phase e' = e_phase e ∨ has_tunnel e = false ∧ has_tunnel e' = false → asks e i e' work
  | asks_up p ep :
      work = [] → i = TunnelUp → e_phase e = Starting p ep → e_phase e' = Engine.Connected p ep → asks e i e' work
  | asks_down :
      work ≠ [] → has_tunnel e' = false →
      List.filter is_tunnel work = (if has_tunnel e then [WStopTunnel] else []) → asks e i e' work
  | asks_start p ep :
      work ≠ [] → e_phase e' = Starting p ep →
      List.filter is_tunnel work = [if has_tunnel e then WMoveTunnel p ep else WStartTunnel p ep] → asks e i e' work.

Lemma step_asks e i now e' acts :
  wf e → step e i now = Some (e', acts) → wf e' ∧ asks e i e' (fold_moves (omap work_of acts)).
Proof.
  intros Hwf Hs. pose proof (step_outcome _ _ _ _ _ Hwf Hs) as Ho. split; [by eapply outcome_wf|].
  destruct Ho as [acts Hsame Hrep _|p ep Hi Hp Hp' _ _ _ _ _|pre opening _ _ Hpre _ _ Hop].
  - rewrite (reports_ask_nothing _ Hrep). apply asks_nothing; [done|]. left. by apply same_phase.
  - by eapply asks_up.
  - rewrite !omap_app, (reports_ask_nothing _ Hpre), app_nil_l.
    destruct (closing_work e i) as [[Ht ->]|[Ht [-> | ->]]];
      (destruct (opening_work _ _ _ _ _ Hop) as [[[-> |(ps & ep & ->)] Ht']|(p & ep & -> & Hp)]; simpl;
       [(by apply asks_nothing; [|right]) || (apply asks_down; by rewrite ?Ht)
       |apply asks_down; by rewrite ?Ht|eapply asks_start; [done|exact Hp|by rewrite Ht]]).
Qed.
(** ** The invariant, over the parts that matter: the engine, the current attempt, the work that is not done, the reports
    on their way, and the machine. *)

Record sound (e : Engine) (n : Z) (todo : list Work) (way : list Msg) (m : Machine) : Prop := {
  sound_wf : wf e;
  sound_todo w : w ∈ todo → w_attempt w ≤ n;
  sound_way a i : MReport a i ∈ way → a ≤ n ∧ ∀ r, i ≠ Engine.Connect r;
  (** Only the last piece of tunnel work can be the current attempt's start. *)
  sound_stale l1 w l2 : tunnels todo = l1 ++ w :: l2 → l2 ≠ [] → starts (w_kind w) = true → w_attempt w < n;
  sound_phase :
    match e_phase e with
    | Engine.Connected p ep => tunnels todo = [] ∧ m = Up p ep
    | Starting p ep =>
        tunnels todo = [] ∨
        ∃ l w, tunnels todo = l ++ [w] ∧ w_attempt w = n ∧ (w_kind w = WStartTunnel p ep ∨ w_kind w = WMoveTunnel p ep)
    | _ => tunnels todo = [] ∧ m = Down ∨ ∃ l w, tunnels todo = l ++ [w] ∧ w_kind w = WStopTunnel
    end;
  sound_up : MReport n TunnelUp ∈ way → tunnels todo = [] ∧ ∀ p ep, e_phase e = Starting p ep → m = Up p ep;
}.

(** A message that says nothing of a start. *)
Definition harmless (n : Z) (m : Msg) : Prop :=
  match m with MReport a i => a ≤ n ∧ i ≠ TunnelUp ∧ ∀ r, i ≠ Engine.Connect r | _ => True end.

Lemma sound_messages e n todo way way' m :
  sound e n todo way m → (∀ x, x ∈ way' → x ∈ way ∨ harmless n x) → sound e n todo way' m.
Proof.
  intros [H1 H2 H3 H4 H5 H6] Hw. constructor; try done.
  - intros a i [Hin|(Ha & _ & Hr)]%Hw; [by eapply H3|done].
  - intros [Hin|(_ & Hi & _)]%Hw; [by apply H6|done].
Qed.

Lemma tunnels_app a b : tunnels (a ++ b) = tunnels a ++ tunnels b.
Proof. unfold tunnels. induction a as [|x a IH]; [done|]. simpl. destruct (is_tunnel _); simpl; by rewrite IH. Qed.

Lemma tunnels_numbered n l : tunnels (map (mkWork n) l) = map (mkWork n) (List.filter is_tunnel l).
Proof. unfold tunnels. induction l as [|k l IH]; [done|]. simpl. destruct (is_tunnel k); simpl; by rewrite IH. Qed.

Lemma elem_of_tunnels w l : w ∈ tunnels l → w ∈ l.
Proof. unfold tunnels. rewrite elem_of_filter_bool. tauto. Qed.

Lemma before_last {A} (l : list A) x l1 w l2 : l ++ [x] = l1 ++ w :: l2 → l2 ≠ [] → w ∈ l.
Proof.
  intros E Hne. destruct (exists_last Hne) as (k & y & ->). rewrite app_comm_cons, app_assoc in E.
  apply app_inj_tail in E as [-> _]. set_solver.
Qed.

(** A step that asks for work makes a new attempt of it. *)
Lemma sound_new_attempt e i e' n todo way m work sends :
  sound e n todo way m → wf e' → asks e i e' work → work ≠ [] →
  (∀ w, w ∈ sends → w_attempt w = n + 1) → tunnels sends = map (mkWork (n + 1)) (List.filter is_tunnel work) →
  sound e' (n + 1) (todo ++ sends) way m.
Proof.
  intros [H1 H2 H3 H4 H5 H6] Hwf' Hasks Hne Hsends Htun.
  assert (∀ a i, MReport a i ∈ way → a ≠ n + 1) as Hnew by (intros a j [? _]%H3; lia).
  constructor; [done| | | | |].
  - intros w [Hw%H2|Hw%Hsends]%elem_of_app; lia.
  - intros a j [? ?]%H3. split; [lia|done].
  - intros l1 w l2 E Hl2 Hst. rewrite tunnels_app, Htun in E.
    assert (w ∈ tunnels todo) as Hin; [|apply elem_of_tunnels, H2 in Hin; lia].
    destruct Hasks as [->|p ep -> _ _ _|_ _ Hf|p ep _ _ Hf]; [done..| |]; rewrite Hf in E.
    + destruct (has_tunnel e); simpl in E; [by eapply before_last|]. rewrite app_nil_r in E. rewrite E. set_solver.
    + by eapply before_last.
  - rewrite tunnels_app, Htun. destruct Hasks as [->|p ep -> _ _ _|_ Ht Hf|p ep _ Hp Hf]; [done..| |].
    + assert (tunnels todo ++ map (mkWork (n + 1)) (List.filter is_tunnel work) = [] ∧ m = Down ∨
        ∃ l w, tunnels todo ++ map (mkWork (n + 1)) (List.filter is_tunnel work) = l ++ [w] ∧ w_kind w = WStopTunnel) as Hgoal.
      { rewrite Hf. unfold has_tunnel. destruct (e_phase e) eqn:Ep; simpl; rewrite ?app_nil_r; try exact H5;
          right; eexists _, _; (split; [reflexivity|done]). }
      unfold has_tunnel in Ht. by destruct (e_phase e').
    + rewrite Hp. right. rewrite Hf. eexists _, _. split; [reflexivity|]. split; [done|]. destruct (has_tunnel e); auto.
  - intros Hin. by apply Hnew in Hin.
Qed.

(** A step that asks for nothing. *)
Lemma sound_quiet e i e' n todo way m :
  sound e n todo way m → wf e' → asks e i e' [] → (i = TunnelUp → MReport n TunnelUp ∈ way) → sound e' n todo way m.
Proof.
  intros [H1 H2 H3 H4 H5 H6] Hwf' Hasks Hi.
  destruct Hasks as [_ [Hp|[Ht Ht']]|p ep _ -> Hp Hp'|Hne|? ? Hne]; try done.
  - constructor; rewrite ?Hp; done.
  - constructor; try done.
    + unfold has_tunnel in *. by destruct (e_phase e), (e_phase e').
    + intros Hin. destruct (H6 Hin) as [Hn _]. split; [done|]. unfold has_tunnel in Ht'. intros p ep Hp. by rewrite Hp in Ht'.
  - destruct (H6 (Hi eq_refl)) as [Hn Hm]. constructor; try done.
    + rewrite Hp'. split; [done|by apply Hm].
    + intros _. split; [done|]. intros q eq Hq. by rewrite Hq in Hp'.
Qed.
(** ** The executor *)

Lemma tunnels_cons w l : tunnels (w :: l) = if is_tunnel (w_kind w) then w :: tunnels l else tunnels l.
Proof. done. Qed.

(** Work that is not of a tunnel changes nothing that matters, whoever does it. *)
Lemma sound_aside e n w todo way m :
  sound e n (w :: todo) way m → is_tunnel (w_kind w) = false → sound e n todo way m.
Proof.
  intros [H1 H2 H3 H4 H5 H6] Hw. rewrite tunnels_cons, Hw in *. constructor; try done.
  intros x Hx. apply H2. set_solver.
Qed.

Lemma cons_last {A} (x : A) l k y : x :: l = k ++ [y] → l ≠ [] → ∃ k', l = k' ++ [y].
Proof. destruct k as [|z k]; simpl; intros [= -> ->]; [done|]. intros _. by exists k. Qed.

Lemma sound_stopped e n w todo way m :
  sound e n (w :: todo) way m → w_kind w = WStopTunnel → sound e n todo way Down.
Proof.
  intros [H1 H2 H3 H4 H5 H6] Hw. rewrite tunnels_cons, Hw in *. simpl in *. constructor; try done.
  - intros x Hx. apply H2. set_solver.
  - intros l1 x l2 E. apply (H4 (w :: l1) x l2). by rewrite E.
  - destruct (decide (tunnels todo = [])) as [E|E].
    + destruct (e_phase e); try (by left). by destruct H5.
    + destruct (e_phase e); try (destruct H5 as [[? _]|(l & y & E2 & Hy)]; [done|];
        right; destruct (cons_last _ _ _ _ E2 E) as [k ->]; by exists k, y).
      * destruct H5 as [?|(l & y & E2 & Hy)]; [done|]. right. destruct (cons_last _ _ _ _ E2 E) as [k ->]. by exists k, y.
      * by destruct H5.
  - intros Hin. by destruct (H6 Hin).
Qed.

(** A start that was carried out, and the report of it. *)
Lemma sound_started e n w p ep todo way m m' i :
  sound e n (w :: todo) way m → w_kind w = WStartTunnel p ep ∨ w_kind w = WMoveTunnel p ep →
  (i = TunnelUp → m' = Up p ep) → (∀ r, i ≠ Engine.Connect r) → sound e n todo (MReport (w_attempt w) i :: way) m'.
Proof.
  intros [H1 H2 H3 H4 H5 H6] Hw Hi Hc.
  assert (is_tunnel (w_kind w) = true ∧ starts (w_kind w) = true) as [Ht Hst] by (by destruct Hw as [-> | ->]).
  rewrite tunnels_cons, Ht in *.
  assert (w_attempt w ≤ n) as Hle by (apply H2; left).
  assert (tunnels todo ≠ [] → w_attempt w < n) as Hlt.
  { intros Hne. apply (H4 [] w (tunnels todo)); done. }
  assert (tunnels todo = [] → e_phase e = Starting p ep) as Hlast.
  { intros E. rewrite E in H5. destruct (e_phase e) as [| |q eq|q eq| |c]; try (destruct H5 as [[? _]|(l & y & E2 & Hy)];
      [done|]; apply (app_inj_tail [] l) in E2 as [_ <-]; rewrite Hy in Hst; done); [|by destruct H5].
    destruct H5 as [?|(l & y & E2 & _ & Hy)]; [done|]. apply (app_inj_tail [] l) in E2 as [_ <-].
    destruct Hw, Hy; congruence. }
  constructor; try done.
  - intros x Hx. apply H2. set_solver.
  - intros a j [[= -> ->]|Hin]%elem_of_cons; [done|by eapply H3].
  - intros l1 x l2 E. apply (H4 (w :: l1) x l2). by rewrite E.
  - destruct (decide (tunnels todo = [])) as [E|E]; [rewrite (Hlast E); by left|].
    destruct (e_phase e) as [| |q eq|q eq| |c]; try (destruct H5 as [[? _]|(l & y & E2 & Hy)];
      [done|]; right; destruct (cons_last _ _ _ _ E2 E) as [k ->]; by exists k, y).
    + destruct H5 as [?|(l & y & E2 & Hy)]; [done|]. right. destruct (cons_last _ _ _ _ E2 E) as [k ->]. by exists k, y.
    + by destruct H5.
  - intros [[= Ha <-]|Hin]%elem_of_cons; [|by destruct (H6 Hin)].
    destruct (decide (tunnels todo = [])) as [E|E]; [|specialize (Hlt E); lia].
    split; [done|]. intros q eq Hq. rewrite (Hlast E) in Hq. injection Hq as <- <-. by apply Hi.
Qed.

Lemma sound_finished e n w todo way s answer fresh s' more :
  sound e n (w :: todo) way (machine s) → finish_work w answer fresh s = Some (s', more) →
  sound e n todo (more ++ way) (machine s').
Proof.
  intros Hs E. assert (w_attempt w ≤ n) as Hle by (apply (sound_todo _ _ _ _ _ Hs); left).
  unfold finish_work in E. destruct (w_kind w) as [eps|ps ep| |p ep| |p ep|] eqn:Ew, answer as [env r|o|o live|]; try done;
    [..|destruct live|]; injection E as <- <-; cbn [machine set_machine set_token set_races set_done];
    try (by apply sound_aside in Hs; [|by rewrite Ew]).
  - apply sound_aside in Hs; [|by rewrite Ew]. eapply sound_messages; [exact Hs|].
    intros x [->|[->|Hx]%elem_of_cons]%elem_of_cons; [by right|by right|by left].
  - apply (sound_started e n w p ep _ _ (machine s)); [done|by left|by destruct o..].
  - by apply (sound_stopped e n w todo way (machine s)).
  - apply (sound_started e n w p ep _ _ (machine s)); [done|by right|done..].
  - apply (sound_started e n w p ep _ _ (machine s)); [done|by right|by destruct o..].
Qed.

(** ** The loop *)

Lemma elem_of_fold_moves k l : k ∈ fold_moves l → k ∈ l ∨ ∃ p ep, k = WMoveTunnel p ep.
Proof.
  revert k. induction l as [l IH] using (induction_ltof1 _ length). intros k.
  destruct l as [|x l]; [by intros []%elem_of_nil|].
  assert (k ∈ x :: fold_moves l → k ∈ x :: l ∨ ∃ p ep, k = WMoveTunnel p ep) as Hstep.
  { intros [->|Hk]%elem_of_cons; [by left; left|].
    destruct (IH l ltac:(unfold ltof; simpl; lia) k Hk) as [?|?]; [left; by right|by right]. }
  destruct x; simpl; try exact Hstep. destruct l as [|y l]; [exact Hstep|]. destruct y; try exact Hstep.
  intros [->|Hk]%elem_of_cons; [right; by eexists _, _|].
  destruct (IH l ltac:(unfold ltof; simpl; lia) k Hk) as [?|?]; [left; set_solver|by right].
Qed.

Lemma no_barrier acts : WBarrier ∉ fold_moves (omap work_of acts).
Proof.
  intros [Hk|(p & ep & ?)]%elem_of_fold_moves; [|done].
  apply list_elem_of_omap in Hk as (a & _ & Ha). by destruct a.
Qed.

Lemma disconnect_idles e now e' acts : step e Engine.Disconnect now = Some (e', acts) → e_phase e' = Idle.
Proof. by intros [= <- _]. Qed.

(** Only a request to connect takes the engine out of its rest. *)
Lemma stays_free e i now e' acts :
  wf e → step e i now = Some (e', acts) → (∀ r, i ≠ Engine.Connect r) → free_phase e = true → free_phase e' = true.
Proof.
  intros Hwf Hs Hi Hf. unfold free_phase in *.
  destruct (step_outcome _ _ _ _ _ Hwf Hs) as [acts Hsame _ _|p ep _ Hp _ _ _ _ _ _|pre opening _ _ _ _ _ Hop].
  - by rewrite (same_phase _ _ Hsame).
  - by rewrite Hp in Hf.
  - destruct Hop as [_ Hp|c Hp|p ep b _ _ _ _ _ _ Hin _|p from to b [ep [Hp|Hp]]|ps ep _ _ _ _ _ _ [r ->]|old ps ep Hp|from to b [Hp|Hp]];
      try (by rewrite Hp); try (by rewrite Hp in Hf); [|by destruct (Hi r)].
    destruct Hin as [r ->]; [unfold in_use; by destruct (e_phase e)|by destruct (Hi r)].
Qed.

Lemma actor_step_sound i cr now a a' todo way m :
  sound (engine a) (attempt a) todo way m → (i = TunnelUp → MReport (attempt a) TunnelUp ∈ way) →
  0 ≤ attempt a < 2 ^ 64 - 1 → actor_step i cr now a = Some a' →
  ∃ sends, sent a' = sent a ++ sends ∧ sound (engine a') (attempt a') (todo ++ sends) way m ∧
    attempt a ≤ attempt a' ≤ attempt a + 1 ∧
    (∃ acts, step (engine a) i now = Some (engine a', acts)) ∧
    (∀ w, w ∈ sends → w_kind w ≠ WBarrier) ∧
    (∀ x, x ∈ monitors a' → x ∈ monitors a ∨ mon_attempt x = attempt a').
Proof.
  intros Hs Hi Hn E. unfold actor_step in E. apply bind_Some in E as ([e acts] & Hstep & E).
  destruct (step_asks _ _ _ _ _ (sound_wf _ _ _ _ _ Hs) Hstep) as [Hwf Hasks].
  set (work := fold_moves (omap work_of acts)) in *.
  set (n' := match work with [] => attempt a | _ => (attempt a + 1) mod 2 ^ 64 end).
  set (sends := match work with [] => []
    | _ => map (mkWork n') (if cr then WReach (e_endpoints e) :: work else work) end).
  assert (∃ b t ms, a' = mkActor e n' b t (sent a ++ sends) ms ∧
    ∀ x, x ∈ ms → x ∈ monitors a ∨ mon_attempt x = n') as (b & t & ms & -> & Hms).
  { unfold sends, n' in *. destruct work; injection E as <-;
      (destruct (is_connected (engine a)); [eexists _, _, _; (split; [reflexivity|]); intros x Hx; by left|]);
      (destruct (e_phase e); eexists _, _, _; (split; [reflexivity|]); simpl; intros x Hx;
       (by left) || (apply elem_of_app in Hx as [?| ->%list_elem_of_singleton]; [by left|by right])). }
  exists sends. cbn [engine attempt sent monitors].
  split; [done|]. unfold sends, n'. destruct work as [|k work'] eqn:Ework.
  - rewrite app_nil_r. split; [by eapply sound_quiet|]. split; [lia|]. split; [by eexists|].
    split; [by intros w []%elem_of_nil|done].
  - rewrite Z.mod_small by lia. split; [|split; [lia|split; [by eexists|split]]].
    + eapply sound_new_attempt; [done|done|exact Hasks|done| |].
      * intros w Hw. apply elem_of_map in Hw as (x & -> & _). done.
      * rewrite tunnels_numbered. by destruct cr.
    + intros w Hw. apply elem_of_map in Hw as (x & -> & Hx). simpl.
      assert (x ∈ k :: work' → x ≠ WBarrier) as Hb.
      { rewrite <-Ework. intros Hin ->. unfold work in Hin. by apply no_barrier in Hin. }
      destruct cr; [apply elem_of_cons in Hx as [->|Hx]; [done|]|]; by apply Hb.
    + unfold n' in Hms. by rewrite Z.mod_small in Hms by lia.
Qed.
Lemma sound_append e n w todo way m :
  sound e n todo way m → is_tunnel (w_kind w) = false → w_attempt w ≤ n → sound e n (todo ++ [w]) way m.
Proof.
  intros [H1 H2 H3 H4 H5 H6] Hw Hn.
  assert (tunnels (todo ++ [w]) = tunnels todo) as E.
  { rewrite tunnels_app, tunnels_cons, Hw. apply app_nil_r. }
  constructor; rewrite ?E; try done. intros x [Hx| ->%list_elem_of_singleton]%elem_of_app; [by apply H2|done].
Qed.

(** Taking a message up. *)
Lemma take_message_sound x environment now a a' l todo way m :
  sound (engine a) (attempt a) todo (x :: way) m → 0 ≤ attempt a < 2 ^ 64 - 1 →
  take_message x environment now a = Some (a', l) →
  ∃ sends, sent a' = sent a ++ sends ∧ sound (engine a') (attempt a') (todo ++ sends) way m ∧
    attempt a ≤ attempt a' ≤ attempt a + 1 ∧
    (∀ y, y ∈ monitors a' → y ∈ monitors a ∨ mon_attempt y = attempt a') ∧
    match l with
    | Leaving => e_phase (engine a') = Idle ∧ ∃ n sends', sends = sends' ++ [mkWork n WBarrier] ∧
        ∀ w, w ∈ sends' → w_kind w ≠ WBarrier
    | _ => ∀ w, w ∈ sends → w_kind w ≠ WBarrier
    end ∧
    match x with
    | MConnect _ => l = Publishing true
    | MShutdown => l = Leaving
    | _ => l = Publishing false ∧ (free_phase (engine a) = true → free_phase (engine a') = true)
    end.
Proof.
  intros Hs Hn E.
  assert (sound (engine a) (attempt a) todo way m) as Hs'.
  { eapply sound_messages; [exact Hs|]. intros y Hy. left. by right. }
  pose proof (sound_wf _ _ _ _ _ Hs) as Hwf.
  destruct x as [p| | |n i]; simpl in E.
  - apply bind_Some in E as (b & E & [= <- <-]). unfold actor_connect in E. cbn [step] in E. simpl in E.
    eapply (actor_step_sound _ _ _ _ _ todo way m) in E; [| |done|exact Hn].
    + destruct E as (sends & Hsent & Hso & Hat & _ & Hb & Hmon). cbn [engine attempt sent monitors] in *.
      exists sends. split_and!; try done; lia.
    + cbn [engine attempt]. apply (sound_quiet (engine a) (InputEnvironment environment)); [done|exact Hwf| |done].
      apply asks_nothing; [done|by left].
  - apply bind_Some in E as (b & E & [= <- <-]).
    destruct (actor_step_sound Engine.Disconnect false now a b todo way m Hs' ltac:(done) Hn E) as (sends & Hsent & Hso & Hat & [acts Hst] & Hb & Hmon).
    exists sends. split_and!; try done; try lia. intros Hf. by eapply stays_free.
  - apply bind_Some in E as (b & E & [= <- <-]).
    destruct (actor_step_sound Engine.Disconnect false now a b todo way m Hs' ltac:(done) Hn E) as (sends & Hsent & Hso & Hat & [acts Hst] & Hb & Hmon).
    exists (sends ++ [mkWork (attempt b) WBarrier]). cbn [engine attempt sent monitors].
    split_and!; try done; try lia.
    + by rewrite Hsent, app_assoc.
    + rewrite app_assoc. by apply sound_append.
    + by apply disconnect_idles in Hst.
    + exists (attempt b), sends. split; [done|]. exact Hb.
  - destruct (Z.eqb_spec n (attempt a)) as [->|Hne].
    + apply bind_Some in E as (b & E & [= <- <-]).
      destruct (actor_step_sound i false now a b todo (MReport (attempt a) i :: way) m Hs) as
        (sends & Hsent & Hso & Hat & [acts Hst] & Hb & Hmon); [intros ->; by left|done|done|].
      exists sends. split_and!; try done; try lia.
      * eapply sound_messages; [exact Hso|]. intros y Hy. left. by right.
      * intros Hf. eapply stays_free; try done. by apply (sound_way _ _ _ _ _ Hs (attempt a) i); left.
    + injection E as <- <-. exists []. rewrite !app_nil_r. split_and!; try done; try lia; auto. by intros w []%elem_of_nil.
Qed.
(** ** The whole system *)

(** The work that is not done, and the messages on their way to the loop. *)
Definition pending (s : System) : list Work :=
  match executor s with Doing w => [w] | _ => [] end ++ sent (actor s).

Definition on_the_way (s : System) : list Msg :=
  match executor s with Sending ms => ms | _ => [] end ++ messages s.

Definition leaving (s : System) : bool := match loop s with Leaving | Ended => true | _ => false end.

(** The connect requests that hold the right to connect: a client's call, a message, or the loop that took it up. *)
Definition holders (s : System) : nat :=
  length (callers s) + length (List.filter (fun m => match m with MConnect _ => true | _ => false end) (messages s)) +
  match loop s with Publishing true | Clearing => 1 | _ => 0 end.

(** What holds after [k] steps. *)
Record fit (k : Z) (s : System) : Prop := {
  fit_count : 0 ≤ attempt (actor s) ≤ k;
  fit_sound : sound (engine (actor s)) (attempt (actor s)) (pending s) (on_the_way s) (machine s);
  fit_races r : r ∈ races s → race_attempt r ≤ attempt (actor s);
  fit_monitors m : m ∈ monitors (actor s) → mon_attempt m ≤ attempt (actor s);
  fit_sending ms m : executor s = Sending ms → m ∈ ms → ∃ n i, m = MReport n i;
  fit_end :
    if leaving s then
      e_phase (engine (actor s)) = Idle ∧
      if done s then pending s = [] ∧ machine s = Down
      else ∃ n l, pending s = l ++ [mkWork n WBarrier] ∧ ∀ w, w ∈ l → w_kind w ≠ WBarrier
    else done s = false ∧ ∀ w, w ∈ pending s → w_kind w ≠ WBarrier;
  fit_published :
    match loop s with Publishing _ | Leaving => True | _ => stored s = snapshot_of (engine (actor s)) end;
  fit_holders : leaving s = false → holders s = if connecting s then 1%nat else 0%nat;
  fit_stored :
    leaving s = false → free_phase (engine (actor s)) = false →
    is_free (status (stored s)) = false ∨ loop s = Publishing true;
  fit_claims :
    leaving s = false → (∃ p, Passed p ∈ callers s ∨ MConnect p ∈ messages s) → free_phase (engine (actor s)) = true;
}.

Lemma snapshot_free e : is_free (status (snapshot_of e)) = free_phase e.
Proof.
  unfold snapshot_of, free_phase, is_free. destruct (e_phase e) as [| | | p ep| |]; try done.
  destruct (List.find _ (e_profiles e)) as [q|]; [|done]. cbn [mbind option_bind].
  by destruct (List.find _ (e_endpoints e)) as [x|].
Qed.

Lemma fit_spawn ps eps : fit 0 (spawn (engine_new ps eps)).
Proof.
  assert (sound (engine_new ps eps) 0 [] [] Down) as Hs.
  { constructor; try done; try (by intros * []%elem_of_nil); [|by left].
    intros l1 w l2 E. by destruct l1. }
  constructor; try done; try (by intros * []%elem_of_nil).
  split; [done|]. by intros w []%elem_of_nil.
Qed.

Lemma cancel_token_parts s :
  actor (cancel_token s) = actor s ∧ loop (cancel_token s) = loop s ∧ messages (cancel_token s) = messages s ∧
  stored (cancel_token s) = stored s ∧ connecting (cancel_token s) = connecting s ∧
  callers (cancel_token s) = callers s ∧ executor (cancel_token s) = executor s ∧
  machine (cancel_token s) = machine s ∧ done (cancel_token s) = done s ∧
  (∀ r, r ∈ races (cancel_token s) → ∃ r', r' ∈ races s ∧ race_attempt r' = race_attempt r).
Proof.
  unfold cancel_token. destruct (race_token s) as [id|]; (split_and!; try done); [|intros r Hr; by exists r].
  simpl. intros r (x & -> & Hx)%elem_of_map. exists x. split; [done|]. by destruct (bool_decide _).
Qed.

Lemma begin_work_parts w s :
  actor (begin_work w s) = actor s ∧ loop (begin_work w s) = loop s ∧ messages (begin_work w s) = messages s ∧
  stored (begin_work w s) = stored s ∧ connecting (begin_work w s) = connecting s ∧
  callers (begin_work w s) = callers s ∧ executor (begin_work w s) = executor s ∧
  machine (begin_work w s) = machine s ∧ done (begin_work w s) = done s ∧
  (∀ r, r ∈ races (begin_work w s) → ∃ r', r' ∈ races s ∧ race_attempt r' = race_attempt r).
Proof.
  pose proof (cancel_token_parts s) as Hc. unfold begin_work. destruct (w_kind w); try exact Hc; (split_and!; try done);
    intros r Hr; by exists r.
Qed.

(** A message that is no request to connect and says nothing of a start can always join the others. *)
Lemma fit_send k s x :
  fit k s → harmless (attempt (actor s)) x → (∀ p, x ≠ MConnect p) → fit k (send x s).
Proof.
  intros [H1 H2 H3 H4 Hse H5 Hpub H6 H7 H8] Hx Hc. constructor; try done.
  - eapply sound_messages; [exact H2|]. intros y. unfold on_the_way, send. simpl.
    rewrite app_assoc, elem_of_app, list_elem_of_singleton. intros [Hy| ->]; [by left|by right].
  - intros Hl. unfold holders, send. simpl. rewrite List.filter_app, length_app.
    specialize (H6 Hl). unfold holders in H6. rewrite <-H6. destruct x; simpl; try lia. by destruct (Hc profile).
  - intros Hl [p Hp]. apply H8; [done|]. exists p. destruct Hp as [Hp|Hp]; [by left|].
    unfold send in Hp. simpl in Hp. apply elem_of_app in Hp as [Hp|Hp%list_elem_of_singleton]; [by right|].
    by destruct (Hc p).
Qed.
(** A change of the callers and the flag only. *)
Lemma fit_callers k s cs c :
  fit k s →
  (leaving s = false → holders (set_callers cs (set_connecting c s)) = if c then 1%nat else 0%nat) →
  (leaving s = false → ∀ p, Passed p ∈ cs → free_phase (engine (actor s)) = true) →
  fit k (set_callers cs (set_connecting c s)).
Proof.
  intros [H1 H2 H3 H4 Hse H5 Hpub H6 H7 H8] Hh Hp. constructor; try done.
  intros Hl [p [Hin|Hin]]; [by eapply Hp|]. apply H8; [done|]. exists p. by right.
Qed.

Lemma fit_later k s : fit k s → fit (k + 1) s.
Proof. intros [[]]. constructor; try done. split; [done|lia]. Qed.

Lemma holder_connects k s : fit k s → leaving s = false → holders s ≠ 0%nat → connecting s = true ∧ holders s = 1%nat.
Proof. intros Hf Hl Hh. pose proof (fit_holders _ _ Hf Hl) as E. destruct (connecting s); [done|by rewrite E in Hh]. Qed.

Lemma fit_connect_claim k p s : fit k s → fit k (connect_claim p s).1.
Proof.
  intros Hf. unfold connect_claim. destruct (connecting s) eqn:Ec; [done|]. apply fit_callers; [done| |].
  - intros Hl. pose proof (fit_holders _ _ Hf Hl) as E. rewrite Ec in E. unfold holders in *. simpl. rewrite length_app. simpl. lia.
  - intros Hl q [Hq|Hq%list_elem_of_singleton]%elem_of_app; [|done].
    apply (fit_claims _ _ Hf Hl). exists q. by left.
Qed.

Lemma callers_hold s before c after : callers s = before ++ c :: after → holders s ≠ 0%nat.
Proof. intros E. unfold holders. rewrite E, length_app. simpl. lia. Qed.

Lemma fit_connect_look k before after p s :
  fit k s → callers s = before ++ Claimed p :: after → fit k (connect_look before after p s).1.
Proof.
  intros Hf Ec. unfold connect_look. pose proof (callers_hold _ _ _ _ Ec) as Hh.
  assert (∀ cs, cs = before ++ after ∨ cs = before ++ Passed p :: after → leaving s = false → ∀ q, Passed q ∈ cs →
    Passed q ∈ callers s ∨ cs = before ++ Passed p :: after) as Hcs.
  { intros cs [-> | ->] _ q Hq; [|by right]. left. rewrite Ec. set_solver. }
  destruct (is_free (status (stored s))) eqn:Es; simpl.
  - assert (set_callers (before ++ Passed p :: after) s =
      set_callers (before ++ Passed p :: after) (set_connecting (connecting s) s)) as -> by by destruct s.
    apply fit_callers; [done| |].
    + intros Hl. rewrite <-(fit_holders _ _ Hf Hl). unfold holders. rewrite Ec. simpl. by rewrite !length_app.
    + intros Hl q _. destruct (free_phase (engine (actor s))) eqn:Ef; [done|].
      destruct (fit_stored _ _ Hf Hl Ef) as [E|E]; [by rewrite Es in E|].
      destruct (holder_connects _ _ Hf Hl Hh) as [_ H1]. unfold holders in H1. rewrite E, Ec, length_app in H1. simpl in H1. lia.
  - apply fit_callers; [done| |].
    + intros Hl. destruct (holder_connects _ _ Hf Hl Hh) as [_ H1]. unfold holders in *. rewrite Ec in H1. simpl.
      rewrite !length_app in *. simpl in H1. lia.
    + intros Hl q Hq. apply (fit_claims _ _ Hf Hl). exists q. left. rewrite Ec. set_solver.
Qed.

Lemma fit_connect_send k before after p s :
  fit k s → callers s = before ++ Passed p :: after → fit k (connect_send before after p s).1.
Proof.
  intros Hf Ec. unfold connect_send. pose proof (callers_hold _ _ _ _ Ec) as Hh.
  destruct (has_room (set_callers (before ++ after) s)); simpl.
  - destruct Hf as [H1 H2 H3 H4 Hse H5 Hpub H6 H7 H8]. constructor; try done.
    + eapply sound_messages; [exact H2|]. intros y. unfold on_the_way. simpl.
      rewrite app_assoc, elem_of_app, list_elem_of_singleton. intros [Hy| ->]; [by left|by right].
    + intros Hl. etrans; [|exact (H6 Hl)]. unfold holders. simpl. rewrite Ec, List.filter_app, !length_app. simpl. lia.
    + intros Hl _. apply H8; [done|]. exists p. left. rewrite Ec. set_solver.
  - assert (set_connecting false (set_callers (before ++ after) s) = set_callers (before ++ after) (set_connecting false s))
      as -> by by destruct s.
    apply fit_callers; [done| |].
    + intros Hl. destruct (holder_connects _ _ Hf Hl Hh) as [_ H1]. unfold holders in *. rewrite Ec in H1. simpl.
      rewrite !length_app in *. simpl in H1. lia.
    + intros Hl q Hq. apply (fit_claims _ _ Hf Hl). exists q. left. rewrite Ec. set_solver.
Qed.

Lemma fit_loop_publishes k s c :
  fit k s → loop s = Publishing c →
  fit k (set_loop (if c then Clearing else Waiting) (set_stored (snapshot_of (engine (actor s))) s)).
Proof.
  intros [H1 H2 H3 H4 Hse H5 Hpub H6 H7 H8] El.
  assert (leaving s = false) as Hl by (unfold leaving; by rewrite El).
  constructor; try done.
  - rewrite Hl in H5. by destruct c.
  - by destruct c.
  - intros _. etrans; [|exact (H6 Hl)]. unfold holders. rewrite El. by destruct c.
  - intros _ Hb. left. simpl. by rewrite snapshot_free.
  - intros _. by apply H8.
Qed.

Lemma fit_loop_clears k s : fit k s → loop s = Clearing → fit k (set_loop Waiting (set_connecting false s)).
Proof.
  intros Hf El. assert (leaving s = false) as Hl by (unfold leaving; by rewrite El).
  assert (holders s = 1%nat) as Hh.
  { eapply holder_connects; [done..|]. unfold holders. rewrite El. lia. }
  destruct Hf as [H1 H2 H3 H4 Hse H5 Hpub H6 H7 H8]. constructor; try done.
  - by rewrite Hl in H5.
  - by rewrite El in Hpub.
  - intros _. unfold holders in *. rewrite El in Hh. simpl. lia.
  - intros _ Hb. destruct (H7 Hl Hb) as [E|E]; [by left|]. by rewrite El in E.
  - intros _. by apply H8.
Qed.

Lemma fit_loop_leaves k s :
  fit k s → loop s = Leaving → fit k (set_loop Ended (set_stored (snapshot_of (engine (actor s))) s)).
Proof.
  intros [H1 H2 H3 H4 Hse H5 Hpub H6 H7 H8] El.
  assert (leaving s = true) as Hl by (unfold leaving; by rewrite El).
  constructor; try done. by rewrite Hl in H5.
Qed.
Lemma same_holders s s' :
  callers s' = callers s → messages s' = messages s → loop s' = loop s → holders s' = holders s.
Proof. unfold holders. by intros -> -> ->. Qed.

(** The executor's own steps: the rest of the system stays as it is. *)
Lemma fit_executor k s s' :
  fit k s → engine (actor s') = engine (actor s) → attempt (actor s') = attempt (actor s) →
  monitors (actor s') = monitors (actor s) →
  loop s' = loop s → messages s' = messages s → stored s' = stored s → connecting s' = connecting s →
  callers s' = callers s →
  sound (engine (actor s)) (attempt (actor s)) (pending s') (on_the_way s') (machine s') →
  (∀ r, r ∈ races s' → race_attempt r ≤ attempt (actor s)) →
  (∀ ms m, executor s' = Sending ms → m ∈ ms → ∃ n i, m = MReport n i) →
  (if leaving s then
      if done s' then pending s' = [] ∧ machine s' = Down
      else ∃ n l, pending s' = l ++ [mkWork n WBarrier] ∧ ∀ w, w ∈ l → w_kind w ≠ WBarrier
    else done s' = false ∧ ∀ w, w ∈ pending s' → w_kind w ≠ WBarrier) → fit k s'.
Proof.
  intros [H1 H2 H3 H4 Hse H5 Hpub H6 H7 H8] Ee Ea Em El Emsg Est Ec Ecall Hs Hr Hsend Hend.
  assert (leaving s' = leaving s) as Hl by (unfold leaving; by rewrite El).
  constructor; rewrite ?Ee, ?Ea, ?Em, ?Hl, ?Est, ?Ec, ?Ecall, ?Emsg, ?El; try done.
  - destruct (leaving s); [|done]. by destruct H5.
  - intros Hlv. rewrite (same_holders s s'); auto.
Qed.

Lemma fit_executor_takes k s w ws :
  fit k s → executor s = Ready → sent (actor s) = w :: ws →
  fit k (begin_work w (set_executor (Doing w) (set_sent ws s))).
Proof.
  intros Hf Ex Ew.
  destruct (begin_work_parts w (set_executor (Doing w) (set_sent ws s))) as (Ea & El & Em & Est & Ec & Ecall & Exx & Emm & Ed & Hr).
  assert (pending (begin_work w (set_executor (Doing w) (set_sent ws s))) = pending s) as Ep.
  { unfold pending. rewrite Exx, Ea, Ex, Ew. done. }
  assert (on_the_way (begin_work w (set_executor (Doing w) (set_sent ws s))) = on_the_way s) as Eo.
  { unfold on_the_way. rewrite Exx, Em, Ex. done. }
  apply (fit_executor k s); rewrite ?Ea, ?El, ?Em, ?Est, ?Ec, ?Ecall, ?Emm, ?Ed, ?Ep, ?Eo, ?Exx; try done.
  - exact (fit_sound k s Hf).
  - intros r (r' & Hin & <-)%Hr. by apply (fit_races _ _ Hf).
  - pose proof (fit_end _ _ Hf) as He. simpl. destruct (leaving s); [|done]. by destruct He.
Qed.

Definition is_barrier (k : WorkKind) : bool := match k with WBarrier => true | _ => false end.

Lemma not_barrier k : k ≠ WBarrier → is_barrier k = false.
Proof. by destruct k. Qed.

Lemma finish_work_parts w answer fresh s s' more :
  finish_work w answer fresh s = Some (s', more) →
  actor s' = actor s ∧ loop s' = loop s ∧ messages s' = messages s ∧ stored s' = stored s ∧
  connecting s' = connecting s ∧ callers s' = callers s ∧
  done s' = (done s || is_barrier (w_kind w)) ∧
  (∀ r, r ∈ races s' → r ∈ races s ∨ race_attempt r = w_attempt w) ∧
  (∀ m, m ∈ more → ∃ n i, m = MReport n i).
Proof.
  unfold finish_work. intros E.
  destruct (w_kind w) eqn:Ew, answer as [env r|o|o live|]; try done; [..|destruct live|]; injection E as <- <-; simpl;
    rewrite ?orb_false_r, ?orb_true_r; split_and!; try done; auto.
  all: try (intros m Hm; repeat (apply elem_of_cons in Hm as [->|Hm]; [by eexists _, _|]); by apply elem_of_nil in Hm).
  intros x [Hx| ->%list_elem_of_singleton]%elem_of_app; [by left|by right].
Qed.

Lemma fit_executor_finishes k s w answer fresh s' more :
  fit k s → executor s = Doing w → finish_work w answer fresh s = Some (s', more) → fit k (set_executor (Sending more) s').
Proof.
  intros Hf Ex E. pose proof (fit_sound _ _ Hf) as Hs.
  assert (pending s = w :: sent (actor s)) as Ep by (unfold pending; by rewrite Ex).
  assert (on_the_way s = messages s) as Eo by (unfold on_the_way; by rewrite Ex).
  assert (pending (set_executor (Sending more) s') = sent (actor s')) as Ep' by done.
  destruct (finish_work_parts _ _ _ _ _ _ E) as (Ea & El & Em & Est & Ec & Ecall & Ed & Hr & Hmore).
  rewrite Ep in Hs.
  assert (w_attempt w ≤ attempt (actor s)) as Hw by (apply (sound_todo _ _ _ _ _ Hs); left).
  apply (fit_executor k s); simpl; rewrite ?Ea, ?El, ?Em, ?Est, ?Ec, ?Ecall, ?Ed; try done.
  - unfold on_the_way. simpl. rewrite Ep', Ea, Em, <-Eo. by eapply sound_finished.
  - intros r [Hin|Hin]%Hr; [by apply (fit_races _ _ Hf)|lia].
  - intros ms m [= <-] Hm. by apply Hmore.
  - rewrite Ep', Ea. pose proof (fit_end _ _ Hf) as He. rewrite Ep in He. destruct (leaving s).
    + destruct He as [Hidle He]. destruct (done s).
      { by destruct He. }
      destruct He as (n & l & El' & Hl). simpl. destruct l as [|x l]; simpl in El'; injection El' as -> El'.
      * simpl. split; [done|].
        apply sound_finished with (answer := answer) (fresh := fresh) (s' := s') (more := more) in Hs; [|done].
        pose proof (sound_phase _ _ _ _ _ Hs) as Hp. rewrite Hidle, El' in Hp.
        by destruct Hp as [[_ ?]|(l & ? & E' & _)]; [|destruct l].
      * rewrite (not_barrier (w_kind x)); [|apply Hl; left]. exists n, l. split; [done|]. intros y Hy. apply Hl. by right.
    + destruct He as [-> He]. simpl. rewrite (not_barrier (w_kind w)); [|apply He; left]. split; [done|].
      intros y Hy. apply He. by right.
Qed.

Lemma fit_report_moves k s m ms s' :
  fit k s → executor s = Sending (m :: ms) → s' = set_executor (Sending ms) (send m s) ∨ s' = set_executor (Sending ms) s →
  fit k s'.
Proof.
  intros Hf Ex Hs'. destruct (fit_sending _ _ Hf _ m Ex) as (n & i & ->); [by left|].
  assert (fit k (set_executor (Sending ms) s)) as Hdrop.
  { apply (fit_executor k s); try done.
    - assert (pending (set_executor (Sending ms) s) = pending s) as -> by (unfold pending; by rewrite Ex).
      eapply sound_messages; [exact (fit_sound _ _ Hf)|]. intros x Hx. left. unfold on_the_way in *. rewrite Ex.
      simpl in *. by right.
    - apply Hf.
    - intros l y [= <-] Hy. eapply (fit_sending _ _ Hf); [exact Ex|by right].
    - pose proof (fit_end _ _ Hf) as He.
      assert (pending (set_executor (Sending ms) s) = pending s) as -> by (unfold pending; by rewrite Ex).
      destruct (leaving s); [|done]. by destruct He. }
  destruct Hs' as [-> | ->]; [|done]. destruct Hdrop as [H1 H2 H3 H4 Hse H5 Hpub H6 H7 H8]. constructor; try done.
  - pose proof (fit_sound _ _ Hf) as Hs. unfold pending in Hs. rewrite Ex in Hs. eapply sound_messages; [exact Hs|].
    intros y. unfold on_the_way. rewrite Ex. simpl. intros Hy. left. set_solver.
  - intros Hl. etrans; [|exact (H6 Hl)]. unfold holders. simpl. rewrite List.filter_app, length_app. simpl. lia.
  - intros Hl [p [Hp|Hp]]; apply H8; [done|by exists p; left|done|]. exists p. right. simpl in Hp.
    by apply elem_of_app in Hp as [?|?%list_elem_of_singleton].
Qed.
Lemma fit_loop_takes k s x ms environment now a l :
  fit k s → k < 2 ^ 64 - 1 → loop s = Waiting → messages s = x :: ms →
  take_message x environment now (actor s) = Some (a, l) →
  fit (k + 1) (set_loop l (set_messages ms (set_actor a s))).
Proof.
  intros Hf Hk El Em E. pose proof (fit_count _ _ Hf) as Hn.
  assert (leaving s = false) as Hl by (unfold leaving; by rewrite El).
  assert (sound (engine (actor s)) (attempt (actor s)) (pending s)
    (x :: (match executor s with Sending ms => ms | _ => [] end ++ ms)) (machine s)) as Hs.
  { eapply sound_messages; [exact (fit_sound _ _ Hf)|]. intros y Hy. left. unfold on_the_way. rewrite Em. set_solver. }
  destruct (take_message_sound _ _ _ _ _ _ _ _ _ Hs ltac:(lia) E) as (sends & Esent & Hs' & Hat & Hmon & Hend & Hx).
  destruct Hf as [_ _ H3 H4 Hse H5 Hpub H6 H7 H8]. specialize (H6 Hl). rewrite Hl in H5.
  assert (pending (set_loop l (set_messages ms (set_actor a s))) = pending s ++ sends) as Ep.
  { unfold pending. simpl. by rewrite Esent, app_assoc. }
  constructor; rewrite ?Ep; simpl.
  - lia.
  - exact Hs'.
  - intros r Hr%H3. lia.
  - intros m [Hm%H4|Hm]%Hmon; lia.
  - done.
  - destruct H5 as [Hd Hb]. destruct l as [| | | |]; unfold leaving; simpl.
    all: try (split; [done|]; intros w [Hw|Hw]%elem_of_app; [by apply Hb|by apply Hend]).
    + destruct Hend as [Hi (n & sends' & -> & Hs2)]. split; [done|]. rewrite Hd.
      exists n, (pending s ++ sends'). split; [by rewrite app_assoc|]. intros w [Hw|Hw]%elem_of_app; [by apply Hb|by apply Hs2].
    + destruct x; naive_solver.
  - destruct x; naive_solver.
  - intros Hl'. rewrite <-H6. unfold holders. rewrite El, Em. simpl.
    destruct x; simpl; [subst l; simpl; lia|destruct Hx as [-> _]; simpl; lia|by subst l|destruct Hx as [-> _]; simpl; lia].
  - intros Hl' Hb. destruct x as [p| | |n i]; [by right| |by subst l|]; destruct Hx as [-> Hfree];
      (destruct (free_phase (engine (actor s))) eqn:Ef; [by rewrite Hfree in Hb|]);
      (destruct (H7 Hl eq_refl) as [?|?]; [by left|congruence]).
  - intros Hl' [p Hp].
    assert (∀ q, x = MConnect q → callers s = [] ∧ ∀ p, MConnect p ∉ ms) as Hone.
    { intros q ->. assert (holders s = 1%nat) as Hh.
      { destruct (connecting s); [done|]. unfold holders in H6. rewrite Em in H6. simpl in H6. lia. }
      unfold holders in Hh. rewrite Em in Hh. simpl in Hh. split; [apply length_zero_iff_nil; lia|].
      intros r Hr. assert (MConnect r ∈ List.filter (fun m => match m with MConnect _ => true | _ => false end) ms) as Hin
        by by apply elem_of_filter_bool.
      apply list_elem_of_split in Hin as (l1 & l2 & E2). rewrite E2, length_app in Hh. simpl in Hh. lia. }
    destruct x as [q| | |n i]; [|destruct Hx as [-> Hfree]|by subst l|destruct Hx as [-> Hfree]].
    + destruct (Hone q eq_refl) as [Ec Hno]. rewrite Ec in Hp. destruct Hp as [[]%elem_of_nil|Hp]. by apply Hno in Hp.
    + apply Hfree, H8; [done|]. exists p. rewrite Em. destruct Hp; [by left|right; by right].
    + apply Hfree, H8; [done|]. exists p. rewrite Em. destruct Hp; [by left|right; by right].
Qed.

Lemma fit_executor_step k s s' : fit k s → executor_step s s' → fit k s'.
Proof.
  intros Hf Hex. destruct Hex as [s0 w ws Ex Ew|s0 w answer fresh s1 more Ex Hfresh E|s0 m ms Ex Hroom|s0 m ms Ex El|s0 Ex].
  - by apply fit_executor_takes.
  - by eapply fit_executor_finishes.
  - eapply fit_report_moves; [done..|by left].
  - eapply fit_report_moves; [done..|by right].
  - apply (fit_executor k s0); try done.
    + pose proof (fit_sound _ _ Hf) as Hs. unfold pending, on_the_way in Hs. by rewrite Ex in Hs.
    + apply Hf.
    + pose proof (fit_end _ _ Hf) as He. unfold pending in *. rewrite Ex in He. destruct (leaving s0); [by destruct He|done].
Qed.

Lemma fit_step k s s' : fit k s → k < 2 ^ 64 - 1 → sys_step s s' → fit (k + 1) s'.
Proof.
  intros Hf Hk Hs.
  assert (∀ n i, n ≤ attempt (actor s) → i ≠ TunnelUp → (∀ r, i ≠ Engine.Connect r) → fit (k + 1) (send (MReport n i) s)) as Hsend.
  { intros n i Hn Hi Hr. apply fit_later, fit_send; [done|by split_and!|done]. }
  destruct Hs as [p s|before after p s Ec|before after p s Ec|s|s|s m ms env now a l El Em E|s c El|s El|s El|s s' Hex
    |s before r after d rs Er Hc Hroom|s before r after Er|s m i Hm Hi Hroom|s n snap].
  - by apply fit_later, fit_connect_claim.
  - by apply fit_later, fit_connect_look.
  - by apply fit_later, fit_connect_send.
  - apply fit_later. unfold handle_disconnect. destruct (status (handle_snapshot s)); [done|..];
      (destruct (has_room s); [by apply fit_send|done]).
  - apply fit_later. unfold retire. destruct (has_room s); [by apply fit_send|done].
  - by eapply fit_loop_takes.
  - by apply fit_later, fit_loop_publishes.
  - by apply fit_later, fit_loop_clears.
  - by apply fit_later, fit_loop_leaves.
  - by eapply fit_later, fit_executor_step.
  - assert (race_attempt r ≤ attempt (actor s)) as Hr by (apply (fit_races _ _ Hf); rewrite Er; set_solver).
    destruct (Hsend (race_attempt r) (RaceFinished d rs) Hr ltac:(done) ltac:(done)) as [H1 H2 H3 H4 Hse H5 Hpub H6 H7 H8].
    constructor; try done. intros x Hx. apply H3. simpl. rewrite Er. set_solver.
  - apply fit_later. destruct Hf as [H1 H2 H3 H4 Hse H5 Hpub H6 H7 H8].
    constructor; try done. intros x Hx. apply H3. rewrite Er. set_solver.
  - apply Hsend; [by apply (fit_monitors _ _ Hf)|by intros ->|by intros q ->].
  - apply fit_later. by destruct Hf.
Qed.

Lemma fit_run ps eps n s :
  nsteps sys_step n (spawn (engine_new ps eps)) s → Z.of_nat n < 2 ^ 64 → fit (Z.of_nat n) s.
Proof.
  revert s. induction n as [|n IH]; intros s Hr Hn; inversion Hr as [|]; subst.
  - apply fit_spawn.
  - apply nsteps_inv_r in Hr as (z & Hz & Hlast).
    replace (Z.of_nat (S n)) with (Z.of_nat n + 1) by lia. apply (fit_step _ z); [apply IH; [done|lia]|lia|done].
Qed.
End Invariant.

(** * Lemmas: a shutdown's end, and a request's effect *)

(** How much the executor has left to do. *)
Definition effort (s : System) : nat :=
  6 * length (sent (actor s)) +
  match executor s with Ready => 0 | Doing _ => 5 | Sending ms => 1 + length ms end.

Lemma finish_work_few w answer fresh s s' more : finish_work w answer fresh s = Some (s', more) → (length more ≤ 2)%nat.
Proof.
  unfold finish_work. intros E. destruct (w_kind w), answer; try done; [..|destruct live|]; injection E as _ <-; simpl; lia.
Qed.

Lemma effort_falls s s' : executor_step s s' → (effort s' < effort s)%nat.
Proof.
  intros [s0 w ws Ex Ew|s0 w answer fresh s1 more Ex Hfresh E|s0 m ms Ex Hroom|s0 m ms Ex El|s0 Ex]; unfold effort;
    rewrite ?Ex; simpl; try lia.
  - destruct (begin_work_parts w (set_executor (Doing w) (set_sent ws s0))) as (-> & _ & _ & _ & _ & _ & -> & _).
    simpl. rewrite Ew. simpl. lia.
  - apply finish_work_few in E as Hm. destruct (finish_work_parts _ _ _ _ _ _ E) as (-> & _). lia.
Qed.

Lemma executor_step_loop s s' : executor_step s s' → loop s' = loop s.
Proof.
  intros [s0 w ws Ex Ew|s0 w answer fresh s1 more Ex Hfresh E|s0 m ms Ex Hroom|s0 m ms Ex El|s0 Ex]; try done.
  - by destruct (begin_work_parts w (set_executor (Doing w) (set_sent ws s0))) as (_ & -> & _).
  - by destruct (finish_work_parts _ _ _ _ _ _ E) as (_ & El & _).
Qed.

(** Whatever the executor is at, it can go on, once the loop has ended. *)
Lemma executor_goes_on s :
  loop s = Ended → executor s = Ready ∧ sent (actor s) = [] ∨ ∃ s', executor_step s s'.
Proof.
  intros El. destruct (executor s) as [|w|ms] eqn:Ex.
  - destruct (sent (actor s)) as [|w ws] eqn:Ew; [by left|right]. by eexists; apply (executor_takes s w ws).
  - right. set (fresh := S (max_list (map race_id (races s)))).
    assert (∀ r, r ∈ races s → race_id r ≠ fresh) as Hfresh.
    { intros r Hr E. assert (race_id r ≤ max_list (map race_id (races s)))%nat; [|unfold fresh in E; lia].
      apply max_list_elem_of_le, elem_of_map. by exists r. }
    assert (∀ answer, is_Some (finish_work w answer fresh s) → ∃ s', executor_step s s') as Hgo.
    { intros answer [[s' more] E]. eexists. by eapply executor_finishes. }
    destruct (w_kind w) eqn:Ew;
      [apply (Hgo (Reached environment_default []))|apply (Hgo Acted)|apply (Hgo Acted)|apply (Hgo (Started (Ok ())))
      |apply (Hgo Acted)|apply (Hgo (Moved (Ok ()) true))|apply (Hgo Acted)];
      unfold finish_work; rewrite Ew; by eexists.
  - right. destruct ms as [|m ms]; eexists; [by apply executor_returns|by apply (executor_drops s m ms)].
Qed.

Section Effects.
Context `{UuidDisplay}.

Lemma connect_acts e r e' acts :
  free_phase e = true → connect e r = (e', acts) →
  fold_moves (omap work_of acts) ≠ [] ∨ ∃ cause, e_phase e' = PhaseFailed cause ∧ Emit (FailedEvent cause) ∈ acts.
Proof.
  assert (∀ (x : Engine) cause e' acts, fail_with x cause false = (e', acts) →
    ∃ cause, e_phase e' = PhaseFailed cause ∧ Emit (FailedEvent cause) ∈ acts) as Hfail.
  { intros x cause e1 acts1 [= <- <-]. exists cause. split; [done|left]. }
  assert (∀ (x : Engine) p ep because e' acts, start_tunnel x p ep because = (e', acts) →
    fold_moves (omap work_of acts) ≠ []) as Hstart.
  { intros x p ep because e1 acts1. unfold start_tunnel. intros [= <- <-]. simpl.
    by destruct (match List.find _ _ with Some _ => _ | None => _ end). }
  assert (∀ (x : Engine) ps ep e' acts, start_race x ps ep Engine.Probing = (e', acts) →
    fold_moves (omap work_of acts) ≠ []) as Hrace.
  { intros x ps ep e1 acts1 [= <- <-]. done. }
  assert (∀ x r ep e' acts, connect_with x r ep = (e', acts) → fold_moves (omap work_of acts) ≠ [] ∨
    ∃ cause, e_phase e' = PhaseFailed cause ∧ Emit (FailedEvent cause) ∈ acts) as Hwith.
  { intros x q ep e1 acts1. unfold connect_with. destruct q as [id|].
    - destruct (negb _); intros E; left; [by eapply Hstart|by eapply Hrace].
    - destruct (probeable_ids x); [|intros E; left; by eapply Hrace].
      destruct (direct_fallback x); intros E; [left; by eapply Hstart|right; by eapply Hfail]. }
  unfold free_phase, connect. intros Hf E. destruct (e_phase e); try done; cbv zeta in E;
    (destruct (engine_classify _ _); [right; by eapply Hfail|]);
    (destruct r as [id|]; [destruct (negb _); [right; by eapply Hfail|]|]);
    (destruct (rank _); [right; by eapply Hfail|by eapply Hwith]).
Qed.

(** A connect taken up by an engine at rest starts something, or ends in a failure that is told. *)
Lemma actor_connect_acts p environment now a a' :
  free_phase (engine a) = true → actor_connect p environment now a = Some a' →
  sent a' ≠ sent a ∨ ∃ cause, e_phase (engine a') = PhaseFailed cause ∧ Publish (FailedEvent cause) ∈ bus a'.
Proof.
  intros Hf E. unfold actor_connect in E. simpl in E. unfold actor_step in E. cbn [step] in E.
  apply bind_Some in E as ([e acts] & [= Hc] & E).
  set (work := fold_moves (omap work_of acts)) in *.
  assert (e = engine a' ∧ (∃ b, bus a' = b ++ map Publish (omap event_of acts)) ∧ (work ≠ [] → sent a' ≠ sent a))
    as (<- & [b Hb] & Hsent).
  { assert (∀ (l : list Work) x k, l ++ x :: k ≠ l) as Hne.
    { intros l x k E'. apply (f_equal length) in E'. rewrite length_app in E'. simpl in E'. lia. }
    destruct work; cbv beta iota zeta in E; injection E as <-; (destruct (is_connected _); [|destruct (e_phase e)]);
      (split; [done|split; [by eexists|]]); intros Hw; try done; apply Hne. }
  destruct (connect_acts (set_environment environment (engine a)) p e acts Hf Hc) as [Hw|(cause & Hcause & Hin)]; [left; by apply Hsent|].
  right. exists cause. split; [done|]. rewrite Hb. apply elem_of_app. right. apply elem_of_map.
  exists (FailedEvent cause). split; [done|]. apply list_elem_of_omap. by eexists.
Qed.

(** What clients are shown never contradicts itself, whatever the engine's state. *)
Lemma snapshot_of_coherent e : coherent (snapshot_of e).
Proof.
  unfold snapshot_of, coherent. destruct (e_phase e) as [| | |p ep| |c]; simpl; try done.
  destruct (List.find _ (e_profiles e)) as [q|]; [|done]. cbn [mbind option_bind].
  destruct (List.find _ (e_endpoints e)) as [x|]; simpl; [by eexists _, _|done].
Qed.

End Effects.

(** * Properties *)

Section Properties.
Context `{UuidDisplay}.

(** C25. Connected means the tunnel is up. However clients' calls, the loop, the executor, the races and the monitors
    interleave, in every state the service can reach: when the engine is connected, the last thing that was done to
    the machine was to bring up the very tunnel of its profile and endpoint, and no work on a tunnel is waiting; when
    the engine is at rest or racing and no work is waiting, nothing is up; and between two messages clients are shown
    the engine's state, which never contradicts itself. *)
Theorem connected_means_the_tunnel_is_up ps eps n s
    (Hrun : nsteps sys_step n (spawn (engine_new ps eps)) s) (Hcount : Z.of_nat n < 2 ^ 64) :
  (∀ p ep, e_phase (engine (actor s)) = Engine.Connected p ep → machine s = Up p ep ∧ tunnels (pending s) = []) ∧
  (has_tunnel (engine (actor s)) = false → tunnels (pending s) = [] → machine s = Down) ∧
  (loop s = Waiting → stored s = snapshot_of (engine (actor s))) ∧ (∀ e, coherent (snapshot_of e)).
Proof.
  pose proof (fit_run _ _ _ _ Hrun Hcount) as Hf. pose proof (sound_phase _ _ _ _ _ (fit_sound _ _ Hf)) as Hp.
  split_and!.
  - intros p ep E. rewrite E in Hp. by destruct Hp.
  - intros Ht Hn. unfold has_tunnel in Ht. rewrite Hn in Hp. destruct (e_phase _); try done;
      (destruct Hp as [[_ ?]|(l & ? & E & _)]; [done|by destruct l]).
  - intros El. pose proof (fit_published _ _ Hf) as Hpub. by rewrite El in Hpub.
  - apply snapshot_of_coherent.
Qed.

(** C26. A shutdown leaves nothing up. Once the loop has ended, the executor always comes to an end of what it has left
    to do, whatever the effects answer; when it has, the shutdown has been answered; and from the moment it is answered
    no tunnel is up, no work is waiting, and no request can start anything any more. *)
Theorem shutdown_leaves_nothing_up ps eps n s
    (Hrun : nsteps sys_step n (spawn (engine_new ps eps)) s) (Hcount : Z.of_nat n < 2 ^ 64) :
  (loop s = Ended → ∀ k s', nsteps executor_step k s s' →
     (k ≤ effort s)%nat ∧ ((∀ s'', ¬ executor_step s' s'') → done s' = true ∧ machine s' = Down)) ∧
  (done s = true → machine s = Down ∧ pending s = [] ∧
     ∀ s', sys_step s s' → done s' = true ∧ machine s' = Down ∧ sent (actor s') = []).
Proof.
  pose proof (fit_run _ _ _ _ Hrun Hcount) as Hf. split.
  - intros El k s' Hk. clear Hrun Hcount. revert s' Hk. remember (Z.of_nat n) as m eqn:Em. clear Em n.
    assert (∀ s', nsteps executor_step k s s' → fit m s' ∧ loop s' = Ended ∧ (k + effort s' ≤ effort s)%nat) as Hall.
    { induction k as [|k IH]; intros s' Hk; [inversion Hk; subst; split_and!; [done..|lia]|].
      apply nsteps_inv_r in Hk as (z & Hz & Hlast). destruct (IH z Hz) as (Hfz & Elz & Hez).
      pose proof (effort_falls _ _ Hlast). split_and!; [by eapply fit_executor_step| |lia].
      by rewrite (executor_step_loop _ _ Hlast). }
    intros s' Hk. destruct (Hall s' Hk) as (Hf' & El' & He). split; [lia|]. intros Hstuck.
    destruct (executor_goes_on s' El') as [[Ex Ew]|[s'' Hs'']]; [|by destruct (Hstuck s'')].
    pose proof (fit_end _ _ Hf') as Hend. unfold leaving, pending in Hend. rewrite El', Ex, Ew in Hend.
    destruct Hend as [_ Hend]. destruct (done s'); [by destruct Hend|]. destruct Hend as (a & l & E & _). by destruct l.
  - intros Hd. assert (leaving s = true) as Hl.
    { pose proof (fit_end _ _ Hf) as Hend. destruct (leaving s); [done|]. destruct Hend as [E _]. by rewrite Hd in E. }
    pose proof (fit_end _ _ Hf) as Hend. rewrite Hl, Hd in Hend. destruct Hend as (_ & Hp & Hm).
    split_and!; [done|done|]. intros s' Hs.
    unfold pending in Hp. apply app_eq_nil in Hp as [Hdo Hw].
    assert (∀ w, executor s ≠ Doing w) as Hnot by (intros w E; by rewrite E in Hdo).
    destruct Hs as [p s|before after p s Ec|before after p s Ec|s|s|s m ms env now a l El Em E|s c El|s El|s El|s s' Hex
      |s before r after d rs Er Hc Hroom|s before r after Er|s m i Hmon Hi Hroom|s k snap]; try done.
    + unfold connect_claim. by destruct (connecting s).
    + unfold connect_look. by destruct (is_free _).
    + unfold connect_send. by destruct (has_room _).
    + unfold handle_disconnect. destruct (status _); try done; by destruct (has_room s).
    + unfold retire. by destruct (has_room s).
    + unfold leaving in Hl. by rewrite El in Hl.
    + destruct Hex as [s w ws Ex Ew|s w answer fresh s1 more Ex Hfresh E|s m ms Ex Hroom|s m ms Ex El|s Ex]; try done.
      * by rewrite Hw in Ew.
      * by destruct (Hnot w).
Qed.

(** C27. A connect that was accepted is acted on. At most one request holds the right to connect at any time, from the
    client's claim until the state it led to is published; when the loop takes it up the engine is at rest, so that it
    starts a race or a tunnel, or ends at once in a failure that is told; and no report reaches the engine from an
    attempt that was replaced. *)
Theorem accepted_connects_are_acted_on ps eps n s
    (Hrun : nsteps sys_step n (spawn (engine_new ps eps)) s) (Hcount : Z.of_nat n < 2 ^ 64) :
  (leaving s = false → (holders s ≤ 1)%nat) ∧
  (∀ p ms environment now a l, loop s = Waiting → messages s = MConnect p :: ms →
     take_message (MConnect p) environment now (actor s) = Some (a, l) →
     free_phase (engine (actor s)) = true ∧
     (sent a ≠ sent (actor s) ∨ ∃ cause, e_phase (engine a) = PhaseFailed cause ∧ Publish (FailedEvent cause) ∈ bus a)) ∧
  (∀ k i ms environment now a l, messages s = MReport k i :: ms → k ≠ attempt (actor s) →
     take_message (MReport k i) environment now (actor s) = Some (a, l) → a = actor s).
Proof.
  pose proof (fit_run _ _ _ _ Hrun Hcount) as Hf. split_and!.
  - intros Hl. rewrite (fit_holders _ _ Hf Hl). destruct (connecting s); lia.
  - intros p ms environment now a l El Em E.
    assert (free_phase (engine (actor s)) = true) as Hfree.
    { apply (fit_claims _ _ Hf); [unfold leaving; by rewrite El|]. exists p. right. rewrite Em. left. }
    split; [done|]. simpl in E. apply bind_Some in E as (b & E & [= <- _]). by eapply actor_connect_acts.
  - intros k i ms environment now a l _ Hne E. simpl in E. apply Z.eqb_neq in Hne. rewrite Hne in E. by injection E as <- _.
Qed.
End Properties.

(** * Witnesses *)

Module OrchestratorDemo.
#[export] Instance demo_display : UuidDisplay := fun id => pretty id.

Definition profiles : list ConnectionProfile := [profile_new "awg" AmneziaWg params_new].
Definition some_endpoints : list Endpoint := [demo_endpoint 1 Healthy].
Definition start : System := spawn (engine_new profiles some_endpoints).

Lemma more_steps n x y z : sys_step x y → nsteps sys_step n y z → nsteps sys_step (S n) x z.
Proof. apply nsteps_l. Qed.

(** A step whose outcome is computed. *)
Tactic Notation "now_step" uconstr(c) := eapply more_steps; [eapply c; vm_compute; reflexivity|].
Tactic Notation "executor_next" uconstr(c) := eapply more_steps; [eapply executor_moves; eapply c; vm_compute; reflexivity|].

(** A client connects, the executor looks at the endpoint and starts the tunnel, and the loop hears of it. *)
Lemma connects :
  ∃ s, nsteps sys_step 19 start s ∧ e_phase (engine (actor s)) = Engine.Connected "awg" 1.
Proof.
  eexists. split.
  - eapply more_steps; [apply (ask_connect None)|].
    now_step (look_connect [] [] None). now_step (send_connect [] [] None).
    now_step (loop_takes _ (MConnect None) [] environment_default 1).
    now_step (loop_publishes _ true). now_step loop_clears.
    executor_next executor_takes.
    eapply more_steps; [eapply executor_moves, (executor_finishes _ _ (Reached environment_default [Reachable]) 0);
      [vm_compute; reflexivity|by intros r []%elem_of_nil|vm_compute; reflexivity]|].
    executor_next executor_sends. executor_next executor_sends. executor_next executor_returns.
    executor_next executor_takes.
    eapply more_steps; [eapply executor_moves, (executor_finishes _ _ (Started (Ok ())) 0);
      [vm_compute; reflexivity|by intros r []%elem_of_nil|vm_compute; reflexivity]|].
    executor_next executor_sends.
    now_step (loop_takes _ (MReport 1 (InputEnvironment environment_default)) _ environment_default 2).
    now_step (loop_publishes _ false).
    now_step (loop_takes _ (MReport 1 (InputReach [Reachable])) _ environment_default 3).
    now_step (loop_publishes _ false).
    now_step (loop_takes _ (MReport 1 TunnelUp) _ environment_default 4).
    apply nsteps_O.
  - vm_compute. reflexivity.
Qed.
(** The service is told to stop, and does. *)
Lemma stops : ∃ s, nsteps sys_step 5 start s ∧ done s = true.
Proof.
  eexists. split.
  - eapply more_steps; [apply ask_shutdown|].
    now_step (loop_takes _ MShutdown [] environment_default 1). now_step loop_leaves.
    executor_next executor_takes.
    eapply more_steps; [eapply executor_moves, (executor_finishes _ _ Acted 0);
      [vm_compute; reflexivity|by intros r []%elem_of_nil|vm_compute; reflexivity]|].
    apply nsteps_O.
  - vm_compute. reflexivity.
Qed.

(** A client's request waits for the loop. *)
Lemma waits : ∃ s, nsteps sys_step 3 start s ∧ loop s = Waiting ∧ messages s = [MConnect None].
Proof.
  eexists. split.
  - eapply more_steps; [apply (ask_connect None)|].
    now_step (look_connect [] [] None). now_step (send_connect [] [] None). apply nsteps_O.
  - split; vm_compute; reflexivity.
Qed.
End OrchestratorDemo.

Lemma connected_means_the_tunnel_is_up_witness :
  ∃ s, nsteps (@sys_step OrchestratorDemo.demo_display) 19 OrchestratorDemo.start s ∧ machine s = Up "awg" 1.
Proof.
  destruct OrchestratorDemo.connects as (s & Hrun & Hp). exists s. split; [exact Hrun|].
  destruct (@connected_means_the_tunnel_is_up OrchestratorDemo.demo_display OrchestratorDemo.profiles
    OrchestratorDemo.some_endpoints 19 s Hrun ltac:(reflexivity)) as [H _].
  exact (proj1 (H _ _ Hp)).
Defined.

Lemma shutdown_leaves_nothing_up_witness :
  ∃ s, nsteps (@sys_step OrchestratorDemo.demo_display) 5 OrchestratorDemo.start s ∧ done s = true ∧ machine s = Down.
Proof.
  destruct OrchestratorDemo.stops as (s & Hrun & Hd). exists s. split; [exact Hrun|]. split; [exact Hd|].
  destruct (@shutdown_leaves_nothing_up OrchestratorDemo.demo_display OrchestratorDemo.profiles
    OrchestratorDemo.some_endpoints 5 s Hrun ltac:(reflexivity)) as [_ H].
  exact (proj1 (H Hd)).
Defined.

Lemma accepted_connects_are_acted_on_witness :
  ∃ s, nsteps (@sys_step OrchestratorDemo.demo_display) 3 OrchestratorDemo.start s ∧ messages s = [MConnect None] ∧
    ∀ a l, @take_message OrchestratorDemo.demo_display (MConnect None) environment_default 1 (actor s) = Some (a, l) →
      free_phase (engine (actor s)) = true.
Proof.
  destruct OrchestratorDemo.waits as (s & Hrun & El & Em). exists s. split; [exact Hrun|]. split; [exact Em|].
  destruct (@accepted_connects_are_acted_on OrchestratorDemo.demo_display OrchestratorDemo.profiles
    OrchestratorDemo.some_endpoints 3 s Hrun ltac:(reflexivity)) as (_ & H & _).
  intros a l E. exact (proj1 (H None [] environment_default 1 a l El Em E)).
Defined.
