(* ===== verification/SessionSwitch.v ===== *)
(** Moving a session to another carrier: the control secret, the one request made of the core's control API, the
    reading of its reply and the nudge that follows (crates/dnetd/src/session_switch.rs). *)

From Stdlib Require Import Ascii.
From S2P Require Import Prelude Text IpText Profile Rule Decimal Transports CoreConfig Frame Protocol Uapi Credentials.

(** * Definitions *)

(* src: crates/dnetd/src/session_switch.rs:40-41 REQUEST_TIMEOUT *)
Definition REQUEST_TIMEOUT : Duration := from_secs 3.
(* src: crates/dnetd/src/session_switch.rs:42-43 MAX_REPLY *)
Definition MAX_REPLY : Z := 4096.
(* src: crates/dnetd/src/session_switch.rs:44-46 MAX_TAG *)
Definition MAX_TAG : Z := 32.
(* src: crates/dnetd/src/session_switch.rs:47-49 NUDGE_ATTEMPT_TIMEOUT *)
Definition NUDGE_ATTEMPT_TIMEOUT : Duration := from_millis 300.

(* src: crates/dnetd/src/session_switch.rs:51-74 SwitchError *)
Inductive SwitchError : Type :=
  | BadTag
  | BadSecret
  | BadPort
  | NoRandomness
  | SwitchTimeout
  | Unreachable (kind : string)
  | Unauthorized
  | SwitchRefused (code : Z)
  | BadReply.

(* src: crates/dnetd/src/session_switch.rs:54-73 SwitchError *)
Definition switch_error_to_string (e : SwitchError) : string :=
  match e with
  | BadTag => "the carrier name is not usable"
  | BadSecret => "the control secret is not usable"
  | BadPort => "the control port is zero"
  | NoRandomness => "the operating system gave no randomness"
  | SwitchTimeout => "the control API did not answer in time"
  | Unreachable kind => "the control API could not be reached (" +:+ kind +:+ ")"
  | Unauthorized => "the control API refused the secret"
  | SwitchRefused code => "the control API refused the switch (status " +:+ pretty code +:+ ")"
  | BadReply => "the control API gave a reply that could not be read"
  end.

(** ** The secret and the port *)

(* src: crates/dnetd/src/session_switch.rs:82-83 ControlSecret *)
Record ControlSecret : Type := mkControlSecret { control_text : string }.

(** [u8::is_ascii_graphic]. *)
Definition is_ascii_graphic (b : Ascii.ascii) : bool := in_range 33 126 b.

(* src: crates/dnetd/src/session_switch.rs:86-94 ControlSecret::new *)
Definition control_secret_new (text : string) : result SwitchError ControlSecret :=
  if (str_len text <? MIN_CONTROL_SECRET_LEN) || negb (forallb is_ascii_graphic (bytes text)) then Err BadSecret
  else Ok (mkControlSecret text).

(** What the operating system gives: 32 random bytes, or none. *)
(* src: crates/dnetd/src/session_switch.rs:96-105 ControlSecret::generate *)
Definition control_secret_generate (random : option string) : result SwitchError ControlSecret :=
  data ← ok_or random NoRandomness;
  control_secret_new (hex_encode data).

(* src: crates/dnetd/src/session_switch.rs:107-110 ControlSecret::for_config *)
Definition for_config (s : ControlSecret) : Secret := mkSecret (control_text s).

(* src: crates/dnetd/src/session_switch.rs:117-121 ControlSecret::fmt *)
Definition control_secret_debug (s : ControlSecret) : string := "ControlSecret(<redacted>)".
(* src: crates/dnetd/src/session_switch.rs:123-127 ControlSecret::fmt *)
Definition control_secret_to_string (s : ControlSecret) : string := "<redacted>".

(** ** The request *)

(* src: crates/dnetd/src/session_switch.rs:136-141 ControlClient *)
Record ControlClient : Type := mkControlClient { client_port : Z; client_secret : ControlSecret }.

(* src: crates/dnetd/src/session_switch.rs:143-151 ControlClient::fmt *)
Definition control_client_debug (c : ControlClient) : string :=
  "ControlClient { port: " +:+ pretty (client_port c) +:+ ", secret: <redacted> }".

(* src: crates/dnetd/src/session_switch.rs:154-159 ControlClient::new *)
Definition control_client_new (port : Z) (secret : ControlSecret) : result SwitchError ControlClient :=
  if port =? 0 then Err BadPort else Ok (mkControlClient port secret).

(* src: crates/dnetd/src/session_switch.rs:216-227 check_tag *)
Definition check_tag (tag : string) : result SwitchError unit :=
  if negb (str_is_empty tag) && (str_len tag <=? MAX_TAG) &&
     forallb (fun b => is_ascii_alphanumeric b || Ascii.eqb b "-" || Ascii.eqb b "_") (bytes tag)
  then Ok () else Err BadTag.

Definition crlf : string := of_bytes [13; 10].

(* src: crates/dnetd/src/session_switch.rs:176-176 ControlClient::exchange *)
Definition request_body (leaf : string) : string := "{" +:+ quote +:+ "name" +:+ quote +:+ ":" +:+ quote +:+ leaf +:+ quote +:+ "}".

(* src: crates/dnetd/src/session_switch.rs:178-188 ControlClient::exchange *)
Definition request_text (c : ControlClient) (selector leaf : string) : string :=
  let body := request_body leaf in
  "PUT /proxies/" +:+ selector +:+ " HTTP/1.1" +:+ crlf +:+
  "Host: 127.0.0.1:" +:+ pretty (client_port c) +:+ crlf +:+
  "Authorization: Bearer " +:+ control_text (client_secret c) +:+ crlf +:+
  "Content-Type: application/json" +:+ crlf +:+
  "Content-Length: " +:+ pretty (str_len body) +:+ crlf +:+
  "Connection: close" +:+ crlf +:+ crlf +:+ body.

(* src: crates/dnetd/src/session_switch.rs:229-246 status *)
Definition status (line : list Ascii.ascii) : result SwitchError unit :=
  if negb (is_utf8 line) then Err BadReply
  else
    let parts := split " " (of_ascii line) in
    let version := default "" (head parts) in
    code ← ok_or (c ← head (tail parts); parse_u16 c) BadReply;
    if negb (starts_with "HTTP/1." version) then Err BadReply
    else if (200 <=? code) && (code <=? 299) then Ok ()
    else if (code =? 401) || (code =? 403) then Err Unauthorized
    else Err (SwitchRefused code).

(** What comes before the first line end. *)
Fixpoint before_crlf (l : list Ascii.ascii) : option (list Ascii.ascii) :=
  match l with
  | a :: (b :: _) as l' =>
      if Ascii.eqb a (byte_of 13) && Ascii.eqb b (byte_of 10) then Some []
      else line ← before_crlf l'; Some (a :: line)
  | _ => None
  end.

(** The answers to the reads, one after another: bytes, of which none ends the stream, or an error. *)
(* src: crates/dnetd/src/session_switch.rs:194-212 ControlClient::exchange *)
Fixpoint read_reply (reply : list Ascii.ascii) (answers : list (result string (list Ascii.ascii))) :
    result SwitchError unit :=
  match before_crlf reply with
  | Some line => status line
  | None =>
      if MAX_REPLY <=? Z.of_nat (length reply) then Err BadReply
      else
        match answers with
        | [] | Ok [] :: _ => Err BadReply
        | Err kind :: _ => Err (Unreachable kind)
        | Ok chunk :: answers => read_reply (reply ++ chunk) answers
        end
  end.

(** What the network does with a request: whether the connection is made, whether the request is written, what is
    read, and whether all of it took less than the timeout. *)
Record Network : Type := mkNetwork {
  connected : result string unit;
  written : result string unit;
  answers : list (result string (list Ascii.ascii));
  in_time : bool;
}.

(** The result, and what was sent. *)
(* src: crates/dnetd/src/session_switch.rs:170-213 ControlClient::exchange *)
Definition exchange (c : ControlClient) (selector leaf : string) (net : Network) :
    result SwitchError unit * option string :=
  match connected net with
  | Err kind => (Err (Unreachable kind), None)
  | Ok _ =>
      (match written net with Err kind => Err (Unreachable kind) | Ok _ => read_reply [] (answers net) end,
       Some (request_text c selector leaf))
  end.

(* src: crates/dnetd/src/session_switch.rs:161-168 ControlClient::select *)
Definition select_leaf (c : ControlClient) (selector leaf : string) (net : Network) :
    result SwitchError unit * option string :=
  match check_tag selector, check_tag leaf with
  | Err e, _ | _, Err e => (Err e, None)
  | Ok _, Ok _ =>
      let '(r, sent) := exchange c selector leaf net in
      (if in_time net then r else Err SwitchTimeout, sent)
  end.

(** ** The nudge *)

(* src: crates/dnetd/src/session_switch.rs:276-282 NudgePlan *)
Record NudgePlan : Type := mkNudgePlan { every : Duration; within : Duration }.

(* src: crates/dnetd/src/session_switch.rs:284-291 NudgePlan::default *)
Definition nudge_plan_default : NudgePlan := mkNudgePlan (from_millis 250) (from_secs 5).

(* src: crates/dnetd/src/session_switch.rs:293-299 NudgeOutcome *)
Inductive NudgeOutcome : Type :=
  | Recovered (attempts : Z) (after : Duration)
  | GaveUp (attempts : Z).

(** The attempts of a nudge: whether each is answered, and the clock when it ends. *)
Abbreviation Attempts := (Z → bool * Instant) (only parsing).

(** [None] is a panic of the multiplication, or the fuel used up, which a plan within bounds never does. *)
(* src: crates/dnetd/src/session_switch.rs:306-319 nudge *)
Fixpoint nudge_loop (fuel : nat) (start : Instant) (plan : NudgePlan) (probe : Attempts) (attempts : Z) :
    option NudgeOutcome :=
  match fuel with
  | O => None
  | S fuel =>
      let attempts := u32_wrapping_add attempts 1 in
      let '(answered, now) := probe attempts in
      if answered then Some (Recovered attempts (saturating_duration_since now start))
      else
        waited ← duration_mul (every plan) attempts;
        let next := start + waited in
        if (start + within plan <=? next) || (start + within plan <=? now) then Some (GaveUp attempts)
        else nudge_loop fuel start plan probe attempts
  end.

(* src: crates/dnetd/src/session_switch.rs:301-320 nudge *)
Definition nudge (start : Instant) (plan : NudgePlan) (probe : Attempts) : option NudgeOutcome :=
  nudge_loop (Z.to_nat (within plan / every plan + 1)) start plan probe 0.

(* src: crates/dnetd/src/session_switch.rs:322-326 SwitchReport *)
Record SwitchReport : Type := mkSwitchReport { switched_to : string; nudged : NudgeOutcome }.

(** [None] is a panic. *)
(* src: crates/dnetd/src/session_switch.rs:328-347 switch_carrier *)
Definition switch_carrier (c : ControlClient) (selector leaf : string) (net : Network) (start : Instant)
    (plan : NudgePlan) (probe : Attempts) : option (result SwitchError SwitchReport) :=
  match (select_leaf c selector leaf net).1 with
  | Err e => Some (Err e)
  | Ok _ => n ← nudge start plan probe; Some (Ok (mkSwitchReport leaf n))
  end.

(* src: crates/dnetd/src/session_switch.rs:349-357 switch_to *)
Definition switch_to (c : ControlClient) (kind : CarrierKind) (net : Network) (start : Instant) (plan : NudgePlan)
    (probe : Attempts) : option (result SwitchError SwitchReport) :=
  switch_carrier c CARRIER_TAG (carrier_tag kind) net start plan probe.

Example statuses :
  map (fun s => status (bytes s)) ["HTTP/1.1 204 No Content"; "HTTP/1.0 401"; "HTTP/1.1 404 Not Found"; "HTTP/2 200";
    "HTTP/1.1"; "HTTP/1.1 abc"] =
  [Ok (); Err Unauthorized; Err (SwitchRefused 404); Err BadReply; Err BadReply; Err BadReply].
Proof. vm_compute. reflexivity. Qed.

Example nudges :
  map (nudge 0 nudge_plan_default) [fun n => (3 <=? n, n * 1000); fun n => (false, n * 1000); fun n => (false, from_secs 6)] =
  [Some (Recovered 3 3000); Some (GaveUp 20); Some (GaveUp 1)].
Proof. vm_compute. reflexivity. Qed.

(** * Lemmas

    ** Lines of printable text *)

Definition printable (s : string) : Prop := Forall (fun b => in_range 32 126 b = true) (bytes s).

Lemma printable_app a b : printable (a +:+ b) ↔ printable a ∧ printable b.
Proof. unfold printable. rewrite bytes_app. apply Forall_app. Qed.

Lemma visible_printable s : visible s → printable s.
Proof.
  unfold visible, printable. intros Hs. eapply Forall_impl; [exact Hs|]. intros b. unfold in_range. rewrite !andb_true_iff, !Z.leb_le. lia.
Qed.

Ltac printable_text := solve [unfold printable; vm_compute; repeat constructor].

Lemma printable_one_line s : printable s → one_line s.
Proof. unfold printable, one_line. rewrite Forall_forall. intros Hs Hin. specialize (Hs _ Hin). vm_compute in Hs. done. Qed.

Lemma crlf_line a b : printable a → str_lines (a +:+ crlf +:+ b) = a :: str_lines b.
Proof.
  intros Ha. replace (a +:+ crlf +:+ b) with ((a +:+ of_bytes [13]) +:+ newline +:+ b) by (by rewrite !str_app_assoc).
  unfold str_lines. rewrite split_line.
  - destruct (split (byte_of 10) b) as [|p ps] eqn:E; [by apply split_nonempty in E|]. cbn [text_lines].
    by rewrite (proj2 (strip_suffix_spec (of_bytes [13]) _ a) eq_refl).
  - apply one_line_app. split; [by apply printable_one_line|]. unfold one_line. vm_compute. set_solver.
Qed.

Lemma split_bytes_whole c l : c ∉ l → split_bytes c l = [l].
Proof.
  induction l as [|x l IH]; [done|]. intros [Hx Hl]%not_elem_of_cons. simpl.
  destruct (Ascii.eqb_spec x c); [by subst|]. by rewrite (IH Hl).
Qed.

Lemma last_line a : one_line a → a ≠ EmptyString → str_lines a = [a].
Proof.
  intros Ha Hne. unfold str_lines, split. rewrite split_bytes_whole by done. simpl. rewrite of_ascii_bytes.
  unfold str_is_empty. by destruct (String.eqb_spec a EmptyString).
Qed.

Lemma tag_visible tag : check_tag tag = Ok () → visible tag.
Proof.
  unfold check_tag. destruct (_ && _ && _) eqn:E; [|done]. intros _. apply andb_true_iff in E as [_ E].
  rewrite forallb_forall_elem in E. apply Forall_forall. intros b Hb. specialize (E b Hb).
  destruct b as [[] [] [] [] [] [] [] []]; vm_compute in E |- *; congruence.
Qed.

(** A secret as it was made. *)
Definition secret_ok (s : ControlSecret) : Prop := visible (control_text s) ∧ MIN_CONTROL_SECRET_LEN ≤ str_len (control_text s).

Lemma control_secret_new_ok text s : control_secret_new text = Ok s ↔ s = mkControlSecret text ∧ secret_ok s.
Proof.
  unfold control_secret_new, secret_ok, visible, is_ascii_graphic.
  destruct (Z.ltb_spec (str_len text) MIN_CONTROL_SECRET_LEN); simpl.
  { split; [done|]. intros [-> [_ ?]]. simpl in *. lia. }
  destruct (forallb _ (bytes text)) eqn:E; simpl.
  - split; [intros [= <-]; split; [done|]; split; [|done]|by intros [-> _]].
    apply Forall_forall. by apply forallb_forall_elem.
  - split; [done|]. intros [-> [Hv _]]. simpl in Hv. rewrite Forall_forall in Hv.
    apply not_true_iff_false in E. destruct E. by apply forallb_forall_elem.
Qed.

Lemma request_lines c selector leaf :
  secret_ok (client_secret c) → visible selector → visible leaf →
  str_lines (request_text c selector leaf) =
    ["PUT /proxies/" +:+ selector +:+ " HTTP/1.1"; "Host: 127.0.0.1:" +:+ pretty (client_port c);
     "Authorization: Bearer " +:+ control_text (client_secret c); "Content-Type: application/json";
     "Content-Length: " +:+ pretty (str_len (request_body leaf)); "Connection: close"; ""; request_body leaf].
Proof.
  intros [Hs _] Hsel%visible_printable Hleaf%visible_printable. apply visible_printable in Hs.
  assert (printable (pretty (client_port c))) as Hp by apply visible_printable, pretty_visible.
  assert (printable (pretty (str_len (request_body leaf)))) as Hl by apply visible_printable, pretty_visible.
  transitivity (str_lines (("PUT /proxies/" +:+ selector +:+ " HTTP/1.1") +:+ crlf +:+
    ("Host: 127.0.0.1:" +:+ pretty (client_port c)) +:+ crlf +:+
    ("Authorization: Bearer " +:+ control_text (client_secret c)) +:+ crlf +:+ "Content-Type: application/json" +:+ crlf +:+
    ("Content-Length: " +:+ pretty (str_len (request_body leaf))) +:+ crlf +:+ "Connection: close" +:+ crlf +:+
    "" +:+ crlf +:+ request_body leaf)).
  { f_equal. unfold request_text. by rewrite !str_app_assoc. }
  rewrite !crlf_line; try (rewrite ?printable_app; split_and?; first [done|printable_text]).
  rewrite last_line; [done| |by unfold request_body; intros E; vm_compute in E].
  apply printable_one_line. unfold request_body. rewrite !printable_app. split_and!; first [done|printable_text].
Qed.

(** ** Replies *)

Lemma before_crlf_cons a b l :
  before_crlf (a :: b :: l) =
    if Ascii.eqb a (byte_of 13) && Ascii.eqb b (byte_of 10) then Some []
    else line ← before_crlf (b :: l); Some (a :: line).
Proof. done. Qed.

Lemma before_crlf_app l r line : before_crlf l = Some line → before_crlf (l ++ r) = Some line.
Proof.
  revert line. induction l as [|a [|b l] IH]; intros line; [done..|]. change ((a :: b :: l) ++ r) with (a :: b :: (l ++ r)).
  rewrite !before_crlf_cons. destruct (_ && _); [done|]. intros (k & E & [= <-])%bind_Some.
  apply IH in E. change ((b :: l) ++ r) with (b :: (l ++ r)) in E. by rewrite E.
Qed.

Lemma before_crlf_long l r line :
  before_crlf (l ++ r) = Some line → (length line + 2 ≤ length l)%nat → before_crlf l = Some line.
Proof.
  revert line. induction l as [|a [|b l] IH]; intros line; [simpl; lia|simpl; lia|].
  change ((a :: b :: l) ++ r) with (a :: b :: (l ++ r)). rewrite !before_crlf_cons. destruct (_ && _); [done|].
  intros (k & E & [= <-])%bind_Some Hlen. rewrite (IH k); [done|exact E|simpl in *; lia].
Qed.

Lemma read_reply_chunks chunks reply line :
  Forall (fun k => k ≠ []) chunks → before_crlf (reply ++ concat chunks) = Some line →
  Z.of_nat (length line) + 2 ≤ MAX_REPLY → read_reply reply (map Ok chunks) = status line.
Proof.
  intros Hne. revert reply. induction Hne as [|k chunks Hk Hne IH]; intros reply Hline Hlen.
  - simpl in *. rewrite app_nil_r in Hline. by rewrite Hline.
  - cbn [map read_reply]. destruct (before_crlf reply) as [line'|] eqn:E.
    { apply (before_crlf_app _ (concat (k :: chunks))) in E. congruence. }
    destruct (Z.leb_spec MAX_REPLY (Z.of_nat (length reply))).
    { rewrite (before_crlf_long _ _ _ Hline) in E; [done|lia]. }
    destruct k as [|b k]; [done|]. apply IH; [|done]. simpl concat in Hline. by rewrite <-app_assoc.
Qed.

Lemma read_reply_ok reply answers :
  read_reply reply answers = Ok () → ∃ line, status line = Ok () ∧
    ∃ chunks, Forall (fun k => k ≠ []) chunks ∧ before_crlf (reply ++ concat chunks) = Some line ∧ map Ok chunks `prefix_of` answers.
Proof.
  revert reply. induction answers as [|r answers IH]; intros reply; cbn [read_reply].
  - destruct (before_crlf reply) as [line|] eqn:E; [|by destruct (_ <=? _)]. intros Hs. exists line. split; [done|].
    exists []. simpl. rewrite app_nil_r. done.
  - destruct (before_crlf reply) as [line|] eqn:E.
    { intros Hs. exists line. split; [done|]. exists []. simpl. rewrite app_nil_r. split; [done|]. split; [done|]. apply prefix_nil. }
    destruct (_ <=? _); [done|]. destruct r as [[|b k]|]; [done| |done].
    intros (line & Hs & chunks & Hne & Hline & Hp)%IH. exists line. split; [done|]. exists ((b :: k) :: chunks).
    split; [by constructor|]. split; [by rewrite <-app_assoc in Hline|]. by apply prefix_cons.
Qed.

(** ** The nudge *)

(** A plan whose attempts a counter can hold. *)
Definition plan_ok (plan : NudgePlan) : Prop :=
  0 < every plan ∧ 0 ≤ within plan ∧ within plan / every plan + 1 < 2 ^ 32 ∧ within plan + every plan ≤ DURATION_MAX.

(** When a nudge stops. *)
Definition nudge_result (start : Instant) (plan : NudgePlan) (probe : Attempts) (o : NudgeOutcome) : Prop :=
  match o with
  | Recovered n after => (probe n).1 = true ∧ after = Z.max 0 ((probe n).2 - start)
  | GaveUp n =>
      (probe n).1 = false ∧ (start + within plan ≤ start + every plan * n ∨ start + within plan ≤ (probe n).2)
  end.
Definition nudge_attempts (o : NudgeOutcome) : Z := match o with Recovered n _ | GaveUp n => n end.

Lemma nudge_loop_spec fuel start plan probe k :
  plan_ok plan → 0 ≤ k → within plan / every plan + 1 - k ≤ Z.of_nat fuel → k < within plan / every plan + 1 →
  ∃ o, nudge_loop fuel start plan probe k = Some o ∧ nudge_result start plan probe o ∧
    k < nudge_attempts o ≤ within plan / every plan + 1 ∧
    (∀ n, k < n < nudge_attempts o → (probe n).1 = false ∧ (probe n).2 < start + within plan ∧ every plan * n < within plan).
Proof.
  intros (He & Hw & Hn & Hd). revert k. induction fuel as [|fuel IH]; intros k Hk Hf Hlt; [simpl in Hf; lia|].
  cbn [nudge_loop]. unfold u32_wrapping_add. rewrite Z.mod_small by lia.
  destruct (probe (k + 1)) as [answered now] eqn:Ep. destruct answered.
  { exists (Recovered (k + 1) (saturating_duration_since now start)). split; [done|].
    unfold nudge_result, nudge_attempts. rewrite Ep. split; [done|]. split; [lia|]. intros n ?. lia. }
  pose proof (Z.mul_div_le (within plan) (every plan) He) as Hdiv.
  assert (every plan * (k + 1) ≤ every plan * (within plan / every plan + 1)) as Hmul
    by (apply Z.mul_le_mono_nonneg_l; lia).
  assert (every plan * (k + 1) ≤ DURATION_MAX) as Hmax by (etrans; [exact Hmul|];
    rewrite Z.mul_add_distr_l, Z.mul_1_r; etrans; [|exact Hd]; by apply Z.add_le_mono_r).
  unfold duration_mul. rewrite (proj2 (Z.leb_le _ _) Hmax). cbn [mbind option_bind].
  destruct (Z.leb_spec (start + within plan) (start + every plan * (k + 1))) as [Hg|Hg];
    [|destruct (Z.leb_spec (start + within plan) now) as [Hg'|Hg']]; cbn [orb].
  - exists (GaveUp (k + 1)). split; [done|]. unfold nudge_result, nudge_attempts. rewrite Ep. split; [split; [done|by left]|].
    split; [lia|]. intros n ?. lia.
  - exists (GaveUp (k + 1)). split; [done|]. unfold nudge_result, nudge_attempts. rewrite Ep. split; [split; [done|by right]|].
    split; [lia|]. intros n ?. lia.
  - assert (k + 1 < within plan / every plan + 1) as Hlt'.
    { enough (k + 1 ≤ within plan / every plan) by lia. apply Z.div_le_lower_bound; [done|]. lia. }
    destruct (IH (k + 1)) as (o & E & Hr & Hb & Hall); [lia..|]. exists o. split; [done|]. split; [done|]. split; [lia|].
    intros n Hn'. destruct (decide (n = k + 1)) as [->|]; [|apply Hall; lia]. rewrite Ep. simpl. split; [done|]. split; [done|]. lia.
Qed.

(** * Properties *)

(** A switch sends one command and nothing else. Whatever secret was accepted and whatever names are asked for, what is
    sent is one request whose lines are the command, the loopback address, the secret in its header, and the length
    of the body, which is the body that follows; a name that could add to it is refused and nothing is sent; and
    what is answered does not depend on how the reply was cut into pieces: it is what its first line says, and a
    switch is taken to have happened only when a first line said so. *)
Theorem switch_sends_one_command text secret port selector leaf net
    (Hsecret : control_secret_new text = Ok secret) (Hport : 0 < port ≤ U16_MAX) :
  let c := mkControlClient port secret in
  (∀ request, (select_leaf c selector leaf net).2 = Some request →
     check_tag selector = Ok () ∧ check_tag leaf = Ok () ∧
     str_lines request =
       ["PUT /proxies/" +:+ selector +:+ " HTTP/1.1"; "Host: 127.0.0.1:" +:+ pretty port;
        "Authorization: Bearer " +:+ text; "Content-Type: application/json";
        "Content-Length: " +:+ pretty (str_len (request_body leaf)); "Connection: close"; ""; request_body leaf]) ∧
  (∀ chunks line, Forall (fun k => k ≠ []) chunks → before_crlf (concat chunks) = Some line →
     Z.of_nat (length line) + 2 ≤ MAX_REPLY → read_reply [] (map Ok chunks) = status line) ∧
  ((select_leaf c selector leaf net).1 = Ok () → (select_leaf c selector leaf net).2 ≠ None ∧
     ∃ line chunks, status line = Ok () ∧ before_crlf (concat chunks) = Some line ∧ map Ok chunks `prefix_of` answers net).
Proof.
  cbv zeta. apply control_secret_new_ok in Hsecret as [-> Hs].
  unfold select_leaf. destruct (check_tag selector) as [[]|] eqn:Es.
  2: { split_and!; [done|intros; by apply (read_reply_chunks chunks [])|done]. }
  destruct (check_tag leaf) as [[]|] eqn:El.
  2: { split_and!; [done|intros; by apply (read_reply_chunks chunks [])|done]. }
  apply tag_visible in Es, El. split_and!; [|intros; by apply (read_reply_chunks chunks [])|].
  - intros request. unfold exchange. destruct (connected net); [|done]. intros [= <-]. split_and!; [done..|].
    by apply request_lines.
  - unfold exchange. destruct (connected net); simpl; [|by destruct (in_time net)].
    destruct (in_time net); [|done]. destruct (written net); [|done].
    intros (line & Hl & chunks & _ & Hc & Hp)%read_reply_ok. split; [done|]. by exists line, chunks.
Qed.

(** A nudge ends. Whatever the attempts and the clock do, a nudge within bounds makes at least one attempt and no more
    than its plan has room for, at most twenty by default; it recovers at the first attempt that is answered, and
    gives up only when none was and the time of the plan is over; and a switch that did not happen is not nudged. *)
Theorem nudge_ends start plan probe (Hplan : plan_ok plan) :
  (∃ o, nudge start plan probe = Some o ∧ nudge_result start plan probe o ∧
     1 ≤ nudge_attempts o ≤ within plan / every plan + 1 ∧
     ∀ n, 1 ≤ n < nudge_attempts o →
       (probe n).1 = false ∧ (probe n).2 < start + within plan ∧ every plan * n < within plan) ∧
  (plan = nudge_plan_default → ∀ o, nudge start plan probe = Some o → nudge_attempts o ≤ 20) ∧
  (∀ c selector leaf net e, (select_leaf c selector leaf net).1 = Err e →
     switch_carrier c selector leaf net start plan probe = Some (Err e)) ∧
  (∀ c selector leaf net, ∃ r, switch_carrier c selector leaf net start plan probe = Some r).
Proof.
  pose proof Hplan as (He & Hw & Hn & Hd).
  assert (0 ≤ within plan / every plan) as Hq by (apply Z.div_pos; lia).
  destruct (nudge_loop_spec (Z.to_nat (within plan / every plan + 1)) start plan probe 0) as (o & E & Hr & Hb & Hall);
    [done|lia..|]. split_and!.
  - exists o. split; [done|]. split; [done|]. split; [lia|]. intros n ?. apply Hall. lia.
  - intros -> o' E'. unfold nudge in E'. rewrite E in E'. injection E' as <-.
    change (within nudge_plan_default / every nudge_plan_default) with 20 in *.
    destruct (decide (nudge_attempts o = 21)) as [E21|]; [|lia].
    destruct (Hall 20) as (_ & _ & H20); [lia|]. vm_compute in H20. done.
  - intros c selector leaf net e Ee. unfold switch_carrier. by rewrite Ee.
  - intros c selector leaf net. unfold switch_carrier. destruct (select_leaf c selector leaf net).1; [|by eexists].
    unfold nudge. rewrite E. by eexists.
Qed.

(** ** Witnesses *)

Definition sample_secret : string := "0123456789abcdef0123456789abcdef".
Definition sample_network : Network :=
  mkNetwork (Ok ()) (Ok ()) [Ok (bytes "HTTP/1.1 20"); Ok (bytes ("4 No Content" +:+ crlf))] true.

Lemma switch_sends_one_command_witness :
  (select_leaf (mkControlClient 9090 (mkControlSecret sample_secret)) "carrier" "hy2" sample_network).2 ≠ None.
Proof.
  apply (switch_sends_one_command sample_secret (mkControlSecret sample_secret) 9090 "carrier" "hy2" sample_network);
    [by vm_compute|unfold U16_MAX; lia|by vm_compute].
Defined.

Lemma nudge_ends_witness :
  ∃ o, nudge 0 nudge_plan_default (fun n => (false, n * 1000)) = Some o ∧ nudge_attempts o ≤ 20.
Proof.
  destruct (nudge_ends 0 nudge_plan_default (fun n => (false, n * 1000))) as ((o & E & _) & H20 & _).
  - split_and!; vm_compute; congruence.
  - exists o. split; [exact E|]. exact (H20 eq_refl o E).
Defined.
