(* ===== verification/Plan.v ===== *)
(** What one connection needs, planned from the profile, the endpoint, its secrets and the rules; which endpoints and
    profiles can be used at all; and the job that probes a profile (crates/dnetd/src/plan.rs, and the probe jobs of
    crates/dnet-probe/src/runner.rs). *)

From Stdlib Require Import Ascii.
From S2P Require Import Prelude Text IpText Profile Health Endpoint Rule RuleEval Builtin Names Persist Secrets FeedDocument Origin Decimal Transports CoreConfig Uapi Protocol Credentials SessionSwitch.

(** * Definitions *)

(* src: crates/dnetd/src/plan.rs:51-52 AMNEZIAWG_ADAPTER *)
Definition AMNEZIAWG_ADAPTER : string := "dnet-awg0".

(* src: crates/dnetd/src/plan.rs:54-57 PlanError *)
Record PlanError : Type := mkPlanError { plan_detail : string }.

(* src: crates/dnetd/src/plan.rs:59-62 PlanError::new *)
Definition plan_error {A} (detail : string) : result PlanError A := Err (mkPlanError detail).

(* src: crates/dnetd/src/plan.rs:81-89 AwgTunnel *)
Record AwgTunnel : Type := mkAwgTunnel {
  tunnel_address : IpAddr;
  tunnel_prefix : Z;
  tunnel_private_key : PrivateKey;
  tunnel_obfuscation : ObfuscationParams;
  tunnel_peer : PeerConfig;
}.

(* src: crates/dnetd/src/plan.rs:106-112 ControlChannel *)
Record ControlChannel : Type := mkChannel { channel_port : Z; channel_secret : ControlSecret }.

(** What the operating system gives: a free loopback port, and 32 random bytes. *)
(* src: crates/dnetd/src/plan.rs:114-126 ControlChannel::fresh *)
Definition channel_fresh (free_port : option Z) (random : option string) : result PlanError ControlChannel :=
  match free_port with
  | None => plan_error "no loopback port was available for the core's control"
  | Some port =>
      match control_secret_generate random with
      | Ok secret => Ok (mkChannel port secret)
      | Err _ => plan_error "no randomness was available for the core's control"
      end
  end.

(* src: crates/dnetd/src/plan.rs:128-136 ControlChannel::fmt *)
Definition channel_debug (c : ControlChannel) : string :=
  "ControlChannel { port: " +:+ pretty (channel_port c) +:+ ", secret: <redacted> }".

(* src: crates/dnetd/src/plan.rs:138-148 SessionInfo *)
Record SessionInfo : Type := mkSessionInfo {
  info_control : ControlChannel;
  info_carriers : list CarrierKind;
  info_active : CarrierKind;
}.

(** The configuration as it is before it is written as JSON. *)
(* src: crates/dnetd/src/plan.rs:91-104 TunnelPlan *)
Record TunnelPlan : Type := mkTunnelPlan {
  plan_core : CoreBinding;
  plan_bypass : ActiveEndpointBypass;
  plan_awg : option AwgTunnel;
  plan_session : option SessionInfo;
  plan_config : PrimaryCoreConfig;
}.

(* src: crates/dnetd/src/plan.rs:273-279 kind_name *)
Definition plan_kind_name (kind : ProfileKind) : string :=
  match kind with AmneziaWg => "AmneziaWG" | Hysteria2 => "Hysteria 2" | VlessReality => "VLESS+REALITY" end.

(* src: crates/dnetd/src/plan.rs:220-227 server_port *)
Definition server_port (kind : ProfileKind) (c : EndpointCredentials) : option Z :=
  match kind with
  | AmneziaWg => awg_server_port <$> amneziawg c
  | Hysteria2 => hb_server_port <$> Credentials.hysteria2 c
  | VlessReality => rb_server_port <$> Credentials.reality c
  end.

(** A quote in the texts for a person. *)
Definition quoted (s : string) : string := "'" +:+ s +:+ "'".

(* src: crates/dnetd/src/plan.rs:185-218 dialled *)
Definition dialled (e : Endpoint) (p : ConnectionProfile) (c : EndpointCredentials) :
    result PlanError (Z * ActiveEndpointBypass) :=
  port ← ok_or (server_port (profile_kind p) c)
    (mkPlanError ("endpoint " +:+ quoted (endpoint_label e) +:+ " has no credentials for the " +:+
      plan_kind_name (profile_kind p) +:+ " profile; add them or choose another profile"));
  match parse_ip (host (endpoint_address e)) with
  | Some (V4 ip) =>
      match address_new (ipv4_to_string ip) port with
      | Ok address => Ok (ip, bypass_new address)
      | Err _ => plan_error "the endpoint address is not valid"
      end
  | Some (V6 _) =>
      plan_error ("endpoint " +:+ quoted (endpoint_label e) +:+
        " is an IPv6 address, which is not supported yet; use an IPv4 address")
  | None =>
      plan_error ("endpoint " +:+ quoted (endpoint_label e) +:+
        " is a host name; connecting by name is not supported yet because the name would have to be resolved before the tunnel exists. Use its IP address")
  end.

(* src: crates/dnet-provision/src/bootstrap.rs:77-77 ORIGIN_PORT *)
Definition ORIGIN_PORT : Z := 8080.

(** [None] is a panic. *)
(* src: crates/dnet-provision/src/bootstrap.rs:90-92 session_measurement_origin *)
Definition session_measurement_origin : option Origin :=
  match origin_parse ("http://" +:+ ipv4_to_string SESSION_ORIGIN +:+ ":" +:+ pretty ORIGIN_PORT) with
  | Ok o => Some o
  | Err _ => None
  end.

(* src: crates/dnetd/src/plan.rs:248-251 carried_by_session *)
Definition carried_by_session (kind : ProfileKind) (c : EndpointCredentials) : bool :=
  negb (bool_decide (kind = AmneziaWg)) && bool_decide (is_Some (session c)).

(* src: crates/dnetd/src/plan.rs:229-240 origin_for *)
Definition origin_for (kind : ProfileKind) (c : EndpointCredentials) : option (option Origin) :=
  if negb (bool_decide (kind = AmneziaWg)) && bool_decide (is_Some (session c)) then
    o ← session_measurement_origin; Some (Some o)
  else Some (measure_origin c).

(* src: crates/dnetd/src/plan.rs:242-246 race_origin *)
Definition race_origin (c : EndpointCredentials) : option (option Origin) := origin_for Hysteria2 c.

(* src: crates/dnetd/src/plan.rs:253-271 reach_ports *)
Definition reach_ports (c : EndpointCredentials) : list Z :=
  omap (fun kind => server_port kind c)
    (List.filter (fun kind => bool_decide (Profile.carrier kind = Tcp)) [AmneziaWg; Hysteria2; VlessReality]).

(* src: crates/dnetd/src/plan.rs:331-341 hysteria2_client *)
Definition hysteria2_client (client : ClientDefinitions) : Hysteria2ClientParams :=
  let bundled := hysteria2_client_default in
  mkHy2Client
    (default (Transports.bbr_profile bundled) (FeedDocument.bbr_profile (FeedDocument.hysteria2 client)))
    (default (Transports.chrome_parrot bundled) (FeedDocument.chrome_parrot (FeedDocument.hysteria2 client))).

(* src: crates/dnetd/src/plan.rs:343-351 reality_client *)
Definition reality_client (client : ClientDefinitions) : RealityClientParams :=
  mkRealityClient (default Chrome (FeedDocument.utls_fingerprint (FeedDocument.reality client))).

(* src: crates/dnetd/src/plan.rs:297-329 primary_transport *)
Definition transport_for (kind : ProfileKind) (c : EndpointCredentials) (client : ClientDefinitions) :
    option PrimaryTransport :=
  match kind with
  | AmneziaWg => None
  | Hysteria2 =>
      bundle ← Credentials.hysteria2 c;
      Some (CarriedByHysteria2 (mkHy2Transport (mkHy2Settings (hysteria2_client client) (hb_endpoint bundle))
              (hb_credentials bundle)))
  | VlessReality =>
      bundle ← Credentials.reality c;
      Some (CarriedByReality (mkRealityTransport (mkRealitySettings (reality_client client) (rb_endpoint bundle))
              (rb_credentials bundle)))
  end.

(** ** Which endpoints and profiles can be used *)

(* src: crates/dnetd/src/plan.rs:353-362 Assessment *)
Record Assessment : Type := mkAssessment {
  usable : list Endpoint;
  problems : list string;
  served : list ProfileKind;
}.

(* src: crates/dnetd/src/plan.rs:364-382 served_profiles *)
Definition served_profiles (profiles : list ConnectionProfile) (served : list ProfileKind) : list ConnectionProfile :=
  if bool_decide (served = []) then profiles
  else List.filter (fun p => bool_decide (profile_kind p ∈ served)) profiles.

Section Assess.
Context {S : Type} `{SecretStore S EndpointCredentials}.

(* src: crates/dnetd/src/plan.rs:441-481 endpoint_problem *)
Definition endpoint_problem (e : Endpoint) (secrets : S) : option string :=
  let label := quoted (endpoint_label e) in
  match secret_key_parse (endpoint_credentials e) with
  | Err _ => Some ("endpoint " +:+ label +:+ " refers to its credentials in a form that is not valid")
  | Ok key =>
      match secret_get key secrets with
      | Ok None => Some ("endpoint " +:+ label +:+ " has no credentials stored; import or provision them")
      | Err error =>
          Some ("endpoint " +:+ label +:+ ": its credentials could not be read (" +:+
            secret_store_error_to_string error +:+ ")")
      | Ok (Some c) =>
          if negb (bool_decide (is_Some (measure_origin c))) then
            Some ("endpoint " +:+ label +:+
              " has no measurement origin; without one a connection cannot be tested, and this project provides none to fall back on")
          else
            match parse_ip (host (endpoint_address e)) with
            | Some (V4 _) => None
            | Some (V6 _) =>
                Some ("endpoint " +:+ label +:+ " is an IPv6 address, which is not supported yet; use an IPv4 address")
            | None =>
                Some ("endpoint " +:+ label +:+
                  " is a host name; connecting by name is not supported yet because the name would have to be resolved before the tunnel exists. Use its IP address")
            end
      end
  end.

(* src: crates/dnetd/src/plan.rs:415-439 endpoint_kinds *)
Definition endpoint_kinds (e : Endpoint) (secrets : S) : result string (list ProfileKind) :=
  match endpoint_problem e secrets with
  | Some problem => Err problem
  | None =>
      Ok (default []
        (key ← (match secret_key_parse (endpoint_credentials e) with Ok key => Some key | Err _ => None end);
         c ← (match secret_get key secrets with Ok c => c | Err _ => None end);
         Some (List.filter (fun kind => bool_decide (is_Some (server_port kind c))) [AmneziaWg; Hysteria2; VlessReality])))
  end.

(* src: crates/dnetd/src/plan.rs:399-403 assess_endpoints *)
Definition add_kind (served : list ProfileKind) (kind : ProfileKind) : list ProfileKind :=
  if bool_decide (kind ∈ served) then served else served ++ [kind].

(* src: crates/dnetd/src/plan.rs:395-407 assess_endpoints *)
Definition assess_one (secrets : S) (a : Assessment) (e : Endpoint) : Assessment :=
  match endpoint_kinds e secrets with
  | Ok kinds =>
      mkAssessment (usable a ++ [e]) (problems a)
        (fold_left add_kind kinds (served a))
  | Err problem => mkAssessment (usable a) (problems a ++ [problem]) (served a)
  end.

(* src: crates/dnetd/src/plan.rs:384-413 assess_endpoints *)
Definition assess_endpoints (es : list Endpoint) (secrets : S) : Assessment :=
  fold_left (assess_one secrets) es (mkAssessment [] [] []).

End Assess.

(** ** Probe jobs *)

(** The proxy's credentials are two random tokens, made for the job. *)
(* src: crates/dnet-probe/src/runner.rs:52-61 ProbeJob *)
Record ProbeJob : Type := mkProbeJob {
  job_profile : ConnectionProfile;
  job_config : ProbeConfig;
  job_socks_port : Z;
  job_username : string;
  job_password : string;
}.

Section Plan.
Context `{Base64, UuidText, DebugText}.

(* src: crates/dnet-probe/src/runner.rs:64-94 ProbeJob::new *)
Definition probe_job_new (username password : string) (p : ConnectionProfile) (endpoint : ActiveEndpointBypass)
    (transport : PrimaryTransport) (port : Z) : result ConfigError ProbeJob :=
  config ← generate_probe_config
    (mkProbeInput (mkSocksAuth username (mkSecret password)) p endpoint (Some transport) port);
  Ok (mkProbeJob p config port username password).

(* src: crates/dnet-probe/src/runner.rs:96-124 ProbeJob::new_session *)
Definition probe_job_new_session (username password : string) (p : ConnectionProfile) (input : SessionProbeInput) :
    result ConfigError ProbeJob :=
  config ← generate_session_probe_config
    (mkSessionProbe (mkSocksAuth username (mkSecret password)) (sp_carrier input) (sp_device_private_key input)
       (sp_server_public_key input) (sp_device_address input) (sp_session_port input) (sp_socks_port input));
  Ok (mkProbeJob p config (sp_socks_port input) username password).

Definition for_plan {A} (what : string) (r : result ConfigError A) : result PlanError A :=
  match r with Ok a => Ok a | Err e => plan_error (what +:+ config_error_to_string e) end.

(* src: crates/dnetd/src/plan.rs:483-533 probe_job *)
Definition probe_job (username password : string) (p : ConnectionProfile) (e : Endpoint) (c : EndpointCredentials)
    (client : ClientDefinitions) (port : Z) : result PlanError ProbeJob :=
  '(_, bypass) ← dialled e p c;
  transport ← ok_or (transport_for (profile_kind p) c client)
    (mkPlanError ("the " +:+ plan_kind_name (profile_kind p) +:+ " profile cannot be tested through a proxy"));
  match carried_by_session (profile_kind p) c, session c with
  | true, Some s =>
      let placeholder := mkSocksAuth "x" (mkSecret "x") in
      for_plan "the connection could not be tested: "
        (probe_job_new_session username password p
          (mkSessionProbe placeholder (CoreConfig.mkCarrier transport bypass (profile_brutal p)) (sb_device_private_key s)
             (sb_server_public_key s) (session_cidr s) (sb_session_port s) port))
  | _, _ => for_plan "the connection could not be tested: " (probe_job_new username password p bypass transport port)
  end.

(** ** Connections *)

(* src: crates/dnetd/src/plan.rs:558-567 PlanInputs *)
Record PlanInputs : Type := mkPlanInputs {
  in_profile : ConnectionProfile;
  in_endpoint : Endpoint;
  in_credentials : EndpointCredentials;
  in_client : ClientDefinitions;
  in_rules : list RoutingRule;
  in_fakeip : FakeIpHalf;
}.

(* src: crates/dnetd/src/plan.rs:680-685 session_config *)
Record Leaf : Type := mkLeaf { leaf_kind : CarrierKind; leaf_transport : PrimaryTransport; leaf_bypass : ActiveEndpointBypass }.

(* src: crates/dnetd/src/plan.rs:687-704 session_config *)
Fixpoint session_leaves (c : EndpointCredentials) (client : ClientDefinitions) (ip : Z)
    (kinds : list (CarrierKind * ProfileKind)) : result PlanError (list Leaf) :=
  match kinds with
  | [] => Ok []
  | (kind, profile) :: kinds =>
      match transport_for profile c client, server_port profile c with
      | Some transport, Some port =>
          match address_new (ipv4_to_string ip) port with
          | Err _ => plan_error "the endpoint address is not valid"
          | Ok address =>
              rest ← session_leaves c client ip kinds;
              Ok (mkLeaf kind transport (bypass_new address) :: rest)
          end
      | _, _ => session_leaves c client ip kinds
      end
  end.

(** The person's opt-in applies to the Hysteria 2 carrier, and only while it is the chosen profile. *)
(* src: crates/dnetd/src/plan.rs:705-716 session_config *)
Definition session_carrier (p : ConnectionProfile) (leaf : Leaf) : CoreConfig.Carrier :=
  CoreConfig.mkCarrier (leaf_transport leaf) (leaf_bypass leaf)
    (if bool_decide (leaf_kind leaf = CarrierHysteria2) && bool_decide (profile_kind p = Hysteria2)
     then profile_brutal p else None).

(* src: crates/dnetd/src/plan.rs:653-745 session_config *)
Definition session_config (i : PlanInputs) (ip : Z) (control : ControlChannel) :
    result PlanError (PrimaryCoreConfig * SessionInfo) :=
  let p := in_profile i in
  s ← ok_or (session (in_credentials i)) (mkPlanError "the endpoint has no session");
  active ← match profile_kind p with
           | Hysteria2 => Ok CarrierHysteria2
           | VlessReality => Ok CarrierReality
           | AmneziaWg => plan_error "AmneziaWG does not run over the session"
           end;
  leaves ← session_leaves (in_credentials i) (in_client i) ip
             [(CarrierHysteria2, Hysteria2); (CarrierReality, VlessReality)];
  let carriers := map (session_carrier p) leaves in
  config ← for_plan "the connection could not be configured: "
    (generate_session_config {|
       carriers := carriers;
       active_carrier := active;
       si_rules := in_rules i;
       si_fakeip := in_fakeip i;
       device_private_key := sb_device_private_key s;
       server_public_key := sb_server_public_key s;
       device_address := session_cidr s;
       session_port := sb_session_port s;
       CoreConfig.control := mkControlApi (channel_port control) (for_config (channel_secret control));
     |});
  Ok (config, mkSessionInfo control (map leaf_kind leaves) active).

(** The ids of the rules that are added are minted; [fresh] is what [ControlChannel::fresh] gives. [None] is a panic of
    [with_active_endpoint]. *)
(* src: crates/dnetd/src/plan.rs:569-651 plan_tunnel_with *)
Definition plan_tunnel_with (new_ids : nat → RuleId) (fresh : result PlanError ControlChannel) (i : PlanInputs)
    (control : option ControlChannel) : option (result PlanError TunnelPlan) :=
  let p := in_profile i in
  let c := in_credentials i in
  match dialled (in_endpoint i) p c with
  | Err e => Some (Err e)
  | Ok (ip, bypass) =>
      let transport := transport_for (profile_kind p) c (in_client i) in
      completed ← with_active_endpoint new_ids (in_rules i) (endpoint_address (in_endpoint i));
      Some (
        rules ← match completed with
                | Ok rules => Ok rules
                | Err e => plan_error ("the routing rules could not be completed for this endpoint: " +:+
                             domain_error_to_string e)
                end;
        if carried_by_session (profile_kind p) c then
          control ← match control with Some control => Ok control | None => fresh end;
          '(config, info) ← session_config
            (mkPlanInputs p (in_endpoint i) c (in_client i) rules (in_fakeip i)) ip control;
          Ok (mkTunnelPlan (profile_core_binding p) bypass None (Some info) config)
        else
          config ← for_plan "the connection could not be configured: "
            (generate_primary_core_config
              (mkPrimaryInput p bypass rules
                 (if bool_decide (profile_kind p = AmneziaWg) then Some AMNEZIAWG_ADAPTER else None)
                 transport (in_fakeip i)));
          let awg :=
            match profile_kind p, amneziawg c with
            | AmneziaWg, Some a =>
                Some (mkAwgTunnel (V4 (client_address a)) (tunnel_prefix_len a) (client_private_key a) (obfuscation a)
                  (mkPeer (awg_server_public_key a) (ipv4_to_string ip +:+ ":" +:+ pretty (awg_server_port a))
                     ["0.0.0.0/0"] (Some 25)))
            | _, _ => None
            end in
          Ok (mkTunnelPlan (profile_core_binding p) bypass awg None config))
  end.

(* src: crates/dnetd/src/plan.rs:535-556 plan_tunnel *)
Definition plan_tunnel (new_ids : nat → RuleId) (fresh : result PlanError ControlChannel) (p : ConnectionProfile)
    (e : Endpoint) (c : EndpointCredentials) (client : ClientDefinitions) (rules : list RoutingRule)
    (fakeip : FakeIpHalf) : option (result PlanError TunnelPlan) :=
  plan_tunnel_with new_ids fresh (mkPlanInputs p e c client rules fakeip) None.

End Plan.

(** * Lemmas

    ** An address and a port as text *)

Lemma read_digits_decimal limit max_digits acc count s v :
  Forall decimal_byte (bytes s) → (count + length (bytes s) ≤ max_digits)%nat →
  parse_digits limit acc (bytes s) = Some v →
  read_digits 10 limit max_digits acc count s = Some (v, (count + length (bytes s))%nat, EmptyString).
Proof.
  revert acc count. induction s as [|c s IH]; intros acc count Hs Hlen; cbn [read_digits].
  { intros [= <-]. by rewrite Nat.add_0_r. }
  change (bytes (String c s)) with (c :: bytes s) in *. apply Forall_cons_1 in Hs as [[d Hd] Hs]. cbn [parse_digits].
  rewrite Hd. cbn [mbind option_bind]. destruct (limit <? acc * 10 + d); [done|]. simpl in Hlen.
  rewrite bool_decide_eq_false_2 by lia. intros Hv. rewrite IH by (done || lia). simpl. by rewrite Nat.add_succ_r.
Qed.

Lemma read_unbounded_pretty limit n : 0 ≤ n ≤ limit → read_unbounded limit (pretty n) = Some (n, EmptyString).
Proof.
  intros Hn. destruct (pretty_nonneg_decimal n) as [Hd Hne]; [lia|]. unfold read_unbounded, read_number.
  pose proof (parse_uint_pretty limit n Hn) as Hp. rewrite parse_uint_digits in Hp by done.
  assert (String.length (pretty n) = length (bytes (pretty n))) as Hlen.
  { pose proof (str_len_bytes (pretty n)) as E. unfold str_len in E. lia. }
  rewrite (read_digits_decimal _ _ _ _ _ n); [|done|lia|done]. cbn [mbind option_bind].
  rewrite bool_decide_eq_false_2; [done|]. intros E. apply Hne. apply bytes_nil. by destruct (bytes (pretty n)).
Qed.

Lemma socket_v4_text ip p :
  0 ≤ ip < 2 ^ 32 → 0 ≤ p ≤ U16_MAX → parse_socket_addr (ipv4_to_string ip +:+ ":" +:+ pretty p) = Some (SocketV4 ip p).
Proof.
  intros Hip Hp. unfold parse_socket_addr, read_socket_v4. rewrite read_ipv4_text by done. cbn [mbind option_bind].
  unfold read_port. change (":" +:+ pretty p) with (String ":" (pretty p)). cbn [read_given_char].
  rewrite Ascii.eqb_refl. cbn [mbind option_bind]. by rewrite read_unbounded_pretty.
Qed.

(** ** Addresses that are dialled *)

Lemma ipv4_text_not_blank ip : 0 ≤ ip < 2 ^ 32 → str_is_empty (trim (ipv4_to_string ip)) = false.
Proof.
  intros Hip. destruct (str_is_empty _) eqn:E; [|done]. rewrite trim_is_empty in E.
  pose proof (parse_ip_to_string (V4 ip) Hip) as Hp. simpl in Hp.
  assert (visible (ipv4_to_string ip)) as Hv.
  { pose proof (socket_v4_text ip 1 Hip) as Hs. rewrite <-str_app_assoc in Hs.
    assert (is_Some (parse_socket_addr ((ipv4_to_string ip +:+ ":") +:+ pretty 1))) as Hv
      by (rewrite Hs by (unfold U16_MAX; lia); by eexists).
    apply socket_addr_visible in Hv. by rewrite !visible_app in Hv; destruct Hv as [[? _] _]. }
  destruct (ipv4_to_string ip) as [|b s] eqn:Et; [done|]. rewrite (chars_visible _ Hv) in E.
  change (bytes (String b s)) with (b :: bytes s) in E. simpl in E. apply andb_true_iff in E as [E _].
  apply Forall_cons_1 in Hv as [Hb _]. by rewrite visible_not_whitespace in E.
Qed.

Lemma parse_ip_v4 s ip : parse_ip s = Some (V4 ip) → 0 ≤ ip < 2 ^ 32.
Proof. intros Hp. by apply parse_ip_ok in Hp. Qed.

Lemma address_new_ipv4 ip p a :
  0 ≤ ip < 2 ^ 32 → address_new (ipv4_to_string ip) p = Ok a ↔ p ≠ 0 ∧ a = mkEndpointAddress (ipv4_to_string ip) p.
Proof.
  intros Hip. unfold address_new. rewrite ipv4_text_not_blank by done.
  destruct (Z.eqb_spec p 0); [by split; [|intros []]|]. split; [by intros [= <-]|by intros [_ ->]].
Qed.

Lemma dialled_ok e p c ip b : dialled e p c = Ok (ip, b) ↔
  ∃ port, server_port (profile_kind p) c = Some port ∧ parse_ip (host (endpoint_address e)) = Some (V4 ip) ∧
    port ≠ 0 ∧ b = mkBypass (ipv4_to_string ip) port.
Proof.
  unfold dialled, plan_error. destruct (server_port (profile_kind p) c) as [port|]; [|by split; [|intros (? & ? & _)]].
  cbn [ok_or mbind result_bind]. destruct (parse_ip _) as [[ip'|ip']|] eqn:Ep; [|by split; [|intros (? & _ & ? & _)]..].
  pose proof (parse_ip_v4 _ _ Ep) as Hip. destruct (address_new (ipv4_to_string ip') port) as [a|] eqn:Ea.
  - apply address_new_ipv4 in Ea as [Hp ->]; [|done]. split; [intros [= <- <-]; eauto|].
    by intros (? & [= <-] & [= <-] & _ & ->).
  - split; [done|]. intros (? & [= <-] & [= <-] & Hp & _). exfalso.
    by rewrite (proj2 (address_new_ipv4 ip' port _ Hip) (conj Hp eq_refl)) in Ea.
Qed.

(** Where an outbound goes, if it goes anywhere but through the adapter or directly. *)
Definition dials (o : Outbound) : option (string * Z) :=
  match o with
  | OutHysteria2 h => Some (hy2_server h, hy2_server_port h)
  | Vless v => Some (vless_server v, vless_server_port v)
  | _ => None
  end.

Section PlanLemmas.
Context `{Base64, UuidText, DebugText}.

Lemma hysteria2_dials tag b t br o : hysteria2_outbound tag b t br = Ok o → dials (OutHysteria2 o) = Some (bypass_host b, bypass_port b).
Proof. unfold hysteria2_outbound. intros E. unbind E. by injection E as <-. Qed.

Lemma reality_dials tag b t o : reality_outbound tag b t = Ok o → dials (Vless o) = Some (bypass_host b, bypass_port b).
Proof. unfold reality_outbound. intros E. unbind E. by injection E as <-. Qed.

Lemma leaf_dials cr o : carrier_leaf cr = Ok o → dials o = Some (bypass_host (carrier_endpoint cr), bypass_port (carrier_endpoint cr)).
Proof.
  unfold carrier_leaf. destruct (carrier_transport cr); intros E; unbind E; injection E as <-;
    [by eapply hysteria2_dials|by eapply reality_dials].
Qed.

Lemma leaves_elem crs os o : leaves crs = Ok os → o ∈ os → ∃ cr, cr ∈ crs ∧ carrier_leaf cr = Ok o.
Proof.
  revert os. induction crs as [|cr crs IH]; intros os E; simpl in E; [injection E as <-; set_solver|].
  unbind E. injection E as <-. intros [->|Ho]%elem_of_cons; [exists cr; set_solver|].
  destruct (IH _ Hu0 Ho) as (cr' & ? & ?). exists cr'. set_solver.
Qed.

(** The leaves of a session: the carriers the endpoint has, each dialling its own port. *)
Lemma session_leaves_ok c client ip kinds ls : 0 ≤ ip < 2 ^ 32 → session_leaves c client ip kinds = Ok ls →
  map leaf_kind ls = map fst (List.filter (fun k => bool_decide (is_Some (transport_for k.2 c client)) &&
    bool_decide (is_Some (server_port k.2 c))) kinds) ∧
  ∀ l, l ∈ ls → ∃ k port, k ∈ kinds ∧ leaf_kind l = k.1 ∧ transport_for k.2 c client = Some (leaf_transport l) ∧
    server_port k.2 c = Some port ∧ port ≠ 0 ∧ leaf_bypass l = mkBypass (ipv4_to_string ip) port.
Proof.
  intros Hip. revert ls. induction kinds as [|[k pk] kinds IH]; intros ls; cbn [session_leaves].
  { intros [= <-]. split; [done|]. set_solver. }
  cbn [List.filter snd]. destruct (transport_for pk c client) as [t|] eqn:Et.
  2: { rewrite bool_decide_eq_false_2 by (by intros []). intros E%IH. destruct E as [E1 E2]. split; [done|].
       intros l (k' & q & ? & ?)%E2. exists k', q. set_solver. }
  rewrite bool_decide_eq_true_2 by eauto. destruct (server_port pk c) as [q|] eqn:Eq.
  2: { rewrite bool_decide_eq_false_2 by (by intros []). intros E%IH. destruct E as [E1 E2]. split; [done|].
       intros l (k' & q & ? & ?)%E2. exists k', q. set_solver. }
  rewrite bool_decide_eq_true_2 by eauto. destruct (address_new _ q) as [a|] eqn:Ea; [|done].
  apply address_new_ipv4 in Ea as [Hq ->]; [|done]. intros E. unbind E. injection E as <-.
  destruct (IH _ Hu) as [E1 E2]. simpl. rewrite E1. split; [done|].
  intros l [->|Hl]%elem_of_cons.
  - exists (k, pk), q. simpl. set_solver.
  - destruct (E2 l Hl) as (k' & q' & ? & ?). exists k', q'. set_solver.
Qed.

Lemma transport_and_port kind c client : kind ≠ AmneziaWg → is_Some (transport_for kind c client) ↔ is_Some (server_port kind c).
Proof.
  destruct kind; [done|..]; intros _; simpl.
  - destruct (Credentials.hysteria2 c); split; intros []; eauto; done.
  - destruct (Credentials.reality c); split; intros []; eauto; done.
Qed.
End PlanLemmas.

Section PlanResults.
Context `{Base64, UuidText, DebugText}.

(** The carriers an endpoint has. *)
Definition has_carrier (c : EndpointCredentials) (k : CarrierKind) : Prop :=
  match k with
  | CarrierHysteria2 => is_Some (Credentials.hysteria2 c)
  | CarrierReality => is_Some (Credentials.reality c)
  end.

(** What is known of the session of a plan. *)
Definition session_sound (i : PlanInputs) (rules : list RoutingRule) (ip : Z) (config : PrimaryCoreConfig) (info : SessionInfo) : Prop :=
  route_chain (route config) = route_rules rules ∧
  info_active info ∈ info_carriers info ∧ NoDup (info_carriers info) ∧
  (∀ k, k ∈ info_carriers info ↔ has_carrier (in_credentials i) k) ∧
  (info_active info = match profile_kind (in_profile i) with VlessReality => CarrierReality | _ => CarrierHysteria2 end) ∧
  (∀ o h p, o ∈ outbounds config → dials o = Some (h, p) →
     h = ipv4_to_string ip ∧ ∃ kind, server_port kind (in_credentials i) = Some p).

Lemma session_kinds c client ip ls :
  0 ≤ ip < 2 ^ 32 → session_leaves c client ip [(CarrierHysteria2, Hysteria2); (CarrierReality, VlessReality)] = Ok ls →
  NoDup (map leaf_kind ls) ∧ ∀ k, k ∈ map leaf_kind ls ↔ has_carrier c k.
Proof.
  intros Hip [-> _]%session_leaves_ok; [|done]. simpl.
  destruct (Credentials.hysteria2 c) as [h|] eqn:Eh, (Credentials.reality c) as [r|] eqn:Er; simpl;
    (split; [refine (bool_decide_unpack _ _); vm_compute; exact I|]); intros []; unfold has_carrier; rewrite ?Eh, ?Er; simpl;
    rewrite ?elem_of_cons, ?elem_of_nil; split; intros; try done; eauto; naive_solver.
Qed.

Lemma session_carrier_kinds c client ip kinds p ls :
  0 ≤ ip < 2 ^ 32 → session_leaves c client ip kinds = Ok ls →
  (∀ k, k ∈ kinds → k = (CarrierHysteria2, Hysteria2) ∨ k = (CarrierReality, VlessReality)) →
  map (carrier_kind ∘ session_carrier p) ls = map leaf_kind ls.
Proof.
  intros Hip Hls Hk. apply map_ext_in. intros l Hl%list_elem_of_In. apply session_leaves_ok in Hls as [_ Hls]; [|done].
  destruct (Hls l Hl) as (k & q & Hin & -> & Ht & _). unfold carrier_kind. simpl.
  destruct (Hk k Hin) as [-> | ->]; simpl in *.
  - destruct (Credentials.hysteria2 _); [|done]. by injection Ht as <-.
  - destruct (Credentials.reality _); [|done]. by injection Ht as <-.
Qed.

Lemma both_kinds k : k ∈ [(CarrierHysteria2, Hysteria2); (CarrierReality, VlessReality)] →
  k = (CarrierHysteria2, Hysteria2) ∨ k = (CarrierReality, VlessReality).
Proof. rewrite !elem_of_cons, elem_of_nil. naive_solver. Qed.

Lemma session_config_sound i ip control config info :
  0 ≤ ip < 2 ^ 32 → session_config i ip control = Ok (config, info) →
  info_control info = control ∧ session_sound i (in_rules i) ip config info.
Proof.
  intros Hip. unfold session_config. intros E. unbind E. cbv zeta in E. unbind E. injection E as <- <-.
  split; [done|]. unfold session_sound. simpl.
  destruct (session_kinds _ _ _ _ Hip Hu1) as [Hnd Hk].
  pose proof (session_carrier_kinds _ _ _ _ (in_profile i) _ Hip Hu1 both_kinds) as Ekinds.
  apply session_leaves_ok in Hu1 as [_ Hls]; [|done].
  unfold for_plan in Hu2. destruct (generate_session_config _) as [cfg|] eqn:Eg; [|done]. injection Hu2 as ->.
  unfold generate_session_config in Eg. unbind Eg. injection Eg as <-. simpl in *.
  destruct u3. apply validate_session_ok in Hu1 as (_ & _ & Ha & _). simpl in Ha. rewrite map_map in Ha.
  change (map (fun l => carrier_kind (session_carrier (in_profile i) l)) u1) with
    (map (carrier_kind ∘ session_carrier (in_profile i)) u1) in Ha.
  rewrite Ekinds in Ha.
  split_and!; try done.
  - destruct (profile_kind (in_profile i)); try done; by injection Hu0 as <-.
  - intros o h q [Ho|Ho]%elem_of_app Hd.
    + destruct (leaves_elem _ _ _ Hu2 Ho) as (cr & Hcr & Hleaf). apply leaf_dials in Hleaf. rewrite Hleaf in Hd.
      injection Hd as <- <-. apply elem_of_map in Hcr as (l & -> & Hl). simpl.
      destruct (Hls l Hl) as (k & q & _ & _ & _ & Hq & _ & ->).
      simpl. eauto.
    + rewrite !elem_of_cons, elem_of_nil in Ho. by destruct Ho as [-> |[-> |[]]].
Qed.
End PlanResults.

Section PlanParts.
Context `{Base64, UuidText, DebugText}.

(** The tunnel of an AmneziaWG plan. *)
Definition awg_tunnel (ip : Z) (a : AmneziaWgCredentials) : AwgTunnel :=
  mkAwgTunnel (V4 (client_address a)) (tunnel_prefix_len a) (client_private_key a) (obfuscation a)
    (mkPeer (awg_server_public_key a) (ipv4_to_string ip +:+ ":" +:+ pretty (awg_server_port a)) ["0.0.0.0/0"] (Some 25)).

Definition dials_only (c : EndpointCredentials) (ip : Z) (config : PrimaryCoreConfig) : Prop :=
  ∀ o h p, o ∈ outbounds config → dials o = Some (h, p) → h = ipv4_to_string ip ∧ ∃ kind, server_port kind c = Some p.

Lemma primary_dials p b rules adapter t fakeip config o h q :
  generate_primary_core_config (mkPrimaryInput p b rules adapter t fakeip) = Ok config → o ∈ outbounds config →
  dials o = Some (h, q) → h = bypass_host b ∧ q = bypass_port b.
Proof.
  unfold generate_primary_core_config. intros ([proxy srv] & Hp & E)%bind_Ok. injection E as <-.
  cbn [CoreConfig.outbounds CoreConfig.active_profile CoreConfig.endpoint_bypass CoreConfig.amneziawg_adapter
    CoreConfig.primary_transport] in *.
  rewrite !elem_of_cons, elem_of_nil. intros [->|[->|[]]]; [|done]. intros Hd. destruct (profile_kind p).
  - destruct adapter; cbn [ok_or mbind result_bind] in Hp; [|done]. injection Hp as <- <-. discriminate Hd.
  - destruct t as [[t|]|]; try done. unbind Hp. injection Hp as <- <-. apply hysteria2_dials in Hu. rewrite Hu in Hd.
    by injection Hd as <- <-.
  - destruct t as [[|t]|]; try done. unbind Hp. injection Hp as <- <-. apply reality_dials in Hu. rewrite Hu in Hd.
    by injection Hd as <- <-.
Qed.

Lemma plan_parts new_ids fresh i control plan :
  plan_tunnel_with new_ids fresh i control = Some (Ok plan) →
  let c := in_credentials i in let kind := profile_kind (in_profile i) in
  ∃ ip port out,
    server_port kind c = Some port ∧ parse_ip (host (endpoint_address (in_endpoint i))) = Some (V4 ip) ∧ port ≠ 0 ∧
    plan_bypass plan = mkBypass (ipv4_to_string ip) port ∧ plan_core plan = core_binding kind ∧
    with_active_endpoint new_ids (in_rules i) (endpoint_address (in_endpoint i)) = Some (Ok out) ∧
    route_chain (route (plan_config plan)) = route_rules out ∧ dials_only c ip (plan_config plan) ∧
    if carried_by_session kind c then
      plan_awg plan = None ∧ ∃ info, plan_session plan = Some info ∧ session_sound i out ip (plan_config plan) info
    else
      plan_session plan = None ∧
      plan_awg plan = match kind with AmneziaWg => awg_tunnel ip <$> amneziawg c | _ => None end.
Proof.
  cbv zeta. unfold plan_tunnel_with. destruct (dialled _ _ _) as [[ip b]|] eqn:Ed; [|done].
  apply dialled_ok in Ed as (port & Hport & Hip & Hz & ->). pose proof (parse_ip_v4 _ _ Hip) as Hr.
  intros (completed & Hout & E)%bind_Some. injection E as E. destruct completed as [out|]; [|done]. cbn [mbind result_bind] in E.
  exists ip, port, out. destruct (carried_by_session _ _).
  - destruct (match control with Some control => Ok control | None => fresh end) as [ch|]; [|done].
    cbn [mbind result_bind] in E. destruct (session_config _ ip ch) as [[config info]|] eqn:Es; [|done].
    cbn [mbind result_bind] in E. injection E as <-. apply session_config_sound in Es as [_ Hs]; [|done]. simpl in *.
    pose proof Hs as (Hch & _ & _ & _ & _ & Hd). split_and!; try done. exists info. split; [done|].
    destruct Hs as (? & ? & ? & ? & ? & ?). by split_and!.
  - unfold for_plan in E. destruct (generate_primary_core_config _) as [config|] eqn:Eg; [|done].
    cbn [mbind result_bind] in E. injection E as <-. simpl. pose proof (primary_parts _ _ Eg) as (? & ? & _ & _ & _ & _ & _ & Hch & _).
    split_and!; try done.
    + intros o h q Ho Hd. destruct (primary_dials _ _ _ _ _ _ _ _ _ _ Eg Ho Hd) as [-> ->]. simpl. eauto.
Qed.
End PlanParts.

(** A rule set made for an endpoint is of the rules it was made from. *)
Lemma completed_writable new_ids rules endpoint m out r :
  endpoint_matcher endpoint = Some m → (∀ r, r ∈ rules → is_builtin r = true → action r = Bypass → matcher r ≠ m) →
  with_active_endpoint new_ids rules endpoint = Some (Ok out) → is_Some (parse_ip (host endpoint)) → r ∈ out →
  (∃ r', r' ∈ rules ∧ matcher r = matcher r') ∨ ∃ cidr, matcher r = Cidr cidr ∧ cidr_ok cidr.
Proof.
  intros Hm Hnew Hout [ip Hip] Hr. destruct (with_active_endpoint_inv _ _ _ _ _ Hm Hnew Hout) as (-> & _).
  apply elem_of_app in Hr as [(r' & -> & Hr')%elem_of_map|Hr].
  - left. exists r'. split; [done|]. by destruct (make_room_same r') as (-> & _).
  - right. apply list_elem_of_singleton in Hr as ->. simpl. unfold endpoint_matcher in Hm. rewrite Hip in Hm.
    destruct (cidr_parse _) as [cidr|] eqn:Ec; [|done]. simpl in Hm. injection Hm as <-. exists cidr.
    split; [done|]. by eapply cidr_parse_ok.
Qed.

(** ** Plans that succeed *)

Section Usable.
Context `{Base64, UuidText, DebugText}.

Lemma brutal_irrelevant tag b t br :
  is_ok (hysteria2_outbound tag b t None) = true → is_ok (brutal_bandwidth br) = true →
  is_ok (hysteria2_outbound tag b t br) = true.
Proof.
  unfold hysteria2_outbound. destruct (validate_credentials _); [|done]. destruct (obfs_section _ _); [|done].
  destruct (verified_by _); [|done]. cbn [mbind result_bind]. by destruct (brutal_bandwidth br).
Qed.

(** What secrets that were checked give is accepted under any tag, at any address. *)
Lemma transport_accepted kind c client t tag b br :
  validate_bundle c = Ok () → transport_for kind c client = Some t → is_ok (brutal_bandwidth br) = true →
  match t with
  | CarriedByHysteria2 t => kind = Hysteria2 ∧ is_ok (hysteria2_outbound tag b t br) = true
  | CarriedByReality t => kind = VlessReality ∧ is_ok (reality_outbound tag b t) = true
  end.
Proof.
  intros (_ & Hh & Hr & _)%bundle_parts Ht Hb. destruct kind; simpl in Ht; [done|..].
  - destruct (Credentials.hysteria2 c) as [h|]; [|done]. injection Ht as <-. split; [done|]. apply brutal_irrelevant; [|done].
    by apply valid_hysteria2, Hh.
  - destruct (Credentials.reality c) as [r|]; [|done]. injection Ht as <-. split; [done|]. by apply valid_reality, Hr.
Qed.

Lemma server_port_nonzero kind c p : validate_bundle c = Ok () → server_port kind c = Some p → p ≠ 0.
Proof.
  intros (Ha & Hh & Hr & _)%bundle_parts. destruct kind; simpl.
  - destruct (amneziawg c) as [a|]; [|done]. intros [= <-]. by apply valid_awg, Ha.
  - destruct (Credentials.hysteria2 c) as [h|]; [|done]. intros [= <-].
    by apply (valid_hysteria2 h "" (mkBypass "" 0) hysteria2_client_default), Hh.
  - destruct (Credentials.reality c) as [r|]; [|done]. intros [= <-].
    by apply (valid_reality r "" (mkBypass "" 0) (mkRealityClient Chrome)), Hr.
Qed.

Lemma session_leaves_total c client ip kinds :
  0 ≤ ip < 2 ^ 32 → validate_bundle c = Ok () → ∃ ls, session_leaves c client ip kinds = Ok ls.
Proof.
  intros Hip Hv. induction kinds as [|[k pk] kinds [ls IH]]; cbn [session_leaves]; [by eexists|].
  destruct (transport_for pk c client); [|by eexists]. destruct (server_port pk c) as [q|] eqn:Eq; [|by eexists].
  rewrite (proj2 (address_new_ipv4 ip q _ Hip) (conj (server_port_nonzero _ _ _ Hv Eq) eq_refl)). rewrite IH. by eexists.
Qed.

Lemma carrier_leaf_accepted kind c client t b br :
  validate_bundle c = Ok () → transport_for kind c client = Some t → is_ok (brutal_bandwidth br) = true →
  is_ok (carrier_leaf (CoreConfig.mkCarrier t b br)) = true.
Proof.
  intros Hv Ht Hb. unfold carrier_leaf. cbn [carrier_transport carrier_endpoint carrier_brutal].
  set (tag := carrier_tag _). pose proof (transport_accepted _ _ _ _ tag b br Hv Ht Hb) as Hok. clearbody tag.
  destruct t as [t|t]; destruct Hok as [_ Hok]; [by destruct (hysteria2_outbound _ _ _ _)|by destruct (reality_outbound _ _ _)].
Qed.

Lemma leaves_total crs : (∀ cr, cr ∈ crs → is_ok (carrier_leaf cr) = true) → ∃ os, leaves crs = Ok os.
Proof.
  induction crs as [|cr crs IH]; intros Hall; simpl; [by eexists|].
  pose proof (Hall cr ltac:(set_solver)) as Hc. destruct (carrier_leaf cr); [|done]. simpl.
  destruct IH as [os ->]; [set_solver|]. by eexists.
Qed.

(** A control channel as it is made. *)
Definition channel_ok (ch : ControlChannel) : Prop := channel_port ch ≠ 0 ∧ secret_ok (channel_secret ch).

Lemma session_config_total i ip ch :
  0 ≤ ip < 2 ^ 32 → validate_bundle (in_credentials i) = Ok () → carried_by_session (profile_kind (in_profile i)) (in_credentials i) = true →
  is_Some (server_port (profile_kind (in_profile i)) (in_credentials i)) →
  is_ok (brutal_bandwidth (profile_brutal (in_profile i))) = true → channel_ok ch →
  ∃ r, session_config i ip ch = Ok r.
Proof.
  intros Hip Hv Hc Hport Hb [Hcp [_ Hcs]]. set (c := in_credentials i) in *. set (kind := profile_kind (in_profile i)) in *.
  unfold carried_by_session in Hc. apply andb_true_iff in Hc as [Hk Hsome]. apply bool_decide_eq_true in Hsome as [s Es].
  apply negb_true_iff, bool_decide_eq_false in Hk. unfold session_config. fold c kind. rewrite Es. cbn [ok_or mbind result_bind].
  pose proof (bundle_parts _ Hv) as (_ & _ & _ & Hs). destruct (valid_session _ _ (Hs _ Es)) as [_ Hparts].
  set (active := match kind with VlessReality => CarrierReality | _ => CarrierHysteria2 end).
  assert ((match kind with Hysteria2 => Ok CarrierHysteria2 | VlessReality => Ok CarrierReality
           | AmneziaWg => plan_error "AmneziaWG does not run over the session" end) = Ok active) as ->
    by (subst active; by destruct kind).
  cbn [mbind result_bind]. destruct (session_leaves_total c (in_client i) ip [(CarrierHysteria2, Hysteria2); (CarrierReality, VlessReality)] Hip Hv)
    as [ls Els]. rewrite Els. cbn [mbind result_bind]. cbv zeta.
  destruct (session_kinds _ _ _ _ Hip Els) as [Hnd Hkinds].
  pose proof (session_carrier_kinds _ _ _ _ (in_profile i) _ Hip Els both_kinds) as Ekinds.
  assert (active ∈ map leaf_kind ls) as Hact.
  { apply Hkinds. subst active. destruct kind; [done|..]; simpl in *; destruct Hport as [q Hq].
    - destruct (Credentials.hysteria2 c); [by eexists|done].
    - destruct (Credentials.reality c); [by eexists|done]. }
  destruct (leaves_total (map (session_carrier (in_profile i)) ls)) as [os Eos].
  { intros cr (l & -> & Hl)%elem_of_map. apply session_leaves_ok in Els as [_ Hls]; [|done].
    destruct (Hls l Hl) as (k & q & _ & _ & Ht & _). unfold session_carrier. eapply carrier_leaf_accepted; [done..|].
    by destruct (_ && _). }
  unfold generate_session_config. rewrite (proj2 (validate_session_ok _)).
  - cbn [mbind result_bind carriers]. rewrite Eos. by eexists.
  - unfold session_ok. cbn [carriers active_carrier CoreConfig.control control_port control_secret device_private_key server_public_key
      device_address session_port]. rewrite map_map. change (map (fun l => carrier_kind (session_carrier (in_profile i) l)) ls) with
      (map (carrier_kind ∘ session_carrier (in_profile i)) ls). rewrite Ekinds.
    apply check_session_parts_ok in Hparts as (? & ? & ? & ?). split_and!; try done. destruct ls; [|done]. simpl in Hact. set_solver.
Qed.

Lemma primary_total p b c client rules fakeip :
  validate_bundle c = Ok () → is_Some (server_port (profile_kind p) c) → is_ok (brutal_bandwidth (profile_brutal p)) = true →
  ∃ config, generate_primary_core_config (mkPrimaryInput p b rules
    (if bool_decide (profile_kind p = AmneziaWg) then Some AMNEZIAWG_ADAPTER else None)
    (transport_for (profile_kind p) c client) fakeip) = Ok config.
Proof.
  intros Hv Hport Hb. unfold generate_primary_core_config. cbn [CoreConfig.active_profile CoreConfig.endpoint_bypass
    CoreConfig.amneziawg_adapter CoreConfig.primary_transport]. set (kind := profile_kind p) in *.
  destruct (transport_for kind c client) as [t|] eqn:Et.
  - pose proof (transport_accepted _ _ _ _ PROXY_TAG b _ Hv Et Hb) as Hok. clearbody kind.
    destruct t as [t|t]; destruct Hok as [-> Hok]; simpl bool_decide.
    + destruct (hysteria2_outbound _ _ _ _); [|done]. by eexists.
    + destruct (reality_outbound _ _ _); [|done]. by eexists.
  - clearbody kind. destruct (decide (kind = AmneziaWg)) as [->|E]; [by eexists|].
    apply (transport_and_port kind c client) in Hport as [? ?]; [|done]. congruence.
Qed.

Lemma awg_tunnel_configures c a ip :
  validate_bundle c = Ok () → amneziawg c = Some a → 0 ≤ ip < 2 ^ 32 → 0 ≤ awg_server_port a ≤ U16_MAX →
  let t := awg_tunnel ip a in
  is_ok (build_set_device (tunnel_private_key t) (tunnel_obfuscation t) (tunnel_peer t)) = true.
Proof.
  intros (Ha & _)%bundle_parts Ea Hip Hp. cbv zeta. destruct (valid_awg a (Ha _ Ea)) as (_ & Hk & _ & _ & Hn).
  assert (is_Some (parse_socket_addr (ipv4_to_string ip +:+ ":" +:+ pretty (awg_server_port a)))) as Hs
    by (rewrite socket_v4_text by done; by eexists).
  erewrite (proj2 (build_set_device_spec _ _ _ _)); [done|]. split; [|reflexivity]. split_and!; try done.
  - by apply lower_hex_not_blank.
  - by apply socket_addr_not_blank.
Qed.

Lemma probe_job_total username password p e c client port ip b :
  validate_bundle c = Ok () → dialled e p c = Ok (ip, b) → profile_kind p ≠ AmneziaWg →
  is_ok (brutal_bandwidth (profile_brutal p)) = true → username ≠ EmptyString → password ≠ EmptyString → port ≠ 0 →
  is_ok (probe_job username password p e c client port) = true.
Proof.
  intros Hv Hd Hk Hb Hu Hw Hport. unfold probe_job. rewrite Hd. cbn [mbind result_bind].
  apply dialled_ok in Hd as (q & Hq & _). set (kind := profile_kind p) in *.
  destruct (proj2 (transport_and_port kind c client Hk)) as [t Et]; [by eexists|]. rewrite Et. cbn [ok_or mbind result_bind].
  assert (check_proxy (mkSocksAuth username (mkSecret password)) port = Ok ()) as Hproxy.
  { unfold check_proxy, str_is_empty. destruct (Z.eqb_spec port 0); [done|]. simpl.
    destruct (String.eqb_spec username EmptyString); [done|]. by destruct (String.eqb_spec password EmptyString). }
  destruct (carried_by_session kind c) eqn:Ec.
  - unfold carried_by_session in Ec. apply andb_true_iff in Ec as [_ Hs]. apply bool_decide_eq_true in Hs as [s Es].
    rewrite Es. destruct (bundle_parts _ Hv) as (_ & _ & _ & Hs). destruct (valid_session _ _ (Hs _ Es)) as [_ Hparts].
    unfold probe_job_new_session, generate_session_probe_config. cbn [sp_auth sp_socks_port sp_device_private_key
      sp_server_public_key sp_device_address sp_session_port sp_carrier]. rewrite Hproxy, Hparts. cbn [mbind result_bind].
    pose proof (carrier_leaf_accepted _ _ _ _ b _ Hv Et Hb) as Hl. by destruct (carrier_leaf _).
  - unfold probe_job_new, generate_probe_config. cbn [socks_auth socks_port probe_profile probe_transport probe_endpoint].
    rewrite Hproxy. cbn [mbind result_bind]. fold kind.
    pose proof (transport_accepted _ _ _ _ PROXY_TAG b _ Hv Et Hb) as Hok. clearbody kind.
    destruct t as [t|t]; destruct Hok as [-> Hok]; [by destruct (hysteria2_outbound _ _ _ _)|by destruct (reality_outbound _ _ _)].
Qed.

End Usable.

(** ** What the assessment finds *)

Section Assessed.
Context {S : Type} `{SecretStore S EndpointCredentials}.

(** The secrets that are stored for an endpoint. *)
Definition holds (secrets : S) (e : Endpoint) (c : EndpointCredentials) : Prop :=
  ∃ key, secret_key_parse (endpoint_credentials e) = Ok key ∧ secret_get key secrets = Ok (Some c).

Ltac no := split; [done|intros (? & ? & (? & ? & ?) & ? & ?); congruence].

Lemma no_problem e secrets : endpoint_problem e secrets = None ↔
  ∃ c ip, holds secrets e c ∧ is_Some (measure_origin c) ∧ parse_ip (host (endpoint_address e)) = Some (V4 ip).
Proof.
  unfold endpoint_problem, holds. cbv zeta. destruct (secret_key_parse _) as [key|]; [|no].
  destruct (secret_get key secrets) as [[c|]|] eqn:Eg; [|no..].
  destruct (measure_origin c) as [o|] eqn:Eo.
  - rewrite bool_decide_eq_true_2 by eauto. simpl. destruct (parse_ip _) as [[ip|ip]|]; [|no..].
    split; [|done]. intros _. exists c, ip. split; [by exists key|]. by rewrite Eo.
  - rewrite bool_decide_eq_false_2 by (by intros []). split; [done|]. intros (c' & ip & (k & Hk & Hc) & [o Ho] & _).
    congruence.
Qed.

Lemma endpoint_kinds_ok e secrets kinds : endpoint_kinds e secrets = Ok kinds ↔
  endpoint_problem e secrets = None ∧ ∃ c, holds secrets e c ∧
    kinds = List.filter (fun k => bool_decide (is_Some (server_port k c))) [AmneziaWg; Hysteria2; VlessReality].
Proof.
  unfold endpoint_kinds. destruct (endpoint_problem e secrets) eqn:Ep; [by split; [|intros [? _]]|].
  pose proof (proj1 (no_problem e secrets) Ep) as (c & ip & (key & Hk & Hc) & _). rewrite Hk. cbn [mbind option_bind]. rewrite Hc. cbn [mbind option_bind default].
  split.
  - intros [= <-]. split; [done|]. exists c. split; [by exists key|done].
  - intros (_ & c' & (key' & Hk' & Hc') & ->). rewrite Hk in Hk'. injection Hk' as <-. rewrite Hc in Hc'. by injection Hc' as <-.
Qed.

Lemma add_kinds kinds served :
  NoDup served → NoDup (fold_left add_kind kinds served) ∧
  ∀ k, k ∈ fold_left add_kind kinds served ↔ k ∈ served ∨ k ∈ kinds.
Proof.
  revert served. induction kinds as [|kind kinds IH]; intros served Hnd; simpl.
  { split; [done|]. intros k. rewrite elem_of_nil. tauto. }
  destruct (decide (kind ∈ served)) as [Hin|Hin].
  - assert (add_kind served kind = served) as -> by (unfold add_kind; by rewrite bool_decide_eq_true_2).
    destruct (IH served Hnd) as [H1 H2]. split; [done|]. intros k. rewrite H2. set_solver.
  - assert (add_kind served kind = served ++ [kind]) as -> by (unfold add_kind; by rewrite bool_decide_eq_false_2).
    destruct (IH (served ++ [kind])) as [H1 H2].
    { apply NoDup_app. split_and!; [done|set_solver|by apply NoDup_singleton]. }
    split; [done|]. intros k. rewrite H2. set_solver.
Qed.

Lemma assess_from es secrets a : NoDup (served a) →
  let r := fold_left (assess_one secrets) es a in
  usable r = usable a ++ List.filter (fun e => bool_decide (endpoint_problem e secrets = None)) es ∧
  problems r = problems a ++ omap (fun e => endpoint_problem e secrets) es ∧
  NoDup (served r) ∧
  ∀ kind, kind ∈ served r ↔ kind ∈ served a ∨
    ∃ e c, e ∈ es ∧ endpoint_problem e secrets = None ∧ holds secrets e c ∧ is_Some (server_port kind c).
Proof.
  revert a. induction es as [|e es IH]; intros a Hnd; cbv zeta; cbn [fold_left].
  { rewrite !app_nil_r. split_and!; try done. set_solver. }
  cbn [List.filter omap list_omap]. unfold assess_one at 2 4 6 8.
  destruct (endpoint_kinds e secrets) as [kinds|problem] eqn:Ek.
  - apply endpoint_kinds_ok in Ek as (Ep & c & Hc & Ekinds). destruct (add_kinds kinds (served a) Hnd) as [Hnd' Hin].
    destruct (IH (mkAssessment (usable a ++ [e]) (problems a) (fold_left add_kind kinds (served a))) Hnd') as (-> & -> & H3 & H4).
    rewrite Ep. rewrite bool_decide_eq_true_2 by done. cbn [usable problems served] in *. rewrite <-app_assoc. split_and!; try done.
    intros kind. rewrite H4, Hin, Ekinds, elem_of_filter_bool, bool_decide_eq_true. split.
    + intros [[?|[_ ?]]|(e' & c' & ? & ?)]; [by left|right; exists e, c; set_solver|right; exists e', c'; set_solver].
    + intros [?|(e' & c' & [->|He']%elem_of_cons & Hp & Hc' & Hs)]; [by left; left| |right; by exists e', c'].
      left. right. destruct Hc as (k1 & E1 & E2), Hc' as (k2 & E3 & E4). assert (c' = c) as -> by congruence.
      split; [destruct kind; set_solver|done].
  - unfold endpoint_kinds in Ek. destruct (endpoint_problem e secrets) as [p'|] eqn:Ep; [|done]. injection Ek as ->.
    destruct (IH (mkAssessment (usable a) (problems a ++ [problem]) (served a)) Hnd) as (-> & -> & H3 & H4).
    rewrite bool_decide_eq_false_2 by done. cbn [usable problems served] in *. rewrite <-app_assoc. split_and!; try done.
    intros kind. rewrite H4. split; [intros [?|(e' & c' & ? & ?)]; [by left|right; exists e', c'; set_solver]|].
    intros [?|(e' & c' & [->|He']%elem_of_cons & Hp & Hr)]; [by left|congruence|right; by exists e', c'].
Qed.
End Assessed.

(** * Properties *)

(** C28. A planned connection goes where it was meant to and cannot loop. Everything that is dialled is dialled at the endpoint's
    own address, on a port that its secrets give; an AmneziaWG plan, and no other, has a tunnel, whose peer is that
    address and port; a plan over the session, and no other, has its carriers, exactly those the endpoint has, and
    starts on the profile's; and for a held rule set that passed its checks, the core is told to send the connections
    to the endpoint itself around the tunnel, whatever the other rules say, and to capture every query for a name. *)
Theorem planned_connection_is_sound `{Base64, UuidText, DebugText, ToLowercase} new_ids fresh i control plan m
    (Hports : ∀ kind p, server_port kind (in_credentials i) = Some p → 0 ≤ p ≤ U16_MAX)
    (Hm : endpoint_matcher (endpoint_address (in_endpoint i)) = Some m)
    (Hnew : ∀ r, r ∈ in_rules i → is_builtin r = true → action r = Bypass → matcher r ≠ m)
    (Hset : validate_rule_set (in_rules i) = Ok ())
    (Hrules : ∀ r, r ∈ in_rules i → 0 ≤ precedence r ∧ writable r)
    (Hplan : plan_tunnel_with new_ids fresh i control = Some (Ok plan)) :
  let c := in_credentials i in let kind := profile_kind (in_profile i) in
  ∃ ip port,
    parse_ip (host (endpoint_address (in_endpoint i))) = Some (V4 ip) ∧ server_port kind c = Some port ∧
    plan_bypass plan = mkBypass (ipv4_to_string ip) port ∧ dials_only c ip (plan_config plan) ∧
    (match plan_awg plan with
     | Some t => kind = AmneziaWg ∧ parse_socket_addr (peer_endpoint (tunnel_peer t)) = Some (SocketV4 ip port) ∧
         ∃ a, amneziawg c = Some a ∧ tunnel_private_key t = client_private_key a ∧ tunnel_obfuscation t = obfuscation a
     | None => kind ≠ AmneziaWg
     end) ∧
    (match plan_session plan with
     | Some info => carried_by_session kind c = true ∧ info_active info ∈ info_carriers info ∧ NoDup (info_carriers info) ∧
         (∀ k, k ∈ info_carriers info ↔ has_carrier c k) ∧
         info_active info = match kind with VlessReality => CarrierReality | _ => CarrierHysteria2 end
     | None => carried_by_session kind c = false
     end) ∧
    (∀ flow, core_gives flow → (∀ r, r ∈ in_rules i → same_programs r flow) →
       (flow_port flow = 53 → core_decision (route_chain (route (plan_config plan))) flow = Capture) ∧
       (flow_port flow ≠ 53 → destination flow = Address (V4 ip) →
          core_decision (route_chain (route (plan_config plan))) flow = Bypass)).
Proof.
  cbv zeta. destruct (plan_parts _ _ _ _ _ Hplan) as (ip & port & out & Hport & Hip & _ & Hb & _ & Hout & Hch & Hd & Hs).
  exists ip, port. split_and!; try done.
  - destruct (carried_by_session _ _) eqn:Ec.
    + destruct Hs as [-> _]. intros Ek. by rewrite Ek in Ec.
    + destruct Hs as [_ ->]. destruct (profile_kind (in_profile i)) eqn:Ek; try done. cbn in Hport.
      destruct (amneziawg (in_credentials i)) as [a|] eqn:Ea; [|done]. injection Hport as <-. simpl. split_and!; [done| |by exists a].
      apply socket_v4_text; [by eapply parse_ip_v4|]. apply (Hports AmneziaWg). simpl. by rewrite Ea.
  - destruct (carried_by_session _ _) eqn:Ec; [|by destruct Hs as [-> _]].
    destruct Hs as (_ & info & -> & _ & ? & ? & ? & ? & _). by split_and!.
  - intros flow Hf Hp. rewrite Hch.
    assert (core_decision (route_rules out) flow = decided_action (evaluate out flow)) as ->.
    { apply core_decides. intros r Hr. apply entry_holds; [|done|].
      - destruct (completed_writable _ _ _ _ _ r Hm Hnew Hout ltac:(by rewrite Hip; eexists) Hr) as [(r' & Hr' & E)|(cidr & E & ?)];
          unfold writable; rewrite E; [by apply Hrules|done].
      - destruct (completed_writable _ _ _ _ _ r Hm Hnew Hout ltac:(by rewrite Hip; eexists) Hr) as [(r' & Hr' & E)|(cidr & E & ?)];
          unfold same_programs; rewrite E; [by apply Hp|done]. }
    destruct (active_endpoint_decides _ _ _ _ _ Hm Hnew Hset (λ r Hr, proj1 (Hrules r Hr)) Hout)
      as (Hdns & e & _ & _ & Hact & _ & Hto & Hdec & _).
    split; [by apply Hdns|]. intros Hport53 Hdest. rewrite Hdec; [| |done].
    + unfold decision_of. simpl. done.
    + apply Hto. unfold to_endpoint. rewrite Hip, Hdest. done.
Qed.


(** C29. What can be used can be planned. For secrets that were checked, an endpoint given by an IPv4 address, a profile it has
    secrets for, rules that take the endpoint, and bandwidth that was claimed only with the current acknowledgement,
    there is a plan, whatever the feed says of the client, over the session or not; the tunnel of an AmneziaWG plan
    is one the core is configured with; and every other profile has a probe, on any port and with any tokens. *)
Theorem usable_endpoints_can_be_planned `{Base64, UuidText, DebugText} new_ids fresh i control ch ip rules
    (Hvalid : validate_bundle (in_credentials i) = Ok ())
    (Hip : parse_ip (host (endpoint_address (in_endpoint i))) = Some (V4 ip))
    (Hport : ∃ p, server_port (profile_kind (in_profile i)) (in_credentials i) = Some p ∧ 0 ≤ p ≤ U16_MAX)
    (Hrules : with_active_endpoint new_ids (in_rules i) (endpoint_address (in_endpoint i)) = Some (Ok rules))
    (Hbrutal : is_ok (brutal_bandwidth (profile_brutal (in_profile i))) = true)
    (Hcontrol : channel_ok ch ∧ (control = Some ch ∨ control = None ∧ fresh = Ok ch)) :
  (∃ plan, plan_tunnel_with new_ids fresh i control = Some (Ok plan) ∧
     ∀ t, plan_awg plan = Some t →
       is_ok (build_set_device (tunnel_private_key t) (tunnel_obfuscation t) (tunnel_peer t)) = true) ∧
  (profile_kind (in_profile i) ≠ AmneziaWg → ∀ username password port,
     username ≠ EmptyString → password ≠ EmptyString → port ≠ 0 →
     is_ok (probe_job username password (in_profile i) (in_endpoint i) (in_credentials i) (in_client i) port) = true).
Proof.
  destruct Hport as (p & Hp & Hrange). pose proof (server_port_nonzero _ _ _ Hvalid Hp) as Hz.
  assert (dialled (in_endpoint i) (in_profile i) (in_credentials i) = Ok (ip, mkBypass (ipv4_to_string ip) p)) as Hd
    by (apply dialled_ok; eauto 10).
  pose proof (parse_ip_v4 _ _ Hip) as Hr. split; [|intros; by eapply probe_job_total].
  unfold plan_tunnel_with. rewrite Hd, Hrules. cbn [mbind option_bind result_bind].
  destruct (carried_by_session _ (in_credentials i)) eqn:Ec.
  - assert ((match control with Some control => Ok control | None => fresh end) = Ok ch) as ->
      by (destruct Hcontrol as [_ [-> |[-> ->]]]; done).
    cbn [mbind result_bind]. destruct Hcontrol as [Hch _].
    destruct (session_config_total (mkPlanInputs (in_profile i) (in_endpoint i) (in_credentials i)
      (in_client i) rules (in_fakeip i)) ip ch Hr Hvalid Ec (ex_intro _ _ Hp) Hbrutal Hch) as [[config info] ->].
    cbn [mbind result_bind]. eexists. split; [done|]. by simpl.
  - destruct (primary_total (in_profile i) (mkBypass (ipv4_to_string ip) p) (in_credentials i) (in_client i) rules (in_fakeip i)
      Hvalid (ex_intro _ _ Hp) Hbrutal) as [config ->].
    cbn [for_plan mbind result_bind]. eexists. split; [done|]. simpl. destruct (profile_kind (in_profile i)); [|done..].
    destruct (amneziawg (in_credentials i)) as [a|] eqn:Ea; [|done]. intros t [= <-]. simpl in Hp. rewrite Ea in Hp.
    injection Hp as <-. by eapply (awg_tunnel_configures (in_credentials i)).
Qed.

(** The endpoints and profiles that are offered can serve. Of the endpoints that are configured, in their order, exactly
    those are used whose secrets are stored and readable, name a measurement origin, and whose host is an IPv4
    address, and of each other one it is said why not; a profile is offered exactly when one of the used endpoints has
    secrets for it, unless no endpoint can be used, when the connect fails for that reason and all are; no endpoint is
    touched before connecting on a port that does not answer TCP; and the origin that is measured is inside the session
    for what the session carries, and the endpoint's own otherwise. *)
Theorem what_is_offered_can_serve {S} `{SecretStore S EndpointCredentials} (secrets : S) es profiles :
  let a := assess_endpoints es secrets in
  (usable a = List.filter (fun e => bool_decide (endpoint_problem e secrets = None)) es ∧
   problems a = omap (fun e => endpoint_problem e secrets) es) ∧
  (∀ e, endpoint_problem e secrets = None ↔ ∃ c ip, holds secrets e c ∧ is_Some (measure_origin c) ∧
     parse_ip (host (endpoint_address e)) = Some (V4 ip)) ∧
  (∀ kind, kind ∈ served a ↔ ∃ e c, e ∈ usable a ∧ holds secrets e c ∧ is_Some (server_port kind c)) ∧
  (∀ p, p ∈ served_profiles profiles (served a) ↔ p ∈ profiles ∧ (served a = [] ∨ profile_kind p ∈ served a)) ∧
  (∀ c p, p ∈ reach_ports c ↔ server_port VlessReality c = Some p) ∧
  (∀ kind c, origin_for kind c = Some (if carried_by_session kind c then Some (mkOrigin "10.9.0.254" 8080) else measure_origin c)).
Proof.
  cbv zeta. destruct (assess_from es secrets (mkAssessment [] [] []) (NoDup_nil_2)) as (Hu & Hp & _ & Hs).
  unfold assess_endpoints. split; [by rewrite Hu, Hp|]. split; [intros; apply no_problem|]. split; [|split; [|split]].
  - intros kind. rewrite Hs, Hu. simpl. setoid_rewrite elem_of_filter_bool. setoid_rewrite bool_decide_eq_true. set_solver.
  - intros p. unfold served_profiles. case_bool_decide as E; [naive_solver|]. rewrite elem_of_filter_bool, bool_decide_eq_true.
    naive_solver.
  - intros c p. unfold reach_ports. simpl. destruct (rb_server_port <$> _) as [q|]; [|set_solver].
    rewrite list_elem_of_singleton. naive_solver.
  - intros kind c. unfold origin_for, carried_by_session. destruct (_ && _); [|done]. vm_compute. done.
Qed.

(** ** Witnesses *)

Module PlanDemo.
Import ToyText CoreDemo CredentialsDemo.

Definition endpoint : Endpoint :=
  mkEndpoint 7 "home" demo_endpoint Manual (mkCredentialRef "endpoint-7") health_new true.
Definition reality_profile : ConnectionProfile :=
  mkConnectionProfile "profile-c" VlessReality Tier1 params_new Untested None.
Definition inputs : PlanInputs :=
  mkPlanInputs reality_profile endpoint bundle (mkClientDefinitions no_hy2_client no_reality_client None) demo_base Low.
Definition channel : ControlChannel := mkChannel 9090 (mkControlSecret sample_secret).
Definition planned : option (result PlanError TunnelPlan) :=
  plan_tunnel_with demo_ids (plan_error "no port") inputs (Some channel).

Lemma base_rules r : r ∈ demo_base → 0 ≤ precedence r ∧ writable r.
Proof.
  revert r. apply Forall_forall.
  assert (demo_base = ltac:(let x := eval vm_compute in demo_base in exact x)) as -> by (vm_compute; reflexivity).
  repeat (apply Forall_cons; split; [split; [vm_compute; congruence|]|]); try apply Forall_nil;
    try done; first [by eexists|vm_compute; repeat split; congruence].
Qed.
End PlanDemo.

Import ToyText CoreDemo CredentialsDemo PlanDemo.

Lemma planned_connection_is_sound_witness :
  ∃ plan, planned = Some (Ok plan) ∧ plan_bypass plan = mkBypass "203.0.113.7" 8443.
Proof.
  assert (∃ plan, planned = Some (Ok plan)) as [plan E] by (eexists; vm_compute; reflexivity).
  exists plan. split; [exact E|].
  destruct (@planned_connection_is_sound CoreDemo.base64 ToyText.uuid ToyText.debug_text ascii_lowercase demo_ids (plan_error "no port") inputs (Some channel)
    plan (Cidr (host_block (V4 3405803783)))) as (ip & port & Hip & Hport & Hb & _).
  - intros [] p Hp; vm_compute in Hp; injection Hp as <-; vm_compute; split; congruence.
  - vm_compute. reflexivity.
  - apply (Forall_forall (fun r => is_builtin r = true → action r = Bypass → matcher r ≠ _)).
    apply (bool_decide_unpack _). vm_compute. exact I.
  - vm_compute. reflexivity.
  - exact base_rules.
  - exact E.
  - rewrite Hb. vm_compute in Hip, Hport. injection Hip as <-. injection Hport as <-. vm_compute. reflexivity.
Defined.

Lemma usable_endpoints_can_be_planned_witness : ∃ plan, planned = Some (Ok plan).
Proof.
  destruct (with_active_endpoint demo_ids demo_base demo_endpoint) as [[rules|]|] eqn:Er; [|vm_compute in Er; discriminate Er..].
  destruct (@usable_endpoints_can_be_planned CoreDemo.base64 ToyText.uuid ToyText.debug_text demo_ids (plan_error "no port") inputs (Some channel) channel
    3405803783 rules) as [(plan & E & _) _].
  - vm_compute. reflexivity.
  - vm_compute. reflexivity.
  - exists 8443. split; [vm_compute; reflexivity|]. vm_compute. split; congruence.
  - exact Er.
  - vm_compute. reflexivity.
  - split; [|left; reflexivity]. split; [vm_compute; congruence|]. split; [|vm_compute; congruence].
    apply (bool_decide_unpack _). vm_compute. exact I.
  - exists plan. exact E.
Defined.
