(* ===== verification/FeedService.v ===== *)
(** The profile feed inside the service: what it keeps on disk and puts into effect (crates/dnetd/src/feed_service.rs),
    and how it is fetched (crates/dnetd/src/feed_fetch.rs, crates/dnet-core/src/feed/fetch.rs). *)

From Stdlib Require Import Ascii.
From S2P Require Import Prelude Text Profile Selection Session FeedEnvelope FeedKeys FeedDocument FeedState Persist TrustedFile Configure.

(** * Definitions *)

(** ** Words *)

(* src: crates/dnet-core/src/feed.rs:68-75 Document::fmt *)
Definition document_to_string (d : Document) : string :=
  match d with KeysDoc => "keys document" | FeedDoc => "profile feed" end.

(* src: crates/dnet-core/src/feed.rs:77-143 FeedError *)
Definition feed_error_to_string `{DebugText} (e : FeedError) : string :=
  match e with
  | TooLarge => "envelope exceeds " +:+ pretty ENVELOPE_MAX_BYTES +:+ " bytes"
  | MalformedEnvelope field => "malformed envelope: " +:+ field
  | WrongPayloadType d => "envelope carries an unexpected payload type for a " +:+ document_to_string d
  | ThresholdNotMet d valid required =>
      document_to_string d +:+ " signature threshold not met: " +:+ pretty valid +:+ " valid of " +:+
      pretty required +:+ " required"
  | MalformedPayload d detail => "malformed " +:+ document_to_string d +:+ " payload: " +:+ detail
  | InvalidField field reason => "invalid " +:+ field +:+ ": " +:+ reason
  | NotCurrent d reason => document_to_string d +:+ " is not valid at this time: " +:+ reason
  | Rollback d => document_to_string d +:+ " is older than the one already accepted"
  | Equivocation d => document_to_string d +:+ " conflicts with an accepted document of the same version"
  | KeysVersionMismatch => "profile feed was signed under a keys document other than the accepted one"
  | NoKeysDocument => "no keys document has been accepted"
  | UnknownProfile id => "feed names profile " +:+ debug id +:+ ", which this build does not define"
  | KindMismatch id => "feed gives profile " +:+ debug id +:+ " a kind other than the one this build defines"
  | DuplicateProfile id => "feed lists profile " +:+ debug id +:+ " more than once"
  | EmptyProposal id => "feed entry for profile " +:+ debug id +:+ " proposes nothing"
  | InvalidTrust what => "invalid feed trust anchor: " +:+ what
  end.

(* src: crates/dnetd/src/feed_service.rs:36-54 FeedNote *)
Inductive FeedNote : Type :=
  | NoteDiscarded (document : Document) (reason : string)
  | NoteUpdated (sequence endpoint_updates : Z)
  | NoteEvicted
  | NoteOutOfDate.

(* src: crates/dnetd/src/feed_service.rs:56-66 FeedRefusal *)
Inductive FeedRefusal : Type :=
  | FeedRejected (error : FeedError)
  | TrialFailed (detail : string)
  | FeedStorage (detail : string).

(* src: crates/dnetd/src/feed_service.rs:68-85 FeedRefusal::fmt *)
Definition refusal_to_string `{DebugText} (r : FeedRefusal) : string :=
  match r with
  | FeedRejected error => feed_error_to_string error
  | TrialFailed detail =>
      "a profile in the feed would not produce a working configuration (" +:+ detail +:+
      "); the feed was refused whole"
  | FeedStorage detail => "the feed could not be saved (" +:+ detail +:+ "); nothing was changed"
  end.

(** ** The feed as the service holds it *)

Section Feed.
Context `{FeedPrimitives, KeysWire, FeedWire, DebugText} {F : Type} `{StateFile F}.

(** The definitions are shared with the code that generates configurations, which only reads them. *)
(* src: crates/dnetd/src/feed_service.rs:89-98 FeedService *)
Record FeedService : Type := mkFeedService {
  fs_trust : FeedTrust;
  fs_keys_file : F;
  fs_feed_file : F;
  fs_state : FeedState;
  fs_definitions : ClientDefinitions;
  fs_reported : bool;
}.

(* src: crates/dnet-core/src/feed/applied.rs:34-40 ClientDefinitions::default *)
Definition no_definitions : ClientDefinitions :=
  {| hysteria2 := no_hy2_client; reality := no_reality_client; definitions_sequence := None |}.

(* src: crates/dnetd/src/feed_service.rs:240-244 FeedService::publish_definitions *)
Definition in_effect (s : FeedState) : ClientDefinitions :=
  match feed s with Some applied => from_feed (feed_document applied) | None => no_definitions end.

(* src: crates/dnetd/src/feed_service.rs:237-249 FeedService::publish_definitions *)
Definition publish_definitions (f : FeedService) : FeedService :=
  mkFeedService (fs_trust f) (fs_keys_file f) (fs_feed_file f) (fs_state f) (in_effect (fs_state f)) (fs_reported f).

(* src: crates/dnetd/src/feed_service.rs:252-268 read_or_note *)
Definition read_or_note (file : F) (document : Document) (notes : list FeedNote) : option string * list FeedNote :=
  match file_read file with
  | Ok bytes => (bytes, notes)
  | Err error => (None, notes ++ [NoteDiscarded document ("it could not be read (" +:+ error +:+ ")")])
  end.

(* src: crates/dnetd/src/feed_service.rs:112-122 FeedService::start *)
Definition note_of (document : Document) (discarded : option FeedError) : list FeedNote :=
  match discarded with Some error => [NoteDiscarded document (feed_error_to_string error)] | None => [] end.

(* src: crates/dnetd/src/feed_service.rs:101-133 FeedService::start *)
Definition start (trust : FeedTrust) (keys_file feed_file : F) (definitions : ClientDefinitions) :
    FeedService * list FeedNote :=
  let '(k, notes) := read_or_note keys_file KeysDoc [] in
  let '(f, notes) := read_or_note feed_file FeedDoc notes in
  let restored := restore trust k f in
  (publish_definitions (mkFeedService trust keys_file feed_file (restored_state restored) definitions false),
   notes ++ note_of KeysDoc (keys_discarded restored) ++ note_of FeedDoc (feed_discarded restored)).

(** What a commit writes over: the file is already saved. *)
(* src: crates/dnetd/src/feed_service.rs:148-150 FeedService::offer_keys *)
Definition commit (state : FeedState) (keys_file feed_file : F) (f : FeedService) : FeedService :=
  publish_definitions (mkFeedService (fs_trust f) keys_file feed_file state (fs_definitions f) false).

(** The files as a write or a removal left them, whatever it answered. *)
Definition with_files (keys_file feed_file : F) (f : FeedService) : FeedService :=
  mkFeedService (fs_trust f) keys_file feed_file (fs_state f) (fs_definitions f) (fs_reported f).

(* src: crates/dnetd/src/feed_service.rs:135-169 FeedService::offer_keys *)
Definition offer_keys (envelope : string) (now : Z) (f : FeedService) :
    FeedService * result FeedRefusal (list FeedNote) :=
  match accept_keys_document (fs_trust f) (fs_state f) envelope now with
  | Err e => (f, Err (FeedRejected e))
  | Ok KeysUnchanged => (f, Ok [])
  | Ok (KeysAccepted state feed_evicted) =>
      match file_write envelope (fs_keys_file f) with
      | (keys_file, Err e) => (with_files keys_file (fs_feed_file f) f, Err (FeedStorage e))
      | (keys_file, Ok _) =>
          let f := commit state keys_file (fs_feed_file f) f in
          if negb feed_evicted then (f, Ok [])
          else
            match file_remove (fs_feed_file f) with
            | (feed_file, Ok _) => (with_files (fs_keys_file f) feed_file f, Ok [NoteEvicted])
            | (feed_file, Err error) =>
                (with_files (fs_keys_file f) feed_file f,
                 Ok [NoteEvicted;
                     NoteDiscarded FeedDoc ("the evicted feed's file could not be removed (" +:+ error +:+ ")")])
            end
      end
  end.

(** [trial] generates a configuration for every profile; [None] is a panic. *)
(* src: crates/dnetd/src/feed_service.rs:171-200 FeedService::offer_feed *)
Definition offer_feed (envelope : string) (now : Z) (trial : FeedDocument → option (result string unit))
    (f : FeedService) : option (FeedService * result FeedRefusal (list FeedNote)) :=
  match accept_feed (fs_state f) envelope now with
  | Err e => Some (f, Err (FeedRejected e))
  | Ok FeedUnchanged => Some (f, Ok [])
  | Ok (FeedAccepted next) =>
      applied ← feed next;
      let document := feed_document applied in
      tried ← trial document;
      match tried with
      | Err detail => Some (f, Err (TrialFailed detail))
      | Ok _ =>
          let note := NoteUpdated (sequence document) (Z.of_nat (length (staged_endpoint_updates document))) in
          match file_write envelope (fs_feed_file f) with
          | (feed_file, Err e) => Some (with_files (fs_keys_file f) feed_file f, Err (FeedStorage e))
          | (feed_file, Ok _) => Some (commit next (fs_keys_file f) feed_file f, Ok [note])
          end
      end
  end.

(* src: crates/dnetd/src/feed_service.rs:207-216 FeedService::check_staleness *)
Definition check_staleness (now : Z) (f : FeedService) : FeedService * option FeedNote :=
  match status (fs_state f) now with
  | Stale =>
      if fs_reported f then (f, None)
      else (mkFeedService (fs_trust f) (fs_keys_file f) (fs_feed_file f) (fs_state f) (fs_definitions f) true,
            Some NoteOutOfDate)
  | _ => (f, None)
  end.

(* src: crates/dnetd/src/feed_service.rs:218-226 FeedService::staged_endpoint_updates *)
Definition staged (f : FeedService) : list StagedEndpointUpdate :=
  match feed (fs_state f) with Some applied => staged_endpoint_updates (feed_document applied) | None => [] end.

(* src: crates/dnetd/src/feed_service.rs:228-234 FeedService::versions *)
Definition versions (f : FeedService) : option Z * option Z :=
  ((fun k => keys_version (keys_document k)) <$> keys (fs_state f),
   (fun d => sequence (feed_document d)) <$> feed (fs_state f)).

(* src: crates/dnetd/src/service_impl.rs:149-164 announce *)
Definition changes_of (notes : list FeedNote) (failure : option CheckFailure) : list DefinitionsChange :=
  map (fun note => match note with
    | NoteUpdated sequence endpoint_updates => Updated sequence (Z.min endpoint_updates (2 ^ 32 - 1))
    | NoteEvicted => Evicted
    | NoteOutOfDate => OutOfDate
    | NoteDiscarded _ _ => Discarded
    end) notes ++ match failure with Some reason => [CheckFailed reason] | None => [] end.
End Feed.

(** ** Fetching *)

(* src: crates/dnet-core/src/feed/fetch.rs:26-27 MAX_REDIRECTS *)
Definition MAX_REDIRECTS : nat := 2.
(* src: crates/dnet-core/src/feed/fetch.rs:30-31 FETCH_INTERVAL_SECS *)
Definition FETCH_INTERVAL_SECS : Z := 6 * 3600.
(* src: crates/dnet-core/src/feed/fetch.rs:32-33 FETCH_JITTER_MAX_SECS *)
Definition FETCH_JITTER_MAX_SECS : Z := 30 * 60.

(* src: crates/dnetd/src/feed_fetch.rs:45-53 Reply *)
Inductive Reply : Type := Body (body : string) | Redirect (target : string) | Status (code : Z).

(* src: crates/dnetd/src/feed_fetch.rs:55-61 TransportError *)
Inductive TransportError : Type := NetworkError | AnswerTooLarge.

(** Makes one GET over a network in some state, following nothing. *)
(* src: crates/dnetd/src/feed_fetch.rs:63-66 Transport *)
Class Transport (T : Type) : Type := get : string → T → T * result TransportError Reply.

(* src: crates/dnetd/src/feed_fetch.rs:68-77 FetchFailure *)
Inductive FetchFailure : Type :=
  | FetchNotAllowed | TooManyRedirects | FetchStatus (code : Z) | FetchNetwork | FetchTooLarge.

(* src: crates/dnetd/src/feed_fetch.rs:79-89 FetchFailure::fmt *)
Definition fetch_failure_to_string (f : FetchFailure) : string :=
  match f with
  | FetchNotAllowed => "a redirect led somewhere a fetch may not go"
  | TooManyRedirects => "too many redirects"
  | FetchStatus code => "the server answered " +:+ pretty code
  | FetchNetwork => "the server could not be reached"
  | FetchTooLarge => "the answer was larger than any signed document"
  end.

(** [more] redirects may still be followed. *)
(* src: crates/dnetd/src/feed_fetch.rs:97-116 fetch_asset *)
Fixpoint fetch_from `{Transport T} (more : nat) (url : string) (network : T) : T * result FetchFailure string :=
  if negb (is_allowed_url url) then (network, Err FetchNotAllowed)
  else
    match get url network with
    | (network, Err NetworkError) => (network, Err FetchNetwork)
    | (network, Err AnswerTooLarge) => (network, Err FetchTooLarge)
    | (network, Ok (Body body)) =>
        if ENVELOPE_MAX_BYTES <? str_len body then (network, Err FetchTooLarge) else (network, Ok body)
    | (network, Ok (Status code)) => (network, Err (FetchStatus code))
    | (network, Ok (Redirect next)) =>
        match more with
        | O => (network, Err TooManyRedirects)
        | S more => fetch_from more next network
        end
    end.

(* src: crates/dnetd/src/feed_fetch.rs:91-117 fetch_asset *)
Definition fetch_asset `{Transport T} (asset : string) (network : T) : T * result FetchFailure string :=
  fetch_from MAX_REDIRECTS (asset_url asset) network.

(** What the HTTP library answers to a request it sent: [None] for a piece that failed to arrive. *)
Record HttpAnswer : Type := mkHttpAnswer {
  http_status : Z;
  http_location : option string;
  http_length : option Z;
  http_pieces : list (option string);
}.

(* src: crates/dnetd/src/feed_fetch.rs:170-180 HttpTransport::get *)
Fixpoint read_pieces (body : string) (pieces : list (option string)) : result TransportError string :=
  match pieces with
  | [] => Ok body
  | None :: _ => Err NetworkError
  | Some piece :: pieces =>
      if ENVELOPE_MAX_BYTES <? str_len body + str_len piece then Err AnswerTooLarge
      else read_pieces (body +:+ piece) pieces
  end.

(** [None] when the request could not be sent. *)
(* src: crates/dnetd/src/feed_fetch.rs:140-183 HttpTransport::get *)
Definition http_reply (answer : option HttpAnswer) : result TransportError Reply :=
  match answer with
  | None => Err NetworkError
  | Some a =>
      if (300 <=? http_status a) && (http_status a <? 400) then
        Ok (match http_location a with Some location => Redirect location | None => Status (http_status a) end)
      else if negb ((200 <=? http_status a) && (http_status a <? 300)) then Ok (Status (http_status a))
      else if match http_length a with Some n => ENVELOPE_MAX_BYTES <? n | None => false end then Err AnswerTooLarge
      else body ← read_pieces EmptyString (http_pieces a); Ok (Body body)
  end.

(** ** One check *)

(* src: crates/dnetd/src/feed_fetch.rs:187-192 CheckError *)
Inductive CheckError : Type := CheckFetch (failure : FetchFailure) | CheckRefusal (refusal : FeedRefusal).

(* src: crates/dnetd/src/feed_fetch.rs:194-202 CheckError::reason *)
Definition reason_of (e : CheckError) : CheckFailure :=
  match e with CheckFetch _ => CheckUnreachable | CheckRefusal _ => CheckRefused end.

(* src: crates/dnetd/src/feed_fetch.rs:204-210 Checked *)
Record Checked : Type := mkChecked { checked_notes : list FeedNote; checked_error : option CheckError }.

Section Check.
Context `{FeedPrimitives, KeysWire, FeedWire, DebugText} {F T : Type} `{StateFile F, Transport T}.
Context (trial : FeedDocument → option (result string unit)).

(* src: crates/dnetd/src/feed_fetch.rs:218-232 check_once *)
Definition fetch_both (network : T) : T * result FetchFailure (string * string) :=
  match fetch_asset KEYS_ASSET network with
  | (network, Err e) => (network, Err e)
  | (network, Ok k) =>
      match fetch_asset FEED_ASSET network with
      | (network, Err e) => (network, Err e)
      | (network, Ok document) => (network, Ok (k, document))
      end
  end.

(* src: crates/dnetd/src/feed_fetch.rs:233-246 check_once *)
Definition offer_both (k document : string) (now : Z) (f : FeedService (F := F)) :
    option (FeedService (F := F) * Checked) :=
  match offer_keys k now f with
  | (f, Err refusal) => Some (f, mkChecked [] (Some (CheckRefusal refusal)))
  | (f, Ok notes) =>
      offered ← offer_feed document now trial f;
      match offered with
      | (f, Ok more) => Some (f, mkChecked (notes ++ more) None)
      | (f, Err refusal) => Some (f, mkChecked notes (Some (CheckRefusal refusal)))
      end
  end.

(* src: crates/dnetd/src/feed_fetch.rs:212-247 check_once *)
Definition check_once (now : Z) (network : T) (f : FeedService (F := F)) :
    T * option (FeedService (F := F) * Checked) :=
  match fetch_both network with
  | (network, Err failure) => (network, Some (f, mkChecked [] (Some (CheckFetch failure))))
  | (network, Ok (k, document)) => (network, offer_both k document now f)
  end.
End Check.

(** ** When *)

(* src: crates/dnetd/src/feed_fetch.rs:251-260 Pace *)
Record Pace : Type := mkPace { first_delay : Z; wait_for_tunnel : Z; interval : Z; jitter_max : Z }.

(** In milliseconds. *)
(* src: crates/dnetd/src/feed_fetch.rs:262-271 Pace::default *)
Definition pace_default : Pace :=
  mkPace (60 * 1000) (300 * 1000) (FETCH_INTERVAL_SECS * 1000) (FETCH_JITTER_MAX_SECS * 1000).

(* src: crates/dnetd/src/feed_fetch.rs:273-284 jitter *)
Definition jitter (random max : Z) : Z := if max =? 0 then 0 else random mod max.

(** A check under way: what prompted it, and the network it was said to use. The claim is dropped when it ends, however
    it ends. *)
Record Check : Type := mkCheck { check_trigger : FetchTrigger; check_route : FetchRoute }.

(** The claim flag, and the checks spawned and not yet over. *)
(* src: crates/dnetd/src/feed_fetch.rs:295-303 Fetcher *)
Record Fetcher : Type := mkFetcher { busy : bool; running : list Check }.

(* src: crates/dnetd/src/feed_fetch.rs:345-350 Fetcher::claim *)
Definition claim (f : Fetcher) : option Fetcher := if busy f then None else Some (mkFetcher true (running f)).

(** [None] says a check is already under way. *)
(* src: crates/dnetd/src/feed_fetch.rs:352-369 Fetcher::request *)
Definition request (posture : RoutingPosture) (f : Fetcher) : Fetcher * option FetchRoute :=
  match claim f with
  | None => (f, None)
  | Some f =>
      let route := fetch_route UserRequested posture in
      (mkFetcher (busy f) (mkCheck UserRequested route :: running f), Some route)
  end.

(** One turn of the schedule: whether a check starts, and how long to wait afterwards. *)
(* src: crates/dnetd/src/feed_fetch.rs:377-399 Fetcher::spawn_schedule *)
Definition schedule_turn (pace : Pace) (random : Z) (posture : RoutingPosture) (f : Fetcher) : Fetcher * Z :=
  match fetch_route Scheduled posture with
  | ThroughTunnel =>
      (match claim f with
       | Some f => mkFetcher (busy f) (mkCheck Scheduled ThroughTunnel :: running f)
       | None => f
       end, interval pace + jitter random (jitter_max pace))
  | PhysicalNetwork | NotAllowed => (f, wait_for_tunnel pace)
  end.

(** What a finished check has announced: a scheduled one says nothing about a failure. *)
(* src: crates/dnetd/src/feed_fetch.rs:360-366 Fetcher::request *)
Definition announced_failure (trigger : FetchTrigger) (c : Checked) : option CheckFailure :=
  match trigger with UserRequested => reason_of <$> checked_error c | Scheduled => None end.

(* src: crates/dnetd/src/feed_fetch.rs:318-325 Claim::drop *)
Definition finish (before after : list Check) (f : Fetcher) : Fetcher := mkFetcher false (before ++ after).

(** Requests, turns of the schedule and ends of checks, in any order. *)
Inductive fetcher_step (pace : Pace) : Fetcher → Fetcher → Prop :=
  | asked posture f : fetcher_step pace f (request posture f).1
  | scheduled random posture f : fetcher_step pace f (schedule_turn pace random posture f).1
  | ended before c after f : running f = before ++ c :: after → fetcher_step pace f (finish before after f).

(** * Lemmas *)

Definition is_discard (n : FeedNote) : bool := match n with NoteDiscarded _ _ => true | _ => false end.

Section FeedLemmas.
Context `{FeedPrimitives, KeysWire, FeedWire, DebugText} {F : Type} `{StateFile F, !StateFileLaws F, !StateFileRemoval F}.
Implicit Types (f : FeedService (F := F)).

(** Stored documents that are restored whole. *)
Definition whole (trust : FeedTrust) (k d : option string) (s : FeedState) : Prop :=
  restore trust k d = {| restored_state := s; keys_discarded := None; feed_discarded := None |}.

Lemma whole_iff trust k d s :
  whole trust k d s ↔
    match k with
    | None => keys s = None
    | Some bytes => ∃ a, verify_keys trust bytes = Ok a ∧ min_keys_version trust ≤ keys_version (keys_document a) ∧ keys s = Some a
    end ∧
    match d with
    | None => feed s = None
    | Some bytes => ∃ a, restore_feed (keys s) bytes = Ok a ∧ feed s = Some a
    end.
Proof.
  unfold whole, restore. split.
  - intros E. injection E as E Ek Ed. destruct s as [sk sd]. injection E as E1 E2. rewrite E1 in E2, Ed. split.
    + destruct k as [bytes|]; simpl in *; [|done]. destruct (verify_keys trust bytes) as [a|e]; cbn [mbind result_bind] in *;
        [|done].
      destruct (Z.ltb_spec (keys_version (keys_document a)) (min_keys_version trust)); [done|]. simpl in E1. eauto.
    + destruct d as [bytes|]; simpl in *; [|done]. destruct (restore_feed sk bytes) as [a|e]; [|done]. simpl in E2. eauto.
  - destruct s as [sk sd]. simpl. intros [Hk Hd]. destruct k as [bytes|]; simpl.
    + destruct Hk as (a & Hv & Hm & ->). rewrite Hv. cbn [mbind result_bind].
      destruct (Z.ltb_spec (keys_version (keys_document a)) (min_keys_version trust)); [lia|]. simpl.
      destruct d as [bytes'|]; simpl in *; [|by subst]. destruct Hd as (f & Hr & ->). by rewrite Hr.
    + subst sk. destruct d as [bytes'|]; simpl in *; [|by subst]. by destruct Hd as (f & Hr & ->).
Qed.

Lemma accepted_feed_restores s bytes now s' :
  accept_feed s bytes now = Ok (FeedAccepted s') →
  keys s' = keys s ∧ ∃ a, feed s' = Some a ∧ restore_feed (keys s) bytes = Ok a.
Proof.
  intros (k & e & f & Ek & He & _ & Ht & Hd & _ & _ & _ & Eb & Eg & Ee & ->)%accept_feed_ok. simpl.
  split; [done|]. exists f. split; [done|]. rewrite Ek. apply restore_feed_ok. rewrite Ee.
  split_and!; [done|done| |done|done]. unfold meets_threshold_ignoring_windows, count_all_signing_keys, signed_message.
  destruct (parse_envelope_ok _ _ _ _ He) as [-> _]. apply Z.leb_le.
  etransitivity; [exact Ht|]. apply count_signers_sublist, map_sublist, filter_sublist.
Qed.

(** What is in the files is what is in memory, and what is in memory is what is in effect. *)
Record settled (trust : FeedTrust) f : Prop := {
  settled_trust : fs_trust f = trust;
  settled_files : ∃ k d, file_read (fs_keys_file f) = Ok k ∧ file_read (fs_feed_file f) = Ok d ∧ whole trust k d (fs_state f);
  settled_effect : fs_definitions f = in_effect (fs_state f);
}.

Lemma start_settled trust kf ff d f : start trust kf ff d = (f, []) → settled trust f.
Proof.
  unfold start, read_or_note. destruct (file_read kf) as [k|e] eqn:Ek, (file_read ff) as [b|e'] eqn:Eb;
    destruct (restore trust _ _) as [s e1 e2] eqn:Er; try (intros E; by destruct e1, e2).
  destruct e1, e2; try done. intros [= <-]. split; simpl; [done| |done]. exists k, b. done.
Qed.

Lemma settled_start trust f d : settled trust f →
  start trust (fs_keys_file f) (fs_feed_file f) d =
    (mkFeedService trust (fs_keys_file f) (fs_feed_file f) (fs_state f) (fs_definitions f) false, []).
Proof.
  intros [Ht (k & b & Hk & Hb & Hw) He]. unfold start, read_or_note. rewrite Hk, Hb, Hw. simpl.
  unfold publish_definitions. simpl. by rewrite He.
Qed.

Lemma started_state trust kf ff d k b : file_read kf = Ok k → file_read ff = Ok b →
  fs_state (start trust kf ff d).1 = restored_state (restore trust k b).
Proof. intros Hk Hb. unfold start, read_or_note. by rewrite Hk, Hb. Qed.

(** A refusal leaves the service, and what its files hold, as they were. *)
Definition as_before f f' : Prop :=
  fs_trust f' = fs_trust f ∧ fs_state f' = fs_state f ∧ fs_definitions f' = fs_definitions f ∧
  file_read (fs_keys_file f') = file_read (fs_keys_file f) ∧ file_read (fs_feed_file f') = file_read (fs_feed_file f).

Lemma as_before_settled trust f f' : as_before f f' → settled trust f → settled trust f'.
Proof. intros (E1 & E2 & E3 & E4 & E5) [Ht Hf He]. split; [congruence| |congruence]. by rewrite E2, E4, E5. Qed.

(** A file after a save that failed: as it was, or with what was to be saved, or refused. *)
Definition unsaved_over (bytes : string) (before after : F) : Prop :=
  file_read after = file_read before ∨ file_read after = Ok (Some bytes) ∨ is_ok (file_read after) = false.

(** What an offer of a keys document does. *)
Inductive keys_offered_to f (envelope : string) (now : Z) : FeedService → result FeedRefusal (list FeedNote) → Prop :=
  | keys_refused f' e : as_before f f' → keys_offered_to f envelope now f' (Err e)
  | keys_unsaved kf s evicted why :
      accept_keys_document (fs_trust f) (fs_state f) envelope now = Ok (KeysAccepted s evicted) →
      unsaved_over envelope (fs_keys_file f) kf →
      keys_offered_to f envelope now (with_files kf (fs_feed_file f) f) (Err (FeedStorage why))
  | keys_known : keys_offered_to f envelope now f (Ok [])
  | keys_taken kf ff s evicted notes :
      accept_keys_document (fs_trust f) (fs_state f) envelope now = Ok (KeysAccepted s evicted) →
      file_read kf = Ok (Some envelope) →
      file_read ff = (if evicted && negb (existsb is_discard notes) then Ok None else file_read (fs_feed_file f)) →
      keys_offered_to f envelope now (mkFeedService (fs_trust f) kf ff s (in_effect s) false) (Ok notes).

Lemma offer_keys_cases envelope now f f' r :
  offer_keys envelope now f = (f', r) → keys_offered_to f envelope now f' r.
Proof.
  unfold offer_keys. destruct (accept_keys_document _ _ envelope now) as [[s evicted|]|e] eqn:Ea; [|by intros [= <- <-]; constructor|].
  2: { intros [= <- <-]. by repeat constructor. }
  destruct (file_write envelope (fs_keys_file f)) as [kf [[]|e]] eqn:Ew.
  - apply write_is_read in Ew. destruct evicted; cbn [negb].
    + unfold commit. simpl. destruct (file_remove (fs_feed_file f)) as [ff [[]|e]] eqn:Er; intros [= <- <-];
        unfold with_files; simpl; (eapply keys_taken; [done|done|]); simpl;
        [by apply (remove_is_absent _ _ Er)|by apply (failed_remove_is_not _ _ _ Er)].
    + intros [= <- <-]. by apply (keys_taken f envelope now kf (fs_feed_file f) s false []).
  - apply failed_write_leaves in Ew. intros [= <- <-]. by eapply keys_unsaved.
Qed.

(** What an offer of a feed does. *)
Inductive feed_offered_to (trial : FeedDocument → option (result string unit)) f (envelope : string) (now : Z) :
    FeedService → result FeedRefusal (list FeedNote) → Prop :=
  | feed_refused f' e : as_before f f' → feed_offered_to trial f envelope now f' (Err e)
  | feed_unsaved ff s why :
      accept_feed (fs_state f) envelope now = Ok (FeedAccepted s) → unsaved_over envelope (fs_feed_file f) ff →
      feed_offered_to trial f envelope now (with_files (fs_keys_file f) ff f) (Err (FeedStorage why))
  | feed_known : feed_offered_to trial f envelope now f (Ok [])
  | feed_taken ff s a notes :
      accept_feed (fs_state f) envelope now = Ok (FeedAccepted s) → feed s = Some a →
      trial (feed_document a) = Some (Ok ()) →
      file_read ff = Ok (Some envelope) → existsb is_discard notes = false →
      feed_offered_to trial f envelope now (mkFeedService (fs_trust f) (fs_keys_file f) ff s (in_effect s) false) (Ok notes).

Lemma offer_feed_cases trial envelope now f f' r :
  offer_feed envelope now trial f = Some (f', r) → feed_offered_to trial f envelope now f' r.
Proof.
  unfold offer_feed. destruct (accept_feed _ envelope now) as [[s|]|e] eqn:Ea; [|by intros [= <- <-]; constructor|].
  2: { intros [= <- <-]. by repeat constructor. }
  destruct (feed s) as [a|] eqn:Es; [|done]. cbn [mbind option_bind].
  destruct (trial (feed_document a)) as [[[]|e]|] eqn:Et; [| |done]; cbn [mbind option_bind].
  - destruct (file_write envelope (fs_feed_file f)) as [ff [[]|e]] eqn:Ew; intros [= <- <-].
    + apply write_is_read in Ew. by apply (feed_taken trial f envelope now ff s a _).
    + apply failed_write_leaves in Ew. by eapply feed_unsaved.
  - intros [= <- <-]. by repeat constructor.
Qed.

Lemma offer_feed_total trial envelope now f :
  (∀ d, is_Some (trial d)) → is_Some (offer_feed envelope now trial f).
Proof.
  intros Ht. unfold offer_feed. destruct (accept_feed _ envelope now) as [[s|]|e] eqn:Ea; [|done..].
  apply accepted_feed_restores in Ea as (_ & a & -> & _). cbn [mbind option_bind].
  destruct (Ht (feed_document a)) as [[[]|e] ->]; cbn [mbind option_bind]; [|done].
  by destruct (file_write envelope (fs_feed_file f)) as [ff [[]|e]].
Qed.

(** One thing the service does with its feed, as long as an evicted feed's file can be removed, and a save that fails
    leaves the file reading as it did. *)
Inductive served (trial : FeedDocument → option (result string unit)) f : FeedService → Prop :=
  | served_keys envelope now f' r :
      offer_keys envelope now f = (f', r) →
      (∀ notes, r = Ok notes → existsb is_discard notes = false) →
      (∀ e, r = Err e → file_read (fs_keys_file f') = file_read (fs_keys_file f)) → served trial f f'
  | served_feed envelope now f' r :
      offer_feed envelope now trial f = Some (f', r) →
      (∀ e, r = Err e → file_read (fs_feed_file f') = file_read (fs_feed_file f)) → served trial f f'
  | served_look now : served trial f (check_staleness now f).1.

Lemma look_as_before now f : as_before f (check_staleness now f).1.
Proof. unfold check_staleness. destruct (status _ _); [done..|]. by destruct (fs_reported f). Qed.

Lemma served_settled trust trial f f' :
  settled trust f → served trial f f' →
  settled trust f' ∧ rtc (feed_step trust) (fs_state f) (fs_state f').
Proof.
  intros Hs Hstep. assert (∀ f1, as_before f f1 → settled trust f1 ∧ rtc (feed_step trust) (fs_state f) (fs_state f1)) as Hsame.
  { intros f1 Hb. split; [by apply (as_before_settled _ f)|]. destruct Hb as (_ & -> & _). done. }
  destruct Hstep as [envelope now f' r E Hno Hkeep|envelope now f' r E Hkeep|now].
  - revert Hno Hkeep. apply offer_keys_cases in E as [f1 e Hb|kf s evicted why Ea Hw| |kf ff s evicted notes Ea Hk Hf]; intros Hno Hkeep;
      [by apply Hsame|apply Hsame; specialize (Hkeep _ eq_refl); done|by apply Hsame|]. rewrite (Hno notes eq_refl), andb_true_r in Hf. destruct Hs as [Et (k & d & Hrk & Hrd & Hw) He]. rewrite Et in Ea |- *.
    split; [|simpl; eapply rtc_once, FeedState.offer_keys; exact Ea].
    split; [done| |done]. cbn [fs_keys_file fs_feed_file fs_state]. exists (Some envelope), (if evicted then None else d).
    split; [done|]. split; [destruct evicted; congruence|].
    apply accept_keys_ok in Ea as (a & Hv & Hks & Hmin & _ & _ & Hfs & Hev). apply whole_iff. split; [eauto|].
    apply whole_iff in Hw as [_ Hd]. destruct d as [bytes|]; [|rewrite Hd in Hfs; by destruct evicted].
    destruct Hd as (b & Hr & Hb). rewrite Hb in Hfs, Hev. cbn [mbind option_bind] in Hfs.
    destruct (meets_threshold_ignoring_windows _ _) eqn:Em; rewrite Hfs in Hev; simpl in Hev; subst evicted; [|done].
    exists b. split; [|done]. rewrite Hks. destruct (keys (fs_state f)) as [k0|]; [|done].
    apply restore_feed_ok in Hr as (? & ? & _ & ? & ?). by apply restore_feed_ok.
  - revert Hkeep. apply offer_feed_cases in E as [f1 e Hb|ff s why Ea Hw| |ff s a notes Ea Efs _ Hf _]; intros Hkeep;
      [by apply Hsame|apply Hsame; specialize (Hkeep _ eq_refl); done|by apply Hsame|].
    destruct Hs as [Et (k & d & Hrk & Hrd & Hw) He].
    split; [|simpl; eapply rtc_once, FeedState.offer_feed; exact Ea].
    split; [done| |done]. cbn [fs_keys_file fs_feed_file fs_state]. exists k, (Some envelope). split_and!; [done|done|].
    apply whole_iff in Hw as [Hk _]. apply accepted_feed_restores in Ea as (Ek & b & Hb & Hr).
    apply whole_iff. rewrite Ek. split; [done|]. eauto.
  - apply Hsame, look_as_before.
Qed.

(** A keys document restored beside the feed of before gives the state it was accepted into. *)
Lemma accepted_keys_restore trust s d bytes now s' evicted :
  accept_keys_document trust s bytes now = Ok (KeysAccepted s' evicted) →
  match d with None => feed s = None | Some b => ∃ a, restore_feed (keys s) b = Ok a ∧ feed s = Some a end →
  restored_state (restore trust (Some bytes) d) = s'.
Proof.
  intros (a & Hv & Hks & Hmin & _ & _ & Hfs & _)%accept_keys_ok Hd. unfold restore. simpl. rewrite Hv. cbn [mbind result_bind].
  destruct (Z.ltb_spec (keys_version (keys_document a)) (min_keys_version trust)); [lia|]. simpl.
  destruct s' as [ks fs]. simpl in *. subst ks. f_equal. destruct d as [b|]; [|by rewrite Hfs, Hd]. simpl.
  destruct Hd as (f & Hr & Hf). rewrite Hf in Hfs. cbn [mbind option_bind] in Hfs.
  destruct (keys s) as [k|]; [|done]. apply restore_feed_ok in Hr as (Hb & He & _ & Hdoc & Hdigest).
  destruct (meets_threshold_ignoring_windows (verified f) (keys_document a)) eqn:Em.
  - assert (restore_feed (Some a) b = Ok f) as -> by by apply restore_feed_ok. done.
  - destruct (restore_feed (Some a) b) as [f'|] eqn:E'; [|done]. apply restore_feed_ok in E' as (_ & He' & Hm & _).
    rewrite He in He'. injection He' as Ev. rewrite <-Ev in Hm. congruence.
Qed.

(** After an offer that could not be saved: nothing in memory has changed, and a restart finds what was held, or what would
    have been, or a file it cannot read. *)
Definition after_unsaved (trust : FeedTrust) f d f' : Prop :=
  fs_state f' = fs_state f ∧ fs_definitions f' = fs_definitions f ∧
  (let again := fs_state (start trust (fs_keys_file f') (fs_feed_file f') d).1 in
   again = fs_state f ∨ feed_step trust (fs_state f) again ∨
   is_ok (file_read (fs_keys_file f')) = false ∨ is_ok (file_read (fs_feed_file f')) = false).

Lemma as_before_unsaved trust f d f' : settled trust f → as_before f f' → after_unsaved trust f d f'.
Proof.
  intros Hs Hb. pose proof (as_before_settled _ _ _ Hb Hs) as Hs1. destruct Hb as (_ & Es & Ed & _).
  split; [done|]. split; [done|]. left. by rewrite (settled_start _ _ _ Hs1).
Qed.

Lemma unsaved_keys trust f d kf envelope now s evicted :
  settled trust f → accept_keys_document trust (fs_state f) envelope now = Ok (KeysAccepted s evicted) →
  unsaved_over envelope (fs_keys_file f) kf → after_unsaved trust f d (with_files kf (fs_feed_file f) f).
Proof.
  intros Hs Ha [Hf|[Hf|Hf]]; [by apply as_before_unsaved| |split; [done|split; [done|right; right; by left]]].
  split; [done|]. split; [done|]. right. left. destruct Hs as [_ (k & b & _ & Hrb & Hw) _].
  apply whole_iff in Hw as [_ Hd]. cbv zeta. cbn [fs_keys_file fs_feed_file with_files].
  rewrite (started_state _ _ _ _ _ _ Hf Hrb), (accepted_keys_restore _ _ b _ _ _ _ Ha Hd). eapply FeedState.offer_keys. exact Ha.
Qed.

Lemma unsaved_feed trust f d ff envelope now s :
  settled trust f → accept_feed (fs_state f) envelope now = Ok (FeedAccepted s) →
  unsaved_over envelope (fs_feed_file f) ff → after_unsaved trust f d (with_files (fs_keys_file f) ff f).
Proof.
  intros Hs Ha [Hf|[Hf|Hf]]; [by apply as_before_unsaved| |split; [done|split; [done|right; right; by right]]].
  split; [done|]. split; [done|]. right. left. destruct Hs as [_ (k & b & Hrk & _ & Hw) _].
  apply whole_iff in Hw as [Hk _]. pose proof Ha as (Ek & a & Es & Hr)%accepted_feed_restores.
  assert (whole trust k (Some envelope) s) as Hw. { apply whole_iff. rewrite Ek. split; [done|]. eauto. }
  cbv zeta. cbn [fs_keys_file fs_feed_file with_files]. rewrite (started_state _ _ _ _ _ _ Hrk Hf), Hw.
  eapply FeedState.offer_feed. exact Ha.
Qed.

Lemma all_served_settled trust trial f f' :
  settled trust f → rtc (served trial) f f' →
  settled trust f' ∧ rtc (feed_step trust) (fs_state f) (fs_state f').
Proof.
  intros Hs Hr. induction Hr as [f|f f1 f2 Hstep _ IH]; [done|].
  destruct (served_settled _ _ _ _ Hs Hstep) as [Hs1 Hr1]. destruct (IH Hs1) as [Hs2 Hr2].
  split; [done|]. by etrans.
Qed.
End FeedLemmas.

(** ** What a fetch asks for *)

Section FetchLemmas.
Context {T : Type} `{Transport T}.

(** The network after these requests. *)
Definition after_requests (urls : list string) (network : T) : T := fold_left (fun n url => (get url n).1) urls network.

(** A request to one of the two hosts over HTTPS, at its default port and in nobody's name, for whatever path. *)
Definition to_the_publisher (url : string) : Prop :=
  ∃ host rest, url = "https://" +:+ host +:+ of_ascii rest ∧
    (to_ascii_lowercase host = "github.com" ∨ to_ascii_lowercase host = "release-assets.githubusercontent.com") ∧
    (rest = [] ∨ ∃ c r, rest = c :: r ∧ c ∈ ["/"; "?"; "#"]%char).

Lemma allowed_to_the_publisher url : is_allowed_url url = true → to_the_publisher url.
Proof.
  intros (host & rest & E & Hin & Hr)%is_allowed_url_host. exists host, rest. split; [done|]. split; [|done].
  unfold ALLOWED_HOSTS in Hin. rewrite !elem_of_cons in Hin. destruct Hin as [?|[?|?%elem_of_nil]]; [by left|by right|done].
Qed.

Record within_limits (most : nat) (urls : list string) : Prop := {
  few_requests : (length urls ≤ most)%nat;
  allowed_requests : Forall to_the_publisher urls;
}.

Lemma fetch_from_requests more url (network : T) network' r :
  fetch_from more url network = (network', r) →
  (∃ urls, within_limits (S more) urls ∧ network' = after_requests urls network) ∧
  ∀ body, r = Ok body → str_len body ≤ ENVELOPE_MAX_BYTES.
Proof.
  revert url network. induction more as [|more IH]; intros url network; simpl;
    (destruct (is_allowed_url url) eqn:Eu; cbn [negb]; [|intros [= <- <-]; split; [|done]; exists []; split; [split; simpl; [lia|constructor]|done]]);
    destruct (get url network) as [n answer] eqn:Eg;
    assert (∃ urls, within_limits 1 urls ∧ n = after_requests urls network) as (one & [Hl Hok] & Hn)
      by (exists [url]; split; [split; simpl; [lia|repeat constructor; by apply allowed_to_the_publisher]|]; unfold after_requests; simpl; by rewrite Eg);
    destruct answer as [[body|next|code]|[]];
    try (destruct (Z.ltb_spec ENVELOPE_MAX_BYTES (str_len body)));
    try (intros [= <- <-]; split; [exists one; split; [split; [lia|done]|done]|]; intros b [= ]; by subst).
  intros E. apply IH in E as [(urls & [Hl2 Hok2] & ->) Hb]. split; [|done]. exists (url :: urls). split.
  - split; simpl; [lia|]. constructor; [by apply allowed_to_the_publisher|done].
  - unfold after_requests. simpl. by rewrite Eg.
Qed.

Lemma after_requests_app u v (network : T) : after_requests (u ++ v) network = after_requests v (after_requests u network).
Proof. apply fold_left_app. Qed.

Lemma within_limits_app m n u v : within_limits m u → within_limits n v → within_limits (m + n) (u ++ v).
Proof. intros [? ?] [? ?]. split; [rewrite length_app; lia|]. by apply Forall_app. Qed.

Lemma fetch_both_requests (network : T) network' r :
  fetch_both network = (network', r) →
  (∃ urls, within_limits 6 urls ∧ network' = after_requests urls network) ∧
  ∀ k d, r = Ok (k, d) → str_len k ≤ ENVELOPE_MAX_BYTES ∧ str_len d ≤ ENVELOPE_MAX_BYTES.
Proof.
  unfold fetch_both, fetch_asset. destruct (fetch_from _ _ network) as [n1 [k|e]] eqn:E1;
    apply fetch_from_requests in E1 as [(u & Hu & ->) Hk].
  - destruct (fetch_from _ _ (after_requests u network)) as [n2 [d|e]] eqn:E2;
      apply fetch_from_requests in E2 as [(v & Hv & ->) Hd]; intros [= <- <-];
      (split; [exists (u ++ v); split; [by apply (within_limits_app 3 3)|by rewrite after_requests_app]|]).
    + intros k' d' [= <- <-]. auto.
    + done.
  - intros [= <- <-]. split; [|done]. exists u. destruct Hu. split; [split; [unfold MAX_REDIRECTS in *; lia|done]|done].
Qed.
End FetchLemmas.

Lemma read_pieces_bounded pieces body read :
  str_len body ≤ ENVELOPE_MAX_BYTES → read_pieces body pieces = Ok read → str_len read ≤ ENVELOPE_MAX_BYTES.
Proof.
  revert body. induction pieces as [|[piece|] pieces IH]; intros body Hb; cbn [read_pieces]; [by intros [= <-]| |done].
  destruct (Z.ltb_spec ENVELOPE_MAX_BYTES (str_len body + str_len piece)); [done|]. apply IH. rewrite str_len_bytes, bytes_app, length_app, !str_len_bytes in *. lia.
Qed.

Lemma http_reply_bounded answer body : http_reply answer = Ok (Body body) → str_len body ≤ ENVELOPE_MAX_BYTES.
Proof.
  unfold http_reply. destruct answer as [a|]; [|done]. destruct (_ && _); [by destruct (http_location a)|].
  destruct (_ && _); cbn [negb]; [|done]. destruct (match http_length a with Some _ => _ | None => _ end); [done|].
  destruct (read_pieces _ _) as [b|e] eqn:E; [|done]. intros [= <-]. by apply read_pieces_bounded in E.
Qed.

(** At most one check is under way, and it is the one that holds the claim. *)
Record fetcher_ok (f : Fetcher) : Prop := {
  one_claim : match running f with [] => busy f = false | [_] => busy f = true | _ => False end;
  on_schedule : ∀ c, c ∈ running f → check_trigger c = Scheduled → check_route c = ThroughTunnel;
  never_refused : ∀ c, c ∈ running f → check_route c ≠ NotAllowed;
}.

Lemma fetcher_step_ok pace f f' : fetcher_ok f → fetcher_step pace f f' → fetcher_ok f'.
Proof.
  intros Hok Hstep. revert Hok. destruct Hstep as [posture g|random posture g|before c after g E]; intros [H1 H2 H3].
  - unfold request, claim. destruct (busy g) eqn:Eb; simpl; [by split; rewrite ?Eb|]. destruct (running g) as [|? [|]]; try done.
    split; simpl;
      [done|by intros x ->%list_elem_of_singleton|intros x ->%list_elem_of_singleton; by destruct posture].
  - unfold schedule_turn. destruct posture; simpl; [|by split]. unfold claim. destruct (busy g) eqn:Eb; simpl; [by split; rewrite ?Eb|].
    destruct (running g) as [|? [|]]; try done. split; simpl; [done|..]; by intros x ->%list_elem_of_singleton.
  - rewrite E in H1. unfold finish. destruct before as [|? [|]], after; try done.
    split; simpl; [done|..]; by intros x ?%not_elem_of_nil.
Qed.

(** * Theorems *)

(** C38. Started from files it could read and verify, and while an evicted feed's file can be removed and a save that
    fails leaves the file reading as it did, the service holds in memory exactly what it would hold if it were started
    again at any moment, with nothing to report; the definitions in effect are always those of the feed it holds, or
    the built-in ones; and what it holds changes only by accepting documents, so everything that holds of acceptance
    holds of the running service. An offer that cannot be saved, even one whose file was replaced before the save
    failed, changes nothing in memory, and a restart after it finds what was held, or what accepting the document
    would have given, unless one of the files can no longer be read. *)
Theorem feed_service_restarts_as_it_was `{FeedPrimitives, KeysWire, FeedWire, DebugText} {F}
    `{StateFile F, !StateFileLaws F, !StateFileRemoval F} trial trust (kf ff : F) d (f f' : FeedService (F := F)) :
  start trust kf ff d = (f, []) → rtc (served trial) f f' →
  (∀ d', start trust (fs_keys_file f') (fs_feed_file f') d' =
     (mkFeedService trust (fs_keys_file f') (fs_feed_file f') (fs_state f') (fs_definitions f') false, [])) ∧
  fs_definitions f' = in_effect (fs_state f') ∧
  rtc (feed_step trust) (fs_state f) (fs_state f') ∧
  (∀ envelope now why f'' d',
     offer_keys envelope now f' = (f'', Err (FeedStorage why)) ∨
       offer_feed envelope now trial f' = Some (f'', Err (FeedStorage why)) →
     fs_state f'' = fs_state f' ∧ fs_definitions f'' = fs_definitions f' ∧
     (let again := fs_state (start trust (fs_keys_file f'') (fs_feed_file f'') d').1 in
      again = fs_state f' ∨ feed_step trust (fs_state f') again ∨
      is_ok (file_read (fs_keys_file f'')) = false ∨ is_ok (file_read (fs_feed_file f'')) = false)).
Proof.
  intros Hstart%start_settled Hr. destruct (all_served_settled _ _ _ _ Hstart Hr) as [Hs Hsteps].
  split; [intros d'; by apply settled_start|]. split; [apply Hs|]. split; [done|].
  intros envelope now why f'' d' [E|E].
  - apply offer_keys_cases in E. inversion E; [by apply as_before_unsaved|]. subst. eapply unsaved_keys; [done| |done].
    by rewrite <-(settled_trust _ _ Hs).
  - apply offer_feed_cases in E. inversion E; [by apply as_before_unsaved|]. subst. by eapply unsaved_feed.
Qed.

(** Offering a document answers, whatever it is; an offer that is refused leaves the keys, the feed and the definitions as
    they were, and both files too unless it was a save that failed; and a feed is taken only if it was accepted and a
    configuration was made from it for every profile. *)
Theorem refused_documents_change_nothing `{FeedPrimitives, KeysWire, FeedWire, DebugText} {F}
    `{StateFile F, !StateFileLaws F, !StateFileRemoval F} trial (f : FeedService (F := F)) envelope now :
  (∀ d, is_Some (trial d)) →
  (∀ f' e, offer_keys envelope now f = (f', Err e) → (∀ why, e ≠ FeedStorage why) → as_before f f') ∧
  ∃ f' r, offer_feed envelope now trial f = Some (f', r) ∧
    match r with
    | Err e => fs_state f' = fs_state f ∧ fs_definitions f' = fs_definitions f ∧ ((∀ why, e ≠ FeedStorage why) → as_before f f')
    | Ok _ => f' = f ∨ ∃ a, accept_feed (fs_state f) envelope now = Ok (FeedAccepted (fs_state f')) ∧
        feed (fs_state f') = Some a ∧ trial (feed_document a) = Some (Ok ()) ∧
        fs_definitions f' = from_feed (feed_document a)
    end.
Proof.
  intros Ht. split.
  { intros f' e E%offer_keys_cases Hne. inversion E; subst; [done|]. by destruct (Hne why). }
  destruct (offer_feed_total trial envelope now f Ht) as [[f' r] E]. exists f', r. split; [done|].
  apply offer_feed_cases in E as [f1 e Hb|ff s why Ea Hw| |ff s a notes Ea Es Et Hf _].
  - destruct Hb as (? & ? & ? & ? & ?). split; [done|]. split; [done|]. by intros _.
  - split; [done|]. split; [done|]. intros Hne. by destruct (Hne why).
  - by left.
  - right. exists a. simpl. split_and!; [done|done|done|]. unfold in_effect. by rewrite Es.
Qed.

(** C39. A check for updated definitions makes at most six requests, each over HTTPS to github.com or
    release-assets.githubusercontent.com, the two hosts of the publisher, with no port and no user before the host,
    whatever the servers answer and wherever they redirect; it ends with both documents, of at most 256 KiB each, or
    changes nothing; and what the HTTP library reads of a body never passes that size. *)
Theorem checks_reach_only_the_publisher `{FeedPrimitives, KeysWire, FeedWire, DebugText} {F T}
    `{StateFile F, Transport T} trial now (network network' : T) (f : FeedService (F := F)) r :
  check_once trial now network f = (network', r) →
  (∃ urls, (length urls ≤ 6)%nat ∧ network' = after_requests urls network ∧
     ∀ url, url ∈ urls → ∃ host rest, url = "https://" +:+ host +:+ of_ascii rest ∧
       (to_ascii_lowercase host = "github.com" ∨ to_ascii_lowercase host = "release-assets.githubusercontent.com") ∧
       (rest = [] ∨ ∃ c r, rest = c :: r ∧ c ∈ ["/"; "?"; "#"]%char)) ∧
  (∀ answer body, http_reply answer = Ok (Body body) → str_len body ≤ 262144) ∧
  ((∃ failure, r = Some (f, mkChecked [] (Some (CheckFetch failure)))) ∨
   ∃ k d, str_len k ≤ 262144 ∧ str_len d ≤ 262144 ∧ r = offer_both trial k d now f).
Proof.
  unfold check_once. destruct (fetch_both network) as [n got] eqn:E. apply fetch_both_requests in E as [(urls & [Hmost Hall] & ->) Hb].
  assert (Hu : ∃ urls', (length urls' ≤ 6)%nat ∧ after_requests urls network = after_requests urls' network ∧
    ∀ url, url ∈ urls' → to_the_publisher url) by (exists urls; split_and!; [done|done|by apply Forall_forall]).
  destruct got as [[k d]|failure]; intros [= <- <-]; (split; [done|split; [exact http_reply_bounded|]]);
    [right|left; eauto]. destruct (Hb k d eq_refl). eauto.
Qed.

(** However requests, turns of the schedule and ends of checks fall, at most one check is under way; one the
    schedule started goes through the tunnel; and only one the person asked for may use the network beside it. *)
Theorem one_check_at_a_time pace f :
  rtc (fetcher_step pace) (mkFetcher false []) f →
  (length (running f) ≤ 1)%nat ∧ (busy f = true ↔ running f ≠ []) ∧
  (∀ c, c ∈ running f → check_route c = ThroughTunnel ∨ check_trigger c = UserRequested ∧ check_route c = PhysicalNetwork) ∧
  (∀ posture, (request posture f).2 = None ↔ running f ≠ []).
Proof.
  intros Hr. assert (fetcher_ok f) as [H1 H2 H3].
  { assert (fetcher_ok (mkFetcher false [])) as Hok by (by split; [|intros c ?%not_elem_of_nil..]).
    revert Hok. induction Hr as [|f1 f2 f3 Hstep _ IH]; [done|]. intros Hok. by apply IH, (fetcher_step_ok pace f1). }
  split_and!.
  - by destruct (running f) as [|? [|]]; simpl; lia || done.
  - by destruct (running f) as [|? [|]]; rewrite ?H1.
  - intros c Hc. destruct (check_route c) eqn:Er; [by left| |by destruct (H3 c Hc)].
    right. destruct (check_trigger c) eqn:Et; [|done]. by rewrite (H2 c Hc Et) in Er.
  - intros posture. unfold request, claim. destruct (running f) as [|? [|]]; rewrite ?H1; done.
Qed.

(** * Witnesses *)

(** Files in memory, and a network on which the publisher's first answer redirects to the second host. *)
Import Toy.

Module FeedDemo.
#[export] Instance quoted : DebugText := fun s => quote +:+ s +:+ quote.
Definition memory : Type := option string.

Definition try_all (_ : FeedDocument) : option (result string unit) := Some (Ok ()).
Definition empty : FeedService (F := memory) :=
  mkFeedService Toy.trust None None state_default no_definitions false.
Definition keyed : FeedService (F := memory) :=
  mkFeedService Toy.trust (Some Toy.keys_bytes) None Toy.with_keys no_definitions false.
Definition fed : FeedService (F := memory) :=
  mkFeedService Toy.trust (Some Toy.keys_bytes) (Some Toy.feed_bytes) Toy.with_feed (from_feed example_feed) false.

Definition elsewhere : string := "https://release-assets.githubusercontent.com/keys".
(** The network remembers what was asked of it. *)
#[export] Instance publisher : Transport (list string) := fun url asked =>
  (asked ++ [url],
   Ok (if String.eqb url (asset_url KEYS_ASSET) then Redirect elsewhere
       else if String.eqb url elsewhere then Body Toy.keys_bytes else Body Toy.feed_bytes)).

Lemma offered_keys_taken : offer_keys Toy.keys_bytes 1500000 empty = (keyed, Ok []).
Proof. vm_compute. reflexivity. Qed.
Lemma offered_feed_taken : ∃ notes, offer_feed Toy.feed_bytes 1500000 try_all keyed = Some (fed, Ok notes).
Proof. eexists. vm_compute. reflexivity. Qed.

Lemma both_served : rtc (served try_all) empty fed.
Proof.
  eapply rtc_l; [eapply served_keys; [exact offered_keys_taken|by intros notes [= <-]|done]|].
  destruct offered_feed_taken as [notes E]. by eapply rtc_once, served_feed.
Qed.
End FeedDemo.
Import FeedDemo.

Lemma feed_service_restarts_as_it_was_witness :
  start Toy.trust (fs_keys_file fed) (fs_feed_file fed) no_definitions = (fed, []) ∧
  fs_definitions fed = from_feed example_feed ∧ rtc (feed_step Toy.trust) state_default Toy.with_feed.
Proof.
  assert (start Toy.trust None None no_definitions = (empty, [])) as Hstart by (vm_compute; reflexivity).
  destruct (feed_service_restarts_as_it_was try_all Toy.trust None None no_definitions empty fed Hstart both_served)
    as (Hagain & Heffect & Hsteps & _).
  exact (conj (Hagain no_definitions) (conj Heffect Hsteps)).
Defined.

Lemma refused_documents_change_nothing_witness :
  ∃ f' r, offer_feed Toy.feed_bytes 1500000 try_all keyed = Some (f', r) ∧ fs_definitions f' = from_feed example_feed.
Proof.
  destruct (refused_documents_change_nothing try_all keyed Toy.feed_bytes 1500000 (fun _ => ltac:(by eexists)))
    as [_ (f' & r & E & Hr)].
  exists f', r. split; [exact E|]. destruct offered_feed_taken as [notes E']. rewrite E' in E. injection E as <- <-. reflexivity.
Defined.

Lemma checks_reach_only_the_publisher_witness :
  ∃ urls, (length urls ≤ 6)%nat ∧ (check_once try_all 1500000 [] empty).1 = after_requests urls [] ∧
    after_requests urls [] = [asset_url KEYS_ASSET; elsewhere; asset_url FEED_ASSET].
Proof.
  destruct (check_once try_all 1500000 [] empty) as [network r] eqn:E.
  destruct (checks_reach_only_the_publisher try_all 1500000 [] network empty r E) as [(urls & Hu & En & _) _].
  exists urls. split; [exact Hu|]. simpl. split; [exact En|]. rewrite <-En. vm_compute in E. by injection E as <- _.
Defined.

Lemma one_check_at_a_time_witness :
  (length (running (request FailClosed (mkFetcher false [])).1) ≤ 1)%nat ∧
  (request (Tunnelled Tier1) (request FailClosed (mkFetcher false [])).1).2 = None.
Proof.
  destruct (one_check_at_a_time pace_default (request FailClosed (mkFetcher false [])).1
    (rtc_once _ _ (asked pace_default FailClosed (mkFetcher false [])))) as (Hl & _ & _ & Hnone).
  split; [exact Hl|]. apply Hnone. discriminate.
Defined.
