(* ===== verification/Intent.v ===== *)
(** What the person last asked for, kept across restarts (crates/dnetd/src/intent.rs), and trying again while it was
    left on (crates/dnetd/src/keep_trying.rs; crates/dnet-netstate/src/notify.rs for when a change of network counts). *)

From Stdlib Require Import Ascii.
From S2P Require Import Prelude Text Profile Json Persist TrustedFile Configure FeedService.

(** * Definitions *)

(* src: crates/dnetd/src/intent.rs:18-19 VERSION *)
Definition VERSION : Z := 1.
(* src: crates/dnetd/src/intent.rs:21-22 MAX_PROFILE_ID_LEN *)
Definition MAX_PROFILE_ID_LEN : Z := 64.

(* src: crates/dnetd/src/intent.rs:24-31 Remembered *)
Inductive Remembered : Type := Off | On (profile : option ProfileId).

(* src: crates/dnetd/src/intent.rs:133-142 is_profile_id *)
Definition is_profile_id (raw : string) : bool :=
  negb (str_is_empty raw) && (str_len raw <=? MAX_PROFILE_ID_LEN) &&
  forallb (fun b => is_ascii_lowercase b || is_ascii_digit b || Ascii.eqb b "-") (bytes raw) &&
  negb (starts_with "-" raw) && negb (ends_with "-" raw).

Section Intent.
Context `{JsonText} {F : Type} `{StateFile F}.

(* src: crates/dnetd/src/intent.rs:33-41 Intent *)
Record Intent : Type := mkIntent { int_file : F; wish : option Remembered }.

(* src: crates/dnetd/src/intent.rs:45-50 Intent::new *)
Definition intent_new (file : F) : Intent := mkIntent file None.

(* src: crates/dnetd/src/intent.rs:52-57 Intent::set_wish *)
Definition set_wish (r : Remembered) (i : Intent) : Intent := mkIntent (int_file i) (Some r).

(* src: crates/dnetd/src/intent.rs:113-131 decode *)
Definition intent_decode (text : string) : option Remembered :=
  match from_str text with
  | Err _ => None
  | Ok value =>
      record ← as_object value;
      if negb (forallb (fun kv => existsb (String.eqb kv.1) ["version"; "connect"; "profile"]) (map_to_list record))
      then None
      else
        version ← (v ← record !! "version"; as_u64 v);
        if negb (version =? VERSION) then None
        else
          connect ← (v ← record !! "connect"; as_bool v);
          if negb connect then None
          else
            match record !! "profile" with
            | None => Some (On None)
            | Some (Str id) => if is_profile_id id then Some (On (Some id)) else None
            | Some _ => None
            end
  end.

(* src: crates/dnetd/src/intent.rs:74-89 Intent::read_file *)
Definition read_file (file : F) : Remembered :=
  match file_read file with
  | Ok (Some text) => default Off (intent_decode text)
  | Ok None | Err _ => Off
  end.

(* src: crates/dnetd/src/intent.rs:59-72 Intent::load *)
Definition intent_load (i : Intent) : Intent * Remembered :=
  match wish i with
  | Some remembered => (i, remembered)
  | None => let remembered := read_file (int_file i) in (set_wish remembered i, remembered)
  end.

(* src: crates/dnetd/src/intent.rs:96-101 Intent::remember_on *)
Definition intent_record (profile : option ProfileId) : Value :=
  object ([("version", Num (Int VERSION)); ("connect", Bool true)] ++
          match profile with Some p => [("profile", Str p)] | None => [] end).

(* src: crates/dnetd/src/intent.rs:91-104 Intent::remember_on *)
Definition remember_on (profile : option ProfileId) (i : Intent) : Intent * result string unit :=
  let '(file, saved) := file_write (json_to_string (intent_record profile)) (int_file i) in
  (mkIntent file (Some (On profile)), saved).

(* src: crates/dnetd/src/intent.rs:106-110 Intent::forget *)
Definition intent_forget (i : Intent) : Intent * result string unit :=
  let '(file, removed) := file_remove (int_file i) in (mkIntent file (Some Off), removed).
End Intent.

(** ** Trying again *)

(* src: crates/dnetd/src/keep_trying.rs:22-33 Tick *)
Inductive Tick : Type := TickIdle | Healthy | InProgress | Attempted.

(** Milliseconds. *)
(* src: crates/dnetd/src/keep_trying.rs:35-44 Pace *)
Record RetryPace : Type := mkRetryPace { retry_first : Z; retry_cap : Z; retry_gap : Z }.

(* src: crates/dnetd/src/keep_trying.rs:46-54 Pace::default *)
Definition retry_default : RetryPace := mkRetryPace (15 * 1000) (5 * 60 * 1000) (60 * 1000).

(* src: crates/dnetd/src/keep_trying.rs:56-63 Backoff *)
Record Backoff : Type := mkBackoff { bo_pace : RetryPace; bo_delay : Z; last_attempt : option Z }.

(* src: crates/dnetd/src/keep_trying.rs:66-72 Backoff::new *)
Definition backoff_new (pace : RetryPace) : Backoff := mkBackoff pace (retry_first pace) None.

(** Twice the delay fits a [Duration]: it is never over the cap once it was doubled. *)
(* src: crates/dnetd/src/keep_trying.rs:74-88 Backoff::after *)
Definition backoff_after (tick : Tick) (now : Z) (b : Backoff) : Backoff * Z :=
  let pace := bo_pace b in
  match tick with
  | Attempted =>
      let delay := Z.min (bo_delay b * 2) (retry_cap pace) in (mkBackoff pace delay (Some now), delay)
  | InProgress => (b, retry_first pace)
  | Healthy | TickIdle => (mkBackoff pace (retry_first pace) (last_attempt b), retry_first pace)
  end.

(* src: crates/dnetd/src/keep_trying.rs:90-94 Backoff::change_may_retry *)
Definition change_may_retry (now : Z) (b : Backoff) : bool :=
  match last_attempt b with None => true | Some last => retry_gap (bo_pace b) <=? Z.max 0 (now - last) end.

(** What is asked to retry: the service, in production. *)
(* src: crates/dnetd/src/keep_trying.rs:97-100 Retry *)
Class Retry (T : Type) : Type := retry_if_left_on : T → T * Tick.

(** What ends a wait: the deadline, a settled change of network, or the end of the source of changes. *)
Inductive Wake : Type := Due | Changed | SourceGone.

(* src: crates/dnetd/src/keep_trying.rs:111-112 run *)
Record RetryLoop : Type := mkRetryLoop { rl_backoff : Backoff; deadline : Z; watching : bool }.

(* src: crates/dnetd/src/keep_trying.rs:111-112 run *)
Definition retry_start (pace : RetryPace) (now : Z) (watching : bool) : RetryLoop :=
  mkRetryLoop (backoff_new pace) (now + retry_first pace) watching.

(** One turn while the target exists: what it found and did, when it was looked at. *)
(* src: crates/dnetd/src/keep_trying.rs:113-140 run *)
Definition retry_turn `{Retry T} (wake : Wake) (now : Z) (l : RetryLoop) (target : T) : RetryLoop * T * option Tick :=
  match wake with
  | SourceGone => (mkRetryLoop (rl_backoff l) (deadline l) false, target, None)
  | _ =>
      if (match wake with Changed => true | _ => false end) && negb (change_may_retry now (rl_backoff l))
      then (l, target, None)
      else
        let '(target, tick) := retry_if_left_on target in
        let '(backoff, wait) := backoff_after tick now (rl_backoff l) in
        (mkRetryLoop backoff (now + wait) (watching l), target, Some tick)
  end.

(** ** A burst of changes *)

(* src: crates/dnet-netstate/src/notify.rs:22-23 QUIET *)
Definition QUIET : Z := 750.
(* src: crates/dnet-netstate/src/notify.rs:25-26 LONGEST *)
Definition LONGEST : Z := 5000.

(* src: crates/dnet-netstate/src/notify.rs:28-35 Settled *)
Record Settled : Type := mkSettled { burst_events : Z; cut_off : bool }.

(** What a wait heard: another event at that time, the end of the source, or nothing until the timer fired. *)
Inductive Heard : Type := Event (at_ms : Z) | Closed | Silence (at_ms : Z).

(** The burst as it is heard: [Silence] is heard no earlier than the wait ends, and an event before that. [None] when
    it is not over yet; otherwise how it ended and how much was heard of it. *)
(* src: crates/dnet-netstate/src/notify.rs:49-62 settled *)
Fixpoint settle (quiet hard_stop now count : Z) (heard : list Heard) : option (Settled * list Heard) :=
  match heard with
  | [] => None
  | Event at_ms :: heard => settle quiet hard_stop at_ms (Z.min (count + 1) (2 ^ 32 - 1)) heard
  | Closed :: _ => Some (mkSettled count false, heard)
  | Silence at_ms :: heard => Some (mkSettled count (hard_stop <=? at_ms), heard)
  end.

(* src: crates/dnet-netstate/src/notify.rs:51-51 settled *)
Definition quiet_until (quiet hard_stop now : Z) : Z := Z.min (now + quiet) hard_stop.

(** Waiting for the first event of a burst; [None] inside is the source gone with nothing waiting. *)
(* src: crates/dnet-netstate/src/notify.rs:37-63 settled *)
Definition settled (quiet longest : Z) (heard : list Heard) : option (option Settled * list Heard) :=
  match heard with
  | Event at_ms :: heard =>
      '(s, rest) ← settle quiet (at_ms + longest) at_ms 1 heard; Some (Some s, rest)
  | Closed :: _ => Some (None, heard)
  | _ => None
  end.

(** The times of a burst agree with the clock: an event is heard before the wait is over, silence not before, and
    soon after. *)
Fixpoint timely (quiet hard_stop now slack : Z) (heard : list Heard) : Prop :=
  match heard with
  | Event at_ms :: heard => now ≤ at_ms ≤ quiet_until quiet hard_stop now ∧ timely quiet hard_stop at_ms slack heard
  | Silence at_ms :: _ => quiet_until quiet hard_stop now ≤ at_ms ≤ quiet_until quiet hard_stop now + slack
  | _ => True
  end.

(** * Lemmas *)

(** Just what the code writes: nothing else reads as on. *)
Record written_on (v : Value) (profile : option ProfileId) : Prop := {
  on_version : Json.get v "version" = Some (Num (Int VERSION));
  on_connect : Json.get v "connect" = Some (Bool true);
  on_profile : Json.get v "profile" = Str <$> profile;
  on_only : ∀ key field, Json.get v key = Some field → key = "version" ∨ key = "connect" ∨ key = "profile";
}.

Lemma record_written profile : written_on (intent_record profile) profile.
Proof.
  unfold intent_record. split; rewrite ?get_object; [done..|by destruct profile|].
  intros key field. rewrite get_object. destruct profile; cbn [assoc app];
    repeat (destruct (String.eqb _ key) eqn:E; [intros _; apply String.eqb_eq in E; subst; tauto|clear E]); done.
Qed.

Lemma intent_decode_On `{JsonText} text profile :
  intent_decode text = Some (On profile) ↔
    ∃ v, from_str text = Ok v ∧ written_on v profile ∧ ∀ p, profile = Some p → is_profile_id p = true.
Proof.
  unfold intent_decode. split.
  - destruct (from_str text) as [v|e] eqn:Ev; [|done]. destruct v as [| | | | |fields]; try done. cbn [as_object mbind option_bind].
    destruct (forallb _ (map_to_list fields)) eqn:Ek; cbn [negb]; [|done].
    destruct (fields !! "version") as [ver|] eqn:E1; [|done]. cbn [mbind option_bind].
    destruct ver as [| |[n|]| | |]; try done. cbn [as_u64].
    destruct ((0 <=? n) && (n <=? U64_MAX)) eqn:En; [|done]. cbn [mbind option_bind].
    destruct (Z.eqb_spec n VERSION) as [->|]; cbn [negb]; [|done].
    destruct (fields !! "connect") as [con|] eqn:E2; [|done]. cbn [mbind option_bind].
    destruct con as [|[]| | | |]; try done. cbn [as_bool mbind option_bind negb].
    intros Ep. exists (Object fields). split; [done|].
    assert (Hprofile : fields !! "profile" = Str <$> profile ∧ ∀ p, profile = Some p → is_profile_id p = true).
    { destruct (fields !! "profile") as [[| | |id| |]|]; try done.
      - destruct (is_profile_id id) eqn:Eid; [|done]. injection Ep as <-. split; [done|]. by intros p [= <-].
      - by injection Ep as <-. }
    split; [|apply Hprofile]. split; [done|done|apply Hprofile|].
    intros key field Hkey. unfold Json.get in Hkey. cbn [as_object mbind option_bind] in Hkey.
    apply elem_of_map_to_list, list_elem_of_In in Hkey. rewrite forallb_forall in Ek. specialize (Ek _ Hkey). simpl in Ek.
    repeat (destruct (String.eqb key _) eqn:E; [apply String.eqb_eq in E; subst; tauto|clear E]). done.
  - intros (v & -> & [H1 H2 H3 H4] & Hp). destruct v as [| | | | |fields]; try done.
    unfold Json.get in *. cbn [as_object mbind option_bind] in *.
    destruct (forallb _ (map_to_list fields)) eqn:Ek; cbn [negb].
    + rewrite H1, H2, H3. cbn. destruct profile as [p|]; simpl; [by rewrite (Hp p)|done].
    + exfalso. apply not_true_iff_false in Ek. apply Ek, forallb_forall. intros [key field] Hin%list_elem_of_In.
      apply elem_of_map_to_list, H4 in Hin. apply existsb_exists. exists key. simpl.
      split; [intuition|apply String.eqb_refl].
Qed.

(** Attempts, the latest first. *)
Definition attempts (looks : list (Z * Tick)) : list Z :=
  map fst (List.filter (fun look => match look.2 with Attempted => true | _ => false end) looks).

Fixpoint spaced (gap : Z) (times : list Z) : Prop :=
  match times with
  | later :: ((earlier :: _) as rest) => earlier + gap ≤ later ∧ spaced gap rest
  | _ => True
  end.

Section Retrying.
Context {T : Type} `{Retry T} (pace : RetryPace).
Context (Hpace : 0 < retry_first pace ≤ retry_cap pace).

(** The loop since it began at [t0], with the looks it made and when, the latest first. *)
Inductive retrying (t0 : Z) : RetryLoop → T → Z → list (Z * Tick) → Prop :=
  | retry_begun watching target : retrying t0 (retry_start pace t0 watching) target t0 []
  | retry_woke wake now l target last looks l' target' seen :
      retrying t0 l target last looks → last ≤ now → (wake = Due → deadline l ≤ now) →
      retry_turn wake now l target = (l', target', seen) →
      retrying t0 l' target' now (match seen with Some tick => (now, tick) :: looks | None => looks end).

Definition least_gap : Z := Z.min (Z.min (2 * retry_first pace) (retry_cap pace)) (retry_gap pace).

Record paced (t0 : Z) (l : RetryLoop) (last : Z) (looks : list (Z * Tick)) : Prop := {
  paced_pace : bo_pace (rl_backoff l) = pace;
  paced_delay : retry_first pace ≤ bo_delay (rl_backoff l) ≤ retry_cap pace;
  paced_last : last_attempt (rl_backoff l) = hd_error (attempts looks);
  paced_past : ∀ a, a ∈ attempts looks → a ≤ last;
  paced_deadline : ∀ a, hd_error (attempts looks) = Some a → a + least_gap ≤ deadline l;
  paced_spaced : spaced least_gap (attempts looks);
  paced_soon : deadline l ≤ match looks with [] => t0 | (at_ms, _) :: _ => at_ms end + retry_cap pace;
}.

Lemma spaced_cons gap a times :
  (∀ b, hd_error times = Some b → b + gap ≤ a) → spaced gap times → spaced gap (a :: times).
Proof. destruct times as [|b times]; simpl; [done|]. intros Hb Hs. split; [by apply Hb|done]. Qed.

Lemma look_paced t0 l last looks now tick :
  paced t0 l last looks → last ≤ now → (∀ a, hd_error (attempts looks) = Some a → a + least_gap ≤ now) →
  let '(backoff, wait) := backoff_after tick now (rl_backoff l) in
  paced t0 (mkRetryLoop backoff (now + wait) (watching l)) now ((now, tick) :: looks).
Proof.
  intros [H1 H2 H3 H4 H5 H6 H7] Hnow Hgap.
  assert (Hstay : ∀ wait backoff, retry_first pace ≤ wait ≤ retry_cap pace → bo_pace backoff = pace →
    retry_first pace ≤ bo_delay backoff ≤ retry_cap pace → last_attempt backoff = last_attempt (rl_backoff l) →
    tick ≠ Attempted → paced t0 (mkRetryLoop backoff (now + wait) (watching l)) now ((now, tick) :: looks)).
  { intros wait backoff Hw Hp Hd Hl Ht. assert (attempts ((now, tick) :: looks) = attempts looks) as Ea by (by destruct tick).
    split; rewrite ?Ea; simpl; [done|done|by rewrite Hl| | |done|lia].
    - intros a Ha. specialize (H4 a Ha). lia.
    - intros a Ha. specialize (Hgap a Ha). lia. }
  destruct tick; simpl; rewrite ?H1; [apply Hstay; simpl; try done; lia..|].
  split; simpl; [done|lia|done| | | |lia].
  - intros a [->|Ha]%elem_of_cons; [simpl; lia|]. specialize (H4 a Ha). lia.
  - intros a [= <-]. unfold least_gap. lia.
  - by apply spaced_cons.
Qed.

Lemma retrying_paced t0 l target last looks : retrying t0 l target last looks → paced t0 l last looks.
Proof.
  induction 1 as [watching target|wake now l target last looks l' target' seen _ IH Hnow Hdue Hturn].
  { split; simpl; try done; try lia. by intros a ?%not_elem_of_nil. }
  assert (Hlater : paced t0 l now looks).
  { destruct IH as [H1 H2 H3 H4 H5 H6 H7]. split; try done. intros a Ha. specialize (H4 a Ha). lia. }
  assert (Hlook : (∀ a, hd_error (attempts looks) = Some a → a + least_gap ≤ now) →
    (let '(target, tick) := retry_if_left_on target in
     let '(backoff, wait) := backoff_after tick now (rl_backoff l) in
     (mkRetryLoop backoff (now + wait) (watching l), target, Some tick)) = (l', target', seen) →
    paced t0 l' now (match seen with Some tick => (now, tick) :: looks | None => looks end)).
  { intros Hgap. destruct (retry_if_left_on target) as [t tick]. pose proof (look_paced t0 l last looks now tick IH Hnow Hgap) as Hp.
    destruct (backoff_after tick now (rl_backoff l)) as [backoff wait]. by intros [= <- <- <-]. }
  unfold retry_turn in Hturn. destruct wake; simpl in Hturn.
  - apply Hlook; [|done]. intros a Ha. specialize (paced_deadline _ _ _ _ IH a Ha). specialize (Hdue eq_refl). lia.
  - destruct (change_may_retry now (rl_backoff l)) eqn:Ec; simpl in Hturn.
    + apply Hlook; [|done]. intros a Ha. unfold change_may_retry in Ec.
      rewrite (paced_last _ _ _ _ IH), Ha, (paced_pace _ _ _ _ IH) in Ec. apply Z.leb_le in Ec.
      assert (a ≤ last). { apply (paced_past _ _ _ _ IH). destruct (attempts looks); [done|]. injection Ha as ->. by left. }
      unfold least_gap. lia.
    + by injection Hturn as <- <- <-.
  - injection Hturn as <- <- <-. destruct Hlater. by split.
Qed.
End Retrying.

(** * Theorems *)

(** What the person last asked for is what the next start finds, when the file could be written: a connect comes
    back with the same choice of profile, a disconnect as off. In this run it is kept whatever the file did. And a
    start connects only on a record that says exactly what this code writes: anything else in the file, and anything
    more, reads as off. *)
Theorem the_last_wish_is_kept `{JsonText} {F} `{StateFile F, !StateFileLaws F, !StateFileRemoval F} (i : Intent (F := F))
    (p : option ProfileId) :
  (intent_load (remember_on p i).1).2 = On p ∧
  (intent_load (intent_forget i).1).2 = Off ∧
  ((remember_on p i).2 = Ok () → from_str (json_to_string (intent_record p)) = Ok (intent_record p) →
   (∀ q, p = Some q → is_profile_id q = true) →
   (intent_load (intent_new (int_file (remember_on p i).1))).2 = On p) ∧
  ((intent_forget i).2 = Ok () → (intent_load (intent_new (int_file (intent_forget i).1))).2 = Off) ∧
  ∀ file q, (intent_load (intent_new (F := F) file)).2 = On q →
    ∃ text v, file_read file = Ok (Some text) ∧ from_str text = Ok v ∧ written_on v q ∧
      ∀ id, q = Some id → is_profile_id id = true.
Proof.
  unfold remember_on, intent_forget.
  destruct (file_write _ (int_file i)) as [f1 r1] eqn:Ew, (file_remove (int_file i)) as [f2 r2] eqn:Er. simpl.
  split_and!; [done|done| | |].
  - intros -> Hjson Hq. unfold intent_load. simpl. unfold read_file. rewrite (write_is_read _ _ _ Ew).
    assert (intent_decode (json_to_string (intent_record p)) = Some (On p)) as ->; [|done].
    apply intent_decode_On. exists (intent_record p). split_and!; [done|apply record_written|done].
  - intros ->. unfold intent_load. simpl. unfold read_file. by rewrite (remove_is_absent _ _ Er).
  - intros file q. unfold intent_load, read_file. simpl. destruct (file_read file) as [[text|]|e] eqn:Ef; [|done..].
    destruct (intent_decode text) as [r|] eqn:Ed; [|done]. simpl. intros ->.
    apply intent_decode_On in Ed as (v & Hv & Hw & Hp). eauto 7.
Qed.

(** However the waits end, whatever the service finds when it looks and whenever the network changes, two attempts
    to connect again are never closer together than the shortest of twice the first wait, the longest wait and the gap
    a change must leave; and the next look is always due within the longest wait, so it never stops trying. *)
Theorem retries_are_paced {T} `{Retry T} pace t0 l (target : T) last looks :
  0 < retry_first pace ≤ retry_cap pace → retrying pace t0 l target last looks →
  spaced (least_gap pace) (attempts looks) ∧
  deadline l ≤ match looks with [] => t0 | (at_ms, _) :: _ => at_ms end + retry_cap pace.
Proof. intros Hpace Hr. destruct (retrying_paced pace Hpace _ _ _ _ _ Hr). done. Qed.


(** * Witnesses *)

Module IntentDemo.
(** A service that is found down every time. *)
#[export] Instance always_down : Retry nat := fun n => (S n, Attempted).

(** Enough of JSON to write and read one record. *)
#[export] Instance one_record : JsonText := {|
  from_str s := if String.eqb s "on" then Ok (intent_record (Some "awg")) else Err "not a record";
  json_to_string v := match Json.get v "profile" with Some (Str "awg") => "on" | _ => "off" end;
|}.
Definition untouched : Intent (F := option string) := intent_new None.
End IntentDemo.
Import IntentDemo.

Lemma the_last_wish_is_kept_witness :
  (intent_load (intent_new (int_file (remember_on (Some "awg") untouched).1))).2 = On (Some "awg").
Proof.
  pose proof (the_last_wish_is_kept untouched (Some "awg")) as (_ & _ & Hkept & _).
  apply Hkept; [vm_compute; reflexivity..|]. intros q [= <-]. reflexivity.
Defined.

Lemma retries_are_paced_witness :
  spaced 30000 [75000; 15000] ∧
  ∃ l, retrying (T := nat) retry_default 0 l 2%nat 75000 [(75000, Attempted); (15000, Attempted)].
Proof.
  assert (∃ l, retrying (T := nat) retry_default 0 l 2%nat 75000 [(75000, Attempted); (15000, Attempted)]) as [l Hl].
  { pose proof (retry_begun retry_default 0 true 0%nat) as H0.
    pose proof (retry_woke retry_default 0 Due 15000 _ _ _ _ _ _ _ H0 ltac:(lia) (fun _ => Z.le_refl 15000) eq_refl) as H1.
    eexists. refine (retry_woke retry_default 0 Changed 75000 _ _ _ _ _ _ (Some Attempted) H1 _ _ eq_refl); [lia|done]. }
  destruct (retries_are_paced retry_default 0 l 2%nat 75000 _ ltac:(vm_compute; split; [reflexivity|discriminate]) Hl)
    as [Hs _].
  split; [exact Hs|eauto].
Defined.
