(* ===== verification/Registry.v ===== *)
(** The parts of the connection: the registry of what each reported (crates/dnet-core/src/registry.rs), what the service
    reports to it (crates/dnetd/src/components.rs), and the reply that tells a client (crates/dnet-ipc/src/componentview.rs). *)

From Stdlib Require Import SpecFloat.
From S2P Require Import Prelude Float Text Profile Health Quality Degraded Session Selection Telemetry Json Protocol.

(** * Definitions *)

(** ** The registry *)

(* src: crates/dnet-core/src/registry.rs:20-22 MAX_COMPONENTS *)
Definition MAX_COMPONENTS : Z := 128.

(* src: crates/dnet-core/src/registry.rs:24-37 ComponentKind *)
Inductive ComponentKind : Type :=
  | NetworkPath | CarrierLeaf | SessionPart | EndpointPart | CoreProcess | Adapter | Routes | DnsHandling | Guard
  | CaptivePortal.

(* src: crates/dnet-core/src/registry.rs:39-50 ComponentState *)
Inductive ComponentState : Type :=
  | StateUnknown | StateOff | Starting | StateOk | StateDegraded | StateBlocked | StateFailed.

#[export] Instance ComponentKind_eq_dec : EqDecision ComponentKind.
Proof. solve_decision. Defined.
#[export] Instance ComponentState_eq_dec : EqDecision ComponentState.
Proof. solve_decision. Defined.

(* src: crates/dnet-core/src/registry.rs:52-59 Evidence *)
Record Evidence : Type := mkEvidence { latency_ms : option Z; loss_permille : option Z; restarts : option Z }.

(* src: crates/dnet-core/src/registry.rs:53-59 Evidence::default *)
Definition no_evidence : Evidence := mkEvidence None None None.

(* src: crates/dnet-core/src/registry.rs:61-68 Observation *)
Record Observation : Type := mkObservation { seen_state : ComponentState; seen_reason : string; seen_evidence : Evidence }.

(* src: crates/dnet-core/src/registry.rs:71-77 Observation::new *)
Definition observation_new (state : ComponentState) (reason : string) : Observation :=
  mkObservation state reason no_evidence.

(* src: crates/dnet-core/src/registry.rs:79-82 Observation::with_evidence *)
Definition with_evidence (evidence : Evidence) (o : Observation) : Observation :=
  mkObservation (seen_state o) (seen_reason o) evidence.

(* src: crates/dnet-core/src/registry.rs:85-96 Component *)
Record Component : Type := mkComponent {
  part_kind : ComponentKind;
  part_id : string;
  part_state : ComponentState;
  part_reason : string;
  changed_at : Duration;
  part_evidence : Evidence;
}.

(* src: crates/dnet-core/src/registry.rs:98-104 StateChange *)
Record StateChange : Type := mkStateChange { change_from : option ComponentState; change_to : ComponentState }.

(* src: crates/dnet-core/src/registry.rs:106-112 RegistryError *)
Inductive RegistryError : Type := RegistryFull | EmptyId.

(** The order of the kinds, as they are declared, and of keys: kind, then id byte by byte. *)
(* src: crates/dnet-core/src/registry.rs:25-37 ComponentKind *)
Definition kind_index (k : ComponentKind) : Z :=
  match k with
  | NetworkPath => 0 | CarrierLeaf => 1 | SessionPart => 2 | EndpointPart => 3 | CoreProcess => 4 | Adapter => 5
  | Routes => 6 | DnsHandling => 7 | Guard => 8 | CaptivePortal => 9
  end.

Definition Key : Type := ComponentKind * string.
Definition key_of (c : Component) : Key := (part_kind c, part_id c).
Definition key_compare (a b : Key) : comparison :=
  cmp_then (kind_index a.1 ?= kind_index b.1) (String.compare a.2 b.2).
Definition key_is (k : Key) (c : Component) : bool := bool_decide (key_of c = k).

(** A [BTreeMap]: the components in the order of their keys, each key once. *)
(* src: crates/dnet-core/src/registry.rs:114-118 Registry *)
Record Registry : Type := mkRegistry { components : list Component }.

(* src: crates/dnet-core/src/registry.rs:121-123 Registry::new *)
Definition registry_new : Registry := mkRegistry [].

(* src: crates/dnet-core/src/registry.rs:177-179 Registry::get *)
Definition registry_get (k : Key) (r : Registry) : option Component := List.find (key_is k) (components r).

Fixpoint insert_component (c : Component) (l : list Component) : list Component :=
  match l with
  | [] => [c]
  | d :: rest => match key_compare (key_of c) (key_of d) with Lt => c :: d :: rest | _ => d :: insert_component c rest end
  end.

(* src: crates/dnet-core/src/registry.rs:141-148 Registry::report *)
Definition seen_again (seen : Observation) (now : Duration) (held : Component) : Component :=
  mkComponent (part_kind held) (part_id held) (seen_state seen) (seen_reason seen)
    (if decide (part_state held = seen_state seen) then changed_at held else now) (seen_evidence seen).

(* src: crates/dnet-core/src/registry.rs:125-175 Registry::report *)
Definition report (kind : ComponentKind) (id : string) (seen : Observation) (now : Duration) (r : Registry) :
    Registry * result RegistryError (option StateChange) :=
  if str_is_empty id then (r, Err EmptyId)
  else
    match registry_get (kind, id) r with
    | Some held =>
        (mkRegistry (map (fun c => if key_is (kind, id) c then seen_again seen now c else c) (components r)),
         Ok (if decide (part_state held = seen_state seen) then None
             else Some (mkStateChange (Some (part_state held)) (seen_state seen))))
    | None =>
        if MAX_COMPONENTS <=? Z.of_nat (length (components r)) then (r, Err RegistryFull)
        else
          (mkRegistry (insert_component
             (mkComponent kind id (seen_state seen) (seen_reason seen) now (seen_evidence seen)) (components r)),
           Ok (Some (mkStateChange None (seen_state seen))))
    end.

(* src: crates/dnet-core/src/registry.rs:181-185 Registry::remove *)
Definition registry_remove (k : Key) (r : Registry) : Registry * bool :=
  (mkRegistry (List.filter (fun c => negb (key_is k c)) (components r)),
   bool_decide (is_Some (registry_get k r))).

(* src: crates/dnet-core/src/registry.rs:217-237 severity *)
Definition severity (s : ComponentState) : Z :=
  match s with
  | StateOff => 0 | StateOk => 1 | Starting => 2 | StateUnknown => 3 | StateDegraded => 4 | StateBlocked => 5
  | StateFailed => 6
  end.

(** [max_by_key]: the last of the states that weigh most. *)
(* src: crates/dnet-core/src/registry.rs:208-215 roll_up *)
Definition roll_up (states : list ComponentState) : ComponentState :=
  match states with
  | [] => StateUnknown
  | s :: rest => fold_left (fun worst s => if severity worst <=? severity s then s else worst) rest s
  end.

(* src: crates/dnet-core/src/registry.rs:201-205 Registry::overall *)
Definition overall (r : Registry) : ComponentState := roll_up (map part_state (components r)).

(** ** What the service reports *)

(* src: crates/dnetd/src/components.rs:37-45 OWNED_KINDS *)
Definition OWNED_KINDS : list ComponentKind := [NetworkPath; SessionPart; EndpointPart; Routes; CaptivePortal].

(* src: crates/dnetd/src/components.rs:47-55 Reading *)
Record Reading : Type := mkReading {
  rd_kind : ComponentKind;
  rd_id : string;
  rd_state : ComponentState;
  rd_reason : string;
  rd_evidence : Evidence;
}.

(* src: crates/dnetd/src/components.rs:82-90 reading *)
Definition plain_reading (kind : ComponentKind) (id : string) (state : ComponentState) (reason : string) : Reading :=
  mkReading kind id state reason no_evidence.

(* src: crates/dnetd/src/components.rs:112-123 connected_words *)
Definition connected_words (s : StateSnapshot) : string :=
  match active_profile s with
  | Some profile =>
      "Connected through " +:+ ap_kind profile +:+ ". " +:+
      match ap_tier profile with
      | Tier1 => "Open connections survive a change of network."
      | Tier2 => "Open connections drop when the network changes."
      end
  | None => "Connected"
  end.

(* src: crates/dnetd/src/components.rs:92-110 session_reading *)
Definition session_reading (s : StateSnapshot) : Reading :=
  let '(part, reason) :=
    match status s with
    | Disconnected => (StateOff, "Not connected")
    | Probing => (Starting, "Choosing a connection method")
    | Connected => (StateOk, connected_words s)
    | Failed => (StateFailed, match failure s with Some cause => ex_title (explain cause) | None => "The connection failed" end)
    end in
  plain_reading SessionPart "connection" part reason.

Definition DECISION : string := "This is the service's decision, not yet enforced by the operating system".

(* src: crates/dnetd/src/components.rs:125-145 routes_reading *)
Definition routes_reading (s : StateSnapshot) : Reading :=
  let '(part, reason) :=
    match status s, posture s with
    | Disconnected, _ => (StateOff, "Not connected")
    | Connected, Tunnelled _ => (StateOk, "Traffic that needs the tunnel goes through it. " +:+ DECISION)
    | _, Tunnelled _ => (Starting, "The tunnel is coming up")
    | _, FailClosed =>
        (StateBlocked, "No usable tunnel: traffic that needs it is dropped (fail closed). " +:+ DECISION)
    end in
  plain_reading Routes "posture" part reason.

(* src: crates/dnetd/src/components.rs:147-161 endpoint_reading *)
Definition endpoint_reading (st : ConnectionStatus) (id : string) : option Reading :=
  match st with
  | Connected => Some (plain_reading EndpointPart id StateOk "Carrying the connection")
  | Probing => Some (plain_reading EndpointPart id Starting "Being tried")
  | Failed => Some (plain_reading EndpointPart id StateFailed "Could not be used")
  | Disconnected => None
  end.

(** [(loss * 1000.0).round().clamp(0.0, 1000.0) as u16]. *)
(* src: crates/dnetd/src/components.rs:219-221 path_reading *)
Definition permille (loss : f64) : Z :=
  f64_to_uint U16_MAX (f64_clamp (f64_round (f64_mul loss (f64_of_Z 1000))) f64_zero (f64_of_Z 1000)).

(* src: crates/dnetd/src/components.rs:171-176 path_reading *)
Definition link_name (k : PathKind) : string :=
  match k with Wifi => "Wi-Fi" | Cellular => "Cellular" | Ethernet => "Ethernet" | OtherKind => "Network" end.

(* src: crates/dnetd/src/components.rs:163-225 path_reading *)
Definition path_reading (view : PathView) (degradation : option Degradation) : Reading :=
  let reported := match degradation with
                  | Some d => if decide (deg_path d = view_id view) then Some (deg_band d) else None
                  | None => None
                  end in
  let band := match reported with
              | Some b => Some b
              | None => if view_measured view then view_band view else None
              end in
  let kind := link_name (view_kind view) in
  let '(part, reason) :=
    match view_role view, band with
    | UnusableRole, _ | Standby, Some Unusable => (StateOff, kind +:+ ": not usable right now")
    | Carrying, None => (StateUnknown, kind +:+ ": carrying the connection; not measured yet")
    | Carrying, Some Good => (StateOk, kind +:+ ": carrying the connection")
    | Carrying, Some Poor => (StateDegraded, kind +:+ ": carrying the connection, but lossy or slow")
    | Carrying, Some Unusable => (StateFailed, kind +:+ ": carrying the connection, but not usable")
    | Standby, None => (StateUnknown, kind +:+ ": available; not measured yet")
    | Standby, Some Good => (StateOk, kind +:+ ": available, not carrying")
    | Standby, Some Poor => (StateDegraded, kind +:+ ": available but lossy or slow, not carrying")
    end in
  mkReading NetworkPath ("interface-" +:+ pretty (view_id view)) part reason
    (mkEvidence ((fun rtt => Z.min (as_millis rtt) U32_MAX) <$> view_rtt view) (permille <$> view_loss view) None).

Definition reading_key (r : Reading) : Key := (rd_kind r, rd_id r).

(** A stable sort by key. *)
Fixpoint insert_reading (r : Reading) (l : list Reading) : list Reading :=
  match l with
  | [] => [r]
  | d :: rest => match key_compare (reading_key r) (reading_key d) with Gt => d :: insert_reading r rest | _ => r :: d :: rest end
  end.
Definition sort_readings (l : list Reading) : list Reading := fold_right insert_reading [] l.

(* src: crates/dnetd/src/components.rs:57-80 readings *)
Definition readings (s : StateSnapshot) (paths : PathsSnapshot) : list Reading :=
  sort_readings (
    [session_reading s; routes_reading s] ++
    match active_endpoint s with
    | Some e => match endpoint_reading (status s) (ae_id e) with Some r => [r] | None => [] end
    | None => []
    end ++
    match failure s with
    | Some CaptivePortalUnsatisfied =>
        [plain_reading CaptivePortal "sign-in" StateBlocked (ex_title (explain CaptivePortalUnsatisfied))]
    | _ => []
    end ++
    map (fun view => path_reading view (snapshot_degradation paths)) (snapshot_paths paths)).

(* src: crates/dnetd/src/components.rs:227-234 Applied *)
Record Applied : Type := mkApplied {
  ap_part_kind : ComponentKind;
  ap_part_id : string;
  ap_change : option StateChange;
  ap_removed : bool;
}.

(* src: crates/dnetd/src/components.rs:241-255 apply *)
Definition apply_reading (now : Duration) (acc : Registry * list Applied) (r : Reading) : Registry * list Applied :=
  let '(registry, applied) := acc in
  match report (rd_kind r) (rd_id r) (with_evidence (rd_evidence r) (observation_new (rd_state r) (rd_reason r))) now registry with
  | (registry, Ok (Some change)) => (registry, applied ++ [mkApplied (rd_kind r) (rd_id r) (Some change) false])
  | (registry, Ok None) | (registry, Err _) => (registry, applied)
  end.

(* src: crates/dnetd/src/components.rs:256-261 apply *)
Definition is_gone (l : list Reading) (c : Component) : bool :=
  bool_decide (part_kind c ∈ OWNED_KINDS) && negb (existsb (fun r => bool_decide (reading_key r = key_of c)) l).

(* src: crates/dnetd/src/components.rs:236-272 apply *)
Definition apply_readings (l : list Reading) (now : Duration) (registry : Registry) : Registry * list Applied :=
  let '(registry, applied) := fold_left (apply_reading now) l (registry, []) in
  let gone := List.filter (is_gone l) (components registry) in
  (fold_left (fun r part => (registry_remove (key_of part) r).1) gone registry,
   applied ++ map (fun part => mkApplied (part_kind part) (part_id part) None true) gone).

(** ** The reply *)

(* src: crates/dnet-ipc/src/componentview.rs:28-29 MAX_ID_CHARS *)
Definition MAX_ID_CHARS : Z := 64.
(* src: crates/dnet-ipc/src/componentview.rs:30-31 MAX_REASON_CHARS *)
Definition MAX_REASON_CHARS : Z := 512.

(* src: crates/dnet-ipc/src/componentview.rs:39-52 kind_str *)
Definition component_kind_str (k : ComponentKind) : string :=
  match k with
  | NetworkPath => "NetworkPath" | CarrierLeaf => "CarrierLeaf" | SessionPart => "Session" | EndpointPart => "Endpoint"
  | CoreProcess => "CoreProcess" | Adapter => "Adapter" | Routes => "Routes" | DnsHandling => "DnsHandling"
  | Guard => "Guard" | CaptivePortal => "CaptivePortal"
  end.

Definition all_kinds : list ComponentKind :=
  [NetworkPath; CarrierLeaf; SessionPart; EndpointPart; CoreProcess; Adapter; Routes; DnsHandling; Guard; CaptivePortal].

(** The first name that matches, in the order of the source's arms. *)
(* src: crates/dnet-ipc/src/componentview.rs:54-68 parse_kind *)
Definition parse_component_kind (text : string) : result IpcError ComponentKind :=
  ok_or (List.find (fun k => String.eqb text (component_kind_str k)) all_kinds) (invalid "a component has an unknown kind").

(* src: crates/dnet-ipc/src/componentview.rs:70-80 state_str *)
Definition component_state_str (s : ComponentState) : string :=
  match s with
  | StateUnknown => "Unknown" | StateOff => "Off" | Starting => "Starting" | StateOk => "Ok" | StateDegraded => "Degraded"
  | StateBlocked => "Blocked" | StateFailed => "Failed"
  end.

Definition all_states : list ComponentState :=
  [StateUnknown; StateOff; Starting; StateOk; StateDegraded; StateBlocked; StateFailed].

(* src: crates/dnet-ipc/src/componentview.rs:82-93 parse_state *)
Definition parse_component_state (text : string) : result IpcError ComponentState :=
  ok_or (List.find (fun s => String.eqb text (component_state_str s)) all_states) (invalid "a state is not a known one").

(* src: crates/dnet-ipc/src/componentview.rs:95-102 clean *)
Definition clean (raw : string) : string :=
  trim (concat_str (List.filter (fun c => negb (is_hostile c)) (chars raw))).

Definition char_count (s : string) : Z := Z.of_nat (length (chars s)).

(* src: crates/dnet-ipc/src/componentview.rs:104-109 fits *)
Definition fits (id reason : string) : bool :=
  negb (str_is_empty id) && (char_count id <=? MAX_ID_CHARS) && (char_count reason <=? MAX_REASON_CHARS).

(* src: crates/dnet-ipc/src/componentview.rs:111-121 ComponentReply *)
Record ComponentReply : Type := mkComponentReply {
  cr_kind : ComponentKind;
  cr_id : string;
  cr_state : ComponentState;
  cr_reason : string;
  cr_changed_ago_ms : Z;
  cr_evidence : Evidence;
}.

(* src: crates/dnet-ipc/src/componentview.rs:123-132 ComponentsReply *)
Record ComponentsReply : Type := mkComponentsReply {
  cs_as_of_unix_ms : Z;
  cs_overall : ComponentState;
  cs_components : list ComponentReply;
}.

Definition number (o : option Z) : Value := match o with Some n => Num (Int n) | None => Null end.

(* src: crates/dnet-ipc/src/componentview.rs:154-154 encode_components *)
Definition ago_ms (now changed : Duration) : Z := Z.min (as_millis (Z.max 0 (now - changed))) U64_MAX.

(* src: crates/dnet-ipc/src/componentview.rs:146-160 encode_components *)
Definition component_value (now : Duration) (c : Component) : Value := object [
  ("kind", Str (component_kind_str (part_kind c)));
  ("id", Str (clean (part_id c)));
  ("state", Str (component_state_str (part_state c)));
  ("reason", Str (clean (part_reason c)));
  ("changed_ago_ms", Num (Int (ago_ms now (changed_at c))));
  ("latency_ms", number (latency_ms (part_evidence c)));
  ("loss_permille", number (loss_permille (part_evidence c)));
  ("restarts", number (restarts (part_evidence c)))].

(* src: crates/dnet-ipc/src/componentview.rs:139-144 encode_components *)
Definition written_parts (parts : list Component) : list Component :=
  take 128 (List.filter (fun c => fits (clean (part_id c)) (clean (part_reason c))) parts).

(* src: crates/dnet-ipc/src/componentview.rs:139-166 encode_components *)
Definition components_value (parts : list Component) (now : Duration) (as_of_unix_ms : Z) : Value :=
  let written := written_parts parts in
  object [
    ("as_of_unix_ms", Num (Int as_of_unix_ms));
    ("overall", Str (component_state_str (roll_up (map part_state written))));
    ("components", Array (map (component_value now) written))].

Section Reply.
Context `{JsonText}.

(* src: crates/dnet-ipc/src/componentview.rs:134-167 encode_components *)
Definition encode_components (parts : list Component) (now : Duration) (as_of_unix_ms : Z) : string :=
  json_to_string (components_value parts now as_of_unix_ms).

(* src: crates/dnet-ipc/src/componentview.rs:175-179 text *)
Definition text_field (value : Value) (key : string) : result IpcError string :=
  ok_or (Json.get value key ≫= as_str) (invalid ("`" +:+ key +:+ "` is missing or not text")).

(* src: crates/dnet-ipc/src/componentview.rs:181-195 optional *)
Definition optional_number (value : Value) (key : string) (max : Z) : result IpcError (option Z) :=
  match Json.get value key with
  | None | Some Null => Ok None
  | Some v =>
      n ← ok_or (as_u64 v) (invalid ("`" +:+ key +:+ "` is not a whole number"));
      if max <? n then Err (invalid ("`" +:+ key +:+ "` is out of range")) else Ok (Some n)
  end.

(* src: crates/dnet-ipc/src/componentview.rs:234-261 decode_component *)
Definition decode_component (o : Value) : result IpcError ComponentReply :=
  kind ← (t ← text_field o "kind"; parse_component_kind t);
  id ← (t ← text_field o "id"; Ok (clean t));
  if str_is_empty id || (MAX_ID_CHARS <? char_count id) then Err (invalid "a component has an empty or over-long id")
  else
    state ← (t ← text_field o "state"; parse_component_state t);
    reason ← (t ← text_field o "reason"; Ok (clean t));
    if MAX_REASON_CHARS <? char_count reason then Err (invalid "a reason is too long")
    else
      ago ← ok_or (Json.get o "changed_ago_ms" ≫= as_u64) (invalid "`changed_ago_ms` is missing or not a number");
      latency ← optional_number o "latency_ms" U32_MAX;
      loss ← optional_number o "loss_permille" 1000;
      again ← optional_number o "restarts" U32_MAX;
      Ok (mkComponentReply kind id state reason ago (mkEvidence latency loss again)).

Definition reply_key (c : ComponentReply) : Key := (cr_kind c, cr_id c).

(* src: crates/dnet-ipc/src/componentview.rs:213-221 decode_components *)
Fixpoint decode_list (seen : list Key) (entries : list Value) : result IpcError (list ComponentReply) :=
  match entries with
  | [] => Ok []
  | entry :: entries =>
      if bool_decide (as_object entry = None) then Err (invalid "a component is not an object")
      else
        c ← decode_component entry;
        if existsb (fun k => bool_decide (k = reply_key c)) seen then Err (invalid "a component is listed twice")
        else rest ← decode_list (reply_key c :: seen) entries; Ok (c :: rest)
  end.

(* src: crates/dnet-ipc/src/componentview.rs:199-231 decode_components *)
Definition components_from_value (value : Value) : result IpcError ComponentsReply :=
  if bool_decide (as_object value = None) then Err (invalid "the reply is not an object")
  else
    as_of ← ok_or (Json.get value "as_of_unix_ms" ≫= as_u64) (invalid "`as_of_unix_ms` is missing or not a number");
    all ← (t ← text_field value "overall"; parse_component_state t);
    entries ← ok_or (Json.get value "components" ≫= as_array) (invalid "`components` is missing or not a list");
    if MAX_COMPONENTS <? Z.of_nat (length entries) then Err (invalid "too many components")
    else
      cs ← decode_list [] entries;
      if negb (bool_decide (all = roll_up (map cr_state cs))) then
        Err (invalid "the overall state does not match the parts")
      else Ok (mkComponentsReply as_of all cs).

(* src: crates/dnet-ipc/src/componentview.rs:197-232 decode_components *)
Definition decode_components (wire : string) : result IpcError ComponentsReply :=
  match from_str wire with Err e => Err (invalid e) | Ok value => components_from_value value end.

(** ** The tracker *)

(** The clock is the time since the service started. *)
(* src: crates/dnetd/src/components.rs:274-279 Tracker *)
Record Tracker : Type := mkTracker { registry : Registry; epoch : Instant }.

(* src: crates/dnetd/src/components.rs:281-287 Tracker::new *)
Definition tracker_new (now : Instant) : Tracker := mkTracker registry_new now.

(* src: crates/dnetd/src/components.rs:289-297 Tracker::observe_at *)
Definition observe_at (now : Duration) (s : StateSnapshot) (paths : PathsSnapshot) (t : Tracker) : Tracker * list Applied :=
  let '(r, applied) := apply_readings (readings s paths) now (registry t) in (mkTracker r (epoch t), applied).

(* src: crates/dnetd/src/components.rs:299-302 Tracker::encode *)
Definition tracker_encode (now : Duration) (as_of_unix_ms : Z) (t : Tracker) : string :=
  encode_components (components (registry t)) now as_of_unix_ms.

(* src: crates/dnetd/src/components.rs:304-308 Tracker::refresh *)
Definition refresh (clock : Instant) (s : StateSnapshot) (paths : PathsSnapshot) (t : Tracker) : Tracker :=
  (observe_at (clock - epoch t) s paths t).1.

(* src: crates/dnetd/src/components.rs:310-320 Tracker::reply *)
Definition tracker_reply (clock : Instant) (s : StateSnapshot) (paths : PathsSnapshot) (as_of_unix_ms : Z) (t : Tracker) :
    Tracker * string :=
  let now := clock - epoch t in
  let t := (observe_at now s paths t).1 in
  (t, tracker_encode now as_of_unix_ms t).
End Reply.

(** * Lemmas *)

(** ** Keys in order *)

Lemma ascii_compare_lt a b c : Ascii.compare a b = Lt → Ascii.compare b c = Lt → Ascii.compare a c = Lt.
Proof. unfold Ascii.compare. rewrite !N.compare_lt_iff. lia. Qed.

Lemma string_compare_refl s : String.compare s s = Eq.
Proof. induction s as [|c s IH]; [done|]. simpl. unfold Ascii.compare. by rewrite N.compare_refl. Qed.

Lemma string_compare_trans a b c : String.compare a b = Lt → String.compare b c = Lt → String.compare a c = Lt.
Proof.
  revert b c. induction a as [|x a IH]; intros [|y b] [|z c]; simpl; try done.
  destruct (Ascii.compare x y) eqn:Exy, (Ascii.compare y z) eqn:Eyz; try done;
    repeat match goal with H : Ascii.compare _ _ = Eq |- _ => apply Ascii.compare_eq_iff in H; subst end;
    rewrite ?Eyz, ?Exy; try done.
  - unfold Ascii.compare. rewrite N.compare_refl. apply IH.
  - by rewrite (ascii_compare_lt x y z).
Qed.

Lemma kind_index_inj a b : kind_index a = kind_index b → a = b.
Proof. by destruct a, b. Qed.

Lemma key_compare_Eq a b : key_compare a b = Eq ↔ a = b.
Proof.
  destruct a as [k s], b as [l t]. unfold key_compare. simpl. split.
  - destruct (Z.compare_spec (kind_index k) (kind_index l)) as [E| |]; [|done..]. simpl.
    intros ->%String.compare_eq_iff. by apply kind_index_inj in E as ->.
  - intros [= -> ->]. by rewrite Z.compare_refl, string_compare_refl.
Qed.

Lemma key_compare_flip a b : key_compare a b = Gt → key_compare b a = Lt.
Proof.
  destruct a as [k s], b as [l t]. unfold key_compare. simpl. rewrite (Z.compare_antisym (kind_index k)).
  destruct (kind_index k ?= kind_index l); simpl; [|done..]. rewrite (String.compare_antisym s t). by destruct (String.compare t s).
Qed.

Lemma key_compare_trans a b c : key_compare a b = Lt → key_compare b c = Lt → key_compare a c = Lt.
Proof.
  destruct a as [k s], b as [l t], c as [m u]. unfold key_compare. simpl.
  destruct (Z.compare_spec (kind_index k) (kind_index l)), (Z.compare_spec (kind_index l) (kind_index m)); simpl; try done;
    intros; destruct (Z.compare_spec (kind_index k) (kind_index m)); try lia; simpl; try done.
  eauto using string_compare_trans.
Qed.

Definition key_lt (a b : Key) : Prop := key_compare a b = Lt.
#[export] Instance key_lt_transitive : Transitive key_lt.
Proof. intros a b c. apply key_compare_trans. Qed.

(** ** What the registry holds under a key *)

Lemma key_is_spec k c : key_is k c = true ↔ key_of c = k.
Proof. unfold key_is. apply bool_decide_eq_true. Qed.

Lemma key_is_refl c : key_is (key_of c) c = true.
Proof. by apply key_is_spec. Qed.

Lemma key_is_ne k c : key_of c ≠ k → key_is k c = false.
Proof. intros Hne. apply not_true_iff_false. by rewrite key_is_spec. Qed.

Lemma find_insert_ne k c l : key_of c ≠ k → List.find (key_is k) (insert_component c l) = List.find (key_is k) l.
Proof.
  intros Hne. induction l as [|d l IH]; simpl; [by rewrite key_is_ne|].
  destruct (key_compare _ _); simpl; rewrite ?IH; by rewrite ?(key_is_ne k c).
Qed.

Lemma find_insert_new c l : List.find (key_is (key_of c)) l = None → List.find (key_is (key_of c)) (insert_component c l) = Some c.
Proof.
  induction l as [|d l IH]; simpl; [by rewrite key_is_refl|]. destruct (key_is (key_of c) d) eqn:Ed; [done|]. intros El.
  destruct (key_compare _ _); simpl; rewrite ?key_is_refl, ?Ed; auto.
Qed.

Lemma find_map_same k (f : Component → Component) l :
  (∀ c, key_of (f c) = key_of c) → List.find (key_is k) (map f l) = f <$> List.find (key_is k) l.
Proof.
  intros Hf. induction l as [|c l IH]; [done|]. simpl. unfold key_is at 1 3. rewrite Hf. fold (key_is k c).
  by destruct (key_is k c).
Qed.

Lemma find_without k k' l :
  List.find (key_is k') (List.filter (fun c => negb (key_is k c)) l) =
  if decide (k' = k) then None else List.find (key_is k') l.
Proof.
  induction l as [|c l IH]; simpl; [by destruct (decide _)|]. destruct (key_is k c) eqn:Ec; simpl; rewrite IH.
  - destruct (decide (k' = k)) as [|Hne]; [done|]. apply key_is_spec in Ec. rewrite key_is_ne; [done|congruence].
  - destruct (key_is k' c) eqn:Ec'; [|done]. destruct (decide (k' = k)) as [->|]; [congruence|done].
Qed.

Lemma find_component k l c : List.find (key_is k) l = Some c → c ∈ l ∧ key_of c = k.
Proof. intros [Hin Hk]%find_some. split; [by apply list_elem_of_In|by apply key_is_spec]. Qed.

Lemma elem_of_insert_component c d l : d ∈ insert_component c l ↔ d = c ∨ d ∈ l.
Proof.
  induction l as [|e l IH]; simpl; [by rewrite list_elem_of_singleton, elem_of_nil; tauto|].
  destruct (key_compare _ _); rewrite !elem_of_cons, ?IH; tauto.
Qed.

Lemma length_insert_component c l : length (insert_component c l) = S (length l).
Proof. induction l as [|d l IH]; [done|]. simpl. destruct (key_compare _ _); simpl; by rewrite ?IH. Qed.

(** In order, each key once, each id written, and no more than the limit. *)
Record registry_ok (r : Registry) : Prop := {
  in_order : StronglySorted key_lt (map key_of (components r));
  within_room : Z.of_nat (length (components r)) ≤ MAX_COMPONENTS;
  named : ∀ c, c ∈ components r → part_id c ≠ EmptyString;
}.

Lemma insert_in_order c l :
  StronglySorted key_lt (map key_of l) → List.find (key_is (key_of c)) l = None →
  StronglySorted key_lt (map key_of (insert_component c l)).
Proof.
  induction l as [|d l IH]; simpl; [by repeat constructor|].
  intros [Hl Hd]%StronglySorted_inv. destruct (key_is (key_of c) d) eqn:Ed; [done|]. intros Ef.
  destruct (key_compare (key_of c) (key_of d)) eqn:Ec; simpl.
  - apply key_compare_Eq in Ec. by rewrite Ec, key_is_refl in Ed.
  - constructor; [by constructor|]. constructor; [done|]. eapply Forall_impl; [exact Hd|]. intros e. by apply key_compare_trans.
  - constructor; [by apply IH|]. apply Forall_forall. intros e (x & -> & Hx)%elem_of_map.
    apply elem_of_insert_component in Hx as [->|Hx]; [by apply key_compare_flip|].
    rewrite Forall_forall in Hd. apply Hd, elem_of_map. eauto.
Qed.

Lemma filter_in_order q l : StronglySorted key_lt (map key_of l) → StronglySorted key_lt (map key_of (List.filter q l)).
Proof.
  induction l as [|d l IH]; simpl; [done|]. intros [Hl Hd]%StronglySorted_inv. destruct (q d); simpl; [|by apply IH].
  constructor; [by apply IH|]. rewrite Forall_forall in *. intros e (x & -> & [Hx _]%elem_of_filter_bool)%elem_of_map.
  apply Hd, elem_of_map. eauto.
Qed.

Lemma registry_new_ok : registry_ok registry_new.
Proof. split; [constructor|done|by intros c ?%not_elem_of_nil]. Qed.

(** ** What a report and a removal do *)

(** The account of a part after it reported [seen] at [now]. *)
Definition accounted (k : Key) (seen : Observation) (now : Duration) (held : option Component) : Component :=
  mkComponent k.1 k.2 (seen_state seen) (seen_reason seen)
    (match held with
     | Some h => if decide (part_state h = seen_state seen) then changed_at h else now
     | None => now
     end) (seen_evidence seen).

Lemma report_get kind id seen now r r' change :
  report kind id seen now r = (r', Ok change) →
  (∀ k, registry_get k r' = if decide (k = (kind, id)) then Some (accounted k seen now (registry_get k r)) else registry_get k r) ∧
  change = match registry_get (kind, id) r with
           | Some held => if decide (part_state held = seen_state seen) then None
                          else Some (mkStateChange (Some (part_state held)) (seen_state seen))
           | None => Some (mkStateChange None (seen_state seen))
           end.
Proof.
  unfold report. destruct (str_is_empty id); [done|]. destruct (registry_get (kind, id) r) as [held|] eqn:Eh.
  - intros [= <- <-]. split; [|done]. intros k. unfold registry_get. simpl.
    rewrite find_map_same by (intros c; by destruct (key_is _ c)).
    destruct (decide (k = (kind, id))) as [->|Hne].
    + unfold registry_get in Eh. rewrite Eh. simpl. apply find_component in Eh as [_ Hk].
      rewrite (proj2 (key_is_spec _ _)) by done. unfold seen_again, accounted, key_of in *. by injection Hk as -> ->.
    + destruct (List.find (key_is k) (components r)) as [c|] eqn:Ec; [|done]. simpl.
      apply find_component in Ec as [_ Hc]. rewrite key_is_ne; [done|congruence].
  - destruct (MAX_COMPONENTS <=? _); [done|]. intros [= <- <-]. split; [|done]. intros k. unfold registry_get. simpl.
    destruct (decide (k = (kind, id))) as [->|Hne]; [|by rewrite find_insert_ne].
    unfold registry_get in Eh. rewrite (find_insert_new (mkComponent kind id _ _ _ _)); by rewrite ?Eh.
Qed.

Lemma report_refused kind id seen now r r' e :
  report kind id seen now r = (r', Err e) →
  r' = r ∧ (e = EmptyId ∧ id = EmptyString ∨
            e = RegistryFull ∧ MAX_COMPONENTS ≤ Z.of_nat (length (components r)) ∧ registry_get (kind, id) r = None).
Proof.
  unfold report. destruct (str_is_empty id) eqn:Ei; [intros [= <- <-]; split; [done|left; split; [done|by apply String.eqb_eq in Ei]]|].
  destruct (registry_get (kind, id) r) eqn:Eh; [done|]. destruct (Z.leb_spec MAX_COMPONENTS (Z.of_nat (length (components r)))); [|done].
  intros [= <- <-]. auto.
Qed.

Lemma report_ok kind id seen now r : registry_ok r → registry_ok (report kind id seen now r).1.
Proof.
  intros [H1 H2 H3]. unfold report. destruct (str_is_empty id) eqn:Ei; [done|]. destruct (registry_get (kind, id) r) as [held|] eqn:Eh.
  - simpl. assert (Hk : ∀ c, key_of (if key_is (kind, id) c then seen_again seen now c else c) = key_of c) by (intros c; by destruct (key_is _ c)).
    split; simpl.
    + rewrite map_map. by erewrite map_ext by exact Hk.
    + by rewrite length_map.
    + intros c (d & -> & Hd)%elem_of_map. specialize (Hk d). injection Hk as _ ->. by apply H3.
  - destruct (Z.leb_spec MAX_COMPONENTS (Z.of_nat (length (components r)))); [done|]. simpl. split; simpl.
    + by apply insert_in_order.
    + rewrite length_insert_component. lia.
    + intros c [->|Hc]%elem_of_insert_component; [|by apply H3]. simpl. intros ->. done.
Qed.

Lemma remove_get k r k' : registry_get k' (registry_remove k r).1 = if decide (k' = k) then None else registry_get k' r.
Proof. apply find_without. Qed.

Lemma remove_ok k r : registry_ok r → registry_ok (registry_remove k r).1.
Proof.
  intros [H1 H2 H3]. split; simpl; [by apply filter_in_order| |].
  - etransitivity; [|exact H2]. apply inj_le. apply List.filter_length_le.
  - intros c [Hc _]%elem_of_filter_bool. by apply H3.
Qed.

Lemma get_iff r c : registry_ok r → (c ∈ components r ↔ registry_get (key_of c) r = Some c).
Proof.
  intros Hr. split; [|by intros [? _]%find_component]. destruct Hr as [Hs _ _]. unfold registry_get. revert Hs.
  induction (components r) as [|d l IH]; [by intros _ ?%not_elem_of_nil|]. intros [Hs Hd]%StronglySorted_inv.
  intros [->|Hin]%elem_of_cons; simpl; [by rewrite key_is_refl|].
  rewrite key_is_ne; [by apply IH|]. intros E. rewrite Forall_forall in Hd.
  assert (key_lt (key_of d) (key_of c)) as Hlt by (apply Hd, elem_of_map; eauto).
  unfold key_lt in Hlt. by rewrite (proj2 (key_compare_Eq _ _) E) in Hlt.
Qed.

(** ** The summary *)

Lemma severity_inj a b : severity a = severity b → a = b.
Proof. by destruct a, b. Qed.

Lemma worst_spec rest s :
  let worst := fold_left (fun worst s => if severity worst <=? severity s then s else worst) rest s in
  worst ∈ s :: rest ∧ ∀ t, t ∈ s :: rest → severity t ≤ severity worst.
Proof.
  revert s. induction rest as [|x rest IH]; intros s; simpl.
  - split; [by left|]. by intros t ->%list_elem_of_singleton.
  - destruct (Z.leb_spec (severity s) (severity x)); [destruct (IH x) as [Hin Hmax]|destruct (IH s) as [Hin Hmax]].
    + split; [by right|]. intros t [->|Ht]%elem_of_cons; [|by apply Hmax]. specialize (Hmax x ltac:(by left)). lia.
    + split; [apply elem_of_cons in Hin as [->|Hin]; [by left|by do 2 right]|].
      intros t [->|[->|Ht]%elem_of_cons]%elem_of_cons; [by apply Hmax; left| |by apply Hmax; right].
      specialize (Hmax s ltac:(by left)). lia.
Qed.

Lemma roll_up_spec states :
  (states = [] → roll_up states = StateUnknown) ∧
  (states ≠ [] → roll_up states ∈ states) ∧ ∀ s, s ∈ states → severity s ≤ severity (roll_up states).
Proof.
  destruct states as [|s rest]; simpl; [by split_and!; [..|intros ? ?%not_elem_of_nil]|].
  destruct (worst_spec rest s) as [Hin Hmax]. split_and!; [done|by intros _|done].
Qed.

(** ** The age of a state *)

(** When the state first reported in the latest run of equal states was reported; the reports, the latest first. *)
Fixpoint since (reports : list (ComponentState * Duration)) : option Duration :=
  match reports with
  | [] => None
  | [(_, at_time)] => Some at_time
  | (s, at_time) :: (((s', _) :: _) as earlier) => if decide (s' = s) then since earlier else Some at_time
  end.

(** The registry after reports and removals, and what was accepted of the part [k] since it was last added. *)
Inductive recorded (k : Key) : Registry → list (ComponentState * Duration) → Prop :=
  | recorded_new : recorded k registry_new []
  | recorded_report r history kind id seen now r' change :
      recorded k r history → report kind id seen now r = (r', Ok change) →
      recorded k r' (if decide (k = (kind, id)) then (seen_state seen, now) :: history else history)
  | recorded_refusal r history kind id seen now r' e :
      recorded k r history → report kind id seen now r = (r', Err e) → recorded k r' history
  | recorded_removal r history k' :
      recorded k r history → recorded k (registry_remove k' r).1 (if decide (k = k') then [] else history).

Lemma recorded_account k r history : recorded k r history →
  registry_ok r ∧
  match registry_get k r with
  | None => history = []
  | Some c => key_of c = k ∧ (fst <$> head history) = Some (part_state c) ∧ since history = Some (changed_at c)
  end.
Proof.
  induction 1 as [|r history kind id seen now r' change _ [Hok IH] Hr|r history kind id seen now r' e _ [Hok IH] Hr|r history k' _ [Hok IH]].
  - split; [exact registry_new_ok|done].
  - pose proof (report_ok kind id seen now r Hok) as Hok'. rewrite Hr in Hok'. split; [done|].
    apply report_get in Hr as [Hget _]. rewrite Hget. destruct (decide (k = (kind, id))) as [->|]; [|done].
    split; [done|]. split; [done|]. simpl. destruct (registry_get (kind, id) r) as [c|]; [|by subst].
    destruct IH as (_ & Hhead & Hsince). destruct history as [|[s t] history]; [done|]. simpl in Hhead. injection Hhead as ->.
    by destruct (decide (part_state c = seen_state seen)).
  - by apply report_refused in Hr as [-> _].
  - split; [by apply remove_ok|]. rewrite remove_get. by destruct (decide (k = k')).
Qed.

(** ** The service's parts *)

Lemma apply_readings_fold now l registry applied :
  registry_ok registry → NoDup (map reading_key l) → (∀ r, r ∈ l → rd_id r ≠ EmptyString) →
  Z.of_nat (length (components registry)) + Z.of_nat (length l) ≤ MAX_COMPONENTS →
  let registry' := (fold_left (apply_reading now) l (registry, applied)).1 in
  registry_ok registry' ∧
  ∀ k, registry_get k registry' =
    match List.find (fun r => bool_decide (reading_key r = k)) l with
    | Some r => Some (accounted k (with_evidence (rd_evidence r) (observation_new (rd_state r) (rd_reason r))) now (registry_get k registry))
    | None => registry_get k registry
    end.
Proof.
  revert registry applied. induction l as [|r l IH]; intros registry applied Hok Hnd Hid Hroom; [done|]. simpl.
  apply NoDup_cons in Hnd as [Hr Hnd]. simpl in Hroom.
  destruct (report (rd_kind r) (rd_id r) _ now registry) as [registry' answer] eqn:Er.
  destruct answer as [change|e].
  2: { apply report_refused in Er as [_ [[_ E]|(_ & Hfull & _)]]; [|lia]. by destruct (Hid r ltac:(by left)). }
  pose proof (report_ok (rd_kind r) (rd_id r) (with_evidence (rd_evidence r) (observation_new (rd_state r) (rd_reason r))) now registry Hok) as Hok'.
  rewrite Er in Hok'. pose proof Er as Hlen. apply report_get in Er as [Hget _].
  assert (Z.of_nat (length (components registry')) ≤ Z.of_nat (length (components registry)) + 1) as Hl.
  { revert Hlen. unfold report. destruct (str_is_empty _); [done|]. destruct (registry_get _ registry).
    - intros [= <- _]. simpl. rewrite length_map. lia.
    - destruct (MAX_COMPONENTS <=? _); [done|]. intros [= <- _]. simpl. rewrite length_insert_component. lia. }
  assert (fold_left (apply_reading now) l (match change with
    | Some change => (registry', applied ++ [mkApplied (rd_kind r) (rd_id r) (Some change) false])
    | None => (registry', applied) end) =
    fold_left (apply_reading now) l (registry', match change with
    | Some change => applied ++ [mkApplied (rd_kind r) (rd_id r) (Some change) false] | None => applied end)) as -> by (by destruct change).
  destruct (IH registry' (match change with
    | Some change => applied ++ [mkApplied (rd_kind r) (rd_id r) (Some change) false] | None => applied end) Hok' Hnd) as [Hok2 Hget2].
  { intros x Hx. apply Hid. by right. }
  { lia. }
  split; [done|]. intros k. rewrite Hget2, !Hget. fold (reading_key r). case_bool_decide as Ek.
  - subst k. rewrite decide_True by done.
    destruct (List.find _ l) as [x|] eqn:Ef; [|done]. exfalso. apply Hr.
    apply find_Some_elem in Ef as [Hx E%bool_decide_eq_true]. rewrite <-E. apply elem_of_map. eauto.
  - by rewrite decide_False by done.
Qed.

Lemma remove_all gone r :
  registry_ok r →
  let r' := fold_left (fun r part => (registry_remove (key_of part) r).1) gone r in
  registry_ok r' ∧ ∀ k, registry_get k r' = if decide (k ∈ map key_of gone) then None else registry_get k r.
Proof.
  revert r. induction gone as [|c gone IH]; intros r Hr; simpl; [by split|].
  destruct (IH (registry_remove (key_of c) r).1) as [Hok Hget]; [by apply remove_ok|]. split; [done|]. intros k.
  rewrite Hget, remove_get. destruct (decide (k ∈ map key_of gone)) as [Hin|Hnot].
  - by rewrite decide_True by (by right).
  - destruct (decide (k = key_of c)) as [->|Hne]; [by rewrite decide_True by left|].
    rewrite decide_False; [done|]. by intros [?|?]%elem_of_cons.
Qed.

Lemma apply_readings_spec l now registry :
  registry_ok registry → NoDup (map reading_key l) → (∀ r, r ∈ l → rd_id r ≠ EmptyString) →
  Z.of_nat (length (components registry)) + Z.of_nat (length l) ≤ MAX_COMPONENTS →
  let registry' := (apply_readings l now registry).1 in
  registry_ok registry' ∧
  ∀ k, registry_get k registry' =
    match List.find (fun r => bool_decide (reading_key r = k)) l with
    | Some r => Some (accounted k (with_evidence (rd_evidence r) (observation_new (rd_state r) (rd_reason r))) now (registry_get k registry))
    | None => if decide (k.1 ∈ OWNED_KINDS) then None else registry_get k registry
    end.
Proof.
  intros Hok Hnd Hid Hroom. destruct (apply_readings_fold now l registry [] Hok Hnd Hid Hroom) as [Hok1 Hget1].
  unfold apply_readings. destruct (fold_left (apply_reading now) l (registry, [])) as [mid applied]. simpl in *.
  destruct (remove_all (List.filter (is_gone l) (components mid)) mid Hok1) as [Hok2 Hget2].
  split; [done|]. intros k. rewrite Hget2. specialize (Hget1 k).
  destruct (List.find _ l) as [r|] eqn:Ef.
  - rewrite decide_False; [done|]. intros (c & -> & [_ Hc]%elem_of_filter_bool)%elem_of_map.
    apply andb_true_iff in Hc as [_ Hc%negb_true_iff]. rewrite existsb_false_elem in Hc.
    apply find_Some_elem in Ef as [Hr E]. by rewrite (Hc r Hr) in E.
  - destruct (decide (k ∈ _)) as [Hin|Hnot].
    + apply elem_of_map in Hin as (c & -> & [_ Hc]%elem_of_filter_bool). apply andb_true_iff in Hc as [Ho%bool_decide_eq_true _].
      by rewrite decide_True.
    + destruct (decide (k.1 ∈ OWNED_KINDS)) as [Ho|]; [|done]. destruct (registry_get k mid) as [c|] eqn:Ec; [|done].
      exfalso. apply Hnot, elem_of_map. apply find_component in Ec as [Hc <-]. exists c. split; [done|].
      apply elem_of_filter_bool. split; [done|]. unfold is_gone. rewrite bool_decide_eq_true_2 by done. simpl.
      apply negb_true_iff, existsb_false_elem. intros x Hx. exact (find_None_elem _ _ Ef x Hx).
Qed.

(** ** Cleaned text *)

Lemma char_seq_filter p l : char_seq l → char_seq (List.filter p l).
Proof.
  intros [H1 H2]. rewrite !Forall_forall in *. split; apply Forall_forall.
  - intros c [Hc _]%elem_of_filter_bool. by apply H1.
  - intros c Hc. apply H2. destruct l as [|x l]; [done|]. simpl in *. destruct (p x); simpl in Hc.
    + by apply elem_of_filter_bool in Hc as [? _].
    + assert (c ∈ List.filter p l) as [? _]%elem_of_filter_bool; [|done]. destruct (List.filter p l); [done|by right].
Qed.

Lemma elem_of_rev {A} (l : list A) x : x ∈ rev l ↔ x ∈ l.
Proof. rewrite !list_elem_of_In. symmetry. apply in_rev. Qed.

Lemma elem_of_trimmed l x : x ∈ trimmed l → x ∈ l.
Proof. unfold trimmed. rewrite elem_of_rev. intros Hx%elem_of_skip_while. rewrite elem_of_rev in Hx. by apply elem_of_skip_while in Hx. Qed.

Lemma chars_clean s : chars (clean s) = trimmed (List.filter (fun c => negb (is_hostile c)) (chars s)).
Proof. unfold clean. by rewrite chars_trim, chars_concat by apply char_seq_filter, chars_char_seq. Qed.

Lemma filter_id {A} (p : A → bool) l : (∀ x, x ∈ l → p x = true) → List.filter p l = l.
Proof.
  induction l as [|x l IH]; intros Hl; [done|]. simpl. rewrite (Hl x) by left. f_equal. apply IH. intros y Hy. apply Hl. by right.
Qed.

Lemma clean_clean s : clean (clean s) = clean s.
Proof.
  unfold clean at 1. rewrite filter_id.
  - rewrite concat_chars. unfold clean. apply trim_trim.
  - intros c. rewrite chars_clean. intros Hc%elem_of_trimmed. by apply elem_of_filter_bool in Hc as [_ ?].
Qed.

(** ** The reply and its reader *)

Lemma component_kind_parses k : parse_component_kind (component_kind_str k) = Ok k.
Proof. by destruct k. Qed.
Lemma component_state_parses s : parse_component_state (component_state_str s) = Ok s.
Proof. by destruct s. Qed.

(** Evidence within the types that hold it. *)
Definition evidence_ok (e : Evidence) : Prop :=
  (∀ n, latency_ms e = Some n → 0 ≤ n ≤ U32_MAX) ∧ (∀ n, loss_permille e = Some n → 0 ≤ n ≤ 1000) ∧
  (∀ n, restarts e = Some n → 0 ≤ n ≤ U32_MAX).

Lemma number_reads value key max o :
  Json.get value key = Some (number o) → max ≤ U64_MAX → (∀ n, o = Some n → 0 ≤ n ≤ max) → optional_number value key max = Ok o.
Proof.
  intros Hget Hmax Ho. unfold optional_number. rewrite Hget. destruct o as [n|]; [|done]. simpl.
  destruct (Ho n eq_refl). rewrite (proj2 (Z.leb_le 0 n)), (proj2 (Z.leb_le n U64_MAX)) by lia. cbn [andb ok_or mbind result_bind].
  by rewrite (proj2 (Z.ltb_ge max n)) by lia.
Qed.

(** What a client reads of a part. *)
Definition as_read (now : Duration) (c : Component) : ComponentReply :=
  mkComponentReply (part_kind c) (clean (part_id c)) (part_state c) (clean (part_reason c)) (ago_ms now (changed_at c)) (part_evidence c).

Lemma ago_range now changed : 0 ≤ ago_ms now changed ≤ U64_MAX.
Proof. unfold ago_ms, as_millis. assert (0 ≤ Z.max 0 (now - changed) / 1000000) by (apply Z.div_pos; lia). unfold U64_MAX in *. lia. Qed.

Lemma component_reads now c :
  fits (clean (part_id c)) (clean (part_reason c)) = true → evidence_ok (part_evidence c) →
  decode_component (component_value now c) = Ok (as_read now c).
Proof.
  intros Hfits (H1 & H2 & H3). unfold fits in Hfits. apply andb_true_iff in Hfits as [Hfits Hr%Z.leb_le].
  apply andb_true_iff in Hfits as [He%negb_true_iff Hi%Z.leb_le].
  unfold decode_component, text_field, component_value. rewrite !get_object. cbn [assoc String.eqb Ascii.eqb Bool.eqb mbind option_bind as_str ok_or result_bind].
  rewrite component_kind_parses, component_state_parses. cbn [mbind result_bind]. rewrite !clean_clean, He.
  rewrite (proj2 (Z.ltb_ge _ _)) by done. cbn [orb]. rewrite (proj2 (Z.ltb_ge _ _)) by done.
  pose proof (ago_range now (changed_at c)). cbn [as_u64].
  rewrite (proj2 (Z.leb_le 0 _)), (proj2 (Z.leb_le _ U64_MAX)) by lia. cbn [andb ok_or mbind result_bind].
  rewrite (number_reads _ "latency_ms" U32_MAX (latency_ms (part_evidence c))), (number_reads _ "loss_permille" 1000 (loss_permille (part_evidence c))),
    (number_reads _ "restarts" U32_MAX (restarts (part_evidence c))); try (by rewrite get_object); try done.
  cbn [mbind result_bind]. unfold as_read. by destruct (part_evidence c).
Qed.

Lemma list_reads now parts seen :
  (∀ c, c ∈ parts → fits (clean (part_id c)) (clean (part_reason c)) = true ∧ evidence_ok (part_evidence c)) →
  NoDup (map (fun c => reply_key (as_read now c)) parts) → (∀ c, c ∈ parts → reply_key (as_read now c) ∉ seen) →
  decode_list seen (map (component_value now) parts) = Ok (map (as_read now) parts).
Proof.
  revert seen. induction parts as [|c parts IH]; intros seen Hok Hnd Hseen; [done|]. simpl map. cbn [decode_list].
  rewrite bool_decide_eq_false_2 by done. destruct (Hok c ltac:(by left)) as [Hf He]. rewrite component_reads by done.
  cbn [mbind result_bind]. simpl map in Hnd. apply NoDup_cons in Hnd as [Hnew Hnd].
  rewrite (proj2 (existsb_false_elem _ _)).
  2: { intros k Hk. apply bool_decide_eq_false_2. intros ->. by apply (Hseen c ltac:(by left)). }
  rewrite IH; [done|intros d Hd; apply Hok; by right|done|].
  intros d Hd. apply not_elem_of_cons. split; [|apply Hseen; by right]. intros E. apply Hnew. rewrite <-E. apply elem_of_map. eauto.
Qed.

(** ** The facts and their readings *)

Lemma insert_reading_perm r l : insert_reading r l ≡ₚ r :: l.
Proof.
  induction l as [|d l IH]; [done|]. simpl. destruct (key_compare _ _); [done..|]. rewrite IH. constructor.
Qed.

Lemma sort_readings_perm l : sort_readings l ≡ₚ l.
Proof. induction l as [|r l IH]; [done|]. simpl. by rewrite insert_reading_perm, IH. Qed.

Lemma path_reading_key view d : reading_key (path_reading view d) = (NetworkPath, "interface-" +:+ pretty (view_id view)).
Proof.
  unfold path_reading.
  destruct (match view_role view with Carrying => _ | Standby => _ | UnusableRole => _ end) as [part reason]. done.
Qed.

Lemma append_inj (p a b : string) : p +:+ a = p +:+ b → a = b.
Proof. induction p as [|c p IH]; [done|]. intros [= E]. by apply IH. Qed.

(** The snapshots name no network twice, and the endpoint by something. *)
Definition facts_ok (s : StateSnapshot) (paths : PathsSnapshot) : Prop :=
  NoDup (map view_id (snapshot_paths paths)) ∧ ∀ e, active_endpoint s = Some e → ae_id e ≠ EmptyString.

Lemma reading_plain_key k id p r : reading_key (plain_reading k id p r) = (k, id).
Proof. done. Qed.

Lemma session_key s : reading_key (session_reading s) = (SessionPart, "connection").
Proof. unfold session_reading. by destruct (status s). Qed.
Lemma routes_key s : reading_key (routes_reading s) = (Routes, "posture").
Proof. unfold routes_reading. by destruct (status s), (posture s). Qed.

Lemma readings_keys s paths : facts_ok s paths →
  NoDup (map reading_key (readings s paths)) ∧ ∀ r, r ∈ readings s paths → rd_id r ≠ EmptyString.
Proof.
  intros [Hpaths Hend]. unfold readings.
  set (ends := match active_endpoint s with Some e => _ | None => [] end).
  set (sign := match failure s with Some CaptivePortalUnsatisfied => _ | _ => [] end).
  set (nets := map _ (snapshot_paths paths)).
  assert (Hends : ends = [] ∨ ∃ r e, ends = [r] ∧ reading_key r = (EndpointPart, e) ∧ e ≠ EmptyString).
  { unfold ends. destruct (active_endpoint s) as [e|]; [|by left]. specialize (Hend e eq_refl).
    destruct (status s); simpl; [by left|right; eexists _, (ae_id e); done..]. }
  assert (Hsign : sign = [] ∨ ∃ r, sign = [r] ∧ reading_key r = (CaptivePortal, "sign-in")).
  { unfold sign. destruct (failure s) as [[]|]; try (by left). right. eexists. done. }
  assert (Hnets : map reading_key nets = map (fun i => (NetworkPath, "interface-" +:+ pretty i)) (map view_id (snapshot_paths paths))).
  { unfold nets. rewrite !map_map. apply map_ext. intros view. apply path_reading_key. }
  clearbody ends sign nets.
  set (all := [session_reading s; routes_reading s] ++ ends ++ sign ++ nets).
  assert (Hn : NoDup (map reading_key nets)).
  { rewrite Hnets. apply NoDup_fmap_2; [|done]. intros i j [= E%append_inj]. by apply (inj pretty) in E. }
  assert (Hk : ∀ r, r ∈ nets → ∃ i : InterfaceId, reading_key r = (NetworkPath, "interface-" +:+ pretty i)).
  { intros r Hr. assert (reading_key r ∈ map reading_key nets) as Hin by (apply elem_of_map; eauto).
    rewrite Hnets in Hin. apply elem_of_map in Hin as (i & E & _). eauto. }
  split.
  - rewrite sort_readings_perm. fold all. unfold all. rewrite !map_app. simpl. rewrite session_key, routes_key.
    assert (Hnot : ∀ k id, k ≠ NetworkPath → (k, id) ∉ map reading_key nets).
    { intros k id Hne (r & E & Hr)%elem_of_map. destruct (Hk r Hr) as [i Ei]. congruence. }
    destruct Hends as [->|(re & e & -> & Ke & _)], Hsign as [->|(rs & -> & Ks)]; simpl; rewrite ?Ke, ?Ks;
      repeat (apply NoDup_cons; split; [rewrite ?elem_of_cons; intuition (try congruence);
        match goal with Hin : _ ∈ map reading_key nets |- _ => by apply Hnot in Hin end|]); done.
  - intros r. rewrite sort_readings_perm. fold all. unfold all. rewrite !elem_of_app, !elem_of_cons, elem_of_nil.
    assert (Hid : ∀ k id, reading_key r = (k, id) → id ≠ EmptyString → rd_id r ≠ EmptyString) by (intros k id [= <- <-]; done).
    intros [[->|[->|[]]]|[Hr|[Hr|Hr]]].
    + by apply (Hid _ _ (session_key s)).
    + by apply (Hid _ _ (routes_key s)).
    + destruct Hends as [E|(re & e & E & Ke & Hne)]; rewrite E in Hr; [by apply elem_of_nil in Hr|].
      apply list_elem_of_singleton in Hr as ->. by apply (Hid _ _ Ke).
    + destruct Hsign as [E|(rs & E & Ks)]; rewrite E in Hr; [by apply elem_of_nil in Hr|].
      apply list_elem_of_singleton in Hr as ->. by apply (Hid _ _ Ks).
    + destruct (Hk r Hr) as [i Ei]. by apply (Hid _ _ Ei).
Qed.

(** * Theorems *)

(** However parts report and are forgotten, the registry holds each at most once, in order, and never more than it
    has room for; of each part it holds it keeps the state it last reported, and says that state began when it was first
    reported in the latest unbroken run of it; a report it refuses changes nothing; and a new part never takes the place
    of one it holds. *)
Theorem state_ages_are_honest k r history : recorded k r history →
  registry_ok r ∧
  (∀ c, registry_get k r = Some c → (fst <$> head history) = Some (part_state c) ∧ since history = Some (changed_at c)) ∧
  ∀ kind id seen now r' answer, report kind id seen now r = (r', answer) →
    match answer with
    | Err _ => r' = r
    | Ok _ => ∀ k', k' ≠ (kind, id) → registry_get k' r' = registry_get k' r
    end.
Proof.
  intros [Hok Hk]%recorded_account. split; [done|]. split.
  - intros c Ec. rewrite Ec in Hk. tauto.
  - intros kind id seen now r' [change|e] E; [|by apply report_refused in E as [-> _]].
    apply report_get in E as [Hget _]. intros k' Hne. by rewrite Hget, decide_False.
Qed.

(** After the service looks at the connection and the networks, the parts it owns are held exactly as what it saw
    says, each with the age of its state, no part it no longer sees is left, and parts of other kinds are as they were;
    and none is said to be well that was not seen to be: the connection only when it is up, the routing only when
    traffic is tunnelled, a network only when it was measured and good. *)
Theorem parts_mirror_the_facts now s paths t :
  registry_ok (registry t) → facts_ok s paths →
  Z.of_nat (length (components (registry t))) + Z.of_nat (length (readings s paths)) ≤ MAX_COMPONENTS →
  let t' := (observe_at now s paths t).1 in
  registry_ok (registry t') ∧
  (∀ k, match List.find (fun r => bool_decide (reading_key r = k)) (readings s paths) with
        | Some r => ∃ c, registry_get k (registry t') = Some c ∧ part_state c = rd_state r ∧ part_reason c = rd_reason r ∧
            part_evidence c = rd_evidence r ∧
            (changed_at c = now ∨ ∃ h, registry_get k (registry t) = Some h ∧ part_state h = part_state c ∧ changed_at c = changed_at h)
        | None => registry_get k (registry t') = if decide (k.1 ∈ OWNED_KINDS) then None else registry_get k (registry t)
        end) ∧
  (rd_state (session_reading s) = StateOk → status s = Connected) ∧
  (rd_state (routes_reading s) = StateOk → status s = Connected ∧ ∃ tier, posture s = Tunnelled tier) ∧
  (∀ view d, rd_state (path_reading view d) = StateOk →
     view_measured view = true ∧ view_band view = Some Good ∨ ∃ g, d = Some g ∧ deg_path g = view_id view ∧ deg_band g = Good).
Proof.
  intros Hok [Hnd Hid]%readings_keys Hroom. destruct (apply_readings_spec _ now _ Hok Hnd Hid Hroom) as [Hok' Hget].
  unfold observe_at. destruct (apply_readings (readings s paths) now (registry t)) as [r' applied]. simpl in *.
  split; [done|]. split_and!.
  - intros k. rewrite Hget. destruct (List.find _ (readings s paths)) as [r|]; [|done]. eexists. split; [done|]. simpl.
    split_and!; [done..|]. destruct (registry_get k (registry t)) as [h|]; [|by left].
    destruct (decide (part_state h = rd_state r)); [right; eauto|by left].
  - unfold session_reading. by destruct (status s).
  - unfold routes_reading. destruct (status s), (posture s); simpl; eauto; done.
  - intros view d. unfold path_reading. destruct d as [g|]; [destruct (decide (deg_path g = view_id view))|];
      destruct (view_role view), (view_measured view), (view_band view) as [[]|]; simpl; auto; try done;
      destruct (deg_band g) eqn:Eg; simpl; try done; intros _; right; eauto.
Qed.

(** A client reads the reply just as it was written: every part the service holds whose words fit, with its age,
    and one summary that is the worst of their states, whatever order they come in; a part whose words do not fit is
    left out and the rest are still read. *)
Theorem components_reply_reads_back `{JsonText} r now as_of :
  registry_ok r → (∀ c, c ∈ components r → evidence_ok (part_evidence c)) → 0 ≤ as_of ≤ U64_MAX →
  NoDup (map (fun c => (part_kind c, clean (part_id c))) (written_parts (components r))) →
  let v := components_value (components r) now as_of in
  from_str (json_to_string v) = Ok v →
  ∃ cs, decode_components (encode_components (components r) now as_of) = Ok (mkComponentsReply as_of (roll_up (map cr_state cs)) cs) ∧
    cs = map (as_read now) (written_parts (components r)) ∧
    (∀ c, c ∈ components r → fits (clean (part_id c)) (clean (part_reason c)) = true → as_read now c ∈ cs) ∧
    ∀ c, c ∈ cs → severity (cr_state c) ≤ severity (roll_up (map cr_state cs)).
Proof.
  intros [_ Hroom _] Hev Has Hnd v Hjson. exists (map (as_read now) (written_parts (components r))).
  assert (Hall : written_parts (components r) = List.filter (fun c => fits (clean (part_id c)) (clean (part_reason c))) (components r)).
  { unfold written_parts. apply take_ge. pose proof (List.filter_length_le (fun c => fits (clean (part_id c)) (clean (part_reason c))) (components r)).
    unfold MAX_COMPONENTS in Hroom. lia. }
  assert (Hfit : ∀ c, c ∈ written_parts (components r) → fits (clean (part_id c)) (clean (part_reason c)) = true ∧ evidence_ok (part_evidence c)).
  { intros c Hc. rewrite Hall in Hc. apply elem_of_filter_bool in Hc as [Hc ?]. auto. }
  split_and!; [|done| |].
  - unfold decode_components, encode_components. fold v. rewrite Hjson. unfold v, components_from_value, components_value.
    rewrite bool_decide_eq_false_2 by done. unfold text_field. rewrite !get_object.
    cbn [assoc String.eqb Ascii.eqb Bool.eqb mbind option_bind as_u64 as_str as_array].
    rewrite (proj2 (Z.leb_le 0 as_of)), (proj2 (Z.leb_le as_of U64_MAX)) by lia. cbn [andb ok_or mbind result_bind].
    rewrite component_state_parses. cbn [mbind result_bind]. rewrite length_map, Hall.
    assert (Z.of_nat (length (List.filter (fun c => fits (clean (part_id c)) (clean (part_reason c))) (components r))) ≤ MAX_COMPONENTS).
    { pose proof (List.filter_length_le (fun c => fits (clean (part_id c)) (clean (part_reason c))) (components r)). lia. }
    rewrite (proj2 (Z.ltb_ge _ _)) by done. rewrite <-Hall. rewrite list_reads; [|done|done|by intros c _ ?%elem_of_nil].
    cbn [mbind result_bind]. rewrite map_map. simpl. by rewrite bool_decide_eq_true_2 by done.
  - intros c Hc Hf. apply elem_of_map. exists c. split; [done|]. rewrite Hall. by apply elem_of_filter_bool.
  - intros c Hc. apply roll_up_spec, elem_of_map. eauto.
Qed.

(** * Witnesses *)

Module RegistryDemo.
(** A service that has just started, and looks at the connection. *)
Definition idle : StateSnapshot := mkSnapshot Disconnected None None None [] FailClosed.
Definition no_networks : PathsSnapshot := mkPathsSnapshot [] None.
Definition looked : Tracker := (observe_at 7 idle no_networks (tracker_new 0)).1.
Definition reply : Value := components_value (components (registry looked)) 1000007 5.
#[export] Instance written : JsonText := {| from_str _ := Ok reply; json_to_string _ := "reply" |}.

Lemma facts : facts_ok idle no_networks.
Proof. split; [constructor|done]. Qed.
Definition fine : Observation := observation_new StateOk "fine".
End RegistryDemo.
Import RegistryDemo.

Lemma state_ages_are_honest_witness :
  registry_get (Guard, "guard") (report Guard "guard" fine 9 (report Guard "guard" fine 4 registry_new).1).1 =
    Some (mkComponent Guard "guard" StateOk "fine" 4 no_evidence).
Proof.
  assert (Hr : recorded (Guard, "guard") (report Guard "guard" fine 9 (report Guard "guard" fine 4 registry_new).1).1
    [(StateOk, 9); (StateOk, 4)]).
  { refine (recorded_report _ (report Guard "guard" fine 4 registry_new).1 [(StateOk, 4)] Guard "guard" fine 9 _ None _ eq_refl).
    refine (recorded_report _ registry_new [] Guard "guard" fine 4 _ (Some (mkStateChange None StateOk)) _ eq_refl).
    apply recorded_new. }
  destruct (state_ages_are_honest _ _ _ Hr) as (_ & Hage & _).
  destruct (registry_get (Guard, "guard") _) as [c|] eqn:E; [|discriminate E].
  destruct (Hage c eq_refl) as [_ [= Hc]]. revert Hc. vm_compute in E. injection E as <-. reflexivity.
Defined.

Lemma parts_mirror_the_facts_witness :
  ∃ c, registry_get (SessionPart, "connection") (registry looked) = Some c ∧ part_state c = StateOff ∧ changed_at c = 7.
Proof.
  destruct (parts_mirror_the_facts 7 idle no_networks (tracker_new 0) registry_new_ok facts
    ltac:(vm_compute; discriminate)) as (_ & Hparts & _).
  destruct (Hparts (SessionPart, "connection")) as (c & Hc & Hs & _ & _ & [Ht|(h & Hh & _)]); [|discriminate Hh].
  exists c. exact (conj Hc (conj Hs Ht)).
Defined.

Lemma components_reply_reads_back_witness :
  ∃ cs, decode_components (encode_components (components (registry looked)) 1000007 5) =
          Ok (mkComponentsReply 5 (roll_up (map cr_state cs)) cs) ∧
        map cr_changed_ago_ms cs = [1; 1].
Proof.
  assert (Hnd : NoDup (map (fun c => (part_kind c, clean (part_id c))) (written_parts (components (registry looked))))).
  { apply (bool_decide_unpack _). vm_compute. exact I. }
  assert (Hev : ∀ c, c ∈ components (registry looked) → evidence_ok (part_evidence c)).
  { intros c Hc. assert (part_evidence c = no_evidence) as ->.
    { revert c Hc. apply Forall_forall. vm_compute. repeat constructor. }
    split_and!; discriminate. }
  destruct (components_reply_reads_back (registry looked) 1000007 5
    (proj1 (parts_mirror_the_facts 7 idle no_networks (tracker_new 0) registry_new_ok facts ltac:(vm_compute; discriminate)))
    Hev ltac:(vm_compute; split; discriminate) Hnd eq_refl) as (cs & Hd & Hcs & _).
  exists cs. split; [exact Hd|]. rewrite Hcs. vm_compute. reflexivity.
Defined.
