(* ===== verification/Netview.v ===== *)
(** The networks and the counters of a connection as a client reads them (crates/dnet-ipc/src/netview.rs). *)

From Stdlib Require Import SpecFloat Ascii.
From S2P Require Import Prelude Float Text Profile Health Quality Degraded Session Telemetry Json Protocol EventBus Registry.

(** * Definitions *)

(* src: crates/dnet-ipc/src/netview.rs:25-26 MAX_PATHS *)
Definition MAX_PATHS : nat := 32.
(* src: crates/dnet-ipc/src/netview.rs:27-28 MAX_TRACE *)
Definition MAX_TRACE : nat := 64.
(* src: crates/dnet-ipc/src/netview.rs:29-31 MAX_NAME_CHARS *)
Definition MAX_NAME_CHARS : nat := 64.

(* src: crates/dnet-ipc/src/netview.rs:54-62 clean_name *)
Definition clean_name (raw : string) : option string :=
  let kept := trim (concat_str (List.filter (fun c => negb (is_hostile c)) (chars raw))) in
  if str_is_empty kept then None else Some (concat_str (take MAX_NAME_CHARS (chars kept))).

(* src: crates/dnet-ipc/src/netview.rs:66-73 Kind *)
Inductive Kind : Type := WifiKind | CellularKind | EthernetKind | AnyKind.

(* src: crates/dnet-ipc/src/netview.rs:75-81 Role *)
Inductive Role : Type := RoleCarrying | RoleStandby | RoleUnusable.

(* src: crates/dnet-ipc/src/netview.rs:83-89 Quality *)
Inductive Quality : Type := QualityGood | QualityPoor | QualityUnusable.

#[export] Instance Role_eq_dec : EqDecision Role.
Proof. solve_decision. Defined.

(* src: crates/dnet-ipc/src/netview.rs:91-109 PathReply *)
Record PathReply : Type := mkPathReply {
  pr_id : string;
  pr_kind : Kind;
  pr_name : option string;
  pr_role : Role;
  pr_measured : bool;
  pr_quality : option Quality;
  pr_rtt_ms : option f64;
  pr_jitter_ms : option f64;
  pr_loss : option f64;
  pr_trace_ms : list (option f64);
  pr_typical_ms : option (f64 * f64);
}.

(* src: crates/dnet-ipc/src/netview.rs:111-118 DegradedReply *)
Record DegradedReply : Type := mkDegradedReply { dr_path : string; dr_quality : Quality; dr_staying : string }.

(* src: crates/dnet-ipc/src/netview.rs:120-131 PathsReply *)
Record PathsReply : Type := mkPathsReply {
  pa_as_of_unix_ms : Z;
  pa_watching : bool;
  pa_paths : list PathReply;
  pa_degraded : option DegradedReply;
}.

(* src: crates/dnet-ipc/src/netview.rs:133-140 kind_str *)
Definition path_kind_str (k : PathKind) : string :=
  match k with Wifi => "Wifi" | Cellular => "Cellular" | Ethernet => "Ethernet" | OtherKind => "Other" end.

(* src: crates/dnet-ipc/src/netview.rs:142-148 role_str *)
Definition role_str (r : PathRole) : string :=
  match r with Carrying => "Carrying" | Standby => "Standby" | UnusableRole => "Unusable" end.

(* src: crates/dnet-ipc/src/netview.rs:150-156 quality_str *)
Definition quality_str (b : QualityBand) : string :=
  match b with Good => "Good" | Poor => "Poor" | Unusable => "Unusable" end.

Definition f64_is_finite (x : f64) : bool := match x with S754_infinity _ | S754_nan => false | _ => true end.
(** A double in JSON: null when it is not finite. *)
Definition json_f64 (x : f64) : Value := if f64_is_finite x then Num (Float x) else Null.

(** [f64::from] of an [f32]. *)
Definition f64_of_f32 (x : f32) : f64 :=
  match x with
  | S754_finite s m e => binary_normalize 53 1024 (if s then Z.neg m else Z.pos m) e s
  | _ => x
  end.

(* src: crates/dnet-ipc/src/netview.rs:158-165 num *)
Definition num (value : f64) (decimals : Z) : Value :=
  if negb (f64_is_finite value) then Null
  else let scale := f64_of_Z (10 ^ decimals) in json_f64 (f64_div (f64_round (f64_mul value scale)) scale).

(* src: crates/dnet-ipc/src/netview.rs:167-169 millis *)
Definition millis (d : Duration) : Value := num (f64_mul (as_secs_f64 d) (f64_of_Z 1000)) 1.

Definition or_null {A} (f : A → Value) (o : option A) : Value := match o with Some a => f a | None => Null end.

(* src: crates/dnet-ipc/src/netview.rs:178-196 encode_paths *)
Definition path_value (p : PathView) : Value := object [
  ("id", Str (pretty (view_id p)));
  ("kind", Str (path_kind_str (view_kind p)));
  ("name", or_null Str (name ← view_name p; clean_name name));
  ("role", Str (role_str (view_role p)));
  ("measured", Bool (view_measured p));
  ("quality", or_null (fun b => Str (quality_str b)) (view_band p));
  ("rtt_ms", or_null millis (view_rtt p));
  ("jitter_ms", or_null millis (view_jitter p));
  ("loss", or_null (fun l => num (f64_clamp l f64_zero f64_one) 3) (view_loss p));
  ("trace_ms", Array (map (or_null (fun ms => num (f64_of_f32 ms) 1)) (take MAX_TRACE (view_trace_ms p))));
  ("typical_ms", or_null (fun t => Array [num (f64_of_f32 t.1) 1; num (f64_of_f32 t.2) 1]) (view_typical_ms p))].

(* src: crates/dnet-ipc/src/netview.rs:171-212 encode_paths *)
Definition paths_value (snapshot : PathsSnapshot) (watching : bool) (as_of_unix_ms : Z) : Value := object [
  ("as_of_unix_ms", Num (Int as_of_unix_ms));
  ("watching", Bool watching);
  ("paths", Array (map path_value (take MAX_PATHS (snapshot_paths snapshot))));
  ("degraded", or_null (fun d => object [
     ("path", Str (pretty (deg_path d)));
     ("quality", Str (quality_str (deg_band d)));
     ("staying", Str (staying_name (deg_staying d)))]) (snapshot_degradation snapshot))].

(* src: crates/dnet-ipc/src/netview.rs:248-249 MAX_MS *)
Definition MAX_MS : f64 := f64_of_Z 86400000.

Definition f64_within (max n : f64) : bool := f64_is_finite n && SFleb f64_zero n && SFleb n max.

(* src: crates/dnet-ipc/src/netview.rs:251-254 plausible_ms *)
Definition plausible_ms (v : Value) : option f64 := filter_opt (f64_within MAX_MS) (as_f64 v).

(* src: crates/dnet-ipc/src/netview.rs:226-237 optional_f64 *)
Definition optional_f64 (o : Value) (key : string) (max : f64) : result IpcError (option f64) :=
  match Json.get o key with
  | None | Some Null => Ok None
  | Some v =>
      n ← ok_or (filter_opt (f64_within max) (as_f64 v)) (invalid ("`" +:+ key +:+ "` is not a plausible number"));
      Ok (Some n)
  end.

(* src: crates/dnet-ipc/src/netview.rs:239-246 parse_quality *)
Definition parse_quality (s : string) : result IpcError Quality :=
  if String.eqb s "Good" then Ok QualityGood
  else if String.eqb s "Poor" then Ok QualityPoor
  else if String.eqb s "Unusable" then Ok QualityUnusable
  else Err (invalid "an unknown quality").

(* src: crates/dnet-ipc/src/netview.rs:316-321 decode_path *)
Definition parse_path_kind (s : string) : Kind :=
  if String.eqb s "Wifi" then WifiKind else if String.eqb s "Cellular" then CellularKind
  else if String.eqb s "Ethernet" then EthernetKind else AnyKind.

(* src: crates/dnet-ipc/src/netview.rs:322-327 decode_path *)
Definition parse_role (s : string) : result IpcError Role :=
  if String.eqb s "Carrying" then Ok RoleCarrying else if String.eqb s "Standby" then Ok RoleStandby
  else if String.eqb s "Unusable" then Ok RoleUnusable else Err (invalid "a network has an unknown role").

(* src: crates/dnet-ipc/src/netview.rs:349-367 decode_path *)
Definition decode_trace (o : Value) : result IpcError (list (option f64)) :=
  match Json.get o "trace_ms" with
  | None | Some Null => Ok []
  | Some v =>
      readings ← ok_or (as_array v) (invalid "`trace_ms` is not a list");
      if bool_decide (MAX_TRACE < length readings)%nat then Err (invalid "a trace is too long")
      else
        collect (fun r => match r with
          | Null => Ok None
          | other => ms ← ok_or (plausible_ms other) (invalid "a reading is not a plausible latency"); Ok (Some ms)
          end) readings
  end.

(* src: crates/dnet-ipc/src/netview.rs:368-380 decode_path *)
Definition decode_typical (o : Value) : result IpcError (option (f64 * f64)) :=
  match Json.get o "typical_ms" with
  | None | Some Null => Ok None
  | Some v =>
      match as_array v with
      | Some [lo; hi] =>
          match plausible_ms lo, plausible_ms hi with
          | Some lo, Some hi =>
              if SFleb lo hi then Ok (Some (lo, hi)) else Err (invalid "`typical_ms` is not a plausible range")
          | _, _ => Err (invalid "`typical_ms` is not a plausible range")
          end
      | _ => Err (invalid "`typical_ms` is not a pair")
      end
  end.

Definition is_some {A} (o : option A) : bool := match o with Some _ => true | None => false end.

(* src: crates/dnet-ipc/src/netview.rs:311-394 decode_path *)
Definition decode_path (p : Value) : result IpcError PathReply :=
  id ← text_field p "id";
  if str_is_empty id || (20 <? str_len id) || negb (forallb is_ascii_digit (bytes id)) then
    Err (invalid "a network id is not a decimal number")
  else
    kind ← (t ← text_field p "kind"; Ok (parse_path_kind t));
    role ← (t ← text_field p "role"; parse_role t);
    measured ← ok_or (Json.get p "measured" ≫= as_bool) (invalid "`measured` is missing or not a flag");
    quality ← match Json.get p "quality" with
              | None | Some Null => Ok None
              | Some v => s ← ok_or (as_str v) (invalid "`quality` is not text"); q ← parse_quality s; Ok (Some q)
              end;
    rtt ← optional_f64 p "rtt_ms" MAX_MS;
    jitter ← optional_f64 p "jitter_ms" MAX_MS;
    loss ← optional_f64 p "loss" f64_one;
    if negb measured && (is_some quality || is_some rtt || is_some jitter || is_some loss) then
      Err (invalid "a network that was not measured reports measurements")
    else
      trace ← decode_trace p;
      typical ← decode_typical p;
      Ok (mkPathReply id kind (name ← (v ← Json.get p "name"; as_str v); clean_name name) role measured quality rtt jitter loss
            trace typical).

Definition staying_reasons : list string := ["OnlyPath"; "NoBetterPath"; "Proving"; "Dwell"; "Budget"].

(* src: crates/dnet-ipc/src/netview.rs:282-302 decode_paths *)
Definition decode_degraded (o : Value) : result IpcError (option DegradedReply) :=
  match Json.get o "degraded" with
  | None | Some Null => Ok None
  | Some d =>
      if bool_decide (as_object d = None) then Err (invalid "`degraded` is not an object")
      else
        staying ← text_field d "staying";
        if negb (existsb (String.eqb staying) staying_reasons) then Err (invalid "`staying` is not a known reason")
        else
          quality ← (t ← text_field d "quality"; parse_quality t);
          match quality with
          | QualityGood => Err (invalid "a degradation cannot be of a good network")
          | q => path ← text_field d "path"; Ok (Some (mkDegradedReply path q staying))
          end
  end.

Definition is_carrying (p : PathReply) : bool := bool_decide (pr_role p = RoleCarrying).

(* src: crates/dnet-ipc/src/netview.rs:259-308 decode_paths *)
Definition paths_from_value (o : Value) : result IpcError PathsReply :=
  if bool_decide (as_object o = None) then Err (invalid "the reply is not an object")
  else
    as_of ← ok_or (Json.get o "as_of_unix_ms" ≫= as_u64) (invalid "`as_of_unix_ms` is missing or not a number");
    watching ← ok_or (Json.get o "watching" ≫= as_bool) (invalid "`watching` is missing or not a flag");
    entries ← ok_or (Json.get o "paths" ≫= as_array) (invalid "`paths` is missing or not a list");
    if bool_decide (MAX_PATHS < length entries)%nat then Err (invalid "too many networks")
    else
      paths ← collect (fun entry =>
        if bool_decide (as_object entry = None) then Err (invalid "a network is not an object") else decode_path entry) entries;
      if bool_decide (1 < length (List.filter is_carrying paths))%nat then Err (invalid "more than one network is carrying")
      else degraded ← decode_degraded o; Ok (mkPathsReply as_of watching paths degraded).

(** ** The counters *)

(* src: crates/dnet-ipc/src/netview.rs:398-412 StatsReply *)
Inductive StatsReply : Type :=
  | NotConnected
  | StatsConnected (connected_for_s network_changes changes_that_drop_connections method_switches endpoint_switches
      degraded_periods longest_degraded_s : Z).

(** [Duration::as_secs]. *)
Definition as_secs (d : Duration) : Z := d / NANOS_PER_SEC.

(* src: crates/dnet-ipc/src/netview.rs:414-430 encode_stats *)
Definition stats_value (summary : option StatsSummary) : Value :=
  match summary with
  | None => object [("connected", Bool false)]
  | Some s => object [
      ("connected", Bool true);
      ("connected_for_s", Num (Int (as_secs (sum_connected_for s))));
      ("network_changes", Num (Int (sum_network_changes s)));
      ("changes_that_drop_connections", Num (Int (sum_changes_that_drop_connections s)));
      ("method_switches", Num (Int (sum_method_switches s)));
      ("endpoint_switches", Num (Int (sum_endpoint_switches s)));
      ("degraded_periods", Num (Int (sum_degraded_periods s)));
      ("longest_degraded_s", Num (Int (as_secs (sum_longest_degraded s))))]
  end.

(* src: crates/dnet-ipc/src/netview.rs:443-448 decode_stats *)
Definition count_field (o : Value) (key : string) : result IpcError Z :=
  ok_or (v ← Json.get o key; n ← as_u64 v; try_u32 n) (invalid ("`" +:+ key +:+ "` is not a count")).

(* src: crates/dnet-ipc/src/netview.rs:449-455 decode_stats *)
Definition seconds_field (o : Value) (key : string) : result IpcError Z :=
  ok_or (filter_opt (fun n => n <=? 315360000) (Json.get o key ≫= as_u64)) (invalid ("`" +:+ key +:+ "` is not a plausible duration")).

(* src: crates/dnet-ipc/src/netview.rs:435-478 decode_stats *)
Definition stats_from_value (o : Value) : result IpcError StatsReply :=
  if bool_decide (as_object o = None) then Err (invalid "the reply is not an object")
  else
    connected ← ok_or (Json.get o "connected" ≫= as_bool) (invalid "`connected` is missing or not a flag");
    if negb connected then Ok NotConnected
    else
      connected_for_s ← seconds_field o "connected_for_s";
      longest_degraded_s ← seconds_field o "longest_degraded_s";
      if connected_for_s <? longest_degraded_s then Err (invalid "the longest poor period is longer than the connection")
      else
        network_changes ← count_field o "network_changes";
        drops ← count_field o "changes_that_drop_connections";
        if network_changes <? drops then Err (invalid "more changes dropped connections than there were changes")
        else
          method_switches ← count_field o "method_switches";
          endpoint_switches ← count_field o "endpoint_switches";
          degraded_periods ← count_field o "degraded_periods";
          Ok (StatsConnected connected_for_s network_changes drops method_switches endpoint_switches degraded_periods
                longest_degraded_s).

Section Text.
Context `{JsonText}.

(* src: crates/dnet-ipc/src/netview.rs:171-212 encode_paths *)
Definition encode_paths (snapshot : PathsSnapshot) (watching : bool) (as_of_unix_ms : Z) : string :=
  json_to_string (paths_value snapshot watching as_of_unix_ms).

(* src: crates/dnet-ipc/src/netview.rs:256-309 decode_paths *)
Definition decode_paths (wire : string) : result IpcError PathsReply :=
  match from_str wire with Err e => Err (invalid e) | Ok value => paths_from_value value end.

(* src: crates/dnet-ipc/src/netview.rs:414-430 encode_stats *)
Definition encode_stats (summary : option StatsSummary) : string := json_to_string (stats_value summary).

(* src: crates/dnet-ipc/src/netview.rs:432-479 decode_stats *)
Definition decode_stats (wire : string) : result IpcError StatsReply :=
  match from_str wire with Err e => Err (invalid e) | Ok value => stats_from_value value end.
End Text.

(** * Lemmas *)

Lemma collect_Ok {A B} (f : A → result IpcError B) l bs :
  collect f l = Ok bs → Forall2 (fun a b => f a = Ok b) l bs.
Proof.
  revert bs. induction l as [|a l IH]; intros bs; simpl; [by intros [= <-]; constructor|].
  intros E. apply bind_Ok in E as (b & Hb & E). apply bind_Ok in E as (rest & Hr & [= <-]). constructor; auto.
Qed.

(** A network as a client may show it. *)
Record path_reply_ok (p : PathReply) : Prop := {
  reply_id : pr_id p ≠ EmptyString ∧ str_len (pr_id p) ≤ 20 ∧ forallb is_ascii_digit (bytes (pr_id p)) = true;
  reply_name : ∀ n, pr_name p = Some n → n ≠ EmptyString ∧ (length (chars n) ≤ MAX_NAME_CHARS)%nat ∧
    ∀ c, c ∈ chars n → is_hostile c = false;
  reply_unmeasured : pr_measured p = false → pr_quality p = None ∧ pr_rtt_ms p = None ∧ pr_jitter_ms p = None ∧ pr_loss p = None;
  reply_rtt : ∀ x, pr_rtt_ms p = Some x ∨ pr_jitter_ms p = Some x → f64_within MAX_MS x = true;
  reply_loss : ∀ x, pr_loss p = Some x → f64_within f64_one x = true;
  reply_trace : (length (pr_trace_ms p) ≤ MAX_TRACE)%nat ∧ ∀ x, Some x ∈ pr_trace_ms p → f64_within MAX_MS x = true;
  reply_typical : ∀ lo hi, pr_typical_ms p = Some (lo, hi) →
    f64_within MAX_MS lo = true ∧ f64_within MAX_MS hi = true ∧ SFleb lo hi = true;
}.

Lemma char_seq_take n l : char_seq l → char_seq (take n l).
Proof. intros Hl. rewrite <-(take_drop n l) in Hl. by apply char_seq_app_l in Hl. Qed.

Lemma clean_name_ok raw n : clean_name raw = Some n →
  n ≠ EmptyString ∧ (length (chars n) ≤ MAX_NAME_CHARS)%nat ∧ ∀ c, c ∈ chars n → is_hostile c = false.
Proof.
  unfold clean_name. change (trim _) with (clean raw). destruct (str_is_empty (clean raw)) eqn:Ee; [done|]. intros [= <-].
  rewrite chars_concat by apply char_seq_take, chars_char_seq. split_and!.
  - intros E. apply (f_equal chars) in E. rewrite chars_concat in E by apply char_seq_take, chars_char_seq.
    destruct (chars (clean raw)) as [|c cs] eqn:Ec; [|done].
    apply (f_equal concat_str) in Ec. rewrite concat_chars in Ec. by rewrite Ec in Ee.
  - rewrite length_take. lia.
  - intros c Hc. apply elem_of_take in Hc as (i & Hi & _). apply list_elem_of_lookup_2 in Hi.
    rewrite chars_clean in Hi. apply elem_of_trimmed, elem_of_filter_bool in Hi as [_ Hi]. by apply negb_true_iff.
Qed.

Lemma optional_f64_ok o key max x : optional_f64 o key max = Ok (Some x) → f64_within max x = true.
Proof.
  unfold optional_f64. destruct (Json.get o key) as [v|]; [|done]. intros E.
  assert (Hx : ∃ v, filter_opt (f64_within max) (as_f64 v) = Some x).
  { destruct v; try done; apply bind_Ok in E as (y & E & [= ->]); apply ok_or_Ok in E; eauto. }
  destruct Hx as (w & [_ Hx]%filter_opt_Some). done.
Qed.

Lemma plausible_ok v x : plausible_ms v = Some x → f64_within MAX_MS x = true.
Proof. by intros [_ ?]%filter_opt_Some. Qed.

Lemma decode_trace_ok o trace : decode_trace o = Ok trace →
  (length trace ≤ MAX_TRACE)%nat ∧ ∀ x, Some x ∈ trace → f64_within MAX_MS x = true.
Proof.
  unfold decode_trace. destruct (Json.get o "trace_ms") as [v|].
  2: { intros [= <-]. split; [simpl; lia|by intros x ?%not_elem_of_nil]. }
  assert (Hread : (readings ← ok_or (as_array v) (invalid "`trace_ms` is not a list");
    if bool_decide (MAX_TRACE < length readings)%nat then Err (invalid "a trace is too long")
    else collect (fun r => match r with
          | Null => Ok None
          | other => ms ← ok_or (plausible_ms other) (invalid "a reading is not a plausible latency"); Ok (Some ms)
          end) readings) = Ok trace → (length trace ≤ MAX_TRACE)%nat ∧ ∀ x, Some x ∈ trace → f64_within MAX_MS x = true).
  { intros E. apply bind_Ok in E as (l & _ & E). case_bool_decide as Hl; [done|]. apply collect_Ok in E. split.
    - apply Forall2_length in E. lia.
    - intros x Hx. apply list_elem_of_lookup in Hx as [i Hi]. destruct (Forall2_lookup_r _ _ _ _ _ E Hi) as (r & _ & Er).
      destruct r; try done; apply bind_Ok in Er as (ms & Em & [= ->]); apply ok_or_Ok in Em;
        by apply plausible_ok in Em. }
  destruct v; try exact Hread. intros [= <-]. split; [simpl; lia|by intros x ?%not_elem_of_nil].
Qed.

Lemma decode_typical_ok o lo hi : decode_typical o = Ok (Some (lo, hi)) →
  f64_within MAX_MS lo = true ∧ f64_within MAX_MS hi = true ∧ SFleb lo hi = true.
Proof.
  unfold decode_typical. destruct (Json.get o "typical_ms") as [v|]; [|done].
  destruct v; try done. simpl. destruct items as [|a [|b [|]]]; try done.
  destruct (plausible_ms a) as [x|] eqn:Ea, (plausible_ms b) as [y|] eqn:Eb; try done.
  destruct (SFleb x y) eqn:El; [|done]. intros [= -> ->]. apply plausible_ok in Ea, Eb. done.
Qed.

Lemma decode_path_ok v p : decode_path v = Ok p → path_reply_ok p.
Proof.
  unfold decode_path. intros E. apply bind_Ok in E as (id & _ & E).
  destruct (str_is_empty id) eqn:Ei; [done|]. destruct (Z.ltb_spec 20 (str_len id)); [done|]. cbn [orb] in E.
  destruct (forallb is_ascii_digit (bytes id)) eqn:Ed; [|done]. cbn [negb] in E.
  apply bind_Ok in E as (kind & _ & E). apply bind_Ok in E as (role & _ & E). apply bind_Ok in E as (measured & _ & E).
  apply bind_Ok in E as (quality & _ & E). apply bind_Ok in E as (rtt & Hrtt & E). apply bind_Ok in E as (jitter & Hjit & E).
  apply bind_Ok in E as (loss & Hloss & E). destruct (negb measured && _) eqn:Em; [done|].
  apply bind_Ok in E as (trace & Ht & E). apply bind_Ok in E as (typical & Hy & [= <-]).
  split; simpl.
  - split_and!; [|done|done]. intros ->. done.
  - intros n Hn. destruct (v0 ← Json.get v "name"; as_str v0) as [name|]; [|done]. by apply (clean_name_ok name).
  - intros ->. simpl in Em. by destruct quality, rtt, jitter, loss.
  - intros x [->| ->]; by eapply optional_f64_ok.
  - intros x ->. by eapply optional_f64_ok.
  - by apply decode_trace_ok in Ht.
  - intros lo hi ->. by apply decode_typical_ok in Hy.
Qed.

Lemma count_reads o key n : Json.get o key = Some (Num (Int n)) → 0 ≤ n ≤ U32_MAX → count_field o key = Ok n.
Proof.
  intros Hget Hn. unfold count_field. rewrite Hget. cbn [mbind option_bind as_u64]. unfold U64_MAX, U32_MAX in *.
  rewrite (proj2 (Z.leb_le 0 n)), (proj2 (Z.leb_le n _)) by lia. cbn [andb mbind option_bind].
  unfold try_u32, U32_MAX. by rewrite (proj2 (Z.leb_le n _)) by lia.
Qed.

Lemma seconds_reads o key n : Json.get o key = Some (Num (Int n)) → 0 ≤ n ≤ 315360000 → seconds_field o key = Ok n.
Proof.
  intros Hget Hn. unfold seconds_field. rewrite Hget. cbn [mbind option_bind as_u64]. unfold U64_MAX.
  rewrite (proj2 (Z.leb_le 0 n)), (proj2 (Z.leb_le n _)) by lia. cbn [andb filter_opt mbind option_bind].
  by rewrite (proj2 (Z.leb_le n 315360000)) by lia.
Qed.

(** * Theorems *)

(** Whatever text comes back for [GetPaths], a client shows only what holds together: at most 32 networks, at most
    one of them carrying, each with a decimal id and a name without a character that could mislead, every reading finite
    and within a day, every loss a fraction; a network that was not measured shows no measurement; and a degradation is
    never of a good network. *)
Theorem shown_networks_hold_together `{JsonText} wire reply :
  decode_paths wire = Ok reply →
  (length (pa_paths reply) ≤ 32)%nat ∧ (length (List.filter is_carrying (pa_paths reply)) ≤ 1)%nat ∧
  (∀ p, p ∈ pa_paths reply → path_reply_ok p) ∧
  ∀ d, pa_degraded reply = Some d → dr_quality d ≠ QualityGood ∧ dr_staying d ∈ staying_reasons.
Proof.
  unfold decode_paths. destruct (from_str wire) as [o|e]; [|done]. unfold paths_from_value. case_bool_decide; [done|].
  intros E. apply bind_Ok in E as (as_of & _ & E). apply bind_Ok in E as (watching & _ & E).
  apply bind_Ok in E as (entries & _ & E). case_bool_decide as Hlen; [done|]. apply bind_Ok in E as (paths & Hp & E).
  case_bool_decide as Hc; [done|]. apply bind_Ok in E as (degraded & Hd & [= <-]). apply collect_Ok in Hp. simpl. split_and!.
  - apply Forall2_length in Hp. unfold MAX_PATHS in Hlen. lia.
  - lia.
  - intros p Hin. apply list_elem_of_lookup in Hin as [i Hi]. destruct (Forall2_lookup_r _ _ _ _ _ Hp Hi) as (v & _ & Ev).
    case_bool_decide; [done|]. by apply decode_path_ok in Ev.
  - intros d ->. unfold decode_degraded in Hd. destruct (Json.get o "degraded") as [v|]; [|done].
    destruct v; try done. case_bool_decide; [done|]. apply bind_Ok in Hd as (staying & _ & Hd).
    destruct (existsb (String.eqb staying) staying_reasons) eqn:Es; [|done]. cbn [negb] in Hd.
    apply bind_Ok in Hd as (q & _ & Hd). apply existsb_exists_elem in Es as (x & Hx & ->%String.eqb_eq).
    destruct q; try done; apply bind_Ok in Hd as (path & _ & [= <-]); done.
Qed.

(** The counters of a connection are read by a client just as the service wrote them, while the connection is not
    older than ten years and its counters are as the service keeps them: no more changes dropped connections than there
    were, and no poor period is longer than the connection. *)
Theorem counters_read_back `{JsonText} (s : StatsSummary) :
  0 ≤ as_secs (sum_longest_degraded s) ≤ as_secs (sum_connected_for s) → as_secs (sum_connected_for s) ≤ 315360000 →
  0 ≤ sum_changes_that_drop_connections s ≤ sum_network_changes s → sum_network_changes s ≤ U32_MAX →
  0 ≤ sum_method_switches s ≤ U32_MAX → 0 ≤ sum_endpoint_switches s ≤ U32_MAX → 0 ≤ sum_degraded_periods s ≤ U32_MAX →
  from_str (json_to_string (stats_value (Some s))) = Ok (stats_value (Some s)) →
  decode_stats (encode_stats (Some s)) =
    Ok (StatsConnected (as_secs (sum_connected_for s)) (sum_network_changes s) (sum_changes_that_drop_connections s)
          (sum_method_switches s) (sum_endpoint_switches s) (sum_degraded_periods s) (as_secs (sum_longest_degraded s))).
Proof.
  intros H1 H2 H3 H4 H5 H6 H7 Hjson. unfold decode_stats, encode_stats. rewrite Hjson. unfold stats_from_value, stats_value.
  rewrite bool_decide_eq_false_2 by done. rewrite get_object. cbn [assoc String.eqb Ascii.eqb Bool.eqb mbind option_bind as_bool ok_or result_bind negb].
  rewrite (seconds_reads _ "connected_for_s" (as_secs (sum_connected_for s))), (seconds_reads _ "longest_degraded_s" (as_secs (sum_longest_degraded s)))
    by (by rewrite get_object || lia). cbn [mbind result_bind].
  rewrite (proj2 (Z.ltb_ge _ _)) by lia.
  rewrite (count_reads _ "network_changes" (sum_network_changes s)), (count_reads _ "changes_that_drop_connections" (sum_changes_that_drop_connections s)),
    (count_reads _ "method_switches" (sum_method_switches s)), (count_reads _ "endpoint_switches" (sum_endpoint_switches s)),
    (count_reads _ "degraded_periods" (sum_degraded_periods s)) by (by rewrite get_object || lia).
  cbn [mbind result_bind]. by rewrite (proj2 (Z.ltb_ge _ _)) by lia.
Qed.

(** * Witnesses *)

Module NetviewDemo.
Definition one_network : PathsSnapshot :=
  mkPathsSnapshot [mkPathView 7 Wifi (Some "home") Carrying true (Some Good) (Some 20000000) None (Some f64_zero) [] None] None.
Definition an_hour : StatsSummary := mkStatsSummary (3600 * NANOS_PER_SEC) 2 1 0 0 1 (5 * NANOS_PER_SEC).
#[export] Instance two_texts : JsonText := {|
  from_str s := Ok (if String.eqb s "paths" then paths_value one_network true 5 else stats_value (Some an_hour));
  json_to_string v := match Json.get v "paths" with Some _ => "paths" | None => "stats" end;
|}.
End NetviewDemo.
Import NetviewDemo.

Lemma shown_networks_hold_together_witness :
  ∃ reply, decode_paths (encode_paths one_network true 5) = Ok reply ∧ map pr_name (pa_paths reply) = [Some "home"] ∧
    ∀ p, p ∈ pa_paths reply → path_reply_ok p.
Proof.
  destruct (decode_paths (encode_paths one_network true 5)) as [reply|e] eqn:E; [|vm_compute in E; discriminate E].
  exists reply. split; [reflexivity|]. split; [vm_compute in E; by injection E as <-|].
  exact (proj1 (proj2 (proj2 (shown_networks_hold_together _ _ E)))).
Defined.

Lemma counters_read_back_witness :
  decode_stats (encode_stats (Some an_hour)) = Ok (StatsConnected 3600 2 1 0 0 1 5).
Proof. apply (counters_read_back an_hour); first [reflexivity|vm_compute; split; discriminate|vm_compute; discriminate]. Defined.
