(* ===== verification/Diagnostics.v ===== *)
(** The diagnostic bundle: what it says, and how it keeps to itself what is private (crates/dnetd/src/diagnostics.rs). *)

From Stdlib Require Import SpecFloat Ascii.
From S2P Require Import Prelude Float Text IpText Profile Health Endpoint Quality Degraded Session Selection Rule Builtin.
From S2P Require Import Telemetry Json Protocol EventBus IpcServer Domain Registry Netview.

(** * Definitions *)

(* src: crates/dnetd/src/diagnostics.rs:36-37 BUNDLE_VERSION *)
Definition BUNDLE_VERSION : Z := 1.
(* src: crates/dnetd/src/diagnostics.rs:39-40 MAX_LISTED *)
Definition MAX_LISTED : nat := 64.

(* src: crates/dnetd/src/diagnostics.rs:42-51 Options *)
Record Options : Type := mkOptions { endpoint_addresses : bool; rule_patterns : bool; network_names : bool }.
(* src: crates/dnetd/src/diagnostics.rs:43-51 Options::default *)
Definition options_default : Options := mkOptions false false false.

(* src: crates/dnetd/src/diagnostics.rs:53-69 Facts *)
Record Facts : Type := mkFacts {
  generated_unix_ms : Z;
  fact_state : StateSnapshot;
  fact_profiles : list ConnectionProfile;
  fact_endpoints : list Endpoint;
  fact_rules : list RoutingRule;
  encrypted_dns : Policy;
  fact_paths : option PathsSnapshot;
  fact_stats : option StatsSummary;
  recovery_ok : bool;
  config_refused : bool;
  connecting_available : bool;
}.

(* src: crates/dnetd/src/diagnostics.rs:71-79 cut *)
Definition cut (l : list Value) : Value :=
  if bool_decide (length l ≤ MAX_LISTED)%nat then Array l
  else Array (take MAX_LISTED l ++ [object [("left_out", Num (Int (Z.of_nat (length l - MAX_LISTED))))]]).

(** [{:?}] of the enums, by the names of their constructors. *)
(* src: crates/dnetd/src/diagnostics.rs:81-83 name *)
Definition status_name (s : ConnectionStatus) : string :=
  match s with Disconnected => "Disconnected" | Probing => "Probing" | Connected => "Connected" | Failed => "Failed" end.
Definition cause_name (c : FailureCause) : string :=
  match c with
  | NoEndpointReachable => "NoEndpointReachable" | AllProfilesBlocked => "AllProfilesBlocked"
  | CaptivePortalUnsatisfied => "CaptivePortalUnsatisfied" | InsufficientPrivilege => "InsufficientPrivilege"
  | CoreFailedPersistently _ => "CoreFailedPersistently" | NoUsablePath => "NoUsablePath"
  | ConfigurationInvalid _ => "ConfigurationInvalid"
  end.

(* src: crates/dnetd/src/diagnostics.rs:85-88 millis *)
Definition bundle_millis (d : Duration) : Value :=
  json_f64 (f64_div (f64_round (f64_mul (as_secs_f64 d) (f64_of_Z 10000))) (f64_of_Z 10)).

(* src: crates/dnetd/src/diagnostics.rs:90-96 posture *)
Definition posture_words (s : StateSnapshot) : string :=
  match posture s with FailClosed => "FailClosed" | Tunnelled tier => "Tunnelled(" +:+ tier_name tier +:+ ")" end.

(* src: crates/dnetd/src/diagnostics.rs:98-104 warning *)
Definition warning_name (w : Warning) : string :=
  match w with
  | Tier2ProfileActive => "Tier2ProfileActive" | BrutalEnabled => "BrutalEnabled"
  | EncryptedDnsOverridden => "EncryptedDnsOverridden"
  end.

(* src: crates/dnetd/src/diagnostics.rs:106-120 failure *)
Definition failure_fact (s : StateSnapshot) : Value :=
  match failure s with
  | None => Null
  | Some (ConfigurationInvalid detail) => object [("cause", Str "ConfigurationInvalid"); ("detail", Str detail)]
  | Some (CoreFailedPersistently core) =>
      object [("cause", Str "CoreFailedPersistently"); ("core", Str (core_binding_str core))]
  | Some other => object [("cause", Str (cause_name other))]
  end.

Section Bundle.
Context `{UuidDisplay, DebugText, JsonText, ToLowercase}.

(* src: crates/dnetd/src/diagnostics.rs:122-138 endpoint *)
Definition endpoint_fact (options : Options) (e : Endpoint) : Value :=
  let '(origin, resources) := match endpoint_origin e with
                              | Manual => ("Manual", 0)
                              | Provisioned _ _ resource_ids => ("Provisioned", Z.of_nat (length resource_ids))
                              end in
  object ([("id", Str (uuid_to_string (endpoint_id e)));
           ("enabled", Bool (endpoint_enabled e));
           ("health", Str (health_name (state (endpoint_health e))));
           ("origin", Str origin);
           ("cloud_resources", Num (Int resources))] ++
          if endpoint_addresses options
          then [("address", Str (address_to_string (endpoint_address e))); ("label", Str (endpoint_label e))] else []).

(* src: crates/dnetd/src/diagnostics.rs:148-158 rule *)
Definition matcher_kind (m : RuleMatcher) : string :=
  match m with
  | Domain _ => "Domain" | DomainSuffix _ => "DomainSuffix" | Cidr _ => "IpCidr" | Application _ => "Application"
  | DnsPort => "DnsPort" | EncryptedDnsPort => "EncryptedDnsPort"
  end.

(** [{:?}] of a matcher, as it is derived. *)
(* src: crates/dnetd/src/diagnostics.rs:159-161 rule *)
Definition matcher_debug (m : RuleMatcher) : string :=
  match m with
  | Domain p | DomainSuffix p | Application p => matcher_kind m +:+ "(" +:+ debug p +:+ ")"
  | Cidr c => "IpCidr(IpCidr { addr: " +:+ ip_to_string (addr c) +:+ ", prefix_len: " +:+ pretty (prefix_len c) +:+ " })"
  | DnsPort | EncryptedDnsPort => matcher_kind m
  end.

(* src: crates/dnetd/src/diagnostics.rs:140-163 rule *)
Definition rule_fact (options : Options) (r : RoutingRule) : Value :=
  object ([("precedence", Num (Int (precedence r)));
           ("action", Str (rule_action_name (action r)));
           ("reliability", Str (reliability_name (reliability r)));
           ("builtin", Bool (is_builtin r));
           ("matches", Str (matcher_kind (matcher r)))] ++
          if rule_patterns options && negb (is_builtin r) then [("pattern", Str (matcher_debug (matcher r)))] else []).

Definition path_kind_name : PathKind → string := path_kind_str.

(* src: crates/dnetd/src/diagnostics.rs:169-185 paths *)
Definition path_fact (options : Options) (p : PathView) : Value :=
  object ([("kind", Str (path_kind_name (view_kind p)));
           ("role", Str (role_str (view_role p)));
           ("measured", Bool (view_measured p))] ++
          (if view_measured p
           then [("quality", or_null (fun b => Str (quality_str b)) (view_band p));
                 ("rtt_ms", or_null bundle_millis (view_rtt p));
                 ("jitter_ms", or_null bundle_millis (view_jitter p));
                 ("loss", or_null json_f64 (view_loss p))] else []) ++
          if network_names options then [("name", or_null Str (view_name p))] else []).

(* src: crates/dnetd/src/diagnostics.rs:165-194 paths *)
Definition paths_fact (options : Options) (s : PathsSnapshot) : Value := object [
  ("paths", cut (map (path_fact options) (snapshot_paths s)));
  ("degraded", or_null (fun d => object [
     ("quality", Str (quality_str (deg_band d))); ("staying", Str (staying_name (deg_staying d)))]) (snapshot_degradation s))].

(* src: crates/dnetd/src/diagnostics.rs:196-206 stats *)
Definition stats_fact (s : StatsSummary) : Value := object [
  ("connected_for_secs", Num (Int (as_secs (sum_connected_for s))));
  ("network_changes", Num (Int (sum_network_changes s)));
  ("changes_that_drop_connections", Num (Int (sum_changes_that_drop_connections s)));
  ("method_switches", Num (Int (sum_method_switches s)));
  ("endpoint_switches", Num (Int (sum_endpoint_switches s)));
  ("degraded_periods", Num (Int (sum_degraded_periods s)));
  ("longest_degraded_secs", Num (Int (as_secs (sum_longest_degraded s))))].

Definition count {A} (p : A → bool) (l : list A) : Z := Z.of_nat (length (List.filter p l)).

(* src: crates/dnetd/src/diagnostics.rs:210-226 build *)
Definition rule_counts (rules : list RoutingRule) : Value := object [
  ("total", Num (Int (Z.of_nat (length rules))));
  ("builtin", Num (Int (count is_builtin rules)));
  ("user", Num (Int (count (fun r => negb (is_builtin r)) rules)));
  ("best_effort", Num (Int (count (fun r => bool_decide (reliability r = BestEffort)) rules)));
  ("by_action", object (flat_map (fun a =>
     let n := count (fun r => bool_decide (action r = a)) rules in
     if n =? 0 then [] else [(rule_action_name a, Num (Int n))]) [Bypass; Capture; Reject; Tunnel]))].

(* src: crates/dnetd/src/diagnostics.rs:208-264 build *)
Definition build (f : Facts) (options : Options) : Value := object [
  ("bundle_version", Num (Int BUNDLE_VERSION));
  ("generated_unix_ms", Num (Int (generated_unix_ms f)));
  ("product_version", Str CARGO_PKG_VERSION);
  ("protocol_version", Num (Int PROTOCOL_VERSION));
  ("service", object [
     ("recovery", Str (if recovery_ok f then "ok" else "failed"));
     ("configuration", Str (if config_refused f then "refused" else "ok"));
     ("connecting_available", Bool (connecting_available f))]);
  ("connection", object [
     ("status", Str (status_name (status (fact_state f))));
     ("posture", Str (posture_words (fact_state f)));
     ("active_profile", or_null (fun p => object [
        ("id", Str (ap_id p)); ("kind", Str (ap_kind p)); ("tier", Str (tier_name (ap_tier p)))]) (active_profile (fact_state f)));
     ("active_endpoint", or_null (fun e => object [("id", Str (ae_id e))]) (active_endpoint (fact_state f)));
     ("failure", failure_fact (fact_state f));
     ("warnings", Array (map (fun w => Str (warning_name w)) (warnings (fact_state f))))]);
  ("profiles", cut (map (fun p => object [
     ("id", Str (profile_id p)); ("kind", Str (profile_kind_name (profile_kind p))); ("tier", Str (tier_name (profile_tier p)))])
     (fact_profiles f)));
  ("endpoints", cut (map (endpoint_fact options) (fact_endpoints f)));
  ("rules", object [("counts", rule_counts (fact_rules f)); ("list", cut (map (rule_fact options) (fact_rules f)))]);
  ("encrypted_dns", Str (match encrypted_dns f with Block => "blocked" | Allow => "allowed" end));
  ("networks", or_null (paths_fact options) (fact_paths f));
  ("session", or_null stats_fact (fact_stats f))].

(** Longest first, then in the order of their bytes. *)
(* src: crates/dnetd/src/diagnostics.rs:298-298 sensitive_values *)
Definition longer_first (a b : string) : bool :=
  match cmp_then (str_len b ?= str_len a) (String.compare a b) with Gt => false | _ => true end.

Fixpoint insert_value (v : string) (l : list string) : list string :=
  match l with [] => [v] | w :: rest => if longer_first v w then v :: w :: rest else w :: insert_value v rest end.

(** [dedup]: runs of equal values become one. *)
Fixpoint dedup (l : list string) : list string :=
  match l with
  | v :: ((w :: _) as rest) => if String.eqb v w then dedup rest else v :: dedup rest
  | _ => l
  end.

(* src: crates/dnetd/src/diagnostics.rs:272-296 sensitive_values *)
Definition private_values (f : Facts) (options : Options) : list string :=
  (if endpoint_addresses options then []
   else flat_map (fun e => [host (endpoint_address e); address_to_string (endpoint_address e); endpoint_label e]) (fact_endpoints f)) ++
  (if rule_patterns options then []
   else flat_map (fun r => match matcher r with
          | Domain p | DomainSuffix p | Application p => [p]
          | Cidr c => [cidr_to_string c; ip_to_string (addr c)]
          | DnsPort | EncryptedDnsPort => []
          end) (List.filter (fun r => negb (is_builtin r)) (fact_rules f))) ++
  (if network_names options then []
   else match fact_paths f with
        | Some s => flat_map (fun p => match view_name p with Some n => [n] | None => [] end) (snapshot_paths s)
        | None => []
        end).

(* src: crates/dnetd/src/diagnostics.rs:266-301 sensitive_values *)
Definition sensitive_values (f : Facts) (options : Options) : list string :=
  dedup (fold_right insert_value [] (List.filter (fun v => bool_decide (3 ≤ length (chars v))%nat) (private_values f options))).

(** [text.get(at..at + len)] at a character's start: [None] past the end, and inside a character. *)
Definition chunk_at (len : nat) (s : string) : option (string * string) :=
  let b := bytes s in
  if bool_decide (length b < len)%nat then None
  else match drop len b with
       | c :: _ => if is_continuation c then None else Some (of_ascii (take len b), of_ascii (drop len b))
       | [] => Some (of_ascii (take len b), EmptyString)
       end.

(* src: crates/dnetd/src/diagnostics.rs:309-321 scrub *)
Definition hits (s value : string) : option string :=
  '(chunk, rest) ← chunk_at (length (bytes value)) s;
  if (if forallb is_ascii (bytes value) then eq_ignore_ascii_case chunk value else String.eqb chunk value)
  then Some rest else None.

(** The first value found here. *)
Fixpoint first_hit (s : string) (values : list string) : option string :=
  match values with
  | [] => None
  | v :: values => match hits s v with Some rest => Some rest | None => first_hit s values end
  end.

(** One character or one value at a time: as many turns as the text has bytes are enough. *)
(* src: crates/dnetd/src/diagnostics.rs:303-328 scrub *)
Fixpoint scrub_from (turns : nat) (values : list string) (s : string) : string :=
  match turns with
  | O => EmptyString
  | S turns =>
      match chars s with
      | [] => EmptyString
      | c :: rest =>
          match first_hit s values with
          | Some after => "<removed>" +:+ scrub_from turns values after
          | None => c +:+ scrub_from turns values (concat_str rest)
          end
      end
  end.

(* src: crates/dnetd/src/diagnostics.rs:303-328 scrub *)
Definition scrub (s : string) (values : list string) : string := scrub_from (String.length s) values s.

(* src: crates/dnetd/src/diagnostics.rs:330-337 redact *)
Fixpoint redact (values : list string) (v : Value) : Value :=
  match v with
  | Str s => Str (scrub s values)
  | Array items => Array (map (redact values) items)
  | Object fields => Object (redact values <$> fields)
  | _ => v
  end.

(** [str::contains]. *)
Fixpoint contains_bytes (needle text : list ascii) : bool :=
  bool_decide (take (length needle) text = needle) ||
  match text with [] => false | _ :: rest => contains_bytes needle rest end.
Definition contains (text needle : string) : bool := contains_bytes (bytes needle) (bytes text).

(* src: crates/dnetd/src/diagnostics.rs:350-354 render *)
Definition refused_bundle : string := json_to_string (object [
  ("bundle_version", Num (Int BUNDLE_VERSION)); ("error", Str "the diagnostic bundle could not be made safely")]).

(* src: crates/dnetd/src/diagnostics.rs:339-357 render *)
Definition render (f : Facts) (options : Options) : string :=
  let values := sensitive_values f options in
  let text := json_to_string (redact values (build f options)) in
  if existsb (fun v => contains (to_lowercase text) (to_lowercase v)) values then refused_bundle else text.
End Bundle.

(** * Lemmas *)

(** ** Scrubbing takes no more turns than there are bytes *)

Lemma string_length s : String.length s = length (bytes s).
Proof. induction s as [|c s IH]; [done|]. simpl. by rewrite IH. Qed.

Lemma hits_shorter s v after : v ≠ EmptyString → hits s v = Some after → (String.length after < String.length s)%nat.
Proof.
  intros Hv. unfold hits, chunk_at. case_bool_decide as Hlen; [done|].
  assert (0 < length (bytes v))%nat as Hpos by (destruct v; [done|]; simpl; lia).
  rewrite !string_length. intros E.
  assert (bytes after = drop (length (bytes v)) (bytes s)) as ->; [|rewrite length_drop; lia].
  destruct (drop (length (bytes v)) (bytes s)) as [|c rest] eqn:Ed; simpl in E.
  - by destruct (if forallb is_ascii (bytes v) then _ else _); [injection E as <-|].
  - destruct (is_continuation c); [done|]. simpl in E. destruct (if forallb is_ascii (bytes v) then _ else _); [|done].
    injection E as <-. apply (bytes_of_ascii (c :: rest)).
Qed.

Lemma first_hit_shorter s values after :
  (∀ v, v ∈ values → v ≠ EmptyString) → first_hit s values = Some after → (String.length after < String.length s)%nat.
Proof.
  induction values as [|v values IH]; intros Hv; simpl; [done|]. destruct (hits s v) as [rest|] eqn:Eh.
  - intros [= <-]. apply (hits_shorter _ v); [apply Hv; by left|done].
  - apply IH. intros w Hw. apply Hv. by right.
Qed.

Lemma rest_shorter s c rest : chars s = c :: rest → (String.length (concat_str rest) < String.length s)%nat.
Proof.
  intros E. assert (c ≠ EmptyString) as Hc by (apply (chars_nonempty s); rewrite E; by left).
  apply (f_equal concat_str) in E. rewrite concat_chars in E. subst s. simpl.
  rewrite !string_length, bytes_app, length_app. destruct c; [done|]. simpl. lia.
Qed.

Lemma scrub_from_enough values turns s :
  (∀ v, v ∈ values → v ≠ EmptyString) → (String.length s ≤ turns)%nat → scrub_from turns values s = scrub s values.
Proof.
  intros Hv. unfold scrub. revert s turns.
  assert (Hgo : ∀ n m s, (String.length s ≤ n)%nat → (String.length s ≤ m)%nat → scrub_from n values s = scrub_from m values s).
  { induction n as [|n IH]; intros m s Hn Hm.
    - destruct s; [|simpl in Hn; lia]. by destruct m.
    - destruct m as [|m]; [destruct s; [|simpl in Hm; lia]; done|]. simpl. destruct (chars s) as [|c rest] eqn:Ec; [done|].
      destruct (first_hit s values) as [after|] eqn:Eh; f_equal; apply IH.
      1, 2: apply first_hit_shorter in Eh; [lia|done].
      all: apply rest_shorter in Ec; lia. }
  intros s turns Ht. by apply Hgo.
Qed.

(** ** What is private *)

Lemma elem_of_insert_value v w l : v ∈ insert_value w l ↔ v = w ∨ v ∈ l.
Proof.
  induction l as [|x l IH]; simpl; [rewrite list_elem_of_singleton, elem_of_nil; tauto|].
  destruct (longer_first w x); rewrite !elem_of_cons, ?IH; tauto.
Qed.

Lemma elem_of_sorted_values v l : v ∈ fold_right insert_value [] l ↔ v ∈ l.
Proof. induction l as [|w l IH]; [done|]. simpl. by rewrite elem_of_insert_value, elem_of_cons, IH. Qed.

Lemma elem_of_dedup v l : v ∈ dedup l ↔ v ∈ l.
Proof.
  induction l as [|w l IH]; [done|]. destruct l as [|x l]; [done|]. cbn [dedup].
  destruct (String.eqb_spec w x) as [->|]; [rewrite IH, !elem_of_cons; tauto|]. by rewrite elem_of_cons, IH, (elem_of_cons (x :: l)).
Qed.

Lemma elem_of_sensitive f options v :
  v ∈ sensitive_values f options ↔ v ∈ private_values f options ∧ (3 ≤ length (chars v))%nat.
Proof. unfold sensitive_values. by rewrite elem_of_dedup, elem_of_sorted_values, elem_of_filter_bool, bool_decide_eq_true. Qed.

(** Two machines that differ only in what is private: labels and addresses, patterns, and the names of networks. *)
Definition same_endpoint (e e' : Endpoint) : Prop :=
  endpoint_id e = endpoint_id e' ∧ endpoint_enabled e = endpoint_enabled e' ∧ endpoint_health e = endpoint_health e' ∧
  endpoint_origin e = endpoint_origin e'.
Definition same_rule (r r' : RoutingRule) : Prop :=
  action r = action r' ∧ precedence r = precedence r' ∧ is_builtin r = is_builtin r' ∧
  matcher_kind (matcher r) = matcher_kind (matcher r').
Definition same_network (p p' : PathView) : Prop :=
  view_kind p = view_kind p' ∧ view_role p = view_role p' ∧ view_measured p = view_measured p' ∧ view_band p = view_band p' ∧
  view_rtt p = view_rtt p' ∧ view_jitter p = view_jitter p' ∧ view_loss p = view_loss p'.

Definition same_networks (s s' : PathsSnapshot) : Prop :=
  Forall2 same_network (snapshot_paths s) (snapshot_paths s') ∧ snapshot_degradation s = snapshot_degradation s'.

(** The name of the endpoint in use is private too. *)
Definition same_state (s s' : StateSnapshot) : Prop :=
  status s = status s' ∧ posture s = posture s' ∧ active_profile s = active_profile s' ∧ failure s = failure s' ∧
  warnings s = warnings s' ∧ (ae_id <$> active_endpoint s) = (ae_id <$> active_endpoint s').

Record same_but_private (f f' : Facts) : Prop := {
  same_time : generated_unix_ms f = generated_unix_ms f';
  same_connection : same_state (fact_state f) (fact_state f');
  same_catalogue : fact_profiles f = fact_profiles f';
  same_machines : Forall2 same_endpoint (fact_endpoints f) (fact_endpoints f');
  same_routes : Forall2 same_rule (fact_rules f) (fact_rules f');
  same_dns : encrypted_dns f = encrypted_dns f';
  same_paths : option_Forall2 same_networks (fact_paths f) (fact_paths f');
  same_session : fact_stats f = fact_stats f';
  same_service : recovery_ok f = recovery_ok f' ∧ config_refused f = config_refused f' ∧
    connecting_available f = connecting_available f';
}.

Lemma Forall2_map_eq {A B} (R : A → A → Prop) (g : A → B) l l' :
  Forall2 R l l' → (∀ x y, R x y → g x = g y) → map g l = map g l'.
Proof. intros Hl Hg. induction Hl; [done|]. simpl. f_equal; auto. Qed.

Lemma Forall2_count_eq {A} (R : A → A → Prop) (p : A → bool) l l' :
  Forall2 R l l' → (∀ x y, R x y → p x = p y) → count p l = count p l'.
Proof.
  intros Hl Hp. unfold count. f_equal. induction Hl as [|x y l l' Hxy _ IH]; [done|]. simpl. rewrite (Hp x y Hxy).
  destruct (p y); simpl; by rewrite IH.
Qed.

Lemma same_rule_reliability r r' : same_rule r r' → reliability r = reliability r'.
Proof. intros (_ & _ & _ & Hk). unfold reliability. by destruct (matcher r), (matcher r'). Qed.

Lemma rule_counts_same rules rules' : Forall2 same_rule rules rules' → rule_counts rules = rule_counts rules'.
Proof.
  intros Hr. unfold rule_counts. rewrite (Forall2_length _ _ _ Hr).
  assert (Hb : ∀ x y, same_rule x y → is_builtin x = is_builtin y) by (by intros x y (_ & _ & -> & _)).
  rewrite (Forall2_count_eq same_rule is_builtin rules rules') by done.
  rewrite (Forall2_count_eq same_rule (fun r => negb (is_builtin r)) rules rules') by (done || intros x y Hxy; by rewrite (Hb x y Hxy)).
  rewrite (Forall2_count_eq same_rule (fun r => bool_decide (reliability r = BestEffort)) rules rules')
    by (done || intros x y Hxy; by rewrite (same_rule_reliability x y Hxy)).
  assert (Ha : ∀ a, count (fun r => bool_decide (action r = a)) rules = count (fun r => bool_decide (action r = a)) rules').
  { intros a. by apply (Forall2_count_eq same_rule _ _ _ Hr); intros x y (-> & _). }
  cbn [flat_map]. by rewrite !Ha.
Qed.

Lemma paths_fact_same s s' : same_networks s s' → paths_fact options_default s = paths_fact options_default s'.
Proof.
  intros [Hp Hd]. unfold paths_fact. rewrite Hd. erewrite (Forall2_map_eq same_network); [done|exact Hp|].
  intros p q (E1 & E2 & E3 & E4 & E5 & E6 & E7). unfold path_fact. by rewrite E1, E2, E3, E4, E5, E6, E7.
Qed.

Lemma build_same `{UuidDisplay, DebugText} f f' : same_but_private f f' → build f options_default = build f' options_default.
Proof.
  intros [H1 (S1 & S2 & S3 & S4 & S5 & S6) H3 H4 H5 H6 H7 H8 (R1 & R2 & R3)]. unfold build.
  assert (failure_fact (fact_state f) = failure_fact (fact_state f')) as -> by (unfold failure_fact; by rewrite S4).
  assert (posture_words (fact_state f) = posture_words (fact_state f')) as -> by (unfold posture_words; by rewrite S2).
  assert (or_null (fun e => object [("id", Str (ae_id e))]) (active_endpoint (fact_state f)) =
    or_null (fun e => object [("id", Str (ae_id e))]) (active_endpoint (fact_state f'))) as ->.
  { destruct (active_endpoint (fact_state f)), (active_endpoint (fact_state f')); try done. simpl in S6. injection S6 as E. simpl. by rewrite E. }
  assert (or_null (paths_fact options_default) (fact_paths f) = or_null (paths_fact options_default) (fact_paths f')) as ->.
  { destruct H7 as [s s' Hs|]; [|done]. simpl. by rewrite (paths_fact_same s s'). }
  rewrite (rule_counts_same _ _ H5).
  rewrite (Forall2_map_eq same_endpoint (endpoint_fact options_default) _ _ H4).
  2: { intros e e' (E1 & E2 & E3 & E4). unfold endpoint_fact. rewrite E1, E2, E3, E4. by destruct (endpoint_origin e'). }
  rewrite (Forall2_map_eq same_rule (rule_fact options_default) _ _ H5).
  2: { intros r r' Hr. pose proof (same_rule_reliability r r' Hr) as Er. destruct Hr as (E1 & E2 & E3 & E4).
       unfold rule_fact. by rewrite E1, E2, E3, E4, Er. }
  by rewrite H1, S1, S3, S5, H3, H6, H8, R1, R2, R3.
Qed.

(** * Theorems *)

(** What a rule asks about, as it could be written in a bundle: a name, a program, or a block and the address of it. *)
Definition matched_texts (m : RuleMatcher) : list string :=
  match m with
  | Domain p => [p]
  | DomainSuffix p => [p]
  | Application p => [p]
  | Cidr c => [ip_to_string (addr c) +:+ "/" +:+ pretty (prefix_len c); ip_to_string (addr c)]
  | DnsPort | EncryptedDnsPort => []
  end.

(** How an endpoint could be told: its label, its host, and its host and port. *)
Definition endpoint_texts (e : Endpoint) : list string :=
  [endpoint_label e; host (endpoint_address e); host (endpoint_address e) +:+ ":" +:+ pretty (port (endpoint_address e))].

(** C40. Unless the person asks for more, a diagnostic bundle is made of the same facts whatever the endpoints are
    called and wherever they are, whatever a rule matches and whatever the networks are called. On the list of what is
    removed is every label, host, and host with its port of an endpoint, every name, program, address block and address
    of a block that a rule of a person matches, and every name of a network, as long as it has three characters or
    more; and what is sent is either a refusal, or has none of the list anywhere in it, in any case. *)
Theorem bundles_keep_private_things_private `{UuidDisplay, DebugText, JsonText, ToLowercase} f f' :
  (same_but_private f f' → build f options_default = build f' options_default) ∧
  (∀ e v, e ∈ fact_endpoints f → v ∈ endpoint_texts e → (3 ≤ length (chars v))%nat →
     v ∈ sensitive_values f options_default) ∧
  (∀ r v, r ∈ fact_rules f → is_builtin r = false → v ∈ matched_texts (matcher r) → (3 ≤ length (chars v))%nat →
     v ∈ sensitive_values f options_default) ∧
  (∀ s p v, fact_paths f = Some s → p ∈ snapshot_paths s → view_name p = Some v → (3 ≤ length (chars v))%nat →
     v ∈ sensitive_values f options_default) ∧
  (render f options_default = refused_bundle ∨
   ∀ v, v ∈ sensitive_values f options_default → contains (to_lowercase (render f options_default)) (to_lowercase v) = false).
Proof.
  split_and!.
  - apply build_same.
  - intros e v He Hv Hlen. apply elem_of_sensitive. split; [|done]. unfold private_values. simpl. rewrite !elem_of_app. left.
    apply list_elem_of_In, in_flat_map. exists e. split; [by apply list_elem_of_In|]. apply list_elem_of_In.
    unfold endpoint_texts, address_to_string in *. rewrite !elem_of_cons in Hv |- *. intuition.
  - intros r v Hr Hb Hv Hlen. apply elem_of_sensitive. split; [|done]. unfold private_values. simpl. rewrite !elem_of_app. right. left.
    apply list_elem_of_In, in_flat_map. exists r. split.
    + apply list_elem_of_In, elem_of_filter_bool. by rewrite Hb.
    + apply list_elem_of_In. by destruct (matcher r).
  - intros s p v Hs Hp Hv Hlen. apply elem_of_sensitive. split; [|done]. unfold private_values. simpl. rewrite !elem_of_app. right. right.
    rewrite Hs. apply list_elem_of_In, in_flat_map. exists p. split; [by apply list_elem_of_In|]. rewrite Hv. by left.
  - unfold render. destruct (existsb _ _) eqn:E; [by left|right]. intros v Hv. rewrite existsb_false_elem in E. by apply E.
Qed.

(** * Witnesses *)

Module DiagnosticsDemo.
#[export] Instance display : UuidDisplay := fun u => pretty u.
#[export] Instance debug_text : DebugText := fun s => s.
#[export] Instance lower : ToLowercase := fun s => s.
#[export] Instance text : JsonText := {| from_str s := Ok (Str s); json_to_string _ := "text" |}.
Definition state : StateSnapshot := mkSnapshot Connected None None None [] (Tunnelled Tier1).
(** One network, carrying the connection, under the name it is given. *)
Definition at_network (name : string) : Facts :=
  mkFacts 1 state [] [] [] Block
    (Some (mkPathsSnapshot [mkPathView 7 Wifi (Some name) Carrying true (Some Good) (Some 20000000) None (Some f64_zero) [] None] None))
    None true false true.
End DiagnosticsDemo.
Import DiagnosticsDemo.

(** The bundle is the same at home and at work, and the name of either network is on the list of what is removed. *)
Lemma bundles_keep_private_things_private_witness :
  build (at_network "home") options_default = build (at_network "work") options_default ∧
  "home" ∈ sensitive_values (at_network "home") options_default.
Proof.
  destruct (bundles_keep_private_things_private (at_network "home") (at_network "work")) as (Hsame & _ & _ & Hnames & _). split.
  - apply Hsame. constructor.
    + reflexivity.
    + repeat split.
    + reflexivity.
    + constructor.
    + constructor.
    + reflexivity.
    + constructor. split; [|reflexivity]. constructor; [|constructor]. repeat split.
    + reflexivity.
    + repeat split.
  - eapply Hnames; [reflexivity|constructor|reflexivity|vm_compute; lia].
Defined.
