(* ===== verification/Supervisor.v ===== *)
(** The supervision of the transport cores (crates/dnet-supervisor/src): how long until a core that exited is started
    again, the order in which cores start and stop, what is read of a core's output, when it counts as ready and as
    ended, and which processes a crashed run left are ended. *)

From Stdlib Require Import SpecFloat Ascii.
From S2P Require Import Prelude Float Text Effects Profile Session Protocol.

(** * Definitions *)

(** ** Errors *)

(* src: crates/dnet-supervisor/src/error.rs:5-25 SupervisorError *)
Inductive SupervisorError : Type :=
  | CoreGaveUp (core : CoreBinding)
  | SpawnFailed (core : CoreBinding) (detail : string)
  | NotReady (core : CoreBinding) (detail : string)
  | RuntimeFailed (detail : string).

(* src: crates/dnet-supervisor/src/error.rs:10-24 SupervisorError *)
Definition supervisor_error_to_string (e : SupervisorError) : string :=
  match e with
  | CoreGaveUp core => "core " +:+ core_binding_str core +:+ " failed persistently and will not be restarted"
  | SpawnFailed core detail => "core " +:+ core_binding_str core +:+ " could not be spawned: " +:+ detail
  | NotReady core detail => "core " +:+ core_binding_str core +:+ " did not become ready: " +:+ detail
  | RuntimeFailed detail => "supervisor runtime operation failed: " +:+ detail
  end.

(** ** Restarting *)

(* src: crates/dnet-supervisor/src/restart.rs:10-17 RestartDecision *)
Inductive RestartDecision : Type := RetryAfter (d : Duration) | GiveUp.

(* src: crates/dnet-supervisor/src/restart.rs:19-25 RestartPolicy *)
Record RestartPolicy : Type := mkRestartPolicy { base : Duration; ceiling : Duration; max_attempts : Z }.

(* src: crates/dnet-supervisor/src/restart.rs:37-40 RestartPolicy::for_cores *)
Definition for_cores : RestartPolicy := mkRestartPolicy (from_millis 500) (from_secs 30) 8.

(** [as_millis() as u64] keeps the low 64 bits. *)
(* src: crates/dnet-supervisor/src/restart.rs:62-69 RestartPolicy::capped_delay *)
Definition capped_delay (p : RestartPolicy) (attempt : Z) : Duration :=
  let shift := Z.min (Z.max 0 (attempt - 1)) 20 in
  let factor := Z.shiftl 1 shift in
  let millis := u64_saturating_mul (as_millis (base p) mod 2 ^ 64) factor in
  Z.min (from_millis millis) (ceiling p).

(** [None] is the panic of [mul_f64], for a jitter that is not a number. *)
(* src: crates/dnet-supervisor/src/restart.rs:46-60 RestartPolicy::decide *)
Definition decide_restart (p : RestartPolicy) (attempt : Z) (jitter : f64) : option RestartDecision :=
  if (attempt =? 0) || (max_attempts p <? attempt) then Some GiveUp
  else
    let capped := capped_delay p attempt in
    let jitter := f64_clamp jitter f64_zero f64_one in
    scaled ← mul_f64 capped (f64_add (f64_lit 1 2) (f64_mul (f64_lit 1 2) jitter));
    Some (RetryAfter (Z.min scaled capped)).

(** ** Start and stop *)

(** The operations of the runtime, each answered with a result. *)
(* src: crates/dnet-supervisor/src/runtime.rs:18-45 CoreRuntime *)
Inductive CoreOp : Type :=
  | ReapOrphans | SpawnCore (core : CoreBinding) | AwaitAdapter | KillCore (core : CoreBinding) | ReplayUndo.

Definition core_answer (_ : CoreOp) : Type := result SupervisorError unit.
Abbreviation Cores := (Prog core_answer).
Definition core_op (o : CoreOp) : Cores (result SupervisorError unit) := perform (R := core_answer) o.

(** [?] on what an operation answered. *)
Definition and_then {A} (p : Cores (result SupervisorError A)) (k : A → Cores (result SupervisorError unit)) :
    Cores (result SupervisorError unit) :=
  answer ← p; match answer with Ok a => k a | Err e => mret (Err e) end.

(* src: crates/dnet-supervisor/src/reap.rs:23-34 start_cores *)
Definition start_cores (active : CoreBinding) : Cores (result SupervisorError unit) :=
  and_then (core_op ReapOrphans) (fun _ =>
  and_then (match active with
            | AmneziaWgCore =>
                and_then (core_op (SpawnCore AmneziaWgCore)) (fun _ => core_op AwaitAdapter)
            | PrimaryCore => mret (Ok ())
            end) (fun _ =>
  core_op (SpawnCore PrimaryCore))).

(* src: crates/dnet-supervisor/src/shutdown.rs:12-24 shutdown_all *)
Definition shutdown_all : Cores (result SupervisorError unit) :=
  primary ← core_op (KillCore PrimaryCore);
  amnezia ← core_op (KillCore AmneziaWgCore);
  replayed ← core_op ReplayUndo;
  mret (_ ← (replayed : result SupervisorError unit); _ ← (primary : result SupervisorError unit); amnezia).

(** ** A core's output *)

(* src: crates/dnet-supervisor/src/process.rs:49-50 MAX_LINE_BYTES *)
Definition MAX_LINE_BYTES : nat := Z.to_nat (8 * 1024).

Definition newline : ascii := byte_of 10.

(** What one buffer completes, and the line it leaves begun. A turn per line, and one more, is enough. *)
(* src: crates/dnet-supervisor/src/process.rs:96-113 for_each_line *)
Fixpoint lines_of_buffer (turns : nat) (line buffer : list ascii) : list (list ascii) * list ascii :=
  match turns with
  | O => ([], line)
  | S turns =>
      let room := (MAX_LINE_BYTES - length line)%nat in
      match split_once_bytes newline buffer with
      | None => ([], line ++ take room buffer)
      | Some (chunk, rest) =>
          let '(lines, begun) := lines_of_buffer turns [] rest in
          ((line ++ take room chunk) :: lines, begun)
      end
  end.

(** The buffers as they are read, to the end of the stream or to a failure to read it. *)
(* src: crates/dnet-supervisor/src/process.rs:88-114 for_each_line *)
Fixpoint for_each_line (line : list ascii) (buffers : list (list ascii)) (ends : bool) : list (list ascii) :=
  match buffers with
  | [] => match line with [] => [] | _ => if ends then [line] else [] end
  | buffer :: buffers =>
      let '(lines, line) := lines_of_buffer (S (length buffer)) line buffer in
      lines ++ for_each_line line buffers ends
  end.

(** ** Readiness and the end of a process *)

(* src: crates/dnet-supervisor/src/child.rs:11-20 ReadyError *)
Inductive ReadyError : Type := ReadyTimeout (within : Duration) | ExitedFirst.

(** What came first: the time running out, or the signal being resolved. *)
(* src: crates/dnet-supervisor/src/child.rs:22-36 await_ready *)
Definition await_ready (resolved : option bool) (within : Duration) : result ReadyError unit :=
  match resolved with
  | None => Err (ReadyTimeout within)
  | Some true => Ok ()
  | Some false => Err ExitedFirst
  end.

(** What the system says of a process that is asked about: its exit status, that it runs, or an error. *)
Inductive Waited : Type := ExitedWith (status : string) | Running | WaitFailed (error : string).

(** [marker]: whether a line of output is waited for, the first time; [resolved] is what the wait for it came to. *)
(* src: crates/dnet-supervisor/src/process.rs:182-207 RunningCore::wait_ready *)
Definition wait_ready (core : CoreBinding) (marker : bool) (now : Waited) (resolved : option bool)
    (timeout : Duration) (timeout_text : string) : result SupervisorError unit :=
  if negb marker then
    match now with
    | ExitedWith status => Err (NotReady core ("exited immediately (" +:+ status +:+ ")"))
    | Running => Ok ()
    | WaitFailed e => Err (NotReady core e)
    end
  else
    match await_ready resolved timeout with
    | Ok _ => Ok ()
    | Err (ReadyTimeout _) => Err (NotReady core ("no readiness signal within " +:+ timeout_text))
    | Err ExitedFirst => Err (NotReady core "exited before signalling ready")
    end.

(** [after] is what the wait for the end came to; [None] is the grace running out. *)
(* src: crates/dnet-supervisor/src/process.rs:214-233 RunningCore::kill *)
Definition kill_process (core : CoreBinding) (now : Waited) (killed : result string unit)
    (after : option (result string unit)) (grace_text : string) : result SupervisorError unit :=
  match now with
  | ExitedWith _ => Ok ()
  | _ =>
      match killed with
      | Err e => Err (RuntimeFailed ("killing " +:+ core_binding_str core +:+ ": " +:+ e))
      | Ok _ =>
          match after with
          | Some (Ok _) => Ok ()
          | Some (Err e) => Err (RuntimeFailed ("waiting for " +:+ core_binding_str core +:+ ": " +:+ e))
          | None => Err (RuntimeFailed (core_binding_str core +:+ " did not exit within " +:+ grace_text +:+
                                        " of being killed"))
          end
      end
  end.

(** ** Orphans *)

Section Orphans.
Context `{ToLowercase}.

(* src: crates/dnet-supervisor/src/orphans.rs:14-21 same_image *)
Definition normal_image (path : string) : string :=
  let s := replace_byte "/" "\" path in
  to_lowercase (trim_end_matches "\" (default s (strip_prefix "\\?\" s))).

(* src: crates/dnet-supervisor/src/orphans.rs:12-23 same_image *)
Definition same_image (a b : string) : bool := String.eqb (normal_image a) (normal_image b).

(** A process of the snapshot, with the path its image is reported under, if it could be asked. *)
Record Process : Type := mkProcess { pid : Z; exe_name : string; image : option string }.

(** A supervised binary, with its file name. *)
Record Binary : Type := mkBinary { binary_path : string; binary_name : option string }.

Definition is_binary (images : list Binary) (path : string) : bool :=
  existsb (fun b => same_image path (binary_path b)) images.

(* src: crates/dnet-supervisor/src/orphans.rs:94-129 find_by_image *)
Definition find_by_image (me : Z) (images : list Binary) (snapshot : list Process) : list Z :=
  let wanted := omap (fun b => to_lowercase <$> binary_name b) images in
  map pid (List.filter (fun p =>
    negb (pid p =? me) && existsb (String.eqb (to_lowercase (exe_name p))) wanted &&
    match image p with Some path => is_binary images path | None => false end) snapshot).

(** What opening a process to end it came to: it is gone, it cannot be opened, or it is open, under an image path if
    that can be read, and ending it came to something. *)
Inductive Opened : Type :=
  | OpenedGone
  | OpenRefused (error : string)
  | Open (path : option string) (ended : result string unit).

(** Whether it was ended. *)
(* src: crates/dnet-supervisor/src/orphans.rs:149-176 terminate_if_image *)
Definition terminate_if_image (images : list Binary) (id : Z) (o : Opened) : result SupervisorError bool :=
  match o with
  | OpenedGone => Ok false
  | OpenRefused e => Err (RuntimeFailed ("opening pid " +:+ pretty id +:+ " to end it: " +:+ e))
  | Open path ended =>
      if match path with Some path => is_binary images path | None => false end then
        match ended with
        | Ok _ => Ok true
        | Err e => Err (RuntimeFailed ("terminating pid " +:+ pretty id +:+ ": " +:+ e))
        end
      else Ok false
  end.

(* src: crates/dnet-supervisor/src/orphans.rs:186-198 reap *)
Fixpoint reap_each (images : list Binary) (answers : Z → Opened) (found : list Z) :
    list Z * option SupervisorError :=
  match found with
  | [] => ([], None)
  | id :: found =>
      let '(reaped, failure) := reap_each images answers found in
      match terminate_if_image images id (answers id) with
      | Ok true => (id :: reaped, failure)
      | Ok false => (reaped, failure)
      | Err e => (reaped, Some e)
      end
  end.

(** The processes that were ended, and what is returned. *)
(* src: crates/dnet-supervisor/src/orphans.rs:178-203 reap *)
Definition reap (me : Z) (images : list Binary) (snapshot : result SupervisorError (list Process))
    (answers : Z → Opened) : list Z * result SupervisorError (list Z) :=
  match snapshot with
  | Err e => ([], Err e)
  | Ok snapshot =>
      let '(reaped, failure) := reap_each images answers (find_by_image me images snapshot) in
      (reaped, match failure with Some e => Err e | None => Ok reaped end)
  end.
End Orphans.

(** ** The runtime *)

(** The cores that run, by what each is; [P] is a handle to a process, which is ended when it is dropped. *)
(* src: crates/dnet-supervisor/src/windows_runtime.rs:31-39 WindowsCoreRuntime *)
Record Runtime (P : Type) : Type := mkRuntime { primary_running : option P; amneziawg_running : option P; dropped : list P }.
Arguments mkRuntime {P}.
Arguments primary_running {P}.
Arguments amneziawg_running {P}.
Arguments dropped {P}.

Section Runtime.
Context {P : Type}.
Implicit Types (rt : Runtime P).

Definition running (core : CoreBinding) rt : option P :=
  match core with PrimaryCore => primary_running rt | AmneziaWgCore => amneziawg_running rt end.

Definition set_running (core : CoreBinding) (p : option P) rt : Runtime P :=
  match core with
  | PrimaryCore => mkRuntime p (amneziawg_running rt) (dropped rt)
  | AmneziaWgCore => mkRuntime (primary_running rt) p (dropped rt)
  end.

Definition drop_handle (p : option P) rt : Runtime P :=
  mkRuntime (primary_running rt) (amneziawg_running rt) (dropped rt ++ match p with Some p => [p] | None => [] end).

(** What spawning and the wait for readiness answer. *)
(* src: crates/dnet-supervisor/src/windows_runtime.rs:98-105 WindowsCoreRuntime::spawn_core *)
Definition spawn_core (core : CoreBinding) (spawned : result SupervisorError P) (ready : result SupervisorError unit) rt :
    Runtime P * result SupervisorError unit :=
  match spawned with
  | Err e => (rt, Err e)
  | Ok p =>
      match ready with
      | Err e => (drop_handle (Some p) rt, Err e)
      | Ok _ => (set_running core (Some p) (drop_handle (running core rt) rt), Ok ())
      end
  end.

(* src: crates/dnet-supervisor/src/windows_runtime.rs:119-129 WindowsCoreRuntime::kill_core *)
Definition kill_core (core : CoreBinding) (killed : result SupervisorError unit) rt : Runtime P * result SupervisorError unit :=
  match running core rt with
  | Some p => (drop_handle (Some p) (set_running core None rt), killed)
  | None => (rt, Ok ())
  end.
End Runtime.

(** * Lemmas *)

(** ** Lines, a byte at a time *)

(** The same reading with no buffers: what a byte adds to the lines that are complete and the one that is begun. *)
Definition read_byte (seen : list (list ascii) * list ascii) (b : ascii) : list (list ascii) * list ascii :=
  let '(lines, line) := seen in
  if Ascii.eqb b newline then (lines ++ [line], [])
  else (lines, if (length line <? MAX_LINE_BYTES)%nat then line ++ [b] else line).

Definition read_bytes (seen : list (list ascii) * list ascii) (l : list ascii) := fold_left read_byte l seen.

Lemma read_bytes_cons seen b l : read_bytes seen (b :: l) = read_bytes (read_byte seen b) l.
Proof. done. Qed.

Lemma read_bytes_app seen a b : read_bytes seen (a ++ b) = read_bytes (read_bytes seen a) b.
Proof. apply fold_left_app. Qed.

Lemma read_bytes_lines lines line l :
  read_bytes (lines, line) l = (lines ++ (read_bytes ([], line) l).1, (read_bytes ([], line) l).2).
Proof.
  revert lines line. induction l as [|b l IH]; intros lines line; [simpl; by rewrite app_nil_r|].
  rewrite !read_bytes_cons. unfold read_byte.
  destruct (Ascii.eqb b newline); [|apply IH].
  rewrite IH, (IH ([] ++ [line])). simpl. by rewrite <-app_assoc.
Qed.

(** Bytes without a newline are added while there is room. *)
Lemma read_bytes_plain line l :
  newline ∉ l → (length line ≤ MAX_LINE_BYTES)%nat →
  read_bytes ([], line) l = ([], line ++ take (MAX_LINE_BYTES - length line) l).
Proof.
  revert line. induction l as [|b l IH]; intros line Hn Hl; [by rewrite take_nil, app_nil_r|].
  apply not_elem_of_cons in Hn as [Hb Hn]. unfold read_bytes in *. simpl.
  destruct (Ascii.eqb b newline) eqn:E; [apply Ascii.eqb_eq in E; congruence|].
  destruct (Nat.ltb_spec (length line) MAX_LINE_BYTES) as [Hlt|Hge].
  - rewrite IH by (done || rewrite length_app; simpl; lia). rewrite length_app. cbn [length].
    replace (MAX_LINE_BYTES - length line)%nat with (S (MAX_LINE_BYTES - (length line + 1)))%nat by lia.
    simpl. by rewrite <-app_assoc.
  - rewrite IH by done. replace (MAX_LINE_BYTES - length line)%nat with 0%nat by lia. by rewrite !firstn_O.
Qed.

Lemma split_newline l :
  match split_once_bytes newline l with
  | None => newline ∉ l
  | Some (chunk, rest) => l = chunk ++ newline :: rest ∧ newline ∉ chunk
  end.
Proof.
  induction l as [|b l IH]; simpl; [set_solver|]. destruct (Ascii.eqb b newline) eqn:E.
  - apply Ascii.eqb_eq in E as ->. split; [done|set_solver].
  - apply Ascii.eqb_neq in E. destruct (split_once_bytes newline l) as [[chunk rest]|]; simpl.
    + destruct IH as [-> Hn]. split; [done|]. rewrite not_elem_of_cons. split; [congruence|done].
    + rewrite not_elem_of_cons. split; [congruence|done].
Qed.

Lemma read_line_bounded line l : (length line ≤ MAX_LINE_BYTES)%nat → (length (read_bytes ([], line) l).2 ≤ MAX_LINE_BYTES)%nat.
Proof.
  revert line. induction l as [|b l IH]; intros line Hl; [done|]. rewrite read_bytes_cons. unfold read_byte.
  destruct (Ascii.eqb b newline).
  - rewrite read_bytes_lines. apply IH. simpl. lia.
  - apply IH. destruct (Nat.ltb_spec (length line) MAX_LINE_BYTES); [rewrite length_app; simpl; lia|done].
Qed.

Lemma lines_of_buffer_bytes turns line buffer :
  (length buffer < turns)%nat → (length line ≤ MAX_LINE_BYTES)%nat →
  lines_of_buffer turns line buffer = read_bytes ([], line) buffer.
Proof.
  revert line buffer. induction turns as [|turns IH]; intros line buffer Ht Hl; [lia|]. cbn [lines_of_buffer].
  pose proof (split_newline buffer) as Hs. destruct (split_once_bytes newline buffer) as [[chunk rest]|].
  - destruct Hs as [-> Hn]. rewrite length_app in Ht. simpl in Ht. rewrite IH by (simpl; lia).
    rewrite read_bytes_app, (read_bytes_plain line chunk), read_bytes_cons by done. unfold read_byte.
    rewrite Ascii.eqb_refl, (read_bytes_lines ([] ++ _)).
    by destruct (read_bytes ([], []) rest).
  - by rewrite read_bytes_plain.
Qed.

(** ** Runs of the runtime's operations *)

(** What was performed, and whether it succeeded. *)
Definition logged (w : list (CoreOp * bool)) (o : CoreOp) : core_answer o → list (CoreOp * bool) → Prop :=
  fun answer w' => w' = w ++ [(o, is_ok answer)].

Lemma run_op_inv {A} w o (k : result SupervisorError unit → Cores A) w' out :
  run logged w (Do (R := core_answer) o k) w' out →
  (w' = w ∧ out = None) ∨ ∃ answer, run logged (w ++ [(o, is_ok answer)]) (k answer) w' out.
Proof. intros [?|(answer & w1 & -> & Hr)]%prog_run_inv; [by left|right]. by exists answer. Qed.

Lemma run_ret_inv {A} w (a : A) w' out :
  run logged w (Ret (R := core_answer) a) w' out → w' = w ∧ (out = None ∨ out = Some a).
Proof. intros Hr. exact (prog_run_inv _ _ _ _ _ Hr). Qed.

(** The lines of a whole text: its pieces between newlines, without an empty one at the end, each cut. *)
Definition pieces (l : list ascii) : list (list ascii) * list ascii :=
  let p := split_bytes newline l in (removelast p, List.last p []).

Lemma split_bytes_not_nil c l : split_bytes c l ≠ [].
Proof. destruct l as [|b l]; simpl; [done|]. destruct (Ascii.eqb b c); [done|]. by destruct (split_bytes c l). Qed.

Lemma pieces_cons b l :
  pieces (b :: l) =
    if Ascii.eqb b newline then ([] :: (pieces l).1, (pieces l).2)
    else match (pieces l).1 with
         | [] => ([], b :: (pieces l).2)
         | first :: more => ((b :: first) :: more, (pieces l).2)
         end.
Proof.
  unfold pieces. simpl. pose proof (split_bytes_not_nil newline l) as Hn. destruct (split_bytes newline l) as [|x p]; [done|].
  destruct (Ascii.eqb b newline); [done|]. by destruct p.
Qed.

Lemma read_bytes_pieces line l : (length line ≤ MAX_LINE_BYTES)%nat →
  read_bytes ([], line) l =
    match (pieces l).1 with
    | [] => ([], line ++ take (MAX_LINE_BYTES - length line) (pieces l).2)
    | first :: more =>
        ((line ++ take (MAX_LINE_BYTES - length line) first) :: map (take MAX_LINE_BYTES) more, take MAX_LINE_BYTES (pieces l).2)
    end.
Proof.
  revert line. induction l as [|b l IH]; intros line Hl.
  - unfold pieces. simpl. by rewrite take_nil, app_nil_r.
  - rewrite read_bytes_cons, pieces_cons. unfold read_byte. destruct (Ascii.eqb b newline).
    + rewrite read_bytes_lines, IH by (cbn [length]; lia). cbn [length fst snd]. rewrite !Nat.sub_0_r, take_nil, app_nil_r.
      by destruct (pieces l).1.
    + destruct (Nat.ltb_spec (length line) MAX_LINE_BYTES) as [Hlt|Hge].
      * rewrite IH by (rewrite length_app; simpl; lia). rewrite length_app. cbn [length].
        replace (MAX_LINE_BYTES - length line)%nat with (S (MAX_LINE_BYTES - (length line + 1))) by lia.
        destruct (pieces l).1; simpl; by rewrite <-app_assoc.
      * rewrite IH by done. replace (MAX_LINE_BYTES - length line)%nat with 0%nat by lia.
        destruct (pieces l).1; simpl; by rewrite !firstn_O.
Qed.

Lemma for_each_line_bytes line buffers : (length line ≤ MAX_LINE_BYTES)%nat →
  for_each_line line buffers true =
    let '(lines, last) := read_bytes ([], line) (concat buffers) in lines ++ match last with [] => [] | _ => [last] end.
Proof.
  revert line. induction buffers as [|b buffers IH]; intros line Hl; [done|]. cbn [for_each_line concat].
  rewrite lines_of_buffer_bytes by (done || lia). rewrite read_bytes_app.
  pose proof (read_line_bounded line b Hl) as Hb. destruct (read_bytes ([], line) b) as [lines begun]. simpl in Hb.
  rewrite IH by done. rewrite (read_bytes_lines lines). destruct (read_bytes ([], begun) (concat buffers)) as [l2 last2]. simpl.
  by rewrite app_assoc.
Qed.

(** ** Ending processes *)

Lemma reap_each_spec `{ToLowercase} images answers found :
  let '(reaped, failure) := reap_each images answers found in
  (∀ id, id ∈ reaped ↔ id ∈ found ∧ terminate_if_image images id (answers id) = Ok true) ∧
  (failure = None ↔ ∀ id, id ∈ found → is_ok (terminate_if_image images id (answers id)) = true).
Proof.
  induction found as [|id found IH]; simpl; [split; [set_solver|split; [set_solver|done]]|].
  destruct (reap_each images answers found) as [reaped failure]. destruct IH as [Hr Hf].
  destruct (terminate_if_image images id (answers id)) as [[]|e] eqn:E.
  - split.
    + intros x. rewrite !elem_of_cons, Hr. split; [intros [->|[? ?]]; auto|intros [[->|?] ?]; auto].
    + rewrite Hf. split; intros Hall x; [intros [->|Hx]%elem_of_cons; [by rewrite E|by apply Hall]|intros Hx; apply Hall; by right].
  - split.
    + intros x. rewrite elem_of_cons, Hr. split; [intros [? ?]; auto|]. intros [[->|?] Hx]; [congruence|done].
    + rewrite Hf. split; intros Hall x; [intros [->|Hx]%elem_of_cons; [by rewrite E|by apply Hall]|intros Hx; apply Hall; by right].
  - split.
    + intros x. rewrite elem_of_cons, Hr. split; [intros [? ?]; auto|]. intros [[->|?] Hx]; [congruence|done].
    + split; [done|]. intros Hall. specialize (Hall id (list_elem_of_here _ _)). by rewrite E in Hall.
Qed.

Lemma elem_of_find_by_image `{ToLowercase} me images snapshot id :
  id ∈ find_by_image me images snapshot →
  id ≠ me ∧ ∃ p path, p ∈ snapshot ∧ pid p = id ∧ image p = Some path ∧ is_binary images path = true.
Proof.
  unfold find_by_image. intros (p & -> & [Hp Hc]%elem_of_filter_bool)%elem_of_map.
  apply andb_prop in Hc as [[Hme _]%andb_prop Hi]. apply negb_true_iff, Z.eqb_neq in Hme. split; [done|].
  destruct (image p) as [path|] eqn:E; [|done]. by exists p, path.
Qed.

Lemma terminated_is_binary `{ToLowercase} images id o :
  terminate_if_image images id o = Ok true → ∃ path, o = Open (Some path) (Ok ()) ∧ is_binary images path = true.
Proof.
  destruct o as [|e|[path|] ended]; simpl; try done. destruct (is_binary images path) eqn:E; [|done].
  destruct ended as [[]|]; [|done]. intros _. by exists path.
Qed.

(** * Theorems *)

(** A core that exits is started again a bounded number of times: never for attempt zero or past the limit, and
    each wait is at most the delay of that attempt, which doubles from the base and never passes the ceiling. *)
Theorem restarts_are_bounded p attempt jitter :
  (decide_restart p attempt jitter = Some GiveUp ↔ attempt = 0 ∨ max_attempts p < attempt) ∧
  (∀ d, decide_restart p attempt jitter = Some (RetryAfter d) → d ≤ capped_delay p attempt ∧ d ≤ ceiling p) ∧
  (∀ n, 1 ≤ n ≤ 20 → as_millis (base p) * 2 ^ n < 2 ^ 64 → 0 ≤ as_millis (base p) →
     capped_delay p n = Z.min (from_millis (as_millis (base p) * 2 ^ (n - 1))) (ceiling p)).
Proof.
  unfold decide_restart. split_and!.
  - destruct (Z.eqb_spec attempt 0); simpl; [split; auto|]. destruct (Z.ltb_spec (max_attempts p) attempt); [split; auto|].
    split; [|lia]. by destruct (mul_f64 _ _).
  - intros d. destruct ((attempt =? 0) || (max_attempts p <? attempt)); [done|].
    destruct (mul_f64 _ _) as [scaled|]; [|done]. cbn [mbind option_bind]. intros [= <-].
    split; [lia|]. unfold capped_delay. lia.
  - intros n Hn Hlt Hge. unfold capped_delay, u64_saturating_mul.
    rewrite (Z.min_l _ 20), Z.max_r, Z.shiftl_mul_pow2, Z.mul_1_l by lia.
    assert (2 ^ n = 2 * 2 ^ (n - 1)) as E by (rewrite <-Z.pow_succ_r by lia; f_equal; lia).
    assert (0 < 2 ^ (n - 1)) as Hp by (apply Z.pow_pos_nonneg; lia).
    rewrite Z.mod_small by nia. rewrite (Z.min_r U64_MAX); [done|]. unfold U64_MAX. nia.
Qed.

(** The order in which the cores of a profile start. *)
Definition start_plan (active : CoreBinding) : list CoreOp :=
  match active with
  | AmneziaWgCore => [ReapOrphans; SpawnCore AmneziaWgCore; AwaitAdapter; SpawnCore PrimaryCore]
  | PrimaryCore => [ReapOrphans; SpawnCore PrimaryCore]
  end.

(** Nothing is started before what a crashed run left is ended, and the adapter of AmneziaWG is waited for exactly
    when its core was started; the first operation that fails ends the start, and its error is the answer. Stopping
    ends the primary core, then the other, then restores the network, whichever of them fails, and only succeeds when
    all three did. *)
Theorem cores_start_and_stop_in_order active w :
  (∀ r, run logged [] (start_cores active) w (Some r) →
     (r = Ok () ∧ w = map (., true) (start_plan active)) ∨
     ∃ before op after, start_plan active = before ++ op :: after ∧ w = map (., true) before ++ [(op, false)] ∧ is_ok r = false) ∧
  (∀ r, run logged [] shutdown_all w (Some r) →
     map fst w = [KillCore PrimaryCore; KillCore AmneziaWgCore; ReplayUndo] ∧
     (is_ok r = true ↔ ∀ x, x ∈ w → x.2 = true)).
Proof.
  split.
  - intros r Hr. assert (Hfail : ∀ before op after w', start_plan active = before ++ op :: after → w = map (., true) before ++ [(op, false)] →
      ∀ e, r = Err e → (r = Ok () ∧ w = w') ∨ ∃ before op after, start_plan active = before ++ op :: after ∧
        w = map (., true) before ++ [(op, false)] ∧ is_ok r = false).
    { intros before op after w' E1 E2 e ->. right. by exists before, op, after. }
    destruct active; cbn [start_cores and_then] in Hr.
    + apply run_op_inv in Hr as [[_ ?]|([u1|e1] & Hr)]; [done| |]; simpl in Hr.
      * apply run_op_inv in Hr as [[_ ?]|([u2|e2] & Hr)]; [done| |]; apply run_ret_inv in Hr as [-> [?|[= ->]]]; try done.
        -- left. by destruct u2.
        -- by eapply (Hfail [ReapOrphans] (SpawnCore PrimaryCore) []).
      * apply run_ret_inv in Hr as [-> [?|[= ->]]]; [done|]. by eapply (Hfail [] ReapOrphans).
    + apply run_op_inv in Hr as [[_ ?]|([u1|e1] & Hr)]; [done| |]; simpl in Hr.
      * apply run_op_inv in Hr as [[_ ?]|([u2|e2] & Hr)]; [done| |]; simpl in Hr.
        -- apply run_op_inv in Hr as [[_ ?]|([u3|e3] & Hr)]; [done| |]; simpl in Hr.
           ++ apply run_op_inv in Hr as [[_ ?]|([u4|e4] & Hr)]; [done| |]; apply run_ret_inv in Hr as [-> [?|[= ->]]]; try done.
              ** left. by destruct u4.
              ** by eapply (Hfail [ReapOrphans; SpawnCore AmneziaWgCore; AwaitAdapter] (SpawnCore PrimaryCore) []).
           ++ apply run_ret_inv in Hr as [-> [?|[= ->]]]; [done|]. by eapply (Hfail [ReapOrphans; SpawnCore AmneziaWgCore] AwaitAdapter).
        -- apply run_ret_inv in Hr as [-> [?|[= ->]]]; [done|]. by eapply (Hfail [ReapOrphans] (SpawnCore AmneziaWgCore)).
      * apply run_ret_inv in Hr as [-> [?|[= ->]]]; [done|]. by eapply (Hfail [] ReapOrphans).
  - intros r Hr. unfold shutdown_all in Hr. simpl in Hr.
    apply run_op_inv in Hr as [[_ ?]|(a1 & Hr)]; [done|]. simpl in Hr.
    apply run_op_inv in Hr as [[_ ?]|(a2 & Hr)]; [done|]. simpl in Hr.
    apply run_op_inv in Hr as [[_ ?]|(a3 & Hr)]; [done|]. simpl in Hr.
    apply run_ret_inv in Hr as [-> [?|[= ->]]]; [done|]. split; [done|]. cbn [app].
    destruct a1 as [[]|e1], a2 as [[]|e2], a3 as [[]|e3]; simpl; (split; [|intros Hall]); try done;
      try (by intros _ x; rewrite !elem_of_cons, elem_of_nil; intros [->|[->|[->|[]]]]);
      first [by specialize (Hall (KillCore PrimaryCore, false) ltac:(set_solver))|
             by specialize (Hall (KillCore AmneziaWgCore, false) ltac:(set_solver))|
             by specialize (Hall (ReplayUndo, false) ltac:(set_solver))].
Qed.

(** A core's output is read to its end as its lines, each cut at the limit, wherever the buffers it arrives in
    begin and end. *)
Theorem output_is_read_by_lines buffers :
  for_each_line [] buffers true =
    let '(lines, last) := pieces (concat buffers) in
    map (take MAX_LINE_BYTES) lines ++ match last with [] => [] | _ => [take MAX_LINE_BYTES last] end.
Proof.
  rewrite for_each_line_bytes by (simpl; lia). rewrite read_bytes_pieces by (simpl; lia).
  destruct (pieces (concat buffers)) as [lines last]. cbn [fst snd length]. rewrite Nat.sub_0_r.
  assert (∀ A (x y : A), match take MAX_LINE_BYTES last with [] => x | _ => y end = match last with [] => x | _ => y end) as Hlast.
  { intros A x y. unfold MAX_LINE_BYTES. destruct (Z.to_nat (8 * 1024)) as [|n] eqn:E; [done|]. by destruct last. }
  destruct lines as [|first lines]; simpl; by rewrite Hlast.
Qed.

(** What is ended at start-up is only ever a process that was found as a supervised binary by its full path, that
    still is one when it is opened to be ended, and that is not the service; every one found is tried, and success
    means none of them could not be ended. *)
Theorem only_orphans_are_ended `{ToLowercase} me images snapshot answers :
  (∀ id, id ∈ (reap me images (Ok snapshot) answers).1 →
     id ≠ me ∧ (∃ p path, p ∈ snapshot ∧ pid p = id ∧ image p = Some path ∧ is_binary images path = true) ∧
     ∃ path, answers id = Open (Some path) (Ok ()) ∧ is_binary images path = true) ∧
  (∀ id, id ∈ find_by_image me images snapshot → terminate_if_image images id (answers id) = Ok true →
     id ∈ (reap me images (Ok snapshot) answers).1) ∧
  (∀ reaped, (reap me images (Ok snapshot) answers).2 = Ok reaped →
     reaped = (reap me images (Ok snapshot) answers).1 ∧
     ∀ id, id ∈ find_by_image me images snapshot → id ∈ reaped ∨ terminate_if_image images id (answers id) = Ok false).
Proof.
  unfold reap. pose proof (reap_each_spec images answers (find_by_image me images snapshot)) as Hs.
  destruct (reap_each _ _ _) as [reaped failure]. destruct Hs as [Hr Hf]. cbn [fst snd]. split_and!.
  - intros id [Hfound Ht]%Hr. apply elem_of_find_by_image in Hfound as [Hme Hp]. split; [done|]. split; [done|].
    by apply (terminated_is_binary images id).
  - intros id Hin Ht. by apply Hr.
  - intros l. destruct failure as [e|]; [done|]. intros [= <-]. split; [done|]. intros id Hin.
    pose proof (proj1 Hf eq_refl id Hin) as Hok. destruct (terminate_if_image images id (answers id)) as [[]|e] eqn:E; [|by right|done].
    left. by apply Hr.
Qed.
