(* ===== verification/Recovery.v ===== *)
(** Start-up recovery: what a run that crashed left is ended and restored before anything new is created, and the
    registry every change goes through only exists once it was (crates/dnetd/src/recovery.rs). *)

From S2P Require Import Prelude IpText Effects Undo Text.

(** * Definitions *)

(* src: crates/dnetd/src/recovery.rs:70-79 RecoveryError *)
Inductive RecoveryError : Type :=
  | OrphanCores (detail : string)
  | JournalUnusable (detail : string)
  | Unrestored (remaining : Z) (first : string).

(* src: crates/dnetd/src/recovery.rs:81-100 RecoveryError::fmt *)
Definition recovery_error_to_string (e : RecoveryError) : string :=
  (match e with
   | OrphanCores detail => "a tunnel process left by a previous run could not be stopped (" +:+ detail +:+ ")"
   | JournalUnusable detail =>
       "the record of network changes from a previous run could not be used (" +:+ detail +:+ ")"
   | Unrestored remaining first =>
       pretty remaining +:+ " network change(s) from a previous run could not be undone (" +:+ first +:+ ")"
   end) +:+ ". DNet Engine will not connect until they are restored; " +:+
  "restart the DNet Engine service to try again".

(* src: crates/dnet-netstate/src/error.rs:5-12 NetstateError *)
Definition netstate_error_to_string (e : NetstateError) : string :=
  match e with
  | Operation what => "network-state operation failed: " +:+ what
  | Journal what => "undo journal: " +:+ what
  end.

(* src: crates/dnetd/src/recovery.rs:33-41 Recovered *)
Record Recovered : Type := mkRecovered { rec_undo : UndoJournal; rec_reaped : Z; rec_restored : Z }.

(** What recovery performs: ending the orphans, opening the journal, and the effects of its replay. *)
(* src: crates/dnetd/src/recovery.rs:22-31 RecoveryOps *)
Inductive RecoveryOp : Type := ReapOrphanCores | OpenJournal | JournalEffect (e : UndoEffect).

Definition recovery_answer (o : RecoveryOp) : Type :=
  match o with
  | ReapOrphanCores => result string Z
  | OpenJournal => result NetstateError UndoJournal
  | JournalEffect e => answer e
  end.

Abbreviation Recovery := (Prog recovery_answer).

(** The effects of the registry among those of recovery. *)
Fixpoint within {A} (p : Prog answer A) : Recovery A :=
  match p with
  | Ret a => Ret a
  | Do e k => Do (R := recovery_answer) (JournalEffect e) (fun r => within (k r))
  end.

(* src: crates/dnetd/src/recovery.rs:113-123 recover_at_start *)
Definition judge_report (reaped : Z) (journal : UndoJournal) (report : ReplayReport) : result RecoveryError Recovered :=
  match failed report with
  | (_, first) :: _ => Err (Unrestored (Z.of_nat (length (failed report))) (netstate_error_to_string first))
  | [] => Ok (mkRecovered journal reaped (restored report))
  end.

(* src: crates/dnetd/src/recovery.rs:102-124 recover_at_start *)
Definition recover_at_start : Recovery (result RecoveryError Recovered) :=
  reaped ← perform (R := recovery_answer) ReapOrphanCores;
  match reaped with
  | Err e => mret (Err (OrphanCores e))
  | Ok reaped =>
      opened ← perform (R := recovery_answer) OpenJournal;
      match opened with
      | Err e => mret (Err (JournalUnusable (netstate_error_to_string e)))
      | Ok journal =>
          '(journal, replayed) ← within (replay journal);
          mret (match replayed with
            | Err e => Err (JournalUnusable (netstate_error_to_string e))
            | Ok report => judge_report reaped journal report
            end)
      end
  end.

(** ** The machine at start-up

    The cores a crashed run left running that reaping can find, and the machine of the registry. Orphans are told by the
    path of their image; a process whose path the system does not give (orphans.rs:94-129) is not among them. *)

Record Left : Type := mkLeft { cores : list Z; machine : Machine }.

(** The contracts. A reaping that succeeds has left no core running; one that fails may have ended some. A journal
    that opens is the stored one, checked. *)
Definition at_start (w : Left) (o : RecoveryOp) : recovery_answer o → Left → Prop :=
  match o with
  | ReapOrphanCores => fun ans w' =>
      machine w' = machine w ∧
      match ans with Ok n => cores w' = [] ∧ n = Z.of_nat (length (cores w)) | Err _ => ∀ c, c ∈ cores w' → c ∈ cores w end
  | OpenJournal => fun ans w' =>
      w' = w ∧ match ans with Ok j => check_journal (disk (machine w)) = Ok j | Err _ => True end
  | JournalEffect e => fun ans w' => cores w' = cores w ∧ handle (machine w) e ans (machine w')
  end.

(** * Lemmas *)

Lemma run_within {A} (p : Prog answer A) w w' o :
  run at_start w (within p) w' o → cores w' = cores w ∧ run handle (machine w) p (machine w') o.
Proof.
  revert w. induction p as [a|e k IH]; intros w Hr; simpl in Hr.
  - apply prog_run_inv in Hr as [-> [-> | ->]]; (split; [done|constructor]).
  - apply prog_run_inv in Hr as [[-> ->]|(ans & w1 & [Hc Hh] & Hr)]; [split; [done|constructor]|].
    apply IH in Hr as [Hc' Hr]. split; [congruence|]. by eapply run_do.
Qed.

(** How a recovery ends, or is cut off, in terms of the registry alone. *)
Inductive recovers (w w' : Left) : option (result RecoveryError Recovered) → Prop :=
  | recovery_early o : machine w' = machine w →
      match o with Some (Ok _) | Some (Err (Unrestored _ _)) => False | _ => True end → recovers w w' o
  | recovery_cut j : cores w' = [] → check_journal (disk (machine w)) = Ok j →
      run handle (machine w) (replay j) (machine w') None → recovers w w' None
  | recovery_ends j j' r n : cores w' = [] → check_journal (disk (machine w)) = Ok j →
      run handle (machine w) (replay j) (machine w') (Some (j', r)) →
      recovers w w' (Some (match r with
        | Err e => Err (JournalUnusable (netstate_error_to_string e)) | Ok report => judge_report n j' report end)).

Lemma recover_cases w w' o : run at_start w recover_at_start w' o → recovers w w' o.
Proof.
  intros Hr. unfold recover_at_start in Hr. simpl in Hr.
  apply prog_run_inv in Hr as [[-> ->]|(reaped & w1 & [Hm Hc] & Hr)]; [by apply recovery_early|].
  destruct reaped as [n|e]; simpl in Hr.
  - destruct Hc as [Hc _].
    apply prog_run_inv in Hr as [[-> ->]|(opened & w2 & [-> Ho] & Hr)]; [by apply recovery_early|].
    destruct opened as [j|e]; simpl in Hr.
    + rewrite Hm in Ho. apply run_bind_inv in Hr as [[Hr ->]|([j' r] & w3 & Hp & Hr)].
      * apply run_within in Hr as [Hc' Hr]. rewrite Hm in Hr. eapply recovery_cut; [congruence|done..].
      * apply run_within in Hp as [Hc' Hp]. rewrite Hm in Hp. apply prog_run_inv in Hr as [-> [-> | ->]].
        -- eapply recovery_cut; [congruence|done|]. by eapply run_cut.
        -- by eapply (recovery_ends w w3 j j' r n); [congruence|done..].
    + apply prog_run_inv in Hr as [-> [-> | ->]]; by apply recovery_early.
  - apply prog_run_inv in Hr as [-> [-> | ->]]; by apply recovery_early.
Qed.

(** * Theorems *)

(** C37. Recovery succeeds only when no core of the run before that can be found is left, nothing that run changed is
    still in force and nothing is left in the journal; whatever it does, it reverses a change only once no such core is
    left to undo that, and wherever it is cut off the journal can be recovered from again. A recovery that says changes
    remain counts at least one. *)
Theorem recovery_restores_everything m running w' o :
  reached m None → run at_start (mkLeft running m) recover_at_start w' o →
  (∃ memory, reached (machine w') memory) ∧
  (∀ r, live m r → ¬ live (machine w') r → cores w' = []) ∧
  (∀ rec, o = Some (Ok rec) →
     cores w' = [] ∧ (∀ r, ¬ live (machine w') r) ∧ reached (machine w') (Some (rec_undo rec)) ∧ entries (rec_undo rec) = []) ∧
  (∀ n first, o = Some (Err (Unrestored n first)) → 0 < n).
Proof.
  intros Hm Hr. destruct (recover_cases _ _ _ Hr) as [o Hsame Hno|j Hc Hj Hrun|j j' r n Hc Hj Hrun]; simpl in *.
  - split_and!.
    + exists None. by rewrite Hsame.
    + intros r Hl Hn. rewrite Hsame in Hn. done.
    + by intros rec ->.
    + by intros k first ->.
  - split_and!; [|done|done|done]. exists None. eapply reached_replay_cut; [by eapply reached_open|exact Hrun].
  - pose proof (reached_open m j Hm Hj) as Hopen. pose proof (reached_replay _ _ _ _ _ Hopen Hrun) as Hend.
    split_and!; [by eexists|done| |].
    + intros rec [= E]. destruct r as [report|e]; [|done]. unfold judge_report in E.
      destruct (failed report) as [|[id first] fl] eqn:Ef; [|done]. injection E as <-. simpl.
      destruct (replay_accounts _ _ _ _ _ Hopen Hrun) as (_ & He & _ & Hlive). rewrite Ef in He, Hlive.
      split_and!; [done|by apply Hlive|done|]. destruct (entries j') as [|e es]; [done|].
      destruct (proj1 (He e) ltac:(left)) as [_ Hin]. by apply elem_of_nil in Hin.
    + intros k first [= E]. destruct r as [report|e]; [|done]. unfold judge_report in E.
      destruct (failed report) as [|[id why] fl] eqn:Ef; [done|]. injection E as <- _. simpl. lia.
Qed.

(** * Witness *)

Module RecoveryDemo.
(** A run that was cut off with one route in force and one core running, and the start after it. *)
Definition crashed : Left := mkLeft [4242] (mkMachine example_recorded example_in_force).
Definition restored : Left := mkLeft [] (mkMachine example_emptied example_nothing).

Lemma recovers_all : run at_start crashed recover_at_start restored (Some (Ok (mkRecovered example_emptied 1 1))).
Proof.
  eapply (run_do _ _ ReapOrphanCores _ (Ok 1) (mkLeft [] (mkMachine example_recorded example_in_force))); [done|].
  eapply (run_do _ _ OpenJournal _ (Ok example_recorded)); [done|].
  eapply (run_do _ _ (JournalEffect (Reverse example_route)) _ (Ok ()) (mkLeft [] (mkMachine example_recorded example_nothing))).
  { split; [done|]. split; [done|]. intros r. unfold example_in_force, example_nothing. simpl. tauto. }
  eapply (run_do _ _ (JournalEffect (Save example_emptied)) _ (Ok ()) restored); [done|].
  apply run_ret.
Defined.
End RecoveryDemo.

Lemma recovery_restores_everything_witness :
  cores RecoveryDemo.restored = [] ∧ ∀ r, ¬ live (machine RecoveryDemo.restored) r.
Proof.
  destruct (recovery_restores_everything _ _ _ _ example_cut RecoveryDemo.recovers_all) as (_ & _ & H & _).
  destruct (H _ eq_refl) as (Hc & Hl & _). split; [exact Hc|exact Hl].
Defined.
