(* ===== verification/Service.v ===== *)
(** The daemon's service: what each request does, in order, to the store, the orchestrator, the feed, the remembered
    intent and the changes that wait for approval (crates/dnetd/src/service_impl.rs). *)

From Stdlib Require Import Ascii.
From S2P Require Import Prelude Float Text IpText Profile Health Endpoint Quality Degraded Session Selection Engine Telemetry Rule RuleEval Builtin.
From S2P Require Import Names Persist FeedEnvelope FeedKeys FeedDocument FeedState Json Protocol EventBus IpcServer Domain Secrets Configure Approval.
From S2P Require Import Orchestrator FeedService Intent Registry Netview Diagnostics Undo Recovery.

(** * Definitions *)

(** ** What the service calls

    The orchestrator's handle: the answers it gives now, and what a message sent to it leaves. *)
(* src: crates/dnetd/src/orchestrator.rs:213-226 Handle *)
Class Handles (O : Type) : Type := {
  h_is_idle : O → bool;
  h_snapshot : O → StateSnapshot;
  h_paths : O → option PathsSnapshot;
  h_stats : Instant → O → option StatsSummary;
  h_connect : option ProfileId → O → O * result IpcError unit;
  h_disconnect : O → O * result IpcError unit;
  h_retire : O → O;
}.

(** What it promises: asking is one of the ways the orchestrator moves. *)
Class HandlesLaws (O : Type) `{Handles O} (moves : O → O → Prop) : Prop := {
  connect_moves p (o : O) : rtc moves o (h_connect p o).1;
  disconnect_moves (o : O) : rtc moves o (h_disconnect o).1;
}.

(* src: crates/dnetd/src/server_setup.rs:35-51 SetupError *)
Inductive SetupError : Type := NoDownloads | NoBuild | NothingWaits | SetupExpired | ScriptFailed | ReportRefused (why : string).

(* src: crates/dnetd/src/server_setup.rs:36-51 SetupError *)
Definition setup_error_to_string (e : SetupError) : string :=
  match e with
  | NoDownloads => "setting up a server is not available in this build: it has no list of server downloads"
  | NoBuild => "this release has no server downloads for that kind of server"
  | NothingWaits => "no server setup is waiting for a result; start again from the first step"
  | SetupExpired => "that setup waited more than six hours; start again from the first step"
  | ScriptFailed => "the script could not be made"
  | ReportRefused why => "the result cannot be used: " +:+ why
  end.

(** The setting up of a server: [prepare] answers with the reply a client is sent. *)
(* src: crates/dnetd/src/server_setup.rs:91-94 ServerSetup *)
Class ServerSetups (U C : Type) : Type := {
  setup_prepare : ServerKind → Z → U → U * result SetupError string;
  setup_finish : string → Z → U → U * result SetupError C;
  setup_complete : U → U;
}.

(** ** Words *)

(* src: crates/dnetd/src/service_impl.rs:40-41 ACCEPTED *)
Definition ACCEPTED : string := "{" +:+ quote +:+ "accepted" +:+ quote +:+ ":true}".

(* src: crates/dnetd/src/service_impl.rs:105-117 setup_refusal *)
Definition setup_refusal (e : SetupError) : IpcError :=
  match e with
  | NoDownloads | NoBuild | ScriptFailed => InternalError (setup_error_to_string e)
  | _ => InvalidRequest (setup_error_to_string e)
  end.

(* src: crates/dnetd/src/service_impl.rs:190-203 unknown_change *)
Definition unknown_change (e : FindError) : IpcError :=
  InvalidRequest (match e with
    | NotHeld => "no change is waiting under that name; it may have been applied, withdrawn or " +:+
                 "dropped after ten minutes"
    | Expired => "that change waited more than ten minutes and was dropped; ask for it again"
    end).

(* src: crates/dnetd/src/service_impl.rs:205-214 shown *)
Definition shown (text : string) : string :=
  let clean := List.filter (fun c => negb (is_control c)) (chars text) in
  if bool_decide (64 < length clean)%nat then concat_str (take 64 clean) +:+ "..." else concat_str clean.

(* src: crates/dnetd/src/service_impl.rs:216-225 describe_matcher *)
Definition describe_matcher (m : RuleMatcher) : string :=
  match m with
  | Domain name => "traffic to " +:+ shown name
  | DomainSuffix name => "traffic to " +:+ shown name +:+ " and its subdomains"
  | Cidr range => "traffic to " +:+ cidr_to_string range
  | Application path => "traffic from " +:+ shown path
  | DnsPort => "name lookups"
  | EncryptedDnsPort => "encrypted name lookups"
  end.

(* src: crates/dnetd/src/service_impl.rs:653-657 DnetService::not_available *)
Definition not_available (what : string) : IpcError := InternalError (what +:+ " is not available in this build yet").

(** Four random bytes in hexadecimal. *)
(* src: crates/dnetd/src/service_impl.rs:181-188 fresh_change_id *)
Definition fresh_change_id (random : list Z) : string :=
  let digit n := of_bytes [if n <? 10 then 48 + n else 87 + n] in
  concat_str (map (fun b => digit (b / 16) +:+ digit (b mod 16)) random).

(** What the world gives one dispatch: one reading of each clock stands for those it makes, and the ids and bytes are
    those it mints. *)
Record Given : Type := mkGiven {
  now_ms : Z;
  clock : Instant;
  random_bytes : list Z;
  minted : Uuid;
  minted_rules : nat → RuleId;
}.

(* src: crates/dnetd/src/service_impl.rs:410-410 DnetService::import_feed *)
Definition now_s (g : Given) : Z := now_ms g / 1000.

Definition no_networks : PathsSnapshot := mkPathsSnapshot [] None.

Section Service.
Context {F S C O U : Type} `{StateFile F, SecretStore S C, BundlePorts C, CredentialForm C, !EqDecision C}.
Context `{Handles O, ServerSetups U C, UuidText, DebugText, ConfigText, JsonText, ToLowercase, Broadcast}.
Context `{FeedPrimitives, KeysWire, FeedWire}.
Context (trial : FeedDocument → option (result string unit)).

(** The recovered registry is used by the effects, not here. The definitions are shared through the feed, and the
    fetcher through the request it answers. The orchestrators that were replaced were told to stop, and end by
    themselves. *)
(* src: crates/dnetd/src/service_impl.rs:52-96 DnetService *)
Record DnetService : Type := mkService {
  svc_state : DomainState;
  svc_recovery : result RecoveryError Recovered;
  svc_events : Bus;
  svc_refusal : option string;
  svc_orchestrator : option O;
  svc_rebuild : option (DomainState → O);
  svc_configurator : option (Configurator F S);
  svc_feed : option (FeedService (F := F));
  svc_fetcher : option Fetcher;
  svc_intent : option (Intent (F := F));
  svc_setup : option U;
  svc_pending : PendingChanges (C := C);
  svc_hold : bool;
  svc_components : Tracker;
  svc_retired : list O;
}.

(** The assignments to one field. *)
Definition set_state v s := mkService v (svc_recovery s) (svc_events s) (svc_refusal s) (svc_orchestrator s) (svc_rebuild s) (svc_configurator s) (svc_feed s) (svc_fetcher s) (svc_intent s) (svc_setup s) (svc_pending s) (svc_hold s) (svc_components s) (svc_retired s).
Definition set_events v s := mkService (svc_state s) (svc_recovery s) v (svc_refusal s) (svc_orchestrator s) (svc_rebuild s) (svc_configurator s) (svc_feed s) (svc_fetcher s) (svc_intent s) (svc_setup s) (svc_pending s) (svc_hold s) (svc_components s) (svc_retired s).
Definition set_refusal v s := mkService (svc_state s) (svc_recovery s) (svc_events s) v (svc_orchestrator s) (svc_rebuild s) (svc_configurator s) (svc_feed s) (svc_fetcher s) (svc_intent s) (svc_setup s) (svc_pending s) (svc_hold s) (svc_components s) (svc_retired s).
Definition set_orchestrator v s := mkService (svc_state s) (svc_recovery s) (svc_events s) (svc_refusal s) v (svc_rebuild s) (svc_configurator s) (svc_feed s) (svc_fetcher s) (svc_intent s) (svc_setup s) (svc_pending s) (svc_hold s) (svc_components s) (svc_retired s).
Definition set_rebuild v s := mkService (svc_state s) (svc_recovery s) (svc_events s) (svc_refusal s) (svc_orchestrator s) v (svc_configurator s) (svc_feed s) (svc_fetcher s) (svc_intent s) (svc_setup s) (svc_pending s) (svc_hold s) (svc_components s) (svc_retired s).
Definition set_configurator v s := mkService (svc_state s) (svc_recovery s) (svc_events s) (svc_refusal s) (svc_orchestrator s) (svc_rebuild s) v (svc_feed s) (svc_fetcher s) (svc_intent s) (svc_setup s) (svc_pending s) (svc_hold s) (svc_components s) (svc_retired s).
Definition set_feed v s := mkService (svc_state s) (svc_recovery s) (svc_events s) (svc_refusal s) (svc_orchestrator s) (svc_rebuild s) (svc_configurator s) v (svc_fetcher s) (svc_intent s) (svc_setup s) (svc_pending s) (svc_hold s) (svc_components s) (svc_retired s).
Definition set_fetcher v s := mkService (svc_state s) (svc_recovery s) (svc_events s) (svc_refusal s) (svc_orchestrator s) (svc_rebuild s) (svc_configurator s) (svc_feed s) v (svc_intent s) (svc_setup s) (svc_pending s) (svc_hold s) (svc_components s) (svc_retired s).
Definition set_intent v s := mkService (svc_state s) (svc_recovery s) (svc_events s) (svc_refusal s) (svc_orchestrator s) (svc_rebuild s) (svc_configurator s) (svc_feed s) (svc_fetcher s) v (svc_setup s) (svc_pending s) (svc_hold s) (svc_components s) (svc_retired s).
Definition set_setup v s := mkService (svc_state s) (svc_recovery s) (svc_events s) (svc_refusal s) (svc_orchestrator s) (svc_rebuild s) (svc_configurator s) (svc_feed s) (svc_fetcher s) (svc_intent s) v (svc_pending s) (svc_hold s) (svc_components s) (svc_retired s).
Definition set_pending v s := mkService (svc_state s) (svc_recovery s) (svc_events s) (svc_refusal s) (svc_orchestrator s) (svc_rebuild s) (svc_configurator s) (svc_feed s) (svc_fetcher s) (svc_intent s) (svc_setup s) v (svc_hold s) (svc_components s) (svc_retired s).
Definition set_components v s := mkService (svc_state s) (svc_recovery s) (svc_events s) (svc_refusal s) (svc_orchestrator s) (svc_rebuild s) (svc_configurator s) (svc_feed s) (svc_fetcher s) (svc_intent s) (svc_setup s) (svc_pending s) (svc_hold s) v (svc_retired s).
Definition set_retired v s := mkService (svc_state s) (svc_recovery s) (svc_events s) (svc_refusal s) (svc_orchestrator s) (svc_rebuild s) (svc_configurator s) (svc_feed s) (svc_fetcher s) (svc_intent s) (svc_setup s) (svc_pending s) (svc_hold s) (svc_components s) v.

(** ** Building a service *)

(* src: crates/dnetd/src/service_impl.rs:228-254 DnetService::new *)
Definition service_new (state : DomainState) (recovery : result RecoveryError Recovered) (now : Instant) : DnetService :=
  mkService state recovery bus_new None None None None None None None None (mkPending []) true (tracker_new now) [].

(* src: crates/dnetd/src/service_impl.rs:263-271 DnetService::with_orchestrator *)
Definition with_orchestrator (o : O) (s : DnetService) : DnetService := set_orchestrator (Some o) s.
(* src: crates/dnetd/src/service_impl.rs:273-277 DnetService::with_configurator *)
Definition with_configurator (k : Configurator F S) (s : DnetService) : DnetService := set_configurator (Some k) s.
(* src: crates/dnetd/src/service_impl.rs:279-284 DnetService::with_server_setup *)
Definition with_server_setup (u : U) (s : DnetService) : DnetService := set_setup (Some u) s.
(* src: crates/dnetd/src/service_impl.rs:286-291 DnetService::with_intent *)
Definition with_intent (i : Intent (F := F)) (s : DnetService) : DnetService := set_intent (Some i) s.
(* src: crates/dnetd/src/service_impl.rs:381-386 DnetService::with_rebuild *)
Definition with_rebuild (rebuild : DomainState → O) (s : DnetService) : DnetService := set_rebuild (Some rebuild) s.
(* src: crates/dnetd/src/service_impl.rs:557-561 DnetService::with_config_refusal *)
Definition with_config_refusal (reason : option string) (s : DnetService) : DnetService := set_refusal reason s.

(** ** The feed *)

(** A change that cannot be published is logged, and the rest are published all the same. *)
(* src: crates/dnetd/src/service_impl.rs:165-171 announce *)
Definition announce (changes : list DefinitionsChange) (b : Bus) : Bus :=
  fold_left (fun b change => (publish (DefinitionsChanged change) b).1) changes b.

(* src: crates/dnetd/src/service_impl.rs:401-404 DnetService::publish_feed_notes *)
Definition publish_feed_notes (notes : list FeedNote) (s : DnetService) : DnetService :=
  set_events (announce (changes_of notes None) (svc_events s)) s.

(* src: crates/dnetd/src/service_impl.rs:393-399 DnetService::with_feed *)
Definition with_feed (f : FeedService (F := F)) (notes : list FeedNote) (s : DnetService) : DnetService :=
  publish_feed_notes notes (set_feed (Some f) s).

(* src: crates/dnetd/src/service_impl.rs:406-433 DnetService::attach_fetcher *)
Definition attach_fetcher (s : DnetService) : DnetService :=
  match svc_feed s with Some _ => set_fetcher (Some (mkFetcher false [])) s | None => s end.

(* src: crates/dnetd/src/service_impl.rs:419-424 DnetService::attach_fetcher *)
Definition posture_now (s : DnetService) : RoutingPosture :=
  match svc_orchestrator s with Some o => posture (h_snapshot o) | None => FailClosed end.

(* src: crates/dnetd/src/service_impl.rs:435-446 DnetService::check_feed_staleness *)
Definition check_feed_staleness (g : Given) (s : DnetService) : DnetService :=
  match svc_feed s with
  | None => s
  | Some f =>
      let '(f, note) := check_staleness (now_s g) f in
      let s := set_feed (Some f) s in
      match note with Some note => publish_feed_notes [note] s | None => s end
  end.

(** ** Operations

    An operation changes the service and may be refused; [None] is a panic. *)
Definition Op (A : Type) : Type := DnetService → option (DnetService * result IpcError A).

#[local] Instance op_ret : MRet Op := fun A a s => Some (s, Ok a).
#[local] Instance op_bind : MBind Op := fun A B f p s =>
  match p s with
  | Some (s, Ok a) => f a s
  | Some (s, Err e) => Some (s, Err e)
  | None => None
  end.

Definition refuse {A} (e : IpcError) : Op A := fun s => Some (s, Err e).
Definition modify (f : DnetService → DnetService) : Op unit := fun s => Some (f s, Ok ()).
Definition look {A} (f : DnetService → A) : Op A := fun s => Some (s, Ok (f s)).
Definition answer_with (r : result IpcError string) : Op string := fun s => Some (s, r).

(* src: crates/dnetd/src/service_impl.rs:744-761 DnetService::refuse_while_unsafe *)
Definition refuse_while_unsafe : Op unit := fun s =>
  Some (s, match svc_recovery s with
    | Err e => Err (InternalError (recovery_error_to_string e))
    | Ok _ =>
        match svc_refusal s with
        | Some reason =>
            Err (InternalError (reason +:+ ". DNet Engine will not connect or change anything until the " +:+
              "file is corrected or removed, then the service restarted"))
        | None => Ok ()
        end
    end).

(** ** What is remembered of the person's wish *)

(** A wish that cannot be saved is only logged. *)
(* src: crates/dnetd/src/service_impl.rs:369-373 DnetService::remember *)
Definition remember (profile : option ProfileId) (s : DnetService) : DnetService :=
  match svc_intent s with Some i => set_intent (Some (remember_on profile i).1) s | None => s end.

(* src: crates/dnetd/src/service_impl.rs:375-379 DnetService::forget *)
Definition forget (s : DnetService) : DnetService :=
  match svc_intent s with Some i => set_intent (Some (intent_forget i).1) s | None => s end.

(* src: crates/dnetd/src/service_impl.rs:127-127 DnetService::retry_if_left_on *)
Definition wished (s : DnetService) : DnetService * option Remembered :=
  match svc_intent s with
  | Some i => let '(i, r) := intent_load i in (set_intent (Some i) s, Some r)
  | None => (s, None)
  end.

(* src: crates/dnetd/src/service_impl.rs:293-311 DnetService::resume_if_left_on *)
Definition resume_if_left_on (s : DnetService) : DnetService :=
  match wished s with
  | (s, Some (On profile)) =>
      match svc_orchestrator s with
      | Some o => set_orchestrator (Some (h_connect profile o).1) s
      | None => s
      end
  | (s, _) => s
  end.

(* src: crates/dnetd/src/service_impl.rs:119-147 DnetService::retry_if_left_on *)
Definition retry_service (s : DnetService) : DnetService * Tick :=
  match wished s with
  | (s, Some (On profile)) =>
      match svc_orchestrator s with
      | None => (s, TickIdle)
      | Some o =>
          if negb (h_is_idle o) then
            (s, match status (h_snapshot o) with Connected => Healthy | _ => InProgress end)
          else
            let '(o, accepted) := h_connect profile o in
            (set_orchestrator (Some o) s, if is_ok accepted then Attempted else InProgress)
      end
  | (s, _) => (s, TickIdle)
  end.

#[export] Instance service_retry : Retry DnetService := retry_service.

(** ** Changes of the configuration *)

(* src: crates/dnetd/src/service_impl.rs:479-493 DnetService::before_change *)
Definition before_change : Op (Configurator F S) := fun s =>
  Some (s, match svc_configurator s with
    | None => Err (not_available "this configuration change")
    | Some k =>
        if match svc_orchestrator s with Some o => negb (h_is_idle o) | None => false end then
          Err (InvalidRequest ("disconnect before changing settings; the change would not reach a connection that is " +:+
            "already up"))
        else Ok k
    end).

(* src: crates/dnetd/src/service_impl.rs:460-477 DnetService::reload *)
Definition reload : Op unit := modify (fun s =>
  match svc_rebuild s, svc_orchestrator s with
  | Some rebuild, Some old =>
      set_retired (svc_retired s ++ [h_retire old]) (set_orchestrator (Some (rebuild (svc_state s))) s)
  | _, _ => s
  end).

(** A change of the configurator's, made to the store and to what it saves in. *)
Definition configure {T}
    (change : Configurator F S → DomainState → option (Configurator F S * DomainState * result ConfigureError T))
    (k : Configurator F S) : Op T := fun s =>
  '(k, state, r) ← change k (svc_state s);
  Some (set_configurator (Some k) (set_state state s),
        match r with Ok v => Ok v | Err e => Err (ipc_error_of e) end).

(** A change, and the orchestrator made again from what it made of the store. *)
Definition change_store {T}
    (change : Configurator F S → DomainState → option (Configurator F S * DomainState * result ConfigureError T))
    (reply : T → string) : Op string :=
  k ← before_change;
  value ← configure change k;
  _ ← reload;
  mret (reply value).

(* src: crates/dnetd/src/service_impl.rs:667-678 DnetService::import_feed *)
Definition feed_refused (what : string) (taken : bool) (r : FeedRefusal) : IpcError :=
  let detail := (if taken then "the keys document was taken, but " else "") +:+ what +:+ " was refused: " +:+
                refusal_to_string r in
  match r with FeedStorage _ => InternalError detail | _ => InvalidRequest detail end.

(* src: crates/dnetd/src/service_impl.rs:698-706 DnetService::import_feed *)
Definition note_name (n : FeedNote) : string :=
  match n with
  | NoteUpdated _ _ => "Updated"
  | NoteEvicted => "Evicted"
  | NoteOutOfDate => "OutOfDate"
  | NoteDiscarded _ _ => "Discarded"
  end.

(* src: crates/dnetd/src/service_impl.rs:659-708 DnetService::import_feed *)
Definition import_documents (g : Given) (documents : FeedImport) : Op string := fun s =>
  match svc_feed s with
  | None => refuse (not_available "importing a profile update") s
  | Some f =>
      let finish f notes :=
        Some (publish_feed_notes notes (set_feed (Some f) s),
              Ok (json_to_string (object [("imported", Bool true);
                                          ("changes", Array (map (fun n => Str (note_name n)) notes))]))) in
      match (match import_keys documents with Some keys => offer_keys keys (now_s g) f | None => (f, Ok []) end) with
      | (f, Err e) => Some (set_feed (Some f) s, Err (feed_refused "the keys document" false e))
      | (f, Ok notes) =>
          match import_feed documents with
          | None => finish f notes
          | Some document =>
              offered ← offer_feed document (now_s g) trial f;
              match offered with
              | (f, Err e) =>
                  Some (publish_feed_notes notes (set_feed (Some f) s),
                        Err (feed_refused "the feed" (bool_decide (is_Some (import_keys documents))) e))
              | (f, Ok more) => finish f (notes ++ more)
              end
          end
      end
  end.

(** ** What the state is *)

(* src: crates/dnetd/src/service_impl.rs:913-916 DnetService::apply *)
Definition snapshot_now (s : DnetService) : StateSnapshot :=
  match svc_orchestrator s with Some o => h_snapshot o | None => idle_snapshot (svc_state s) end.

(* src: crates/dnetd/src/service_impl.rs:938-938 DnetService::apply *)
Definition networks_now (s : DnetService) : option PathsSnapshot := o ← svc_orchestrator s; h_paths o.
(* src: crates/dnetd/src/service_impl.rs:939-939 DnetService::apply *)
Definition counters_now (g : Given) (s : DnetService) : option StatsSummary := o ← svc_orchestrator s; h_stats (clock g) o.

(* src: crates/dnetd/src/service_impl.rs:328-350 DnetService::refresh_components *)
Definition refresh_components (now : Instant) (s : DnetService) : DnetService :=
  set_components (refresh now (snapshot_now s) (default no_networks (networks_now s)) (svc_components s)) s.

(* src: crates/dnetd/src/service_impl.rs:941-953 DnetService::apply *)
Definition facts_now (g : Given) (s : DnetService) : Facts :=
  mkFacts (now_ms g) (snapshot_now s) (ds_profiles (svc_state s)) (ds_endpoints (svc_state s)) (ds_rules (svc_state s))
    (policy (ds_consent (svc_state s))) (networks_now s) (counters_now g s) (is_ok (svc_recovery s))
    (bool_decide (is_Some (svc_refusal s))) (bool_decide (is_Some (svc_orchestrator s))).

(* src: crates/dnetd/src/service_impl.rs:1091-1101 DnetService::apply *)
Definition started_reply (route : FetchRoute) : string :=
  json_to_string (object [("started", Bool true);
    ("route", Str (match route with ThroughTunnel => "tunnel" | PhysicalNetwork => "physical" | NotAllowed => "none" end))]).

(** ** Requests *)

(* src: crates/dnetd/src/service_impl.rs:961-976 DnetService::apply *)
Definition apply_connect (profile : option ProfileId) (endpoint : option EndpointId) : Op string := fun s =>
  match svc_orchestrator s with
  | None => refuse (not_available "connecting") s
  | Some o =>
      if bool_decide (is_Some endpoint) then
        refuse (InvalidRequest ("choosing a particular endpoint is not supported yet; connect " +:+
          "without one and the best endpoint is used")) s
      else
        let '(o, accepted) := h_connect profile o in
        let s := set_orchestrator (Some o) s in
        match accepted with
        | Err e => refuse e s
        | Ok _ => Some (remember profile s, Ok ACCEPTED)
        end
  end.

(* src: crates/dnetd/src/service_impl.rs:978-988 DnetService::apply *)
Definition apply_disconnect : Op string := fun s =>
  let s := forget s in
  match svc_orchestrator s with
  | None => refuse (not_available "disconnecting") s
  | Some o =>
      let '(o, accepted) := h_disconnect o in
      let s := set_orchestrator (Some o) s in
      match accepted with Err e => refuse e s | Ok _ => Some (s, Ok ACCEPTED) end
  end.

(* src: crates/dnetd/src/service_impl.rs:1010-1018 DnetService::apply *)
Definition apply_prepare (g : Given) (arch : ServerKind) : Op string := fun s =>
  match svc_setup s with
  | None => refuse (not_available "setting up a server") s
  | Some u =>
      let '(u, prepared) := setup_prepare arch (now_s g) u in
      let s := set_setup (Some u) s in
      match prepared with Ok reply => Some (s, Ok reply) | Err e => refuse (setup_refusal e) s end
  end.

(* src: crates/dnetd/src/service_impl.rs:1027-1033 DnetService::apply *)
Definition finish_setup (g : Given) (label host report : string) : Op (NewEndpoint (C := C)) := fun s =>
  match svc_setup s with
  | None => refuse (not_available "setting up a server") s
  | Some u =>
      let '(u, credentials) := setup_finish report (now_s g) u in
      let s := set_setup (Some u) s in
      match credentials with
      | Err e => refuse (setup_refusal e) s
      | Ok credentials => Some (s, new_endpoint label host credentials)
      end
  end.

(* src: crates/dnetd/src/service_impl.rs:1019-1039 DnetService::apply *)
Definition apply_finish (g : Given) (label host report : string) : Op string :=
  k ← before_change;
  new ← finish_setup g label host report;
  id ← configure (fun k state => add_endpoint k state (minted g) new) k;
  _ ← modify (fun s => set_setup (setup_complete <$> svc_setup s) s);
  _ ← reload;
  mret (added_reply id).

(* src: crates/dnetd/src/service_impl.rs:1088-1104 DnetService::apply *)
Definition apply_fetch : Op string := fun s =>
  match svc_fetcher s with
  | None => refuse (not_available "checking for updated definitions") s
  | Some f =>
      let '(f, route) := request (posture_now s) f in
      Some (set_fetcher (Some f) s, match route with Some route => Ok (started_reply route) | None => Err ServiceBusy end)
  end.

(* src: crates/dnetd/src/service_impl.rs:882-1123 DnetService::apply *)
Definition serve (g : Given) (r : Request (C := C)) : Op string :=
  let changing {T} change reply := @change_store T change reply in
  match r with
  | GetVersion => mret version_reply
  | GetState => fun s =>
      let s := check_feed_staleness g s in
      match svc_orchestrator s with
      | Some o => answer_with (encode_state_snapshot (h_snapshot o)) s
      | None => text ← state_snapshot_json (svc_state s); Some (s, Ok text)
      end
  | GetSession => mret session_json
  | GetPaths => look (fun s =>
      let watched := networks_now s in
      encode_paths (default no_networks watched) (bool_decide (is_Some watched)) (now_ms g))
  | GetStats => look (fun s => encode_stats (counters_now g s))
  | GetComponents => fun s =>
      let '(tracker, reply) := tracker_reply (clock g) (snapshot_now s) (default no_networks (networks_now s)) (now_ms g)
                                 (svc_components s) in
      Some (set_components tracker s, Ok reply)
  | ListEndpoints => look (fun s => endpoints_json (svc_state s))
  | ListProfiles => look (fun s => profiles_json (svc_state s))
  | ListRules => look (fun s => rules_json (svc_state s))
  | GetDiagnostics => look (fun s => render (facts_now g s) options_default)
  | Connect _ profile endpoint => apply_connect profile endpoint
  | Protocol.Disconnect => apply_disconnect
  | AddEndpoint new => changing (fun k state => add_endpoint k state (minted g) new) added_reply
  | RemoveEndpoint endpoint => changing (fun k state => remove_endpoint (C := C) k state endpoint) (fun _ => APPLIED)
  | SetEndpointEnabled endpoint enabled =>
      changing (fun k state => set_endpoint_enabled k state endpoint enabled) (fun _ => APPLIED)
  | PrepareServer arch => apply_prepare g arch
  | FinishServer label host report => apply_finish g label host report
  | AddRule matcher action => changing (fun k state => add_rule (minted_rules g) k state (minted g) matcher action) rule_added_reply
  | RemoveRule rule => changing (fun k state => remove_rule (minted_rules g) k state rule) (fun _ => APPLIED)
  | EnableBrutal profile up down _ =>
      changing (fun k state => set_brutal k state profile (Some (mkBandwidthPair up down)) (now_s g)) (fun _ => APPLIED)
  | DisableBrutal profile => changing (fun k state => set_brutal k state profile None (now_s g)) (fun _ => APPLIED)
  | SetEncryptedDnsHandling block =>
      changing (fun k state => set_encrypted_dns (minted_rules g) k state block) (dns_reply block)
  | ImportFeed documents => import_documents g documents
  | FetchFeed => apply_fetch
  | SetProfileParams | StartProvisioning | CancelProvisioning => refuse (not_available "this configuration change")
  | ListPending | ApproveChange _ | RejectChange _ =>
      refuse (InternalError "a request about held changes reached the apply step")
  | Subscribe => refuse (InvalidRequest "Subscribe is a streaming request, not a one-shot dispatch")
  end.

(* src: crates/dnetd/src/service_impl.rs:876-1123 DnetService::apply *)
Definition apply (g : Given) (r : Request (C := C)) : Op string :=
  _ ← (match class r with Mutating => refuse_while_unsafe | _ => mret () end);
  serve g r.

(** ** Changes that wait for approval *)

(* src: crates/dnetd/src/service_impl.rs:763-806 DnetService::redirects_traffic *)
Definition redirects_traffic (s : DnetService) (r : Request (C := C)) : option string :=
  match r with
  | AddEndpoint new =>
      Some ("Adding the server " +:+ quote +:+ shown (ne_label new) +:+ quote +:+ " at " +:+ shown (ne_host new))
  | FinishServer label host _ =>
      Some ("Adding the server " +:+ quote +:+ shown label +:+ quote +:+ " at " +:+ shown host +:+
            " made by the setup guide")
  | SetEndpointEnabled endpoint true =>
      found ← List.find (fun e => bool_decide (endpoint_id e = endpoint)) (ds_endpoints (svc_state s));
      Some ("Turning on the server " +:+ quote +:+ shown (endpoint_label found) +:+ quote)
  | AddRule matcher Bypass => Some ("Sending " +:+ describe_matcher matcher +:+ " around the tunnel")
  | ImportFeed _ => Some "Importing connection-method definitions from a file"
  | _ => None
  end.

(** [None] when the search for a free name fails, which it does not (Approval). *)
(* src: crates/dnetd/src/service_impl.rs:812-833 DnetService::hold_change *)
Definition hold_it (g : Given) (r : Request (C := C)) (what : string) : Op string := fun s =>
  '(pending, held) ← hold r what (now_ms g) (fresh_change_id (random_bytes g)) (svc_pending s);
  Some (set_pending pending s, match held with
    | Ok id => Err (ApprovalRequired id what)
    | Err Full =>
        Err (InvalidRequest ("too many changes are waiting for approval; approve or withdraw one first " +:+
          "(`dnetctl pending`)"))
    end).

(* src: crates/dnetd/src/service_impl.rs:808-834 DnetService::hold_change *)
Definition hold_change (g : Given) (r : Request (C := C)) (what : string) : Op string :=
  _ ← refuse_while_unsafe; hold_it g r what.

(* src: crates/dnetd/src/service_impl.rs:843-848 DnetService::approve_change *)
Definition find_held (g : Given) (id : string) : Op (Held (C := C)) := fun s =>
  let '(pending, found) := find id (now_ms g) (svc_pending s) in
  Some (set_pending pending s, match found with Ok held => Ok held | Err e => Err (unknown_change e) end).

(* src: crates/dnetd/src/service_impl.rs:852-855 DnetService::approve_change *)
Definition let_go (id : string) : Op unit := modify (fun s => set_pending (remove id (svc_pending s)).1 s).

(* src: crates/dnetd/src/service_impl.rs:836-858 DnetService::approve_change *)
Definition approve_change (g : Given) (id : string) : Op string :=
  held ← find_held g id;
  reply ← apply g (held_request held);
  _ ← let_go id;
  mret reply.

(* src: crates/dnetd/src/service_impl.rs:860-874 DnetService::reject_change *)
Definition reject_change (g : Given) (id : string) : Op string :=
  _ ← find_held g id;
  _ ← let_go id;
  mret APPLIED.

(* src: crates/dnetd/src/service_impl.rs:716-736 DnetService::dispatch *)
Definition dispatch (g : Given) (r : Request (C := C)) : Op string := fun s =>
  match r with
  | ListPending => let '(pending, text) := list_json (now_ms g) (svc_pending s) in Some (set_pending pending s, Ok text)
  | RejectChange id => reject_change g id s
  | ApproveChange id => approve_change g id s
  | _ =>
      match (if svc_hold s then redirects_traffic s r else None) with
      | Some what => hold_change g r what s
      | None => apply g r s
      end
  end.

(** ** The service in production *)

(** The orchestrator is only made when nothing keeps the service from connecting. *)
(* src: crates/dnetd/src/service_impl.rs:495-555 DnetService::with_production_orchestrator *)
Definition with_production_orchestrator (installed : bool) (build : DomainState → O) (s : DnetService) : DnetService :=
  match svc_recovery s with
  | Err _ => s
  | Ok _ =>
      if bool_decide (is_Some (svc_refusal s)) then s
      else if negb installed then s
      else with_rebuild build (with_orchestrator (build (svc_state s)) s)
  end.

(** [http]: whether the HTTP client could be built. *)
(* src: crates/dnetd/src/service_impl.rs:569-651 DnetService::production *)
Definition production (recovery : result RecoveryError Recovered) (startup : StartupConfig) (k : Configurator F S)
    (intent_file keys_file feed_file : F) (setup : U) (anchor : option FeedTrust) (http : bool) (now : Instant) : DnetService :=
  let s := with_server_setup setup (with_intent (intent_new intent_file) (with_configurator k
             (with_config_refusal (sc_refusal startup) (service_new (sc_state startup) recovery now)))) in
  match anchor with
  | None => s
  | Some trust =>
      let '(feed, notes) := start trust keys_file feed_file no_definitions in
      let s := with_feed feed notes s in
      if http then attach_fetcher s else s
  end.

(** ** The life of a service

    Between the requests the orchestrator moves on its own, the loop that keeps trying retries, the parts are looked at,
    and a check of the feed may end. *)
Inductive service_step (moves : O → O → Prop) (asked : Request (C := C) → Prop) : DnetService → DnetService → Prop :=
  | asked_of g r s s' res : asked r → dispatch g r s = Some (s', res) → service_step moves asked s s'
  | retried s : service_step moves asked s (retry_if_left_on s).1
  | orchestrator_moved o o' s : svc_orchestrator s = Some o → moves o o' → service_step moves asked s (set_orchestrator (Some o') s)
  | parts_looked_at now s : service_step moves asked s (refresh_components now s)
  | check_ended f notes failure fetcher s : is_Some (svc_feed s) →
      service_step moves asked s (set_fetcher (Some fetcher) (set_events (announce (changes_of notes failure) (svc_events s)) (set_feed (Some f) s))).

(** * Lemmas *)

Lemma op_bind_inv {A B} (p : Op A) (f : A → Op B) s s' r :
  (p ≫= f) s = Some (s', r) →
  (∃ a s1, p s = Some (s1, Ok a) ∧ f a s1 = Some (s', r)) ∨ ∃ e, p s = Some (s', Err e) ∧ r = Err e.
Proof.
  unfold mbind, op_bind. destruct (p s) as [[s1 [a|e]]|]; [|intros [= <- <-]|done]; [left|right]; by repeat eexists.
Qed.

(** What holds between the service before and after, whatever is answered. *)
Definition keeps (R : DnetService → DnetService → Prop) {A} (p : Op A) : Prop := ∀ s s' r, p s = Some (s', r) → R s s'.

Section Keeps.
Context (R : DnetService → DnetService → Prop) `{!PreOrder R}.

Lemma keeps_bind {A B} (p : Op A) (f : A → Op B) : keeps R p → (∀ a, keeps R (f a)) → keeps R (p ≫= f).
Proof.
  intros Hp Hf s s' r [(a & s1 & E1 & E2)|(e & E & _)]%op_bind_inv; [|by eapply Hp].
  etransitivity; [by eapply Hp|by eapply Hf].
Qed.
Lemma keeps_ret {A} (a : A) : keeps R (mret a).
Proof. by intros s s' r [= <- _]. Qed.
Lemma keeps_refuse {A} e : keeps R (refuse (A := A) e).
Proof. by intros s s' r [= <- _]. Qed.
Lemma keeps_look {A} (f : DnetService → A) : keeps R (look f).
Proof. by intros s s' r [= <- _]. Qed.
Lemma keeps_modify f : (∀ s, R s (f s)) → keeps R (modify f).
Proof. by intros Hf s s' r [= <- _]. Qed.
Lemma keeps_unsafe : keeps R refuse_while_unsafe.
Proof. by intros s s' r [= <- _]. Qed.
Lemma keeps_before : keeps R before_change.
Proof. by intros s s' r [= <- _]. Qed.
End Keeps.

(** ** What a request that may not change anything leaves *)

Definition core (s : DnetService) :=
  (svc_state s, svc_recovery s, svc_refusal s, svc_orchestrator s, svc_rebuild s, svc_configurator s, svc_fetcher s,
   svc_intent s, svc_setup s, svc_hold s, svc_retired s).
Definition same_core (s s' : DnetService) : Prop := core s' = core s.

#[local] Instance same_core_preorder : PreOrder same_core.
Proof. split; [by intros s|]. intros a b c H1' H2'. unfold same_core in *. congruence. Qed.

Lemma staleness_core g s : same_core s (check_feed_staleness g s).
Proof.
  unfold check_feed_staleness. destruct (svc_feed s) as [f|]; [|done]. by destruct (check_staleness _ f) as [f' [note|]].
Qed.

Lemma serve_reads g r : class r ≠ Mutating → keeps same_core (serve g r).
Proof.
  intros Hc. destruct r; try done; simpl;
    try apply keeps_ret; try apply keeps_look; try apply keeps_refuse; try apply _.
  - intros s s' res E. pose proof (staleness_core g s) as Hk. destruct (svc_orchestrator (check_feed_staleness g s)) as [o|].
    + by injection E as <- _.
    + by injection E as <- _.
  - by intros s s' res [= <- _].
Qed.

(** A previous run's changes are not restored, or the saved configuration was refused. *)
Definition unsafe (s : DnetService) : Prop := is_ok (svc_recovery s) = false ∨ is_Some (svc_refusal s).

Lemma refuse_unsafe s s' r : unsafe s → refuse_while_unsafe s = Some (s', r) → s' = s ∧ ∃ detail, r = Err (InternalError detail).
Proof.
  unfold refuse_while_unsafe, unsafe. intros Hu [= <- <-]. split; [done|]. destruct (svc_recovery s) as [u|e]; [|by eexists].
  destruct Hu as [Hu|[reason Hr]]; [done|]. rewrite Hr. by eexists.
Qed.

Lemma apply_unsafe g r s s' res : unsafe s → apply g r s = Some (s', res) →
  same_core s s' ∧ (class r = Mutating → s' = s ∧ ∃ detail, res = Err (InternalError detail)).
Proof.
  intros Hu E. unfold apply in E. destruct (class r) eqn:Ec.
  - apply op_bind_inv in E as [(u & s1 & [= <- _] & E)|(e & [=] & _)]. split; [|done].
    eapply (serve_reads g r); [by rewrite Ec|exact E].
  - apply op_bind_inv in E as [(u & s1 & E1 & _)|(e & E1 & ->)]; apply (refuse_unsafe _ _ _ Hu) in E1 as [-> [d [= ->]]].
    split; [done|]. intros _. split; [done|]. by eexists.
  - apply op_bind_inv in E as [(u & s1 & [= <- _] & E)|(e & [=] & _)]. split; [|done].
    eapply (serve_reads g r); [by rewrite Ec|exact E].
  - apply op_bind_inv in E as [(u & s1 & [= <- _] & E)|(e & [=] & _)]. split; [|done].
    eapply (serve_reads g r); [by rewrite Ec|exact E].
Qed.

(** ** What the changes that wait have to do with the rest *)

Definition same_but_waiting (s s' : DnetService) : Prop := same_core s s' ∧ svc_feed s' = svc_feed s.

#[local] Instance same_but_waiting_preorder : PreOrder same_but_waiting.
Proof. split; [by intros s|]. intros a b c [H1' H2'] [H3' H4']. split; [by etransitivity|congruence]. Qed.

Lemma find_held_core g id : keeps same_but_waiting (find_held g id).
Proof. intros s s' r E. unfold find_held in E. destruct (find _ _ _) as [p f]. by injection E as <- _. Qed.

Lemma hold_core g r what : keeps same_but_waiting (hold_change g r what).
Proof.
  unfold hold_change. apply keeps_bind; [apply _|apply keeps_unsafe, _|]. intros u s s' res E. unfold hold_it in E.
  destruct (hold _ _ _ _ _) as [[p h]|]; [|done]. by injection E as <- _.
Qed.

Lemma let_go_core id : keeps same_but_waiting (let_go id).
Proof. by apply keeps_modify. Qed.

(** An approval, as far as it went. *)
Lemma approve_inv g id s s' res :
  approve_change g id s = Some (s', res) →
  let '(p, found) := find id (now_ms g) (svc_pending s) in
  match found with
  | Err e => s' = set_pending p s ∧ res = Err (unknown_change e)
  | Ok h =>
      ∃ s1 res1, apply g (held_request h) (set_pending p s) = Some (s1, res1) ∧ res = res1 ∧
        s' = match res1 with Ok _ => set_pending (remove id (svc_pending s1)).1 s1 | Err _ => s1 end
  end.
Proof.
  unfold approve_change. intros [(h & s1 & E1 & E)|(e & E1 & ->)]%op_bind_inv; unfold find_held in E1;
    destruct (find _ _ _) as [p [h'|e']]; try done; injection E1 as <- <-; [|done].
  apply op_bind_inv in E as [(reply & s2 & E2 & E)|(e & E2 & ->)].
  - injection E as <- <-. eexists s2, (Ok reply). done.
  - eexists s', (Err e). done.
Qed.

Lemma approve_eq g id s p h : find id (now_ms g) (svc_pending s) = (p, Ok h) →
  dispatch g (ApproveChange id) s =
    match apply g (held_request h) (set_pending p s) with
    | Some (s1, Ok reply) => Some (set_pending (remove id (svc_pending s1)).1 s1, Ok reply)
    | Some (s1, Err e) => Some (s1, Err e)
    | None => None
    end.
Proof.
  intros E. unfold dispatch, approve_change, mbind, op_bind, find_held. rewrite E.
  by destruct (apply g (held_request h) (set_pending p s)) as [[s1 [reply|e]]|].
Qed.

(** ** Every way a request reaches the part of the service that does what it asks *)

Lemma dispatch_inv g r s s' res :
  dispatch g r s = Some (s', res) →
  (same_but_waiting s s' ∧ ∀ reply, res = Ok reply → r = ListPending ∨ ∃ id, r = RejectChange id) ∨
  (∃ id h s1, r = ApproveChange id ∧ (find id (now_ms g) (svc_pending s)).2 = Ok h ∧
     apply g (held_request h) (set_pending (find id (now_ms g) (svc_pending s)).1 s) = Some (s1, res) ∧
     s' = match res with Ok _ => set_pending (remove id (svc_pending s1)).1 s1 | Err _ => s1 end) ∨
  ((svc_hold s = true → redirects_traffic s r = None) ∧ (∀ id, r ≠ ApproveChange id) ∧ apply g r s = Some (s', res)).
Proof.
  intros E.
  assert (Hrest : (match (if svc_hold s then redirects_traffic s r else None) with
      Some what => hold_change g r what s | None => apply g r s end) = Some (s', res) → (∀ id, r ≠ ApproveChange id) →
    (same_but_waiting s s' ∧ ∀ reply, res = Ok reply → r = ListPending ∨ ∃ id, r = RejectChange id) ∨
    ((svc_hold s = true → redirects_traffic s r = None) ∧ (∀ id, r ≠ ApproveChange id) ∧ apply g r s = Some (s', res))).
  { clear E. intros E Hr. destruct (if svc_hold s then redirects_traffic s r else None) as [what|] eqn:Ew.
    - left. split; [by eapply hold_core|]. intros reply ->. exfalso. unfold hold_change in E.
      apply op_bind_inv in E as [(u & s1 & _ & E)|(e & _ & [=])]. unfold hold_it in E.
      destruct (hold _ _ _ _ _) as [[p [id|[]]]|]; done.
    - right. split_and!; [|done|done]. intros Hh. by rewrite Hh in Ew. }
  destruct r; try (destruct (Hrest E ltac:(done)) as [?|?]; [by left|by right; right]).
  - left. unfold dispatch in E. destruct (list_json _ _) as [p text]. injection E as <- _. split; [done|]. by left.
  - apply approve_inv in E. destruct (find id _ _) as [p [h|e]] eqn:Ef.
    + right. left. exists id. rewrite Ef. destruct E as (s1 & res1 & E1 & -> & ->). by exists h, s1.
    + left. destruct E as [-> ->]. by split.
  - left. unfold dispatch, reject_change in E. split; [|eauto].
    revert E. apply (keeps_bind same_but_waiting); [apply find_held_core|]. intros h. apply (keeps_bind same_but_waiting); [apply let_go_core|intros u; apply (keeps_ret same_but_waiting)].
Qed.

(** ** What a request does to the store *)

(** Nothing is connected or being connected. *)
Definition at_rest (s : DnetService) : Prop := match svc_orchestrator s with Some o => h_is_idle o = true | None => True end.

(** The configurator's operation behind a request, and whether it succeeded. *)
Inductive store_change (g : Given) : Request (C := C) → Configurator F S → DomainState → DomainState → bool → Prop :=
  | changed_add new k st k' st' r :
      add_endpoint k st (minted g) new = Some (k', st', r) → store_change g (AddEndpoint new) k st st' (is_ok r)
  | changed_finish label host report new k st k' st' r :
      add_endpoint k st (minted g) new = Some (k', st', r) → store_change g (FinishServer label host report) k st st' (is_ok r)
  | changed_remove id k st k' st' r :
      remove_endpoint (C := C) k st id = Some (k', st', r) → store_change g (RemoveEndpoint id) k st st' (is_ok r)
  | changed_enabled id enabled k st k' st' r :
      set_endpoint_enabled k st id enabled = Some (k', st', r) → store_change g (SetEndpointEnabled id enabled) k st st' (is_ok r)
  | changed_rule m a k st k' st' r :
      add_rule (minted_rules g) k st (minted g) m a = Some (k', st', r) → store_change g (AddRule m a) k st st' (is_ok r)
  | changed_unrule id k st k' st' r :
      remove_rule (minted_rules g) k st id = Some (k', st', r) → store_change g (RemoveRule id) k st st' (is_ok r)
  | changed_brutal p up down rev k st k' st' r :
      set_brutal k st p (Some (mkBandwidthPair up down)) (now_s g) = Some (k', st', r) →
      store_change g (EnableBrutal p up down rev) k st st' (is_ok r)
  | changed_unbrutal p k st k' st' r :
      set_brutal k st p None (now_s g) = Some (k', st', r) → store_change g (DisableBrutal p) k st st' (is_ok r)
  | changed_dns block k st k' st' r :
      set_encrypted_dns (minted_rules g) k st block = Some (k', st', r) →
      store_change g (SetEncryptedDnsHandling block) k st st' (is_ok r).

(** The slot once the orchestrator is made again from a store, if there was one to replace and a way to. *)
Definition slot_for (s : DnetService) (st : DomainState) : option O :=
  match svc_rebuild s, svc_orchestrator s with Some rebuild, Some _ => Some (rebuild st) | _, _ => svc_orchestrator s end.

(** The orchestrator is the same one, or took a message. *)
Definition slot_moved (s s' : DnetService) : Prop :=
  svc_orchestrator s' = svc_orchestrator s ∨
  ∃ o, svc_orchestrator s = Some o ∧
    ((∃ p, svc_orchestrator s' = Some (h_connect p o).1) ∨ svc_orchestrator s' = Some (h_disconnect o).1).

(** How far a request got with the store. *)
Inductive store_outcome (g : Given) (r : Request (C := C)) (s s' : DnetService) (ok : bool) : Prop :=
  | store_left :
      svc_state s' = svc_state s → svc_configurator s' = svc_configurator s → svc_rebuild s' = svc_rebuild s →
      svc_hold s' = svc_hold s → svc_pending s' = svc_pending s →
      slot_moved s s' →
      ((∀ a p e, r ≠ Connect a p e) → r ≠ Protocol.Disconnect → svc_intent s' = svc_intent s) →
      ((∀ d, r ≠ ImportFeed d) → fs_definitions <$> svc_feed s' = fs_definitions <$> svc_feed s) →
      store_outcome g r s s' ok
  | store_changed k :
      at_rest s → svc_configurator s = Some k → store_change g r k (svc_state s) (svc_state s') ok →
      svc_rebuild s' = svc_rebuild s → svc_hold s' = svc_hold s → svc_pending s' = svc_pending s →
      svc_intent s' = svc_intent s → svc_feed s' = svc_feed s →
      svc_orchestrator s' = (if ok then slot_for s (svc_state s') else svc_orchestrator s) →
      store_outcome g r s s' ok.

Lemma before_change_inv s s' r : before_change s = Some (s', r) →
  s' = s ∧ match r with Ok k => svc_configurator s = Some k ∧ at_rest s | Err _ => True end.
Proof.
  unfold before_change, at_rest. intros [= <- <-]. split; [done|]. destruct (svc_configurator s) as [k|]; [|done].
  destruct (svc_orchestrator s) as [o|]; [|done]. by destruct (h_is_idle o).
Qed.

Lemma reload_inv s s' r : reload s = Some (s', r) →
  r = Ok () ∧ svc_orchestrator s' = slot_for s (svc_state s) ∧
  svc_state s' = svc_state s ∧ svc_rebuild s' = svc_rebuild s ∧ svc_hold s' = svc_hold s ∧ svc_pending s' = svc_pending s ∧
  svc_intent s' = svc_intent s ∧ svc_feed s' = svc_feed s.
Proof.
  intros [= <- <-]. unfold slot_for.
  destruct (svc_rebuild s) eqn:E1, (svc_orchestrator s) eqn:E2; split_and!; simpl; congruence.
Qed.

Lemma change_store_outcome {T} g r
    (change : Configurator F S → DomainState → option (Configurator F S * DomainState * result ConfigureError T)) reply s s' res :
  (∀ k st k' st' x, change k st = Some (k', st', x) → store_change g r k st st' (is_ok x)) →
  change_store change reply s = Some (s', res) → store_outcome g r s s' (is_ok res).
Proof.
  intros Hc [(k & s1 & Ek & E)|(e & E & ->)]%op_bind_inv.
  2: { apply before_change_inv in E as [-> _]. apply store_left; try done; by left. }
  apply before_change_inv in Ek as [-> [Hk Hrest]].
  apply op_bind_inv in E as [(v & s2 & E1 & E)|(e & E1 & ->)]; unfold configure in E1;
    (destruct (change k (svc_state s)) as [[[k' st'] x]|] eqn:Ex; [|done]); injection E1 as <- Er; apply Hc in Ex.
  - apply op_bind_inv in E as [(u & s3 & E2 & E)|(e & E2 & ->)];
      apply reload_inv in E2 as ([=] & Hs & Hst & Hr & Hh & Hp & Hi & Hf). injection E as <- <-.
    destruct x as [x|e]; [|done]. by apply (store_changed _ _ _ _ _ k); rewrite ?Hst, ?Hs.
  - destruct x as [x|e']; [done|]. by apply (store_changed _ _ _ _ _ k).
Qed.

Lemma finish_setup_keeps g label host report s s' r : finish_setup g label host report s = Some (s', r) →
  ∃ u, s' = set_setup u s.
Proof.
  unfold finish_setup. destruct (svc_setup s) as [u|] eqn:Eu; [|intros [= <- _]; exists None; rewrite <-Eu; by destruct s].
  destruct (setup_finish _ _ u) as [u' [c|e]]; intros [= <- _]; by eexists.
Qed.

Lemma finish_outcome g label host report s s' res :
  apply_finish g label host report s = Some (s', res) → store_outcome g (FinishServer label host report) s s' (is_ok res).
Proof.
  unfold apply_finish. intros [(k & s1 & Ek & E)|(e & E & ->)]%op_bind_inv.
  2: { apply before_change_inv in E as [-> _]. apply store_left; try done; by left. }
  apply before_change_inv in Ek as [-> [Hk Hrest]].
  apply op_bind_inv in E as [(new & s2 & En & E)|(e & En & ->)]; apply finish_setup_keeps in En as [u ->].
  2: { apply store_left; try done; by left. }
  apply op_bind_inv in E as [(v & s3 & E1 & E)|(e & E1 & ->)]; unfold configure in E1;
    (destruct (add_endpoint k _ (minted g) new) as [[[k' st'] x]|] eqn:Ex; [|done]); injection E1 as <- Er;
    apply (changed_finish g label host report) in Ex.
  - apply op_bind_inv in E as [(u1 & s4 & [= <- _] & E)|(e & [=] & _)].
    apply op_bind_inv in E as [(u2 & s5 & E2 & E)|(e & E2 & ->)];
      apply reload_inv in E2 as ([=] & Hs & Hst & Hr & Hh & Hp & Hi & Hf). injection E as <- <-.
    destruct x as [x|e]; [|done]. by apply (store_changed _ _ _ _ _ k); rewrite ?Hst, ?Hs.
  - destruct x as [x|e']; [done|]. by apply (store_changed _ _ _ _ _ k).
Qed.

Lemma import_keeps g documents s s' r : import_documents g documents s = Some (s', r) →
  ∃ f b, s' = set_events b (set_feed f s).
Proof.
  assert (Hfin : ∀ f notes s s', s' = publish_feed_notes notes (set_feed f s) → ∃ f b, s' = set_events b (set_feed f s)).
  { intros f notes t t' ->. by eexists _, _. }
  unfold import_documents. destruct (svc_feed s) as [f|] eqn:Ef.
  2: { intros [= <- _]. exists None, (svc_events s). destruct s. simpl in *. by subst. }
  destruct (match import_keys documents with Some keys => _ | None => _ end) as [f1 [notes|e]].
  2: { intros [= <- _]. eexists (Some f1), (svc_events s). by destruct s. }
  destruct (import_feed documents) as [document|]; [|intros [= <- _]; by eapply Hfin].
  destruct (offer_feed document (now_s g) trial f1) as [[f2 [more|e]]|]; simpl; [| |done]; intros [= <- _]; by eapply Hfin.
Qed.

Lemma connect_slot p e s s' r : apply_connect p e s = Some (s', r) →
  slot_moved s s' ∧ svc_feed s' = svc_feed s ∧ svc_state s' = svc_state s ∧ svc_configurator s' = svc_configurator s ∧ svc_rebuild s' = svc_rebuild s ∧
  svc_hold s' = svc_hold s ∧ svc_pending s' = svc_pending s.
Proof.
  unfold apply_connect, slot_moved. destruct (svc_orchestrator s) as [o|] eqn:Eo; [|by intros [= <- _]; split_and!; auto].
  case_bool_decide; [by intros [= <- _]; split_and!; auto|].
  destruct (h_connect p o) as [o' x] eqn:Ec. assert (o' = (h_connect p o).1) as -> by by rewrite Ec.
  destruct x as [u|er]; intros [= <- _]; [unfold remember; destruct (svc_intent _)|]; simpl; split_and!; try done;
    right; exists o; (split; [done|]); left; by exists p.
Qed.

Lemma disconnect_slot s s' r : apply_disconnect s = Some (s', r) →
  slot_moved s s' ∧ svc_feed s' = svc_feed s ∧ svc_state s' = svc_state s ∧ svc_configurator s' = svc_configurator s ∧ svc_rebuild s' = svc_rebuild s ∧
  svc_hold s' = svc_hold s ∧ svc_pending s' = svc_pending s.
Proof.
  assert (∃ i, forget s = set_intent i s) as [i Hi] by (unfold forget; destruct s as [? ? ? ? ? ? ? ? ? [i|]]; by eexists).
  unfold apply_disconnect, slot_moved. rewrite Hi. simpl. destruct (svc_orchestrator s) as [o|] eqn:Eo; [|by intros [= <- _]; split_and!; auto].
  destruct (h_disconnect o) as [o' x] eqn:Ec. assert (o' = (h_disconnect o).1) as -> by by rewrite Ec.
  destruct x as [u|er]; intros [= <- _]; simpl; split_and!; try done; right; exists o; (split; [done|]); by right.
Qed.

Lemma staleness_definitions now (f : FeedService (F := F)) : fs_definitions (check_staleness now f).1 = fs_definitions f.
Proof. unfold check_staleness. destruct (FeedState.status _ _); try done. by destruct (fs_reported f). Qed.

Lemma serve_outcome g r s s' res : serve g r s = Some (s', res) → store_outcome g r s s' (is_ok res).
Proof.
  assert (Hread : same_core s s' → svc_pending s' = svc_pending s → fs_definitions <$> svc_feed s' = fs_definitions <$> svc_feed s →
    store_outcome g r s s' (is_ok res)).
  { intros Hc Hp Hf. unfold same_core, core in Hc. injection Hc as E1 _ _ E4 E5 E6 _ E8 _ E10 _.
    apply store_left; auto. by left. }
  assert (Hsame : s' = s → store_outcome g r s s' (is_ok res)) by (intros ->; apply Hread; done).
  destruct r; cbn [serve];
    try (intros [= -> _]; by apply Hsame);
    try (apply change_store_outcome; intros k st k' st' x Ex; econstructor; exact Ex).
  - cbv zeta. intros E. assert (s' = check_feed_staleness g s) as Es.
    { destruct (svc_orchestrator (check_feed_staleness g s)) as [o|]; [by injection E as <- _|].
      destruct (state_snapshot_json _) as [text|]; [by injection E as <- _|done]. }
    apply Hread; rewrite Es; [apply staleness_core| |]; unfold check_feed_staleness; destruct (svc_feed s) as [f|] eqn:Ef; try done.
    + by destruct (check_staleness _ f) as [f' [note|]].
    + pose proof (staleness_definitions (now_s g) f) as Hd. destruct (check_staleness _ f) as [f' [note|]]; simpl in *; by rewrite Hd.
    + by rewrite Ef.
  - intros E. destruct (tracker_reply _ _ _ _ _) as [t text]. injection E as <- _. by apply Hread.
  - intros (Hs & Ef & E1 & E2 & E3 & E4 & E5)%connect_slot. apply store_left; try done; [intros Hn; by destruct (Hn acknowledge_tier2 profile endpoint)|by rewrite Ef].
  - intros (Hs & Ef & E1 & E2 & E3 & E4 & E5)%disconnect_slot. apply store_left; try done. by rewrite Ef.
  - intros (f & b & ->)%import_keeps. apply store_left; try done; [by left|]. intros Hn. by destruct (Hn import).
  - unfold apply_fetch. destruct (svc_fetcher s) as [f|]; [|intros [= -> _]; by apply Hsame].
    destruct (request (posture_now s) f) as [f' route]. intros [= <- _]. apply store_left; try done. by left.
  - unfold apply_prepare. destruct (svc_setup s) as [u|]; [|intros [= -> _]; by apply Hsame].
    destruct (setup_prepare _ _ u) as [u' [reply|e]]; intros [= <- _]; apply store_left; try done; by left.
  - apply finish_outcome.
Qed.

Lemma apply_outcome g r s s' res : apply g r s = Some (s', res) → store_outcome g r s s' (is_ok res).
Proof.
  unfold apply. intros [(u & s1 & E1 & E)|(e & E1 & ->)]%op_bind_inv.
  - assert (s1 = s) as ->; [|by apply serve_outcome]. by destruct (class r); injection E1 as <- _.
  - assert (s' = s) as ->; [|apply store_left; try done; by left]. by destruct (class r); injection E1 as <- _.
Qed.

(** A change that failed left the store as it was. *)
Lemma failed_change g r k st st' : store_change g r k st st' false → st' = st.
Proof.
  assert (Hkeep : ∀ T (k0 : Configurator F S) before changed (value : T) k1 s1 x, keep k0 before changed value = Some (k1, s1, x) → is_ok x = false → s1 = before).
  { intros T k0 before changed value k1 s1 x. unfold keep. destruct (Configure.save k0 changed) as [[k2 [u|e]]|]; simpl; [|by intros [= _ <- _]|done].
    by intros [= _ _ <-]. }
  remember false as ok eqn:Eok. destruct 1 as [new k st k' st' r E|l h rep new k st k' st' r E|id k st k' st' r E|id b k st k' st' r E
    |m a k st k' st' r E|id k st k' st' r E|p up down rev k st k' st' r E|p k st k' st' r E|block k st k' st' r E].
  1, 2: unfold add_endpoint in E; destruct (_ <=? _); [by injection E as _ <- _|];
    cbv zeta in E; destruct (_ ≫= _) as [e|e] in E; [|by injection E as _ <- _];
    destruct (apply_add k st e _ new) as [[[k1 s1] x]|]; [|done]; simpl in E; injection E as _ <- <-; by destruct x.
  - unfold remove_endpoint in E. destruct (endpoint id st) as [e|]; [|by injection E as _ <- _].
    destruct (has_cloud_resources e); [by injection E as _ <- _|].
    destruct (secret_key_parse _) as [key|why]; [|by injection E as _ <- _].
    unfold transact in E. destruct (Configure.save k _) as [[k1 saved]|]; [|done]. simpl in E. destruct saved as [u|er]; simpl in E.
    + destruct (secret_delete key (secrets k1)) as [kept d]. injection E as _ _ <-. done.
    + by injection E as _ <- _.
  - unfold set_endpoint_enabled in E. destruct (endpoint id st) as [e|]; [|by injection E as _ <- _].
    unfold transact in E. destruct (Configure.save k _) as [[k1 saved]|]; [|done]. simpl in E. injection E as _ <- <-. by rewrite Eok.
  - unfold add_rule in E. destruct m; try (by injection E as _ <- _); (destruct (_ <=? _); [by injection E as _ <- _|]);
      (destruct (add_user_rule _ _ _ _ st) as [[changed [id|e]]|]; simpl in E; [|by injection E as _ <- _|done]); by eapply Hkeep.
  - unfold remove_rule in E. destruct (List.find _ _) as [rule|]; [|by injection E as _ <- _].
    destruct (is_builtin rule); [by injection E as _ <- _|].
    destruct (Domain.remove_rule _ id st) as [[changed [u|e]]|]; simpl in E; [|by injection E as _ <- _|done]. by eapply Hkeep.
  - unfold set_brutal in E. destruct (Domain.set_brutal p _ st) as [changed [u|e]]; [by eapply Hkeep|by injection E as _ <- _].
  - unfold set_brutal in E. destruct (Domain.set_brutal p _ st) as [changed [u|e]]; [by eapply Hkeep|by injection E as _ <- _].
  - unfold set_encrypted_dns in E. destruct (if block then _ else _) as [[changed [c|e]]|]; simpl in E; [by eapply Hkeep|by injection E as _ <- _|done].
Qed.

(** ** Changes that trust nothing new *)

(** The same server at the same place, turned on only if it was. *)
Record narrowed (e e' : Endpoint) : Prop := {
  narrowed_id : endpoint_id e' = endpoint_id e;
  narrowed_label : endpoint_label e' = endpoint_label e;
  narrowed_address : endpoint_address e' = endpoint_address e;
  narrowed_credentials : endpoint_credentials e' = endpoint_credentials e;
  narrowed_enabled : endpoint_enabled e' = true → endpoint_enabled e = true;
}.

(** No server, and no rule around the tunnel, that was not there. *)
Record nothing_new (st st' : DomainState) : Prop := {
  no_new_server e' : e' ∈ ds_endpoints st' → ∃ e, e ∈ ds_endpoints st ∧ narrowed e e';
  no_new_bypass r : r ∈ ds_rules st' → action r = Bypass → r ∈ ds_rules st;
}.

#[local] Instance nothing_new_preorder : PreOrder nothing_new.
Proof.
  split.
  - intros st. split; [|done]. intros e He. exists e. done.
  - intros a b c [He Hr] [He' Hr']. split; [|intros r Hin Ha; apply Hr; [by apply Hr'|done]].
    intros e'' (e' & Hin & [? ? ? ? ?])%He'. destruct (He _ Hin) as (e & ? & [? ? ? ? ?]). exists e. split; [done|].
    split; [congruence..|auto].
Qed.

Lemma fewer_rules st st' : ds_endpoints st' = ds_endpoints st →
  (∀ r, r ∈ ds_rules st' → action r = Bypass → r ∈ ds_rules st) → nothing_new st st'.
Proof. intros He Hr. split; [|done]. rewrite He. intros e Hin. by exists e. Qed.

(** Which requests are held, were the store like this: what [redirects_traffic] says of them. *)
Definition redirects (st : DomainState) (r : Request (C := C)) : bool :=
  match r with
  | AddEndpoint _ | FinishServer _ _ _ | ImportFeed _ | AddRule _ Bypass => true
  | SetEndpointEnabled id true => existsb (fun e => bool_decide (endpoint_id e = id)) (ds_endpoints st)
  | _ => false
  end.

Lemma redirects_traffic_iff s r : redirects_traffic s r = None ↔ redirects (svc_state s) r = false.
Proof.
  destruct r as [| | | | | | | | | | |a p e| |new|id|id enabled|m a|id| |p u d v|p|b|i| |k|l h x| | |id|id|]; try done.
  2: by destruct a.
  destruct enabled; [|done]. simpl. destruct (List.find _ _) as [e|] eqn:E; simpl.
  - split; [done|]. intros Hf. apply find_Some_elem in E as [He Hb]. rewrite existsb_false_elem in Hf. by rewrite (Hf e He) in Hb.
  - split; [|done]. intros _. rewrite existsb_false_elem. by apply find_None_elem.
Qed.

Lemma kept_nothing_new {T} (k : Configurator F S) before changed (value : T) k' st' r :
  keep k before changed value = Some (k', st', r) → nothing_new before changed → nothing_new before st'.
Proof.
  unfold keep. destruct (Configure.save k changed) as [[k2 [u|e]]|]; simpl; [| |done]; by intros [= _ <- _].
Qed.

Lemma transacted_nothing_new (k : Configurator F S) st change k' st' r :
  transact k st change = Some (k', st', r) → nothing_new st (change st) → nothing_new st st'.
Proof.
  unfold transact. destruct (Configure.save k (change st)) as [[k2 x]|]; simpl; [|done]. intros [= _ <- _]. by destruct (is_ok x).
Qed.

Lemma replaced_nothing_new new_ids candidate st st' r :
  replace_rules new_ids candidate st = Some (st', r) →
  (∀ r, r ∈ candidate → action r = Bypass → r ∈ ds_rules st) → nothing_new st st'.
Proof.
  destruct (replace_rules_cases new_ids candidate st) as (s1 & x & -> & [(_ & -> & _)|(-> & _ & _)]); intros [= <- _] Hc; [|done].
  by apply fewer_rules.
Qed.

Lemma consent_nothing_new new_ids next st st' r : apply_consent new_ids next st = Some (st', r) → nothing_new st st'.
Proof.
  unfold apply_consent. destruct (block_made new_ids (policy next)) as (block & -> & Hblock & _). simpl.
  destruct (check_rules _ _ _) as [[u|e]|]; simpl; [| |done]; intros [= <- _]; [|done].
  apply fewer_rules; [done|]. simpl. intros x [[Hx _]%elem_of_filter_bool|Hx]%elem_of_app Ha; [done|].
  destruct (Hblock x Hx) as [_ Hr]. congruence.
Qed.

Lemma added_nothing_new new_ids new_id m a st st' r :
  add_user_rule new_ids new_id m a st = Some (st', r) → a ≠ Bypass → nothing_new st st'.
Proof.
  unfold add_user_rule. intros E Ha. destruct (next_user_precedence _) as [p|]; [|by injection E as <- _].
  destruct (user new_id m a p) as [[rule|e]|] eqn:Eu; simpl in E; [|by injection E as <- _|done].
  destruct (Domain.add_rule _ rule st) as [[s1 x]|] eqn:Ex; [|done]. simpl in E. injection E as <- _.
  eapply replaced_nothing_new; [exact Ex|]. intros y [Hy|Hy]%elem_of_app Hb; [done|].
  apply list_elem_of_singleton in Hy as ->. exfalso. apply Ha. rewrite <-Hb.
  unfold user, Rule.build in Eu. destruct (pattern_empty m); [done|].
  match type of Eu with (?checked ≫= _) = _ => destruct checked as [range|]; [|done] end. cbn [mbind option_bind] in Eu. injection Eu as Eu.
  unbind Eu. repeat case_match; try done; by injection Eu as <-.
Qed.

Lemma brutal_nothing_new p setting st st' r : Domain.set_brutal p setting st = (st', r) → nothing_new st st'.
Proof.
  unfold Domain.set_brutal. destruct (List.find _ _) as [profile|]; [|by intros [= <- _]].
  destruct setting as [[b a]|]; [|intros [= <- _]; by apply fewer_rules].
  destruct (enable_brutal b a profile) as [q|[]]; intros [= <- _]; by apply fewer_rules || done.
Qed.

(** A change that is not held trusts nothing new. *)
Lemma unheld_change g r k st st' ok : store_change g r k st st' ok → redirects st r = false → nothing_new st st'.
Proof.
  intros Hc Hr. destruct ok; [|apply failed_change in Hc; by subst].
  remember true as ok eqn:Eok. destruct Hc as [new k st k' st' r E|l h rep new k st k' st' r E|id k st k' st' r E|id b k st k' st' r E
    |m a k st k' st' r E|id k st k' st' r E|p up down rev k st k' st' r E|p k st k' st' r E|block k st k' st' r E]; try done.
  - unfold remove_endpoint in E. destruct (endpoint id st) as [e|]; [|by injection E as _ <- _].
    destruct (has_cloud_resources e); [by injection E as _ <- _|].
    destruct (secret_key_parse _) as [key|why]; [|by injection E as _ <- _].
    destruct (transact _ _ _) as [[[k1 s1] x]|] eqn:Et; [|done]. simpl in E.
    apply transacted_nothing_new in Et.
    + destruct x as [u|er]; [destruct (secret_delete key (secrets k1))|]; by injection E as _ <- _.
    + unfold Domain.remove_endpoint. simpl. split; [|done]. simpl. intros e' [He _]%elem_of_filter_bool. by exists e'.
  - unfold set_endpoint_enabled in E. destruct (endpoint id st) as [e|] eqn:Ee; [|by injection E as _ <- _].
    apply transacted_nothing_new in E; [done|]. unfold Domain.set_endpoint_enabled. rewrite Ee. simpl. split; [|done].
    simpl. intros e' [He|(x & He & _ & ->)]%elem_of_update_first; [by exists e'|]. destruct b; [|by exists x].
    exfalso. simpl in Hr. rewrite existsb_false_elem in Hr. unfold endpoint in Ee. apply find_Some_elem in Ee as [Hin Hid].
    specialize (Hr e Hin). apply bool_decide_eq_false in Hr. by apply Hr, Z.eqb_eq.
  - unfold add_rule in E. destruct m; try (by injection E as _ <- _); (destruct (_ <=? _); [by injection E as _ <- _|]);
      (destruct (add_user_rule _ _ _ _ st) as [[changed [id|e]]|] eqn:Ea; simpl in E; [|by injection E as _ <- _|done]);
      (eapply kept_nothing_new; [exact E|]); (eapply added_nothing_new; [exact Ea|by intros ->]).
  - unfold remove_rule in E. destruct (List.find _ _) as [rule|]; [|by injection E as _ <- _].
    destruct (is_builtin rule); [by injection E as _ <- _|].
    destruct (Domain.remove_rule _ id st) as [[changed [u|e]]|] eqn:Er; simpl in E; [|by injection E as _ <- _|done].
    eapply kept_nothing_new; [exact E|]. unfold Domain.remove_rule in Er.
    destruct (_ =? _)%nat in Er; [by injection Er as <- _|].
    destruct (replace_rules _ _ st) as [[s1 x]|] eqn:Ex; [|done]. simpl in Er. injection Er as <- _.
    eapply replaced_nothing_new; [exact Ex|]. by intros y [Hy _]%elem_of_filter_bool.
  - unfold set_brutal in E. destruct (Domain.set_brutal p _ st) as [changed [u|e]] eqn:Eb; [|by injection E as _ <- _].
    eapply kept_nothing_new; [exact E|]. by eapply brutal_nothing_new.
  - unfold set_brutal in E. destruct (Domain.set_brutal p _ st) as [changed [u|e]] eqn:Eb; [|by injection E as _ <- _].
    eapply kept_nothing_new; [exact E|]. by eapply brutal_nothing_new.
  - unfold set_encrypted_dns in E. destruct (if block then _ else _) as [[changed [c|e]]|] eqn:Eb; simpl in E; [|by injection E as _ <- _|done].
    eapply kept_nothing_new; [exact E|]. destruct block.
    + unfold choose_encrypted_dns_block in Eb. destruct (apply_consent _ _ st) as [[s1 x]|] eqn:Ex; [|done]. simpl in Eb.
      injection Eb as <- _. by eapply consent_nothing_new.
    + unfold opt_out_of_encrypted_dns_block in Eb. destruct (opt_out _) as [next text].
      destruct (apply_consent _ _ st) as [[s1 x]|] eqn:Ex; [|done]. simpl in Eb. injection Eb as <- _. by eapply consent_nothing_new.
Qed.

(** ** A request as a whole *)

(** What a request leaves: nothing but what waits, what asking the store for it does, or what the change that was held
    under the id it names does. *)
Lemma dispatch_cases g r s s' res :
  dispatch g r s = Some (s', res) →
  same_but_waiting s s' ∨
  (∃ id h s1, r = ApproveChange id ∧ h ∈ held (svc_pending s) ∧ held_id h = id ∧ svc_state s1 = svc_state s' ∧
     svc_orchestrator s1 = svc_orchestrator s' ∧ svc_rebuild s1 = svc_rebuild s' ∧ svc_intent s1 = svc_intent s' ∧
     svc_configurator s1 = svc_configurator s' ∧ svc_hold s1 = svc_hold s' ∧
     ∃ p, store_outcome g (held_request h) (set_pending p s) s1 (is_ok res)) ∨
  ((svc_hold s = true → redirects (svc_state s) r = false) ∧ (∀ id, r ≠ ApproveChange id) ∧ store_outcome g r s s' (is_ok res)).
Proof.
  intros [[Hs _]|[(id & h & s1 & -> & Hf & Ha & ->)|(Hr & Hn & Ha)]]%dispatch_inv; [by left|right; left|right; right].
  - exists id, h, s1. unfold find in Hf. cbv zeta in Hf. cbn [snd] in Hf. destruct (List.find _ _) as [h'|] eqn:Ef; [|by destruct (existsb _ _)].
    injection Hf as ->. apply find_Some_elem in Ef as [[Hin _]%elem_of_filter_bool Hid%String.eqb_eq].
    apply apply_outcome in Ha. split_and!; try done; try (by destruct res). by eexists.
  - split_and!; [|done|by apply apply_outcome]. intros Hh. by apply redirects_traffic_iff, Hr.
Qed.

(** Whatever is held is one of the changes that are held. *)
Definition holdable (r : Request (C := C)) : bool :=
  match r with
  | AddEndpoint _ | FinishServer _ _ _ | ImportFeed _ | AddRule _ Bypass | SetEndpointEnabled _ true => true
  | _ => false
  end.

Lemma redirects_holdable st r : redirects st r = true → holdable r = true.
Proof. by destruct r as [| | | | | | | | | | |a p e| |new|id|id []|m []|id| |p u d v|p|b|i| |k|l h x| | |id|id|]. Qed.

(** How the waiting changes move in a dispatch: by holding, finding and removing. *)
Lemma dispatch_pending g r s s' res :
  dispatch g r s = Some (s', res) →
  rtc pending_step (svc_pending s) (svc_pending s') ∧
  ((∀ h, h ∈ held (svc_pending s) → holdable (held_request h) = true) → ∀ h, h ∈ held (svc_pending s') → holdable (held_request h) = true).
Proof.
  assert (Hout : ∀ g r s s' ok, store_outcome g r s s' ok → svc_pending s' = svc_pending s) by (by intros ????? []).
  assert (Hfind : ∀ id now (p : PendingChanges (C := C)), rtc pending_step p (find id now p).1) by (intros; apply rtc_once; constructor).
  assert (Hsub : ∀ q (p : PendingChanges (C := C)), (∀ h, h ∈ held p → holdable (held_request h) = true) →
    ∀ h, h ∈ List.filter q (held p) → holdable (held_request h) = true) by (intros q p Hp h [Hh _]%elem_of_filter_bool; by apply Hp).
  intros E.
  assert (Hrest : (match (if svc_hold s then redirects_traffic s r else None) with
      Some what => hold_change g r what s | None => apply g r s end) = Some (s', res) →
      rtc pending_step (svc_pending s) (svc_pending s') ∧
      ((∀ h, h ∈ held (svc_pending s) → holdable (held_request h) = true) → ∀ h, h ∈ held (svc_pending s') → holdable (held_request h) = true)).
  { clear E. destruct (if svc_hold s then redirects_traffic s r else None) as [what|] eqn:Ew.
    - intros [(u & s1 & [= <- _] & E)|(e & [= <- _] & _)]%op_bind_inv; [|done].
      unfold hold_it in E. destruct (hold _ _ _ _ _) as [[p x]|] eqn:Eh; [|done]. injection E as <- _. simpl. split.
      + apply rtc_once. econstructor. exact Eh.
      + intros Hp. destruct (hold_cases r what (now_ms g) (fresh_change_id (random_bytes g)) (svc_pending s)) as (x' & p' & Eh' & Hc).
        rewrite Eh in Eh'. injection Eh' as <- <-. destruct Hc as [(h & _ & _ & -> & _)|[(-> & _)|(h & -> & _ & Hr & _)]].
        * by apply (Hsub (fun h => now_ms g <? expires_unix_ms h)).
        * by apply (Hsub (fun h => now_ms g <? expires_unix_ms h)).
        * simpl. intros y [Hy|Hy]%elem_of_app; [by eapply (Hsub (fun h => now_ms g <? expires_unix_ms h))|].
          apply list_elem_of_singleton in Hy as ->. rewrite Hr. destruct (svc_hold s); [|done].
          eapply (redirects_holdable (svc_state s)). destruct (redirects (svc_state s) r) eqn:Er; [done|].
          apply redirects_traffic_iff in Er. congruence.
    - intros Ha%apply_outcome%Hout. rewrite Ha. done. }
  destruct r; try (by apply Hrest); clear Hrest.
  - unfold dispatch, list_json in E. injection E as <- _. simpl. split; [apply rtc_once; constructor|].
    intros Hp. by apply (Hsub (fun h => now_ms g <? expires_unix_ms h)).
  - apply approve_inv in E. destruct (find id _ _) as [p [h|e]] eqn:Ef; assert (p = expire (now_ms g) (svc_pending s)) as -> by (by injection Ef as <- _).
    + destruct E as (s1 & res1 & Ha%apply_outcome%Hout & -> & ->). simpl in Ha. destruct res1; simpl; rewrite Ha; split.
      * eapply rtc_l; [apply (step_find _ id (now_ms g))|]. apply rtc_once. constructor.
      * intros Hp h' [Hh' _]%elem_of_filter_bool. by eapply (Hsub (fun h => now_ms g <? expires_unix_ms h)).
      * apply rtc_once, (step_find _ id (now_ms g)).
      * intros Hp. by apply (Hsub (fun h => now_ms g <? expires_unix_ms h)).
    + destruct E as [-> _]. simpl. split; [apply rtc_once, (step_find _ id (now_ms g))|].
      intros Hp. by apply (Hsub (fun h => now_ms g <? expires_unix_ms h)).
  - unfold dispatch, reject_change in E. apply op_bind_inv in E as [(h & s1 & Ef & E)|(e & Ef & _)];
      unfold find_held in Ef; destruct (find id _ _) as [p x] eqn:Ep; assert (p = expire (now_ms g) (svc_pending s)) as -> by (by injection Ep as <- _);
      injection Ef as <- _.
    + apply op_bind_inv in E as [(u & s2 & [= <- _] & [= <- _])|(e & [=] & _)]. simpl. split.
      * eapply rtc_l; [apply (step_find _ id (now_ms g))|]. apply rtc_once. constructor.
      * intros Hp h' [Hh' _]%elem_of_filter_bool. by eapply (Hsub (fun h => now_ms g <? expires_unix_ms h)).
    + simpl. split; [apply rtc_once, (step_find _ id (now_ms g))|].
      intros Hp. by apply (Hsub (fun h => now_ms g <? expires_unix_ms h)).
Qed.

(** A retry asks the orchestrator at most. *)
Lemma retry_leaves s :
  svc_state (retry_if_left_on s).1 = svc_state s ∧ svc_pending (retry_if_left_on s).1 = svc_pending s ∧
  svc_hold (retry_if_left_on s).1 = svc_hold s ∧ svc_rebuild (retry_if_left_on s).1 = svc_rebuild s ∧
  svc_configurator (retry_if_left_on s).1 = svc_configurator s ∧ slot_moved s (retry_if_left_on s).1 ∧
  svc_recovery (retry_if_left_on s).1 = svc_recovery s ∧ svc_refusal (retry_if_left_on s).1 = svc_refusal s ∧
  svc_intent (retry_if_left_on s).1 = (fun i => (intent_load i).1) <$> svc_intent s.
Proof.
  assert (Hi : ∀ i, svc_intent s = Some i → wished s = (set_intent (Some (intent_load i).1) s, Some (intent_load i).2)).
  { intros i E. unfold wished. rewrite E. by destruct (intent_load i). }
  unfold retry_if_left_on, service_retry, retry_service, slot_moved. destruct (svc_intent s) as [i|] eqn:Ei.
  - rewrite (Hi i eq_refl). destruct (intent_load i).2 as [|p]; [by split_and!; auto|]. simpl.
    destruct (svc_orchestrator s) as [o|] eqn:Eo; [|by split_and!; auto].
    destruct (h_is_idle o); [|by split_and!; auto]. simpl. destruct (h_connect p o) as [o' x] eqn:Ec. simpl.
    split_and!; try done. right. exists o. split; [done|]. left. exists p. by rewrite Ec.
  - unfold wished. rewrite Ei. split_and!; try done; by left || by rewrite Ei.
Qed.

(** * Theorems *)

Section Theorems.
Context (moves : O → O → Prop) `{!HandlesLaws O moves}.
Abbreviation step := (service_step moves).

(** A step, with what it means for the parts the theorems are about. *)
Lemma step_cases asked s s' : step asked s s' →
  (∃ g r res, asked r ∧ dispatch g r s = Some (s', res)) ∨ s' = (retry_if_left_on s).1 ∨
  (svc_state s' = svc_state s ∧ svc_pending s' = svc_pending s ∧ svc_hold s' = svc_hold s ∧ svc_rebuild s' = svc_rebuild s ∧
   svc_configurator s' = svc_configurator s ∧ svc_intent s' = svc_intent s ∧ svc_recovery s' = svc_recovery s ∧
   svc_refusal s' = svc_refusal s ∧
   (svc_orchestrator s' = svc_orchestrator s ∨ ∃ o o', svc_orchestrator s = Some o ∧ svc_orchestrator s' = Some o' ∧ moves o o')).
Proof.
  destruct 1 as [g r s s' res Ha E|s|o o' s Eo Hm|now s|f notes failure fetcher s _].
  - left. by exists g, r, res.
  - right. by left.
  - right. right. split_and!; try done. right. by exists o, o'.
  - right. right. split_and!; try done. by left.
  - right. right. split_and!; try done. by left.
Qed.

(** C32. While what a previous run changed is not restored, or the saved configuration was refused, no request does more
    than read, or withdraw a change that waits: each is answered with an internal error that says why, and nothing of
    the store, the saved files, the secrets, the orchestrator or the remembered wish changes. A service that starts
    like that is given no orchestrator, so in whatever is asked of it, however it is retried, it never connects and its
    store stays as it was. *)
Theorem unsafe_service_changes_nothing s (Hu : unsafe s) :
  (∀ g r s' res, dispatch g r s = Some (s', res) →
     same_core s s' ∧
     (class r = Mutating → (∀ id, r ≠ RejectChange id) → ∃ detail, res = Err (InternalError detail))) ∧
  (∀ installed build s', svc_orchestrator s = None →
     rtc (step (fun _ => True)) (with_production_orchestrator installed build s) s' →
     svc_orchestrator s' = None ∧ svc_state s' = svc_state s ∧ svc_configurator s' = svc_configurator s).
Proof.
  assert (Hd : ∀ s g r s' res, unsafe s → dispatch g r s = Some (s', res) → same_core s s' ∧
     (class r = Mutating → (∀ id, r ≠ RejectChange id) → ∃ detail, res = Err (InternalError detail))).
  { clear s Hu. intros s g r s' res Hu E. pose proof (dispatch_inv _ _ _ _ _ E) as [[[Hs _] Hk]|[(id & h & s1 & -> & Hf & Ha & ->)|(_ & _ & Ha)]].
    - split; [done|]. intros Hc Hn. destruct r; try done; try (by destruct (Hn id)); unfold dispatch in E;
        (destruct (if svc_hold s then _ else _) as [what|] in E;
          [apply op_bind_inv in E as [(u & s1 & Hx & _)|(e & Hx & ->)]; apply (refuse_unsafe _ _ _ Hu) in Hx as [_ [d [= ->]]]; by eexists
          |apply (apply_unsafe _ _ _ _ _ Hu) in E as [_ E]; by apply E]).
    - apply (apply_unsafe g _ (set_pending _ s)) in Ha as [Hs _]; [|done]. split; [|done]. destruct res; exact Hs.
    - apply (apply_unsafe _ _ _ _ _ Hu) in Ha as [Hs Ha]. split; [done|]. intros Hc _. by apply Ha. }
  split; [intros g r s' res; by apply Hd|].
  intros installed build s' Hnone Hsteps.
  assert (with_production_orchestrator installed build s = s) as E.
  { unfold with_production_orchestrator. destruct Hu as [Hu|[reason Hr]]; [by destruct (svc_recovery s)|].
    destruct (svc_recovery s); [|done]. by rewrite Hr. }
  rewrite E in Hsteps. clear E. revert Hu Hnone. induction Hsteps as [s|s s1 s' Hs _ IH]; [done|]. intros Hu Hnone.
  assert (unsafe s1 ∧ svc_orchestrator s1 = None ∧ svc_state s1 = svc_state s ∧ svc_configurator s1 = svc_configurator s)
    as (Hu1 & Hn1 & E1 & E2); [|destruct (IH Hu1 Hn1) as (? & ? & ?); split_and!; congruence].
  unfold unsafe in *. destruct (step_cases _ _ _ Hs) as [(g & r & res & _ & E)|[->|(E1 & _ & _ & _ & E2 & _ & E3 & E4 & Hslot)]].
  - destruct (Hd _ _ _ _ _ Hu E) as [Hc _]. unfold same_core, core in Hc. injection Hc as E1 E3 E4 E5 _ E6 _ _ _ _ _.
    rewrite E1, E3, E4, E5, E6. done.
  - destruct (retry_leaves s) as (E1 & _ & _ & _ & E2 & Hslot & E3 & E4 & _). rewrite E1, E2, E3, E4.
    split_and!; try done. destruct Hslot as [->|(o & Eo & _)]; [done|congruence].
  - rewrite E1, E2, E3, E4. split_and!; try done. destruct Hslot as [->|(o & o' & Eo & _)]; [done|congruence].
Qed.

(** The orchestrator is one that was made from the store as it is, and has moved since. *)
Definition follows (s : DnetService) : Prop :=
  ∀ rebuild o, svc_rebuild s = Some rebuild → svc_orchestrator s = Some o → rtc moves (rebuild (svc_state s)) o.

Lemma moved_follows s s' : follows s → svc_state s' = svc_state s → svc_rebuild s' = svc_rebuild s →
  slot_moved s s' ∨ (∃ o o', svc_orchestrator s = Some o ∧ svc_orchestrator s' = Some o' ∧ moves o o') → follows s'.
Proof.
  intros Hf E1 E2 Hslot rebuild o Hr Ho. rewrite E1. rewrite E2 in Hr.
  destruct Hslot as [[Es|(o1 & Eo & Hm)]|(o1 & o2 & Eo & Es & Hm)].
  - apply Hf; congruence.
  - etransitivity; [by apply Hf|]. destruct Hm as [[p Es]|Es]; rewrite Es in Ho; injection Ho as <-; [apply connect_moves|apply disconnect_moves].
  - rewrite Es in Ho. injection Ho as <-. etransitivity; [by apply Hf|]. by apply rtc_once.
Qed.

Lemma outcome_follows g r s s' ok : store_outcome g r s s' ok → follows s → follows s'.
Proof.
  intros [E1 _ E2 _ _ Hslot _ _|k _ _ Hc E2 _ _ _ _ Es] Hf.
  - apply (moved_follows s); auto.
  - intros rebuild o Hr Ho. rewrite Es in Ho. rewrite E2 in Hr. destruct ok.
    + unfold slot_for in Ho. rewrite Hr in Ho. destruct (svc_orchestrator s); [|done]. by injection Ho as <-.
    + apply failed_change in Hc. rewrite Hc. by apply Hf.
Qed.

(** A store that changed did so while nothing was connected. *)
Lemma changed_at_rest g r s s' res : dispatch g r s = Some (s', res) → svc_state s' ≠ svc_state s → at_rest s.
Proof.
  intros E Hne.
  assert (Hgo : ∀ g r s s' ok, store_outcome g r s s' ok → svc_state s' ≠ svc_state s → at_rest s) by (clear; by intros g r s s' ok []).
  destruct (dispatch_cases _ _ _ _ _ E) as [[Hc _]|[(id & h & s2 & _ & _ & _ & E1 & _ & _ & _ & _ & _ & p & Ho)|(_ & _ & Ho)]].
  - unfold same_core, core in Hc. by injection Hc as E1.
  - apply Hgo in Ho; [exact Ho|]. simpl. congruence.
  - by apply Hgo in Ho.
Qed.

(** C33. The configuration only changes while nothing is connected or being connected, and the orchestrator always
    follows the store: through any requests, retries and moves of its own, the one that is in place was made from the
    store as it now is. A change that is refused or fails leaves the store as it was, and one that changed it has put a
    new orchestrator in the place of the old. *)
Theorem orchestrator_follows_the_store s s' :
  (follows s → rtc (step (fun _ => True)) s s' → follows s') ∧
  (∀ g r res, dispatch g r s = Some (s', res) →
     (¬ at_rest s → svc_state s' = svc_state s ∧ svc_configurator s' = svc_configurator s) ∧
     (is_ok res = false → svc_state s' = svc_state s) ∧
     (svc_state s' ≠ svc_state s → svc_orchestrator s' = slot_for s (svc_state s'))).
Proof.
  assert (Hcore : ∀ s s', same_core s s' → svc_state s' = svc_state s ∧ svc_configurator s' = svc_configurator s ∧
    svc_rebuild s' = svc_rebuild s ∧ svc_orchestrator s' = svc_orchestrator s).
  { clear. intros s s' Hc. unfold same_core, core in Hc. by injection Hc as E1 _ _ E4 E5 E6 _ _ _ _ _. }
  split.
  - intros Hf Hs. revert Hf. induction Hs as [s|s s1 s' Hs _ IH]; [done|]. intros Hf. apply IH.
    destruct (step_cases _ _ _ Hs) as [(g & r & res & _ & E)|[->|(E1 & _ & _ & E2 & _ & _ & _ & _ & Hslot)]].
    + destruct (dispatch_cases _ _ _ _ _ E) as [[Hc _]|[(id & h & s2 & _ & _ & _ & E1 & E2 & E3 & _ & _ & _ & p & Ho)|(_ & _ & Ho)]].
      * destruct (Hcore _ _ Hc) as (E1 & _ & E2 & E3). apply (moved_follows s); auto. by left; left.
      * apply outcome_follows in Ho; [|exact Hf]. unfold follows in *. by rewrite <-E1, <-E2, <-E3.
      * by eapply outcome_follows.
    + destruct (retry_leaves s) as (E1 & _ & _ & E2 & _ & Hslot & _). apply (moved_follows s); auto.
    + apply (moved_follows s); auto. destruct Hslot as [Hslot|Hslot]; [left; by left|by right].
  - intros g r res E.
    assert (Hgo : ∀ g r s s' ok, store_outcome g r s s' ok →
      (¬ at_rest s → svc_state s' = svc_state s ∧ svc_configurator s' = svc_configurator s) ∧
      (ok = false → svc_state s' = svc_state s) ∧
      (svc_state s' ≠ svc_state s → svc_orchestrator s' = slot_for s (svc_state s'))).
    { clear. intros g r s s' ok [E1 E2 _ _ _ _ _ _|k Hrest _ Hc _ _ _ _ _ Es]; [done|].
      split_and!; [done| |].
      - intros ->. by apply failed_change in Hc.
      - intros Hne. destruct ok; [done|]. by apply failed_change in Hc. }
    destruct (dispatch_cases _ _ _ _ _ E) as [[Hc _]|[(id & h & s2 & _ & _ & _ & E1 & E2 & _ & _ & E3 & _ & p & Ho)|(_ & _ & Ho)]].
    + destruct (Hcore _ _ Hc) as (E1 & E2 & _ & _). done.
    + rewrite <-E1, <-E2, <-E3. by apply Hgo in Ho.
    + by apply Hgo in Ho.
Qed.

(** C31. Without an approval, no server is trusted that was not, none is turned on, and nothing more is sent around the
    tunnel by a rule of its own: whatever else is asked, in any order, every server of the store is one it had, at the
    address and with the secrets it had, and enabled only if it was, and every rule around the tunnel is one it had; and
    the definitions that connections use do not change by a request. *)
Theorem nothing_new_without_approval s s' :
  svc_hold s = true → rtc (step (fun r => ∀ id, r ≠ ApproveChange id)) s s' →
  nothing_new (svc_state s) (svc_state s') ∧
  ∀ g r s'' res, (∀ id, r ≠ ApproveChange id) → dispatch g r s' = Some (s'', res) →
    fs_definitions <$> svc_feed s'' = fs_definitions <$> svc_feed s'.
Proof.
  intros Hh Hs.
  assert (svc_hold s' = true ∧ nothing_new (svc_state s) (svc_state s')) as [Hh' Hnew].
  { revert Hh. induction Hs as [s|s s1 s' Hs _ IH]; [by split|]. intros Hh.
    assert (svc_hold s1 = true ∧ nothing_new (svc_state s) (svc_state s1)) as [Hh1 Hn1];
      [|destruct (IH Hh1) as [? ?]; split; [done|by etransitivity]].
    destruct (step_cases _ _ _ Hs) as [(g & r & res & Hr & E)|[->|(E1 & _ & E2 & _)]].
    - destruct (dispatch_cases _ _ _ _ _ E) as [[Hc _]|[(id & _ & _ & -> & _)|(Hred & _ & Ho)]].
      + unfold same_core, core in Hc. injection Hc as E1 _ _ _ _ _ _ _ _ E2 _. by rewrite E1, E2.
      + by destruct (Hr id).
      + destruct Ho as [E1 _ _ E2 _ _ _ _|k _ _ Hc _ E2 _ _ _ _]; rewrite E2; (split; [done|]); [by rewrite E1|].
        eapply unheld_change; [exact Hc|by apply Hred].
    - destruct (retry_leaves s) as (E1 & _ & E2 & _). by rewrite E1, E2.
    - by rewrite E1, E2. }
  split; [done|]. intros g r s'' res Hr E.
  destruct (dispatch_cases _ _ _ _ _ E) as [[_ Hf]|[(id & _ & _ & -> & _)|(Hred & _ & Ho)]].
  - by rewrite Hf.
  - by destruct (Hr id).
  - destruct Ho as [_ _ _ _ _ _ _ Hf|k _ _ _ _ _ _ _ Hf _]; [|by rewrite Hf].
    apply Hf. intros d ->. by specialize (Hred Hh').
Qed.

(** The wish is known to be off. *)
Definition off (s : DnetService) : Prop := match svc_intent s with Some i => wish i = Some Off | None => True end.

Lemma disconnect_intent s s' r : apply_disconnect s = Some (s', r) → svc_intent s' = (fun i => (intent_forget i).1) <$> svc_intent s.
Proof.
  assert (svc_intent (forget s) = (fun i => (intent_forget i).1) <$> svc_intent s) as E
    by (unfold forget; by destruct (svc_intent s) eqn:Ei; [|rewrite Ei]).
  unfold apply_disconnect. destruct (svc_orchestrator (forget s)) as [o|]; [|by intros [= <- _]].
  destruct (h_disconnect o) as [o' [u|e]]; by intros [= <- _].
Qed.

Lemma forgotten_off (i : Intent (F := F)) : wish (intent_forget i).1 = Some Off.
Proof. unfold intent_forget. by destruct (file_remove (int_file i)). Qed.

Lemma apply_disconnect_when_safe g s : ¬ unsafe s → apply g Protocol.Disconnect s = apply_disconnect s.
Proof.
  intros Hu. unfold apply, unsafe in *. simpl. unfold mbind, op_bind, refuse_while_unsafe.
  destruct (svc_recovery s); [|by destruct Hu; left]. by destruct (svc_refusal s); [destruct Hu; right|].
Qed.

Lemma off_step s s' : (∀ h, h ∈ held (svc_pending s) → holdable (held_request h) = true) →
  step (fun r => ∀ a p e, r ≠ Connect a p e) s s' → off s → off s'.
Proof.
  intros Hp Hs Hoff. unfold off in *.
  assert (Hleft : ∀ g r s s' ok, store_outcome g r s s' ok → (∀ a p e, r ≠ Connect a p e) → r ≠ Protocol.Disconnect → svc_intent s' = svc_intent s).
  { clear. by intros g r s s' ok [_ _ _ _ _ _ Hi _|k _ _ _ _ _ _ Hi _ _]; auto. }
  destruct (step_cases _ _ _ Hs) as [(g & r & res & Hr & E)|[->|(_ & _ & _ & _ & _ & Ei & _)]]; [|..|by rewrite Ei].
  - destruct (decide (r = Protocol.Disconnect)) as [->|Hd].
    + pose proof (dispatch_inv _ _ _ _ _ E) as [[[Hc _] _]|[(? & ? & ? & ? & _)|(_ & _ & Ha)]]; [|done|].
      * unfold same_core, core in Hc. injection Hc as _ _ _ _ _ _ _ Ei _ _ _. by rewrite Ei.
      * unfold apply in Ha. apply op_bind_inv in Ha as [(u & s1 & [= <- _] & Ha)|(e & [= <- _] & _)]; [|done].
        rewrite (disconnect_intent _ _ _ Ha). destruct (svc_intent s); [apply forgotten_off|done].
    + destruct (dispatch_cases _ _ _ _ _ E) as [[Hc _]|[(id & h & s2 & _ & Hin & _ & _ & _ & _ & Ei & _ & _ & q & Ho)|(_ & _ & Ho)]].
      * unfold same_core, core in Hc. injection Hc as _ _ _ _ _ _ _ Ei _ _ _. by rewrite Ei.
      * rewrite <-Ei. specialize (Hp h Hin). rewrite (Hleft _ _ _ _ _ Ho); [done|intros a p e Eh; by rewrite Eh in Hp|intros Eh; by rewrite Eh in Hp].
      * by rewrite (Hleft _ _ _ _ _ Ho).
  - destruct (retry_leaves s) as (_ & _ & _ & _ & _ & _ & _ & _ & Ei). rewrite Ei. destruct (svc_intent s) as [i|]; [|done].
    simpl. unfold intent_load. rewrite Hoff. done.
Qed.

(** C36. The person's last word is kept. A disconnect that is taken is remembered whatever the orchestrator answers, and
    from then on, until a connect is asked for again, no retry asks the orchestrator for anything, whatever else is
    asked or approved meanwhile; a connect is remembered, with the profile it named, exactly when it was accepted. *)
Theorem last_word_is_kept s g s1 res :
  ¬ unsafe s → (∀ h, h ∈ held (svc_pending s) → holdable (held_request h) = true) →
  (dispatch g Protocol.Disconnect s = Some (s1, res) →
     svc_intent s1 = (fun i => (intent_forget i).1) <$> svc_intent s ∧
     ∀ s', rtc (step (fun r => ∀ a p e, r ≠ Connect a p e)) s1 s' →
       svc_orchestrator (retry_if_left_on s').1 = svc_orchestrator s' ∧ (retry_if_left_on s').2 = TickIdle) ∧
  (∀ a p e, dispatch g (Connect a p e) s = Some (s1, res) →
     svc_intent s1 = match res with Ok _ => (fun i => (remember_on p i).1) <$> svc_intent s | Err _ => svc_intent s end).
Proof.
  intros Hu Hp. split.
  - intros E.
    assert (apply_disconnect s = Some (s1, res)) as Ha.
    { rewrite <-(apply_disconnect_when_safe g) by done. unfold dispatch in E. by destruct (svc_hold s). }
    pose proof (disconnect_intent _ _ _ Ha) as Ei. split; [done|]. intros s' Hs.
    assert (off s1) as Hoff by (unfold off; rewrite Ei; destruct (svc_intent s); [apply forgotten_off|done]).
    pose proof (proj2 (dispatch_pending _ _ _ _ _ E) Hp) as Hp1. clear -Hs Hoff Hp1.
    assert (off s') as Hoff'.
    { revert Hoff Hp1. induction Hs as [s|s s2 s' Hs _ IH]; [done|]. intros Hoff Hp. apply IH; [by eapply off_step|].
      destruct (step_cases _ _ _ Hs) as [(g & r & res & _ & E)|[->|(_ & Ep & _)]].
      - by apply (dispatch_pending _ _ _ _ _ E).
      - destruct (retry_leaves s) as (_ & Ep & _). by rewrite Ep.
      - by rewrite Ep. }
    unfold off in Hoff'. unfold retry_if_left_on, service_retry, retry_service, wished. destruct (svc_intent s') as [i|]; [|done].
    unfold intent_load. by rewrite Hoff'.
  - intros a p e E.
    assert (apply_connect p e s = Some (s1, res)) as Ha.
    { unfold dispatch in E. simpl in E. assert (apply g (Connect a p e) s = Some (s1, res)) as E' by by destruct (svc_hold s).
      unfold apply, unsafe in *. simpl in E'. unfold mbind, op_bind, refuse_while_unsafe in E'.
      destruct (svc_recovery s); [|by destruct Hu; left]. by destruct (svc_refusal s); [destruct Hu; right|]. }
    unfold apply_connect in Ha. destruct (svc_orchestrator s) as [o|]; [|by injection Ha as <- <-].
    destruct (bool_decide (is_Some e)); [by injection Ha as <- <-|].
    destruct (h_connect p o) as [o' [u|er]]; injection Ha as <- <-; [|done]. unfold remember. simpl.
    destruct (svc_intent s) eqn:Ei; simpl; rewrite ?Ei; done.
Qed.
End Theorems.

(** A request that is answered with the id of a waiting change waits under that id, since now or since before. *)
Lemma waits_when_asked s g r s1 id what :
  dispatch g r s = Some (s1, Err (ApprovalRequired id what)) → svc_hold s = true → redirects (svc_state s) r = true →
  same_but_waiting s s1 ∧
  ∃ h, h ∈ held (svc_pending s1) ∧ held_id h = id ∧ held_request h = r ∧
    (h ∈ held (svc_pending s) ∨ proposed_unix_ms h = now_ms g).
Proof.
  intros E Hh Hr. assert (hold_change g r what s = Some (s1, Err (ApprovalRequired id what))) as Ehold.
  { destruct (redirects_traffic s r) as [w|] eqn:Ew; [|apply redirects_traffic_iff in Ew; congruence].
    assert (dispatch g r s = hold_change g r w s) as Ed.
    { clear E. unfold dispatch. rewrite Hh, Ew. by destruct r. }
    rewrite Ed in E. assert (w = what) as <-; [|exact E]. unfold hold_change in E.
    apply op_bind_inv in E as [(u & s2 & _ & E)|(e & E & [= <-])].
    - unfold hold_it in E. destruct (hold _ _ _ _ _) as [[p [i|[]]]|]; try done. by injection E as _ _ ->.
    - unfold refuse_while_unsafe in E. injection E as _ E. destruct (svc_recovery s); [|done]. by destruct (svc_refusal s). }
  split; [by eapply hold_core|]. unfold hold_change in Ehold.
  apply op_bind_inv in Ehold as [(u & s2 & [= <- _] & E2)|(e & E2 & [= <-])].
  2: { exfalso. unfold refuse_while_unsafe in E2. injection E2 as _ E2. destruct (svc_recovery s); [|done]. by destruct (svc_refusal s). }
  unfold hold_it in E2.
  destruct (hold_cases r what (now_ms g) (fresh_change_id (random_bytes g)) (svc_pending s)) as (x & p & Eh & Hc).
  rewrite Eh in E2. simpl in E2. injection E2 as <- Ex.
  destruct Hc as [(h & Hin & Hq & -> & ->)|[(-> & -> & _)|(h & -> & -> & Hq & _ & Hp & _)]]; [|done|].
  - exists h. injection Ex as <-. split_and!; [done..|]. left. by apply elem_of_filter_bool in Hin as [Hin _].
  - exists h. injection Ex as <-. split_and!; [|done..|by right]. apply elem_of_app. right. by left.
Qed.

(** A change that waits is carried out on approval for as long as it is held, and after that it is not. *)
Lemma approved_while_held s g h :
  rtc pending_step (mkPending []) (svc_pending s) → h ∈ held (svc_pending s) →
  let before := set_pending (expire (now_ms g) (svc_pending s)) s in
  let answer := dispatch g (ApproveChange (held_id h)) s in
  expires_unix_ms h = Z.min U64_MAX (proposed_unix_ms h + 600000) ∧
  (now_ms g < expires_unix_ms h →
     match apply g (held_request h) before with
     | None => answer = None
     | Some (s3, Ok reply) => ∃ s4, answer = Some (s4, Ok reply) ∧ same_but_waiting s3 s4 ∧ h ∉ held (svc_pending s4)
     | Some (s3, Err e) => answer = Some (s3, Err e) ∧ h ∈ held (svc_pending s3)
     end) ∧
  (expires_unix_ms h ≤ now_ms g → answer = Some (before, Err (unknown_change Expired)) ∧ h ∉ held (svc_pending before)).
Proof.
  intros Hreach%pending_reachable Hin before answer. pose proof (found_until _ h (now_ms g) Hreach Hin) as Ef.
  split_and!; [exact (po_times _ Hreach h Hin)| |].
  - intros Ht. assert (find (held_id h) (now_ms g) (svc_pending s) = (expire (now_ms g) (svc_pending s), Ok h)) as Efind.
    { rewrite (proj2 (Z.ltb_lt _ _) Ht) in Ef. rewrite (surjective_pairing (find _ _ _)), Ef. done. }
    unfold answer. rewrite (approve_eq _ _ _ _ _ Efind). fold before.
    destruct (apply g (held_request h) before) as [[s3 [reply|e]]|] eqn:Ea; [| |done].
    + eexists. split; [reflexivity|]. split; [by split|]. simpl. intros [_ Hn]%elem_of_filter_bool. by rewrite String.eqb_refl in Hn.
    + split; [done|]. apply apply_outcome in Ea. assert (svc_pending s3 = expire (now_ms g) (svc_pending s)) as ->; [by destruct Ea|].
      simpl. apply elem_of_filter_bool. split; [done|]. by apply Z.ltb_lt.
  - intros Ht. rewrite (proj2 (Z.ltb_ge _ _) Ht) in Ef. split.
    + unfold answer, dispatch, approve_change, mbind, op_bind, find_held.
      by rewrite (surjective_pairing (find _ _ _)), Ef.
    + intros [_ Hn%Z.ltb_lt]%elem_of_filter_bool. lia.
Qed.

(** C35. What is approved is what was asked. A request that is answered with the id of a change that waits has changed
    nothing. The change waits since then, or since it was first asked; until 600000 milliseconds, ten minutes, after
    that, in whatever state the service is by then if the change still waits there, approving that id does exactly what
    the request would have done unheld, and answers as it would have; when that succeeds the change waits no more, and
    when it fails it still does. Once the ten minutes are over, approving it is refused as expired, does nothing, and
    the change waits no more. *)
Theorem approval_applies_what_was_asked s g r s1 id what :
  dispatch g r s = Some (s1, Err (ApprovalRequired id what)) → svc_hold s = true → redirects (svc_state s) r = true →
  same_but_waiting s s1 ∧
  ∃ h, h ∈ held (svc_pending s1) ∧ held_id h = id ∧ held_request h = r ∧
    (h ∈ held (svc_pending s) ∨ proposed_unix_ms h = now_ms g) ∧
    ∀ g' s2, rtc pending_step (mkPending []) (svc_pending s2) → h ∈ held (svc_pending s2) →
      let before := set_pending (expire (now_ms g') (svc_pending s2)) s2 in
      let until := Z.min U64_MAX (proposed_unix_ms h + 600000) in
      (now_ms g' < until →
         match apply g' r before with
         | None => dispatch g' (ApproveChange id) s2 = None
         | Some (s3, Ok reply) =>
             ∃ s4, dispatch g' (ApproveChange id) s2 = Some (s4, Ok reply) ∧ same_but_waiting s3 s4 ∧ h ∉ held (svc_pending s4)
         | Some (s3, Err e) =>
             dispatch g' (ApproveChange id) s2 = Some (s3, Err e) ∧ h ∈ held (svc_pending s3)
         end) ∧
      (until ≤ now_ms g' →
         dispatch g' (ApproveChange id) s2 = Some (before, Err (unknown_change Expired)) ∧ h ∉ held (svc_pending before)).
Proof.
  intros E Hh Hr. destruct (waits_when_asked _ _ _ _ _ _ E Hh Hr) as (Hs & h & Hin & <- & Hreq & Hsince).
  split; [done|]. exists h. split_and!; [done..|]. intros g' s2 Hreach Hin2 before until.
  destruct (approved_while_held s2 g' h Hreach Hin2) as (Ht & Hyes & Hno). unfold until. rewrite <-Ht, <-Hreq.
  by split.
Qed.

End Service.

(** ** The service over the real orchestrator *)

Section Whole.
Context `{UuidDisplay}.

(** The three parts of a connect with no other client's in between: the store's lock is held over them. *)
(* src: crates/dnetd/src/orchestrator.rs:256-286 Handle::connect *)
Definition handle_connect (p : option ProfileId) (o : System) : System * result IpcError unit :=
  match connect_claim p o with
  | (o1, Err e) => (o1, Err e)
  | (o1, Ok _) =>
      match connect_look (callers o) [] p o1 with
      | (o2, Err e) => (o2, Err e)
      | (o2, Ok _) => connect_send (callers o) [] p o2
      end
  end.

#[export] Instance system_handles : Handles System := {|
  h_is_idle := is_idle;
  h_snapshot := handle_snapshot;
  h_paths o := tel_paths (telemetry (actor o));
  h_stats now o := telemetry_stats now (telemetry (actor o));
  h_connect := handle_connect;
  h_disconnect := handle_disconnect;
  h_retire := retire;
|}.

#[export] Instance system_laws : HandlesLaws System sys_step.
Proof.
  split; [|intros o; apply rtc_once, ask_disconnect].
  intros p o. simpl. unfold handle_connect. pose proof (ask_connect p o) as H1. unfold connect_claim in *.
  destruct (connecting o); simpl in *; [by apply rtc_once|].
  pose proof (look_connect (callers o) [] p (set_callers (callers o ++ [Claimed p]) (set_connecting true o)) eq_refl) as H2.
  unfold connect_look in *. cbn [stored set_callers set_connecting] in *. destruct (is_free (status (stored o))); simpl in *.
  - eapply rtc_l; [exact H1|]. eapply rtc_l; [exact H2|].
    apply rtc_once, (send_connect (callers o) [] p (set_callers (callers o ++ [Passed p]) (set_callers (callers o ++ [Claimed p]) (set_connecting true o))) eq_refl).
  - eapply rtc_l; [exact H1|]. by apply rtc_once.
Qed.

(** An idle orchestrator has no connection, makes none, and nothing has asked it to. *)
Lemma idle_is_free k o : fit k o → is_idle o = true →
  free_phase (engine (actor o)) = true ∧ (leaving o = false → holders o = 0%nat) ∧ (tunnels (pending o) = [] → Orchestrator.machine o = Down).
Proof.
  intros Hf Hi. apply andb_prop in Hi as [Hc Hfree]. apply negb_true_iff in Hc.
  assert (free_phase (engine (actor o)) = true) as Hphase.
  { destruct (leaving o) eqn:El.
    - pose proof (fit_end _ _ Hf) as He. rewrite El in He. destruct He as [Hp _]. unfold free_phase. by rewrite Hp.
    - destruct (free_phase (engine (actor o))) eqn:Ep; [done|].
      destruct (fit_stored _ _ Hf El Ep) as [Hs|Hl]; [congruence|].
      pose proof (fit_holders _ _ Hf El) as Hh. unfold holders in Hh. rewrite Hc, Hl in Hh. lia. }
  split; [done|]. split.
  - intros El. by rewrite (fit_holders _ _ Hf El), Hc.
  - intros Ht. pose proof (sound_phase _ _ _ _ _ (fit_sound _ _ Hf)) as Hp. unfold free_phase in Hphase.
    destruct (e_phase (engine (actor o))); try done; (destruct Hp as [[_ ?]|(l & w & E & _)]; [done|]; rewrite Ht in E; by destruct l).
Qed.
End Whole.

Section Settings.
Context {F S C U : Type} `{StateFile F, SecretStore S C, BundlePorts C, CredentialForm C, !EqDecision C}.
Context `{ServerSetups U C, UuidText, DebugText, ConfigText, JsonText, ToLowercase, Broadcast}.
Context `{FeedPrimitives, KeysWire, FeedWire}.
Context (trial : FeedDocument → option (result string unit)).

(** C34. Whenever a request changes the store, the orchestrator that is there holds no connection: its engine is at
    rest, no request to connect is on its way to it, and no tunnel is up unless the work to stop it is still queued. *)
Theorem settings_never_change_under_a_tunnel g r (s s' : DnetService (F := F) (S := S) (C := C) (O := System) (U := U)) res o ps eps n :
  dispatch trial g r s = Some (s', res) → svc_orchestrator s = Some o →
  nsteps sys_step n (spawn (engine_new ps eps)) o → Z.of_nat n < 2 ^ 64 → svc_state s' ≠ svc_state s →
  free_phase (engine (actor o)) = true ∧ (leaving o = false → holders o = 0%nat) ∧ (tunnels (pending o) = [] → Orchestrator.machine o = Down).
Proof.
  intros E Ho Hrun Hn Hne. pose proof (changed_at_rest _ _ _ _ _ _ E Hne) as Hrest. unfold at_rest in Hrest. rewrite Ho in Hrest.
  by apply (idle_is_free _ _ (fit_run _ _ _ _ Hrun Hn)).
Qed.
End Settings.

(** * Witnesses *)

Module ServiceDemo.
Import ConfigureDemo.
#[export] Existing Instance ConfigureDemo.digits_text.
#[export] Instance form : CredentialForm string := {|
  creds_is_empty := str_is_empty; from_plaintext_json := Ok; to_plaintext_json := Ok;
|}.
#[export] Instance ports : BundlePorts string := {|
  amneziawg_port _ := Some 51820; hysteria2_port _ := None; reality_port _ := None;
|}.
#[export] Instance replies : JsonText := {| from_str _ := Err "nothing is read"; json_to_string _ := "reply" |}.
#[export] Instance lower : ToLowercase := to_ascii_lowercase.
#[export] Existing Instance EventBus.Demo.log.
#[export] Existing Instances Toy.primitives Toy.keys_wire Toy.feed_wire ToyText.debug_text.
#[export] Instance two_ids : UuidText := {|
  uuid_display := fun u => if u =? 8 then "8" else "7";
  uuid_parse_str s := if String.eqb s "8" then Some 8 else if String.eqb s "7" then Some 7 else None;
|}.
#[export] Instance no_setups : ServerSetups unit string := {|
  setup_prepare _ _ u := (u, Err NoDownloads);
  setup_finish _ _ u := (u, Err NothingWaits);
  setup_complete u := u;
|}.
Definition fresh : Configurator (option string) (gmap string string) := mkConfigurator None ∅.
Definition Demo : Type := DnetService (F := option string) (S := gmap string string) (C := string) (O := System) (U := unit).
Definition build (st : DomainState) : System := spawn (engine_new (ds_profiles st) (ds_endpoints st)).

(** A first run with nothing wrong, and one after a crash that could not be restored. *)
Definition fine : Demo :=
  with_production_orchestrator true build
    (with_intent (intent_new None) (with_configurator fresh (service_new first (Ok (mkRecovered journal_default 0 0)) 0))).
Definition hurt : Demo :=
  with_intent (intent_new (Some "on")) (with_configurator fresh (service_new first (Err (OrphanCores "denied")) 0)).
Definition at_ms (t : Z) : Given := mkGiven t t [18; 52; 86; 120] 7 ids.
Definition minting (t id : Z) : Given := mkGiven t t [18; 52; 86; 120] id ids.

(** A wish to be connected, kept from before. *)
Definition wished_on : Demo :=
  with_production_orchestrator true build
    (with_intent (intent_new (Some "on")) (with_configurator fresh (service_new first (Ok (mkRecovered journal_default 0 0)) 0))).

Definition around : Request (C := string) := AddRule (DomainSuffix "e.cn") Bypass.
Definition keep_mail : Request (C := string) := AddRule (DomainSuffix "mail.e.cn") Tunnel.
Definition to_mail : Flow := mkFlow (Named "mail.e.cn") 443 TransportTcp None.
Definition bypass_rules (st : DomainState) : list RuleMatcher :=
  map matcher (List.filter (fun r => match action r with Bypass => true | _ => false end)
    (List.filter (fun r => match matcher r with DomainSuffix d => String.eqb d "e.cn" | _ => false end) (ds_rules st))).
End ServiceDemo.
Import ServiceDemo.

(** A failed recovery: a connect is refused, the remembered wish stays, and no orchestrator ever comes. *)
Lemma unsafe_service_changes_nothing_witness :
  ∃ s' detail, dispatch FeedDemo.try_all (at_ms 5) (Connect false None None) hurt = Some (s', Err (InternalError detail)) ∧
    svc_intent s' = Some (intent_new (Some "on")) ∧
    svc_orchestrator (retry_if_left_on (with_production_orchestrator true build hurt)).1 = None.
Proof.
  destruct (unsafe_service_changes_nothing FeedDemo.try_all sys_step hurt ltac:(left; reflexivity)) as [Hone Hall].
  destruct (dispatch FeedDemo.try_all (at_ms 5) (Connect false None None) hurt) as [[s' res]|] eqn:E; [|vm_compute in E; discriminate E].
  destruct (Hone _ _ _ _ E) as [Hc Hr]. destruct (Hr eq_refl ltac:(done)) as [detail ->].
  exists s', detail. split; [reflexivity|]. split.
  - unfold same_core, core in Hc. injection Hc as _ _ _ _ _ _ _ Ei _ _ _. exact Ei.
  - apply (Hall true build); [reflexivity|]. apply rtc_once. constructor.
Defined.

(** The block of encrypted DNS is given up: the store has changed, and the orchestrator is one made from it. *)
Lemma orchestrator_follows_the_store_witness :
  ∃ s' res, dispatch FeedDemo.try_all (at_ms 5) (SetEncryptedDnsHandling false) fine = Some (s', res) ∧
    svc_orchestrator s' = Some (build (svc_state s')) ∧ follows sys_step s'.
Proof.
  destruct (dispatch FeedDemo.try_all (at_ms 5) (SetEncryptedDnsHandling false) fine) as [[s' res]|] eqn:E;
    [|vm_compute in E; discriminate E].
  exists s', res. split; [reflexivity|]. destruct (orchestrator_follows_the_store FeedDemo.try_all sys_step fine s') as [Hf Hd].
  destruct (Hd _ _ _ E) as (_ & _ & Hslot). split.
  - refine (Hslot _). intros Es. apply (f_equal (fun st => length (ds_rules st))) in Es. vm_compute in E. injection E as <- _.
    vm_compute in Es. discriminate Es.
  - apply Hf; [intros rebuild o [= <-] [= <-]; apply rtc_refl|]. apply rtc_once. econstructor; [exact I|exact E].
Defined.

Lemma nothing_new_without_approval_witness :
  ∃ s' res, dispatch FeedDemo.try_all (at_ms 5) (SetEncryptedDnsHandling false) fine = Some (s', res) ∧
    nothing_new (svc_state fine) (svc_state s').
Proof.
  destruct (dispatch FeedDemo.try_all (at_ms 5) (SetEncryptedDnsHandling false) fine) as [[s' res]|] eqn:E;
    [|vm_compute in E; discriminate E].
  exists s', res. split; [reflexivity|].
  apply (nothing_new_without_approval FeedDemo.try_all sys_step fine s' eq_refl). apply rtc_once. econstructor; [|exact E].
  intros id. discriminate.
Defined.

(** A rule around the tunnel is asked for, waits, and is there once it is approved. *)
Lemma approval_applies_what_was_asked_witness :
  ∃ s1 id what s4 reply, dispatch FeedDemo.try_all (at_ms 5) around fine = Some (s1, Err (ApprovalRequired id what)) ∧
    svc_state s1 = svc_state fine ∧
    dispatch FeedDemo.try_all (at_ms 1000) (ApproveChange id) s1 = Some (s4, Ok reply) ∧
    bypass_rules (svc_state s1) = [] ∧ bypass_rules (svc_state s4) = [DomainSuffix "e.cn"].
Proof.
  destruct (dispatch FeedDemo.try_all (at_ms 5) around fine) as [[s1 [u|e]]|] eqn:E;
    [vm_compute in E; discriminate E| |vm_compute in E; discriminate E].
  destruct e as [| | | | | |id what|]; try (vm_compute in E; discriminate E).
  destruct (approval_applies_what_was_asked FeedDemo.try_all fine (at_ms 5) around s1 id what
    E eq_refl eq_refl) as ([Hcore _] & h & Hin & Hid & Hreq & _ & Happrove).
  assert (Hreach : rtc pending_step (mkPending []) (svc_pending s1)).
  { exact (proj1 (dispatch_pending _ _ _ _ _ _ E)). }
  assert (Ht : 1000 < Z.min U64_MAX (proposed_unix_ms h + 600000)).
  { vm_compute in E. injection E as <- _ _. apply list_elem_of_singleton in Hin as ->. reflexivity. }
  destruct (Happrove (at_ms 1000) s1 Hreach Hin) as [Hyes _]. specialize (Hyes Ht). cbv zeta in Hyes.
  destruct (apply FeedDemo.try_all (at_ms 1000) around (set_pending (expire (now_ms (at_ms 1000)) (svc_pending s1)) s1))
    as [[s3 [reply|e]]|] eqn:Ea; [|vm_compute in E; injection E as <- _ _; vm_compute in Ea; discriminate Ea..].
  destruct Hyes as (s4 & Ed & [Hc _] & _). exists s1, id, what, s4, reply.
  split; [reflexivity|]. assert (svc_state s1 = svc_state fine) as Es by (unfold same_core, core in Hcore; by injection Hcore as ->).
  split; [exact Es|]. split; [exact Ed|]. split; [rewrite Es; vm_compute; reflexivity|].
  unfold same_core, core in Hc. injection Hc as -> _. vm_compute in E. injection E as <- _ _. vm_compute in Ea. injection Ea as <- _.
  vm_compute. reflexivity.
Defined.

(** The person disconnects while a wish to be connected is remembered: it is forgotten, and nothing connects by itself. *)
Lemma last_word_is_kept_witness :
  ∃ s1 res, dispatch FeedDemo.try_all (at_ms 5) Protocol.Disconnect wished_on = Some (s1, res) ∧
    svc_intent s1 = (fun i => (intent_forget i).1) <$> svc_intent wished_on ∧
    (retry_if_left_on s1).2 = TickIdle ∧
    ∃ s2, dispatch FeedDemo.try_all (at_ms 5) (Connect false None None) fine = Some (s2, Ok ACCEPTED) ∧
      svc_intent s2 = (fun i => (remember_on None i).1) <$> svc_intent fine.
Proof.
  destruct (dispatch FeedDemo.try_all (at_ms 5) Protocol.Disconnect wished_on) as [[s1 res]|] eqn:E; [|vm_compute in E; discriminate E].
  assert (Hsafe : ∀ s : Demo, svc_recovery s = Ok (mkRecovered journal_default 0 0) → svc_refusal s = None → ¬ unsafe s).
  { intros s Hr Hk [Hu|[why Hu]]; [by rewrite Hr in Hu|congruence]. }
  destruct (last_word_is_kept FeedDemo.try_all sys_step wished_on (at_ms 5) s1 res
    ltac:(apply Hsafe; reflexivity) ltac:(intros h Hh; by apply not_elem_of_nil in Hh)) as [Hoff _].
  destruct (Hoff E) as [Ei Hstays]. exists s1, res. split; [reflexivity|]. split; [exact Ei|].
  split; [exact (proj2 (Hstays s1 (rtc_refl _ _)))|].
  destruct (dispatch FeedDemo.try_all (at_ms 5) (Connect false None None) fine) as [[s2 r2]|] eqn:E2; [|vm_compute in E2; discriminate E2].
  destruct (last_word_is_kept FeedDemo.try_all sys_step fine (at_ms 5) s2 r2
    ltac:(apply Hsafe; reflexivity) ltac:(intros h Hh; by apply not_elem_of_nil in Hh)) as [_ Hon].
  specialize (Hon _ _ _ E2). exists s2.
  assert (r2 = Ok ACCEPTED) as -> by (vm_compute in E2; by injection E2 as _ <-). by split.
Defined.

(** The encrypted-DNS setting is changed while the orchestrator rests. *)
Lemma settings_never_change_under_a_tunnel_witness :
  ∃ s' res o, dispatch FeedDemo.try_all (at_ms 5) (SetEncryptedDnsHandling false) fine = Some (s', res) ∧
    svc_orchestrator fine = Some o ∧ free_phase (engine (actor o)) = true ∧ Orchestrator.machine o = Down.
Proof.
  destruct (dispatch FeedDemo.try_all (at_ms 5) (SetEncryptedDnsHandling false) fine) as [[s' res]|] eqn:E;
    [|vm_compute in E; discriminate E].
  destruct (settings_never_change_under_a_tunnel FeedDemo.try_all (at_ms 5) (SetEncryptedDnsHandling false) fine s' res
    (build ConfigureDemo.first) (ds_profiles ConfigureDemo.first) (ds_endpoints ConfigureDemo.first) 0 E eq_refl (nsteps_O _ _) eq_refl) as (Hp & _ & Hd).
  { intros Es. apply (f_equal (fun st => length (ds_rules st))) in Es. vm_compute in E. injection E as <- _.
    vm_compute in Es. discriminate Es. }
  exists s', res, (build ConfigureDemo.first). split; [reflexivity|]. split; [reflexivity|]. split; [exact Hp|exact (Hd eq_refl)].
Defined.

(** ** What needs no approval

    A rule that keeps a name in the tunnel, in front of an approved one that sends its suffix around it, is removed
    without an approval; the name's traffic then goes around the tunnel. *)
Lemma a_removed_rule_can_bypass :
  ∃ (s s' : Demo) rule, redirects_traffic s (RemoveRule rule) = None ∧
    dispatch FeedDemo.try_all (at_ms 2000) (RemoveRule rule) s = Some (s', Ok APPLIED) ∧
    decided_action (evaluate (ds_rules (svc_state s)) to_mail) = Tunnel ∧
    decided_action (evaluate (ds_rules (svc_state s')) to_mail) = Bypass.
Proof.
  destruct (dispatch FeedDemo.try_all (minting 5 8) keep_mail fine) as [[s1 r1]|] eqn:E1; [|vm_compute in E1; discriminate E1].
  destruct (dispatch FeedDemo.try_all (minting 6 7) around s1) as [[s2 r2]|] eqn:E2;
    [|vm_compute in E1; injection E1 as <- _; vm_compute in E2; discriminate E2].
  destruct (dispatch FeedDemo.try_all (minting 1000 7) (ApproveChange "12345678") s2) as [[s3 r3]|] eqn:E3;
    [|vm_compute in E1; injection E1 as <- _; vm_compute in E2; injection E2 as <- _; vm_compute in E3; discriminate E3].
  destruct (dispatch FeedDemo.try_all (at_ms 2000) (RemoveRule 8) s3) as [[s4 r4]|] eqn:E4;
    [|vm_compute in E1; injection E1 as <- _; vm_compute in E2; injection E2 as <- _; vm_compute in E3; injection E3 as <- _;
      vm_compute in E4; discriminate E4].
  exists s3, s4, 8. split; [reflexivity|].
  vm_compute in E1; injection E1 as <- _; vm_compute in E2; injection E2 as <- _; vm_compute in E3; injection E3 as <- _.
  rewrite E4. vm_compute in E4. injection E4 as <- <-. vm_compute. by repeat split.
Qed.
